(* ===== verification/_CoqProject ===== *)
-Q . S2P
Prelude.v
GoString.v
GoFloat.v
Errors.v
Timestamp.v
TypedValue.v
Transit.v
Status.v
Batcher.v
Codec.v
EventsBatch.v
MetricsBatch.v
TaskQueue.v
Payload.v
Json.v
Tracer.v
Http.v
Nats.v
Dispatcher.v
Clients.v
Delivery.v
TransitService.v
Agent.v
Demand.v
Expr.v
ExprSpec.v
FloatText.v
AgentTasks.v
StatusText.v
Connectors.v
Periodic.v
Access.v
Controller.v
Configuration.v
Regexp.v
NscaParser.v
Nsca.v
Mapping.v
Events.v
Nedi.v
Snmp.v
ElasticClients.v
Elastic.v
K8s.v
Apm.v
Server.v
Oracle.v
Azure.v
Office.v
Libtransit.v
Builders.v
LogMask.v
Logger.v
LogFile.v
Gotocjson.v
GotocjsonTypes.v
GotocjsonOrder.v
