(* ===== verification/Prelude.v ===== *)
(** * Verification library of the Transit Connection Generator (gwos/tcg)

    The program is an agent: connectors collect metrics, events and inventory,
    the transit service batches and publishes them as messages of an embedded NATS
    stream, and a dispatcher delivers every message to each configured Groundwork
    server through an HTTP client.  A configuration is delivered to the agent over
    the controller's HTTP server, which also authenticates the requests.  The
    library models the path from a connector's input to the client calls, the
    configuration, the controller, the logger, and the repository's code generator,
    and proves them correct part by part.

    ** Parts and files

    Foundations:
    - [Prelude] (this file): Go control flow ([outcome]: a value or a panic;
      [result]: a value or an error), integers of a width with their wrap-around,
      the order of map iteration as a class, loops that may panic.
    - [GoString], [GoFloat], [FloatText]: the functions of Go's strings, bytes,
      strconv and float64 that the program uses, and how a number is written and read.
    - [Regexp]: regular expressions with leftmost-first search, and their
      declarative counterpart.
    - [Json]: how [encoding/json] writes a string.
    - [Errors]: sdk/errors/errors.go; wrapped errors, [errors.Is], network errors.

    The data model, sdk/transit:
    - [Timestamp], [TypedValue], [Transit], [Status]: structs, setters, typed
      values, time stamps and the calculation of a status.
    - [Mapping]: sdk/mapping and the mappings of connectors/azure.

    The transit service:
    - [Batcher]: batcher/batcher.go; the buffer, its critical sections and a step
      relation of concurrent producers, ticks, resets and clears.  A builder is the
      class [BatchBuilder], with its promise [BatchBuilderTotal].
    - [Codec]: the interface of the JSON codec, with the round-trip law.
    - [EventsBatch], [MetricsBatch]: batcher/events, batcher/metrics; the two
      instances of the builder.
    - [TaskQueue]: taskqueue/taskqueue.go; the queue, and callers and worker as a
      step relation.
    - [Payload]: services/services.go; payload types and the wrapped formats.
    - [Http], [Clients]: sdk/clients; headers, requests, tokens, and the calls of
      the Groundwork and DalekServices servers.  The network is the class
      [Transport].
    - [Nats], [Dispatcher]: nats/nats.go, nats/dispatcher.go; the life cycle of
      server, stream, publisher and dispatcher, and the delivery with retries.
    - [Tracer], [Agent], [AgentTasks], [Demand]: services/agent.go; the tracer
      context of a payload, the tasks of the agent (configuration, reset, start, stop,
      exit), the service that runs them from its queue for callers and signals, and the
      loop that asks for a configuration.
    - [Delivery]: services/nats.go; publication and the handlers of the durables.
    - [TransitService]: services/transit.go; the operations the connectors call.
    - [Configuration]: config; defaults, the file, the environment, passwords, and
      the merge of a configuration from the server.
    - [Access], [Controller]: services/controller.go; the access check with its
      cache, the routes and the handlers, the listener's loop.

    Connectors:
    - [Expr], [ExprSpec]: connectors/groundworkFunctions.go; the evaluator of
      expressions by rewriting of text, and the meaning of expression trees.
    - [StatusText], [Connectors]: connectors/connectors.go; status texts, and the
      builders of metrics, services, resources and inventories.
    - [Periodic]: connectors/connectors.go, StartPeriodic; the loops that collect,
      and the configurations that start them again.
    - [NscaParser], [Nsca]: connectors/nsca and connectors/checker.
    - [Events]: connectors/events.
    - [Nedi], [Snmp]: connectors/snmp.
    - [ElasticClients], [Elastic]: connectors/elastic.
    - [K8s], [Apm], [Server], [Oracle], [Azure], [Office]: connectors/k8s, apm,
      server, oracle, azure and office.

    Beside the service:
    - [LogMask], [Logger], [LogFile]: logzer; the masking of secrets, the condensing
      writer, and the rotation of the log file.
    - [Libtransit], [Builders]: libtransit; the buffers and handles of the library
      for programs in C, its calls, and the objects a program builds its payloads
      from, in a heap of what their copies share.
    - [Gotocjson], [GotocjsonTypes], [GotocjsonOrder]: gotocjson; the generator's
      command line, constants, declarations and their order.

    A file requires the files of the parts it calls: the transit service publishes
    through [Delivery.Put2Nats], which hands a message to [Nats.Pub]; the dispatcher
    runs a handler of [Delivery.makeDurable_Handler], which calls an operation of
    [Clients]; a connector builds its payload with [Connectors] and hands it to an
    operation of [TransitService].

    ** State and operations

    The state of a part is a record with the fields of the Go struct; an operation
    is a function on it that returns the new state, the error and what it sends.
    Where goroutines share state the operations are atomic sections and a step
    relation interleaves them ([Batcher.step], [TaskQueue.step], [AgentTasks.service_step], [Nats.pub_step],
    [TransitService.transit_step], [Access.auth_step], and as runs of events [Logger.condense_run] and
    [Periodic.steps]); theorems about them are
    invariants of every reachable state.  A Go map that is shared through a context
    is a location of a store ([Http.CtxWithHeader]), and what structs share with their
    copies are cells of a heap ([Builders.heap]).  Names follow the source; the
    manifest gives the lines of each definition.

    ** What the theorems show

    - Conservation: the batcher loses and duplicates nothing in any interleaving
      ([Batcher_conservation]); the builders send what was buffered
      ([EventsBatchBuilder_conservation], [MetricsBatchBuilder_combines],
      [packGroups_spec]), with the exact exception of an oversized metrics payload
      ([xxl2qq_services], [xxl2qq_loses]); the publisher keeps every message
      ([Pub_conservation]); the rotated log files are the newest of
      all that were ever begun ([Writes_keep]), and a condensing writer accounts for
      every line, the ones it loses included ([condenser_accounts]); a collection has every device and every interface
      ([collection_complete], [devices_stay], [hosts_stay]); the hits of a query are
      those of all its pages ([search_all_pages], [collected_hits]); a cluster's
      nodes and pods, the metrics of an exposition, and the resources of a tenancy
      are all collected, each once ([cluster_collected], [extraction_complete],
      [inventory_complete], [collection_sent], [latest_sample_kept]); what a server
      or an office sends was announced ([every_service_announced],
      [hosts_always_up]).
    - Invariants: tasks run once and in order ([TaskQueue_fifo]); the life cycles
      of server, dispatcher and agent ([lifecycle_invariant], [agent_invariant]);
      every message is typed, on its subject, within the limits and has its
      context ([messages_ok]); the access cache holds what was verified, also with
      concurrent requests ([checkAccess_sound], [double_checked_locking]); the
      checker's schedule is the one of the last good configuration
      ([checker_schedule]), and not more than two loops of a connector go on
      ([loops_that_go_on]).
    - Safety: a request that changes something is authorized
      ([changes_need_access]); in a record the strings of secret keys are masked, and
      nothing else is changed ([mask_json_hides]).
    - Refinement and equivalence: concurrent callers of the agent see its calls run one
      after another ([agent_runs_calls]); a published message makes its handler do exactly
      the client operation of its type ([Put2Nats_delivered]); a payload completed
      after the configuration is the one the configured agent would have made
      ([fix_after_mix]); a program in C that leaves alone what it has added gets the
      values it means ([tidy_program_means]); the evaluator by text gives the value
      of the tree ([Evaluate_denotes]); the parsers give the checks of the lines ([Parse_spec]);
      a status text agrees with the status ([status_text_agrees]); a const block has
      the values of its meaning ([counting_block]); the order of a map's iteration
      does not show in an inventory ([inventory_any_order]).
    - Liveness: an accepted task finishes ([accepted_task_finishes]), and the agent
      asks for its configuration until it is answered ([demand_answered]).
    - Errors and termination: acknowledgement and retries ([fetch_round_spec],
      [processMsg_retry_budget]); the verdict on an answer and the renewal of a
      token ([send_result_verdict], [SendRequest_renews_once]); decoding of wrapped
      payloads ([Unmarshal_total]); exit and reset ([exit_outcome],
      [resetNats_restores]), the worker of the agent goes on until an exit handler panics
      ([worker_goes_on], [exit_panic_blocks]); evaluation ([Evaluate_returns_or_never]); the order of
      declarations ([topological_order]); the listener ([listen_loop_ends]).
    - Round trips and values: [natsPayload_roundtrip], [password_roundtrip],
      [UnmarshalJSON_MarshalJSON], [clean_line_check], [GetSecurityData_commsec],
      [NewTypedValue_correct], [CalculateStatus_monotone],
      [CalculateServiceStatus_worst], [delta_between_collections],
      [BuildEsQuery_filters], [relative_time], [tagged_status_worst],
      [write_request_complete], [reservations_sum], [bufStr_inside].
    - Behaviour that surprises is stated as it is ([config_keeps_stopped],
      [unauthorized_acknowledged], [StartServer_connect_failure],
      [same_second_panics], [groups_not_in_sum], [FindSO_pages], [iota_counts_uses],
      [second_sync_forgets], [status_depends_on_capacity], [replica_status_ignored],
      [unread_processor_loses_all], [delay_in_first_second],
      [late_batch_unsent], [same_name_panics], [const_group_stays]
      and others).

    ** Bounds and fuel

    Recursion is structural, on lists and strings, wherever it can be; the functions
    that skip a matched pattern count the bytes left to skip.  Fuel is used where
    it cannot: in [Tracer.uvarint_bytes] ten groups of seven bits hold any 64-bit
    counter ([uvarint_inj] asks for 70 bits); the evaluator of expressions needs a
    depth of four or recurses for ever ([Evaluate_returns_or_never]); a repetition
    of a regular expression has the length of the text, and every match is found
    with it ([run_rounds_complete]); the listener's loop has the number of its
    retries ([listen_loop_ends]), and the agent's demand the number of the request
    that is answered ([demand_answered]); a paged list has the number of its pages
    ([pages_all]); a chain of the generator's identifiers and types
    that exhausts its fuel stands for the overflow of its stack ([chain_enough]);
    the splits of oversized payloads and the rounds of the generator's ordering have
    bounds that their theorems show to be enough.

    ** Not modelled

    Third-party libraries (NATS, go-cache, UUID, gzip, OpenTelemetry, gin, gosnmp,
    the scheduler, NaCl boxes) are arguments or classes whose laws are their
    documented behaviour, each with an instance the witnesses use.  Logging and
    tracing have no effect on the modelled state.  Decoding of JSON and YAML is an
    argument or the interface [Codec.JsonCodec], and so are the clients of vendors'
    services.  The generation of C text by gotocjson, the wrappers of tracing, the
    callbacks of the library for C, the deprecated package, generated documentation,
    examples and integration tests are left out. *)

From Stdlib Require Export Ascii.
From stdpp Require Export base tactics option list list_numbers numbers strings gmap relations sorting.
From Stdlib Require Export ZArith Lia.

#[global] Set Default Goal Selector "!".
#[global] Arguments String.append !_ _ / : simpl nomatch.

(** ** Go control flow: a value or a run-time panic *)

(** [outcome A]: a Go computation either returns a value of type [A] or
    panics (nil dereference, index out of range, division by zero, a failed
    type assertion). *)
Inductive outcome (A : Type) : Type :=
| Ret (a : A)
| Panic (why : string).
Arguments Ret {A} _.
Arguments Panic {A} _.

(** The pair [(T, error)] of Go functions: exactly one side is meaningful. *)
Inductive result (E A : Type) : Type :=
| Val (a : A)
| Fail (e : E).
Arguments Val {E A} _.
Arguments Fail {E A} _.

#[export] Instance outcome_ret : MRet outcome := @Ret.
#[export] Instance outcome_bind : MBind outcome := λ A B f m,
  match m with Ret a => f a | Panic w => Panic w end.
#[export] Instance outcome_fmap : FMap outcome := λ A B f m,
  match m with Ret a => Ret (f a) | Panic w => Panic w end.

#[export] Instance result_ret {E} : MRet (result E) := @Val E.
#[export] Instance result_bind {E} : MBind (result E) := λ A B f m,
  match m with Val a => f a | Fail e => Fail e end.
#[export] Instance result_fmap {E} : FMap (result E) := λ A B f m,
  match m with Val a => Val (f a) | Fail e => Fail e end.

Definition is_ret {A} (m : outcome A) : bool :=
  match m with Ret _ => true | Panic _ => false end.

Definition is_panic {A} (m : outcome A) : bool := negb (is_ret m).

Definition is_val {E A} (m : result E A) : bool :=
  match m with Val _ => true | Fail _ => false end.

(** Pointer dereference: [nil] panics. *)
Definition deref {A} (p : option A) : outcome A :=
  match p with
  | Some a => Ret a
  | None => Panic "invalid memory address or nil pointer dereference"
  end.

Section outcome_laws.
Context {A B C : Type}.

Lemma bind_ret_l (a : A) (f : A → outcome B) : (Ret a ≫= f) = f a.
Proof. reflexivity. Qed.

Lemma bind_panic (w : string) (f : A → outcome B) : (Panic w ≫= f) = Panic w.
Proof. reflexivity. Qed.

Lemma fmap_ret (a : A) (f : A → B) : (f <$> Ret a) = Ret (f a).
Proof. reflexivity. Qed.

Lemma bind_ret_r (m : outcome A) : (m ≫= Ret) = m.
Proof. by destruct m. Qed.

Lemma bind_assoc (m : outcome A) (f : A → outcome B) (g : B → outcome C) :
  ((m ≫= f) ≫= g) = (m ≫= λ a, f a ≫= g).
Proof. by destruct m. Qed.

Lemma bind_Ret_inv (m : outcome A) (f : A → outcome B) b :
  (m ≫= f) = Ret b ↔ ∃ a, m = Ret a ∧ f a = Ret b.
Proof.
  destruct m as [x|w]; cbn; split.
  - eauto.
  - by intros (? & [= ->] & ?).
  - done.
  - by intros (? & ? & ?).
Qed.
End outcome_laws.

Lemma deref_Ret {A} (p : option A) a : deref p = Ret a ↔ p = Some a.
Proof. destruct p; cbn; split; congruence. Qed.

(** ** Go integers *)

Local Open Scope Z_scope.

(** Two's-complement conversion to a signed [w]-bit integer. *)
Definition swrap (w z : Z) : Z := (z + 2 ^ (w - 1)) `mod` 2 ^ w - 2 ^ (w - 1).
Definition uwrap (w z : Z) : Z := z `mod` 2 ^ w.

Definition int64 (z : Z) : Z := swrap 64 z.
Definition uint8 (z : Z) : Z := uwrap 8 z.

Definition in_int64 (z : Z) : Prop := - 2 ^ 63 ≤ z < 2 ^ 63.

#[export] Instance in_int64_dec z : Decision (in_int64 z).
Proof. unfold in_int64. apply _. Defined.

Lemma int64_range z : in_int64 (int64 z).
Proof.
  unfold in_int64, int64, swrap.
  pose proof (Z.mod_pos_bound (z + 2 ^ (64 - 1)) (2 ^ 64)). lia.
Qed.

Lemma int64_id z : in_int64 z → int64 z = z.
Proof.
  unfold in_int64, int64, swrap. intros.
  rewrite Z.mod_small; lia.
Qed.

Lemma int64_eqm z : (int64 z - z) `mod` 2 ^ 64 = 0.
Proof.
  unfold int64, swrap.
  pose proof (Z.div_mod (z + 2 ^ (64 - 1)) (2 ^ 64)) as Hd.
  replace ((z + 2 ^ (64 - 1)) `mod` 2 ^ 64 - 2 ^ (64 - 1) - z)
    with ((- ((z + 2 ^ (64 - 1)) / 2 ^ 64)) * 2 ^ 64) by lia.
  apply Z.mod_mul; lia.
Qed.

(** Go integer division truncates towards zero and panics on zero. *)
Definition go_quot (a b : Z) : outcome Z :=
  if decide (b = 0) then Panic "integer divide by zero" else Ret (Z.quot a b).

Lemma go_quot_nonzero a b : b ≠ 0 → go_quot a b = Ret (Z.quot a b).
Proof. intros. unfold go_quot. by rewrite decide_False. Qed.

(** ** Tactics *)

(** Case analysis on the first [match]/[if] of the goal or of a hypothesis. *)
Ltac split_match :=
  match goal with
  | |- context [ match ?x with _ => _ end ] => destruct x eqn:?
  | H : context [ match ?x with _ => _ end ] |- _ => destruct x eqn:?
  end.

Ltac split_matches := repeat (split_match; simplify_eq/=).

(** Unfold a monadic bind on [outcome] or [result] in a hypothesis. *)
Ltac inv_bind H :=
  let a := fresh "a" in let Ha := fresh "Ha" in
  apply bind_Ret_inv in H as (a & Ha & H).

Create HintDb tcg.
Create Rewrite HintDb tcg.
#[export] Hint Rewrite @bind_ret_l @bind_ret_r @bind_panic @fmap_ret @bind_assoc : tcg.
#[export] Hint Resolve int64_range : tcg.

(** ** Lists *)

Section list_lemmas.
Context {A B : Type}.
Local Open Scope nat_scope.

(** Sum of a measure over a list. *)
Definition sum_with (f : A → nat) (l : list A) : nat := sum_list (f <$> l).

Lemma sum_with_app f l k : sum_with f (l ++ k) = sum_with f l + sum_with f k.
Proof. unfold sum_with. by rewrite fmap_app, sum_list_with_app. Qed.

Lemma length_mbind (f : A → list B) l : length (l ≫= f) = sum_with (length ∘ f) l.
Proof.
  induction l as [|x l IH]; simpl; [done|].
  change (list_bind _ _ f l) with (l ≫= f).
  rewrite length_app, IH. done.
Qed.
End list_lemmas.

(** ** Maps *)

(** The order in which [range] visits a Go map is unspecified: an operation that
    ranges over a map takes the order as an interface, and its theorems hold for
    every order. *)
Class MapOrder := {
  map_order : ∀ {A}, gmap string A → list (string * A);
  map_order_perm : ∀ A (m : gmap string A), map_order m ≡ₚ map_to_list m;
}.

(** An order to compute with. *)
Definition sorted_order : MapOrder :=
  {| map_order := λ A m, map_to_list m; map_order_perm := λ A m, Permutation_refl _ |}.

Section map_order_lemmas.
Context `{MapOrder} {A : Type}.

Lemma elem_of_map_order (m : gmap string A) k x :
  (k, x) ∈ map_order m ↔ m !! k = Some x.
Proof. rewrite map_order_perm. apply elem_of_map_to_list. Qed.

Lemma NoDup_map_order (m : gmap string A) : NoDup (map_order m).*1.
Proof. rewrite map_order_perm. apply NoDup_fst_map_to_list. Qed.
End map_order_lemmas.

(** A loop over a Go slice whose body may panic. *)
Fixpoint foldM {A S} (f : S → A → outcome S) (s : S) (l : list A) : outcome S :=
  match l with
  | [] => Ret s
  | x :: l => s' ← f s x; foldM f s' l
  end.

Fixpoint mapM_o {A B} (f : A → outcome B) (l : list A) : outcome (list B) :=
  match l with
  | [] => Ret []
  | x :: l => y ← f x; ys ← mapM_o f l; Ret (y :: ys)
  end.

Lemma foldM_app {A S} (f : S → A → outcome S) s l k :
  foldM f s (l ++ k) = foldM f s l ≫= λ s', foldM f s' k.
Proof.
  revert s. induction l as [|x l IH]; intros s; [done|].
  cbn [app foldM]. rewrite bind_assoc. destruct (f s x); [apply IH|done].
Qed.

Lemma foldM_pure {A S} (f : S → A → S) s l : foldM (λ s x, Ret (f s x)) s l = Ret (foldl f s l).
Proof. revert s. induction l as [|x l IH]; intros s; [done|apply IH]. Qed.

(** A loop invariant: it holds at the start, the body keeps it. *)
Lemma foldM_inv {A S} (P : S → Prop) (f : S → A → outcome S) s l s' :
  P s → (∀ s x s', x ∈ l → P s → f s x = Ret s' → P s') → foldM f s l = Ret s' → P s'.
Proof.
  revert s. induction l as [|x l IH]; intros s Hs Hf; cbn [foldM].
  - by intros [= <-].
  - intros (s1 & H1 & H2)%bind_Ret_inv. eapply (IH s1); [| |done].
    + eapply Hf; [|done|done]. set_solver.
    + intros. eapply Hf; [|done|done]. set_solver.
Qed.

(** A loop that collects: every element adds the keys it stands for. *)
Lemma foldM_collects {A S K} (C : S → K → Prop) (keys : A → K → Prop) (f : S → A → outcome S) s l s' k :
  (∀ s x s', x ∈ l → f s x = Ret s' → C s' k ↔ C s k ∨ keys x k) →
  foldM f s l = Ret s' → C s' k ↔ C s k ∨ ∃ x, x ∈ l ∧ keys x k.
Proof.
  revert s. induction l as [|x l IH]; intros s Hf; cbn [foldM].
  - intros [= <-]. split; [by left|]. intros [?|(x & []%elem_of_nil & _)]; done.
  - intros (s1 & H1 & H2)%bind_Ret_inv. rewrite (IH s1); [|by intros; apply Hf; [right|]|done].
    rewrite (Hf s x s1) by (done || left). setoid_rewrite elem_of_cons. naive_solver.
Qed.

(** A loop whose body always returns, and one whose body panics on some element. *)
Lemma foldM_total {A T} (f : T → A → outcome T) s l :
  (∀ s a, a ∈ l → ∃ s', f s a = Ret s') → ∃ s', foldM f s l = Ret s'.
Proof.
  revert s. induction l as [|a l IH]; intros s Hf; [by eexists|]. cbn [foldM].
  destruct (Hf s a) as [s' ->]; [by left|]. cbn [mbind outcome_bind]. apply IH. intros s0 b Hb. apply Hf. by right.
Qed.

Lemma foldM_panics {A T} (P : A → Prop) (f : T → A → outcome T) s l :
  (∀ s a, P a → is_panic (f s a) = true) → Exists P l → is_panic (foldM f s l) = true.
Proof.
  intros Hf. revert s. induction l as [|a l IH]; intros s He; [by apply Exists_nil in He|]. cbn [foldM].
  apply Exists_cons in He as [Ha|He].
  - specialize (Hf s a Ha). by destruct (f s a).
  - destruct (f s a); [by apply IH|done].
Qed.

Lemma mapM_o_ret {A B} (f : A → outcome B) (l : list A) ys :
  mapM_o f l = Ret ys ↔ Forall2 (λ x y, f x = Ret y) l ys.
Proof.
  revert ys. induction l as [|x l IH]; intros ys; cbn [mapM_o].
  - split; [intros [= <-]; constructor|intros Hf; by inversion Hf].
  - split.
    + intros (y & Hy & (ys' & Hys & Hr)%bind_Ret_inv)%bind_Ret_inv. injection Hr as <-.
      constructor; [done|]. by apply IH.
    + inversion 1 as [|? y ? ys' Hy Hys]; subst. rewrite Hy. cbn. by rewrite (proj2 (IH ys') Hys).
Qed.

Lemma mapM_o_is_ret {A B} (f : A → outcome B) (l : list A) :
  is_ret (mapM_o f l) = true ↔ Forall (λ x, is_ret (f x) = true) l.
Proof.
  induction l as [|x l IH]; cbn [mapM_o]; [by split|].
  rewrite Forall_cons. destruct (f x) as [y|w]; cbn; [|naive_solver].
  rewrite <-IH. destruct (mapM_o f l); cbn; tauto.
Qed.

(** A loop whose body is a pure function where it returns. *)
Lemma mapM_o_fmap {A B} (f : A → outcome B) (g : A → B) (l : list A) ys :
  (∀ x y, f x = Ret y → y = g x) → mapM_o f l = Ret ys → ys = g <$> l.
Proof.
  intros Hg Hf%mapM_o_ret. induction Hf as [|x y l ys Hy _ IH]; [done|].
  cbn. by rewrite (Hg _ _ Hy), <-IH.
Qed.
