(* ===== verification/GoString.v ===== *)
(** Go's [strings], [bytes] and [strconv] functions, as the program uses them.

    A Go [string] or [[]byte] is a Rocq [string]: a sequence of 8-bit bytes.
    [Index] and [LastIndex] return [None] where Go returns -1.  [ReplaceAll] and
    [Split] are called by the program with a non-empty pattern. *)

From S2P Require Import Prelude.
From Stdlib Require Import DecimalString DecimalZ DecimalPos DecimalFacts.

Local Open Scope string_scope.
Local Open Scope nat_scope.

(** ** Slicing *)

Fixpoint str_take (n : nat) (s : string) : string :=
  match n, s with
  | S n, String c s => String c (str_take n s)
  | _, _ => ""
  end.

Fixpoint str_drop (n : nat) (s : string) : string :=
  match n, s with
  | S n, String _ s => str_drop n s
  | _, _ => s
  end.

(** [s[i:j]]; Go panics unless [0 <= i <= j <= len(s)]. *)
Definition str_slice (s : string) (i j : Z) : outcome string :=
  if decide (0 ≤ i ≤ j ∧ j ≤ Z.of_nat (String.length s))%Z
  then Ret (str_take (Z.to_nat (j - i)) (str_drop (Z.to_nat i) s))
  else Panic "slice bounds out of range".

Definition slen (s : string) : Z := Z.of_nat (String.length s).

Lemma length_str_app s t : String.length (s +:+ t) = String.length s + String.length t.
Proof. induction s as [|c s IH]; simpl; [done|]. by rewrite IH. Qed.

Lemma slen_app s t : slen (s +:+ t) = (slen s + slen t)%Z.
Proof. unfold slen. rewrite length_str_app. lia. Qed.

Lemma str_app_assoc s t u : (s +:+ t) +:+ u = s +:+ (t +:+ u).
Proof. induction s as [|c s IH]; simpl; [done|]. by rewrite IH. Qed.

Lemma str_app_nil_r s : s +:+ "" = s.
Proof. induction s as [|c s IH]; simpl; [done|]. by rewrite IH. Qed.

Lemma str_take_drop n s : str_take n s +:+ str_drop n s = s.
Proof.
  revert s. induction n as [|n IH]; intros [|c s]; simpl; try done.
  by rewrite IH.
Qed.

Lemma str_take_app s t : str_take (String.length s) (s +:+ t) = s.
Proof. induction s as [|c s IH]; simpl; [by destruct t|]. by rewrite IH. Qed.

Lemma str_drop_app s t : str_drop (String.length s) (s +:+ t) = t.
Proof. induction s as [|c s IH]; simpl; [by destruct t|done]. Qed.

Lemma length_str_take n s : n ≤ String.length s → String.length (str_take n s) = n.
Proof.
  revert s. induction n as [|n IH]; intros [|c s]; simpl; intros; try lia.
  rewrite IH; lia.
Qed.

Lemma length_str_drop n s : String.length (str_drop n s) = String.length s - n.
Proof. revert s. induction n as [|n IH]; intros [|c s]; simpl; auto. Qed.

Lemma str_app_inj_l s t u : s +:+ t = s +:+ u → t = u.
Proof. induction s as [|c s IH]; simpl; intros; simplify_eq; auto. Qed.

Lemma str_app_inj_len s s' t t' :
  String.length s = String.length s' → s +:+ t = s' +:+ t' → s = s' ∧ t = t'.
Proof.
  revert s'. induction s as [|c s IH]; intros [|c' s']; simpl; intros; simplify_eq; try done.
  destruct (IH s') as [-> ->]; done.
Qed.

Lemma str_snoc s : s ≠ "" → ∃ u d, s = u +:+ String d "".
Proof.
  induction s as [|c s IH]; [done|]. intros _. destruct s as [|c' s]; [by exists "", c|].
  destruct IH as (u & d & ->); [done|]. by exists (String c u), d.
Qed.

Lemma str_snoc_inj u v c d : u +:+ String c "" = v +:+ String d "" → u = v ∧ c = d.
Proof.
  revert v. induction u as [|a u IH]; intros [|b v]; cbn; intros Heq; simplify_eq; try done.
  - by destruct v.
  - by destruct u.
  - edestruct IH as [-> ->]; [eassumption|done].
Qed.

#[export] Hint Rewrite str_app_assoc str_app_nil_r : tcg.

(** ** Searching *)

Definition HasPrefix (s p : string) : bool := String.prefix p s.

Fixpoint Index (s sub : string) : option nat :=
  if String.prefix sub s then Some 0
  else match s with
       | "" => None
       | String _ s' => S <$> Index s' sub
       end.

Fixpoint LastIndex (s sub : string) : option nat :=
  match s with
  | "" => if String.prefix sub s then Some 0 else None
  | String _ s' =>
      match LastIndex s' sub with
      | Some i => Some (S i)
      | None => if String.prefix sub s then Some 0 else None
      end
  end.

Definition Contains (s sub : string) : bool := bool_decide (is_Some (Index s sub)).

(** [strings.ContainsAny(s, chars)] for ASCII [chars]. *)
Fixpoint has_byte (c : ascii) (s : string) : bool :=
  match s with
  | "" => false
  | String c' s' => bool_decide (c = c') || has_byte c s'
  end.

Fixpoint ContainsAny (s chars : string) : bool :=
  match s with
  | "" => false
  | String c s' => has_byte c chars || ContainsAny s' chars
  end.

Lemma prefix_app p s : String.prefix p (p +:+ s) = true.
Proof.
  induction p as [|c p IH]; simpl; [by destruct s|].
  destruct (Ascii.ascii_dec c c) as [_|Hn]; [apply IH|by destruct Hn].
Qed.

Lemma prefix_spec p s : String.prefix p s = true ↔ ∃ t, s = p +:+ t.
Proof.
  split; [|intros [t ->]; apply prefix_app].
  revert s. induction p as [|c p IH]; intros s; simpl; [eauto|].
  destruct s as [|c' s]; simpl; [done|].
  destruct (Ascii.ascii_dec c c') as [->|]; [|done].
  intros [t ->]%IH. by exists t.
Qed.

Lemma Index_Some s sub i :
  Index s sub = Some i → ∃ l r, s = l +:+ sub +:+ r ∧ String.length l = i.
Proof.
  revert i. induction s as [|c s IH]; intros i; cbn [Index].
  - destruct (String.prefix sub "") eqn:Hp; [|done].
    intros [= <-]. apply prefix_spec in Hp as [t Ht]. by exists "", t.
  - destruct (String.prefix sub (String c s)) eqn:Hp.
    + intros [= <-]. apply prefix_spec in Hp as [t Ht]. by exists "", t.
    + intros (j & Hj & ->)%fmap_Some. destruct (IH j) as (l & r & -> & <-); [done|].
      by exists (String c l), r.
Qed.

Lemma Index_None s sub : Index s sub = None ↔ ∀ l r, s ≠ l +:+ sub +:+ r.
Proof.
  split.
  - intros Hn l r ->. revert Hn. induction l as [|c l IH].
    + cbn [String.append]. pose proof (prefix_app sub r) as Hp.
      destruct (sub +:+ r); cbn [Index]; by rewrite Hp.
    + cbn [String.append Index]. destruct (String.prefix sub _); [done|].
      intros H%fmap_None. by apply IH.
  - induction s as [|c s IH]; cbn [Index]; intros H.
    + destruct (String.prefix sub "") eqn:Hp; [|done].
      apply prefix_spec in Hp as [t Ht]. by destruct (H "" t).
    + destruct (String.prefix sub (String c s)) eqn:Hp.
      * apply prefix_spec in Hp as [t Ht]. by destruct (H "" t).
      * rewrite IH; [done|]. intros l r ->. by destruct (H (String c l) r).
Qed.

Lemma Contains_spec s sub : Contains s sub = true ↔ ∃ l r, s = l +:+ sub +:+ r.
Proof.
  unfold Contains. rewrite bool_decide_eq_true. split.
  - intros [i (l & r & ? & _)%Index_Some]. eauto.
  - intros (l & r & Hs). destruct (Index s sub) eqn:Hi; [done|].
    rewrite Index_None in Hi. by destruct (Hi l r).
Qed.

Lemma Contains_false s sub : Contains s sub = false ↔ ∀ l r, s ≠ l +:+ sub +:+ r.
Proof.
  rewrite <-Index_None. unfold Contains. rewrite bool_decide_eq_false.
  destruct (Index s sub); naive_solver.
Qed.

Lemma LastIndex_Some s sub i :
  LastIndex s sub = Some i → ∃ l r, s = l +:+ sub +:+ r ∧ String.length l = i.
Proof.
  revert i. induction s as [|c s IH]; intros i; cbn [LastIndex].
  - destruct (String.prefix sub "") eqn:Hp; [|done].
    intros [= <-]. apply prefix_spec in Hp as [t Ht]. by exists "", t.
  - destruct (LastIndex s sub) as [j|] eqn:Hj.
    + intros [= <-]. destruct (IH j) as (l & r & -> & <-); [done|].
      by exists (String c l), r.
    + destruct (String.prefix sub (String c s)) eqn:Hp; [|done].
      intros [= <-]. apply prefix_spec in Hp as [t Ht]. by exists "", t.
Qed.

Lemma LastIndex_None s sub : LastIndex s sub = None ↔ Index s sub = None.
Proof.
  induction s as [|c s IH].
  { simpl. by destruct (String.prefix sub ""). }
  cbn [LastIndex Index].
  destruct (LastIndex s sub) as [j|] eqn:Hl.
  - destruct (String.prefix sub (String c s)); [done|].
    split; [done|]. intros H%fmap_None. apply IH in H. done.
  - destruct (String.prefix sub (String c s)); [done|].
    split; [|done]. intros _. by rewrite (proj1 IH).
Qed.

(** ** Predicates on the bytes *)

Fixpoint str_forallb (f : ascii → bool) (s : string) : bool :=
  match s with "" => true | String c s => f c && str_forallb f s end.

Lemma str_forallb_impl (f g : ascii → bool) s :
  (∀ c, f c = true → g c = true) → str_forallb f s = true → str_forallb g s = true.
Proof.
  intros Hfg. induction s as [|c s IH]; simpl; [done|].
  intros [Hc Hs]%andb_true_iff. by rewrite (Hfg c), IH.
Qed.

Lemma str_forallb_app f s t : str_forallb f (s +:+ t) = str_forallb f s && str_forallb f t.
Proof. induction s as [|c s IH]; [done|]. cbn. by rewrite IH, andb_assoc. Qed.

(** [c] is not a byte of [s]. *)
Definition no_byte (c : ascii) (s : string) : bool := str_forallb (λ d, negb (bool_decide (c = d))) s.

Lemma no_byte_app c s t : no_byte c (s +:+ t) = no_byte c s && no_byte c t.
Proof. apply str_forallb_app. Qed.

(** ** Replacing, splitting, joining *)

(** [strings.ReplaceAll(s, old, new)] for a non-empty [old]; [skip] bytes of a
    matched occurrence remain to be consumed. *)
Fixpoint replace_go (skip : nat) (s old new : string) : string :=
  match s with
  | "" => ""
  | String c s' =>
      match skip with
      | S k => replace_go k s' old new
      | 0 =>
          if String.prefix old s
          then new +:+ replace_go (pred (String.length old)) s' old new
          else String c (replace_go 0 s' old new)
      end
  end.

Definition ReplaceAll (s old new : string) : string := replace_go 0 s old new.

Fixpoint split_go (skip : nat) (s sep : string) : string * list string :=
  match s with
  | "" => ("", [])
  | String c s' =>
      match skip with
      | S k => split_go k s' sep
      | 0 =>
          if String.prefix sep s
          then let '(p, r) := split_go (pred (String.length sep)) s' sep in ("", p :: r)
          else let '(p, r) := split_go 0 s' sep in (String c p, r)
      end
  end.

(** [strings.Split(s, sep)] for a non-empty [sep]. *)
Definition Split (s sep : string) : list string :=
  let '(p, r) := split_go 0 s sep in p :: r.

Fixpoint Join (l : list string) (sep : string) : string :=
  match l with
  | [] => ""
  | [s] => s
  | s :: l => s +:+ sep +:+ Join l sep
  end.

Lemma replace_go_skip k s old new :
  replace_go k s old new = replace_go 0 (str_drop k s) old new.
Proof.
  revert k. induction s as [|c s IH]; intros [|k]; try done.
  change (replace_go (S k) (String c s) old new) with (replace_go k s old new).
  change (str_drop (S k) (String c s)) with (str_drop k s). apply IH.
Qed.

Lemma split_go_skip k s sep : split_go k s sep = split_go 0 (str_drop k s) sep.
Proof.
  revert k. induction s as [|c s IH]; intros [|k]; try done.
  change (split_go (S k) (String c s) sep) with (split_go k s sep).
  change (str_drop (S k) (String c s)) with (str_drop k s). apply IH.
Qed.

Lemma ReplaceAll_prefix old new s :
  old ≠ "" → ReplaceAll (old +:+ s) old new = new +:+ ReplaceAll s old new.
Proof.
  intros Hne. unfold ReplaceAll.
  destruct old as [|c old]; [done|].
  pose proof (prefix_app (String c old) s) as Hp.
  change (String c old +:+ s) with (String c (old +:+ s)) in *.
  cbn [replace_go]. rewrite Hp. f_equal.
  rewrite replace_go_skip. cbn [String.length pred]. by rewrite str_drop_app.
Qed.

Lemma ReplaceAll_absent s old new : Index s old = None → ReplaceAll s old new = s.
Proof.
  unfold ReplaceAll. induction s as [|c s IH]; [done|].
  cbn [Index replace_go]. destruct (String.prefix old (String c s)); [done|].
  intros H%fmap_None. by rewrite IH.
Qed.

(** What comes before the first byte of the pattern is copied. *)
Lemma ReplaceAll_app_no_byte c old new s t :
  no_byte c s = true → ReplaceAll (s +:+ t) (String c old) new = s +:+ ReplaceAll t (String c old) new.
Proof.
  unfold ReplaceAll. induction s as [|d s IH]; [done|].
  cbn [no_byte str_forallb]. intros [Hd Hs]%andb_true_iff.
  apply negb_true_iff, bool_decide_eq_false in Hd.
  cbn [String.append replace_go String.prefix].
  destruct (Ascii.ascii_dec c d) as [|_]; [done|]. by rewrite IH.
Qed.

Lemma ReplaceAll_no_byte c old new s :
  no_byte c s = true → ReplaceAll s (String c old) new = s.
Proof.
  intros Hs. rewrite <-(str_app_nil_r s) at 1. rewrite ReplaceAll_app_no_byte by done.
  apply str_app_nil_r.
Qed.

(** A byte that does not come again. *)
Lemma LastIndex_byte c s t :
  no_byte c t = true → LastIndex (s +:+ String c t) (String c "") = Some (String.length s).
Proof.
  intros Ht. assert (LastIndex t (String c "") = None) as Hn.
  { induction t as [|d t IH]; [done|]. cbn [no_byte str_forallb] in Ht.
    apply andb_true_iff in Ht as [Hd Ht]. apply negb_true_iff, bool_decide_eq_false in Hd.
    cbn [LastIndex String.prefix]. rewrite IH by done.
    by destruct (Ascii.ascii_dec c d). }
  induction s as [|d s IH].
  - cbn [String.append LastIndex]. rewrite Hn. cbn [String.prefix].
    destruct (Ascii.ascii_dec c c) as [_|]; [|done]. by destruct t.
  - cbn [String.append LastIndex]. by rewrite IH.
Qed.

Lemma Join_cons s l sep : l ≠ [] → Join (s :: l) sep = s +:+ sep +:+ Join l sep.
Proof. by destruct l. Qed.

(** Splitting and joining with the same separator gives the string back. *)
Lemma Join_Split s sep : sep ≠ "" → Join (Split s sep) sep = s.
Proof.
  intros Hne. unfold Split.
  enough (∀ n s, String.length s ≤ n →
    let '(p, r) := split_go 0 s sep in Join (p :: r) sep = s) as H.
  { specialize (H _ s (le_n _)). by destruct (split_go 0 s sep). }
  clear s. induction n as [|n IH]; intros s Hlen.
  { by destruct s; simpl in *; [|lia]. }
  destruct s as [|c s]; [done|]. cbn [split_go].
  destruct (String.prefix sep (String c s)) eqn:Hp.
  - apply prefix_spec in Hp as [t Ht]. destruct sep as [|c' sep]; [done|].
    injection Ht as -> ->. rewrite split_go_skip. cbn [String.length pred].
    rewrite str_drop_app. specialize (IH t).
    destruct (split_go 0 t (String c' sep)) as [p r]. rewrite Join_cons by done.
    rewrite IH; [done|]. simpl in Hlen. rewrite length_str_app in Hlen. lia.
  - specialize (IH s). simpl in Hlen. destruct (split_go 0 s sep) as [p r].
    rewrite <-(IH ltac:(lia)). by destruct r.
Qed.

(** The parts joined by a byte that is in none of them are found again. *)
Lemma split_go_part c n t :
  no_byte c n = true →
  split_go 0 (n +:+ t) (String c "") = (n +:+ (split_go 0 t (String c "")).1, (split_go 0 t (String c "")).2).
Proof.
  induction n as [|d n IH]; [intros _; cbn [String.append]; by destruct (split_go 0 t _)|].
  cbn [no_byte str_forallb String.append split_go String.prefix].
  intros [Hc%negb_true_iff%bool_decide_eq_false Hn]%andb_true_iff.
  destruct (Ascii.ascii_dec c d); [done|]. by rewrite IH.
Qed.

Lemma Split_Join_byte c ns :
  ns ≠ [] → Forall (λ n, no_byte c n = true) ns → Split (Join ns (String c "")) (String c "") = ns.
Proof.
  intros Hne. induction 1 as [|n ns Hn Hns IH]; [done|].
  unfold Split in *. destruct ns as [|m ns].
  - cbn [Join]. rewrite <-(str_app_nil_r n) at 1. rewrite split_go_part by done. cbn. by rewrite str_app_nil_r.
  - rewrite Join_cons, split_go_part by done. specialize (IH ltac:(done)).
    assert (∀ t, split_go 0 (String c "" +:+ t) (String c "") =
                 ("", (split_go 0 t (String c "")).1 :: (split_go 0 t (String c "")).2)) as ->.
    { intros t. cbn [String.append split_go].
      rewrite (prefix_app (String c "") t : String.prefix (String c "") (String c t) = true).
      cbn [String.length pred]. by destruct (split_go 0 t (String c "")). }
    destruct (split_go 0 (Join (m :: ns) _) _) as [p r]. cbn [fst snd].
    by rewrite str_app_nil_r, IH.
Qed.

(** ** UTF-8 *)

Definition byte_in (lo hi : nat) (c : ascii) : bool :=
  bool_decide (lo ≤ Ascii.nat_of_ascii c ≤ hi)%nat.

(** [utf8.DecodeRuneInString]: the bytes of the rune at the head of the string;
    0 where Go returns [RuneError] of size 1. *)
Definition rune_size (s : string) : nat :=
  match s with
  | "" => 0
  | String a s =>
      if byte_in 0 127 a then 1
      else match s with
      | "" => 0
      | String b s =>
          let second :=
            if byte_in 224 224 a then byte_in 160 191 b
            else if byte_in 237 237 a then byte_in 128 159 b
            else if byte_in 240 240 a then byte_in 144 191 b
            else if byte_in 244 244 a then byte_in 128 143 b
            else byte_in 128 191 b in
          if byte_in 194 223 a then (if second then 2 else 0)
          else match s with
          | "" => 0
          | String c s =>
              let third := second && byte_in 128 191 c in
              if byte_in 224 239 a then (if third then 3 else 0)
              else match s with
              | "" => 0
              | String d _ =>
                  if byte_in 240 244 a && third && byte_in 128 191 d then 4 else 0
              end
          end
      end
  end.

(** ** Trimming *)

(** [strings.TrimPrefix], [strings.TrimSuffix]. *)
Definition TrimPrefix (s p : string) : string :=
  if HasPrefix s p then str_drop (String.length p) s else s.

Definition HasSuffix (s p : string) : bool :=
  bool_decide (String.length p ≤ String.length s ∧
               str_drop (String.length s - String.length p) s = p).

Definition TrimSuffix (s p : string) : string :=
  if HasSuffix s p then str_take (String.length s - String.length p) s else s.

(** Trimming by a predicate on bytes ([strings.TrimFunc] on ASCII cutsets). *)
Fixpoint trim_left (f : ascii → bool) (s : string) : string :=
  match s with
  | String c s' => if f c then trim_left f s' else s
  | "" => ""
  end.

Fixpoint trim_right (f : ascii → bool) (s : string) : string :=
  match s with
  | String c s' =>
      match trim_right f s' with
      | "" => if f c then "" else String c ""
      | t => String c t
      end
  | "" => ""
  end.

Definition trim (f : ascii → bool) (s : string) : string := trim_right f (trim_left f s).

(** [unicode.IsSpace]: the bytes of the white space at the head of the string
    (tab to CR, space, U+0085, U+00A0, U+1680, U+2000 to U+200A, U+2028, U+2029,
    U+202F, U+205F, U+3000); 0 for none. *)
Definition is_space (c : ascii) : bool :=
  let n := Ascii.nat_of_ascii c in
  bool_decide (9 ≤ n ≤ 13) || bool_decide (n = 32).

Definition space_size (s : string) : nat :=
  match s with
  | "" => 0
  | String a s =>
      if is_space a then 1
      else match s with
      | "" => 0
      | String b s =>
          if byte_in 194 194 a && (byte_in 133 133 b || byte_in 160 160 b) then 2
          else match s with
          | "" => 0
          | String c _ =>
              if (byte_in 225 225 a && byte_in 154 154 b && byte_in 128 128 c) ||
                 (byte_in 226 226 a && byte_in 128 128 b &&
                    (byte_in 128 138 c || byte_in 168 169 c || byte_in 175 175 c)) ||
                 (byte_in 226 226 a && byte_in 129 129 b && byte_in 159 159 c) ||
                 (byte_in 227 227 a && byte_in 128 128 b && byte_in 128 128 c)
              then 3 else 0
          end
      end
  end.

(** [strings.TrimSpace]; [skip] bytes of a white space remain to be consumed. *)
Fixpoint space_left (skip : nat) (s : string) : string :=
  match s with
  | "" => ""
  | String _ s' =>
      match skip, space_size s with
      | S k, _ => space_left k s'
      | O, O => s
      | O, S k => space_left k s'
      end
  end.

(** The string is white space only. *)
Definition all_space (s : string) : bool := bool_decide (space_left 0 s = "").

Fixpoint space_right (s : string) : string :=
  match s with
  | "" => ""
  | String c s' => if all_space s then "" else String c (space_right s')
  end.

Definition TrimSpace (s : string) : string := space_right (space_left 0 s).

(** An ASCII byte that is not white space: it stops the trimming. *)
Definition solid (c : ascii) : bool := byte_in 0 127 c && negb (is_space c).

Lemma solid_space_size c s : solid c = true → space_size (String c s) = 0.
Proof.
  unfold solid, byte_in. intros [H1%bool_decide_eq_true H2%negb_true_iff]%andb_true_iff.
  cbn [space_size]. rewrite H2.
  destruct s as [|b s]; [done|]. unfold byte_in.
  rewrite (bool_decide_eq_false_2 (194 ≤ _ ≤ 194)) by lia. destruct s as [|d s]; [done|].
  rewrite (bool_decide_eq_false_2 (225 ≤ Ascii.nat_of_ascii c ≤ 225)) by lia.
  rewrite (bool_decide_eq_false_2 (226 ≤ Ascii.nat_of_ascii c ≤ 226)) by lia.
  by rewrite (bool_decide_eq_false_2 (227 ≤ Ascii.nat_of_ascii c ≤ 227)) by lia.
Qed.

Lemma not_solid_range lo hi c :
  solid c = true → 128 ≤ lo → byte_in lo hi c = false.
Proof.
  unfold solid, byte_in. intros [H1%bool_decide_eq_true _]%andb_true_iff ?.
  apply bool_decide_eq_false. lia.
Qed.

(** White space before a solid byte does not reach it. *)
Lemma space_size_solid t c :
  solid c = true → pred (space_size (t +:+ String c "")) ≤ pred (String.length t).
Proof.
  intros Hc. destruct t as [|a [|b [|d t]]]; cbn [String.append].
  - by rewrite solid_space_size.
  - cbn [space_size]. destruct (is_space a); [done|].
    rewrite !(not_solid_range _ _ c) by (done || lia). by rewrite andb_false_r.
  - cbn [space_size]. destruct (is_space a); [simpl; lia|].
    destruct (_ && _); [simpl; lia|].
    rewrite !(not_solid_range _ _ c) by (done || lia).
    cbn [orb]. rewrite ?andb_false_r. simpl. lia.
  - assert (∀ s, space_size s ≤ 3) as H3.
    { intros [|x [|y [|z s]]]; cbn [space_size]; repeat case_match; simpl; lia. }
    specialize (H3 (String a (String b (String d (t +:+ String c ""))))).
    simpl String.length. lia.
Qed.

Lemma space_left_solid k t c :
  solid c = true → k ≤ String.length t → space_left k (t +:+ String c "") ≠ "".
Proof.
  intros Hc. revert k. induction t as [|a t IH]; intros k Hk.
  - assert (k = 0) as -> by (simpl in Hk; lia). cbn [String.append space_left].
    by rewrite solid_space_size.
  - destruct k as [|k].
    + pose proof (space_size_solid (String a t) c Hc) as Hs.
      cbn [String.append space_left] in *.
      destruct (space_size (String a (t +:+ String c ""))) as [|n]; [done|].
      apply IH. simpl in Hs. lia.
    + cbn [String.append space_left]. apply IH. simpl in Hk. lia.
Qed.

Lemma space_right_solid t c : solid c = true → space_right (t +:+ String c "") = t +:+ String c "".
Proof.
  intros Hc.
  assert (∀ t, all_space (t +:+ String c "") = false) as Ha.
  { intros u. apply bool_decide_eq_false. apply space_left_solid; [done|lia]. }
  induction t as [|a t IH]; cbn [String.append space_right].
  - change (all_space (String c "")) with (all_space ("" +:+ String c "")). by rewrite Ha.
  - change (String a (t +:+ String c "")) with (String a t +:+ String c "").
    rewrite Ha. by rewrite IH.
Qed.

(** Trimming only removes bytes. *)
Lemma space_left_forallb f k s : str_forallb f s = true → str_forallb f (space_left k s) = true.
Proof.
  revert k. induction s as [|c s IH]; intros k; cbn [space_left str_forallb]; [done|].
  intros [Hc Hs]%andb_true_iff. destruct k; [|by apply IH].
  destruct (space_size (String c s)); [|by apply IH]. cbn. by rewrite Hc.
Qed.

Lemma space_right_forallb f s : str_forallb f s = true → str_forallb f (space_right s) = true.
Proof.
  induction s as [|c s IH]; cbn [space_right str_forallb]; [done|].
  intros [Hc Hs]%andb_true_iff. destruct (all_space _); [done|]. cbn. by rewrite Hc, IH.
Qed.

Lemma TrimSpace_forallb f s : str_forallb f s = true → str_forallb f (TrimSpace s) = true.
Proof. intros. by apply space_right_forallb, space_left_forallb. Qed.

(** A string between two solid bytes is not trimmed. *)
Lemma TrimSpace_solid s c t d :
  s = String c t → solid c = true → (∃ u, s = u +:+ String d "") → solid d = true → TrimSpace s = s.
Proof.
  intros -> Hc [u Hu] Hd. unfold TrimSpace. cbn [space_left].
  rewrite (solid_space_size c t Hc). rewrite Hu. by apply space_right_solid.
Qed.
Definition TrimLeft (s cutset : string) : string := trim_left (λ c, has_byte c cutset) s.
Definition TrimRight (s cutset : string) : string := trim_right (λ c, has_byte c cutset) s.
Definition Trim (s cutset : string) : string := trim (λ c, has_byte c cutset) s.

Lemma trim_left_id f c s : f c = false → trim_left f (String c s) = String c s.
Proof. intros H. simpl. by rewrite H. Qed.

Lemma trim_right_snoc f s c :
  trim_right f (s +:+ String c "") = if f c then trim_right f s else s +:+ String c "".
Proof.
  induction s as [|d s IH]; simpl.
  - by destruct (f c).
  - rewrite IH. destruct (f c); [done|]. by destruct s.
Qed.

(** ** Decimal integers *)

(** [strconv.FormatInt(i, 10)] *)
Definition FormatInt (z : Z) : string := NilZero.string_of_int (Z.to_int z).

(** [strconv.ErrSyntax] and [strconv.ErrRange] *)
Inductive num_error := ErrSyntax | ErrRange.

#[export] Instance num_error_eq_dec : EqDecision num_error.
Proof. solve_decision. Defined.

Definition minus_sign : ascii := "-"%char.
Definition plus_sign : ascii := "+"%char.

(** The sign and the digits of a number. *)
Definition split_sign (s : string) : bool * string :=
  match s with
  | String c s' =>
      if decide (c = minus_sign) then (true, s')
      else if decide (c = plus_sign) then (false, s') else (false, s)
  | "" => (false, "")
  end.

(** [strconv.ParseInt(s, 10, 64)]: an optional sign, at least one digit, range
    checked.  (Base 10 admits no underscores and no base prefix.) *)
Definition ParseInt (s : string) : result num_error Z :=
  let '(neg, body) := split_sign s in
  match NilZero.uint_of_string body with
  | None => Fail ErrSyntax
  | Some d =>
      let n := Z.of_uint d in
      if neg then (if decide (n ≤ 2 ^ 63)%Z then Val (- n)%Z else Fail ErrRange)
      else (if decide (n < 2 ^ 63)%Z then Val n else Fail ErrRange)
  end.

Lemma string_of_uint_head d c s :
  NilZero.string_of_uint d = String c s → c ≠ minus_sign ∧ c ≠ plus_sign.
Proof. by destruct d; intros [= <- _]. Qed.

Lemma string_of_uint_nonempty d : NilZero.string_of_uint d ≠ "".
Proof. by destruct d. Qed.

Lemma split_sign_uint d :
  split_sign (NilZero.string_of_uint d) = (false, NilZero.string_of_uint d).
Proof.
  destruct (NilZero.string_of_uint d) as [|c s] eqn:Hd; [done|].
  apply string_of_uint_head in Hd as [H1 H2]. unfold split_sign.
  by rewrite !decide_False.
Qed.

Lemma Z_of_uint_pos p : Z.of_uint (Pos.to_uint p) = Z.pos p.
Proof.
  unfold Z.of_uint. by rewrite DecimalPos.Unsigned.of_to.
Qed.

Lemma Pos_to_uint_nonnil p : Pos.to_uint p ≠ Decimal.Nil.
Proof. apply DecimalPos.Unsigned.to_uint_nonnil. Qed.

Lemma FormatInt_inj i j : FormatInt i = FormatInt j → i = j.
Proof.
  assert (∀ z, NilZero.int_of_string (FormatInt z) = Some (Z.to_int z)) as Hp.
  { intros z. unfold FormatInt. apply NilZero.isi; destruct z; cbn; try done;
      intros [= Hn]; by destruct (DecimalPos.Unsigned.to_uint_nonnil p). }
  intros Hij. apply (f_equal NilZero.int_of_string) in Hij. rewrite !Hp in Hij.
  injection Hij as Hij. by apply DecimalZ.to_int_inj.
Qed.

(** Printing then parsing an [int64] is the identity. *)
Lemma ParseInt_FormatInt z : in_int64 z → ParseInt (FormatInt z) = Val z.
Proof.
  unfold in_int64, FormatInt, ParseInt. intros Hz.
  destruct z as [|p|p]; [done| |].
  - cbn [Z.to_int NilZero.string_of_int]. rewrite split_sign_uint, NilZero.usu by apply Pos_to_uint_nonnil.
    rewrite Z_of_uint_pos, decide_True by lia. done.
  - cbn [Z.to_int NilZero.string_of_int split_sign].
    rewrite decide_True by done. rewrite NilZero.usu by apply Pos_to_uint_nonnil.
    rewrite Z_of_uint_pos, decide_True by lia. done.
Qed.

(** [ParseInt] only returns values in range. *)
Lemma ParseInt_range s z : ParseInt s = Val z → in_int64 z.
Proof.
  unfold ParseInt, in_int64. destruct (split_sign s) as [neg body].
  destruct (NilZero.uint_of_string body) as [d|]; [|done].
  assert (0 ≤ Z.of_uint d)%Z by (unfold Z.of_uint; lia).
  destruct neg; case_decide; intros [= <-]; lia.
Qed.

(** ** Cases of letters *)

(** Letters as [strings.ToUpper] maps them, for a comparison with words of capitals:
    dotless i and long s become I and S. *)
Fixpoint upper (s : string) : string :=
  match s with
  | "" => ""
  | String c s' =>
      match s' with
      | String d r =>
          if decide (nat_of_ascii c = 196%nat ∧ nat_of_ascii d = 177%nat) then String "I" (upper r)
          else if decide (nat_of_ascii c = 197%nat ∧ nat_of_ascii d = 191%nat) then String "S" (upper r)
          else String (if byte_in 97 122 c then ascii_of_nat (nat_of_ascii c - 32) else c) (upper s')
      | "" => String (if byte_in 97 122 c then ascii_of_nat (nat_of_ascii c - 32) else c) ""
      end
  end.

(** And of [strings.ToLower], with words of small letters: the capital I with a dot and
    the sign of Kelvin become i and k. *)
Fixpoint lower (s : string) : string :=
  let small c := if byte_in 65 90 c then ascii_of_nat (nat_of_ascii c + 32) else c in
  match s with
  | "" => ""
  | String c s' =>
      match s' with
      | String d r =>
          if decide (nat_of_ascii c = 196%nat ∧ nat_of_ascii d = 176%nat) then String "i" (lower r)
          else match r with
          | String e r' =>
              if decide (nat_of_ascii c = 226%nat ∧ nat_of_ascii d = 132%nat ∧ nat_of_ascii e = 170%nat)
              then String "k" (lower r')
              else String (small c) (lower s')
          | "" => String (small c) (lower s')
          end
      | "" => String (small c) ""
      end
  end.

(** ** The order of strings *)

Lemma ascii_compare_N a b : Ascii.compare a b = (N_of_ascii a ?= N_of_ascii b)%N.
Proof. reflexivity. Qed.

Lemma string_leb_trans (a b c : string) : String.leb a b = true → String.leb b c = true → String.leb a c = true.
Proof.
  revert b c. unfold String.leb. induction a as [|x a IH]; intros b c.
  { intros _ _. by destruct c. }
  destruct b as [|y b]; [done|]. destruct c as [|z c]; [done|].
  cbn [String.compare]. rewrite !ascii_compare_N.
  destruct (N.compare_spec (N_of_ascii x) (N_of_ascii y)) as [Hxy|Hxy|Hxy];
    destruct (N.compare_spec (N_of_ascii y) (N_of_ascii z)) as [Hyz|Hyz|Hyz];
    destruct (N.compare_spec (N_of_ascii x) (N_of_ascii z)) as [Hxz|Hxz|Hxz]; try done; try lia.
  apply IH.
Qed.
