(* ===== verification/GoFloat.v ===== *)
(** Go's [float64]: IEEE 754 binary64, computed with the executable
    specification of the Standard Library ([SpecFloat], 53 bits of precision,
    maximal exponent 1024), and the order facts the status computation needs. *)

From S2P Require Import Prelude GoString.
From Stdlib Require Export SpecFloat.

Local Open Scope Z_scope.

Definition float64 := spec_float.

#[export] Instance float64_eq_dec : EqDecision float64.
Proof. unfold float64. solve_decision. Defined.

Definition prec64 : Z := 53.
Definition emax64 : Z := 1024.

Definition f_add (x y : float64) : float64 := SFadd prec64 emax64 x y.
Definition f_sub (x y : float64) : float64 := SFsub prec64 emax64 x y.
Definition f_mul (x y : float64) : float64 := SFmul prec64 emax64 x y.
Definition f_div (x y : float64) : float64 := SFdiv prec64 emax64 x y.

(** Go's [<], [<=], [==] on floats: all false when an operand is NaN. *)
Definition f_lt (x y : float64) : bool := SFltb x y.
Definition f_le (x y : float64) : bool := SFleb x y.
Definition f_eq (x y : float64) : bool := SFeqb x y.

(** [float64(i)] for an integer [i]: rounded to nearest, ties to even. *)
Definition f_of_Z (z : Z) : float64 := binary_normalize prec64 emax64 z 0 false.

Definition f_zero : float64 := S754_zero false.
Definition f_nan : float64 := S754_nan.

Definition is_nan (x : float64) : bool :=
  match x with S754_nan => true | _ => false end.

(** A decimal literal [m/10^k] whose numerator and denominator are exact in
    binary64: the quotient of two exact values is correctly rounded. *)
Definition f_ratio (m d : Z) : float64 := f_div (f_of_Z m) (f_of_Z d).

(** Truncation towards zero of a finite value. *)
Definition f_trunc (x : float64) : option Z :=
  match x with
  | S754_zero _ => Some 0
  | S754_finite s m e =>
      let a := if decide (0 ≤ e) then Z.pos m * 2 ^ e else Z.pos m / 2 ^ (- e) in
      Some (if s then - a else a)
  | _ => None
  end.

(** ** The order of floats

    [f_key] sends a float that is not NaN to a triple that the lexicographic
    order of integers compares the way [SFcompare] compares floats. *)

Definition f_key (x : float64) : Z * Z * Z :=
  match x with
  | S754_zero _ => (0, 0, 0)
  | S754_infinity true => (-2, 0, 0)
  | S754_infinity false => (2, 0, 0)
  | S754_nan => (3, 0, 0)
  | S754_finite true m e => (-1, - e, - Z.pos m)
  | S754_finite false m e => (1, e, Z.pos m)
  end.

Definition key_le (a b : Z * Z * Z) : Prop :=
  let '(a1, a2, a3) := a in let '(b1, b2, b3) := b in
  a1 < b1 ∨ (a1 = b1 ∧ (a2 < b2 ∨ (a2 = b2 ∧ a3 ≤ b3))).

(** *** Exact conversions *)

Lemma digits_shift (m d : positive) : digits2_pos (Pos.iter xO m d) = (digits2_pos m + d)%positive.
Proof.
  induction d as [|d IH] using Pos.peano_ind; [cbn; lia|]. rewrite Pos.iter_succ. cbn [digits2_pos]. rewrite IH. lia.
Qed.

Lemma shift_value (m d : positive) : Z.pos (Pos.iter xO m d) = Z.pos m * 2 ^ Z.pos d.
Proof.
  induction d as [|d IH] using Pos.peano_ind; [cbn; lia|].
  rewrite Pos.iter_succ, Pos2Z.inj_succ, Z.pow_succ_r by lia. rewrite Pos2Z.inj_xO, IH. lia.
Qed.

(** The same number, written with another exponent. *)
Definition same_number (x y : spec_float) : Prop :=
  match x, y with
  | S754_finite s m e, S754_finite s' m' e' => s' = s ∧ e' ≤ e ∧ Z.pos m' = Z.pos m * 2 ^ (e - e')
  | _, _ => y = x
  end.

Lemma round_exact s m e :
  Z.pos (digits2_pos m) ≤ prec64 → 3 - emax64 - prec64 ≤ e ≤ emax64 - prec64 →
  same_number (S754_finite s m e) (binary_round prec64 emax64 s m e).
Proof.
  unfold binary_round, shl_align, fexp, emin, prec64, emax64. intros Hd He.
  set (d := Z.pos (digits2_pos m)) in *.
  assert (∀ mz ez, Z.max (Z.pos (digits2_pos mz) + ez - 53) (3 - 1024 - 53) = ez → ez ≤ e → Z.pos mz = Z.pos m * 2 ^ (e - ez) →
    same_number (S754_finite s m e) (binary_round_aux 53 1024 s (Z.pos mz) ez loc_Exact)) as Haux.
  { intros mz ez Hz Hle Hm.
    assert (shr_fexp 53 1024 (Z.pos mz) ez loc_Exact = (Build_shr_record (Z.pos mz) false false, ez)) as Hs.
    { unfold shr_fexp, fexp, emin. cbn [Zdigits2 shr_record_of_loc]. by rewrite Hz, Z.sub_diag. }
    unfold binary_round_aux. rewrite Hs. cbn [shr_m loc_of_shr_record round_nearest_even]. rewrite Hs. cbn [shr_m].
    destruct (Z.leb_spec ez (1024 - 53)); [done|lia]. }
  destruct (Z.max (d + e - 53) (3 - 1024 - 53) - e) as [|p|p] eqn:Hp.
  - apply Haux; [lia|lia|]. rewrite Z.sub_diag. lia.
  - lia.
  - apply Haux; [|lia|].
    + rewrite digits_shift, Pos2Z.inj_add. lia.
    + rewrite shift_value. f_equal. f_equal. lia.
Qed.

Lemma Pcompare_cont_Eq p q : Pos.compare_cont Eq p q = (Z.pos p ?= Z.pos q).
Proof. done. Qed.

Lemma f_le_key x y :
  is_nan x = false → is_nan y = false → f_le x y = true ↔ key_le (f_key x) (f_key y).
Proof.
  intros Hx Hy.
  destruct x as [[]|[]| |[] mx ex], y as [[]|[]| |[] my ey]; try done;
    unfold f_le, SFleb; cbn [SFcompare f_key key_le];
    try (split; intros; first [lia | done]).
  all: rewrite Pcompare_cont_Eq.
  all: destruct (Z.compare_spec ex ey), (Z.compare_spec (Z.pos mx) (Z.pos my)); simpl;
    split; intros; try done; lia.
Qed.

Lemma key_le_refl a : key_le a a.
Proof. destruct a as [[a1 a2] a3]. simpl. lia. Qed.

Lemma key_le_trans a b c : key_le a b → key_le b c → key_le a c.
Proof. destruct a as [[? ?] ?], b as [[? ?] ?], c as [[? ?] ?]. simpl. lia. Qed.

Lemma key_le_total a b : key_le a b ∨ key_le b a.
Proof. destruct a as [[? ?] ?], b as [[? ?] ?]. simpl. lia. Qed.

(** The comparison is a total preorder on the floats that are not NaN. *)
Lemma f_le_refl x : is_nan x = false → f_le x x = true.
Proof. intros. apply f_le_key; auto using key_le_refl. Qed.

Lemma f_le_not_nan x y : f_le x y = true → is_nan x = false ∧ is_nan y = false.
Proof. by destruct x as [[]|[]| |[] ? ?], y as [[]|[]| |[] ? ?]. Qed.

Lemma f_le_trans x y z : f_le x y = true → f_le y z = true → f_le x z = true.
Proof.
  intros H1 H2. destruct (f_le_not_nan _ _ H1) as [Hx Hy].
  destruct (f_le_not_nan _ _ H2) as [_ Hz].
  apply f_le_key in H1, H2; try done. apply f_le_key; try done. by eapply key_le_trans.
Qed.

Lemma f_le_total x y :
  is_nan x = false → is_nan y = false → f_le x y = true ∨ f_le y x = true.
Proof. intros Hx Hy. rewrite !f_le_key by done. apply key_le_total. Qed.

Lemma SFcompare_swap x y : SFcompare y x = CompOpp <$> SFcompare x y.
Proof.
  destruct x as [[]|[]| |[] mx ex], y as [[]|[]| |[] my ey]; try done; simpl; f_equal;
    rewrite (Z.compare_antisym ex ey); destruct (ex ?= ey); simpl; try done;
    change (Pos.compare_cont Eq) with Pos.compare; rewrite (Pos.compare_antisym my mx);
    by destruct (Pos.compare my mx).
Qed.

(** [x < y] is the negation of [y <= x], when neither is NaN. *)
Lemma f_lt_negb_le x y :
  is_nan x = false → is_nan y = false → f_lt x y = negb (f_le y x).
Proof.
  intros Hx Hy. unfold f_lt, f_le, SFltb, SFleb. rewrite (SFcompare_swap x y).
  destruct (SFcompare x y) as [[]|] eqn:Hc; try done.
  by destruct x as [[]|[]| |[] ? ?], y as [[]|[]| |[] ? ?].
Qed.

Lemma f_lt_le x y : f_lt x y = true → f_le x y = true.
Proof. unfold f_lt, f_le, SFltb, SFleb. by destruct (SFcompare x y) as [[]|]. Qed.

(** ** Decimal text: [fmt.Sprintf("%f", x)] *)

(** [n / d] rounded to the nearest integer, ties to even. *)
Definition div_half_even (n d : Z) : Z :=
  let q := n / d in
  match (2 * (n `mod` d) ?= d) with
  | Lt => q
  | Gt => q + 1
  | Eq => if Z.even q then q else q + 1
  end.

(** The value [m * 2^e] with [k] decimals, as a number of units of [10^-k]. *)
Definition scaled (m e : Z) (k : Z) : Z :=
  if decide (0 ≤ e) then m * 2 ^ e * 10 ^ k else div_half_even (m * 10 ^ k) (2 ^ (- e)).

Fixpoint zeros (n : nat) : string := match n with O => ""%string | S n => String "0" (zeros n) end.

(** An integer padded with zeros on the left to at least [n] digits. *)
Definition pad_left (n : nat) (s : string) : string :=
  (zeros (n - String.length s) +:+ s)%string.

Definition fmt_f (x : float64) : string :=
  let text (neg : bool) (u : Z) : string :=
    ((if neg then "-" else "") +:+ FormatInt (u / 10 ^ 6) +:+ "." +:+
     pad_left 6 (FormatInt (u `mod` 10 ^ 6)))%string in
  match x with
  | S754_nan => "NaN"%string
  | S754_infinity neg => if neg then "-Inf"%string else "+Inf"%string
  | S754_zero neg => text neg 0
  | S754_finite neg m e => text neg (scaled (Z.pos m) e 6)
  end.

Example fmt_f_1 : fmt_f (f_ratio 1 8) = "0.125000"%string. Proof. by vm_compute. Qed.
Example fmt_f_2 : fmt_f (f_ratio (-1234567) 10) = "-123456.700000"%string. Proof. by vm_compute. Qed.
Example fmt_f_3 : fmt_f (f_ratio 2 3) = "0.666667"%string. Proof. by vm_compute. Qed.
