(* ===== verification/Errors.v ===== *)
(** sdk/errors/errors.go: error values, [errors.Is]/[errors.As] and the
    predicates that classify errors for the retry logic.

    An error is a chain of causes.  A package-level error variable is [Named]:
    it is identified by its name, the way Go compares the pointers.  Errors made
    at run time are fresh pointers, so they are equal to no package variable:
    [Wrap] is [fmt.Errorf("%w: ...")] (or any error with an [Unwrap] method),
    [Opaque] an error that wraps nothing; [APIError] is an error of the JetStream
    API, which carries a code.  Each carries its [Error()] text. *)

From S2P Require Import Prelude GoString.

Local Open Scope string_scope.

Inductive error : Type :=
| Named (name msg : string) (inner : option error)
| Errno (n : Z) (msg : string)
| DNSError (msg : string) (IsNotFound : bool) (inner : option error)
| APIError (code : Z) (msg : string)
| Wrap (msg : string) (inner : error)
| Opaque (msg : string).

Definition Error (e : error) : string :=
  match e with
  | Named _ m _ | Errno _ m | DNSError m _ _ | APIError _ m | Wrap m _ | Opaque m => m
  end.

(** [fmt.Errorf("%w: %v", e, s)] *)
Definition Errorf_w (e : error) (s : string) : error := Wrap (Error e +:+ ": " +:+ s) e.

(** A package variable initialised by [fmt.Errorf("%w: %v", e, s)]. *)
Definition Var_w (name : string) (e : error) (s : string) : error :=
  Named name (Error e +:+ ": " +:+ s) (Some e).

(** The targets of [errors.Is] in the program: package variables and errnos. *)
Inductive target : Type :=
| TNamed (name : string)
| TErrno (n : Z).

(** Interface equality [err == target]. *)
Definition same (e : error) (t : target) : bool :=
  match e, t with
  | Named n _ _, TNamed n' => bool_decide (n = n')
  | Errno k _, TErrno k' => bool_decide (k = k')
  | _, _ => false
  end.

(** [errors.Is]: the target occurs in the chain of causes. *)
Fixpoint Is (e : error) (t : target) : bool :=
  same e t ||
  match e with
  | Named _ _ (Some e') | DNSError _ _ (Some e') | Wrap _ e' => Is e' t
  | _ => false
  end.

(** [errors.As(err, &dnsError)]: the first DNS error of the chain. *)
Fixpoint AsDNSError (e : error) : option (string * bool) :=
  match e with
  | DNSError m nf _ => Some (m, nf)
  | Named _ _ (Some e') | Wrap _ e' => AsDNSError e'
  | _ => None
  end.

(** [errors.As(err, &apiErr)]: the code of the first API error of the chain. *)
Fixpoint AsAPIError (e : error) : option Z :=
  match e with
  | APIError c _ => Some c
  | Named _ _ (Some e') | DNSError _ _ (Some e') | Wrap _ e' => AsAPIError e'
  | _ => None
  end.

(** ** The error variables *)

Definition ErrPermanent : error := Named "ErrPermanent" "permanent error" None.
Definition ErrTransient : error := Named "ErrTransient" "transient error" None.
Definition ErrGateway : error := Var_w "ErrGateway" ErrTransient "gateway error".
Definition ErrSynchronizer : error := Var_w "ErrSynchronizer" ErrTransient "synchronizer error".
Definition ErrUnauthorized : error := Var_w "ErrUnauthorized" ErrPermanent "unauthorized".
Definition ErrUndecided : error := Var_w "ErrUndecided" ErrPermanent "undecided error".
Definition ErrNotConfigured : error :=
  Var_w "ErrNotConfigured" ErrPermanent "connector is not configured".
Definition ErrNotFound : error := Var_w "ErrNotFound" ErrPermanent "not found".

(** [context.Canceled] and [context.DeadlineExceeded] of the standard library. *)
Definition Canceled : error := Named "context.Canceled" "context canceled" None.
Definition DeadlineExceeded : error :=
  Named "context.DeadlineExceeded" "context deadline exceeded" None.

Definition tgt (e : error) : target :=
  match e with
  | Named n _ _ => TNamed n
  | Errno n _ => TErrno n
  | _ => TNamed ""
  end.

(** ** Operating-system errors *)

Definition WSAEADDRINUSE : Z := 10048.
Definition WSAECONNABORTED : Z := 10053.
Definition WSAECONNRESET : Z := 10054.
Definition WSAECONNREFUSED : Z := 10061.
Definition WSAETIMEDOUT : Z := 10060.

(** The [syscall] package's values on linux. *)
Definition EADDRINUSE : Z := 98.
Definition ECONNABORTED : Z := 103.
Definition ECONNRESET : Z := 104.
Definition ETIMEDOUT : Z := 110.
Definition ECONNREFUSED : Z := 111.

(** [strings.ToLower] on ASCII. *)
Definition lower_byte (c : ascii) : ascii :=
  let n := Ascii.nat_of_ascii c in
  if decide (65 ≤ n ≤ 90)%nat then Ascii.ascii_of_nat (n + 32) else c.

Fixpoint ToLower (s : string) : string :=
  match s with "" => "" | String c s => String (lower_byte c) (ToLower s) end.

Section predicates.
(** [runtime.GOOS == "windows"] *)
Context (windows : bool).

Definition IsErrorAddressInUse (e : error) : bool :=
  if windows then Is e (TErrno WSAEADDRINUSE) else Is e (TErrno EADDRINUSE).

Definition IsErrorConnectionAborted (e : error) : bool :=
  if windows then Is e (TErrno WSAECONNABORTED) else Is e (TErrno ECONNABORTED).

Definition IsErrorConnectionRefused (e : error) : bool :=
  if windows then Is e (TErrno WSAECONNREFUSED) else Is e (TErrno ECONNREFUSED).

Definition IsErrorConnectionReset (e : error) : bool :=
  if windows then Is e (TErrno WSAECONNRESET) else Is e (TErrno ECONNRESET).

Definition IsErrorConnection (e : error) : bool :=
  IsErrorConnectionAborted e || IsErrorConnectionRefused e || IsErrorConnectionReset e.

Definition IsErrorTimedOut (e : error) : bool :=
  if (if windows then Is e (TErrno WSAETIMEDOUT) else Is e (TErrno ETIMEDOUT)) then true
  else let s := ToLower (Error e) in
       Contains s "deadline" || Contains s "timeout".

Definition IsErrorDNS (e : error) : bool :=
  match AsDNSError e with Some _ => true | None => false end.

Definition IsErrorNoSuchHost (e : error) : bool :=
  match AsDNSError e with Some (_, nf) => nf | None => false end.
End predicates.

(** ** Lemmas *)

(** The causes of an error, the error itself first. *)
Fixpoint causes (e : error) : list error :=
  e :: match e with
       | Named _ _ (Some e') | DNSError _ _ (Some e') | Wrap _ e' => causes e'
       | _ => []
       end.

Definition error_ind_full (P : error → Prop)
  (Hnamed : ∀ n m, P (Named n m None)) (Hnamed' : ∀ n m e, P e → P (Named n m (Some e)))
  (Herrno : ∀ n m, P (Errno n m))
  (Hdns : ∀ m b, P (DNSError m b None)) (Hdns' : ∀ m b e, P e → P (DNSError m b (Some e)))
  (Hapi : ∀ c m, P (APIError c m))
  (Hwrap : ∀ m e, P e → P (Wrap m e)) (Hopaque : ∀ m, P (Opaque m)) : ∀ e, P e :=
  fix go e := match e with
  | Named n m None => Hnamed n m
  | Named n m (Some e') => Hnamed' n m e' (go e')
  | Errno n m => Herrno n m
  | DNSError m b None => Hdns m b
  | DNSError m b (Some e') => Hdns' m b e' (go e')
  | APIError c m => Hapi c m
  | Wrap m e' => Hwrap m e' (go e')
  | Opaque m => Hopaque m
  end.

(** [errors.Is] holds exactly when some cause is the target. *)
Lemma Is_causes e t : Is e t = true ↔ Exists (λ c, same c t = true) (causes e).
Proof.
  induction e using error_ind_full; cbn [Is causes];
    rewrite orb_true_iff, Exists_cons, ?Exists_nil, <-?IHe;
    (split; [intros [?|?] | intros [?|?]]; auto; done).
Qed.

(** Wrapping with [%w] keeps every target of the cause and adds none. *)
Lemma Is_Errorf_w e s t : Is (Errorf_w e s) t = Is e t.
Proof. done. Qed.

Lemma Is_Opaque m t : Is (Opaque m) t = false.
Proof. done. Qed.

Lemma ErrTransient_kinds :
  Is ErrGateway (tgt ErrTransient) ∧ Is ErrSynchronizer (tgt ErrTransient).
Proof. by vm_compute. Qed.

Lemma ErrPermanent_kinds :
  Forall (λ e, Is e (tgt ErrPermanent) = true ∧ Is e (tgt ErrTransient) = false)
    [ErrUnauthorized; ErrUndecided; ErrNotConfigured; ErrNotFound].
Proof. repeat constructor. Qed.
