(* ===== verification/Timestamp.v ===== *)
(** sdk/transit/timestamp.go: [Timestamp], a [time.Time] whose JSON form is the
    number of milliseconds since the UNIX epoch.

    A [time.Time] is the pair of whole seconds since the epoch and nanoseconds
    within the second, with a location that only affects printing. *)

From S2P Require Import Prelude GoString.

Local Open Scope Z_scope.

Inductive Location := UTCLoc | LocalLoc | NamedLoc (name : string).

#[export] Instance Location_eq_dec : EqDecision Location.
Proof. solve_decision. Defined.

Record Timestamp := mkTimestamp { sec : Z; nsec : Z; loc : Location }.

#[export] Instance Timestamp_eq_dec : EqDecision Timestamp.
Proof. solve_decision. Defined.

(** The representation invariant of [time.Time]. *)
Definition ts_wf (t : Timestamp) : Prop := in_int64 (sec t) ∧ 0 ≤ nsec t < 10 ^ 9.

(** [time.Time.UnixMilli] *)
Definition UnixMilli (t : Timestamp) : Z := int64 (sec t * 1000 + nsec t / 10 ^ 6).

(** [time.UnixMilli(i)]: [time.Unix(i/1e3, (i%1e3)*1e6)], which moves a negative
    nanosecond count to the previous second. *)
Definition time_UnixMilli (i : Z) : Timestamp :=
  let s := Z.quot i 1000 in
  let n := Z.rem i 1000 * 10 ^ 6 in
  if decide (n < 0) then mkTimestamp (int64 (s - 1)) (n + 10 ^ 9) LocalLoc
  else mkTimestamp s n LocalLoc.

(** [NewTimestamp]: the wall clock [now] is an input. *)
Definition NewTimestamp (now : Timestamp) : Timestamp := mkTimestamp (sec now) (nsec now) UTCLoc.

(** [Add(d)]: a duration in nanoseconds. *)
Definition Add (t : Timestamp) (d : Z) : Timestamp :=
  let ds := Z.quot d (10 ^ 9) in
  let n := nsec t + Z.rem d (10 ^ 9) in
  if decide (10 ^ 9 ≤ n) then mkTimestamp (int64 (sec t + (ds + 1))) (n - 10 ^ 9) (loc t)
  else if decide (n < 0) then mkTimestamp (int64 (sec t + (ds - 1))) (n + 10 ^ 9) (loc t)
  else mkTimestamp (int64 (sec t + ds)) n (loc t).

Definition In (t : Timestamp) (l : Location) : Timestamp := mkTimestamp (sec t) (nsec t) l.
Definition Local_ (t : Timestamp) : Timestamp := In t LocalLoc.
Definition UTC (t : Timestamp) : Timestamp := In t UTCLoc.

(** The JSON codec. *)
Definition quote : string := String (Ascii.ascii_of_nat 34) "".

Definition Timestamp_String (t : Timestamp) : string := FormatInt (UnixMilli t).

Definition MarshalJSON (t : Timestamp) : string := quote +:+ FormatInt (UnixMilli t) +:+ quote.

Definition UnmarshalJSON (input : string) : result num_error Timestamp :=
  i ← ParseInt (Trim input quote); Val (UTC (time_UnixMilli i)).

(** ** Lemmas *)

Lemma time_UnixMilli_wf i : in_int64 i → ts_wf (time_UnixMilli i).
Proof.
  unfold in_int64, ts_wf, time_UnixMilli. intros Hi.
  pose proof (Z.quot_rem' i 1000). pose proof (Z.rem_bound_abs i 1000 ltac:(done)).
  assert (in_int64 (Z.quot i 1000 - 1)) by (unfold in_int64; lia).
  case_decide; simpl; [rewrite int64_id by done|]; unfold in_int64 in *; lia.
Qed.

Lemma UnixMilli_time i : in_int64 i → UnixMilli (time_UnixMilli i) = i.
Proof.
  unfold in_int64. intros Hi. unfold UnixMilli, time_UnixMilli.
  pose proof (Z.quot_rem' i 1000). pose proof (Z.rem_bound_abs i 1000 ltac:(done)).
  assert (in_int64 (Z.quot i 1000 - 1)) by (unfold in_int64; lia).
  case_decide as Hd; cbn [sec nsec].
  - rewrite (int64_id (_ - 1)) by done.
    replace (Z.rem i 1000 * 10 ^ 6 + 10 ^ 9) with ((Z.rem i 1000 + 1000) * 10 ^ 6) by lia.
    rewrite Z.div_mul by done. rewrite int64_id; unfold in_int64; lia.
  - rewrite Z.div_mul by done. rewrite int64_id; unfold in_int64; lia.
Qed.

(** [FormatInt] prints digits and a sign, so trimming quotes around it is exact. *)
Definition is_digit (c : ascii) : bool :=
  bool_decide (48 ≤ Ascii.nat_of_ascii c ≤ 57)%nat.

Lemma string_of_uint_digits d :
  str_forallb is_digit (DecimalString.NilEmpty.string_of_uint d) = true.
Proof. by induction d. Qed.

Lemma FormatInt_chars z :
  str_forallb (λ c, is_digit c || bool_decide (c = minus_sign)) (FormatInt z) = true.
Proof.
  assert (∀ d, str_forallb (λ c, is_digit c || bool_decide (c = minus_sign))
    (DecimalString.NilZero.string_of_uint d) = true) as H.
  { intros d.
    assert (str_forallb (λ c, is_digit c || bool_decide (c = minus_sign))
      (DecimalString.NilEmpty.string_of_uint d) = true) by by induction d.
    by destruct d. }
  unfold FormatInt. destruct (Z.to_int z); simpl; rewrite ?H; done.
Qed.

Lemma trim_right_quote f s c :
  f c = true → str_forallb (λ c, negb (f c)) s = true → trim_right f (s +:+ String c "") = s.
Proof.
  intros Hc. rewrite trim_right_snoc, Hc. induction s as [|d s IH]; simpl; [done|].
  intros [Hd Hs]%andb_true_iff. rewrite IH by done.
  destruct s; [|done]. by destruct (f d).
Qed.

Lemma Trim_quoted s :
  str_forallb (λ c, negb (has_byte c quote)) s = true →
  Trim (quote +:+ s +:+ quote) quote = s.
Proof.
  intros Hs. unfold Trim, trim.
  assert (trim_left (λ c, has_byte c quote) (quote +:+ s +:+ quote) = s +:+ quote ∨
    (s = "" ∧ trim_left (λ c, has_byte c quote) (quote +:+ s +:+ quote) = ""))
    as [-> | [-> ->]]; [|by apply trim_right_quote|done].
  destruct s as [|c s]; [right; done|left].
  simpl in Hs. apply andb_true_iff in Hs as [Hc%negb_true_iff _].
  change (quote +:+ String c s +:+ quote) with (String (Ascii.ascii_of_nat 34) (String c (s +:+ quote))).
  cbn [trim_left]. change (has_byte (Ascii.ascii_of_nat 34) quote) with true.
  cbn iota. unfold quote at 1. cbn [has_byte]. by rewrite Hc.
Qed.

Lemma quoted_digits_safe c :
  is_digit c || bool_decide (c = minus_sign) = true → negb (has_byte c quote) = true.
Proof.
  unfold has_byte, quote. rewrite orb_false_r, negb_true_iff, bool_decide_eq_false.
  intros H ->. done.
Qed.

Lemma Trim_FormatInt z : Trim (quote +:+ FormatInt z +:+ quote) quote = FormatInt z.
Proof. apply Trim_quoted. eapply str_forallb_impl, FormatInt_chars. apply quoted_digits_safe. Qed.

(** ** Properties *)

(** Unmarshalling what [MarshalJSON] wrote gives the timestamp truncated to
    the millisecond it was written with, in UTC; the representation invariant
    of the result holds, and marshalling it again gives the same text. *)
Theorem UnmarshalJSON_MarshalJSON (t : Timestamp) :
  ∃ t', UnmarshalJSON (MarshalJSON t) = Val t' ∧
    UnixMilli t' = UnixMilli t ∧ loc t' = UTCLoc ∧ nsec t' `mod` 10 ^ 6 = 0 ∧
    ts_wf t' ∧ MarshalJSON t' = MarshalJSON t.
Proof.
  assert (in_int64 (UnixMilli t)) as Hr by apply int64_range.
  exists (UTC (time_UnixMilli (UnixMilli t))).
  unfold UnmarshalJSON, MarshalJSON at 1. rewrite Trim_FormatInt, ParseInt_FormatInt by done.
  assert (UnixMilli (UTC (time_UnixMilli (UnixMilli t))) = UnixMilli t) as Hm
    by exact (UnixMilli_time _ Hr).
  split_and!; [done|done|done| |exact (time_UnixMilli_wf _ Hr)|].
  - unfold time_UnixMilli. case_decide; cbn [UTC In nsec].
    + replace (10 ^ 9) with (1000 * 10 ^ 6) by done. by rewrite <-Z.mul_add_distr_r, Z.mod_mul.
    + by rewrite Z.mod_mul.
  - unfold MarshalJSON. by rewrite Hm.
Qed.
