(* ===== verification/TypedValue.v ===== *)
(** sdk/transit/transit.go, typed values: [TypedValue], its constructor
    [NewTypedValue] from a value of any Go type, and its text. *)

From S2P Require Import Prelude GoString GoFloat Timestamp.

Local Open Scope string_scope.

(** ** Data *)

(** [ValueType] is an open string type with these constants. *)
Definition ValueType := string.
Definition IntegerType : ValueType := "IntegerType".
Definition DoubleType : ValueType := "DoubleType".
Definition StringType : ValueType := "StringType".
Definition BooleanType : ValueType := "BooleanType".
Definition TimeType : ValueType := "TimeType".
Definition UnspecifiedType : ValueType := "UnspecifiedType".

Record TypedValue := mkTypedValue {
  tv_ValueType : ValueType;
  tv_BoolValue : option bool;
  tv_DoubleValue : option float64;
  tv_IntegerValue : option Z;
  tv_StringValue : option string;
  tv_TimeValue : option Timestamp;
}.

#[export] Instance TypedValue_eq_dec : EqDecision TypedValue.
Proof. solve_decision. Defined.

(** Go's integer types. *)
Inductive int_kind :=
| KInt | KInt8 | KInt16 | KInt32 | KInt64 | KUint | KUint8 | KUint16 | KUint32 | KUint64.

Definition kind_range (k : int_kind) : Z * Z :=
  match k with
  | KInt | KInt64 => (- 2 ^ 63, 2 ^ 63)
  | KInt8 => (- 2 ^ 7, 2 ^ 7)
  | KInt16 => (- 2 ^ 15, 2 ^ 15)
  | KInt32 => (- 2 ^ 31, 2 ^ 31)
  | KUint | KUint64 => (0, 2 ^ 64)
  | KUint8 => (0, 2 ^ 8)
  | KUint16 => (0, 2 ^ 16)
  | KUint32 => (0, 2 ^ 32)
  end%Z.

Definition in_kind (k : int_kind) (z : Z) : Prop :=
  ((kind_range k).1 ≤ z < (kind_range k).2)%Z.

(** The dynamic types of an [any] argument that the program tells apart; a
    pointer is an [option], [None] being [nil]. *)
Inductive any :=
| ANil
| ABool (b : bool) | APBool (p : option bool)
| AFloat32 (x : spec_float) | APFloat32 (p : option spec_float)
| AFloat64 (x : float64) | APFloat64 (p : option float64)
| AInt (k : int_kind) (z : Z) | APInt (k : int_kind) (p : option Z)
| AString (s : string) | APString (p : option string)
| ATimestamp (t : Timestamp) | APTimestamp (p : option Timestamp)
| ATypedValue (t : TypedValue) | APTypedValue (p : option TypedValue)
| AOther (type_name : string).

(** [float64(x)] of a [float32]: the same number with a 53-bit significand. *)
Definition float64_of_float32 (x : spec_float) : float64 :=
  match x with
  | S754_finite s m e => binary_normalize prec64 emax64 (if s then Z.neg m else Z.pos m) e s
  | _ => x
  end.

(** ** Operations *)

Definition zero_TypedValue : TypedValue := mkTypedValue "" None None None None None.

Definition tv_bool (b : bool) : TypedValue := mkTypedValue BooleanType (Some b) None None None None.
Definition tv_double (x : float64) : TypedValue := mkTypedValue DoubleType None (Some x) None None None.
Definition tv_int (z : Z) : TypedValue := mkTypedValue IntegerType None None (Some z) None None.
Definition tv_string (s : string) : TypedValue := mkTypedValue StringType None None None (Some s) None.
Definition tv_time (t : Timestamp) : TypedValue := mkTypedValue TimeType None None None None (Some t).

(** The conversion of each integer type: [int64(v)], but for an [int64], which is taken
    as it is. *)
Definition to_int64 (k : int_kind) (v : Z) : Z :=
  match k with
  | KInt => int64 v | KInt8 => int64 v | KInt16 => int64 v | KInt32 => int64 v | KInt64 => v
  | KUint => int64 v | KUint8 => int64 v | KUint16 => int64 v | KUint32 => int64 v | KUint64 => int64 v
  end.

(** [NewTypedValue(v)]: [None] is the [nil] result for an unsupported type;
    a nil pointer of a supported type is dereferenced and panics. *)
Definition NewTypedValue (v : any) : outcome (option TypedValue) :=
  match v with
  | ABool b => Ret (Some (tv_bool b))
  | APBool p => b ← deref p; Ret (Some (tv_bool b))
  | AFloat32 x => Ret (Some (tv_double (float64_of_float32 x)))
  | APFloat32 p => x ← deref p; Ret (Some (tv_double (float64_of_float32 x)))
  | AFloat64 x => Ret (Some (tv_double x))
  | APFloat64 p => x ← deref p; Ret (Some (tv_double x))
  | AInt k z => Ret (Some (tv_int (to_int64 k z)))
  | APInt k p => z ← deref p; Ret (Some (tv_int (to_int64 k z)))
  | AString s => Ret (Some (tv_string s))
  | APString p => s ← deref p; Ret (Some (tv_string s))
  | ATimestamp t => Ret (Some (tv_time t))
  | APTimestamp p => t ← deref p; Ret (Some (tv_time t))
  | ATypedValue t => Ret (Some t)
  | APTypedValue p => t ← deref p; Ret (Some t)
  | ANil | AOther _ => Ret None
  end.

(** [strconv.FormatBool] *)
Definition FormatBool (b : bool) : string := if b then "true" else "false".

(** [TypedValue.String] *)
Definition TypedValue_String (value : TypedValue) : outcome string :=
  let ty := tv_ValueType value in
  if decide (ty = IntegerType) then FormatInt <$> deref (tv_IntegerValue value)
  else if decide (ty = StringType) then deref (tv_StringValue value)
  else if decide (ty = DoubleType) then fmt_f <$> deref (tv_DoubleValue value)
  else if decide (ty = BooleanType) then FormatBool <$> deref (tv_BoolValue value)
  else if decide (ty = TimeType) then Timestamp_String <$> deref (tv_TimeValue value)
  else Ret "".

(** ** Well-formedness *)

(** The field named by the type is set, and no other. *)
Definition tv_wf (t : TypedValue) : Prop :=
  (∃ b, t = tv_bool b) ∨ (∃ x, t = tv_double x) ∨ (∃ z, t = tv_int z ∧ in_int64 z) ∨
  (∃ s, t = tv_string s) ∨ (∃ ts, t = tv_time ts).

(** The values of a type: a [float32] has 24 bits, an integer is in the range of its
    type, and a typed value that is itself the argument is well formed. *)
Definition any_wf (v : any) : Prop :=
  match v with
  | ATypedValue t | APTypedValue (Some t) => tv_wf t
  | AInt k z | APInt k (Some z) => in_kind k z
  | AFloat32 x | APFloat32 (Some x) => valid_binary 24 128 x = true
  | _ => True
  end.

Definition nil_pointer (v : any) : bool :=
  match v with
  | APBool None | APFloat32 None | APFloat64 None | APInt _ None | APString None
  | APTimestamp None | APTypedValue None => true
  | _ => false
  end.

Definition supported (v : any) : bool :=
  match v with ANil | AOther _ => false | _ => true end.

(** The value itself, behind a pointer or not. *)
Definition pointed (v : any) : option any :=
  match v with
  | APBool p => ABool <$> p
  | APFloat32 p => AFloat32 <$> p
  | APFloat64 p => AFloat64 <$> p
  | APInt k p => AInt k <$> p
  | APString p => AString <$> p
  | APTimestamp p => ATimestamp <$> p
  | APTypedValue p => ATypedValue <$> p
  | ANil | AOther _ => None
  | _ => Some v
  end.

(** The typed value [t] is the Go value [u]: its type is the one for [u]'s, the field of that
    type has the value of [u], and the other fields are not set.  An integer is the same
    number, or, of the unsigned types of 64 bits, the number less 2^64; a [float32] is the
    same number. *)
Definition represents (u : any) (t : TypedValue) : Prop :=
  match u with
  | ABool b => t = mkTypedValue BooleanType (Some b) None None None None
  | AFloat32 x => ∃ y, same_number x y ∧ t = mkTypedValue DoubleType None (Some y) None None None
  | AFloat64 x => t = mkTypedValue DoubleType None (Some x) None None None
  | AInt k z => ∃ i, in_int64 i ∧ (i = z ∨ (k = KUint ∨ k = KUint64) ∧ i = z - 2 ^ 64)%Z ∧
      t = mkTypedValue IntegerType None None (Some i) None None
  | AString s => t = mkTypedValue StringType None None None (Some s) None
  | ATimestamp ts => t = mkTypedValue TimeType None None None None (Some ts)
  | ATypedValue t' => t = t'
  | _ => False
  end.

Lemma float64_of_float32_exact x : valid_binary 24 128 x = true → same_number x (float64_of_float32 x).
Proof.
  destruct x as [s|s| |s m e]; try done. cbn [valid_binary]. unfold bounded, canonical_mantissa.
  intros [Hc%Z.eqb_eq He%Z.leb_le]%andb_prop. unfold fexp, emin in Hc.
  assert (Z.pos (digits2_pos m) ≤ prec64 ∧ 3 - emax64 - prec64 ≤ e ≤ emax64 - prec64)%Z as [Hd Hr]
    by (unfold prec64, emax64; lia).
  cbn. destruct s; by apply round_exact.
Qed.

Lemma to_int64_int64 k z : in_kind k z → to_int64 k z = int64 z.
Proof. destruct k; try done. intros Hz. symmetry. by apply int64_id. Qed.

Lemma to_int64_range k z : in_kind k z → in_int64 (to_int64 k z).
Proof. intros Hz. rewrite to_int64_int64 by done. apply int64_range. Qed.

Lemma to_int64_value k z :
  in_kind k z → to_int64 k z = z ∨ (k = KUint ∨ k = KUint64) ∧ to_int64 k z = (z - 2 ^ 64)%Z.
Proof.
  intros Hz. rewrite to_int64_int64 by done. unfold in_kind in Hz. destruct (decide (z < 2 ^ 63)%Z) as [Hlt|Hge].
  - left. apply int64_id. unfold in_int64. destruct k; cbn in Hz; lia.
  - right. split; [destruct k; cbn in Hz; auto; lia|]. unfold int64, swrap.
    replace (z + 2 ^ (64 - 1))%Z with ((z - 2 ^ 63) + 1 * 2 ^ 64)%Z by lia.
    rewrite Z.mod_add, Z.mod_small by (destruct k; cbn in Hz; lia). lia.
Qed.

Lemma int_represents k z : in_kind k z → represents (AInt k z) (tv_int (to_int64 k z)).
Proof. intros Hz. exists (to_int64 k z). split_and!; [by apply to_int64_range|by apply to_int64_value|done]. Qed.

Lemma NewTypedValue_represents v t :
  any_wf v → NewTypedValue v = Ret (Some t) → ∃ u, pointed v = Some u ∧ represents u t.
Proof.
  intros Hv Ht. destruct v as [| | []| |[]| |[]| |? []| |[]| |[]| |[]|]; simplify_eq/=; eexists; (split; [reflexivity|]);
    try (by apply int_represents); cbn; eauto using float64_of_float32_exact.
Qed.

Lemma represents_wf u t : any_wf u → represents u t → tv_wf t ∧ is_ret (TypedValue_String t) = true.
Proof.
  intros Hu Hr.
  assert (tv_wf t) as Hwf.
  { unfold tv_wf. destruct u; cbn in *; try done; subst; eauto 10.
    - destruct Hr as (y & _ & ->). eauto.
    - destruct Hr as (i & Hi & _ & ->). eauto 10. }
  split; [done|]. by destruct Hwf as [[]|[[]|[[? [-> ?]]|[[]|[]]]]]; subst.
Qed.

Lemma pointed_wf v u : any_wf v → pointed v = Some u → any_wf u.
Proof. by destruct v as [| | []| | []| | []| |? []| | []| | []| | []|]; intros ? [= <-]. Qed.

(** ** Properties *)

(** C40: [NewTypedValue] stores the value it is given: for every value of a supported type,
    and every pointer to one, the result has the type for it and that value in the field
    of the type, no other field is set, and it has a text.  A number stays the same
    number ([float32] too), but for a [uint] or [uint64] from 2^63 on, which is stored less
    2^64.  The result is [nil] exactly for the types the function does not know, and it
    panics exactly on a nil pointer of a supported type. *)
Theorem NewTypedValue_correct (v : any) :
  any_wf v →
  (nil_pointer v = true ↔ is_panic (NewTypedValue v) = true) ∧
  (NewTypedValue v = Ret None ↔ supported v = false) ∧
  (∀ u, pointed v = Some u →
    ∃ t, NewTypedValue v = Ret (Some t) ∧ represents u t ∧ tv_wf t ∧ is_ret (TypedValue_String t) = true).
Proof.
  intros Hv. split_and!.
  - by destruct v as [| | []| | []| | []| |? []| | []| | []| | []|].
  - by destruct v as [| | []| | []| | []| |? []| | []| | []| | []|].
  - intros u Hu.
    assert (∃ t, NewTypedValue v = Ret (Some t)) as [t Ht]
      by (destruct v as [| | []| | []| | []| |? []| | []| | []| | []|]; try done; by eexists).
    destruct (NewTypedValue_represents v t Hv Ht) as (u' & Hu' & Hr). simplify_eq.
    exists t. split; [done|]. split; [done|]. eauto using represents_wf, pointed_wf.
Qed.

Lemma NewTypedValue_correct_witness :
  any_wf (APInt KUint64 (Some (2 ^ 64 - 7)%Z)) ∧
  ∃ t, NewTypedValue (APInt KUint64 (Some (2 ^ 64 - 7)%Z)) = Ret (Some t) ∧ represents (AInt KUint64 (2 ^ 64 - 7)) t.
Proof.
  assert (any_wf (APInt KUint64 (Some (2 ^ 64 - 7)%Z))) as Hw by (vm_compute; split; congruence).
  split; [exact Hw|].
  destruct (proj2 (proj2 (NewTypedValue_correct _ Hw)) _ eq_refl) as (t & Ht & Hr & _). by exists t.
Defined.

(** Integers keep their value in a typed value, of every integer type; the
    values of [uint] and [uint64] from 2^63 on wrap to the negative number
    [z - 2^64]. *)
Theorem NewTypedValue_int (k : int_kind) (z : Z) :
  in_kind k z →
  NewTypedValue (AInt k z) = Ret (Some (tv_int (if decide (z < 2 ^ 63)%Z then z else z - 2 ^ 64)%Z)) ∧
  ((2 ^ 63 ≤ z)%Z → k = KUint ∨ k = KUint64).
Proof.
  intros Hz. pose proof (to_int64_range k z Hz) as Hr. unfold in_int64 in Hr. split.
  - cbn [NewTypedValue]. do 3 f_equal. destruct (to_int64_value k z Hz) as [He|[_ He]]; rewrite He in *; unfold in_kind in Hz;
      case_decide; destruct k; cbn in Hz; lia.
  - intros Hge. destruct (to_int64_value k z Hz) as [He|[Hk _]]; [lia|done].
Qed.

Lemma NewTypedValue_int_witness :
  in_kind KUint64 (2 ^ 64 - 1) ∧ NewTypedValue (AInt KUint64 (2 ^ 64 - 1)) = Ret (Some (tv_int (-1))).
Proof.
  assert (in_kind KUint64 (2 ^ 64 - 1)) as H by (vm_compute; split; congruence).
  split; [exact H|]. exact (proj1 (NewTypedValue_int KUint64 (2 ^ 64 - 1) H)).
Defined.
