(* ===== verification/Transit.v ===== *)
(** sdk/transit: the data model of the Groundwork API (transit.go, inventory.go,
    monitored.go, events.go, downtimes.go): structs as records, the setters, the
    context merge and the conversions between the monitored and the inventory
    view.  A field of an embedded struct is reached through the embedded record,
    as Go promotes it. *)

From S2P Require Import Prelude GoString GoFloat Timestamp TypedValue.

Local Open Scope string_scope.

(** ** Open string types and their constants *)

Definition VersionString := string.
Definition ModelVersion : VersionString := "1.0.0".

Definition HostOwnershipType := string.
Definition Creator : HostOwnershipType := "Creator".
Definition Take : HostOwnershipType := "Take".
Definition Yield : HostOwnershipType := "Yield".

Definition MetricKind := string.
Definition MetricKindUnspecified : MetricKind := "METRIC_KIND_UNSPECIFIED".
Definition Gauge : MetricKind := "GAUGE".
Definition Delta : MetricKind := "DELTA".
Definition Cumulative : MetricKind := "CUMULATIVE".

Definition UnitType := string.
Definition UnitCounter : UnitType := "1".
Definition PercentCPU : UnitType := "%{cpu}".
Definition KB : UnitType := "KB".
Definition MB : UnitType := "MB".
Definition GB : UnitType := "GB".

Definition ComputeType := string.
Definition Query : ComputeType := "Query".
Definition Regex : ComputeType := "Regex".
Definition Synthetic : ComputeType := "Synthetic".
Definition Informational : ComputeType := "Informational".
Definition Performance : ComputeType := "Performance".
Definition Health : ComputeType := "Health".

Definition MonitorStatus := string.
Definition ServiceOk : MonitorStatus := "SERVICE_OK".
Definition ServiceWarning : MonitorStatus := "SERVICE_WARNING".
Definition ServiceUnscheduledCritical : MonitorStatus := "SERVICE_UNSCHEDULED_CRITICAL".
Definition ServicePending : MonitorStatus := "SERVICE_PENDING".
Definition ServiceScheduledCritical : MonitorStatus := "SERVICE_SCHEDULED_CRITICAL".
Definition ServiceUnknown : MonitorStatus := "SERVICE_UNKNOWN".
Definition HostUp : MonitorStatus := "HOST_UP".
Definition HostUnscheduledDown : MonitorStatus := "HOST_UNSCHEDULED_DOWN".
Definition HostWarning : MonitorStatus := "HOST_WARNING".
Definition HostPending : MonitorStatus := "HOST_PENDING".
Definition HostScheduledDown : MonitorStatus := "HOST_SCHEDULED_DOWN".
Definition HostUnreachable : MonitorStatus := "HOST_UNREACHABLE".
Definition HostUnchanged : MonitorStatus := "HOST_UNCHANGED".

Definition ResourceType := string.
Definition ResourceTypeHost : ResourceType := "host".
Definition ResourceTypeService : ResourceType := "service".
Definition ResourceTypeHypervisor : ResourceType := "hypervisor".
Definition ResourceTypeInstance : ResourceType := "instance".
Definition ResourceTypeVirtualMachine : ResourceType := "virtual-machine".
Definition ResourceTypeCloudApp : ResourceType := "cloud-app".
Definition ResourceTypeCloudFunction : ResourceType := "cloud-function".
Definition ResourceTypeLoadBalancer : ResourceType := "load-balancer".
Definition ResourceTypeContainer : ResourceType := "container".
Definition ResourceTypeStorage : ResourceType := "storage".
Definition ResourceTypeNetwork : ResourceType := "network".
Definition ResourceTypeNetworkSwitch : ResourceType := "network-switch".
Definition ResourceTypeNetworkDevice : ResourceType := "network-device".

Definition ServiceType := string.
Definition ServiceTypeProcess : ServiceType := "Process".
Definition ServiceTypeService : ServiceType := "Service".

Definition GroupType := string.
Definition HostGroup : GroupType := "HostGroup".
Definition ServiceGroup : GroupType := "ServiceGroup".
Definition CustomGroup : GroupType := "CustomGroup".

Definition MetricSampleType := string.
Definition Value : MetricSampleType := "Value".
Definition Warning : MetricSampleType := "Warning".
Definition Critical : MetricSampleType := "Critical".
Definition Min : MetricSampleType := "Min".
Definition Max : MetricSampleType := "Max".

(** ** Metric samples *)

Record TimeInterval := mkTimeInterval {
  ti_EndTime : option Timestamp;
  ti_StartTime : option Timestamp;
}.

Record ThresholdValue := mkThresholdValue {
  thr_SampleType : MetricSampleType;
  thr_Label : string;
  thr_Value : option TypedValue;
}.

Record TimeSeries := mkTimeSeries {
  ts_MetricName : string;
  ts_SampleType : MetricSampleType;
  ts_Interval : option TimeInterval;
  ts_Value : option TypedValue;
  ts_Tags : gmap string string;
  ts_Unit : UnitType;
  ts_Thresholds : list ThresholdValue;
  ts_MetricComputeType : ComputeType;
  ts_MetricExpression : string;
}.

Record MetricDescriptor := mkMetricDescriptor {
  md_CustomName : string;
  md_Description : string;
  md_DisplayName : string;
  md_Labels : list (string * string * ValueType);
  md_Thresholds : list (string * Z);
  md_Type : string;
  md_Unit : UnitType;
  md_ValueType : ValueType;
  md_ComputeType : ComputeType;
  md_MetricKind : MetricKind;
}.

(** ** Context and results *)

Record TracerContext := mkTracerContext {
  tc_AppType : string;
  tc_AgentID : string;
  tc_TraceToken : string;
  tc_TimeStamp : option Timestamp;
  tc_Version : VersionString;
}.

Record OperationResult := mkOperationResult {
  or_Entity : string;
  or_Status : string;
  or_Message : string;
  or_Location : string;
  or_EntityID : Z;
}.

Record OperationResults := mkOperationResults {
  ors_ResourcesAdded : Z;
  ors_ResourcesDeleted : Z;
  ors_EntityType : string;
  ors_Operation : string;
  ors_Warning : Z;
  ors_Count : Z;
  ors_Results : option (list OperationResult);
}.

(** ** Connector configuration *)

Record Mapping := mkMapping {
  map_Enabled : bool;
  map_Source : string;
  map_Destination : string;
}.

Record Mappings := mkMappings {
  maps_Resource : list Mapping;
  maps_HostLabel : list Mapping;
  maps_ServiceLabel : list Mapping;
}.

Record MetricDefinition := mkMetricDefinition {
  mdef_Name : string;
  mdef_CustomName : string;
  mdef_Description : string;
  mdef_Monitored : bool;
  mdef_Graphed : bool;
  mdef_MetricType : MetricKind;
  mdef_ComputeType : ComputeType;
  mdef_ServiceType : string;
  mdef_SourceType : string;
  mdef_AggregateType : string;
  mdef_WarningThreshold : Z;
  mdef_CriticalThreshold : Z;
  mdef_Expression : string;
  mdef_Format : string;
}.

Record MetricsProfile := mkMetricsProfile {
  mp_Name : string;
  mp_ProfileType : string;
  mp_IsTemplate : bool;
  mp_Metrics : list MetricDefinition;
}.

Record AgentIdentity := mkAgentIdentity {
  ai_AgentID : string;
  ai_AppName : string;
  ai_AppType : string;
}.

(** ** Inventory *)

Record BaseInfo := mkBaseInfo {
  bi_Name : string;
  bi_Type : ResourceType;
  bi_Owner : string;
  bi_Category : string;
  bi_Description : string;
  bi_Properties : gmap string TypedValue;
}.

Record BaseResource := mkBaseResource { br_BaseInfo : BaseInfo; br_Device : string }.

Record InventoryService := mkInventoryService { is_BaseInfo : BaseInfo }.

Record InventoryResource := mkInventoryResource {
  ir_BaseResource : BaseResource;
  ir_Services : list InventoryService;
}.

Record ResourceRef := mkResourceRef {
  rr_Name : string;
  rr_Type : ResourceType;
  rr_Owner : string;
}.

Record ResourceGroup := mkResourceGroup {
  rg_GroupName : string;
  rg_Type : GroupType;
  rg_Description : string;
  rg_Resources : list ResourceRef;
}.

Record InventoryRequest := mkInventoryRequest {
  irq_Context : TracerContext;
  irq_OwnershipType : HostOwnershipType;
  irq_Resources : list InventoryResource;
  irq_Groups : list ResourceGroup;
}.

(** ** Monitored resources *)

Record MonitoredInfo := mkMonitoredInfo {
  mi_Status : MonitorStatus;
  mi_LastCheckTime : option Timestamp;
  mi_NextCheckTime : option Timestamp;
  mi_LastPluginOutput : string;
}.

Record MonitoredService := mkMonitoredService {
  ms_BaseInfo : BaseInfo;
  ms_MonitoredInfo : MonitoredInfo;
  ms_Metrics : list TimeSeries;
}.

Record MonitoredResource := mkMonitoredResource {
  mr_BaseResource : BaseResource;
  mr_MonitoredInfo : MonitoredInfo;
  mr_Services : list MonitoredService;
}.

Record ResourcesWithServicesRequest := mkRequest {
  rq_Context : TracerContext;
  rq_Resources : list MonitoredResource;
  rq_Groups : list ResourceGroup;
}.

(** ** Events and downtimes *)

Record IncidentAlert := mkIncidentAlert {
  ia_IncidentID : string;
  ia_ResourceName : string;
  ia_Status : string;
  ia_StartedAt : option Timestamp;
  ia_EndedAt : option Timestamp;
  ia_ConditionName : string;
  ia_URL : string;
  ia_Summary : string;
}.

Record GroundworkEvent := mkGroundworkEvent {
  ev_AppType : string;
  ev_Device : string;
  ev_Host : string;
  ev_Service : string;
  ev_OperationStatus : string;
  ev_MonitorStatus : string;
  ev_Severity : string;
  ev_ApplicationSeverity : string;
  ev_Component : string;
  ev_SubComponent : string;
  ev_Priority : string;
  ev_TypeRule : string;
  ev_TextMessage : string;
  ev_LastInsertDate : option Timestamp;
  ev_ReportDate : option Timestamp;
  ev_ApplicationName : string;
  ev_ConsolidationName : string;
  ev_ErrorType : string;
  ev_LoggerName : string;
  ev_LogType : string;
  ev_MonitorServer : string;
}.

Record GroundworkEventsRequest := mkEventsRequest { evs_Events : list GroundworkEvent }.

Record GroundworkEventAck := mkEventAck {
  ack_AppType : string;
  ack_Host : string;
  ack_Service : string;
  ack_AcknowledgedBy : string;
  ack_AcknowledgeComment : string;
}.

Record GroundworkEventsAckRequest := mkEventsAckRequest { acks_Acks : list GroundworkEventAck }.

Record GroundworkEventUnack := mkEventUnack {
  unack_AppType : string;
  unack_Host : string;
  unack_Service : string;
}.

Record GroundworkEventsUnackRequest := mkEventsUnackRequest {
  unacks_Unacks : list GroundworkEventUnack;
}.

Record Downtime := mkDowntime {
  dt_EntityType : string;
  dt_EntityName : string;
  dt_HostName : string;
  dt_ServiceDescription : string;
  dt_ScheduledDowntimeDepth : Z;
}.

Record Downtimes := mkDowntimes { dts_BizHostServiceInDowntimes : list Downtime }.

Record DowntimesRequest := mkDowntimesRequest {
  dtr_HostNames : list string;
  dtr_HostGroupNames : list string;
  dtr_ServiceDescriptions : list string;
  dtr_ServiceGroupCategoryNames : list string;
  dtr_SetHosts : bool;
  dtr_SetServices : bool;
}.

(** ** Decidable equality *)

#[export] Instance TimeInterval_eq_dec : EqDecision TimeInterval. Proof. solve_decision. Defined.
#[export] Instance ThresholdValue_eq_dec : EqDecision ThresholdValue. Proof. solve_decision. Defined.
#[export] Instance TimeSeries_eq_dec : EqDecision TimeSeries. Proof. solve_decision. Defined.
#[export] Instance TracerContext_eq_dec : EqDecision TracerContext. Proof. solve_decision. Defined.
#[export] Instance BaseInfo_eq_dec : EqDecision BaseInfo. Proof. solve_decision. Defined.
#[export] Instance BaseResource_eq_dec : EqDecision BaseResource. Proof. solve_decision. Defined.
#[export] Instance ResourceRef_eq_dec : EqDecision ResourceRef. Proof. solve_decision. Defined.
#[export] Instance ResourceGroup_eq_dec : EqDecision ResourceGroup. Proof. solve_decision. Defined.
#[export] Instance MonitoredInfo_eq_dec : EqDecision MonitoredInfo. Proof. solve_decision. Defined.
#[export] Instance MonitoredService_eq_dec : EqDecision MonitoredService. Proof. solve_decision. Defined.
#[export] Instance MonitoredResource_eq_dec : EqDecision MonitoredResource. Proof. solve_decision. Defined.
#[export] Instance Request_eq_dec : EqDecision ResourcesWithServicesRequest. Proof. solve_decision. Defined.
#[export] Instance GroundworkEvent_eq_dec : EqDecision GroundworkEvent. Proof. solve_decision. Defined.

(** ** Zero values of Go *)

Definition zero_Context : TracerContext := mkTracerContext "" "" "" None "".
Definition zero_Request : ResourcesWithServicesRequest := mkRequest zero_Context [] [].
Definition zero_BaseInfo : BaseInfo := mkBaseInfo "" "" "" "" "" ∅.
Definition zero_MonitoredInfo : MonitoredInfo := mkMonitoredInfo "" None None "".
Definition zero_TimeSeries : TimeSeries := mkTimeSeries "" "" None None ∅ "" [] "" "".

(** ** Setters

    A method with a pointer receiver is a function from the old to the new value
    of the receiver. *)

Definition ThresholdValue_SetValue (p : ThresholdValue) (v : any) : outcome ThresholdValue :=
  t ← NewTypedValue v; Ret (mkThresholdValue (thr_SampleType p) (thr_Label p) t).

Definition AddThreshold (p : TimeSeries) (t : ThresholdValue) : TimeSeries :=
  mkTimeSeries (ts_MetricName p) (ts_SampleType p) (ts_Interval p) (ts_Value p) (ts_Tags p)
    (ts_Unit p) (ts_Thresholds p ++ [t]) (ts_MetricComputeType p) (ts_MetricExpression p).

Definition TimeSeries_SetName (p : TimeSeries) (s : string) : TimeSeries :=
  mkTimeSeries s (ts_SampleType p) (ts_Interval p) (ts_Value p) (ts_Tags p)
    (ts_Unit p) (ts_Thresholds p) (ts_MetricComputeType p) (ts_MetricExpression p).

Definition SetSampleType (p : TimeSeries) (s : MetricSampleType) : TimeSeries :=
  mkTimeSeries (ts_MetricName p) s (ts_Interval p) (ts_Value p) (ts_Tags p)
    (ts_Unit p) (ts_Thresholds p) (ts_MetricComputeType p) (ts_MetricExpression p).

Definition with_Interval (p : TimeSeries) (i : TimeInterval) : TimeSeries :=
  mkTimeSeries (ts_MetricName p) (ts_SampleType p) (Some i) (ts_Value p) (ts_Tags p)
    (ts_Unit p) (ts_Thresholds p) (ts_MetricComputeType p) (ts_MetricExpression p).

Definition SetIntervalEnd (p : TimeSeries) (t : option Timestamp) : TimeSeries :=
  let i := default (mkTimeInterval None None) (ts_Interval p) in
  with_Interval p (mkTimeInterval t (ti_StartTime i)).

Definition SetIntervalStart (p : TimeSeries) (t : option Timestamp) : TimeSeries :=
  let i := default (mkTimeInterval None None) (ts_Interval p) in
  with_Interval p (mkTimeInterval (ti_EndTime i) t).

Definition TimeSeries_SetValue (p : TimeSeries) (v : any) : outcome TimeSeries :=
  t ← NewTypedValue v;
  Ret (mkTimeSeries (ts_MetricName p) (ts_SampleType p) (ts_Interval p) t (ts_Tags p)
         (ts_Unit p) (ts_Thresholds p) (ts_MetricComputeType p) (ts_MetricExpression p)).

Definition SetTag (p : TimeSeries) (k v : string) : TimeSeries :=
  mkTimeSeries (ts_MetricName p) (ts_SampleType p) (ts_Interval p) (ts_Value p)
    (<[k := v]> (ts_Tags p)) (ts_Unit p) (ts_Thresholds p) (ts_MetricComputeType p)
    (ts_MetricExpression p).

Definition SetUnit (p : TimeSeries) (s : UnitType) : TimeSeries :=
  mkTimeSeries (ts_MetricName p) (ts_SampleType p) (ts_Interval p) (ts_Value p) (ts_Tags p)
    s (ts_Thresholds p) (ts_MetricComputeType p) (ts_MetricExpression p).

(** [TracerContext.SetContext]: the non-empty fields of [c] win. *)
Definition SetContext (p c : TracerContext) : TracerContext :=
  let pick (x y : string) := if decide (y = "") then x else y in
  mkTracerContext (pick (tc_AppType p) (tc_AppType c)) (pick (tc_AgentID p) (tc_AgentID c))
    (pick (tc_TraceToken p) (tc_TraceToken c))
    (match tc_TimeStamp c with Some t => Some t | None => tc_TimeStamp p end)
    (pick (tc_Version p) (tc_Version c)).

Definition BaseInfo_SetName (p : BaseInfo) (s : string) : BaseInfo :=
  mkBaseInfo s (bi_Type p) (bi_Owner p) (bi_Category p) (bi_Description p) (bi_Properties p).
Definition BaseInfo_SetType (p : BaseInfo) (s : ResourceType) : BaseInfo :=
  mkBaseInfo (bi_Name p) s (bi_Owner p) (bi_Category p) (bi_Description p) (bi_Properties p).
Definition SetOwner (p : BaseInfo) (s : string) : BaseInfo :=
  mkBaseInfo (bi_Name p) (bi_Type p) s (bi_Category p) (bi_Description p) (bi_Properties p).
Definition SetCategory (p : BaseInfo) (s : string) : BaseInfo :=
  mkBaseInfo (bi_Name p) (bi_Type p) (bi_Owner p) s (bi_Description p) (bi_Properties p).
Definition SetDescription (p : BaseInfo) (s : string) : BaseInfo :=
  mkBaseInfo (bi_Name p) (bi_Type p) (bi_Owner p) (bi_Category p) s (bi_Properties p).

Definition with_Properties (p : BaseInfo) (m : gmap string TypedValue) : BaseInfo :=
  mkBaseInfo (bi_Name p) (bi_Type p) (bi_Owner p) (bi_Category p) (bi_Description p) m.

(** [SetProperty]: an unsupported type is logged and ignored. *)
Definition SetProperty (p : BaseInfo) (k : string) (v : any) : outcome BaseInfo :=
  t ← NewTypedValue v;
  Ret (match t with
       | None => p
       | Some t => with_Properties p (<[k := t]> (bi_Properties p))
       end).

Definition CreateProperties `{MapOrder} (p : BaseInfo) (properties : gmap string any)
  : outcome BaseInfo :=
  foldM (λ p kv, SetProperty p kv.1 kv.2) p (map_order properties).

Definition SetDevice (p : BaseResource) (s : string) : BaseResource :=
  mkBaseResource (br_BaseInfo p) s.

Definition ToResourceRef (p : BaseResource) : ResourceRef :=
  mkResourceRef (bi_Name (br_BaseInfo p)) (bi_Type (br_BaseInfo p)) (bi_Owner (br_BaseInfo p)).

Definition InventoryResource_AddService (p : InventoryResource) (svc : InventoryService)
  : InventoryResource :=
  mkInventoryResource (ir_BaseResource p) (ir_Services p ++ [svc]).

Definition ResourceGroup_AddResource (p : ResourceGroup) (r : ResourceRef) : ResourceGroup :=
  mkResourceGroup (rg_GroupName p) (rg_Type p) (rg_Description p) (rg_Resources p ++ [r]).
Definition ResourceGroup_SetName (p : ResourceGroup) (s : string) : ResourceGroup :=
  mkResourceGroup s (rg_Type p) (rg_Description p) (rg_Resources p).
Definition ResourceGroup_SetType (p : ResourceGroup) (s : GroupType) : ResourceGroup :=
  mkResourceGroup (rg_GroupName p) s (rg_Description p) (rg_Resources p).
Definition ResourceGroup_SetDescription (p : ResourceGroup) (s : string) : ResourceGroup :=
  mkResourceGroup (rg_GroupName p) (rg_Type p) s (rg_Resources p).

Definition InventoryRequest_AddResource (p : InventoryRequest) (r : InventoryResource)
  : InventoryRequest :=
  mkInventoryRequest (irq_Context p) (irq_OwnershipType p) (irq_Resources p ++ [r]) (irq_Groups p).
Definition InventoryRequest_AddResourceGroup (p : InventoryRequest) (g : ResourceGroup)
  : InventoryRequest :=
  mkInventoryRequest (irq_Context p) (irq_OwnershipType p) (irq_Resources p) (irq_Groups p ++ [g]).
Definition InventoryRequest_SetContext (p : InventoryRequest) (c : TracerContext)
  : InventoryRequest :=
  mkInventoryRequest (SetContext (irq_Context p) c) (irq_OwnershipType p) (irq_Resources p)
    (irq_Groups p).

Definition SetStatus (p : MonitoredInfo) (s : MonitorStatus) : MonitoredInfo :=
  mkMonitoredInfo s (mi_LastCheckTime p) (mi_NextCheckTime p) (mi_LastPluginOutput p).
Definition SetLastPluginOutput (p : MonitoredInfo) (s : string) : MonitoredInfo :=
  mkMonitoredInfo (mi_Status p) (mi_LastCheckTime p) (mi_NextCheckTime p) s.
Definition SetLastCheckTime (p : MonitoredInfo) (t : option Timestamp) : MonitoredInfo :=
  mkMonitoredInfo (mi_Status p) t (mi_NextCheckTime p) (mi_LastPluginOutput p).
Definition SetNextCheckTime (p : MonitoredInfo) (t : option Timestamp) : MonitoredInfo :=
  mkMonitoredInfo (mi_Status p) (mi_LastCheckTime p) t (mi_LastPluginOutput p).

Definition MonitoredResource_AddService (p : MonitoredResource) (svc : MonitoredService)
  : MonitoredResource :=
  mkMonitoredResource (mr_BaseResource p) (mr_MonitoredInfo p) (mr_Services p ++ [svc]).

Definition AddMetric (p : MonitoredService) (t : TimeSeries) : MonitoredService :=
  mkMonitoredService (ms_BaseInfo p) (ms_MonitoredInfo p) (ms_Metrics p ++ [t]).

Definition ToInventoryService (p : MonitoredService) : InventoryService :=
  mkInventoryService (ms_BaseInfo p).

Definition ToInventoryResource (p : MonitoredResource) : InventoryResource :=
  mkInventoryResource (mr_BaseResource p) (ToInventoryService <$> mr_Services p).

Definition AddResource (p : ResourcesWithServicesRequest) (r : MonitoredResource)
  : ResourcesWithServicesRequest :=
  mkRequest (rq_Context p) (rq_Resources p ++ [r]) (rq_Groups p).
Definition AddResourceGroup (p : ResourcesWithServicesRequest) (g : ResourceGroup)
  : ResourcesWithServicesRequest :=
  mkRequest (rq_Context p) (rq_Resources p) (rq_Groups p ++ [g]).
Definition Request_SetContext (p : ResourcesWithServicesRequest) (c : TracerContext)
  : ResourcesWithServicesRequest :=
  mkRequest (SetContext (rq_Context p) c) (rq_Resources p) (rq_Groups p).

(** ** Lemmas *)

Lemma SetContext_zero_l c : SetContext zero_Context c = c.
Proof. destruct c as [a b t [ts|] v]; unfold SetContext; simpl; f_equal; by case_decide. Qed.

Lemma SetContext_idem c : SetContext c c = c.
Proof. destruct c as [a b t [ts|] v]; unfold SetContext; simpl; f_equal; by case_decide. Qed.

Lemma SetContext_assoc a b c : SetContext (SetContext a b) c = SetContext a (SetContext b c).
Proof.
  destruct a, b, c as [? ? ? [] ?]; unfold SetContext; simpl; f_equal;
    repeat case_decide; congruence.
Qed.

Lemma SetContext_zero_r c : SetContext c zero_Context = c.
Proof. by destruct c. Qed.

(** The typed value of an argument, when there is one. *)
Definition typed (v : any) : option TypedValue :=
  match NewTypedValue v with Ret t => t | Panic _ => None end.

Lemma NewTypedValue_typed v : nil_pointer v = false → NewTypedValue v = Ret (typed v).
Proof.
  intros Hv. unfold typed.
  by destruct v as [| | []| | []| | []| |? []| | []| | []| | []|].
Qed.

Lemma SetProperty_typed p k v :
  nil_pointer v = false →
  SetProperty p k v = Ret (match typed v with
    | None => p | Some t => with_Properties p (<[k := t]> (bi_Properties p)) end).
Proof. intros Hv. unfold SetProperty. by rewrite NewTypedValue_typed. Qed.

Lemma foldM_SetProperty l p :
  Forall (λ kv, nil_pointer kv.2 = false) l → NoDup l.*1 →
  ∃ p', foldM (λ p kv, SetProperty p kv.1 kv.2) p l = Ret p' ∧
    p' = with_Properties p (bi_Properties p') ∧
    ∀ k, bi_Properties p' !! k =
      match (list_to_map l : gmap string any) !! k ≫= typed with
      | Some t => Some t | None => bi_Properties p !! k end.
Proof.
  revert p. induction l as [|[k v] l IH]; intros p Hn Hnd.
  { exists p. split_and!; [done|by destruct p|done]. }
  apply NoDup_cons in Hnd as [Hk Hnd]. apply Forall_cons in Hn as [Hv Hn].
  cbn [foldM fst snd]. rewrite SetProperty_typed, bind_ret_l by done.
  edestruct IH as (p' & -> & He & Hl); [done|done|].
  exists p'. split_and!; [done|rewrite He; by destruct (typed v)|].
  assert ((list_to_map l : gmap string any) !! k = None) as Hkl
    by by apply not_elem_of_list_to_map_1.
  intros k'. rewrite Hl. cbn [list_to_map foldr curry fst snd].
  destruct (decide (k = k')) as [<-|Hne].
  - rewrite Hkl, lookup_insert_eq. cbn [mbind option_bind]. destruct (typed v); [|done].
    cbn [with_Properties bi_Properties]. by rewrite lookup_insert_eq.
  - rewrite lookup_insert_ne by done. destruct (list_to_map l !! k' ≫= typed); [done|].
    destruct (typed v); [|done]. cbn [with_Properties bi_Properties]. by rewrite lookup_insert_ne.
Qed.

(** ** Properties *)

(** [CreateProperties] does not depend on the order in which Go ranges over
    the map: when no argument is a nil pointer it returns, and each property
    afterwards is the typed value of the argument of that name if its type is
    supported, and the old property otherwise; nothing else of the record
    changes. *)
Theorem CreateProperties_lookup `{MapOrder} (p : BaseInfo) (properties : gmap string any) :
  map_Forall (λ _ v, nil_pointer v = false) properties →
  ∃ p', CreateProperties p properties = Ret p' ∧
    p' = with_Properties p (bi_Properties p') ∧
    ∀ k, bi_Properties p' !! k =
      match properties !! k ≫= typed with
      | Some t => Some t
      | None => bi_Properties p !! k
      end.
Proof.
  intros Hnil. destruct (foldM_SetProperty (map_order properties) p) as (p' & Hp & He & Hl).
  { apply Forall_forall. intros [k v] Hkv%elem_of_map_order. by eapply Hnil. }
  { apply NoDup_map_order. }
  exists p'. split_and!; [done|done|]. intros k.
  by rewrite Hl, (list_to_map_proper _ _ (NoDup_map_order properties) (map_order_perm _ properties)),
    list_to_map_to_list.
Qed.

Lemma CreateProperties_lookup_witness :
  ∃ p', CreateProperties (H := sorted_order) zero_BaseInfo
      (<["a" := AInt KInt 1]> (<["b" := AOther "chan"]> ∅)) = Ret p' ∧
    bi_Properties p' !! "a" = Some (tv_int 1) ∧ bi_Properties p' !! "b" = None.
Proof.
  edestruct (@CreateProperties_lookup sorted_order zero_BaseInfo
    (<["a" := AInt KInt 1]> (<["b" := AOther "chan"]> ∅))) as (p' & H1 & _ & H3).
  { apply map_Forall_insert_2; [done|]. apply map_Forall_insert_2; [done|]. apply map_Forall_empty. }
  exists p'. split; [exact H1|]. rewrite !H3. split; reflexivity.
Defined.
