(* ===== verification/Status.v ===== *)
(** sdk/transit/transit.go, status computation: [CalculateStatus] compares one
    value with its thresholds, [CalculateServiceStatus] keeps the worst status of
    a service's metrics. *)

From S2P Require Import Prelude GoString GoFloat TypedValue Transit Errors.

Local Open Scope string_scope.

(** [MonitorStatusWeightService]; a missing key reads as 0. *)
Definition MonitorStatusWeightService : list (MonitorStatus * Z) :=
  [(ServiceOk, 0); (ServicePending, 10); (ServiceUnknown, 20); (ServiceWarning, 30);
   (ServiceScheduledCritical, 50); (ServiceUnscheduledCritical, 100)]%Z.

Definition weight (s : MonitorStatus) : Z :=
  match filter (λ p, p.1 = s) MonitorStatusWeightService with
  | (_, w) :: _ => w
  | [] => 0%Z
  end.

(** The constant [-1] that disables a threshold. *)
Definition minus_one : float64 := f_of_Z (-1).

(** The threshold as a [float64]; a type that is not numeric leaves the zero. *)
Definition threshold_value (t : option TypedValue) : outcome float64 :=
  match t with
  | None => Ret f_zero
  | Some t =>
      if decide (tv_ValueType t = IntegerType) then f_of_Z <$> deref (tv_IntegerValue t)
      else if decide (tv_ValueType t = DoubleType) then deref (tv_DoubleValue t)
      else Ret f_zero
  end.

Definition given {A} (p : option A) : bool := match p with Some _ => true | None => false end.

Section branches.
(** [v] is the value of [value.IntegerValue], converted, or of [value.DoubleValue]: the pointer
    is dereferenced where the code compares. *)
Context (v : outcome float64) (warning critical : option TypedValue).
Context (warningValue criticalValue : float64).

Definition v_ge (t : float64) (yes no : outcome MonitorStatus) : outcome MonitorStatus :=
  x ← v; if f_le t x then yes else no.
Definition v_le (t : float64) (yes no : outcome MonitorStatus) : outcome MonitorStatus :=
  x ← v; if f_le x t then yes else no.

Definition integer_status : outcome MonitorStatus :=
  let w := given warning in
  let c := given critical in
  if negb w && f_eq criticalValue minus_one then
    v_ge criticalValue (Ret ServiceUnscheduledCritical) (Ret ServiceOk)
  else if negb c && (w && f_eq warningValue minus_one) then
    v_ge warningValue (Ret ServiceWarning) (Ret ServiceOk)
  else if (w && f_eq warningValue minus_one) && (c && f_eq criticalValue minus_one) then
    Ret ServiceOk
  else if (w && c) && f_lt criticalValue warningValue then
    v_le criticalValue (Ret ServiceUnscheduledCritical)
      (v_le warningValue (Ret ServiceWarning) (Ret ServiceOk))
  else if w && c then
    v_ge criticalValue (Ret ServiceUnscheduledCritical)
      (v_ge warningValue (Ret ServiceWarning) (Ret ServiceOk))
  else Ret ServiceOk.

Definition double_status : outcome MonitorStatus :=
  let w := given warning in
  let c := given critical in
  if negb w && f_eq criticalValue minus_one then
    v_ge criticalValue (Ret ServiceUnscheduledCritical) (Ret ServiceOk)
  else if negb c && (w && f_eq warningValue minus_one) then
    v_ge warningValue (Ret ServiceWarning) (Ret ServiceOk)
  else if (w && c) && (f_eq warningValue minus_one || f_eq criticalValue minus_one) then
    Ret ServiceOk
  else if f_lt criticalValue warningValue then
    v_le criticalValue (Ret ServiceUnscheduledCritical)
      (v_le warningValue (Ret ServiceWarning) (Ret ServiceOk))
  else
    v_ge criticalValue (Ret ServiceUnscheduledCritical)
      (v_ge warningValue (Ret ServiceWarning) (Ret ServiceOk)).
End branches.

Definition CalculateStatus (value warning critical : option TypedValue) : outcome MonitorStatus :=
  if negb (given warning) && negb (given critical) then Ret ServiceOk
  else
    warningValue ← threshold_value warning;
    criticalValue ← threshold_value critical;
    val ← deref value;
    if decide (tv_ValueType val = IntegerType) then
      integer_status (f_of_Z <$> deref (tv_IntegerValue val)) warning critical
        warningValue criticalValue
    else if decide (tv_ValueType val = DoubleType) then
      double_status (deref (tv_DoubleValue val)) warning critical warningValue criticalValue
    else Ret ServiceOk.

(** The warning and the critical threshold of a metric: the last of each kind;
    [None] when a threshold has another sample type. *)
Fixpoint pick_thresholds (warning critical : option TypedValue) (l : list ThresholdValue)
  : option (option TypedValue * option TypedValue) :=
  match l with
  | [] => Some (warning, critical)
  | t :: l =>
      if decide (thr_SampleType t = Warning) then pick_thresholds (thr_Value t) critical l
      else if decide (thr_SampleType t = Critical) then pick_thresholds warning (thr_Value t) l
      else None
  end.

Fixpoint service_status (previousStatus : MonitorStatus) (metrics : list TimeSeries)
  : outcome (MonitorStatus * option error) :=
  match metrics with
  | [] => Ret (previousStatus, None)
  | metric :: metrics =>
      match ts_Thresholds metric with
      | [] => service_status previousStatus metrics
      | thresholds =>
          match pick_thresholds None None thresholds with
          | None => Ret (ServiceOk, Some (Opaque "unsupported threshold Sample type"))
          | Some (warning, critical) =>
              status ← CalculateStatus (ts_Value metric) warning critical;
              service_status
                (if decide (weight previousStatus < weight status)%Z then status else previousStatus)
                metrics
          end
      end
  end.

(** [CalculateServiceStatus(metrics)]; the pointer to the slice may be nil. *)
Definition CalculateServiceStatus (metrics : option (list TimeSeries))
  : outcome (MonitorStatus * option error) :=
  match metrics with
  | None | Some [] => Ret (ServiceUnknown, None)
  | Some l => service_status ServiceOk l
  end.

(** [CalculateResourceStatus]: not implemented upstream, always up. *)
Definition CalculateResourceStatus (services : list MonitoredService) : MonitorStatus := HostUp.

(** ** Numeric values *)

(** The number a numeric typed value stands for. *)
Definition number (t : TypedValue) : option float64 :=
  if decide (tv_ValueType t = IntegerType) then f_of_Z <$> tv_IntegerValue t
  else if decide (tv_ValueType t = DoubleType) then tv_DoubleValue t
  else None.

Lemma threshold_value_number t x : number t = Some x → threshold_value (Some t) = Ret x.
Proof.
  unfold number, threshold_value. repeat case_decide; [| |done].
  - intros (z & Hz & ->)%fmap_Some. by rewrite Hz.
  - by intros ->.
Qed.

(** The severity a value has against a pair of thresholds. *)
Definition severity (x w c : float64) : MonitorStatus :=
  if f_lt c w then
    if f_le x c then ServiceUnscheduledCritical else if f_le x w then ServiceWarning else ServiceOk
  else
    if f_le c x then ServiceUnscheduledCritical else if f_le w x then ServiceWarning else ServiceOk.

Lemma v_ge_Ret x t yes no : v_ge (Ret x) t yes no = if f_le t x then yes else no.
Proof. done. Qed.
Lemma v_le_Ret x t yes no : v_le (Ret x) t yes no = if f_le x t then yes else no.
Proof. done. Qed.

Lemma severity_le x w c : f_lt c w = false → severity x w c =
  if f_le c x then ServiceUnscheduledCritical else if f_le w x then ServiceWarning else ServiceOk.
Proof. unfold severity. by intros ->. Qed.

(** Both thresholds given and enabled: the status is the severity, for integer
    and for double values alike. *)
Lemma CalculateStatus_severity v w c x xw xc :
  number v = Some x → number w = Some xw → number c = Some xc →
  f_eq xw minus_one = false → f_eq xc minus_one = false →
  CalculateStatus (Some v) (Some w) (Some c) = Ret (severity x xw xc).
Proof.
  intros Hv Hw Hc Hw1 Hc1. unfold CalculateStatus.
  cbn [given negb andb]. rewrite (threshold_value_number _ _ Hw), (threshold_value_number _ _ Hc).
  cbn [mbind outcome_bind deref]. unfold number in Hv. unfold severity.
  case_decide; [|case_decide; [|done]].
  - apply fmap_Some in Hv as (z & Hz & ->). rewrite Hz. unfold integer_status.
    cbn [given negb andb deref fmap outcome_fmap]. rewrite Hw1, Hc1, !v_ge_Ret, !v_le_Ret.
    cbn [andb]. by repeat case_match.
  - rewrite Hv. unfold double_status. cbn [given negb andb deref].
    rewrite Hw1, Hc1, !v_ge_Ret, !v_le_Ret. cbn [orb]. by repeat case_match.
Qed.

Lemma weight_severity x w c :
  weight (severity x w c) = (if f_lt c w then if f_le x c then 100 else if f_le x w then 30 else 0
    else if f_le c x then 100 else if f_le w x then 30 else 0)%Z.
Proof. unfold severity. by repeat case_match. Qed.

Lemma CalculateStatus_int z w c wv cv :
  threshold_value w = Ret wv → threshold_value c = Ret cv → given w || given c = true →
  CalculateStatus (Some (tv_int z)) w c = integer_status (Ret (f_of_Z z)) w c wv cv.
Proof.
  intros Hw Hc Hg. unfold CalculateStatus. rewrite Hw, Hc. by destruct w, c.
Qed.

Lemma CalculateStatus_double x w c wv cv :
  threshold_value w = Ret wv → threshold_value c = Ret cv → given w || given c = true →
  CalculateStatus (Some (tv_double x)) w c = double_status (Ret x) w c wv cv.
Proof.
  intros Hw Hc Hg. unfold CalculateStatus. rewrite Hw, Hc. by destruct w, c.
Qed.

(** ** Properties *)

(** With both thresholds given and enabled (no NaN, neither equal to -1),
    integer or double alike, the status is total, depends only on the numbers,
    gets never better as the value moves towards the critical side, is critical
    at the critical threshold itself and at least a warning at the warning
    threshold. *)
Theorem CalculateStatus_monotone (v1 v2 w c : TypedValue) (x1 x2 xw xc : float64) :
  number v1 = Some x1 → number v2 = Some x2 → number w = Some xw → number c = Some xc →
  is_nan xw = false → is_nan xc = false →
  f_eq xw minus_one = false → f_eq xc minus_one = false →
  f_le x1 x2 = true →
  ∃ s1 s2 sc sw,
    CalculateStatus (Some v1) (Some w) (Some c) = Ret s1 ∧
    CalculateStatus (Some v2) (Some w) (Some c) = Ret s2 ∧
    CalculateStatus (Some c) (Some w) (Some c) = Ret sc ∧
    CalculateStatus (Some w) (Some w) (Some c) = Ret sw ∧
    (if f_lt xc xw then weight s2 ≤ weight s1 else weight s1 ≤ weight s2)%Z ∧
    sc = ServiceUnscheduledCritical ∧ (30 ≤ weight sw)%Z.
Proof.
  intros H1 H2 Hw Hc Hnw Hnc Hw1 Hc1 Hle.
  do 4 eexists. split_and!; [by eapply CalculateStatus_severity..| | |].
  - rewrite !weight_severity.
    destruct (f_lt xc xw).
    + repeat case_match; try lia;
        [assert (f_le x1 xc = true) by eauto using f_le_trans
        |assert (f_le x1 xc = true) by eauto using f_le_trans
        |assert (f_le x1 xw = true) by eauto using f_le_trans]; congruence.
    + repeat case_match; try lia;
        [assert (f_le xc x2 = true) by eauto using f_le_trans
        |assert (f_le xc x2 = true) by eauto using f_le_trans
        |assert (f_le xw x2 = true) by eauto using f_le_trans]; congruence.
  - unfold severity. rewrite (f_le_refl xc) by done. by case_match.
  - rewrite weight_severity, (f_le_refl xw) by done. repeat case_match; lia.
Qed.

Lemma CalculateStatus_monotone_witness :
  CalculateStatus (Some (tv_int 5)) (Some (tv_int 10)) (Some (tv_double (f_of_Z 20))) = Ret ServiceOk ∧
  ∃ s1 s2 sc sw,
    CalculateStatus (Some (tv_int 5)) (Some (tv_int 10)) (Some (tv_double (f_of_Z 20))) = Ret s1 ∧
    CalculateStatus (Some (tv_double (f_of_Z 15))) (Some (tv_int 10)) (Some (tv_double (f_of_Z 20))) = Ret s2 ∧
    CalculateStatus (Some (tv_double (f_of_Z 20))) (Some (tv_int 10)) (Some (tv_double (f_of_Z 20))) = Ret sc ∧
    CalculateStatus (Some (tv_int 10)) (Some (tv_int 10)) (Some (tv_double (f_of_Z 20))) = Ret sw ∧
    (if f_lt (f_of_Z 20) (f_of_Z 10) then weight s2 ≤ weight s1 else weight s1 ≤ weight s2)%Z ∧
    sc = ServiceUnscheduledCritical ∧ (30 ≤ weight sw)%Z.
Proof.
  split; [vm_compute; reflexivity|].
  apply (CalculateStatus_monotone (tv_int 5) (tv_double (f_of_Z 15)) (tv_int 10)
    (tv_double (f_of_Z 20)) (f_of_Z 5) (f_of_Z 15) (f_of_Z 10) (f_of_Z 20)); vm_compute; reflexivity.
Defined.

(** Integer and double metrics are treated differently when a threshold is
    missing or disabled.  With only a critical threshold [c] (not -1) an integer
    value is always OK, while a double value is critical from [c] on and a
    warning from 0 on, as if a warning threshold of 0 were given; with a warning
    threshold of -1 and an enabled critical one a double value is always OK,
    while an integer value from -1 on is at least a warning. *)
Theorem CalculateStatus_int_double_differ (z : Z) (x c : float64) :
  is_nan c = false → f_eq c minus_one = false → f_le f_zero c = true →
  let crit := Some (tv_double c) in
  CalculateStatus (Some (tv_int z)) None crit = Ret ServiceOk ∧
  CalculateStatus (Some (tv_double x)) None crit =
    Ret (if f_le c x then ServiceUnscheduledCritical
         else if f_le f_zero x then ServiceWarning else ServiceOk) ∧
  CalculateStatus (Some (tv_double x)) (Some (tv_int (-1))) crit = Ret ServiceOk ∧
  CalculateStatus (Some (tv_int z)) (Some (tv_int (-1))) crit =
    Ret (if f_le c (f_of_Z z) then ServiceUnscheduledCritical
         else if f_le minus_one (f_of_Z z) then ServiceWarning else ServiceOk).
Proof.
  intros Hn Hc H0 crit.
  assert (f_lt c f_zero = false) as Hlt0 by (rewrite f_lt_negb_le, H0; done).
  assert (f_le minus_one f_zero = true) as Hm by by vm_compute.
  assert (f_lt c minus_one = false) as Hlt1.
  { rewrite f_lt_negb_le by done. by rewrite (f_le_trans _ _ _ Hm H0). }
  change (f_of_Z (-1)) with minus_one.
  assert (threshold_value crit = Ret c) as Hcrit by done.
  assert (threshold_value (Some (tv_int (-1))) = Ret minus_one) as Hw by done.
  assert (threshold_value None = Ret f_zero) as Hnone by done.
  assert (f_eq minus_one minus_one = true) as Heq by by vm_compute.
  split_and!.
  - rewrite (CalculateStatus_int _ _ _ _ _ Hnone Hcrit) by done.
    unfold integer_status. cbn [given negb andb crit]. by rewrite Hc.
  - rewrite (CalculateStatus_double _ _ _ _ _ Hnone Hcrit) by done.
    unfold double_status. cbn [given negb andb crit]. by rewrite Hc, Hlt0, !v_ge_Ret; repeat case_match.
  - rewrite (CalculateStatus_double _ _ _ _ _ Hw Hcrit) by done.
    unfold double_status. cbn [given negb andb crit]. by rewrite Heq.
  - rewrite (CalculateStatus_int _ _ _ _ _ Hw Hcrit) by done.
    unfold integer_status. cbn [given negb andb crit].
    by rewrite Heq, Hc, Hlt1, !v_ge_Ret; repeat case_match.
Qed.

Lemma CalculateStatus_int_double_differ_witness :
  CalculateStatus (Some (tv_int 500)) None (Some (tv_double (f_of_Z 90))) = Ret ServiceOk.
Proof.
  apply (CalculateStatus_int_double_differ 500 (f_of_Z 500) (f_of_Z 90)); vm_compute; reflexivity.
Defined.

(** ** The worst status of a service *)

(** What one metric contributes: nothing worse than OK without thresholds. *)
Definition metric_status (m : TimeSeries) : option (outcome MonitorStatus) :=
  match ts_Thresholds m with
  | [] => Some (Ret ServiceOk)
  | thresholds =>
      match pick_thresholds None None thresholds with
      | None => None
      | Some (warning, critical) => Some (CalculateStatus (ts_Value m) warning critical)
      end
  end.

Definition worse (s s' : MonitorStatus) : MonitorStatus :=
  if decide (weight s < weight s')%Z then s' else s.

Definition computed_statuses : list MonitorStatus :=
  [ServiceOk; ServiceWarning; ServiceUnscheduledCritical].

Lemma service_status_cons prev m l :
  (0 ≤ weight prev)%Z →
  service_status prev (m :: l) =
    match metric_status m with
    | None => Ret (ServiceOk, Some (Opaque "unsupported threshold Sample type"))
    | Some o => s ← o; service_status (worse prev s) l
    end.
Proof.
  intros Hp. assert (weight ServiceOk = 0%Z) as H0 by done.
  cbn [service_status]. unfold metric_status, worse.
  destruct (ts_Thresholds m) as [|t ts].
  - rewrite bind_ret_l, decide_False by (rewrite H0; lia). done.
  - by destruct (pick_thresholds None None (t :: ts)) as [[w c]|].
Qed.

Lemma CalculateStatus_computed v w c s :
  CalculateStatus v w c = Ret s → s ∈ computed_statuses.
Proof.
  unfold CalculateStatus, computed_statuses. case_match; [intros [= <-]; set_solver|].
  intros (wv & _ & H1)%bind_Ret_inv. apply bind_Ret_inv in H1 as (cv & _ & H1).
  apply bind_Ret_inv in H1 as (val & _ & H1). revert H1.
  unfold integer_status, double_status, v_ge, v_le.
  repeat case_match; intros H'; repeat (apply bind_Ret_inv in H' as (? & _ & H'));
    simplify_eq; repeat case_match; repeat (apply bind_Ret_inv in H' as (? & _ & H'));
    repeat case_match; simplify_eq; set_solver.
Qed.

Lemma computed_weight_inj s s' :
  s ∈ computed_statuses → s' ∈ computed_statuses → weight s = weight s' → s = s'.
Proof.
  unfold computed_statuses. rewrite !list_elem_of_In. simpl.
  intros [<-|[<-|[<-|[]]]] [<-|[<-|[<-|[]]]] Hw; try done; by vm_compute in Hw.
Qed.

Lemma computed_weight_pos s : s ∈ computed_statuses → (0 ≤ weight s)%Z.
Proof.
  unfold computed_statuses. rewrite list_elem_of_In. simpl. by intros [<-|[<-|[<-|[]]]].
Qed.

Lemma worse_computed s s' :
  s ∈ computed_statuses → s' ∈ computed_statuses → worse s s' ∈ computed_statuses.
Proof. unfold worse. by case_decide. Qed.

(** Every metric has a status, and these are they. *)
Definition statuses_are (l : list TimeSeries) (ss : list MonitorStatus) : Prop :=
  Forall2 (λ m s, metric_status m = Some (Ret s)) l ss.

Lemma statuses_computed l ss : statuses_are l ss → Forall (.∈ computed_statuses) ss.
Proof.
  induction 1 as [|m s l ss Hm _ IH]; constructor; [|done].
  unfold metric_status in Hm. destruct (ts_Thresholds m) as [|t ts].
  - injection Hm as <-. apply list_elem_of_here.
  - destruct (pick_thresholds None None (t :: ts)) as [[w c]|]; [|done].
    injection Hm as Hm. by eapply CalculateStatus_computed.
Qed.

Lemma service_status_worst prev l ss :
  prev ∈ computed_statuses → statuses_are l ss →
  service_status prev l = Ret (foldl worse prev ss, None).
Proof.
  intros Hp Hl. pose proof (statuses_computed _ _ Hl) as Hc. revert prev Hp Hc.
  induction Hl as [|m s l ss Hm Hl IH]; intros prev Hp Hc; [done|].
  apply Forall_cons in Hc as [Hs Hc].
  rewrite service_status_cons by auto using computed_weight_pos. rewrite Hm, bind_ret_l.
  cbn [foldl]. apply IH; auto using worse_computed.
Qed.

Lemma foldl_worse_weight ss prev :
  weight (foldl worse prev ss) = foldr Z.max (weight prev) (weight <$> ss).
Proof.
  revert prev. induction ss as [|s ss IH]; intros prev; [done|].
  cbn [foldl fmap list_fmap foldr]. rewrite IH. unfold worse.
  clear IH. induction ss as [|s' ss IH]; cbn [fmap list_fmap foldr]; [case_decide; lia|].
  rewrite IH. lia.
Qed.

Lemma foldl_worse_computed ss prev :
  prev ∈ computed_statuses → Forall (.∈ computed_statuses) ss →
  foldl worse prev ss ∈ computed_statuses.
Proof.
  revert prev. induction ss as [|s ss IH]; intros prev Hp Hc; [done|].
  apply Forall_cons in Hc as [? ?]. apply IH; auto using worse_computed.
Qed.

Lemma foldr_max_spec z l : (z ≤ foldr Z.max z l)%Z ∧ Forall (λ y, y ≤ foldr Z.max z l)%Z l.
Proof.
  induction l as [|y l [IH1 IH2]]; cbn [foldr]; [split; [lia|constructor]|].
  split; [lia|]. constructor; [lia|]. eapply Forall_impl; [done|]. simpl. lia.
Qed.

Lemma foldr_max_perm z l k : l ≡ₚ k → foldr Z.max z l = foldr Z.max z k.
Proof. induction 1; simpl; lia. Qed.

(** When every metric has a status, the service gets the worst of them
    (never an error): no metric is worse than the result, the result is OK or the
    status of some metric, and the order of the metrics does not matter. *)
Theorem CalculateServiceStatus_worst (l l' : list TimeSeries) (ss : list MonitorStatus) :
  l ≠ [] → statuses_are l ss → l' ≡ₚ l →
  ∃ s, CalculateServiceStatus (Some l) = Ret (s, None) ∧
    CalculateServiceStatus (Some l') = Ret (s, None) ∧
    Forall (λ s', weight s' ≤ weight s)%Z ss ∧ weight s = foldr Z.max 0%Z (weight <$> ss).
Proof.
  intros Hne Hl Hp.
  assert (∃ ss', statuses_are l' ss' ∧ ss' ≡ₚ ss) as (ss' & Hl' & Hss).
  { symmetry in Hp. destruct (Permutation_Forall2 Hp Hl) as (ss' & ? & ?). by exists ss'. }
  assert (ServiceOk ∈ computed_statuses) as Hok by (unfold computed_statuses; set_solver).
  pose proof (statuses_computed _ _ Hl) as Hc. pose proof (statuses_computed _ _ Hl') as Hc'.
  assert (foldl worse ServiceOk ss' = foldl worse ServiceOk ss) as Heq.
  { apply computed_weight_inj; [by apply foldl_worse_computed..|].
    rewrite !foldl_worse_weight. apply foldr_max_perm. by rewrite Hss. }
  exists (foldl worse ServiceOk ss). split_and!.
  - destruct l; [done|]. by apply service_status_worst.
  - destruct l'; [by apply Permutation_nil_l in Hp; destruct l|].
    rewrite <-Heq. by apply service_status_worst.
  - rewrite foldl_worse_weight.
    pose proof (proj2 (foldr_max_spec (weight ServiceOk) (weight <$> ss))) as Hf.
    by rewrite Forall_fmap in Hf.
  - by rewrite foldl_worse_weight.
Qed.

Definition sample_metric (z : Z) : TimeSeries :=
  mkTimeSeries "m" Value None (Some (tv_int z)) ∅ ""
    [mkThresholdValue Warning "w" (Some (tv_int 10)); mkThresholdValue Critical "c" (Some (tv_int 20))] "" "".

Lemma CalculateServiceStatus_worst_witness :
  ∃ s, CalculateServiceStatus (Some [sample_metric 3; sample_metric 15]) = Ret (s, None) ∧
    weight s = 30%Z.
Proof.
  destruct (CalculateServiceStatus_worst [sample_metric 3; sample_metric 15]
    [sample_metric 15; sample_metric 3] [ServiceOk; ServiceWarning]) as (s & H1 & _ & _ & H2).
  - discriminate.
  - repeat constructor; vm_compute; reflexivity.
  - apply perm_swap.
  - exists s. split; [exact H1|]. rewrite H2. reflexivity.
Defined.
