(* ===== verification/Batcher.v ===== *)
(** batcher/batcher.go: the buffered batcher and the interface of its builders.

    Payloads are buffered under a mutex; when the buffer exceeds the soft limit,
    on a tick, on [Exit] and on [Reset] the buffer is swapped for an empty one and
    the taken payloads are built into batches, which go to the handler. *)

From S2P Require Import Prelude GoString.

Local Open Scope Z_scope.

(** [Build(buf, maxBytes)] replaces the buffered payloads by the batch payloads;
    it may panic. *)
Class BatchBuilder := Build : list string → Z → outcome (list string).

(** What a builder promises to the batcher: with a positive limit it returns. *)
Class BatchBuilderTotal (B : BatchBuilder) : Prop :=
  Build_total : ∀ buf maxBytes, 0 < maxBytes → is_ret (Build buf maxBytes) = true.

(** ** Slices *)

(** [l[i:j]] *)
Definition slice {A} (l : list A) (i j : Z) : outcome (list A) :=
  if decide (0 ≤ i ≤ j ∧ j ≤ Z.of_nat (length l))
  then Ret (take (Z.to_nat (j - i)) (drop (Z.to_nat i) l))
  else Panic "slice bounds out of range".

Definition total_len (l : list string) : Z := foldr (λ p n, slen p + n) 0 l.

Lemma total_len_app l k : total_len (l ++ k) = total_len l + total_len k.
Proof. induction l as [|p l IH]; cbn [total_len foldr app] in *; [done|]. unfold total_len in *. lia. Qed.

(** ** State *)

Record Batcher := mkBatcher {
  buf : list string;
  bufSize : Z;
  maxBytes : Z;
  ticker : Z;
}.

Definition MaxInt64 : Z := 2 ^ 63 - 1.

Definition period (d : Z) : Z := if decide (d = 0) then MaxInt64 else d.

(** [NewBatcher(bb, bh, d, maxBytes)]: [time.NewTicker] panics unless [d > 0]. *)
Definition NewBatcher (d maxBytes : Z) : outcome Batcher :=
  if decide (0 < period d) then Ret (mkBatcher [] 0 maxBytes (period d))
  else Panic "non-positive interval for NewTicker".

(** The critical sections. *)
Definition add_locked (bt : Batcher) (p : string) : Batcher :=
  mkBatcher (buf bt ++ [p]) (bufSize bt + slen p) (maxBytes bt) (ticker bt).

Definition take_locked (bt : Batcher) : Batcher * list string :=
  (mkBatcher [] 0 (maxBytes bt) (ticker bt), buf bt).

Definition over_limit (bt : Batcher) : bool := bool_decide (maxBytes bt < bufSize bt).

Section operations.
Context {B : BatchBuilder}.

(** The payloads handed to the handler for the taken buffer; a handler error is
    only logged. *)
Definition process (limit : Z) (taken : list string) : outcome (list string) :=
  match taken with
  | [] => Ret []
  | _ => out ← Build taken limit; Ret (filter (λ p, p ≠ ""%string) out)
  end.

(** [Batch()]: the new state and the payloads sent to the handler, in order. *)
Definition Batch (bt : Batcher) : outcome (Batcher * list string) :=
  let '(bt', taken) := take_locked bt in
  sent ← process (maxBytes bt) taken; Ret (bt', sent).

Definition Add (bt : Batcher) (p : string) : outcome (Batcher * list string) :=
  let bt := add_locked bt p in
  if over_limit bt then Batch bt else Ret (bt, []).

Definition Clear (bt : Batcher) : Batcher := mkBatcher [] 0 (maxBytes bt) (ticker bt).

(** [Reset(d, maxBytes)]: batch with the old limit, then change the settings. *)
Definition Reset_ (bt : Batcher) (d limit : Z) : outcome (Batcher * list string) :=
  '(bt, sent) ← Batch bt;
  if decide (0 < period d) then Ret (mkBatcher (buf bt) (bufSize bt) limit (period d), sent)
  else Panic "non-positive interval for Ticker.Reset".
End operations.

(** ** Concurrent behaviour

    Producers, the ticker goroutine and [Reset] run concurrently; the mutex makes
    the critical sections atomic, while the soft-limit check of [Add] and the
    building and sending of [Batch] run outside of it.  [checking] counts the
    [Add] calls between their critical section and their check, [due] the [Batch]
    calls that have not swapped the buffer yet, [taken] the swapped buffers that
    are not built yet; [built] and [dropped] are the history. *)
Record system := mkSystem {
  bt : Batcher;
  checking : nat;
  due : nat;
  taken : list (list string);
  built : list (list string);
  dropped : list string;
  added : list string;
}.

Inductive step : system → system → Prop :=
| step_add s p :
    step s (mkSystem (add_locked (bt s) p) (S (checking s)) (due s) (taken s) (built s)
              (dropped s) (added s ++ [p]))
| step_check_over s n :
    checking s = S n → over_limit (bt s) = true →
    step s (mkSystem (bt s) n (S (due s)) (taken s) (built s) (dropped s) (added s))
| step_check_under s n :
    checking s = S n → over_limit (bt s) = false →
    step s (mkSystem (bt s) n (due s) (taken s) (built s) (dropped s) (added s))
| step_tick s :
    (* the ticker, [Exit] or [Reset] calls [Batch] *)
    step s (mkSystem (bt s) (checking s) (S (due s)) (taken s) (built s) (dropped s) (added s))
| step_take s n b' tk :
    due s = S n → take_locked (bt s) = (b', tk) →
    step s (mkSystem b' (checking s) n (taken s ++ [tk]) (built s) (dropped s) (added s))
| step_build s l tk r :
    (* a taken buffer is built and sent; batches may overtake each other *)
    taken s = l ++ tk :: r →
    step s (mkSystem (bt s) (checking s) (due s) (l ++ r) (built s ++ [tk]) (dropped s) (added s))
| step_clear s :
    step s (mkSystem (Clear (bt s)) (checking s) (due s) (taken s) (built s)
              (dropped s ++ buf (bt s)) (added s))
| step_settings s limit d :
    step s (mkSystem (mkBatcher (buf (bt s)) (bufSize (bt s)) limit d) (checking s) (due s)
              (taken s) (built s) (dropped s) (added s)).

Definition initial (limit d : Z) : system := mkSystem (mkBatcher [] 0 limit d) 0 0 [] [] [] [].

Definition reachable (limit d : Z) : system → Prop := rtc step (initial limit d).

(** ** Lemmas *)

Definition wf (b : Batcher) : Prop := bufSize b = total_len (buf b).

Lemma add_locked_wf b p : wf b → wf (add_locked b p).
Proof. unfold wf. simpl. intros ->. rewrite total_len_app. simpl. lia. Qed.

(** Invariants of reachable states, by induction on the steps. *)
Lemma reachable_ind limit d (P : system → Prop) :
  P (initial limit d) → (∀ s s', P s → step s s' → P s') → ∀ s, reachable limit d s → P s.
Proof.
  intros H0 Hs s Hr. unfold reachable in Hr.
  remember (initial limit d) as s0 eqn:E. clear E.
  induction Hr as [|s0 s1 s Hst Hr IH]; [done|]. apply IH. by eapply Hs.
Qed.

Definition accounted (s : system) : list string :=
  dropped s ++ concat (built s) ++ concat (taken s) ++ buf (bt s).

Lemma step_accounted s s' : added s ≡ₚ accounted s → step s s' → added s' ≡ₚ accounted s'.
Proof.
  unfold accounted. intros Ha Hs.
  destruct Hs as [s p| | | |s n b' tk Hn Ht|s l tk r Ht|s|]; cbn -[concat]; auto.
  - rewrite Ha. by rewrite !(assoc (++)).
  - unfold take_locked in Ht. simplify_eq/=. rewrite Ha, concat_app. simpl.
    by rewrite !app_nil_r.
  - rewrite Ha, Ht, !concat_app. cbn [concat]. rewrite app_nil_r. solve_Permutation.
  - rewrite Ha. solve_Permutation.
Qed.

Lemma step_wf s s' : wf (bt s) → step s s' → wf (bt s').
Proof.
  intros Hw Hs. destruct Hs; simpl; auto using add_locked_wf; try done.
  unfold take_locked in *. by simplify_eq/=.
Qed.

(** A batch leaves the buffer empty. *)
Lemma Batch_empties {B : BatchBuilder} b b' sent : Batch b = Ret (b', sent) → buf b' = [].
Proof.
  unfold Batch, take_locked. intros (out & _ & Hr)%bind_Ret_inv. by injection Hr as <- _.
Qed.

Lemma Batch_ret {B : BatchBuilder} `{!BatchBuilderTotal B} b :
  0 < maxBytes b → ∃ sent, Batch b = Ret (mkBatcher [] 0 (maxBytes b) (ticker b), sent).
Proof.
  intros Hm. unfold Batch, take_locked, process. destruct (buf b) as [|p l]; [by eexists|].
  pose proof (Build_total (p :: l) (maxBytes b) Hm) as Ht.
  destruct (Build (p :: l) (maxBytes b)); [by eexists|done].
Qed.

(** ** Properties *)

(** C2: Whatever the interleaving of producers, ticks, resets and clears, the
    batcher loses and duplicates nothing: the payloads added are, as a multiset,
    those cleared, those built, those taken and those still buffered, and the
    buffer size is always the number of buffered bytes. *)
Theorem Batcher_conservation (limit d : Z) (s : system) :
  reachable limit d s →
  wf (bt s) ∧
  added s ≡ₚ dropped s ++ concat (built s) ++ concat (taken s) ++ buf (bt s) ∧
  (buf (bt s) = [] → taken s = [] → added s ≡ₚ dropped s ++ concat (built s)).
Proof.
  intros Hr. assert (wf (bt s) ∧ added s ≡ₚ accounted s) as [Hw Ha].
  { revert s Hr. apply reachable_ind; [done|].
    intros s s' [? ?] ?. eauto using step_wf, step_accounted. }
  split_and!; [done|done|]. intros Hb Ht. rewrite Ha. unfold accounted.
  by rewrite Hb, Ht, !app_nil_r.
Qed.

Lemma Batcher_conservation_witness :
  let s := mkSystem (mkBatcher [] 0 3 1) 0 0 [["abcd"%string]] [] [] ["abcd"%string] in
  reachable 3 1 s ∧ wf (bt s).
Proof.
  set (s := mkSystem (mkBatcher [] 0 3 1) 0 0 [["abcd"%string]] [] [] ["abcd"%string]).
  assert (reachable 3 1 s) as H.
  { eapply rtc_l; [apply (step_add _ "abcd")|].
    eapply rtc_l; [eapply step_check_over; reflexivity|].
    eapply rtc_l; [eapply step_take; reflexivity|]. apply rtc_refl. }
  split; [exact H|]. exact (proj1 (Batcher_conservation 3 1 s H)).
Defined.

(** With a positive limit and a builder that keeps its promise, no operation
    panics; [Add] leaves at most [maxBytes] bytes buffered (it batches everything
    as soon as the limit is exceeded, and sends nothing otherwise), and [Batch]
    leaves the buffer empty. *)
Theorem Add_soft_limit {B : BatchBuilder} (b : Batcher) (p : string) :
  BatchBuilderTotal B → wf b → 0 < maxBytes b →
  ∃ b' sent, Add b p = Ret (b', sent) ∧ wf b' ∧ bufSize b' ≤ maxBytes b' ∧
    maxBytes b' = maxBytes b ∧
    (bufSize b + slen p ≤ maxBytes b → sent = [] ∧ buf b' = buf b ++ [p]) ∧
    (maxBytes b < bufSize b + slen p → buf b' = [] ∧
       process (maxBytes b) (buf b ++ [p]) = Ret sent).
Proof.
  intros HB Hw Hm. unfold Add.
  destruct (over_limit (add_locked b p)) eqn:Ho.
  - unfold over_limit in Ho. apply bool_decide_eq_true in Ho. simpl in Ho.
    destruct (Batch_ret (add_locked b p)) as [sent Hs]; [done|].
    exists (mkBatcher [] 0 (maxBytes b) (ticker b)), sent. split_and!; try done; simpl in *.
    + lia.
    + lia.
    + intros _. split; [done|]. unfold Batch in Hs. cbn [take_locked add_locked buf maxBytes] in Hs.
      apply bind_Ret_inv in Hs as (x & -> & Hx). by injection Hx as ->.
  - unfold over_limit in Ho. apply bool_decide_eq_false in Ho. simpl in Ho.
    exists (add_locked b p), []. split_and!; simpl; try done; auto using add_locked_wf; lia.
Qed.

(** A builder that joins the payloads, to run the batcher. *)
Definition join_builder : BatchBuilder := λ l _, Ret [Join l ","].

Lemma Add_soft_limit_witness :
  ∃ b' sent, Add (B := join_builder) (mkBatcher ["ab"%string] 2 3 1) "cd" = Ret (b', sent) ∧
    buf b' = [].
Proof.
  destruct (@Add_soft_limit join_builder (mkBatcher ["ab"%string] 2 3 1) "cd")
    as (b' & sent & H1 & _ & _ & _ & _ & H2).
  - intros l m _. reflexivity.
  - reflexivity.
  - reflexivity.
  - exists b', sent. split; [exact H1|]. apply H2. reflexivity.
Defined.
