(* ===== verification/Codec.v ===== *)
(** The interface of [encoding/json] that the batch builders and the services
    use: a codec per type, and the round-trip law of the values that came out of
    a JSON text. *)

From S2P Require Import Prelude Errors.

(** [json.Marshal] and [json.Unmarshal] into a zero value. *)
Class JsonCodec (A : Type) := {
  marshal : A → result error string;
  unmarshal : string → result error A;
}.

(** [canonical] values are those a JSON text decodes to (valid UTF-8 strings,
    millisecond timestamps, finite numbers): they marshal, to a non-empty text
    that decodes to the same value. *)
Class JsonLaws {A} (C : JsonCodec A) (canonical : A → Prop) : Prop := {
  unmarshal_canonical s a : unmarshal s = Val a → canonical a;
  marshal_canonical a :
    canonical a → ∃ s, marshal a = Val s ∧ s ≠ ""%string ∧ unmarshal s = Val a;
}.

(** The values of the payloads that decode, in order. *)
Definition decode_all {A} `{JsonCodec A} (l : list string) : list A :=
  omap (λ p, match unmarshal p with Val a => Some a | Fail _ => None end) l.

(** The texts of the values that marshal, in order; failures are logged. *)
Definition marshal_all {A} `{JsonCodec A} (l : list A) : list string :=
  omap (λ a, match marshal a with Val s => Some s | Fail _ => None end) l.

Lemma decode_all_app {A} `{JsonCodec A} (l k : list string) :
  decode_all (l ++ k) = decode_all l ++ decode_all k.
Proof. unfold decode_all. apply omap_app. Qed.

Lemma decode_marshal_all {A} (C : JsonCodec A) P {L : JsonLaws C P} (l : list A) :
  Forall P l → decode_all (marshal_all l) = l.
Proof.
  induction 1 as [|a l Ha Hl IH]; [done|].
  destruct (marshal_canonical a Ha) as (s & Hs & _ & Hu).
  unfold marshal_all, decode_all in *. cbn [omap list_omap]. rewrite Hs.
  cbn [omap list_omap]. by rewrite Hu, IH.
Qed.

Lemma marshal_all_nonempty {A} (C : JsonCodec A) P {L : JsonLaws C P} (l : list A) :
  Forall P l → Forall (λ s, s ≠ ""%string) (marshal_all l).
Proof.
  induction 1 as [|a l Ha Hl IH]; [constructor|].
  destruct (marshal_canonical a Ha) as (s & Hs & Hn & _).
  unfold marshal_all in *. cbn [omap list_omap]. rewrite Hs. by constructor.
Qed.

Lemma length_marshal_all {A} (C : JsonCodec A) P {L : JsonLaws C P} (l : list A) :
  Forall P l → length (marshal_all l) = length l.
Proof.
  induction 1 as [|a l Ha Hl IH]; [done|].
  destruct (marshal_canonical a Ha) as (s & Hs & _).
  unfold marshal_all in *. cbn [omap list_omap]. rewrite Hs. simpl. by rewrite IH.
Qed.

Lemma decode_all_canonical {A} (C : JsonCodec A) P {L : JsonLaws C P} (l : list string) :
  Forall P (decode_all l).
Proof.
  unfold decode_all. apply Forall_forall. intros a (p & _ & Hp)%list_elem_of_omap.
  destruct (unmarshal p) as [b|] eqn:E; simplify_eq. by eapply unmarshal_canonical.
Qed.
