(* ===== verification/EventsBatch.v ===== *)
(** batcher/events/events.go: [EventsBatchBuilder] joins events payloads into
    batches of about [maxBytes] bytes and splits bigger ones. *)

From S2P Require Import Prelude GoString Transit Errors Codec Batcher.

Local Open Scope Z_scope.

(** Counter, batched request and accumulated requests of [Build]. *)
Record acc := mkAcc {
  acc_c : Z;
  acc_bq : GroundworkEventsRequest;
  acc_qq : list GroundworkEventsRequest;
}.

Definition zero_EventsRequest : GroundworkEventsRequest := mkEventsRequest [].

(** The loop of [xxl2qq]: requests of [lim] events each.  It appends the empty
    slice for ever when [lim] is 0, until the memory is exhausted; [cnt + 1]
    iterations are enough otherwise. *)
Fixpoint split_loop (fuel : nat) (i1 i2 lim cnt : Z) (events : list GroundworkEvent)
    (qq : list GroundworkEventsRequest) : outcome (list GroundworkEventsRequest) :=
  if decide (i1 < cnt) then
    match fuel with
    | O => Panic "out of memory"
    | S fuel =>
        let i2 := if decide (Z.of_nat (length events) < i2) then Z.of_nat (length events) else i2 in
        part ← slice events i1 i2;
        split_loop fuel (i1 + lim) (i2 + lim) lim cnt events (qq ++ [mkEventsRequest part])
    end
  else Ret qq.

Section builder.
Context {C : JsonCodec GroundworkEventsRequest}.

Definition events_lim (cnt len_p maxBytes : Z) : outcome Z :=
  d ← go_quot len_p maxBytes;
  n ← go_quot cnt (d + 1);
  Ret (n + 1).

Definition xxl2qq (qq : list GroundworkEventsRequest) (p : string) (maxBytes : Z)
  : outcome (list GroundworkEventsRequest) :=
  match unmarshal p with
  | Fail _ => Ret qq
  | Val q =>
      let cnt := Z.of_nat (length (evs_Events q)) in
      lim ← events_lim cnt (slen p) maxBytes;
      split_loop (S (length (evs_Events q))) 0 lim lim cnt (evs_Events q) qq
  end.

Definition Build_step (maxBytes : Z) (a : acc) (p : string) : outcome acc :=
  if decide (maxBytes < slen p) then
    qq ← xxl2qq (acc_qq a) p maxBytes;
    Ret (mkAcc (acc_c a) (acc_bq a) qq)
  else
    match unmarshal p with
    | Fail _ => Ret a
    | Val q =>
        let bq := mkEventsRequest (evs_Events (acc_bq a) ++ evs_Events q) in
        let c := acc_c a + slen p in
        if decide (maxBytes ≤ c)
        then Ret (mkAcc 0 zero_EventsRequest (acc_qq a ++ [bq]))
        else Ret (mkAcc c bq (acc_qq a))
    end.

(** The requests the buffered payloads are batched into. *)
Definition accumulate (buf : list string) (maxBytes : Z) : outcome (list GroundworkEventsRequest) :=
  a ← foldM (Build_step maxBytes) (mkAcc 0 zero_EventsRequest []) buf;
  Ret (match evs_Events (acc_bq a) with [] => acc_qq a | _ => acc_qq a ++ [acc_bq a] end).

Definition EventsBatchBuilder : BatchBuilder := λ buf maxBytes,
  qq ← accumulate buf maxBytes; Ret (marshal_all qq).
End builder.

(** ** Lemmas *)

Definition events_of (l : list GroundworkEventsRequest) : list GroundworkEvent := l ≫= evs_Events.

Lemma events_of_app l k : events_of (l ++ k) = events_of l ++ events_of k.
Proof. unfold events_of. apply bind_app. Qed.

Lemma events_of_cons q l : events_of (q :: l) = evs_Events q ++ events_of l.
Proof. reflexivity. Qed.

Lemma slice_ret {A} (l : list A) i j :
  0 ≤ i ≤ j → j ≤ Z.of_nat (length l) →
  slice l i j = Ret (take (Z.to_nat (j - i)) (drop (Z.to_nat i) l)).
Proof. intros. unfold slice. rewrite decide_True; [done|lia]. Qed.

(** The requests of a split payload: at most [lim] events each. *)
Definition small_parts (lim : Z) (l : list GroundworkEventsRequest) : Prop :=
  Forall (λ q, 0 < Z.of_nat (length (evs_Events q)) ≤ lim) l.

Lemma split_loop_done fuel i j lim cnt events qq :
  cnt ≤ i → split_loop fuel i j lim cnt events qq = Ret qq.
Proof. intros. destruct fuel; simpl; case_decide; done || lia. Qed.

(** With a positive [lim] the loop terminates, and appends the remaining events
    in order, in parts of at most [lim]; all but the last have exactly [lim]. *)
Lemma split_loop_spec fuel (i lim : Z) (events : list GroundworkEvent) qq :
  0 < lim → 0 ≤ i → (Z.of_nat (length events) - i ≤ Z.of_nat fuel)  →
  ∃ parts, split_loop fuel i (i + lim) lim (Z.of_nat (length events)) events qq = Ret (qq ++ parts) ∧
    events_of parts = drop (Z.to_nat i) events ∧ small_parts lim parts ∧
    (Z.of_nat (length parts) - 1) * lim ≤ Z.max (Z.of_nat (length events) - i - 1) (- lim).
Proof.
  intros Hlim. revert i qq. induction fuel as [|fuel IH]; intros i qq Hi Hf.
  - exists []. cbn [split_loop]. rewrite decide_False, app_nil_r by lia. split_and!; [done| |constructor|simpl; lia].
    by rewrite drop_ge by lia.
  - cbn [split_loop]. case_decide as Hlt; cycle 1.
    { exists []. rewrite app_nil_r, drop_ge by lia. split_and!; [done|done|constructor|simpl; lia]. }
    set (n := Z.of_nat (length events)) in *.
    set (j := if decide (n < i + lim) then n else i + lim).
    assert (i < j ≤ n ∧ j ≤ i + lim) as Hj by (unfold j; case_decide; lia).
    rewrite slice_ret, bind_ret_l by lia.
    set (part := take (Z.to_nat (j - i)) (drop (Z.to_nat i) events)).
    assert (Z.of_nat (length part) = j - i) as Hpart.
    { unfold part. rewrite length_take, length_drop. lia. }
    assert (∃ parts, split_loop fuel (i + lim) (j + lim) lim n events (qq ++ [mkEventsRequest part])
      = Ret ((qq ++ [mkEventsRequest part]) ++ parts) ∧
      events_of parts = drop (Z.to_nat (i + lim)) events ∧ small_parts lim parts ∧
      (Z.of_nat (length parts) - 1) * lim ≤ Z.max (n - (i + lim) - 1) (- lim)) as (parts & -> & He & Hs & Hl).
    { destruct (decide (n < i + lim)) as [Hge|Hge].
      - exists []. split_and!; [|by rewrite drop_ge by lia|constructor|simpl; lia].
        by rewrite app_nil_r, split_loop_done by lia.
      - assert (j + lim = i + lim + lim) as -> by (unfold j; lia).
        apply IH; lia. }
    exists (mkEventsRequest part :: parts). rewrite <-(assoc (++)). split_and!; [done| | |].
    + rewrite events_of_cons, He. cbn [evs_Events]. unfold part. rewrite <-(take_drop (Z.to_nat (j - i)) (drop (Z.to_nat i) events)) at 2.
      f_equal. rewrite drop_drop. unfold j. case_decide; [|f_equal; lia]. rewrite !drop_ge; [done|lia|lia].
    + constructor; [simpl; lia|done].
    + cbn [length]. nia.
Qed.

Lemma events_lim_pos cnt len_p maxBytes :
  0 ≤ cnt → 0 ≤ len_p → 0 < maxBytes →
  ∃ lim, events_lim cnt len_p maxBytes = Ret lim ∧ 0 < lim ∧
    cnt < lim * (len_p / maxBytes + 1).
Proof.
  intros Hc Hp Hm. unfold events_lim.
  rewrite go_quot_nonzero, bind_ret_l by lia. rewrite Z.quot_div_nonneg by lia.
  assert (0 ≤ len_p / maxBytes) by (apply Z.div_pos; lia).
  rewrite go_quot_nonzero, bind_ret_l by lia. rewrite Z.quot_div_nonneg by lia.
  eexists. split; [done|].
  assert (0 ≤ cnt / (len_p / maxBytes + 1)) by (apply Z.div_pos; lia).
  pose proof (Z.div_mod cnt (len_p / maxBytes + 1)).
  pose proof (Z.mod_pos_bound cnt (len_p / maxBytes + 1)). nia.
Qed.

Section theorems.
Context {C : JsonCodec GroundworkEventsRequest}.

(** A split payload: its events in order, in non-empty parts, no more of them
    than the payload is times bigger than the limit. *)
Lemma xxl2qq_parts qq p q maxBytes :
  0 < maxBytes → unmarshal p = Val q →
  ∃ parts, xxl2qq qq p maxBytes = Ret (qq ++ parts) ∧ events_of parts = evs_Events q ∧
    Forall (λ r, evs_Events r ≠ []) parts ∧
    Z.of_nat (length parts) ≤ slen p / maxBytes + 1.
Proof.
  intros Hm Hq. unfold xxl2qq. rewrite Hq.
  assert (0 ≤ slen p) by (unfold slen; lia).
  destruct (events_lim_pos (Z.of_nat (length (evs_Events q))) (slen p) maxBytes)
    as (lim & -> & Hlim & Hcnt); [lia|done|done|]. rewrite bind_ret_l.
  destruct (split_loop_spec (S (length (evs_Events q))) 0 lim (evs_Events q) qq)
    as (parts & H1 & He & Hs & Hl); [done|done|lia|].
  rewrite Z.add_0_l in H1. exists parts. split_and!; [done|by rewrite He| |].
  - eapply Forall_impl; [exact Hs|]. intros r [Hr _] Hn. rewrite Hn in Hr. simpl in Hr. lia.
  - assert (0 ≤ slen p / maxBytes) by (apply Z.div_pos; lia). nia.
Qed.

Lemma xxl2qq_ret qq p maxBytes :
  0 < maxBytes →
  ∃ parts, xxl2qq qq p maxBytes = Ret (qq ++ parts) ∧ events_of parts = events_of (decode_all [p]).
Proof.
  intros Hm. destruct (unmarshal p) as [q|e] eqn:Hq.
  - destruct (xxl2qq_parts qq p q maxBytes Hm Hq) as (parts & -> & He & _).
    exists parts. split; [done|]. rewrite He. unfold decode_all. cbn. rewrite Hq.
    by rewrite events_of_cons, app_nil_r.
  - exists []. unfold xxl2qq, decode_all. cbn. rewrite Hq, app_nil_r. done.
Qed.

Definition acc_events (a : acc) : list GroundworkEvent :=
  events_of (acc_qq a) ++ evs_Events (acc_bq a).

(** One payload: the step returns, and its events are added. *)
Lemma Build_step_spec maxBytes a p :
  0 < maxBytes →
  ∃ a', Build_step maxBytes a p = Ret a' ∧
    acc_events a' ≡ₚ acc_events a ++ events_of (decode_all [p]) ∧
    (slen p ≤ maxBytes → acc_events a' = acc_events a ++ events_of (decode_all [p])).
Proof.
  intros Hm. unfold Build_step. case_decide as Hlt.
  - destruct (xxl2qq_ret (acc_qq a) p maxBytes Hm) as (parts & -> & He).
    rewrite bind_ret_l. eexists. split_and!; [done| |lia]. unfold acc_events. simpl.
    rewrite events_of_app, He. solve_Permutation.
  - unfold decode_all. cbn [omap list_omap]. destruct (unmarshal p) as [q|e]; cbv zeta.
    + enough (∀ a', acc_events a' = acc_events a ++ evs_Events q →
        acc_events a' = acc_events a ++ events_of [q]) as Happ.
      { case_decide; eexists; (split; [done|]);
          match goal with |- acc_events ?a' ≡ₚ _ ∧ _ => assert (acc_events a' = acc_events a ++ events_of [q]) as He end;
          [|by rewrite He| |by rewrite He];
          apply Happ; unfold acc_events; simpl; rewrite ?events_of_app, ?events_of_cons; simpl;
          by rewrite ?app_nil_r, ?(assoc_L (++)). }
      intros a' ->. rewrite events_of_cons. cbn. by rewrite app_nil_r.
    + exists a. split; [done|]. cbn. by rewrite app_nil_r.
Qed.

Lemma foldM_Build_step maxBytes buf a :
  0 < maxBytes →
  ∃ a', foldM (Build_step maxBytes) a buf = Ret a' ∧
    acc_events a' ≡ₚ acc_events a ++ events_of (decode_all buf) ∧
    (Forall (λ p, slen p ≤ maxBytes) buf → acc_events a' = acc_events a ++ events_of (decode_all buf)).
Proof.
  intros Hm. revert a. induction buf as [|p buf IH]; intros a.
  { exists a. split_and!; [done|..]; cbn; by rewrite app_nil_r. }
  change (p :: buf) with ([p] ++ buf). rewrite decode_all_app, events_of_app.
  destruct (Build_step_spec maxBytes a p Hm) as (a1 & H1 & Hp1 & He1).
  destruct (IH a1) as (a2 & H2 & Hp2 & He2).
  exists a2. cbn [app foldM]. rewrite H1, bind_ret_l. split_and!; [done| |].
  - by rewrite Hp2, Hp1, (assoc (++)).
  - intros [? ?]%Forall_cons. rewrite He2 by done. rewrite He1 by done.
    by rewrite (assoc_L (++)).
Qed.

Lemma accumulate_spec buf maxBytes :
  0 < maxBytes →
  ∃ qq, accumulate buf maxBytes = Ret qq ∧
    events_of qq ≡ₚ events_of (decode_all buf) ∧
    (Forall (λ p, slen p ≤ maxBytes) buf → events_of qq = events_of (decode_all buf)).
Proof.
  intros Hm. unfold accumulate.
  destruct (foldM_Build_step maxBytes buf (mkAcc 0 zero_EventsRequest []) Hm) as (a & -> & Hp & He).
  rewrite bind_ret_l. eexists. split; [done|].
  assert (events_of match evs_Events (acc_bq a) with [] => acc_qq a | _ => acc_qq a ++ [acc_bq a] end
    = acc_events a) as Heq.
  { unfold acc_events. destruct (evs_Events (acc_bq a)) eqn:E; [by rewrite app_nil_r|].
    rewrite events_of_app, events_of_cons, E. by rewrite app_nil_r. }
  rewrite Heq. split; [by rewrite Hp|]. intros Hs. by rewrite He.
Qed.
End theorems.

(** The builder keeps its promise to the batcher. *)
#[export] Instance EventsBatchBuilder_total `{JsonCodec GroundworkEventsRequest} :
  BatchBuilderTotal EventsBatchBuilder.
Proof.
  intros buf maxBytes Hm. unfold Build, EventsBatchBuilder.
  by destruct (accumulate_spec buf maxBytes Hm) as (qq & -> & _).
Qed.

Definition canonical_request (P : GroundworkEvent → Prop) (q : GroundworkEventsRequest) : Prop :=
  Forall P (evs_Events q).

Lemma Forall_events_of P l : Forall P (events_of l) ↔ Forall (canonical_request P) l.
Proof.
  induction l as [|q l IH]; [split; constructor|].
  rewrite events_of_cons, Forall_app, Forall_cons, IH. done.
Qed.

(** ** A codec to run the builder

    Events that carry nothing but a one-byte message, one byte per event. *)
Definition byte_event (c : ascii) : GroundworkEvent :=
  mkGroundworkEvent "" "" "" "" "" "" "" "" "" "" "" "" (String c "") None None "" "" "" "" "" "".

Definition event_byte (e : GroundworkEvent) : option ascii :=
  match ev_TextMessage e with
  | String c "" => if decide (e = byte_event c) then Some c else None
  | _ => None
  end.

Fixpoint bytes_text (l : list GroundworkEvent) : option string :=
  match l with
  | [] => Some ""%string
  | e :: l => c ← event_byte e; s ← bytes_text l; Some (String c s)
  end.

Definition byte_codec : JsonCodec GroundworkEventsRequest := {|
  marshal q := match bytes_text (evs_Events q) with
               | Some s => Val (String "[" s) | None => Fail (Opaque "marshal") end;
  unmarshal s := match s with
                 | String "[" s => Val (mkEventsRequest (byte_event <$> String.list_ascii_of_string s))
                 | _ => Fail (Opaque "unmarshal") end;
|}.

Definition is_byte_event (e : GroundworkEvent) : Prop := ∃ c, e = byte_event c.

Lemma event_byte_event c : event_byte (byte_event c) = Some c.
Proof. unfold event_byte. simpl. by rewrite decide_True. Qed.

Lemma bytes_text_spec l :
  Forall is_byte_event l →
  ∃ s, bytes_text l = Some s ∧ byte_event <$> String.list_ascii_of_string s = l.
Proof.
  induction 1 as [|e l [c ->] _ (s & Hs & Hl)]; [by exists ""%string|].
  exists (String c s). split; [|cbn; by rewrite Hl].
  cbn [bytes_text]. rewrite event_byte_event. cbn [mbind option_bind]. by rewrite Hs.
Qed.

#[export] Instance byte_codec_laws : JsonLaws byte_codec (canonical_request is_byte_event).
Proof.
  split.
  - intros s q. cbn. destruct s as [|c s]; [done|].
    destruct c as [[] [] [] [] [] [] [] []]; try done. intros [= <-].
    unfold canonical_request. cbn. apply Forall_fmap, Forall_forall. intros. by eexists.
  - intros [l] Hl. destruct (bytes_text_spec l Hl) as (s & Hs & He).
    exists (String "[" s). cbn. rewrite Hs. split_and!; [done|done|]. by rewrite He.
Qed.

(** ** Properties *)

(** C3: For a positive limit and any JSON codec [Build] returns, and its output
    carries the events of the input: every event of every payload that decodes
    appears exactly once in the payloads sent (as a multiset), no payload is
    empty, and when no payload exceeds the limit the order is kept. *)
Theorem EventsBatchBuilder_conservation (C : JsonCodec GroundworkEventsRequest)
    (P : GroundworkEvent → Prop) (L : JsonLaws C (canonical_request P))
    (buf : list string) (maxBytes : Z) :
  0 < maxBytes →
  ∃ out, EventsBatchBuilder buf maxBytes = Ret out ∧
    events_of (decode_all out) ≡ₚ events_of (decode_all buf) ∧
    Forall (λ p, p ≠ ""%string) out ∧
    (Forall (λ p, slen p ≤ maxBytes) buf →
       events_of (decode_all out) = events_of (decode_all buf)).
Proof.
  intros Hm. destruct (accumulate_spec buf maxBytes Hm) as (qq & Hqq & Hp & He).
  unfold EventsBatchBuilder. rewrite Hqq, bind_ret_l. eexists. split; [done|].
  assert (Forall (canonical_request P) qq) as Hc.
  { apply Forall_events_of. rewrite Hp. apply Forall_events_of, decode_all_canonical, L. }
  rewrite (decode_marshal_all C (canonical_request P)) by done.
  split_and!; [done|by eapply marshal_all_nonempty|done].
Qed.

Lemma EventsBatchBuilder_conservation_witness :
  ∃ out, EventsBatchBuilder (C := byte_codec) ["[ab"; "bad"; "[cdefgh"]%string 4 = Ret out ∧
    Forall (λ p, p ≠ ""%string) out.
Proof.
  destruct (EventsBatchBuilder_conservation byte_codec is_byte_event byte_codec_laws
    ["[ab"; "bad"; "[cdefgh"]%string 4) as (out & H1 & _ & H2 & _); [reflexivity|].
  exists out. split; [exact H1|exact H2].
Defined.

(** A payload bigger than the limit is split into non-empty requests that
    carry its events in order; there are at most [len(p)/maxBytes + 1] of them. *)
Theorem xxl2qq_split (C : JsonCodec GroundworkEventsRequest)
    (qq : list GroundworkEventsRequest) (p : string) (q : GroundworkEventsRequest) (maxBytes : Z) :
  0 < maxBytes → unmarshal p = Val q →
  ∃ parts, xxl2qq qq p maxBytes = Ret (qq ++ parts) ∧ events_of parts = evs_Events q ∧
    Forall (λ r, evs_Events r ≠ []) parts ∧
    Z.of_nat (length parts) ≤ slen p / maxBytes + 1.
Proof. apply xxl2qq_parts. Qed.

Lemma xxl2qq_split_witness :
  ∃ parts, xxl2qq (C := byte_codec) [] "[abcdefg"%string 4 = Ret ([] ++ parts) ∧
    events_of parts = byte_event <$> ["a"; "b"; "c"; "d"; "e"; "f"; "g"]%char.
Proof.
  destruct (xxl2qq_split byte_codec [] "[abcdefg"%string
    (mkEventsRequest (byte_event <$> ["a"; "b"; "c"; "d"; "e"; "f"; "g"]%char)) 4)
    as (parts & H1 & H2 & _); [reflexivity|reflexivity|].
  exists parts. split; [exact H1|exact H2].
Defined.

(** The order of payloads is not kept across an oversized one: its requests
    are put in front of the events that were buffered before it. *)
Theorem EventsBatchBuilder_overtakes (C : JsonCodec GroundworkEventsRequest)
    (p1 p2 : string) (q1 q2 : GroundworkEventsRequest) (maxBytes : Z) :
  0 < maxBytes → slen p1 < maxBytes → maxBytes < slen p2 →
  unmarshal p1 = Val q1 → unmarshal p2 = Val q2 → evs_Events q1 ≠ [] →
  ∃ qq, accumulate [p1; p2] maxBytes = Ret qq ∧ events_of qq = evs_Events q2 ++ evs_Events q1.
Proof.
  intros Hm H1 H2 Hq1 Hq2 Hne. unfold accumulate. cbn [foldM].
  assert (Build_step maxBytes (mkAcc 0 zero_EventsRequest []) p1 = Ret (mkAcc (slen p1) q1 [])) as Hs1.
  { unfold Build_step. rewrite decide_False by lia. rewrite Hq1. cbv zeta.
    rewrite decide_False by (simpl; lia). simpl. by destruct q1. }
  rewrite Hs1, bind_ret_l. unfold Build_step. rewrite decide_True by done.
  destruct (xxl2qq_parts [] p2 q2 maxBytes Hm Hq2) as (parts & Hx & He & _). cbn [acc_qq]. rewrite Hx.
  rewrite !bind_ret_l. eexists. split; [done|]. cbn [acc_bq acc_qq].
  destruct (evs_Events q1) eqn:E; [done|].
  rewrite events_of_app, events_of_cons, E. cbn [app]. by rewrite He, app_nil_r.
Qed.

Lemma EventsBatchBuilder_overtakes_witness :
  ∃ qq, accumulate (C := byte_codec) ["[a"; "[bcdefg"]%string 4 = Ret qq ∧
    events_of qq = (byte_event <$> ["b"; "c"; "d"; "e"; "f"; "g"]%char) ++ [byte_event "a"].
Proof.
  destruct (EventsBatchBuilder_overtakes byte_codec "[a" "[bcdefg"
    (mkEventsRequest [byte_event "a"])
    (mkEventsRequest (byte_event <$> ["b"; "c"; "d"; "e"; "f"; "g"]%char)) 4)
    as (qq & H1 & H2); try reflexivity; [discriminate|].
  exists qq. split; [exact H1|exact H2].
Defined.

(** A limit of 0 makes the builder panic on the first payload that decodes:
    every non-empty payload is oversized and is divided by the limit. *)
Theorem EventsBatchBuilder_zero_limit (C : JsonCodec GroundworkEventsRequest)
    (p : string) (buf : list string) (q : GroundworkEventsRequest) :
  unmarshal p = Val q → 0 < slen p →
  EventsBatchBuilder (p :: buf) 0 = Panic "integer divide by zero".
Proof.
  intros Hq Hp. unfold EventsBatchBuilder, accumulate. cbn [foldM].
  assert (∀ a, Build_step 0 a p = Panic "integer divide by zero") as Hs; [|by rewrite Hs].
  intros a. unfold Build_step. rewrite decide_True by done. unfold xxl2qq. by rewrite Hq.
Qed.

Lemma EventsBatchBuilder_zero_limit_witness :
  EventsBatchBuilder (C := byte_codec) ["[a"%string] 0 = Panic "integer divide by zero".
Proof.
  apply (EventsBatchBuilder_zero_limit byte_codec "[a" [] (mkEventsRequest [byte_event "a"])); reflexivity.
Defined.
