(* ===== verification/MetricsBatch.v ===== *)
(** batcher/metrics/metrics.go: [MetricsBatchBuilder] combines metrics payloads
    of unchanged hosts, passes payloads with a status on their own, splits
    oversized payloads by services and packs the resource groups of a batch. *)

From S2P Require Import Prelude GoString Transit Errors Codec Batcher.

Local Open Scope Z_scope.

(** ** Splitting an oversized payload *)

Definition with_Services (r : MonitoredResource) (l : list MonitoredService) : MonitoredResource :=
  mkMonitoredResource (mr_BaseResource r) (mr_MonitoredInfo r) l.

(** [cnt]: the number of services of a request. *)
Definition count_services (q : ResourcesWithServicesRequest) : Z :=
  foldl (λ cnt res, cnt + Z.of_nat (length (mr_Services res))) 0 (rq_Resources q).

Definition metrics_lim (cnt len_p maxBytes : Z) : outcome Z :=
  d ← go_quot len_p maxBytes;
  n ← go_quot cnt (d + 1);
  Ret (n + 1).

(** The state of the splitting loop: the counter [c], the current request [x],
    the accumulated requests and the current partial resource [pr]. *)
Record split_state := mkSplit {
  sp_c : Z;
  sp_x : ResourcesWithServicesRequest;
  sp_qq : list ResourcesWithServicesRequest;
  sp_pr : MonitoredResource;
}.

Section split.
Context (q : ResourcesWithServicesRequest) (lim : Z).

Definition fresh_x : ResourcesWithServicesRequest := mkRequest zero_Context [] (rq_Groups q).

Definition split_service (res : MonitoredResource) (s : split_state) (svc : MonitoredService)
  : split_state :=
  let pr := MonitoredResource_AddService (sp_pr s) svc in
  let c := sp_c s + 1 in
  if decide (c < lim) then mkSplit c (sp_x s) (sp_qq s) pr
  else
    let x := Request_SetContext (AddResource (sp_x s) pr) (rq_Context q) in
    mkSplit 0 fresh_x (sp_qq s ++ [x]) (with_Services res []).

(** One resource; its partial resource [pr] is local to the iteration. *)
Definition split_resource (s : split_state) (res : MonitoredResource) : split_state :=
  foldl (split_service res)
    (mkSplit (sp_c s) (sp_x s) (sp_qq s) (with_Services res [])) (mr_Services res).

Definition split_request (qq : list ResourcesWithServicesRequest) : list ResourcesWithServicesRequest :=
  let s := foldl split_resource
    (mkSplit 0 fresh_x qq (mkMonitoredResource (mkBaseResource zero_BaseInfo "") zero_MonitoredInfo []))
    (rq_Resources q) in
  match rq_Resources (sp_x s) with
  | [] => sp_qq s
  | _ => sp_qq s ++ [Request_SetContext (sp_x s) (rq_Context q)]
  end.
End split.

(** [fmt.Sprintf("%04d", i)] *)
Definition fmt_04d (i : nat) : string :=
  let s := FormatInt (Z.of_nat i) in
  (String.concat "" (replicate (4 - String.length s) "0") +:+ s)%string.

(** The trace token of the [i]-th request: [t[:8]-i-t[14:]]. *)
Definition split_token (i : nat) (t : string) : string :=
  if decide (14 < slen t)
  then (str_take 8 t +:+ "-" +:+ fmt_04d i +:+ "-" +:+ str_drop 14 t)%string else t.

Definition with_token (q : ResourcesWithServicesRequest) (t : string) : ResourcesWithServicesRequest :=
  let c := rq_Context q in
  mkRequest (mkTracerContext (tc_AppType c) (tc_AgentID c) t (tc_TimeStamp c) (tc_Version c))
    (rq_Resources q) (rq_Groups q).

(** The loop over all of [qq], the requests of earlier payloads included. *)
Definition retoken (qq : list ResourcesWithServicesRequest) : list ResourcesWithServicesRequest :=
  imap (λ i q, with_token q (split_token i (tc_TraceToken (rq_Context q)))) qq.

(** ** Packing the groups *)

(** [RG]: a group and its resources by key. *)
Record RG := mkRG { rgroup : ResourceGroup; rresources : gmap string ResourceRef }.

Definition group_key (g : ResourceGroup) : string := Join [rg_Type g; rg_GroupName g] ":".
Definition ref_key (r : ResourceRef) : string := Join [rr_Type r; rr_Name r] ":".

Definition add_refs (m : gmap string ResourceRef) (l : list ResourceRef) : gmap string ResourceRef :=
  foldl (λ m r, <[ref_key r := r]> m) m l.

Definition pack_group (m : gmap string RG) (g : ResourceGroup) : gmap string RG :=
  let rg := default (mkRG g ∅) (m !! group_key g) in
  <[group_key g := mkRG (rgroup rg) (add_refs (rresources rg) (rg_Resources g))]> m.

Section pack.
Context `{MapOrder}.

Definition unpack (rg : RG) : ResourceGroup :=
  let g := rgroup rg in
  if decide (rresources rg = ∅) then g
  else mkResourceGroup (rg_GroupName g) (rg_Type g) (rg_Description g)
         ((map_order (rresources rg)).*2).

Definition packGroups (groups : list ResourceGroup) : list ResourceGroup :=
  match groups with
  | [] => []
  | _ => (λ kv, unpack kv.2) <$> map_order (foldl pack_group ∅ groups)
  end.
End pack.

(** ** Building *)

Definition hasStatus (q : ResourcesWithServicesRequest) : bool :=
  existsb (λ res, negb (bool_decide (mi_Status (mr_MonitoredInfo res) = HostUnchanged)))
    (rq_Resources q).

Record acc := mkAcc {
  acc_c : Z;
  acc_bq : ResourcesWithServicesRequest;
  acc_qq : list ResourcesWithServicesRequest;
}.

Section builder.
Context {C : JsonCodec ResourcesWithServicesRequest} `{MapOrder}.

Definition xxl2qq (qq : list ResourcesWithServicesRequest) (p : string) (maxBytes : Z)
  : outcome (list ResourcesWithServicesRequest) :=
  match unmarshal p with
  | Fail _ => Ret qq
  | Val q =>
      lim ← metrics_lim (count_services q) (slen p) maxBytes;
      Ret (retoken (split_request q lim qq))
  end.

Definition Build_step (maxBytes : Z) (a : acc) (p : string) : outcome acc :=
  if decide (maxBytes < slen p) then
    qq ← xxl2qq (acc_qq a) p maxBytes;
    Ret (mkAcc (acc_c a) (acc_bq a) qq)
  else
    match unmarshal p with
    | Fail _ => Ret a
    | Val q =>
        if hasStatus q then
          match rq_Resources (acc_bq a) with
          | [] => Ret (mkAcc (acc_c a) (acc_bq a) (acc_qq a ++ [q]))
          | _ => Ret (mkAcc 0 zero_Request (acc_qq a ++ [acc_bq a] ++ [q]))
          end
        else
          let bq := Request_SetContext (acc_bq a) (rq_Context q) in
          let bq := mkRequest (rq_Context bq) (rq_Resources bq ++ rq_Resources q)
                      (rq_Groups bq ++ rq_Groups q) in
          let c := acc_c a + slen p in
          if decide (maxBytes ≤ c)
          then Ret (mkAcc 0 zero_Request (acc_qq a ++ [bq]))
          else Ret (mkAcc c bq (acc_qq a))
    end.

Definition accumulate (buf : list string) (maxBytes : Z)
  : outcome (list ResourcesWithServicesRequest) :=
  a ← foldM (Build_step maxBytes) (mkAcc 0 zero_Request []) buf;
  Ret (match rq_Resources (acc_bq a) with [] => acc_qq a | _ => acc_qq a ++ [acc_bq a] end).

Definition pack_request (q : ResourcesWithServicesRequest) : ResourcesWithServicesRequest :=
  mkRequest (rq_Context q) (rq_Resources q) (packGroups (rq_Groups q)).

Definition MetricsBatchBuilder : BatchBuilder := λ buf maxBytes,
  qq ← accumulate buf maxBytes; Ret (marshal_all (pack_request <$> qq)).
End builder.

(** ** Lemmas: splitting *)

Definition services_of (l : list ResourcesWithServicesRequest) : list MonitoredService :=
  l ≫= λ q, rq_Resources q ≫= mr_Services.

Lemma services_of_app l k : services_of (l ++ k) = services_of l ++ services_of k.
Proof. unfold services_of. apply bind_app. Qed.

Lemma services_of_cons q l :
  services_of (q :: l) = (rq_Resources q ≫= mr_Services) ++ services_of l.
Proof. reflexivity. Qed.

(** What is sent of the services [l] of a resource when [c] services were
    counted since the last boundary: those up to the last multiple of [lim]. *)
Definition kept (lim c : Z) (l : list MonitoredService) : list MonitoredService :=
  take (Z.to_nat (lim * ((c + Z.of_nat (length l)) / lim) - c)) l.

Fixpoint kept_all (lim c : Z) (rs : list MonitoredResource) : list MonitoredService :=
  match rs with
  | [] => []
  | r :: rs =>
      kept lim c (mr_Services r) ++
      kept_all lim ((c + Z.of_nat (length (mr_Services r))) `mod` lim) rs
  end.

(** Every request that splitting [q] appends has one resource, one of [q] up to
    its services, and the context and groups of [q]. *)
Definition piece_of (q x : ResourcesWithServicesRequest) : Prop :=
  rq_Context x = rq_Context q ∧ rq_Groups x = rq_Groups q ∧
  ∃ r l, r ∈ rq_Resources q ∧ rq_Resources x = [with_Services r l].

Section split_lemmas.
Context (q : ResourcesWithServicesRequest) (lim : Z) (Hlim : 0 < lim).

Lemma split_service_emit res s svc :
  sp_x s = fresh_x q → (∃ l, sp_pr s = with_Services res l) → res ∈ rq_Resources q →
  ¬ sp_c s + 1 < lim →
  ∃ x, split_service q lim res s svc =
      mkSplit 0 (fresh_x q) (sp_qq s ++ [x]) (with_Services res []) ∧
    piece_of q x ∧ services_of [x] = mr_Services (sp_pr s) ++ [svc].
Proof.
  intros Hx [l Hpr] Hres Hc. unfold split_service. rewrite decide_False by done. eexists.
  split; [done|]. rewrite Hx, Hpr. split.
  - unfold piece_of. cbn. rewrite SetContext_zero_l. split_and!; [done|done|].
    by eexists res, _.
  - cbn. by rewrite !app_nil_r.
Qed.

Lemma split_services res l s :
  sp_x s = fresh_x q → (∃ l, sp_pr s = with_Services res l) → res ∈ rq_Resources q →
  0 ≤ sp_c s < lim →
  ∃ qq', let T := sp_c s + Z.of_nat (length l) in
    let s' := foldl (split_service q lim res) s l in
    sp_qq s' = sp_qq s ++ qq' ∧ Forall (piece_of q) qq' ∧
    services_of qq' = (if decide (T < lim) then []
                       else mr_Services (sp_pr s) ++ take (Z.to_nat (lim * (T / lim) - sp_c s)) l) ∧
    sp_c s' = T `mod` lim ∧ sp_x s' = fresh_x q.
Proof.
  revert s. induction l as [|svc l IH]; intros s Hx Hpr Hres Hc.
  { exists []. cbn. rewrite app_nil_r, decide_True, Z.add_0_r, Z.mod_small by lia.
    split_and!; done || constructor. }
  cbn [foldl length]. destruct (decide (sp_c s + 1 < lim)) as [Hlt|Hge].
  - assert (split_service q lim res s svc =
      mkSplit (sp_c s + 1) (sp_x s) (sp_qq s) (MonitoredResource_AddService (sp_pr s) svc)) as ->
      by (unfold split_service; by rewrite decide_True).
    destruct (IH (mkSplit (sp_c s + 1) (sp_x s) (sp_qq s) (MonitoredResource_AddService (sp_pr s) svc)))
      as (qq' & H1 & H2 & H3 & H4 & H5); [done| |done|simpl; lia|].
    { destruct Hpr as [k ->]. by eexists. }
    cbn [sp_c sp_qq sp_pr] in *. exists qq'.
    replace (sp_c s + Z.of_nat (S (length l))) with (sp_c s + 1 + Z.of_nat (length l)) by lia.
    split_and!; try done. rewrite H3. case_decide as HT; [done|].
    cbn [MonitoredResource_AddService mr_Services]. rewrite <-(assoc_L (++)). f_equal.
    assert (1 ≤ (sp_c s + 1 + Z.of_nat (length l)) / lim) by (apply Z.div_le_lower_bound; lia).
    replace (Z.to_nat (lim * ((sp_c s + 1 + Z.of_nat (length l)) / lim) - sp_c s))
      with (S (Z.to_nat (lim * ((sp_c s + 1 + Z.of_nat (length l)) / lim) - (sp_c s + 1)))) by nia.
    done.
  - destruct (split_service_emit res s svc Hx Hpr Hres Hge) as (x & -> & Hpx & Hsx).
    destruct (IH (mkSplit 0 (fresh_x q) (sp_qq s ++ [x]) (with_Services res [])))
      as (qq' & H1 & H2 & H3 & H4 & H5); [done|by eexists|done|simpl; lia|].
    cbn [sp_c sp_qq sp_pr with_Services mr_Services app] in *. exists (x :: qq').
    assert (sp_c s = lim - 1) as -> by lia.
    replace (lim - 1 + Z.of_nat (S (length l))) with (Z.of_nat (length l) + 1 * lim) by lia.
    rewrite Z.add_0_l in *. rewrite Z.mod_add, Z.div_add, decide_False by lia.
    split_and!; [by rewrite H1, <-(assoc_L (++))|by constructor| |done|done].
    change (x :: qq') with ([x] ++ qq'). rewrite services_of_app, Hsx, H3, <-(assoc_L (++)). f_equal.
    replace (Z.to_nat (lim * (Z.of_nat (length l) / lim + 1) - (lim - 1)))
      with (S (Z.to_nat (lim * (Z.of_nat (length l) / lim)))) by
      (pose proof (Z.div_pos (Z.of_nat (length l)) lim); nia).
    cbn [app take]. f_equal. case_decide; [|by rewrite Z.sub_0_r].
    by rewrite Z.div_small, Z.mul_0_r by lia.
Qed.

Lemma split_resources rs s :
  sp_x s = fresh_x q → rs ⊆ rq_Resources q → 0 ≤ sp_c s < lim →
  ∃ qq', let s' := foldl (split_resource q lim) s rs in
    sp_qq s' = sp_qq s ++ qq' ∧ Forall (piece_of q) qq' ∧
    services_of qq' = kept_all lim (sp_c s) rs ∧ sp_x s' = fresh_x q.
Proof.
  revert s. induction rs as [|r rs IH]; intros s Hx Hin Hc.
  { exists []. cbn. rewrite app_nil_r. split_and!; done || constructor. }
  cbn [foldl kept_all].
  destruct (split_services r (mr_Services r) (mkSplit (sp_c s) (sp_x s) (sp_qq s) (with_Services r [])))
    as (qq1 & H1 & H2 & H3 & H4 & H5); [done|by eexists|set_solver|done|].
  change (foldl (split_service q lim r) (mkSplit (sp_c s) (sp_x s) (sp_qq s) (with_Services r []))
    (mr_Services r)) with (split_resource q lim s r) in *.
  cbn [sp_c sp_qq sp_pr with_Services mr_Services app] in *.
  destruct (IH (split_resource q lim s r)) as (qq2 & K1 & K2 & K3 & K4); [done|set_solver| |].
  { rewrite H4. apply Z.mod_pos_bound. lia. }
  exists (qq1 ++ qq2). split_and!; [by rewrite K1, H1, <-(assoc_L (++))|by apply Forall_app| |done].
  rewrite services_of_app, H3, K3, H4. f_equal. unfold kept. case_decide; [|done].
  rewrite Z.div_small by lia. rewrite Z.mul_0_r. by replace (Z.to_nat (0 - sp_c s)) with 0%nat by lia.
Qed.

Lemma split_request_spec qq :
  ∃ parts, split_request q lim qq = qq ++ parts ∧ Forall (piece_of q) parts ∧
    services_of parts = kept_all lim 0 (rq_Resources q).
Proof.
  unfold split_request.
  destruct (split_resources (rq_Resources q)
    (mkSplit 0 (fresh_x q) qq (mkMonitoredResource (mkBaseResource zero_BaseInfo "") zero_MonitoredInfo [])))
    as (parts & H1 & H2 & H3 & H4); [done|done|simpl; lia|].
  cbn [sp_c sp_qq] in *. exists parts. rewrite H4. cbn [fresh_x rq_Resources]. done.
Qed.
End split_lemmas.

Lemma services_of_retoken l : services_of (retoken l) = services_of l.
Proof.
  unfold retoken, services_of. generalize 0%nat as n.
  enough (∀ n, imap (λ i q, with_token q (split_token (n + i) (tc_TraceToken (rq_Context q)))) l
    ≫= (λ q, rq_Resources q ≫= mr_Services) = l ≫= (λ q, rq_Resources q ≫= mr_Services)) as H
    by (intros _; apply (H 0%nat)).
  induction l as [|q l IH]; intros n; [done|]. rewrite imap_cons. cbn. f_equal.
  rewrite <-(IH (S n)). f_equal. apply imap_ext. intros. cbn. by rewrite Nat.add_succ_r.
Qed.

Lemma metrics_lim_pos cnt len_p maxBytes :
  0 ≤ cnt → 0 ≤ len_p → 0 < maxBytes → ∃ lim, metrics_lim cnt len_p maxBytes = Ret lim ∧ 0 < lim.
Proof.
  intros Hc Hp Hm. unfold metrics_lim.
  rewrite go_quot_nonzero, bind_ret_l by lia. rewrite Z.quot_div_nonneg by lia.
  assert (0 ≤ len_p / maxBytes) by (apply Z.div_pos; lia).
  rewrite go_quot_nonzero, bind_ret_l by lia. rewrite Z.quot_div_nonneg by lia.
  eexists. split; [done|].
  assert (0 ≤ cnt / (len_p / maxBytes + 1)) by (apply Z.div_pos; lia). lia.
Qed.

Lemma count_services_sum q :
  count_services q = Z.of_nat (length (rq_Resources q ≫= mr_Services)).
Proof.
  unfold count_services.
  enough (∀ rs n, foldl (λ cnt res, cnt + Z.of_nat (length (mr_Services res))) n rs =
    n + Z.of_nat (length (rs ≫= mr_Services))) as H by by rewrite H.
  induction rs as [|r rs IH]; intros n; cbn; [lia|]. rewrite IH, length_app. lia.
Qed.

(** ** Lemmas: combining *)

Definition resources_of (l : list ResourcesWithServicesRequest) : list MonitoredResource :=
  l ≫= rq_Resources.

Lemma resources_of_app l k : resources_of (l ++ k) = resources_of l ++ resources_of k.
Proof. unfold resources_of. apply bind_app. Qed.

Lemma resources_of_one q : resources_of [q] = rq_Resources q.
Proof. unfold resources_of. cbn. apply app_nil_r. Qed.

Lemma hasStatus_app q r c g :
  hasStatus (mkRequest c (rq_Resources q ++ rq_Resources r) g) = hasStatus q || hasStatus r.
Proof. unfold hasStatus. cbn. apply existsb_app. Qed.

Section combine.
Context {C : JsonCodec ResourcesWithServicesRequest} `{MapOrder}.

Lemma xxl2qq_total qq p maxBytes : 0 < maxBytes → is_ret (xxl2qq qq p maxBytes) = true.
Proof.
  intros Hm. unfold xxl2qq. destruct (unmarshal p) as [q|]; [|done].
  destruct (metrics_lim_pos (count_services q) (slen p) maxBytes) as (lim & -> & _); try done.
  - rewrite count_services_sum. lia.
  - unfold slen. lia.
Qed.

Lemma Build_step_total maxBytes a p : 0 < maxBytes → is_ret (Build_step maxBytes a p) = true.
Proof.
  intros Hm. unfold Build_step. case_decide.
  - pose proof (xxl2qq_total (acc_qq a) p maxBytes Hm). by destruct (xxl2qq _ _ _).
  - destruct (unmarshal p) as [q|]; [|done]. destruct (hasStatus q).
    + by destruct (rq_Resources (acc_bq a)).
    + cbv zeta. by case_decide.
Qed.

(** The invariant of the loop over payloads that fit: the resources seen so far
    are in the accumulator in order, the batched request has no status, and a
    request with a status is one of the payloads. *)
Definition acc_inv (seen : list ResourcesWithServicesRequest) (a : acc) : Prop :=
  resources_of (acc_qq a) ++ rq_Resources (acc_bq a) = resources_of seen ∧
  hasStatus (acc_bq a) = false ∧
  Forall (λ x, hasStatus x = true → x ∈ seen) (acc_qq a).

Lemma acc_inv_mono seen q (l : list ResourcesWithServicesRequest) :
  Forall (λ x, hasStatus x = true → x ∈ seen) l →
  Forall (λ x, hasStatus x = true → x ∈ seen ++ [q]) l.
Proof. intros Hl. eapply Forall_impl; [exact Hl|]. set_solver. Qed.

Lemma Build_step_inv maxBytes seen a p :
  slen p ≤ maxBytes → acc_inv seen a →
  ∃ a', Build_step maxBytes a p = Ret a' ∧ acc_inv (seen ++ decode_all [p]) a'.
Proof.
  intros Hp (Hr & Hb & Hs). unfold Build_step. rewrite decide_False by lia.
  unfold decode_all. cbn [omap list_omap].
  destruct (unmarshal p) as [q|]; [|exists a; split; [done|]; by rewrite app_nil_r].
  destruct (hasStatus q) eqn:Hq.
  - destruct (rq_Resources (acc_bq a)) as [|r rs] eqn:E.
    + eexists. split; [done|]. split_and!; cbn [acc_qq acc_bq]; [|done|].
      * rewrite !resources_of_app, resources_of_one, E, app_nil_r. rewrite app_nil_r in Hr. by rewrite Hr.
      * apply Forall_app. split; [by apply acc_inv_mono|]. apply Forall_singleton. set_solver.
    + eexists. split; [done|]. split_and!; cbn [acc_qq acc_bq]; [|done|].
      * rewrite !resources_of_app, !resources_of_one, E. cbn [zero_Request rq_Resources].
        rewrite app_nil_r, (assoc_L (++)). by rewrite Hr.
      * apply Forall_app. split; [by apply acc_inv_mono|]. apply Forall_app. rewrite !Forall_singleton.
        split; [by rewrite Hb|set_solver].
  - cbv zeta. set (bq := mkRequest _ _ _).
    assert (hasStatus bq = false) as Hbq.
    { unfold bq. cbn [Request_SetContext rq_Resources]. by rewrite hasStatus_app, Hb, Hq. }
    case_decide; eexists; (split; [done|]); split_and!; cbn [acc_qq acc_bq]; try done.
    + rewrite !resources_of_app, !resources_of_one. cbn [bq Request_SetContext rq_Resources zero_Request].
      by rewrite app_nil_r, (assoc_L (++)), Hr.
    + apply Forall_app. split; [by apply acc_inv_mono|]. apply Forall_singleton. by rewrite Hbq.
    + rewrite !resources_of_app, !resources_of_one. cbn [bq Request_SetContext rq_Resources].
      by rewrite (assoc_L (++)), Hr.
    + by apply acc_inv_mono.
Qed.

Lemma foldM_Build_step_inv maxBytes buf seen a :
  Forall (λ p, slen p ≤ maxBytes) buf → acc_inv seen a →
  ∃ a', foldM (Build_step maxBytes) a buf = Ret a' ∧ acc_inv (seen ++ decode_all buf) a'.
Proof.
  intros Hb. revert seen a. induction Hb as [|p buf Hp Hb IH]; intros seen a Ha.
  { exists a. split; [done|]. by rewrite app_nil_r. }
  destruct (Build_step_inv maxBytes seen a p Hp Ha) as (a1 & H1 & Ha1).
  destruct (IH _ _ Ha1) as (a2 & H2 & Ha2). exists a2. cbn [foldM]. rewrite H1, bind_ret_l.
  split; [done|]. change (p :: buf) with ([p] ++ buf). by rewrite decode_all_app, (assoc_L (++)).
Qed.

Lemma accumulate_total buf maxBytes : 0 < maxBytes → is_ret (accumulate buf maxBytes) = true.
Proof.
  intros Hm. unfold accumulate.
  enough (∀ a, is_ret (foldM (Build_step maxBytes) a buf) = true) as Hf.
  { specialize (Hf (mkAcc 0 zero_Request [])). by destruct (foldM _ _ _). }
  induction buf as [|p buf IH]; intros a; [done|]. cbn [foldM].
  pose proof (Build_step_total maxBytes a p Hm). destruct (Build_step maxBytes a p); [apply IH|done].
Qed.
End combine.

(** The builder keeps its promise to the batcher. *)
#[export] Instance MetricsBatchBuilder_total `{JsonCodec ResourcesWithServicesRequest} `{MapOrder} :
  BatchBuilderTotal MetricsBatchBuilder.
Proof.
  intros buf maxBytes Hm. unfold Build, MetricsBatchBuilder.
  pose proof (accumulate_total buf maxBytes Hm) as Ht. by destruct (accumulate buf maxBytes).
Qed.

(** ** Lemmas: packing *)

(** The groups of a key, and the resources they list, in order. *)
Definition same_key (k : string) (gs : list ResourceGroup) : list ResourceGroup :=
  filter (λ g, group_key g = k) gs.

Definition refs_of (gs : list ResourceGroup) : list ResourceRef := gs ≫= rg_Resources.

Lemma add_refs_app m l k : add_refs m (l ++ k) = add_refs (add_refs m l) k.
Proof. unfold add_refs. by rewrite foldl_app. Qed.

Lemma add_refs_keys m l k r :
  (∀ k r, m !! k = Some r → ref_key r = k) → add_refs m l !! k = Some r → ref_key r = k.
Proof.
  revert m. induction l as [|r' l IH]; intros m Hm; cbn [add_refs foldl]; [apply Hm|].
  apply IH. intros k' r0. destruct (decide (k' = ref_key r')) as [->|Hne].
  - rewrite lookup_insert_eq. by intros [= <-].
  - rewrite lookup_insert_ne by done. apply Hm.
Qed.

Lemma add_refs_empty l : add_refs ∅ l = ∅ → l = [].
Proof.
  destruct l as [|r l _] using rev_ind; [done|]. rewrite add_refs_app. cbn.
  intros He. by apply insert_non_empty in He.
Qed.

Lemma foldl_pack_group gs k :
  foldl pack_group ∅ gs !! k =
    match same_key k gs with
    | [] => None
    | g :: _ => Some (mkRG g (add_refs ∅ (refs_of (same_key k gs))))
    end.
Proof.
  unfold same_key. induction gs as [|g gs IH] using rev_ind; [done|].
  rewrite foldl_app, filter_app. cbn [foldl]. unfold pack_group at 1.
  destruct (decide (group_key g = k)) as [<-|Hne].
  - rewrite lookup_insert_eq, IH, filter_cons_True by done. cbn [filter list_filter].
    destruct (filter _ gs) as [|g0 l]; cbn [app default from_option id rgroup rresources].
    + unfold refs_of. cbn. by rewrite app_nil_r.
    + unfold refs_of. rewrite (app_comm_cons l [g] g0), bind_app, add_refs_app. cbn. by rewrite app_nil_r.
  - rewrite lookup_insert_ne by done. by rewrite IH, filter_cons_False, app_nil_r.
Qed.

Lemma same_key_nonempty k gs : same_key k gs ≠ [] ↔ k ∈ group_key <$> gs.
Proof.
  unfold same_key. rewrite list_elem_of_fmap. split.
  - intros Hn. destruct (filter _ gs) as [|g l] eqn:E; [done|].
    assert (g ∈ filter (λ g, group_key g = k) gs) as Hg by (rewrite E; set_solver).
    apply list_elem_of_filter in Hg as [<- ?]. eauto.
  - intros (g & -> & Hg) He.
    assert (g ∈ filter (λ g', group_key g' = group_key g) gs) as Hin by (apply list_elem_of_filter; done).
    rewrite He in Hin. set_solver.
Qed.

Section pack_lemmas.
Context `{MapOrder} (gs : list ResourceGroup).

Lemma packGroups_eq : packGroups gs = (λ kv, unpack kv.2) <$> map_order (foldl pack_group ∅ gs).
Proof.
  unfold packGroups. destruct gs; [|done]. cbn [foldl].
  pose proof (map_order_perm _ (∅ : gmap string RG)) as Hp. rewrite map_to_list_empty in Hp.
  by apply Permutation_nil_r in Hp as ->.
Qed.

(** A packed group: its key, its first group and its resources. *)
Lemma pack_entry k rg :
  (k, rg) ∈ map_order (foldl pack_group ∅ gs) →
  group_key (unpack rg) = k ∧
  rresources rg = add_refs ∅ (refs_of (same_key k gs)) ∧
  head (same_key k gs) = Some (rgroup rg).
Proof.
  intros Hin%elem_of_map_order. rewrite foldl_pack_group in Hin.
  destruct (same_key k gs) as [|g l] eqn:E; [done|]. injection Hin as <-.
  assert (g ∈ same_key k gs) as Hg by (rewrite E; set_solver).
  apply list_elem_of_filter in Hg as [Hk _].
  split_and!; [|done|done]. unfold unpack. by case_decide.
Qed.

Lemma pack_keys : group_key <$> packGroups gs = (map_order (foldl pack_group ∅ gs)).*1.
Proof.
  rewrite packGroups_eq, <-list_fmap_compose. apply list_fmap_ext.
  intros i [k rg] Hi%list_elem_of_lookup_2. by destruct (pack_entry _ _ Hi) as (Hk & _).
Qed.

Lemma unpack_resources k rg :
  (k, rg) ∈ map_order (foldl pack_group ∅ gs) →
  rg_Resources (unpack rg) = (map_order (add_refs ∅ (refs_of (same_key k gs)))).*2.
Proof.
  intros Hin. pose proof (pack_entry _ _ Hin) as (_ & Hr & Hh). unfold unpack.
  rewrite <-Hr. case_decide as He; [|done].
  rewrite He. assert (map_order (∅ : gmap string ResourceRef) = []) as ->.
  { apply Permutation_nil_r. by rewrite map_order_perm, map_to_list_empty. }
  rewrite Hr in He. apply add_refs_empty in He.
  destruct (same_key k gs) as [|g l]; [done|]. injection Hh as ->.
  unfold refs_of in He. cbn in He. by apply app_eq_nil in He as [-> _].
Qed.
End pack_lemmas.

(** ** Properties *)

(** A codec to run the builder: payloads are decimal indices into a table. *)
Definition table_codec (t : list ResourcesWithServicesRequest) : JsonCodec ResourcesWithServicesRequest := {|
  marshal _ := Val "q"%string;
  unmarshal s := match ParseInt s with
                 | Val i => match t !! Z.to_nat i with Some q => Val q | None => Fail (Opaque "range") end
                 | Fail _ => Fail (Opaque "syntax") end;
|}.

Definition sample_service (name : string) : MonitoredService :=
  mkMonitoredService (mkBaseInfo name ResourceTypeService "" "" "" ∅)
    (mkMonitoredInfo ServiceOk None None "") [].

Definition sample_resource (status : MonitorStatus) (services : list MonitoredService) : MonitoredResource :=
  mkMonitoredResource (mkBaseResource (mkBaseInfo "host" ResourceTypeHost "" "" "" ∅) "")
    (mkMonitoredInfo status None None "") services.

Definition three_services : ResourcesWithServicesRequest :=
  mkRequest zero_Context [sample_resource HostUnchanged (sample_service <$> ["a"; "b"; "c"]%string)] [].

(** C1: What the batcher sends of an oversized payload [q].  With [lim] the
    number of services per request, every request that is added holds one
    resource of [q] (its services restricted) with the context of [q] up to the
    trace token and its groups, and the services sent are those of each resource
    up to the last multiple of [lim] in the running count of services: of a
    resource that ends at count [e] the last [e mod lim] services are dropped. *)
Theorem xxl2qq_services {C : JsonCodec ResourcesWithServicesRequest}
    (qq : list ResourcesWithServicesRequest) (p : string) (q : ResourcesWithServicesRequest)
    (maxBytes : Z) :
  0 < maxBytes → unmarshal p = Val q →
  ∃ lim parts, metrics_lim (count_services q) (slen p) maxBytes = Ret lim ∧ 0 < lim ∧
    xxl2qq qq p maxBytes = Ret (retoken (qq ++ parts)) ∧ Forall (piece_of q) parts ∧
    services_of (retoken (qq ++ parts)) = services_of qq ++ kept_all lim 0 (rq_Resources q).
Proof.
  intros Hm Hq.
  destruct (metrics_lim_pos (count_services q) (slen p) maxBytes) as (lim & Hl & Hpos).
  { rewrite count_services_sum. lia. }
  { unfold slen. lia. }
  { done. }
  destruct (split_request_spec q lim Hpos qq) as (parts & Hs & Hp & Hk).
  exists lim, parts. unfold xxl2qq. rewrite Hq, Hl, bind_ret_l, Hs. split_and!; try done.
  by rewrite services_of_retoken, services_of_app, Hk.
Qed.

Lemma xxl2qq_services_witness :
  ∃ lim parts, 0 < lim ∧
    xxl2qq (C := table_codec [three_services]) [] "000" 2 = Ret (retoken ([] ++ parts)) ∧
    Forall (piece_of three_services) parts.
Proof.
  destruct (xxl2qq_services (C := table_codec [three_services]) [] "000" three_services 2)
    as (lim & parts & _ & H1 & H2 & H3 & _); [reflexivity|vm_compute; reflexivity|].
  exists lim, parts. split; [exact H1|]. split; [exact H2|exact H3].
Defined.

(** The splitting loses services.  For a payload with one resource of [n]
    services only [lim * (n / lim)] of them are sent; in particular a payload
    below twice the limit with three services one service is lost. *)
Theorem xxl2qq_loses {C : JsonCodec ResourcesWithServicesRequest}
    (p : string) (c : TracerContext) (r : MonitoredResource) (g : list ResourceGroup) (maxBytes : Z) :
  0 < maxBytes → unmarshal p = Val (mkRequest c [r] g) →
  let n := Z.of_nat (length (mr_Services r)) in
  let lim := n / (slen p / maxBytes + 1) + 1 in
  ∃ qq, xxl2qq [] p maxBytes = Ret qq ∧
    services_of qq = take (Z.to_nat (lim * (n / lim))) (mr_Services r) ∧
    (maxBytes ≤ slen p < 2 * maxBytes → n = 3 → length (services_of qq) = 2%nat).
Proof.
  intros Hm Hq n lim.
  destruct (xxl2qq_services [] p _ maxBytes Hm Hq) as (lim' & parts & Hl & Hpos & Hx & _ & Hs).
  exists (retoken ([] ++ parts)). split; [done|].
  assert (0 ≤ slen p) by (unfold slen; lia).
  assert (0 ≤ slen p / maxBytes) by (apply Z.div_pos; lia).
  assert (lim' = lim) as ->.
  { unfold metrics_lim in Hl. rewrite go_quot_nonzero, bind_ret_l in Hl by lia.
    rewrite Z.quot_div_nonneg in Hl by lia. rewrite go_quot_nonzero, bind_ret_l in Hl by lia.
    rewrite count_services_sum in Hl. cbn in Hl. rewrite app_nil_r in Hl.
    rewrite Z.quot_div_nonneg in Hl by lia. by injection Hl as <-. }
  assert (services_of (retoken ([] ++ parts)) = take (Z.to_nat (lim * (n / lim))) (mr_Services r)) as Hr.
  { rewrite Hs. cbn. unfold kept. by rewrite app_nil_r, Z.add_0_l, Z.sub_0_r. }
  split; [done|]. intros Hb Hn. rewrite Hr, length_take.
  assert (slen p / maxBytes = 1) as Hd by (symmetry; apply (Z.div_unique _ _ _ (slen p - maxBytes)); lia).
  unfold lim. rewrite Hd, Hn. change (3 / (1 + 1) + 1) with 2. change (2 * (3 / 2)) with 2. lia.
Qed.

Lemma xxl2qq_loses_witness :
  ∃ qq, xxl2qq (C := table_codec [three_services]) [] "000" 2 = Ret qq ∧
    length (services_of qq) = 2%nat.
Proof.
  destruct (xxl2qq_loses (C := table_codec [three_services]) "000" zero_Context
    (sample_resource HostUnchanged (sample_service <$> ["a"; "b"; "c"]%string)) [] 2)
    as (qq & H1 & _ & H2); [reflexivity|vm_compute; reflexivity|].
  exists qq. split; [exact H1|]. apply H2; [split; [discriminate|reflexivity]|reflexivity].
Defined.

(** C4: Without oversized payloads [Build] loses no resource and keeps their
    order, and a payload with a status (any host not [HOST_UNCHANGED]) is sent on
    its own: every batched request with a status is one of the payloads. *)
Theorem MetricsBatchBuilder_combines {C : JsonCodec ResourcesWithServicesRequest} `{MapOrder}
    (buf : list string) (maxBytes : Z) :
  Forall (λ p, slen p ≤ maxBytes) buf →
  ∃ qq, accumulate buf maxBytes = Ret qq ∧
    MetricsBatchBuilder buf maxBytes = Ret (marshal_all (pack_request <$> qq)) ∧
    resources_of (pack_request <$> qq) = resources_of (decode_all buf) ∧
    Forall (λ x, hasStatus x = true → x ∈ decode_all buf) qq.
Proof.
  intros Hb.
  destruct (foldM_Build_step_inv maxBytes buf [] (mkAcc 0 zero_Request []) Hb)
    as (a & Ha & Hr & Hs & Hf); [by split_and!|].
  eexists. unfold MetricsBatchBuilder, accumulate. rewrite Ha, bind_ret_l.
  split; [done|]. rewrite bind_ret_l. split; [done|].
  assert (∀ l, resources_of (pack_request <$> l) = resources_of l) as Hpack.
  { intros l. induction l as [|x l IH]; [done|]. cbn. f_equal. apply IH. }
  rewrite Hpack. cbn [app] in *. destruct (rq_Resources (acc_bq a)) eqn:E.
  - rewrite app_nil_r in Hr. done.
  - rewrite resources_of_app, resources_of_one, E. split; [done|].
    apply Forall_app. split; [done|]. apply Forall_singleton. by rewrite Hs.
Qed.

Lemma MetricsBatchBuilder_combines_witness :
  ∃ qq, accumulate (C := table_codec [three_services]) ["0"; "0"]%string 1000 = Ret qq ∧
    resources_of (pack_request (H := sorted_order) <$> qq) =
      rq_Resources three_services ++ rq_Resources three_services.
Proof.
  destruct (@MetricsBatchBuilder_combines (table_codec [three_services]) sorted_order ["0"; "0"]%string 1000)
    as (qq & H1 & _ & H2 & _); [repeat constructor; discriminate|].
  exists qq. split; [exact H1|exact H2].
Defined.

(** [packGroups] keeps one group per key [type:name] of the input and merges
    the resources: a reference is in the packed group exactly when it is the last
    one with its key [type:name] among the groups of that key, so that no key
    occurs twice.  The first group of a key gives the description. *)
Theorem packGroups_spec `{MapOrder} (gs : list ResourceGroup) :
  NoDup (group_key <$> packGroups gs) ∧
  (∀ k, k ∈ group_key <$> packGroups gs ↔ k ∈ group_key <$> gs) ∧
  (∀ o, o ∈ packGroups gs →
    (∀ r, r ∈ rg_Resources o ↔
      add_refs ∅ (refs_of (same_key (group_key o) gs)) !! ref_key r = Some r) ∧
    NoDup (ref_key <$> rg_Resources o) ∧
    rg_Description <$> head (same_key (group_key o) gs) = Some (rg_Description o)).
Proof.
  rewrite pack_keys. split_and!.
  - apply NoDup_map_order.
  - intros k. rewrite list_elem_of_fmap, <-same_key_nonempty. split.
    + intros ([k' rg] & -> & Hin%elem_of_map_order). rewrite foldl_pack_group in Hin.
      cbn [fst]. by destruct (same_key k' gs).
    + intros Hn. pose proof (foldl_pack_group gs k) as Hk. destruct (same_key k gs) as [|g l]; [done|].
      apply elem_of_map_order in Hk. by exists (k, mkRG g (add_refs ∅ (refs_of (g :: l)))).
  - intros o Ho. rewrite packGroups_eq in Ho.
    apply list_elem_of_fmap in Ho as ([k rg] & -> & Hin). cbn [snd].
    rewrite (unpack_resources gs k rg Hin). destruct (pack_entry gs k rg Hin) as (-> & Hr & ->).
    set (m := add_refs ∅ (refs_of (same_key k gs))).
    assert (∀ k r, m !! k = Some r → ref_key r = k) as Hkeys.
    { intros k' r. apply add_refs_keys. intros ? ? Hm. by rewrite lookup_empty in Hm. }
    split_and!.
    + intros r. rewrite list_elem_of_fmap. split.
      * intros ([k' r'] & -> & Hm%elem_of_map_order). cbn [snd]. by rewrite (Hkeys _ _ Hm).
      * intros Hm%elem_of_map_order. by exists (ref_key r, r).
    + rewrite <-list_fmap_compose.
      rewrite (list_fmap_ext _ fst (map_order m)); [apply NoDup_map_order|].
      intros i [k' r'] Hi%list_elem_of_lookup_2%elem_of_map_order. exact (Hkeys _ _ Hi).
    + cbn. f_equal. unfold unpack. by case_decide.
Qed.

