(* ===== verification/TaskQueue.v ===== *)
(** taskqueue/taskqueue.go: a bounded queue of tasks run one by one by a worker
    goroutine, with a ring buffer of the last accepted tasks for debugging. *)

From S2P Require Import Prelude GoString Errors.

Local Open Scope Z_scope.

Definition defaultCapacity : Z := 8.

Definition ErrTaskQueue : error := Named "ErrTaskQueue" "task queue error" None.
Definition ErrTaskQueueCapacity : error :=
  Named "ErrTaskQueueCapacity" "task queue error: capacity is exhausted" (Some ErrTaskQueue).
Definition ErrTaskQueueUndefined : error :=
  Named "ErrTaskQueueUndefined" "task queue error: undefined" (Some ErrTaskQueue).

Section queue.
(** The subject is the key of the handlers map; [Arg] is the type of arguments. *)
Context {Subject : Type} `{EqDecision Subject} {Arg : Type}.
Context (subject_text : Subject → string).

Record Task := mkTask { Args : list Arg; Idx : Z; subject : Subject }.

(** A handler returns an error or [nil]; a panic of a handler ends the program. *)
Definition Handler := Task → option error.

(** [queue] is the buffered channel, [ring] the ring buffer read from its current
    element (the oldest), [None] being the [nil] value of a fresh element. *)
Record TaskQueue := mkTaskQueue {
  capacity : Z;
  handlers : list (Subject * Handler);
  idx : Z;
  queue : list Task;
  ring : list (option Task);
}.

Definition handler_of (q : TaskQueue) (s : Subject) : option Handler :=
  snd <$> head (filter (λ p, p.1 = s) (handlers q)).

Definition is_defined (q : TaskQueue) (s : Subject) : bool :=
  match handler_of q s with Some _ => true | None => false end.

(** ** Construction: the options in order, then the ring and the channel *)

Inductive TaskQueueOption :=
| WithCapacity (c : Z)
| WithHandlers (m : list (Subject * Handler)).

Definition apply_option (q : TaskQueue) (o : TaskQueueOption) : TaskQueue :=
  match o with
  | WithCapacity c => mkTaskQueue (uint8 c) (handlers q) (idx q) (queue q) (ring q)
  | WithHandlers m => mkTaskQueue (capacity q) m (idx q) (queue q) (ring q)
  end.

Definition NewTaskQueue (opts : list TaskQueueOption) : TaskQueue :=
  let q := foldl apply_option (mkTaskQueue defaultCapacity [] 0 [] []) opts in
  mkTaskQueue (capacity q) (handlers q) (idx q) [] (replicate (Z.to_nat (capacity q)) None).

(** ** [PushAsync], in two parts: the task is made from the index read outside
    of the lock, then put into the queue under the lock. *)

Definition new_task (q : TaskQueue) (s : Subject) (args : list Arg) : result error Task :=
  if is_defined q s then Val (mkTask args (uint8 (idx q + 1)) s)
  else Fail (Errorf_w ErrTaskQueueUndefined (subject_text s)).

(** [idle] says that the worker waits on the channel: an unbuffered send to it
    succeeds.  A queue of capacity 0 has a nil ring, which panics. *)
Definition push_locked (idle : bool) (q : TaskQueue) (t : Task)
  : outcome (TaskQueue * option error) :=
  if bool_decide (Z.of_nat (length (queue q)) < capacity q) || (bool_decide (capacity q = 0) && idle) then
    match ring q with
    | [] => Panic "invalid memory address or nil pointer dereference"
    | _ :: r =>
        Ret (mkTaskQueue (capacity q) (handlers q) (if decide (254 < Idx t) then 0 else Idx t)
               (queue q ++ [t]) (r ++ [Some t]), None)
    end
  else Ret (q, Some (Errorf_w ErrTaskQueueCapacity (FormatInt (capacity q)))).

Definition PushAsync (idle : bool) (q : TaskQueue) (s : Subject) (args : list Arg)
  : outcome (TaskQueue * result error Task) :=
  match new_task q s args with
  | Fail e => Ret (q, Fail e)
  | Val t =>
      '(q', e) ← push_locked idle q t;
      Ret (q', match e with Some e => Fail e | None => Val t end)
  end.

(** What the debugger gets when the queue is full. *)
Definition lastTasks (q : TaskQueue) : list Task := omap id (ring q).

(** The error of one task run by the worker; a missing handler is a nil call. *)
Definition run_task (q : TaskQueue) (t : Task) : outcome (option error) :=
  h ← deref (handler_of q (subject t)); Ret (h t).

(** ** Concurrent behaviour

    [pending] are the tasks of callers between the two parts of [PushAsync],
    [running] the task of the worker; the rest is history. *)
Record system := mkSystem {
  tq : TaskQueue;
  pending : list Task;
  running : option Task;
  finished : list (Task * option error);
  accepted : list Task;
  rejected : list Task;
}.

Definition is_idle (s : system) : bool := match running s with None => true | Some _ => false end.

Inductive step : system → system → Prop :=
| step_call s su args t :
    new_task (tq s) su args = Val t →
    step s (mkSystem (tq s) (pending s ++ [t]) (running s) (finished s) (accepted s) (rejected s))
| step_push s l t r q' :
    pending s = l ++ t :: r → push_locked (is_idle s) (tq s) t = Ret (q', None) →
    step s (mkSystem q' (l ++ r) (running s) (finished s) (accepted s ++ [t]) (rejected s))
| step_reject s l t r q' e :
    pending s = l ++ t :: r → push_locked (is_idle s) (tq s) t = Ret (q', Some e) →
    step s (mkSystem q' (l ++ r) (running s) (finished s) (accepted s) (rejected s ++ [t]))
| step_start s t l :
    running s = None → queue (tq s) = t :: l →
    step s (mkSystem (mkTaskQueue (capacity (tq s)) (handlers (tq s)) (idx (tq s)) l (ring (tq s)))
              (pending s) (Some t) (finished s) (accepted s) (rejected s))
| step_finish s t e :
    running s = Some t → run_task (tq s) t = Ret e →
    step s (mkSystem (tq s) (pending s) None (finished s ++ [(t, e)]) (accepted s) (rejected s)).

Definition initial (opts : list TaskQueueOption) : system :=
  mkSystem (NewTaskQueue opts) [] None [] [] [].

Definition reachable (opts : list TaskQueueOption) : system → Prop := rtc step (initial opts).

(** ** Lemmas *)

Definition running_list (s : system) : list Task := match running s with Some t => [t] | None => [] end.

Definition last_n (n : nat) (l : list Task) : list Task := drop (length l - n) l.

Record inv (s : system) : Prop := {
  inv_bound : Z.of_nat (length (queue (tq s))) ≤ capacity (tq s);
  inv_idx : 0 ≤ idx (tq s) ≤ 254;
  inv_tasks : Forall (λ t, 1 ≤ Idx t ≤ 255 ∧ is_defined (tq s) (subject t) = true) (pending s);
  inv_accepted : Forall (λ t, 1 ≤ Idx t ≤ 255 ∧ is_defined (tq s) (subject t) = true) (accepted s);
  inv_fifo : accepted s = (finished s).*1 ++ running_list s ++ queue (tq s);
  inv_ring : ring (tq s) = replicate (Z.to_nat (capacity (tq s)) - length (accepted s)) None ++
               (Some <$> last_n (Z.to_nat (capacity (tq s))) (accepted s));
}.

Lemma NewTaskQueue_capacity opts : 0 ≤ capacity (NewTaskQueue opts).
Proof.
  unfold NewTaskQueue. cbn [capacity].
  enough (∀ q, 0 ≤ capacity q → 0 ≤ capacity (foldl apply_option q opts)) as H by (apply H; done).
  induction opts as [|[c|m] opts IH]; intros q Hq; [done| |]; apply IH; [|done].
  cbn. unfold uint8, uwrap. apply Z.mod_pos_bound. done.
Qed.

Lemma inv_initial opts : inv (initial opts).
Proof.
  split; cbn; try done.
  - apply (NewTaskQueue_capacity opts).
  - enough (∀ q, idx q = 0 → idx (foldl apply_option q opts) = 0) as H by (rewrite H; done).
    induction opts as [|[c|m] opts IH]; intros q Hq; [done|apply IH; done..].
  - by rewrite app_nil_r, Nat.sub_0_r.
Qed.

Lemma push_locked_cases idle q t q' e :
  push_locked idle q t = Ret (q', e) →
  capacity q' = capacity q ∧ handlers q' = handlers q ∧
  ((e = None ∧ Z.of_nat (length (queue q)) < capacity q ∧ queue q' = queue q ++ [t] ∧
    idx q' = (if decide (254 < Idx t) then 0 else Idx t) ∧ ∃ x r, ring q = x :: r ∧ ring q' = r ++ [Some t])
   ∨ (is_Some e ∧ q' = q ∧ capacity q ≤ Z.of_nat (length (queue q)))
   ∨ (e = None ∧ capacity q = 0 ∧ ring q ≠ [])).
Proof.
  unfold push_locked. destruct (bool_decide_reflect (Z.of_nat (length (queue q)) < capacity q)) as [Hlt|Hge];
    cbn [orb].
  - destruct (ring q) as [|x r] eqn:Hr; [done|]. intros [= <- <-]. cbn.
    split_and!; [done|done|]. left. split_and!; try done. by exists x, r.
  - destruct (bool_decide (capacity q = 0) && idle) eqn:Hz.
    + apply andb_true_iff in Hz as [Hz _]. apply bool_decide_eq_true in Hz.
      destruct (ring q) as [|x r] eqn:Hr; [done|]. intros [= <- <-]. cbn.
      split_and!; [done|done|]. right. right. done.
    + intros [= <- <-]. split_and!; [done|done|]. right. left. split_and!; [by eexists|done|lia].
Qed.

Lemma last_n_push n l (t : Task) x r :
  replicate (n - length l) None ++ (Some <$> last_n n l) = x :: r →
  r ++ [Some t] = replicate (n - length (l ++ [t])) None ++ (Some <$> last_n n (l ++ [t])).
Proof.
  unfold last_n. rewrite length_app. cbn [length]. intros Hr.
  destruct (decide (length l < n)%nat) as [Hlt|Hge].
  - replace (n - length l)%nat with (S (n - (length l + 1))) in Hr by lia.
    cbn [replicate app] in Hr. injection Hr as <- <-.
    replace (length l - n)%nat with 0%nat by lia.
    replace (length l + 1 - n)%nat with 0%nat by lia.
    rewrite !drop_0, fmap_app. by rewrite <-(assoc_L (++)).
  - replace (n - length l)%nat with 0%nat in Hr by lia.
    replace (n - (length l + 1))%nat with 0%nat by lia. cbn [replicate app] in *.
    destruct (drop (length l - n) l) as [|y k] eqn:Hd; [done|]. injection Hr as <- <-.
    rewrite drop_app_le.
    + replace (length l + 1 - n)%nat with (S (length l - n)) by
        (pose proof (f_equal length Hd) as Hl; rewrite length_drop in Hl; cbn in Hl; lia).
      rewrite <-Nat.add_1_r, <-drop_drop, Hd. cbn. by rewrite fmap_app.
    + pose proof (f_equal length Hd) as Hl. rewrite length_drop in Hl. cbn in Hl. lia.
Qed.

Lemma inv_step s s' : inv s → step s s' → inv s'.
Proof.
  intros [Hb Hi Hp Ha Hf Hr] Hs. destruct Hs as [s su args t Hn|s l t r q' Hpe Hpush|
    s l t r q' e Hpe Hpush|s t l Hrun Hq|s t e Hrun He].
  - split; try done. cbn. apply Forall_app. split; [done|]. apply Forall_singleton.
    unfold new_task in Hn. destruct (is_defined (tq s) su) eqn:Hd; [|done]. injection Hn as <-.
    cbn. split; [|done]. unfold uint8, uwrap. rewrite Z.mod_small; lia.
  - rewrite Hpe in Hp. apply Forall_app in Hp as [Hp1 Hp2]. apply Forall_cons in Hp2 as [Ht Hp2].
    apply push_locked_cases in Hpush as (Hc & Hh & [(_ & Hlt & Hq & Hidx & x & r' & Hr1 & Hr2)|
      [([? ?] & _)|(_ & Hz & Hne)]]); [|done|].
    2:{ exfalso. apply Hne. rewrite Hr, Hz. cbn. unfold last_n. by rewrite Nat.sub_0_r, drop_all. }
    assert (∀ su, is_defined q' su = is_defined (tq s) su) as Hdef
      by (intros su; unfold is_defined, handler_of; by rewrite Hh).
    split; cbn.
    + rewrite Hq, Hc, length_app. cbn. lia.
    + rewrite Hidx. case_decide; lia.
    + apply Forall_app. split; (eapply Forall_impl; [eassumption|]); intros ?; by rewrite Hdef.
    + apply Forall_app. split; [eapply Forall_impl; [eassumption|]; intros ?; by rewrite Hdef|].
      apply Forall_singleton. by rewrite Hdef.
    + rewrite Hf, Hq. unfold running_list. cbn. by rewrite !(assoc_L (++)).
    + rewrite Hr2, Hc. rewrite Hr in Hr1. exact (last_n_push _ _ t _ _ Hr1).
  - rewrite Hpe in Hp. apply Forall_app in Hp as [Hp1 Hp2]. apply Forall_cons in Hp2 as [Ht Hp2].
    apply push_locked_cases in Hpush as (Hc & Hh & [(? & _)|[(_ & -> & _)|(? & _)]]); try done.
    split; try done. cbn. by apply Forall_app.
  - split; try done; cbn; [rewrite Hq in Hb; cbn in Hb; lia|].
    rewrite Hf, Hq. unfold running_list. by rewrite Hrun.
  - split; try done. cbn. rewrite Hf. unfold running_list. cbn. rewrite Hrun.
    rewrite fmap_app. cbn. by rewrite <-(assoc_L (++)).
Qed.

Lemma reachable_inv opts s : reachable opts s → inv s.
Proof.
  intros Hr. unfold reachable in Hr. remember (initial opts) as s0 eqn:E.
  assert (inv s0) as Hi by (subst; apply inv_initial). clear E.
  induction Hr; eauto using inv_step.
Qed.

(** ** Properties *)

(** C14: In every interleaving of callers and worker: the queue never holds more
    than [capacity] tasks; the tasks finished, running and queued are the
    accepted tasks in the order of acceptance, so each accepted task runs exactly
    once, in order, and only for subjects that have a handler (the worker never
    calls a nil handler); every index lies in 1..255; and the debugger sees the
    last [capacity] accepted tasks in order. *)
Theorem TaskQueue_fifo (opts : list TaskQueueOption) (s : system) :
  reachable opts s →
  Z.of_nat (length (queue (tq s))) ≤ capacity (tq s) ∧
  accepted s = (finished s).*1 ++ running_list s ++ queue (tq s) ∧
  Forall (λ t, 1 ≤ Idx t ≤ 255) (accepted s) ∧
  Forall (λ t, is_ret (run_task (tq s) t) = true) (accepted s) ∧
  lastTasks (tq s) = last_n (Z.to_nat (capacity (tq s))) (accepted s).
Proof.
  intros Hr. destruct (reachable_inv opts s Hr) as [Hb _ _ Ha Hf Hg].
  split_and!; [done|done| | |].
  - eapply Forall_impl; [exact Ha|]. by intros t [? _].
  - eapply Forall_impl; [exact Ha|]. intros t [_ Hd]. unfold run_task, is_defined in *.
    by destruct (handler_of (tq s) (subject t)).
  - unfold lastTasks. rewrite Hg, omap_app.
    enough (∀ n l, omap id (replicate n (@None Task)) ++ omap id (Some <$> l) = l) as H by apply H.
    intros n l. assert (omap id (replicate n (@None Task)) = []) as -> by by induction n.
    cbn [app]. induction l as [|t l IH]; [done|]. cbn. by rewrite IH.
Qed.

(** [PushAsync] accepts a task exactly when the subject has a handler and
    the channel has room, and otherwise returns an error that [errors.Is]
    recognises as [ErrTaskQueueUndefined] or [ErrTaskQueueCapacity] (both are
    [ErrTaskQueue]) and leaves the queue as it was; calls one after another get
    the indices 1, 2, ..., 255, 1, ... in turn. *)
Theorem PushAsync_result (opts : list TaskQueueOption) (s : system) (su : Subject) (args : list Arg) :
  reachable opts s → 0 < capacity (tq s) →
  ∃ q' r, PushAsync (is_idle s) (tq s) su args = Ret (q', r) ∧
    match r with
    | Val t => is_defined (tq s) su = true ∧ Z.of_nat (length (queue (tq s))) < capacity (tq s) ∧
        queue q' = queue (tq s) ++ [t] ∧ Idx t = idx (tq s) + 1 ∧
        idx q' = (idx (tq s) + 1) `mod` 255
    | Fail e => q' = tq s ∧ Is e (tgt ErrTaskQueue) = true ∧
        ((is_defined (tq s) su = false ∧ Is e (tgt ErrTaskQueueUndefined) = true) ∨
         (capacity (tq s) ≤ Z.of_nat (length (queue (tq s))) ∧ Is e (tgt ErrTaskQueueCapacity) = true))
    end.
Proof.
  intros Hr Hc. destruct (reachable_inv opts s Hr) as [Hb Hi _ _ _ Hg].
  unfold PushAsync, new_task. destruct (is_defined (tq s) su) eqn:Hd.
  2:{ do 2 eexists. split; [done|]. split_and!; [done|done|]. left. by split. }
  unfold push_locked. destruct (bool_decide_reflect (Z.of_nat (length (queue (tq s))) < capacity (tq s)))
    as [Hlt|Hge]; cbn [orb].
  - assert (length (ring (tq s)) = Z.to_nat (capacity (tq s))) as Hl.
    { rewrite Hg, length_app, length_replicate, length_fmap. unfold last_n. rewrite length_drop. lia. }
    destruct (ring (tq s)) as [|x r]; [cbn in Hl; lia|].
    do 2 eexists. rewrite bind_ret_l. split; [done|]. cbn.
    assert (uint8 (idx (tq s) + 1) = idx (tq s) + 1) as Hu by (unfold uint8, uwrap; apply Z.mod_small; lia).
    rewrite Hu. split_and!; try done. case_decide as Hid.
    + by replace (idx (tq s) + 1) with 255 by lia.
    + rewrite Z.mod_small; lia.
  - assert (bool_decide (capacity (tq s) = 0) = false) as -> by (apply bool_decide_eq_false; lia).
    cbn [andb]. do 2 eexists. rewrite bind_ret_l. split; [done|]. split_and!; [done|done|].
    right. split; [lia|done].
Qed.

(** The index is read outside of the lock: two concurrent calls can be
    accepted with the same index. *)
Theorem PushAsync_duplicate_idx (c : Z) (m : list (Subject * Handler)) (su : Subject) (a b : list Arg) :
  2 ≤ c ≤ 255 → is_defined (NewTaskQueue [WithCapacity c; WithHandlers m]) su = true →
  ∃ s t1 t2, reachable [WithCapacity c; WithHandlers m] s ∧
    queue (tq s) = [t1; t2] ∧ Args t1 = a ∧ Args t2 = b ∧ Idx t1 = Idx t2.
Proof.
  intros Hc Hd.
  assert (uint8 c = c) as Hu by (unfold uint8, uwrap; apply Z.mod_small; lia).
  assert (∃ n, Z.to_nat c = S (S n)) as [n Hn] by (exists (Z.to_nat c - 2)%nat; lia).
  set (q0 := NewTaskQueue [WithCapacity c; WithHandlers m]) in *.
  assert (q0 = mkTaskQueue c m 0 [] (replicate (S (S n)) None)) as Hq0.
  { unfold q0, NewTaskQueue. cbn. by rewrite Hu, Hn. }
  eexists _, (mkTask a 1 su), (mkTask b 1 su). split.
  - unfold reachable.
    eapply rtc_l. { apply (step_call _ su a (mkTask a 1 su)). unfold new_task. cbn [tq initial]. fold q0. by rewrite Hd, Hq0. }
    eapply rtc_l. { apply (step_call _ su b (mkTask b 1 su)). unfold new_task. cbn [tq initial]. fold q0. by rewrite Hd, Hq0. }
    cbn [initial tq pending running finished accepted rejected app]. fold q0. rewrite Hq0.
    eapply rtc_l. { eapply (step_push _ [] _ [_]); [done|]. unfold push_locked. cbn.
      rewrite bool_decide_eq_true_2 by lia. done. }
    eapply rtc_l. { eapply (step_push _ [] _ []); [done|]. unfold push_locked. cbn.
      rewrite bool_decide_eq_true_2 by lia. done. }
    apply rtc_refl.
  - done.
Qed.
(** *** Tasks come to an end

    A run counts the worker's turns (taking a task from the channel, finishing its
    handler); callers and worker interleave in any other way. *)

Inductive worker_step : system → system → Prop :=
| work_start s t l :
    running s = None → queue (tq s) = t :: l →
    worker_step s (mkSystem (mkTaskQueue (capacity (tq s)) (handlers (tq s)) (idx (tq s)) l (ring (tq s)))
                     (pending s) (Some t) (finished s) (accepted s) (rejected s))
| work_finish s t e :
    running s = Some t → run_task (tq s) t = Ret e →
    worker_step s (mkSystem (tq s) (pending s) None (finished s ++ [(t, e)]) (accepted s) (rejected s)).

Inductive turns : nat → system → system → Prop :=
| turns_done s : turns 0 s s
| turns_step n s s1 s' : step s s1 → turns n s1 s' → turns n s s'
| turns_work n s s1 s' : worker_step s s1 → turns n s1 s' → turns (S n) s s'.

(** The turns the worker has had. *)
Definition progress (s : system) : nat := 2 * length (finished s) + length (running_list s).

Lemma worker_step_step s s' : worker_step s s' → step s s'.
Proof. destruct 1; by econstructor. Qed.

Lemma worker_step_progress s s' : worker_step s s' → progress s' = S (progress s).
Proof.
  destruct 1 as [s t l Hr Hq|s t e Hr He]; unfold progress, running_list; cbn; rewrite Hr; cbn.
  - lia.
  - rewrite length_app. cbn. lia.
Qed.

(** What a step keeps: the history grows at its end, and the handlers stay. *)
Lemma step_grows s s' :
  step s s' → (progress s ≤ progress s')%nat ∧ handlers (tq s') = handlers (tq s) ∧
  accepted s `prefix_of` accepted s' ∧ finished s `prefix_of` finished s'.
Proof.
  intros Hs. destruct Hs as [s su args t Hn|s l t r q' Hpe Hp|s l t r q' e Hpe Hp|s t l Hr Hq|s t e Hr He];
    unfold progress, running_list; cbn; try (apply push_locked_cases in Hp as (_ & Hh & _)).
  - done.
  - split_and!; [done|done|by apply prefix_app_r|done].
  - done.
  - rewrite Hr. cbn. split_and!; [lia|done..].
  - rewrite Hr, length_app. cbn. split_and!; [lia|done|done|by apply prefix_app_r].
Qed.

Lemma turns_grow n s s' :
  turns n s s' → rtc step s s' ∧ (n + progress s ≤ progress s')%nat ∧ accepted s `prefix_of` accepted s'.
Proof.
  induction 1 as [s|n s s1 s' Hs _ (IH1 & IH2 & IH3)|n s s1 s' Hw _ (IH1 & IH2 & IH3)]; [by split_and!; [|lia|]| |].
  - destruct (step_grows _ _ Hs) as (Hp & _ & Ha & _). split_and!; [by eapply rtc_l|lia|by etrans].
  - pose proof (worker_step_progress _ _ Hw) as Hp. pose proof (worker_step_step _ _ Hw) as Hs.
    destruct (step_grows _ _ Hs) as (_ & _ & Ha & _). split_and!; [by eapply rtc_l|lia|by etrans].
Qed.

(** A finished task has the result of its handler. *)
Lemma finished_results opts s : reachable opts s → Forall (λ p, run_task (tq s) p.1 = Ret p.2) (finished s).
Proof.
  intros Hr. unfold reachable in Hr. remember (initial opts) as s0 eqn:E.
  assert (Forall (λ p, run_task (tq s0) p.1 = Ret p.2) (finished s0)) as H0 by (by subst).
  clear E. induction Hr as [s|s s1 s2 Hs _ IH]; [done|]. apply IH. clear IH.
  destruct (step_grows _ _ Hs) as (_ & Hh & _).
  assert (∀ t, run_task (tq s1) t = run_task (tq s) t) as He.
  { intros t. unfold run_task, handler_of. by rewrite Hh. }
  assert (Forall (λ p, run_task (tq s1) p.1 = Ret p.2) (finished s)) as H1
    by (eapply Forall_impl; [exact H0|]; intros p Hp; cbn; by rewrite He).
  destruct Hs as [| | | |s t e Hrun Ht]; [done..|]. apply Forall_app. split; [done|]. by repeat constructor.
Qed.

(** C15: An accepted task finishes: in every run in which the worker has its turns, whatever
    callers do meanwhile, twice as many turns as there are tasks up to this one are
    enough, and the task's result, which a synchronous caller waits for, is the error
    of its handler.  The worker never waits while the task is unfinished. *)
Theorem accepted_task_finishes (opts : list TaskQueueOption) (s : system) (before after : list Task) (t : Task) :
  reachable opts s → accepted s = before ++ t :: after →
  (∀ n s', turns n s s' → (2 * S (length before) ≤ n + progress s)%nat →
    ∃ e, finished s' !! length before = Some (t, e) ∧ run_task (tq s') t = Ret e) ∧
  (finished s !! length before = None → ∃ s', worker_step s s').
Proof.
  intros Hr Ha. split.
  - intros n s' Ht Hn. destruct (turns_grow _ _ _ Ht) as (Hss & Hp & [more Hm]).
    assert (reachable opts s') as Hr' by (unfold reachable in *; by etrans).
    destruct (reachable_inv _ _ Hr') as [_ _ _ _ Hf _].
    assert (length before < length (finished s'))%nat as Hlt.
    { unfold progress in *. assert (length (running_list s') ≤ 1)%nat by (unfold running_list; destruct (running s'); cbn; lia). lia. }
    destruct (lookup_lt_is_Some_2 _ _ Hlt) as [[t' e] Hl]. exists e.
    assert (accepted s' !! length before = Some t') as Ht'.
    { rewrite Hf. apply lookup_app_l_Some. by rewrite list_lookup_fmap, Hl. }
    rewrite Hm, Ha, <-(assoc_L (++)) in Ht'. cbn [app] in Ht'. rewrite list_lookup_middle in Ht' by done. injection Ht' as <-. split; [done|].
    pose proof (finished_results _ _ Hr') as Hres. rewrite Forall_lookup in Hres. by apply (Hres _ _ Hl).
  - intros Hnone. destruct (reachable_inv _ _ Hr) as [_ _ _ Hacc Hf _].
    apply lookup_ge_None in Hnone. pose proof (f_equal length Hf) as Hlen.
    rewrite !length_app, length_fmap, Ha, length_app in Hlen. cbn in Hlen.
    unfold running_list in *. destruct (running s) as [u|] eqn:Hrun.
    + assert (is_defined (tq s) (subject u) = true) as Hd.
      { rewrite Hf in Hacc. rewrite Forall_forall in Hacc. apply (Hacc u). set_solver. }
      assert (∃ e, run_task (tq s) u = Ret e) as [e He].
      { unfold run_task, is_defined in *. destruct (handler_of (tq s) (subject u)); [by eexists|done]. }
      eexists. by eapply work_finish.
    + destruct (queue (tq s)) as [|u l] eqn:Hq; [cbn in Hlen; lia|]. eexists. by eapply work_start.
Qed.
End queue.
Arguments Task : clear implicits.
Arguments TaskQueue : clear implicits.
Arguments system : clear implicits.

Definition two_handlers : list (string * @Handler string string) :=
  [("a"%string, λ _, None); ("b"%string, λ _, None)].

Lemma TaskQueue_fifo_witness :
  reachable id [WithCapacity 2; WithHandlers two_handlers] (initial [WithCapacity 2; WithHandlers two_handlers]) ∧
  Z.of_nat (length (queue (tq (initial [WithCapacity 2; WithHandlers two_handlers])))) ≤ 2.
Proof.
  assert (reachable id [WithCapacity 2; WithHandlers two_handlers]
    (initial [WithCapacity 2; WithHandlers two_handlers])) as H by apply rtc_refl.
  split; [exact H|]. apply (TaskQueue_fifo id _ _ H).
Defined.

Lemma PushAsync_result_witness :
  ∃ q' r, PushAsync id true (NewTaskQueue [WithCapacity 2; WithHandlers two_handlers]) "a"%string [] = Ret (q', r).
Proof.
  destruct (PushAsync_result id [WithCapacity 2; WithHandlers two_handlers]
    (initial [WithCapacity 2; WithHandlers two_handlers]) "a"%string []) as (q' & r & H & _).
  - apply rtc_refl.
  - reflexivity.
  - exists q', r. exact H.
Defined.

Lemma PushAsync_duplicate_idx_witness :
  ∃ s t1 t2, reachable id [WithCapacity 8; WithHandlers two_handlers] s ∧
    queue (tq s) = [t1; t2] ∧ Args t1 = ["x"%string] ∧ Args t2 = ["y"%string] ∧ Idx t1 = Idx t2.
Proof.
  apply (PushAsync_duplicate_idx id 8 two_handlers "a"%string ["x"%string] ["y"%string]).
  - lia.
  - reflexivity.
Defined.

Lemma accepted_task_finishes_witness :
  let t := mkTask [] 1 "a"%string in
  let q := NewTaskQueue [WithHandlers two_handlers] in
  let q' := mkTaskQueue 8 (handlers q) 1 [t] (replicate 7 None ++ [Some t]) in
  let s := mkSystem q' [] None [] [t] [] in
  let s' := mkSystem (mkTaskQueue 8 (handlers q) 1 [] (replicate 7 None ++ [Some t])) [] None [(t, None)] [t] [] in
  reachable id [WithHandlers two_handlers] s ∧ turns id 2 s s' ∧ finished s' !! 0%nat = Some (t, None).
Proof.
  intros t q q' s s'.
  assert (reachable id [WithHandlers two_handlers] s) as Hr.
  { eapply rtc_l; [apply (step_call id (initial [WithHandlers two_handlers]) "a"%string [] t); reflexivity|].
    eapply rtc_l; [apply (step_push _ _ [] t [] q'); reflexivity|]. apply rtc_refl. }
  assert (turns id 2 s s') as Ht.
  { eapply turns_work; [apply (work_start s t []); reflexivity|].
    eapply turns_work; [eapply (work_finish _ t None); reflexivity|]. apply turns_done. }
  split; [exact Hr|]. split; [exact Ht|].
  destruct (proj1 (accepted_task_finishes id [WithHandlers two_handlers] s [] [] t Hr eq_refl) 2%nat s' Ht) as (e & He & _).
  - vm_compute. lia.
  - assert (Some (t, None) = Some (t, e)) as Heq by exact He. injection Heq as <-. exact He.
Defined.
