(* ===== verification/Payload.v ===== *)
(** services/services.go, the wrapped NATS payload: [payloadType] and the two
    formats of [natsPayload], the binary version 1 and the JSON version 2. *)

From S2P Require Import Prelude GoString Errors.

Local Open Scope string_scope.

(** ** Payload types *)

(** [payloadType] is a byte; the constants count from 1. *)
Definition payloadType := Z.
Definition typeEvents : payloadType := 1%Z.
Definition typeEventsAck : payloadType := 2%Z.
Definition typeEventsUnack : payloadType := 3%Z.
Definition typeInventory : payloadType := 4%Z.
Definition typeMetrics : payloadType := 5%Z.
Definition typeClearInDowntime : payloadType := 6%Z.
Definition typeSetInDowntime : payloadType := 7%Z.

Definition all_types : list string :=
  ["undefined"; "events"; "eventsAck"; "eventsUnack"; "inventory"; "metrics";
   "clearInDowntime"; "setInDowntime"].

(** [payloadType.String]: an index out of range panics. *)
Definition payloadType_String (t : payloadType) : outcome string :=
  match all_types !! Z.to_nat t with
  | Some s => if decide (0 ≤ t)%Z then Ret s else Panic "index out of range"
  | None => Panic "index out of range"
  end.

Definition FromStr (s : string) : result error payloadType :=
  match list_find (λ v, s = v) all_types with
  | Some (i, _) => Val (Z.of_nat i)
  | None => Fail (Opaque "unknown payload type")
  end.

(** ** Span contexts

    The identifiers are byte arrays of 8 and 16 bytes, the flags a byte. *)
Record SpanContext := mkSpanContext {
  SpanID : string;
  TraceID : string;
  TraceFlags : ascii;
}.

Definition zero_bytes (n : nat) : string := String.string_of_list_ascii (replicate n "000"%char).

Definition zero_SpanContext : SpanContext := mkSpanContext (zero_bytes 8) (zero_bytes 16) "000"%char.

Definition span_wf (sc : SpanContext) : Prop :=
  String.length (SpanID sc) = 8%nat ∧ String.length (TraceID sc) = 16%nat.

(** [SpanContext.IsValid]: neither identifier is zero. *)
Definition IsValid (sc : SpanContext) : bool :=
  negb (bool_decide (TraceID sc = zero_bytes 16)) && negb (bool_decide (SpanID sc = zero_bytes 8)).

(** [copy(dst[:], src)] into a zero array of [n] bytes. *)
Definition copy_bytes (n : nat) (src : string) : string :=
  str_take n src +:+ zero_bytes (n - String.length src).

Record natsPayload := mkNatsPayload {
  np_SpanContext : SpanContext;
  np_Payload : string;
  np_Type : payloadType;
}.

Definition byte_of (z : Z) : ascii := Ascii.ascii_of_N (Z.to_N (uint8 z)).
Definition of_byte (c : ascii) : Z := Z.of_N (Ascii.N_of_ascii c).

(** ** Version 1 *)

Definition marshalV1 (p : natsPayload) : string :=
  let sc := np_SpanContext p in
  String (byte_of (np_Type p)) "" +:+ SpanID sc +:+ TraceID sc +:+
  String (TraceFlags sc) "" +:+ np_Payload p.

Definition EOF : error := Named "io.EOF" "EOF" None.

(** [buf.Next(1)[0]]: the next byte and the rest of the buffer. *)
Definition next_byte (buf : string) : outcome (ascii * string) :=
  match buf with
  | String c buf => Ret (c, buf)
  | "" => Panic "index out of range [0] with length 0"
  end.

(** [buf.Read(dst[:])] of [n > 0] bytes: an empty buffer is [io.EOF]; fewer
    bytes than asked for are not an error. *)
Definition read_bytes (n : nat) (buf : string) : result error (string * string) :=
  match buf with
  | "" => Fail EOF
  | _ => Val (copy_bytes n buf, str_drop n buf)
  end.

Definition unmarshalV1 (input : string) : outcome (result error natsPayload) :=
  '(ty, buf) ← next_byte input;
  match read_bytes 8 buf with
  | Fail e => Ret (Fail e)
  | Val (spanID, buf) =>
      match read_bytes 16 buf with
      | Fail e => Ret (Fail e)
      | Val (traceID, buf) =>
          '(traceFlags, buf) ← next_byte buf;
          Ret (Val (mkNatsPayload (mkSpanContext spanID traceID traceFlags) buf (of_byte ty)))
      end
  end.

(** ** Version 2 *)

Definition hex_digit (n : nat) : ascii :=
  default "0"%char (String.get n "0123456789abcdef").

(** [hex.EncodeToString] *)
Fixpoint hex_encode (s : string) : string :=
  match s with
  | "" => ""
  | String c s =>
      let n := Ascii.nat_of_ascii c in
      String (hex_digit (n / 16)) (String (hex_digit (n mod 16)) (hex_encode s))
  end.

Definition hex_value (c : ascii) : option nat :=
  let n := Ascii.nat_of_ascii c in
  if decide (48 ≤ n ≤ 57)%nat then Some (n - 48)
  else if decide (97 ≤ n ≤ 102)%nat then Some (n - 87)
  else if decide (65 ≤ n ≤ 70)%nat then Some (n - 55)
  else None.

(** [hex.DecodeString]: pairs of digits; an odd length or another character is
    an error. *)
Fixpoint hex_decode (s : string) : result error string :=
  match s with
  | "" => Val ""
  | String a (String b s) =>
      match hex_value a, hex_value b with
      | Some x, Some y => r ← hex_decode s; Val (String (Ascii.ascii_of_nat (16 * x + y)) r)
      | _, _ => Fail (Opaque "encoding/hex: invalid byte")
      end
  | String a "" =>
      match hex_value a with
      | Some _ => Fail (Opaque "encoding/hex: odd length hex string")
      | None => Fail (Opaque "encoding/hex: invalid byte")
      end
  end.

(** The struct decoded from the JSON object. *)
Record natsPayload2 := mkNatsPayload2 {
  np2_Type : string;
  np2_Payload : string;
  np2_SpanID : string;
  np2_TraceID : string;
  np2_TraceFlags : ascii;
}.

Definition dq : string := String "034" "".

(** The object [marshalV2] writes inside the envelope. *)
Definition object_text (p2 : natsPayload2) : string :=
  "{" +:+ dq +:+ "type" +:+ dq +:+ ":" +:+ dq +:+ np2_Type p2 +:+ dq +:+ "," +:+
  dq +:+ "payload" +:+ dq +:+ ":" +:+ np2_Payload p2 +:+ "," +:+
  dq +:+ "spanID" +:+ dq +:+ ":" +:+ dq +:+ np2_SpanID p2 +:+ dq +:+ "," +:+
  dq +:+ "traceID" +:+ dq +:+ ":" +:+ dq +:+ np2_TraceID p2 +:+ dq +:+ "," +:+
  dq +:+ "traceFlags" +:+ dq +:+ ":" +:+ FormatInt (of_byte (np2_TraceFlags p2)) +:+ "}".

Definition v2_prefix : string := "{" +:+ dq +:+ "v2" +:+ dq +:+ ":".

Definition fields2 (ty : string) (p : natsPayload) : natsPayload2 :=
  let sc := np_SpanContext p in
  mkNatsPayload2 ty (np_Payload p) (hex_encode (SpanID sc)) (hex_encode (TraceID sc)) (TraceFlags sc).

Definition marshalV2 (p : natsPayload) : outcome string :=
  ty ← payloadType_String (np_Type p);
  Ret (v2_prefix +:+ object_text (fields2 ty p) +:+ "}").

Definition Marshal (p : natsPayload) : outcome string := marshalV2 p.

Section v2.
(** [json.Unmarshal] into [natsPayload2]. *)
Context (json_p2 : string → result error natsPayload2).

Definition unmarshalV2 (input : string) : outcome (result error natsPayload) :=
  body ← str_slice input 6 (slen input - 1);
  Ret (p2 ← json_p2 body;
       spanID ← hex_decode (np2_SpanID p2);
       traceID ← hex_decode (np2_TraceID p2);
       pt ← FromStr (np2_Type p2);
       Val (mkNatsPayload
              (mkSpanContext (copy_bytes 8 spanID) (copy_bytes 16 traceID) (np2_TraceFlags p2))
              (np2_Payload p2) pt)).

(** [natsPayload.Unmarshal] of the zero payload. *)
Definition Unmarshal (input : string) : outcome (result error natsPayload) :=
  match input with
  | "" => Ret (Val (mkNatsPayload zero_SpanContext "" 0%Z))
  | String c _ =>
      if decide (of_byte c < 8)%Z then unmarshalV1 input
      else if HasPrefix input v2_prefix then unmarshalV2 input
      else Ret (Fail (Opaque "unknown payload format"))
  end.
End v2.

(** ** Lemmas *)

Lemma length_string_of_list l : String.length (String.string_of_list_ascii l) = length l.
Proof. induction l as [|c l IH]; simpl; [done|]. by rewrite IH. Qed.

Lemma length_zero_bytes n : String.length (zero_bytes n) = n.
Proof. unfold zero_bytes. by rewrite length_string_of_list, length_replicate. Qed.

Lemma str_take_ge n s : (String.length s ≤ n)%nat → str_take n s = s.
Proof.
  revert s. induction n as [|n IH]; intros [|c s]; simpl; intros; try done; try lia.
  by rewrite IH by lia.
Qed.

Lemma copy_bytes_exact s : copy_bytes (String.length s) s = s.
Proof. unfold copy_bytes. rewrite str_take_ge, Nat.sub_diag by done. apply str_app_nil_r. Qed.

Lemma length_str_take_min n s : String.length (str_take n s) = (n `min` String.length s)%nat.
Proof. revert s. induction n as [|n IH]; intros [|c s]; simpl; auto. Qed.

Lemma length_copy_bytes n s : String.length (copy_bytes n s) = n.
Proof.
  unfold copy_bytes. rewrite length_str_app, length_zero_bytes, length_str_take_min. lia.
Qed.

Lemma copy_bytes_app s t : copy_bytes (String.length s) (s +:+ t) = s.
Proof.
  unfold copy_bytes. rewrite str_take_app, length_str_app.
  replace (String.length s - (String.length s + String.length t))%nat with 0%nat by lia.
  apply str_app_nil_r.
Qed.

Lemma of_byte_of z : (0 ≤ z < 256)%Z → of_byte (byte_of z) = z.
Proof.
  intros. unfold of_byte, byte_of, uint8, uwrap. rewrite Z.mod_small by lia.
  rewrite Ascii.N_ascii_embedding; lia.
Qed.

Lemma of_byte_range c : (0 ≤ of_byte c < 256)%Z.
Proof. unfold of_byte. pose proof (Ascii.N_ascii_bounded c). lia. Qed.

Lemma hex_value_digit n : (n < 16)%nat → hex_value (hex_digit n) = Some n.
Proof. intros. do 16 (destruct n as [|n]; [reflexivity|]). lia. Qed.

Lemma hex_decode_encode s : hex_decode (hex_encode s) = Val s.
Proof.
  induction s as [|c s IH]; [done|]. cbn [hex_encode hex_decode].
  pose proof (Ascii.nat_ascii_bounded c).
  rewrite !hex_value_digit, IH by
    first [apply Nat.Div0.div_lt_upper_bound; lia | apply Nat.mod_upper_bound; lia].
  cbn [mbind result_bind]. rewrite <-Nat.div_mod_eq. by rewrite Ascii.ascii_nat_embedding.
Qed.

Lemma payloadType_String_all t s :
  payloadType_String t = Ret s ↔ (0 ≤ t)%Z ∧ all_types !! Z.to_nat t = Some s.
Proof.
  unfold payloadType_String. destruct (all_types !! Z.to_nat t) as [s'|]; [case_decide|];
    split; intros Hx; try done; first [by injection Hx as <- | by destruct Hx as [? [= ->]] | by destruct Hx].
Qed.

Lemma all_types_NoDup : NoDup all_types.
Proof. by apply (bool_decide_unpack _). Qed.

Lemma FromStr_spec s t : FromStr s = Val t ↔ payloadType_String t = Ret s.
Proof.
  rewrite payloadType_String_all. unfold FromStr.
  destruct (list_find (λ v, s = v) all_types) as [[i v]|] eqn:Hf.
  - apply list_find_Some in Hf as (Hi & <- & _). split.
    + intros [= <-]. split; [lia|]. by rewrite Nat2Z.id.
    + intros [Ht Hs]. assert (i = Z.to_nat t) as -> by (by eapply NoDup_lookup, Hs; [apply all_types_NoDup|]).
      by rewrite Z2Nat.id.
  - apply list_find_None in Hf. split; [done|]. intros [_ Hs%list_elem_of_lookup_2].
    rewrite Forall_forall in Hf. by destruct (Hf s Hs).
Qed.

Lemma payloadType_String_ret t : (0 ≤ t < 8)%Z ↔ is_ret (payloadType_String t) = true.
Proof.
  unfold payloadType_String. destruct (all_types !! Z.to_nat t) as [s|] eqn:E.
  - apply lookup_lt_Some in E. cbn in E. case_decide; split; simpl; intros; done || lia.
  - apply lookup_ge_None in E. cbn in E. split; [lia|done].
Qed.

Lemma unmarshalV1_long c input :
  (25 ≤ String.length input)%nat →
  ∃ p, unmarshalV1 (String c input) = Ret (Val p) ∧ span_wf (np_SpanContext p) ∧
    np_Type p = of_byte c ∧ np_Payload p = str_drop 25 input.
Proof.
  intros Hl. unfold unmarshalV1. cbn [next_byte]. rewrite bind_ret_l.
  unfold read_bytes. destruct input as [|c1 i1] eqn:E1; [simpl in Hl; lia|]. rewrite <-E1 in *.
  cbv beta iota. clear E1 c1 i1.
  destruct (str_drop 8 input) as [|c2 i2] eqn:E2.
  { pose proof (length_str_drop 8 input) as H. rewrite E2 in H. simpl in H. lia. }
  rewrite <-E2. cbv beta iota.
  destruct (str_drop 16 (str_drop 8 input)) as [|c3 i3] eqn:E3.
  { pose proof (length_str_drop 16 (str_drop 8 input)) as H.
    rewrite E3, length_str_drop in H. simpl in H. lia. }
  cbn [next_byte]. rewrite bind_ret_l. eexists. split; [done|].
  cbn [np_SpanContext np_Type np_Payload].
  split_and!; [|done|].
  - split; apply length_copy_bytes.
  - assert (∀ n m s, str_drop n (str_drop m s) = str_drop (m + n) s) as Hd.
    { intros n m. revert n. induction m as [|m IH]; intros n [|d s]; simpl; try done.
      by destruct n. }
    rewrite Hd in E3. change 25%nat with (24 + 1)%nat. rewrite <-Hd. change (8 + 16)%nat with 24%nat in E3.
    by rewrite E3.
Qed.

(** The outcome of version 1 by the length of what follows the type byte. *)
Lemma unmarshalV1_short c input :
  (String.length input < 25)%nat →
  unmarshalV1 (String c input) =
    if decide (String.length input ≤ 8)%nat then Ret (Fail EOF)
    else Panic "index out of range [0] with length 0".
Proof.
  intros Hl. unfold unmarshalV1. cbn [next_byte]. rewrite bind_ret_l.
  unfold read_bytes. destruct input as [|c1 i1] eqn:E1; [done|]. rewrite <-E1 in *.
  cbv beta iota.
  pose proof (length_str_drop 8 input) as H8.
  destruct (str_drop 8 input) as [|c2 i2] eqn:E2.
  { simpl in H8. case_decide; [done|lia]. }
  rewrite <-E2. cbv beta iota. simpl in H8. rewrite decide_False by lia.
  pose proof (length_str_drop 16 (str_drop 8 input)) as H16.
  destruct (str_drop 16 (str_drop 8 input)) as [|c3 i3] eqn:E3; [done|].
  rewrite length_str_drop in H16. simpl in H16. lia.
Qed.

Lemma str_slice_body pre body last :
  str_slice (pre +:+ body +:+ last) (slen pre) (slen (pre +:+ body +:+ last) - slen last) = Ret body.
Proof.
  unfold str_slice. rewrite !slen_app. unfold slen. rewrite !length_str_app.
  rewrite decide_True by lia. f_equal. rewrite Nat2Z.id.
  replace (Z.to_nat _) with (String.length body) by lia.
  by rewrite str_drop_app, str_take_app.
Qed.

Lemma read_bytes_app n s t :
  String.length s = S n → read_bytes (S n) (s +:+ t) = Val (s, t).
Proof.
  intros Hs. unfold read_bytes. rewrite <-Hs, copy_bytes_app, str_drop_app. by destruct s.
Qed.

Lemma unmarshalV1_fields c sid tid fl pl :
  String.length sid = 8%nat → String.length tid = 16%nat →
  unmarshalV1 (String c (sid +:+ tid +:+ String fl pl)) =
    Ret (Val (mkNatsPayload (mkSpanContext sid tid fl) pl (of_byte c))).
Proof.
  intros Hs Ht. unfold unmarshalV1. cbn [next_byte]. rewrite bind_ret_l.
  by rewrite (read_bytes_app 7), (read_bytes_app 15).
Qed.

Lemma unmarshalV1_panic c s :
  is_panic (unmarshalV1 (String c s)) = true ↔ (9 ≤ String.length s ≤ 24)%nat.
Proof.
  destruct (decide (String.length s < 25)%nat) as [Hl|Hl].
  - rewrite unmarshalV1_short by done. case_decide; split; done || lia.
  - destruct (unmarshalV1_long c s) as (p & -> & _); [lia|]. split; [done|lia].
Qed.

Lemma unmarshalV2_panic json_p2 t :
  is_panic (unmarshalV2 json_p2 (v2_prefix +:+ t)) = true ↔ t = "".
Proof.
  unfold unmarshalV2, str_slice. rewrite slen_app. unfold slen.
  change (String.length v2_prefix) with 6%nat. destruct t as [|d t].
  - by rewrite decide_False by (simpl; lia).
  - rewrite decide_True by (rewrite length_str_app; simpl; lia). done.
Qed.

Lemma v2_prefix_head c s t : String c s = v2_prefix +:+ t → ¬ (of_byte c < 8)%Z.
Proof. cbn. intros E. injection E as -> _. by vm_compute. Qed.

(** ** Properties *)

(** [Unmarshal] is total except on two kinds of input, where it panics
    although its signature promises an error: a version 1 message of 10 to 25
    bytes (truncated between the span id and the flags) and the bare prefix of
    the version 2 envelope.  A successful version 1 decoding has a well-formed
    span context and a payload type below 8. *)
Theorem Unmarshal_total (json_p2 : string → result error natsPayload2) (input : string) :
  (is_panic (Unmarshal json_p2 input) = true ↔
    (∃ c s, input = String c s ∧ (of_byte c < 8)%Z ∧ (9 ≤ String.length s ≤ 24)%nat) ∨
    input = v2_prefix) ∧
  (∀ c s p, input = String c s → (of_byte c < 8)%Z → Unmarshal json_p2 input = Ret (Val p) →
    span_wf (np_SpanContext p) ∧ is_ret (payloadType_String (np_Type p)) = true).
Proof.
  assert (∀ c s, (of_byte c < 8)%Z → Unmarshal json_p2 (String c s) = unmarshalV1 (String c s)) as HV1.
  { intros c s Hc. unfold Unmarshal. by rewrite decide_True. }
  split.
  - destruct input as [|c s]; [split; [done|]; intros [(? & ? & ? & _)|]; done|].
    destruct (decide (of_byte c < 8)%Z) as [Hc|Hc].
    + rewrite HV1, unmarshalV1_panic by done. split.
      * intros Hl. left. by exists c, s.
      * intros [(c' & s' & E & _ & Hl)|E]; [by injection E as -> ->|].
        rewrite <-(str_app_nil_r v2_prefix) in E. by apply v2_prefix_head in E.
    + unfold Unmarshal. rewrite decide_False by done.
      destruct (HasPrefix (String c s) v2_prefix) eqn:Hp.
      * apply prefix_spec in Hp as [t Ht]. rewrite Ht, unmarshalV2_panic. split.
        -- intros ->. right. by rewrite str_app_nil_r.
        -- intros [(c' & s' & E & Hc' & _)|E].
           ++ by apply eq_sym, v2_prefix_head in E.
           ++ rewrite <-(str_app_nil_r v2_prefix) in E at 2. by apply str_app_inj_l in E.
      * split; [done|]. intros [(c' & s' & E & Hc' & _)|E]; [by injection E as -> ->|].
        rewrite E in Hp. by vm_compute in Hp.
  - intros c s p -> Hc. rewrite HV1 by done.
    destruct (decide (String.length s < 25)%nat) as [Hl|Hl].
    + rewrite unmarshalV1_short by done. by case_decide.
    + destruct (unmarshalV1_long c s) as (p' & -> & Hw & Ht & _); [lia|]. intros [= <-].
      split; [done|]. rewrite Ht. apply payloadType_String_ret. pose proof (of_byte_range c). lia.
Qed.

(** C16: Both formats round trip: a well-formed payload of a known type decodes to
    itself from version 1, and from version 2 whenever the JSON decoder reads
    back the fields of the object that was written. *)
Theorem natsPayload_roundtrip (json_p2 : string → result error natsPayload2) (p : natsPayload) :
  span_wf (np_SpanContext p) → (0 ≤ np_Type p < 8)%Z →
  (∀ ty, payloadType_String (np_Type p) = Ret ty → json_p2 (object_text (fields2 ty p)) = Val (fields2 ty p)) →
  Unmarshal json_p2 (marshalV1 p) = Ret (Val p) ∧
  (Marshal p ≫= Unmarshal json_p2) = Ret (Val p).
Proof.
  intros [Hs Ht] Hty Hj. destruct p as [[sid tid fl] pl ty]. cbn [np_SpanContext np_Type SpanID TraceID] in *.
  split.
  - change (marshalV1 _) with (String (byte_of ty) (sid +:+ tid +:+ String fl pl)).
    unfold Unmarshal. rewrite decide_True by (rewrite of_byte_of; lia).
    by rewrite unmarshalV1_fields, of_byte_of by (done || lia).
  - unfold Marshal, marshalV2. cbn [np_Type].
    destruct (payloadType_String ty) as [s|] eqn:Hstr;
      [|apply payloadType_String_ret in Hty; by rewrite Hstr in Hty].
    rewrite bind_ret_l, bind_ret_l. unfold Unmarshal.
    set (body := object_text (fields2 s _)). set (text := v2_prefix +:+ body +:+ "}").
    assert (HasPrefix text v2_prefix = true) as Hp by apply prefix_app.
    destruct text as [|c t] eqn:Et; [done|]. rewrite <-Et in *.
    assert (c = "{"%char) as -> by (unfold text, v2_prefix in Et; cbn in Et; congruence).
    rewrite decide_False by by vm_compute. rewrite Hp.
    unfold unmarshalV2. change 6%Z with (slen v2_prefix). change 1%Z with (slen "}").
    unfold text. rewrite str_slice_body, bind_ret_l. unfold body. rewrite Hj by done.
    cbn [mbind result_bind fields2 np2_SpanID np2_TraceID np2_Type np2_TraceFlags np2_Payload].
    rewrite !hex_decode_encode. cbn [mbind result_bind np_SpanContext SpanID TraceID].
    apply FromStr_spec in Hstr. rewrite Hstr. cbn [mbind result_bind].
    rewrite <-Hs at 1. rewrite <-Ht at 1. by rewrite !copy_bytes_exact.
Qed.

Definition sample_payload : natsPayload :=
  mkNatsPayload (mkSpanContext "12345678" "1234567890123456" "001"%char) "{}" typeMetrics.

Lemma natsPayload_roundtrip_witness :
  Unmarshal (λ _, Val (fields2 "metrics" sample_payload)) (marshalV1 sample_payload) =
    Ret (Val sample_payload).
Proof.
  refine (proj1 (natsPayload_roundtrip (λ _, Val (fields2 "metrics" sample_payload)) sample_payload _ _ _)).
  - split; reflexivity.
  - split; [discriminate|reflexivity].
  - intros ty [= <-]. reflexivity.
Defined.
