(* ===== verification/Json.v ===== *)
(** [encoding/json]: decoded values, and how strings are written into a JSON
    text (UTF-8, with the HTML escapes of [json.Marshal]). *)

From S2P Require Import Prelude GoString GoFloat Payload.

Local Open Scope string_scope.

(** A value decoded into an empty interface. *)
Inductive json :=
| JNull
| JBool (b : bool)
| JNumber (x : float64)
| JString (s : string)
| JArray (l : list json)
| JObject (m : gmap string json).

(** ** Quoting *)

Definition backslash : ascii := "\"%char.

(** [htmlSafeSet], of the bytes below 128. *)
Definition html_safe (c : ascii) : bool :=
  byte_in 32 127 c && negb (has_byte c (dq +:+ "&<>\")).

Definition escape_byte (c : ascii) : string :=
  let n := Ascii.nat_of_ascii c in
  if bool_decide (c = backslash) || bool_decide (String c "" = dq) then String backslash (String c "")
  else match n with
  | 8 => "\b" | 9 => "\t" | 10 => "\n" | 12 => "\f" | 13 => "\r"
  | _ => "\u00" +:+ String (hex_digit (n / 16)) (String (hex_digit (n mod 16)) "")
  end.

(** The line and the paragraph separator, U+2028 and U+2029. *)
Definition line_separator (s : string) : option string :=
  if String.prefix (String "226" (String "128" (String "168" ""))) s then Some "\u2028"
  else if String.prefix (String "226" (String "128" (String "169" ""))) s then Some "\u2029"
  else None.

(** [appendString]: [skip] bytes of the rune in hand remain, copied if [keep]. *)
Fixpoint quote_go (skip : nat) (keep : bool) (s : string) : string :=
  match s with
  | "" => ""
  | String c s' =>
      match skip with
      | S k => if keep then String c (quote_go k keep s') else quote_go k keep s'
      | 0 =>
          if byte_in 0 127 c then
            (if html_safe c then String c "" else escape_byte c) +:+ quote_go 0 true s'
          else
            match rune_size s with
            | 0 => "\ufffd" +:+ quote_go 0 true s'
            | S n =>
                match line_separator s with
                | Some t => t +:+ quote_go n false s'
                | None => String c (quote_go n true s')
                end
            end
      end
  end.

(** A string as [json.Marshal] writes it. *)
Definition json_string (s : string) : string := dq +:+ quote_go 0 true s +:+ dq.

(** ** Lemmas *)

(** Strings of safe ASCII bytes are written as they are. *)
Fixpoint plain (s : string) : bool :=
  match s with "" => true | String c s => html_safe c && plain s end.

Lemma quote_plain s : plain s = true → quote_go 0 true s = s.
Proof.
  induction s as [|c s IH]; [done|]. cbn [plain quote_go].
  intros [Hc Hs]%andb_true_iff. rewrite Hc.
  assert (byte_in 0 127 c = true) as ->.
  { unfold html_safe, byte_in in *. apply andb_true_iff in Hc as [Hc _].
    apply bool_decide_eq_true in Hc. apply bool_decide_eq_true. lia. }
  cbn [String.append]. by rewrite IH.
Qed.

Lemma json_string_plain s : plain s = true → json_string s = dq +:+ s +:+ dq.
Proof. intros. unfold json_string. by rewrite quote_plain. Qed.

Lemma plain_app s t : plain (s +:+ t) = plain s && plain t.
Proof. induction s as [|c s IH]; [done|]. cbn. by rewrite IH, andb_assoc. Qed.

Example json_string_escapes :
  json_string (String "034" "a<b\c" +:+ String "009" "") = dq +:+ "\" +:+ dq +:+ "a\u003cb\\c\t" +:+ dq.
Proof. reflexivity. Qed.

Example json_string_utf8 :
  json_string (String "195" (String "169" (String "255" ""))) = dq +:+ String "195" (String "169" "\ufffd") +:+ dq.
Proof. reflexivity. Qed.
