(* ===== verification/Tracer.v ===== *)
(** services/agent.go, the tracer context of the payloads: the trace tokens, the
    placeholders of an agent that is not configured yet, and how the context is
    added to a payload ([mixTracerContext]) and completed later
    ([fixTracerContext]).

    The cache library and the formatting of a UUID are interfaces. *)

From S2P Require Import Prelude GoString Timestamp Transit Payload Json.

Local Open Scope string_scope.

(** ** Configured connectors *)

Definition traceOnDemandAgentID : string := "#traceOnDemandAgentID#".
Definition traceOnDemandAppType : string := "#traceOnDemandAppType#".
Definition placeholderAgentID : string := "AGENT_ID".

Definition isConfiguredAgentID (id : string) : bool :=
  negb (bool_decide (id = "")) && negb (bool_decide (id = placeholderAgentID)) &&
  negb (bool_decide (id = traceOnDemandAgentID)).

Definition isConfiguredAppType (t : string) : bool :=
  negb (bool_decide (t = "")) && negb (bool_decide (t = traceOnDemandAppType)).

Definition isConnectorConfigured (a : AgentIdentity) : bool :=
  isConfiguredAgentID (ai_AgentID a) && isConfiguredAppType (ai_AppType a).

(** ** [encoding/binary] *)

(** The bytes of [binary.PutUvarint]: seven bits each, the low ones first; ten
    bytes are enough for an [uint64]. *)
Fixpoint uvarint_bytes (fuel : nat) (x : Z) : string :=
  match fuel with
  | 0 => ""
  | S fuel =>
      if decide (128 ≤ x)%Z
      then String (byte_of (Z.lor (uint8 x) 128)) (uvarint_bytes fuel (Z.shiftr x 7))
      else String (byte_of x) ""
  end.

Definition put_bytes (buf bytes : string) : string := bytes +:+ str_drop (String.length bytes) buf.

Definition PutUvarint (buf : string) (x : Z) : string := put_bytes buf (uvarint_bytes 10 x).

(** [binary.PutVarint]: the zig-zag encoding of an [int64]. *)
Definition zigzag (x : Z) : Z := if decide (x < 0)%Z then (- 2 * x - 1)%Z else (2 * x)%Z.
Definition PutVarint (buf : string) (x : Z) : string := PutUvarint buf (zigzag x).

(** ** The tracer *)

(** go-cache with [IncrementUint64], which fails for a missing key. *)
Class TokenCache := {
  tcache : Type;
  tc_new : tcache;
  tc_get : tcache → string → option Z;
  tc_set : tcache → string → Z → tcache;
  tc_incr : tcache → string → Z → tcache * option Z;
}.

Class TokenCacheLaws (C : TokenCache) : Prop := {
  tc_get_set m k v : tc_get (tc_set m k v) k = Some v;
  tc_incr_some m k n v : tc_get m k = Some v →
    (tc_incr m k n).2 = Some ((v + n) `mod` 2 ^ 64)%Z ∧
    tc_get (tc_incr m k n).1 k = Some ((v + n) `mod` 2 ^ 64)%Z;
  tc_incr_none m k n : tc_get m k = None → tc_incr m k n = (m, None);
}.

Definition map_token_cache : TokenCache := {|
  tcache := gmap string Z;
  tc_new := ∅;
  tc_get m k := m !! k;
  tc_set m k v := <[k := v]> m;
  tc_incr m k n := match m !! k with
                   | Some v => (<[k := (v + n) `mod` 2 ^ 64]> m, Some ((v + n) `mod` 2 ^ 64))
                   | None => (m, None)
                   end%Z;
|}.

#[export] Instance map_token_cache_laws : TokenCacheLaws map_token_cache.
Proof.
  split; cbn [tc_get tc_set tc_incr map_token_cache]; intros.
  - apply lookup_insert_eq.
  - rewrite H. split; [done|apply lookup_insert_eq].
  - by rewrite H.
Qed.

Definition ckTracerToken : string := "ckTraceToken".

Section tracer.
Context {C : TokenCache}.

(** [uuid.FormatUUID] of 16 bytes. *)
Context (FormatUUID : string → string).

Record tracer := mkTracer { tracerToken : string; tracerCache : tcache }.

(** [initTracerToken]: 16 random bytes, or two time stamps over a fixed text;
    the counter starts at 1. *)
Definition initTracerToken (random : result string string) (now1 now2 : Z) : tracer :=
  let token := "aaaabbbbccccdddd" in
  let token :=
    match random with
    | Val randBuf => put_bytes token (str_take 16 randBuf)
    | Fail _ =>
        let token := PutVarint token now1 in
        str_take 6 token +:+ PutVarint (str_drop 6 token) now2
    end in
  mkTracer token (tc_set tc_new ckTracerToken 1).

Definition zero16 : string := zero_bytes 16.

(** [MakeTracerContext] at the time [now], with [nano] for [UnixNano]. *)
Definition MakeTracerContext (s : tracer) (a : AgentIdentity) (now : Timestamp) (nano : Z)
  : tracer * TracerContext :=
  let tokenBuf := put_bytes zero16 (str_take 16 (tracerToken s)) in
  let '(cache, inc) := tc_incr (tracerCache s) ckTracerToken 1 in
  let tokenBuf := match inc with
                  | Some tokenInc => PutUvarint tokenBuf tokenInc
                  | None => PutVarint tokenBuf nano
                  end in
  let agentID := if decide (ai_AgentID a = "") then traceOnDemandAgentID else ai_AgentID a in
  let appType := if decide (ai_AppType a = "") then traceOnDemandAppType else ai_AppType a in
  (mkTracer (tracerToken s) cache,
   mkTracerContext appType agentID (FormatUUID tokenBuf) (Some (NewTimestamp now)) ModelVersion).

(** [json.Marshal] of the context: its fields in order; it never fails. *)
Definition json_field (name value : string) : string := json_string name +:+ ":" +:+ value.

Definition json_Context (c : TracerContext) : string :=
  "{" +:+ json_field "appType" (json_string (tc_AppType c)) +:+ "," +:+
  json_field "agentId" (json_string (tc_AgentID c)) +:+ "," +:+
  json_field "traceToken" (json_string (tc_TraceToken c)) +:+ "," +:+
  json_field "timeStamp" (match tc_TimeStamp c with Some t => MarshalJSON t | None => "null" end)
  +:+ "," +:+ json_field "version" (json_string (tc_Version c)) +:+ "}".

Definition has_context (payload : string) : bool :=
  Contains payload (dq +:+ "context" +:+ dq +:+ ":") &&
  Contains payload (dq +:+ "traceToken" +:+ dq +:+ ":").

(** [mixTracerContext]: the payload with the context, and whether placeholders
    are to be replaced.  Without a closing brace the slice [[:-1]] panics. *)
Definition mixTracerContext (s : tracer) (a : AgentIdentity) (now : Timestamp) (nano : Z)
    (payload : string) : outcome (tracer * string * bool) :=
  if has_context payload
  then Ret (s, payload, Contains payload traceOnDemandAgentID || Contains payload traceOnDemandAppType)
  else
    let '(s, tc) := MakeTracerContext s a now nano in
    let todo := bool_decide (tc_AgentID tc = traceOnDemandAgentID) ||
                bool_decide (tc_AppType tc = traceOnDemandAppType) in
    let l := match LastIndex payload "}" with Some i => Z.of_nat i | None => (-1)%Z end in
    head ← str_slice payload 0 l;
    Ret (s, head +:+ "," +:+ dq +:+ "context" +:+ dq +:+ ":" +:+ json_Context tc +:+ "}", todo).

Definition fixTracerContext (a : AgentIdentity) (payload : string) : string :=
  if isConnectorConfigured a
  then ReplaceAll (ReplaceAll payload traceOnDemandAppType (ai_AppType a))
         traceOnDemandAgentID (ai_AgentID a)
  else payload.
End tracer.

(** ** Lemmas *)

Lemma lor_128 x : of_byte (byte_of (Z.lor (uint8 x) 128)) = (128 + x `mod` 128)%Z.
Proof.
  assert (∀ v, (0 ≤ v < 256)%Z → Z.lor v 128 = (128 + v `mod` 128)%Z ∧ (0 ≤ Z.lor v 128 < 256)%Z) as Hv.
  { intros v Hv. assert (forallb (λ n, bool_decide (Z.lor (Z.of_nat n) 128 = 128 + Z.of_nat n `mod` 128 ∧
      0 ≤ Z.lor (Z.of_nat n) 128 < 256)%Z) (seq 0 256) = true) as Hall by by vm_compute.
    rewrite forallb_forall in Hall. specialize (Hall (Z.to_nat v)). rewrite bool_decide_eq_true in Hall.
    rewrite Z2Nat.id in Hall by lia. apply Hall. apply in_seq. lia. }
  unfold uint8, uwrap. pose proof (Z.mod_pos_bound x (2 ^ 8)).
  destruct (Hv (x `mod` 2 ^ 8)%Z) as [H1 H2]; [lia|]. rewrite of_byte_of by lia.
  rewrite H1. f_equal. apply Z.mod_mod_divide. by exists 2%Z.
Qed.

(** The encoding is prefix-free. *)
Lemma uvarint_inj fuel x y r1 r2 :
  (0 ≤ x < 2 ^ (7 * Z.of_nat fuel))%Z → (0 ≤ y < 2 ^ (7 * Z.of_nat fuel))%Z →
  uvarint_bytes fuel x +:+ r1 = uvarint_bytes fuel y +:+ r2 → x = y.
Proof.
  revert x y. induction fuel as [|fuel IH]; intros x y Hx Hy; cbn [uvarint_bytes].
  { change (2 ^ (7 * Z.of_nat 0))%Z with 1%Z in *. lia. }
  assert (∀ x, (0 ≤ x < 2 ^ (7 * Z.of_nat (S fuel)))%Z → (128 ≤ x)%Z →
    (0 ≤ Z.shiftr x 7 < 2 ^ (7 * Z.of_nat fuel))%Z) as Hsh.
  { intros z Hz Hz'. rewrite Z.shiftr_div_pow2 by lia. split; [apply Z.div_pos; lia|].
    apply Z.div_lt_upper_bound; [lia|]. rewrite <-Z.pow_add_r by lia.
    replace (7 + 7 * Z.of_nat fuel)%Z with (7 * Z.of_nat (S fuel))%Z by lia. lia. }
  repeat case_decide; cbn [String.append]; intros [= Hb Hr].
  - apply (f_equal of_byte) in Hb. rewrite !lor_128 in Hb.
    apply IH in Hr; [|by apply Hsh..]. rewrite !Z.shiftr_div_pow2 in Hr by lia.
    change (2 ^ 7)%Z with 128%Z in Hr.
    rewrite (Z.div_mod x 128), (Z.div_mod y 128) by lia. lia.
  - apply (f_equal of_byte) in Hb. rewrite lor_128, of_byte_of in Hb by lia.
    pose proof (Z.mod_pos_bound x 128). lia.
  - apply (f_equal of_byte) in Hb. rewrite lor_128, of_byte_of in Hb by lia.
    pose proof (Z.mod_pos_bound y 128). lia.
  - apply (f_equal of_byte) in Hb. by rewrite !of_byte_of in Hb by lia.
Qed.

Lemma length_uvarint_bytes fuel x : (String.length (uvarint_bytes fuel x) ≤ fuel)%nat.
Proof.
  revert x. induction fuel as [|fuel IH]; intros x; [done|]. cbn [uvarint_bytes].
  case_decide; cbn; [specialize (IH (Z.shiftr x 7))|]; lia.
Qed.

Lemma length_put_bytes buf b :
  (String.length b ≤ String.length buf)%nat → String.length (put_bytes buf b) = String.length buf.
Proof. intros. unfold put_bytes. rewrite length_str_app, length_str_drop. lia. Qed.

Lemma length_token_buf t : String.length (put_bytes zero16 (str_take 16 t)) = 16%nat.
Proof.
  rewrite length_put_bytes; [apply length_zero_bytes|]. unfold zero16.
  rewrite length_zero_bytes, length_str_take_min. lia.
Qed.

Section tracer_lemmas.
Context {C : TokenCache} {CL : TokenCacheLaws C} (FormatUUID : string → string).

Lemma MakeTracerContext_token s a now nano v :
  tc_get (tracerCache s) ckTracerToken = Some v →
  let '(s', tc) := MakeTracerContext FormatUUID s a now nano in
  tracerToken s' = tracerToken s ∧
  tc_get (tracerCache s') ckTracerToken = Some ((v + 1) `mod` 2 ^ 64)%Z ∧
  tc_TraceToken tc =
    FormatUUID (PutUvarint (put_bytes zero16 (str_take 16 (tracerToken s))) ((v + 1) `mod` 2 ^ 64)%Z).
Proof.
  intros Hv. unfold MakeTracerContext.
  destruct (tc_incr_some (tracerCache s) ckTracerToken 1 v Hv) as [Hr Hg].
  destruct (tc_incr (tracerCache s) ckTracerToken 1) as [cache inc]. cbn in Hr, Hg. by subst inc.
Qed.

(** The contexts of successive calls. *)
Fixpoint MakeTracerContexts (s : tracer) (calls : list (AgentIdentity * Timestamp * Z))
  : list TracerContext :=
  match calls with
  | [] => []
  | (a, now, nano) :: calls =>
      let '(s, tc) := MakeTracerContext FormatUUID s a now nano in tc :: MakeTracerContexts s calls
  end.

Lemma MakeTracerContexts_tokens s calls v i :
  tc_get (tracerCache s) ckTracerToken = Some v → (0 ≤ v < 2 ^ 64)%Z → (i < length calls)%nat →
  (tc_TraceToken <$> MakeTracerContexts s calls) !! i =
    Some (FormatUUID (PutUvarint (put_bytes zero16 (str_take 16 (tracerToken s)))
      ((v + 1 + Z.of_nat i) `mod` 2 ^ 64)%Z)).
Proof.
  revert s v i. induction calls as [|[[a now] nano] calls IH]; intros s v i Hg Hv Hi; cbn in Hi; [lia|].
  cbn [MakeTracerContexts]. pose proof (MakeTracerContext_token s a now nano v Hg) as Hm.
  destruct (MakeTracerContext FormatUUID s a now nano) as [s' tc]. destruct Hm as (Ht & Hg' & Htok).
  destruct i as [|i].
  - cbn. by rewrite Htok, Z.add_0_r.
  - change ((tc_TraceToken <$> MakeTracerContexts s' calls) !! i = Some (FormatUUID (PutUvarint
      (put_bytes zero16 (str_take 16 (tracerToken s))) ((v + 1 + Z.of_nat (S i)) `mod` 2 ^ 64)%Z))).
    rewrite (IH s' ((v + 1) `mod` 2 ^ 64)%Z i Hg'); [|apply Z.mod_pos_bound; lia|lia].
    rewrite Ht. do 3 f_equal. rewrite <-Z.add_assoc, Zplus_mod_idemp_l. f_equal. lia.
Qed.

Lemma length_MakeTracerContexts s calls : length (MakeTracerContexts s calls) = length calls.
Proof.
  revert s. induction calls as [|[[a now] nano] calls IH]; intros s; [done|]. cbn.
  destruct (MakeTracerContext _ _ _ _ _). cbn. by rewrite IH.
Qed.
End tracer_lemmas.

(** A field that can be replaced in a JSON text as it is: safe ASCII, no hash. *)
Definition clean (s : string) : bool := plain s && no_byte "#" s.

Lemma clean_no_byte s : clean s = true → no_byte "#" s = true.
Proof. by intros [_ ?]%andb_true_iff. Qed.

Lemma clean_json s : clean s = true → json_string s = dq +:+ s +:+ dq.
Proof. intros [? _]%andb_true_iff. by apply json_string_plain. Qed.

Lemma clean_ne p s : clean s = true → ¬ no_byte "#" p = true → s ≠ p.
Proof. by intros ?%clean_no_byte Hp ->. Qed.

Lemma MarshalJSON_no_hash t : no_byte "#" (MarshalJSON t) = true.
Proof.
  unfold MarshalJSON. rewrite !no_byte_app.
  assert (no_byte "#" (FormatInt (UnixMilli t)) = true) as ->; [|done].
  eapply str_forallb_impl, FormatInt_chars. intros c [Hd|Hd%bool_decide_eq_true]%orb_true_iff.
  - unfold is_digit in Hd. apply bool_decide_eq_true in Hd.
    apply negb_true_iff, bool_decide_eq_false. intros <-. by vm_compute in Hd; lia.
  - by subst.
Qed.

(** What follows the two identities in the JSON text of a context. *)
Definition json_tail (token : string) (t : option Timestamp) : string :=
  "," +:+ json_field "traceToken" (json_string token) +:+ "," +:+
  json_field "timeStamp" (match t with Some t => MarshalJSON t | None => "null" end)
  +:+ "," +:+ json_field "version" (json_string ModelVersion) +:+ "}".

Definition json_start : string := "{" +:+ dq +:+ "appType" +:+ dq +:+ ":" +:+ dq.
Definition json_middle : string := dq +:+ "," +:+ dq +:+ "agentId" +:+ dq +:+ ":" +:+ dq.

Lemma json_Context_fields ty id token t :
  plain ty = true → plain id = true →
  json_Context (mkTracerContext ty id token t ModelVersion) =
    json_start +:+ ty +:+ json_middle +:+ id +:+ dq +:+ json_tail token t.
Proof.
  intros Hty Hid. unfold json_Context, json_start, json_middle, json_tail, json_field.
  cbn [tc_AppType tc_AgentID tc_TraceToken tc_TimeStamp tc_Version].
  rewrite (json_string_plain ty), (json_string_plain id) by done. by rewrite !str_app_assoc.
Qed.

Lemma json_tail_no_hash token t : clean token = true → no_byte "#" (json_tail token t) = true.
Proof.
  intros Hc. unfold json_tail, json_field. rewrite (clean_json token) by done.
  rewrite !no_byte_app. rewrite (clean_no_byte token) by done.
  destruct t as [t|]; [rewrite MarshalJSON_no_hash|]; done.
Qed.

(** Replacing the placeholder of an identity in the text around it. *)
Lemma replace_field ph u x v new :
  no_byte "#" u = true → ph = traceOnDemandAppType ∨ ph = traceOnDemandAgentID →
  clean x = true ∨ x = ph →
  ReplaceAll (u +:+ x +:+ v) ph new = u +:+ (if decide (x = ph) then new else x) +:+ ReplaceAll v ph new.
Proof.
  intros Hu Hph Hx.
  assert (∃ p, ph = String "#" p) as [p Hp] by (destruct Hph as [-> | ->]; eexists; reflexivity).
  destruct Hx as [Hx|Hx].
  - rewrite decide_False.
    + rewrite Hp, !ReplaceAll_app_no_byte; [done|by apply clean_no_byte|done].
    + intros ->. apply clean_no_byte in Hx. by destruct Hph; subst.
  - rewrite decide_True by done. subst x. rewrite Hp at 2. rewrite ReplaceAll_app_no_byte by done. f_equal.
    rewrite <-Hp. apply ReplaceAll_prefix. by rewrite Hp.
Qed.

(** The other placeholder is left alone. *)
Lemma replace_other v new :
  ReplaceAll (traceOnDemandAgentID +:+ String "034" v) traceOnDemandAppType new =
  traceOnDemandAgentID +:+ ReplaceAll (String "034" v) traceOnDemandAppType new.
Proof. reflexivity. Qed.

(** The identities a payload mixed under [a0] has after a fix under [a]. *)
Definition identity_or (a0 a : AgentIdentity) : AgentIdentity :=
  mkAgentIdentity (if decide (ai_AgentID a0 = "") then ai_AgentID a else ai_AgentID a0) (ai_AppName a0)
    (if decide (ai_AppType a0 = "") then ai_AppType a else ai_AppType a0).

Definition clean_identity (a : AgentIdentity) : bool := clean (ai_AgentID a) && clean (ai_AppType a).

Lemma clean_identity_or a0 a :
  clean_identity a0 = true → clean_identity a = true →
  clean (ai_AgentID (identity_or a0 a)) = true ∧ clean (ai_AppType (identity_or a0 a)) = true.
Proof.
  intros [H1 H2]%andb_true_iff [H3 H4]%andb_true_iff. unfold identity_or. cbn.
  split; by case_decide.
Qed.

(** A field of the text: an identity or its placeholder. *)
Definition field_or (ph x : string) : string := if decide (x = "") then ph else x.

Lemma field_or_clean ph x : clean x = true → clean (field_or ph x) = true ∨ field_or ph x = ph.
Proof. unfold field_or. case_decide; auto. Qed.

Lemma clean_ne_placeholder x :
  clean x = true → x ≠ traceOnDemandAppType ∧ x ≠ traceOnDemandAgentID.
Proof. intros Hx. split; by eapply clean_ne. Qed.

(** Replacing in a field gives the identity, or the new one in its place. *)
Lemma field_or_replace ph x y :
  ph = traceOnDemandAppType ∨ ph = traceOnDemandAgentID → clean x = true →
  (if decide (field_or ph x = ph) then y else field_or ph x) = if decide (x = "") then y else x.
Proof.
  intros Hph Hx. unfold field_or. destruct (decide (x = "")); [by rewrite decide_True|].
  rewrite decide_False; [done|]. destruct (clean_ne_placeholder x Hx). by destruct Hph; subst.
Qed.

(** Both replacements, in a text with the two fields. *)
Lemma replace_fields u rest ty0 id0 ty id :
  no_byte "#" u = true → no_byte "#" rest = true →
  clean ty0 = true → clean id0 = true → clean ty = true →
  ReplaceAll
    (ReplaceAll (u +:+ field_or traceOnDemandAppType ty0 +:+ json_middle +:+
                 field_or traceOnDemandAgentID id0 +:+ String "034" rest) traceOnDemandAppType ty)
    traceOnDemandAgentID id =
  u +:+ (if decide (ty0 = "") then ty else ty0) +:+ json_middle +:+
  (if decide (id0 = "") then id else id0) +:+ String "034" rest.
Proof.
  intros Hu Hr Hty0 Hid0 Hty.
  assert (∀ ph new v, ph = traceOnDemandAppType ∨ ph = traceOnDemandAgentID → no_byte "#" v = true →
    ReplaceAll v ph new = v) as Habs.
  { intros ph new v [-> | ->] Hv; by apply (ReplaceAll_no_byte "#"). }
  assert (no_byte "#" (String "034" rest) = true) as Hr' by exact Hr.
  rewrite (replace_field traceOnDemandAppType) by (auto using field_or_clean).
  rewrite field_or_replace by auto.
  set (ty' := if decide (ty0 = "") then ty else ty0).
  assert (clean ty' = true) as Hty' by (unfold ty'; by case_decide).
  assert (ReplaceAll (json_middle +:+ field_or traceOnDemandAgentID id0 +:+ String "034" rest)
    traceOnDemandAppType ty = json_middle +:+ field_or traceOnDemandAgentID id0 +:+ String "034" rest) as ->.
  { change traceOnDemandAppType with (String "#" "traceOnDemandAppType#").
    rewrite (ReplaceAll_app_no_byte "#") by done. f_equal.
    change (String "#" "traceOnDemandAppType#") with traceOnDemandAppType.
    destruct (field_or_clean traceOnDemandAgentID id0 Hid0) as [Hid1| ->].
    - apply Habs; [auto|]. by rewrite no_byte_app, clean_no_byte.
    - rewrite replace_other. f_equal. apply Habs; auto. }
  rewrite <-(str_app_assoc ty' json_middle), <-(str_app_assoc u (ty' +:+ json_middle)).
  rewrite (replace_field traceOnDemandAgentID); [|by rewrite !no_byte_app, Hu, (clean_no_byte ty')|by right|].
  2:{ by apply field_or_clean. }
  rewrite field_or_replace, (Habs traceOnDemandAgentID) by auto. by rewrite !str_app_assoc.
Qed.

Lemma fix_context h a0 a token t :
  isConnectorConfigured a = true → clean_identity a0 = true → clean_identity a = true →
  clean token = true → no_byte "#" h = true →
  fixTracerContext a (h +:+ json_Context (mkTracerContext (field_or traceOnDemandAppType (ai_AppType a0))
    (field_or traceOnDemandAgentID (ai_AgentID a0)) token t ModelVersion) +:+ "}") =
  h +:+ json_Context (mkTracerContext (ai_AppType (identity_or a0 a)) (ai_AgentID (identity_or a0 a))
    token t ModelVersion) +:+ "}".
Proof.
  intros Hc Ha0 Ha Htok Hh. unfold fixTracerContext. rewrite Hc.
  apply andb_true_iff in Ha0 as [Hid0 Hty0]. apply andb_true_iff in Ha as [Hid Hty].
  assert (∀ ph x, ph = traceOnDemandAppType ∨ ph = traceOnDemandAgentID → clean x = true →
    plain (field_or ph x) = true) as Hpl.
  { intros ph x Hph Hx. unfold field_or. case_decide; [by destruct Hph; subst|].
    by apply andb_true_iff in Hx as []. }
  assert (∀ x y, clean x = true → clean y = true → plain (if decide (x = "") then y else x) = true) as Hpl'
    by (intros x y [Hx _]%andb_true_iff [Hy _]%andb_true_iff; by case_decide).
  rewrite !json_Context_fields by (unfold identity_or; cbn; auto).
  assert (∀ x y, h +:+ (json_start +:+ x +:+ json_middle +:+ y +:+ dq +:+ json_tail token t) +:+ "}" =
    (h +:+ json_start) +:+ x +:+ json_middle +:+ y +:+ String "034" (json_tail token t +:+ "}")) as Htext
    by (intros; by rewrite !str_app_assoc).
  rewrite !Htext. apply replace_fields; [| |done..].
  - by rewrite no_byte_app, Hh.
  - by rewrite no_byte_app, json_tail_no_hash.
Qed.

Lemma LastIndex_absent c s : no_byte c s = true → LastIndex s (String c "") = None.
Proof.
  induction s as [|d s IH]; [done|]. intros [Hd Hs]%andb_true_iff.
  apply negb_true_iff, bool_decide_eq_false in Hd.
  cbn [LastIndex]. rewrite IH by done. cbn [String.prefix]. by destruct (Ascii.ascii_dec c d).
Qed.

Lemma mix_text {C : TokenCache} FormatUUID s a now nano h t :
  has_context (h +:+ "}" +:+ t) = false → no_byte "}" t = true →
  let '(s', tc) := MakeTracerContext FormatUUID s a now nano in
  mixTracerContext FormatUUID s a now nano (h +:+ "}" +:+ t) =
    Ret (s', h +:+ "," +:+ dq +:+ "context" +:+ dq +:+ ":" +:+ json_Context tc +:+ "}",
         bool_decide (tc_AgentID tc = traceOnDemandAgentID) ||
         bool_decide (tc_AppType tc = traceOnDemandAppType)).
Proof.
  intros Hc Ht. unfold mixTracerContext. rewrite Hc.
  destruct (MakeTracerContext FormatUUID s a now nano) as [s' tc].
  change ("}" +:+ t) with (String "}" t). rewrite LastIndex_byte by done.
  unfold str_slice, slen. rewrite length_str_app. cbn [String.length].
  rewrite decide_True by lia. rewrite Z.sub_0_r, Nat2Z.id. change (Z.to_nat 0) with 0%nat.
  unfold str_drop. by rewrite str_take_app, bind_ret_l.
Qed.

(** ** Properties *)

(** The trace tokens of successive contexts of a process are pairwise
    different, whatever the identities and the times, up to 2^64 contexts: the
    counter is written prefix-free over the random part of the token. *)
Theorem MakeTracerContext_tokens {C : TokenCache} {CL : TokenCacheLaws C} (FormatUUID : string → string)
    (random : result string string) (now1 now2 : Z) (calls : list (AgentIdentity * Timestamp * Z)) :
  (∀ a b, String.length a = 16%nat → String.length b = 16%nat → FormatUUID a = FormatUUID b → a = b) →
  (Z.of_nat (length calls) ≤ 2 ^ 64)%Z →
  NoDup (tc_TraceToken <$> MakeTracerContexts FormatUUID (initTracerToken random now1 now2) calls).
Proof.
  intros Hinj Hlen. apply NoDup_alt. intros i j x Hi Hj.
  set (s := initTracerToken random now1 now2) in *.
  assert (tc_get (tracerCache s) ckTracerToken = Some 1%Z) as Hg by apply tc_get_set.
  assert (∀ k, (tc_TraceToken <$> MakeTracerContexts FormatUUID s calls) !! k = Some x →
    (k < length calls)%nat) as Hlt.
  { intros k Hk%lookup_lt_Some. by rewrite length_fmap, length_MakeTracerContexts in Hk. }
  pose proof (Hlt _ Hi) as Hil. pose proof (Hlt _ Hj) as Hjl.
  rewrite (MakeTracerContexts_tokens _ _ _ 1) in Hi by done.
  rewrite (MakeTracerContexts_tokens _ _ _ 1) in Hj by done.
  rewrite <-Hj in Hi. injection Hi as Hi.
  assert (∀ v, String.length (PutUvarint (put_bytes zero16 (str_take 16 (tracerToken s))) v) = 16%nat) as H16.
  { intros v. unfold PutUvarint. rewrite length_put_bytes; [apply length_token_buf|].
    rewrite length_token_buf. pose proof (length_uvarint_bytes 10 v). lia. }
  apply Hinj in Hi; [|apply H16..]. unfold PutUvarint, put_bytes in Hi.
  apply uvarint_inj in Hi;
    [|pose proof (Z.mod_pos_bound (1 + 1 + Z.of_nat i) (2 ^ 64)); lia
     |pose proof (Z.mod_pos_bound (1 + 1 + Z.of_nat j) (2 ^ 64)); lia].
  assert ((Z.of_nat i - Z.of_nat j) `mod` 2 ^ 64 = 0)%Z as Hm.
  { replace (Z.of_nat i - Z.of_nat j)%Z with ((1 + 1 + Z.of_nat i) - (1 + 1 + Z.of_nat j))%Z by lia.
    rewrite Zminus_mod, Hi, Z.sub_diag. done. }
  apply Z.mod_divide in Hm as [q Hq]; [|lia].
  assert (q = 0)%Z by nia. lia.
Qed.

Definition hex_UUID (b : string) : string := hex_encode b.

Lemma MakeTracerContext_tokens_witness :
  let calls := [(mkAgentIdentity "id" "app" "VEMA", mkTimestamp 0 0 UTCLoc, 0%Z);
                (mkAgentIdentity "id" "app" "VEMA", mkTimestamp 0 0 UTCLoc, 0%Z)] in
  NoDup (tc_TraceToken <$> @MakeTracerContexts map_token_cache hex_UUID
    (@initTracerToken map_token_cache (Val "0123456789abcdef") 0 0) calls).
Proof.
  apply (@MakeTracerContext_tokens map_token_cache map_token_cache_laws hex_UUID
    (Val "0123456789abcdef") 0 0).
  - intros a b _ _ Hab. apply (f_equal hex_decode) in Hab. unfold hex_UUID in Hab.
    rewrite !hex_decode_encode in Hab. by injection Hab.
  - discriminate.
Defined.

(** [mixTracerContext]: a payload that names a context is left alone; one
    without a closing brace panics; otherwise the context is put before the last
    closing brace, and what followed that brace is dropped.  Placeholders are
    announced exactly when an identity is empty or is a placeholder. *)
Theorem mixTracerContext_text {C : TokenCache} (FormatUUID : string → string) (s : tracer)
    (a : AgentIdentity) (now : Timestamp) (nano : Z) :
  (∀ p, has_context p = true → ∃ todo, mixTracerContext FormatUUID s a now nano p = Ret (s, p, todo) ∧
     (todo = true ↔ Contains p traceOnDemandAgentID = true ∨ Contains p traceOnDemandAppType = true)) ∧
  (∀ p, has_context p = false → no_byte "}" p = true →
     is_panic (mixTracerContext FormatUUID s a now nano p) = true) ∧
  (∀ h t, has_context (h +:+ "}" +:+ t) = false → no_byte "}" t = true →
     let '(s', tc) := MakeTracerContext FormatUUID s a now nano in
     ∃ todo, mixTracerContext FormatUUID s a now nano (h +:+ "}" +:+ t) =
       Ret (s', h +:+ "," +:+ dq +:+ "context" +:+ dq +:+ ":" +:+ json_Context tc +:+ "}", todo) ∧
     (todo = true ↔ ai_AgentID a ∈ [""; traceOnDemandAgentID] ∨ ai_AppType a ∈ [""; traceOnDemandAppType])).
Proof.
  split_and!.
  - intros p Hp. unfold mixTracerContext. rewrite Hp. eexists. split; [done|]. apply orb_true_iff.
  - intros p Hp Hb. unfold mixTracerContext. rewrite Hp.
    destruct (MakeTracerContext FormatUUID s a now nano) as [s' tc].
    rewrite LastIndex_absent by done. unfold str_slice. rewrite decide_False by lia. done.
  - intros h t Hp Ht. pose proof (mix_text FormatUUID s a now nano h t Hp Ht) as Hm.
    destruct (MakeTracerContext FormatUUID s a now nano) as [s' tc] eqn:E.
    rewrite Hm. eexists. split; [done|]. clear Hm. unfold MakeTracerContext in E.
    destruct (tc_incr _ _ _) as [cache inc]. injection E as _ <-. cbn.
    rewrite orb_true_iff, !bool_decide_eq_true.
    rewrite !elem_of_cons, !elem_of_nil.
    destruct (decide (ai_AgentID a = "")), (decide (ai_AppType a = "")); intuition.
Qed.

Lemma mixTracerContext_text_witness :
  is_panic (@mixTracerContext map_token_cache hex_UUID (@initTracerToken map_token_cache (Val "0123456789abcdef") 0 0)
    (mkAgentIdentity "id" "app" "VEMA") (mkTimestamp 0 0 UTCLoc) 0 "[]") = true.
Proof.
  apply (@mixTracerContext_text map_token_cache hex_UUID (@initTracerToken map_token_cache (Val "0123456789abcdef") 0 0)
    (mkAgentIdentity "id" "app" "VEMA") (mkTimestamp 0 0 UTCLoc) 0%Z); reflexivity.
Defined.

(** Completing what was mixed gives each part of the identity that was missing. *)
Lemma fix_after_mix_or {C : TokenCache} (FormatUUID : string → string) (s : tracer)
    (a0 a : AgentIdentity) (now : Timestamp) (nano : Z) (h t : string) (s' : tracer) (q : string) (todo : bool) :
  (∀ b, clean (FormatUUID b) = true) →
  clean_identity a0 = true → clean_identity a = true → isConnectorConfigured a = true →
  has_context (h +:+ "}" +:+ t) = false → no_byte "}" t = true → no_byte "#" h = true →
  mixTracerContext FormatUUID s a0 now nano (h +:+ "}" +:+ t) = Ret (s', q, todo) →
  mixTracerContext FormatUUID s (identity_or a0 a) now nano (h +:+ "}" +:+ t) =
    Ret (s', fixTracerContext a q, false).
Proof.
  intros Huuid Ha0 Ha Hcfg Hc Ht Hh.
  pose proof (mix_text FormatUUID s a0 now nano h t Hc Ht) as H0.
  pose proof (mix_text FormatUUID s (identity_or a0 a) now nano h t Hc Ht) as H1.
  assert (ai_AgentID a ≠ "" ∧ ai_AppType a ≠ "") as [Hid Hty].
  { unfold isConnectorConfigured, isConfiguredAgentID, isConfiguredAppType in Hcfg.
    rewrite !andb_true_iff, !negb_true_iff, !bool_decide_eq_false in Hcfg. tauto. }
  assert (ai_AgentID (identity_or a0 a) ≠ "" ∧ ai_AppType (identity_or a0 a) ≠ "") as [Hid' Hty'].
  { unfold identity_or. cbn. split; by case_decide. }
  pose proof Ha0 as [Hcid0 Hcty0]%andb_true_iff. pose proof Ha as [Hcid Hcty]%andb_true_iff.
  unfold MakeTracerContext in H0, H1. destruct (tc_incr _ _ _) as [cache inc].
  rewrite H0. intros [= <- <- _]. rewrite H1. rewrite (decide_False (P := ai_AgentID _ = "")) by done.
  rewrite (decide_False (P := ai_AppType _ = "")) by done. cbn [tc_AgentID tc_AppType].
  do 2 f_equal.
  - f_equal. symmetry.
    pose proof (fix_context (h +:+ "," +:+ dq +:+ "context" +:+ dq +:+ ":") a0 a
      (FormatUUID (match inc with
                   | Some tokenInc => PutUvarint (put_bytes zero16 (str_take 16 (tracerToken s))) tokenInc
                   | None => PutVarint (put_bytes zero16 (str_take 16 (tracerToken s))) nano end))
      (Some (NewTimestamp now)) Hcfg Ha0 Ha (Huuid _)) as Hf.
    rewrite !str_app_assoc in Hf. apply Hf. by rewrite no_byte_app, Hh.
  - rewrite !bool_decide_false; [done| |].
    + apply (clean_ne_placeholder (ai_AppType (identity_or a0 a))). by apply clean_identity_or.
    + apply (clean_ne_placeholder (ai_AgentID (identity_or a0 a))). by apply clean_identity_or.
Qed.

(** A configuration completes the identity of an agent: what it had stays. *)
Definition completes (a0 a : AgentIdentity) : Prop :=
  (ai_AgentID a0 = "" ∨ ai_AgentID a0 = ai_AgentID a) ∧ (ai_AppType a0 = "" ∨ ai_AppType a0 = ai_AppType a).

Lemma identity_or_completes a0 a :
  completes a0 a → ai_AgentID (identity_or a0 a) = ai_AgentID a ∧ ai_AppType (identity_or a0 a) = ai_AppType a.
Proof. intros [[H1|H1] [H2|H2]]; unfold identity_or; cbn; rewrite ?H1, ?H2; split; by case_decide. Qed.

Lemma mix_same_identity {C : TokenCache} FormatUUID s a b now nano p :
  ai_AgentID a = ai_AgentID b → ai_AppType a = ai_AppType b →
  mixTracerContext FormatUUID s a now nano p = mixTracerContext FormatUUID s b now nano p.
Proof. intros H1 H2. unfold mixTracerContext, MakeTracerContext. by rewrite H1, H2. Qed.

Lemma completes_clean a0 a : completes a0 a → clean_identity a = true → clean_identity a0 = true.
Proof.
  intros [H1 H2] [H3 H4]%andb_true_iff. unfold clean_identity. destruct H1 as [->| ->], H2 as [->| ->]; by rewrite ?H3, ?H4.
Qed.

(** C19: A payload without a context of its own, mixed by an agent that lacks its id, its type
    or both and whose configuration then gives the missing ones, is marked for completion
    and becomes by it, byte for byte, the payload the configured agent would have mixed at
    that time: the deferred context loses nothing.  This is for identities that JSON writes
    without escapes and that have no number sign, as the placeholders do, and for payloads
    without one before their last brace; an identity that is itself a deployment
    placeholder is another matter ([mix_placeholder_id]). *)
Theorem fix_after_mix {C : TokenCache} (FormatUUID : string → string) (s : tracer)
    (a0 a : AgentIdentity) (now : Timestamp) (nano : Z) (h t : string) (s' : tracer) (q : string) (todo : bool) :
  (∀ b, clean (FormatUUID b) = true) →
  completes a0 a → clean_identity a = true → isConnectorConfigured a = true →
  has_context (h +:+ "}" +:+ t) = false → no_byte "}" t = true → no_byte "#" h = true →
  mixTracerContext FormatUUID s a0 now nano (h +:+ "}" +:+ t) = Ret (s', q, todo) →
  todo = bool_decide (ai_AgentID a0 = "" ∨ ai_AppType a0 = "") ∧
  mixTracerContext FormatUUID s a now nano (h +:+ "}" +:+ t) = Ret (s', fixTracerContext a q, false).
Proof.
  intros Huuid Hco Ha Hcfg Hc Ht Hh H0.
  pose proof (completes_clean _ _ Hco Ha) as Ha0. destruct (identity_or_completes _ _ Hco) as [Hid Hty]. split.
  - pose proof (mix_text FormatUUID s a0 now nano h t Hc Ht) as Hm. unfold MakeTracerContext in Hm.
    destruct (tc_incr _ _ _) as [cache inc]. rewrite H0 in Hm. injection Hm as _ _ ->. cbn [tc_AgentID tc_AppType].
    apply andb_true_iff in Ha0 as [[_ HI]%clean_ne_placeholder [HT _]%clean_ne_placeholder].
    destruct (decide (ai_AgentID a0 = "")) as [Hi|Hi].
    { by rewrite (bool_decide_true (_ ∨ _)) by auto. }
    rewrite (bool_decide_false (ai_AgentID a0 = _)) by done. cbn [orb].
    destruct (decide (ai_AppType a0 = "")) as [Hy|Hy].
    { by rewrite (bool_decide_true (_ ∨ _)) by auto. }
    rewrite !bool_decide_false; [done|naive_solver|done].
  - rewrite <-(mix_same_identity FormatUUID s (identity_or a0 a) a) by done.
    exact (fix_after_mix_or FormatUUID s a0 a now nano h t s' q todo Huuid Ha0 Ha Hcfg Hc Ht Hh H0).
Qed.

Definition hash_UUID (b : string) : string := "00000000-0000-0000-0000-000000000002".

Lemma fix_after_mix_witness :
  let s := @initTracerToken map_token_cache (Val "0123456789abcdef") 0 0 in
  let now := mkTimestamp 5 0 UTCLoc in
  match mixTracerContext hash_UUID s (mkAgentIdentity "" "" "VEMA") now 0 "{}" with
  | Ret (s', q, todo) => todo = true ∧
      mixTracerContext hash_UUID s (mkAgentIdentity "agent" "app" "VEMA") now 0 "{}" =
        Ret (s', fixTracerContext (mkAgentIdentity "agent" "app" "VEMA") q, false)
  | Panic _ => False
  end.
Proof.
  intros s now. destruct (mixTracerContext hash_UUID s (mkAgentIdentity "" "" "VEMA") now 0 "{}")
    as [[[s' q] todo]|w] eqn:E.
  - destruct (fix_after_mix hash_UUID s (mkAgentIdentity "" "" "VEMA") (mkAgentIdentity "agent" "app" "VEMA") now 0%Z
      "{" "" s' q todo) as [H1 H2]; [reflexivity|split; [by left|by right]|reflexivity..|exact E|].
    split; [exact H1|exact H2].
  - assert (is_ret (mixTracerContext hash_UUID s (mkAgentIdentity "" "" "VEMA") now 0 "{}") = true) as Hr
      by (vm_compute; reflexivity).
    rewrite E in Hr. discriminate.
Defined.

(** An agent whose id is the deployment placeholder is not configured, yet the
    contexts it makes carry the placeholder and are not announced for a fix: the
    payload stays as it is under any later configuration. *)
Theorem mix_placeholder_id {C : TokenCache} (FormatUUID : string → string) (s : tracer)
    (a0 a : AgentIdentity) (now : Timestamp) (nano : Z) (h t : string) :
  (∀ b, clean (FormatUUID b) = true) → clean_identity a0 = true → clean_identity a = true →
  ai_AgentID a0 = placeholderAgentID → ai_AppType a0 ≠ "" →
  has_context (h +:+ "}" +:+ t) = false → no_byte "}" t = true → no_byte "#" h = true →
  isConnectorConfigured a0 = false ∧
  ∃ s' q, mixTracerContext FormatUUID s a0 now nano (h +:+ "}" +:+ t) = Ret (s', q, false) ∧
    Contains q placeholderAgentID = true ∧ fixTracerContext a q = q.
Proof.
  intros Huuid Ha0 Ha Hid Hty Hc Ht Hh. split.
  { unfold isConnectorConfigured, isConfiguredAgentID. rewrite Hid. by vm_compute. }
  pose proof (mix_text FormatUUID s a0 now nano h t Hc Ht) as H0. unfold MakeTracerContext in H0.
  destruct (tc_incr _ _ _) as [cache inc]. rewrite H0. clear H0.
  rewrite Hid. rewrite (decide_False (P := placeholderAgentID = "")) by done.
  rewrite (decide_False (P := ai_AppType a0 = "")) by done. cbn [tc_AgentID tc_AppType].
  pose proof Ha0 as [Hcid0 Hcty0]%andb_true_iff.
  rewrite (bool_decide_false (ai_AppType a0 = _)) by by apply clean_ne_placeholder.
  set (tok := FormatUUID _). assert (clean tok = true) as Htok by apply Huuid. eexists _, _. split; [done|].
  assert (plain (ai_AppType a0) = true) as Hpty by by apply andb_true_iff in Hcty0 as [].
  rewrite json_Context_fields by done. split.
  - apply Contains_spec.
    exists (h +:+ "," +:+ dq +:+ "context" +:+ dq +:+ ":" +:+ json_start +:+ ai_AppType a0 +:+ json_middle).
    eexists. rewrite !str_app_assoc. done.
  - unfold fixTracerContext. destruct (isConnectorConfigured a); [|done].
    assert (no_byte "#" (h +:+ "," +:+ dq +:+ "context" +:+ dq +:+ ":" +:+ (json_start +:+ ai_AppType a0 +:+
      json_middle +:+ placeholderAgentID +:+ dq +:+ json_tail tok (Some (NewTimestamp now))) +:+ "}") = true) as Hn.
    { rewrite !no_byte_app, Hh, json_tail_no_hash, (clean_no_byte (ai_AppType a0)) by done. done. }
    change traceOnDemandAppType with (String "#" "traceOnDemandAppType#").
    change traceOnDemandAgentID with (String "#" "traceOnDemandAgentID#").
    rewrite (ReplaceAll_no_byte "#" "traceOnDemandAppType#") by exact Hn.
    by rewrite (ReplaceAll_no_byte "#" "traceOnDemandAgentID#").
Qed.

Lemma mix_placeholder_id_witness :
  isConnectorConfigured (mkAgentIdentity "AGENT_ID" "app" "VEMA") = false.
Proof.
  apply (mix_placeholder_id hash_UUID (@initTracerToken map_token_cache (Val "0123456789abcdef") 0 0)
    (mkAgentIdentity "AGENT_ID" "app" "VEMA") (mkAgentIdentity "agent" "app" "VEMA") (mkTimestamp 5 0 UTCLoc) 0%Z "{" "");
    first [discriminate | reflexivity | vm_compute; reflexivity].
Defined.
