(* ===== verification/Http.v ===== *)
(** sdk/clients/header.go and request.go: HTTP headers and their sharing through
    the context, the request type [Req] and query strings.

    The network is a world [W] behind the interface [Transport]; [net/url] and
    [http.Header] are modelled. *)

From S2P Require Import Prelude GoString Errors Payload.

Local Open Scope string_scope.

(** ** [http.Header] *)

Abbreviation Header := (gmap string (list string)).

Definition HdrCompressed : string := "Compressed".
Definition HdrPayloadLen : string := "Payload-Length".
Definition HdrPayloadType : string := "Payload-Type".
Definition HdrSpanSpanID : string := "Span-Span-Id".
Definition HdrSpanTraceID : string := "Span-Trace-Id".
Definition HdrSpanTraceFlags : string := "Span-Trace-Flags".
Definition HdrTodoTracerCtx : string := "Todo-Tracer-Ctx".

(** [textproto.CanonicalMIMEHeaderKey]: the first letter and those after a hyphen
    in upper case, the others in lower case; a key with a byte that is not a
    token character is left alone. *)
Definition is_upper (c : ascii) : bool := bool_decide (65 ≤ Ascii.nat_of_ascii c ≤ 90)%nat.
Definition is_lower (c : ascii) : bool := bool_decide (97 ≤ Ascii.nat_of_ascii c ≤ 122)%nat.
Definition is_dec (c : ascii) : bool := bool_decide (48 ≤ Ascii.nat_of_ascii c ≤ 57)%nat.

Definition is_token_char (c : ascii) : bool :=
  is_upper c || is_lower c || is_dec c || has_byte c "!#$%&'*+-.^_`|~".

Fixpoint canonical_go (upper : bool) (s : string) : string :=
  match s with
  | "" => ""
  | String c s =>
      let n := Ascii.nat_of_ascii c in
      let c' := if upper && is_lower c then Ascii.ascii_of_nat (n - 32)
                else if negb upper && is_upper c then Ascii.ascii_of_nat (n + 32) else c in
      String c' (canonical_go (bool_decide (c = "-"%char)) s)
  end.

Definition CanonicalKey (s : string) : string :=
  if str_forallb is_token_char s then canonical_go true s else s.

Definition h_Get (h : Header) (k : string) : string :=
  match h !! CanonicalKey k with Some (v :: _) => v | _ => "" end.
Definition h_Set (h : Header) (k v : string) : Header := <[CanonicalKey k := [v]]> h.
Definition h_Add (h : Header) (k v : string) : Header :=
  <[CanonicalKey k := app (default [] (h !! CanonicalKey k)) [v]]> h.
Definition h_Del (h : Header) (k : string) : Header := delete (CanonicalKey k) h.

(** [maps.Copy(dst, src)] *)
Definition maps_Copy {A} (dst src : gmap string A) : gmap string A := src ∪ dst.

(** ** The context

    A context carries a reference to a header (a Go map): the headers live in a
    store, so that writing through one context is seen through the others. *)
Abbreviation loc := nat.
Abbreviation store := (gmap loc Header).

(** The header reference of a context, if it has one. *)
Definition context := option loc.

Definition HeaderFromCtx (st : store) (ctx : context) : option Header :=
  l ← ctx; st !! l.

(** [CtxWithHeader(ctx, header)]: the header of [ctx] is updated in place if there
    is one; otherwise the new context refers to [header] itself. *)
Definition CtxWithHeader (st : store) (ctx : context) (header : loc) : store * context :=
  match ctx with
  | Some l => (<[l := maps_Copy (default ∅ (st !! l)) (default ∅ (st !! header))]> st, Some l)
  | None => (st, Some header)
  end.

(** ** [net/url] *)

Definition is_unreserved (c : ascii) : bool :=
  is_upper c || is_lower c || is_dec c || has_byte c "-_.~".

Definition upper_hex (n : nat) : ascii := default "0"%char (String.get n "0123456789ABCDEF").

(** [url.QueryEscape] *)
Fixpoint QueryEscape (s : string) : string :=
  match s with
  | "" => ""
  | String c s =>
      let n := Ascii.nat_of_ascii c in
      if is_unreserved c then String c (QueryEscape s)
      else if bool_decide (c = " "%char) then String "+" (QueryEscape s)
      else String "%" (String (upper_hex (n / 16)) (String (upper_hex (n mod 16)) (QueryEscape s)))
  end.

(** [url.QueryUnescape], the function a server applies to read a value back. *)
Fixpoint QueryUnescape (s : string) : option string :=
  match s with
  | "" => Some ""
  | String c s' =>
      if bool_decide (c = "%"%char) then
        match s' with
        | String a (String b s'') =>
            x ← hex_value a; y ← hex_value b; r ← QueryUnescape s'';
            Some (String (Ascii.ascii_of_nat (16 * x + y)) r)
        | _ => None
        end
      else r ← QueryUnescape s'; Some (String (if bool_decide (c = "+"%char) then " "%char else c) r)
  end.

Definition appendSeparator (params : string) : string :=
  if decide (params = "") then "?" else params +:+ "&".

Section query.
Context `{MapOrder}.

(** [BuildQueryParams(params)] *)
Definition BuildQueryParams (params : gmap string string) : string :=
  foldl (λ query kv, appendSeparator query +:+ QueryEscape kv.1 +:+ "=" +:+ QueryEscape kv.2)
    "" (map_order params).
End query.

(** [url.Values.Encode] of single values: sorted by key. *)
Definition key_leb (a b : string * string) : Prop := String.leb a.1 b.1 = true.

#[export] Instance key_leb_dec : RelDecision key_leb.
Proof. intros a b. unfold key_leb. apply _. Defined.

Definition Encode (form : gmap string string) : string :=
  Join ((λ kv, QueryEscape kv.1 +:+ "=" +:+ QueryEscape kv.2) <$>
          merge_sort key_leb (map_to_list form)) "&".

(** ** Requests *)

Record http_request := mkHttpRequest {
  hr_Method : string;
  hr_URL : string;
  hr_Header : Header;
  hr_Body : option string;
}.

(** The network: building a request may fail (method, URL); sending it gives an
    error or a status and a body. *)
Class Transport (W : Type) := {
  new_request : string → string → option error;
  client_do : W → http_request → W * result error (Z * string);
}.

Record Req := mkReq {
  q_Err : option error;
  q_Form : option (gmap string string);
  q_Headers : gmap string string;
  q_Method : string;
  q_Payload : option string;
  q_Response : string;
  q_Status : Z;
  q_URL : string;
}.

Definition new_Req (method url : string) (headers : gmap string string)
    (form : option (gmap string string)) (payload : option string) : Req :=
  mkReq None form headers method payload "" 0 url.

Section requests.
Context `{MapOrder} {W : Type} `{Transport W}.

(** [TCG_HTTP_CLIENT_KEEPALIVE] *)
Context (httpClientKeepAlive : bool).

Definition req_body (q : Req) : option string :=
  match q_Form q with
  | Some form => Some (Encode form)
  | None => q_Payload q
  end.

(** The request sent: the header of the context, then the headers of [q] added. *)
Definition req_header (ctxh : option Header) (q : Req) : Header :=
  let h := match ctxh with Some h => maps_Copy ∅ h | None => ∅ end in
  let h := if httpClientKeepAlive then h else h_Set h "Connection" "close" in
  foldl (λ h kv, h_Add h kv.1 kv.2) h (map_order (q_Headers q)).

Definition set_error (q : Req) (e : error) : Req :=
  mkReq (Some e) (q_Form q) (q_Headers q) (q_Method q) (q_Payload q) (q_Response q) (-1)%Z (q_URL q).

(** [Req.SendWithContext(ctx)] *)
Definition SendWithContext (w : W) (ctxh : option Header) (q : Req) : W * Req * option error :=
  match new_request (q_Method q) (q_URL q) with
  | Some err => (w, set_error q err, Some err)
  | None =>
      let '(w, r) := client_do w (mkHttpRequest (q_Method q) (q_URL q) (req_header ctxh q) (req_body q)) in
      match r with
      | Fail err => (w, set_error q err, Some err)
      | Val (status, body) =>
          (w, mkReq (q_Err q) (q_Form q) (q_Headers q) (q_Method q) (q_Payload q) body status (q_URL q), None)
      end
  end.

Definition Send (w : W) (q : Req) : W * Req * option error := SendWithContext w None q.

(** [SendRequest]: the status, the response and the error left in the request. *)
Definition SendRequest (w : W) (method url : string) (headers : gmap string string)
    (form : option (gmap string string)) (body : option string) : W * Z * string * option error :=
  let '(w, q, _) := Send w (new_Req method url headers form body) in
  (w, q_Status q, q_Response q, q_Err q).
End requests.

(** [IsGZipped]: the magic number 1f 8b, in more than two bytes. *)
Definition IsGZipped (p : string) : bool :=
  match p with
  | String a (String b (String _ _)) => bool_decide (a = "031"%char) && bool_decide (b = "139"%char)
  | _ => false
  end.

Definition last_byte (s : string) : option ascii := String.get (String.length s - 1) s.

(** [IsJSON]: the text is enclosed in braces or in brackets. *)
Definition IsJSON (s : string) : bool :=
  bool_decide (2 ≤ String.length s)%nat &&
  ((bool_decide (String.get 0 s = Some "{"%char) && bool_decide (last_byte s = Some "}"%char)) ||
   (bool_decide (String.get 0 s = Some "["%char) && bool_decide (last_byte s = Some "]"%char))).

(** [strconv.ParseBool] *)
Definition ParseBool (s : string) : option bool :=
  if decide (s ∈ ["1"; "t"; "T"; "TRUE"; "true"; "True"]) then Some true
  else if decide (s ∈ ["0"; "f"; "F"; "FALSE"; "false"; "False"]) then Some false
  else None.

(** ** Lemmas *)

Lemma QueryEscape_unescape s : QueryUnescape (QueryEscape s) = Some s.
Proof.
  induction s as [|c s IH]; [done|]. cbn [QueryEscape]. destruct (is_unreserved c) eqn:Hu.
  - cbn [QueryUnescape]. rewrite IH. cbn [mbind option_bind].
    repeat case_bool_decide; subst; done.
  - case_bool_decide as Hs.
    + cbn [QueryUnescape]. rewrite IH. by subst.
    + cbn [QueryUnescape]. rewrite bool_decide_true by done. rewrite IH.
      pose proof (Ascii.nat_ascii_bounded c).
      assert (∀ n, (n < 16)%nat → hex_value (upper_hex n) = Some n) as Hx
        by (intros n Hn; do 16 (destruct n as [|n]; [reflexivity|]); lia).
      rewrite !Hx by first [apply Nat.Div0.div_lt_upper_bound; lia | apply Nat.mod_upper_bound; lia].
      cbn [mbind option_bind]. rewrite <-Nat.div_mod_eq. by rewrite Ascii.ascii_nat_embedding.
Qed.

(** The bytes of an escaped value: no separator among them. *)
Definition is_separator (c : ascii) : bool := has_byte c "&=?".

Lemma QueryEscape_no_separator s : str_forallb (λ c, negb (is_separator c)) (QueryEscape s) = true.
Proof.
  assert (∀ n, (n < 16)%nat → negb (is_separator (upper_hex n)) = true) as Hx
    by (intros n Hn; do 16 (destruct n as [|n]; [reflexivity|]); lia).
  induction s as [|c s IH]; [done|]. cbn [QueryEscape]. destruct (is_unreserved c) eqn:Hu.
  - cbn [str_forallb]. rewrite IH, andb_true_r. by destruct c as [[] [] [] [] [] [] [] []].
  - case_bool_decide; [cbn [str_forallb]; by rewrite IH|].
    pose proof (Ascii.nat_ascii_bounded c). cbn [str_forallb]. rewrite IH.
    rewrite !Hx by first [apply Nat.Div0.div_lt_upper_bound; lia | apply Nat.mod_upper_bound; lia]. done.
Qed.

Lemma h_Get_Set h k v : h_Get (h_Set h k v) k = v.
Proof. unfold h_Get, h_Set. by rewrite lookup_insert_eq. Qed.

Lemma h_Get_Set_ne h k k' v :
  CanonicalKey k ≠ CanonicalKey k' → h_Get (h_Set h k v) k' = h_Get h k'.
Proof. intros. unfold h_Get, h_Set. by rewrite lookup_insert_ne. Qed.

Lemma maps_Copy_empty {A} (m : gmap string A) : maps_Copy ∅ m = m.
Proof. apply map_union_empty. Qed.

(** ** Properties *)

(** A query string lists every parameter once, in some order, as a pair of
    escaped name and value; the escapes hold no separator and decode to the name
    and the value, so that the server reads the parameters back. *)
Theorem BuildQueryParams_pairs `{MapOrder} (params : gmap string string) :
  ∃ l, l ≡ₚ map_to_list params ∧
    BuildQueryParams params =
      (if decide (params = ∅) then "" else "?" +:+ Join ((λ kv, QueryEscape kv.1 +:+ "=" +:+ QueryEscape kv.2) <$> l) "&") ∧
    Forall (λ kv, str_forallb (λ c, negb (is_separator c)) (QueryEscape kv.1) = true ∧
                  str_forallb (λ c, negb (is_separator c)) (QueryEscape kv.2) = true ∧
                  QueryUnescape (QueryEscape kv.1) = Some kv.1 ∧
                  QueryUnescape (QueryEscape kv.2) = Some kv.2) l.
Proof.
  exists (map_order params). split; [apply map_order_perm|]. split.
  - unfold BuildQueryParams. set (f := λ kv : string * string, _).
    assert (∀ l q, q ≠ "" → foldl (λ query kv, appendSeparator query +:+ f kv) q l =
      Join (q :: (f <$> l)) "&") as Hgen.
    { induction l as [|kv l IH]; intros q Hq; [done|]. cbn [foldl fmap list_fmap].
      rewrite IH; [|unfold appendSeparator; rewrite decide_False by done; by destruct q].
      unfold appendSeparator. rewrite decide_False by done.
      rewrite (Join_cons q) by done. destruct (f <$> l); cbn [Join]; by rewrite !str_app_assoc. }
    destruct (map_order params) as [|kv l] eqn:E.
    + assert (params = ∅) as -> by (apply map_to_list_empty_iff, Permutation_nil_r; by rewrite <-map_order_perm, E).
      by rewrite decide_True.
    + rewrite decide_False.
      2:{ intros ->. pose proof (map_order_perm _ (∅ : gmap string string)) as Hp.
          rewrite map_to_list_empty, E in Hp. by apply Permutation_nil_r in Hp. }
      cbn [foldl]. rewrite Hgen by done. cbn [fmap list_fmap].
      destruct (f <$> l) as [|s k]; done.
  - apply Forall_forall. intros kv _. auto using QueryEscape_unescape, QueryEscape_no_separator.
Qed.

(** A header attached to a context that already has one is written into the
    existing map: every holder of the old context sees the new entries, the new
    entries win, and no entry is lost. *)
Theorem CtxWithHeader_shares (st : store) (l h : loc) (a b : Header) :
  st !! l = Some a → st !! h = Some b →
  let '(st', ctx') := CtxWithHeader st (Some l) h in
  ctx' = Some l ∧ HeaderFromCtx st' ctx' = HeaderFromCtx st' (Some l) ∧
  HeaderFromCtx st' (Some l) = Some (b ∪ a) ∧
  (∀ k, b !! k = None → (b ∪ a) !! k = a !! k) ∧
  (∀ l', l' ≠ l → st' !! l' = st !! l').
Proof.
  intros Ha Hb. unfold CtxWithHeader. rewrite Ha, Hb. cbn [default from_option id].
  unfold maps_Copy. split_and!; [done|done| | |].
  - unfold HeaderFromCtx. cbn [mbind option_bind]. by rewrite lookup_insert_eq.
  - intros k Hk. by apply lookup_union_r.
  - intros l' Hne. by rewrite lookup_insert_ne.
Qed.

Lemma CtxWithHeader_shares_witness :
  HeaderFromCtx (CtxWithHeader (<[0%nat := {["A" := ["1"]]}]> {[1%nat := {["B" := ["2"]]}]}) (Some 0%nat) 1%nat).1
    (Some 0%nat) = Some ({["B" := ["2"]]} ∪ {["A" := ["1"]]} : Header).
Proof.
  apply (CtxWithHeader_shares (<[0%nat := {["A" := ["1"]]}]> {[1%nat := {["B" := ["2"]]}]}) 0%nat 1%nat
    {["A" := ["1"]]} {["B" := ["2"]]}); reflexivity.
Defined.
