(* ===== verification/Nats.v ===== *)
(** nats/nats.go: the embedded NATS server, its stream, the publisher channel
    and the life cycle of server and dispatcher.

    The NATS server, its client library and the disk are not part of the program:
    the results of the calls to them are arguments of the operations. *)

From S2P Require Import Prelude GoString Errors Http.

Local Open Scope Z_scope.

Definition ErrNATS : error := Named "ErrNATS" "nats error" None.
Definition ErrDispatcher : error := Named "ErrDispatcher" "nats error: dispatcher" (Some ErrNATS).
Definition ErrPayloadLim : error :=
  Named "ErrPayloadLim" "nats error: payload oversized limit" (Some ErrNATS).

(** ** Configuration and stream *)

Record Config := mkConfig {
  AckWait : Z;
  MaxPayload : Z;
  MonitorPort : Z;
  StoreDir : string;
  StoreType : string;
  StoreMaxAge : Z;
  StoreMaxBytes : Z;
  StoreMaxMsgs : Z;
  ConfigFile : string;
}.

Inductive StorageType := FileStorage | MemoryStorage.

#[export] Instance StorageType_eq_dec : EqDecision StorageType.
Proof. solve_decision. Defined.

(** The fields of [jetstream.StreamConfig] that depend on the configuration. *)
Record StreamConfig := mkStreamConfig {
  Storage : StorageType;
  MaxAge : Z;
  MaxBytes : Z;
  MaxMsgs : Z;
}.

(** [strings.ToUpper] on ASCII. *)
Definition upper_byte (c : ascii) : ascii :=
  let n := Ascii.nat_of_ascii c in
  if decide (97 ≤ n ≤ 122)%nat then Ascii.ascii_of_nat (n - 32) else c.

Fixpoint ToUpper (s : string) : string :=
  match s with ""%string => ""%string | String c s => String (upper_byte c) (ToUpper s) end.

Definition storage (arg : string) : StorageType :=
  if decide (ToUpper arg = "MEMORY"%string) then MemoryStorage else FileStorage.

Definition stream_config (c : Config) : StreamConfig :=
  mkStreamConfig (storage (StoreType c)) (StoreMaxAge c) (StoreMaxBytes c) (StoreMaxMsgs c).

Definition equalStreamConfig (c1 c2 : StreamConfig) : bool :=
  bool_decide (MaxAge c1 = MaxAge c2) && bool_decide (MaxBytes c1 = MaxBytes c2) &&
  bool_decide (MaxMsgs c1 = MaxMsgs c2) && bool_decide (Storage c1 = Storage c2).

Definition isJSStorageErr (e : error) : bool :=
  match AsAPIError e with
  | Some c => bool_decide (c = 10023) || bool_decide (c = 10047)
  | None => false
  end.

Definition ErrStreamNotFound : error :=
  Named "jetstream.ErrStreamNotFound" "nats: API error: stream not found" None.

(** JetStream and the disk as [defineStream] sees them. *)
Record jetstream := mkJetstream {
  js_new : option error;                          (** [jetstream.New] *)
  js_Stream : option error;                       (** [js.Stream] *)
  js_Info : result error StreamConfig;            (** [stream.Info] *)
  js_UpdateStream : StreamConfig → option error;
  js_CreateStream : StreamConfig → option error;
  disk_Usage : result error Z;                    (** the [Free] bytes, a uint64 *)
}.

Inductive call := UpdateStream (c : StreamConfig) | CreateStream (c : StreamConfig).

Definition run_call (js : jetstream) (create : bool) (c : StreamConfig) : call * option error :=
  if create then (CreateStream c, js_CreateStream js c) else (UpdateStream c, js_UpdateStream js c).

Definition with_MaxBytes (c : StreamConfig) (b : Z) : StreamConfig :=
  mkStreamConfig (Storage c) (MaxAge c) b (MaxMsgs c).

Definition uint64 (z : Z) : Z := uwrap 64 z.

(** The first attempt failed with [err]: the retry with a smaller storage. *)
Definition retry_smaller (js : jetstream) (create : bool) (sc : StreamConfig) (err : error)
  : list call * option error :=
  match disk_Usage js with
  | Fail _ => ([], Some err)
  | Val free =>
      if decide (uint64 (MaxBytes sc) < uint64 (free / 8 * 5)) then ([], Some err)
      else if decide (free < 1024 * 1024) then ([], Some err)
      else
        let mb := int64 (Z.quot (int64 free) 8 * 5) in
        let '(c, e) := run_call js create (with_MaxBytes sc mb) in ([c], e)
  end.

(** The call of [fn], and the retry after a storage error of a file stream. *)
Definition attempt (js : jetstream) (create : bool) (sc : StreamConfig) : list call * option error :=
  let '(c, e) := run_call js create sc in
  match e with
  | None => ([c], None)
  | Some err =>
      if negb (isJSStorageErr err) || negb (bool_decide (Storage sc = FileStorage))
      then ([c], Some err)
      else let '(cs, e) := retry_smaller js create sc err in (c :: cs, e)
  end.

(** [defineStream(ctx, nc)]: the calls that change the stream, and the error. *)
Definition defineStream (cfg : Config) (js : jetstream) : list call * option error :=
  let sc := stream_config cfg in
  match js_new js with
  | Some err => ([], Some err)
  | None =>
      match js_Stream js with
      | None =>
          match js_Info js with
          | Val info => if equalStreamConfig sc info then ([], None) else attempt js false sc
          | Fail err => ([], Some err)
          end
      | Some err =>
          if same err (tgt ErrStreamNotFound) then attempt js true sc else ([], Some err)
      end
  end.

(** ** The life cycle *)

(** Contexts are numbered in the order in which [context.WithCancel] makes them;
    [cancel] is the [CancelFunc] of one, or nil.  [pumps] lists the [handlePubchan]
    goroutines that were started, by their contexts: one is live until its context is
    cancelled. *)
Record state := mkState {
  config : option Config;
  server : bool;
  ncDispatcher : bool;
  ncPublisher : bool;
  cancel : option nat;
  contexts : nat;
  cancelled : gset nat;
  pumps : list nat;
}.

Definition zero_state : state := mkState None false false false None 0 ∅ [].

(** What happens to the calls of [StartServer]: the configuration file (an error,
    if one is named and cannot be used), [server.NewServer], [nats.Connect] and
    [defineStream]. *)
Record start_env := mkStartEnv {
  se_ConfigFile : option error;
  se_NewServer : option error;
  se_Connect : option error;
  se_js : jetstream;
}.

Definition StartServer (cfg : Config) (env : start_env) (s : state) : state * option error :=
  if server s then (s, None)
  else
    match (if decide (ConfigFile cfg = ""%string) then None else se_ConfigFile env) with
    | Some err => (s, Some err)
    | None =>
        let s1 := mkState (Some cfg) (server s) (ncDispatcher s) (ncPublisher s) (cancel s) (contexts s) (cancelled s) (pumps s) in
        match se_NewServer env with
        | Some err => (s1, Some err)
        | None =>
            match se_Connect env with
            | Some err =>
                (mkState (Some cfg) true (ncDispatcher s) (ncPublisher s) (cancel s) (contexts s) (cancelled s) (pumps s), Some err)
            | None =>
                let ctx := contexts s in
                let s2 := mkState (Some cfg) true (ncDispatcher s) true (Some ctx) (S ctx) (cancelled s) (pumps s) in
                match (defineStream cfg (se_js env)).2 with
                | Some err => (s2, Some err)
                | None => (mkState (Some cfg) true (ncDispatcher s) true (Some ctx) (S ctx) (cancelled s) (pumps s ++ [ctx]), None)
                end
            end
        end
    end.

(** [StopServer]: a nil [cancel] is called and panics.  The current context is
    cancelled, which ends its pump and no other. *)
Definition StopServer (s : state) : outcome state :=
  match cancel s with
  | None => Panic "invalid memory address or nil pointer dereference"
  | Some ctx => Ret (mkState (config s) false false false (Some ctx) (contexts s) ({[ctx]} ∪ cancelled s) (pumps s))
  end.

(** [StopDispatcher] (the dispatcher's own cancel function apart). *)
Definition StopDispatcher (s : state) : state :=
  mkState (config s) (server s) false (ncPublisher s) (cancel s) (contexts s) (cancelled s) (pumps s).

Definition StartDispatcher (connect : option error) (s : state) : state * option error :=
  let s := StopDispatcher s in
  if server s then
    match connect with
    | Some err => (s, Some err)
    | None => (mkState (config s) true true (ncPublisher s) (cancel s) (contexts s) (cancelled s) (pumps s), None)
    end
  else (s, Some (Wrap (Error ErrNATS +:+ ": unavailable")%string ErrNATS)).

Definition IsStartedDispatcher (s : state) : bool := ncDispatcher s.
Definition IsStartedServer (s : state) : bool := server s.

(** The operations in any order, as long as none panics. *)
Inductive lifecycle : state → state → Prop :=
| lc_StartServer cfg env s : lifecycle s (StartServer cfg env s).1
| lc_StopServer s s' : StopServer s = Ret s' → lifecycle s s'
| lc_StartDispatcher c s : lifecycle s (StartDispatcher c s).1
| lc_StopDispatcher s : lifecycle s (StopDispatcher s).

(** The contexts of the live pumps. *)
Definition live (s : state) : list nat := filter (λ ctx, ctx ∉ cancelled s) (pumps s).
Definition live_pumps (s : state) : nat := length (live s).

Record lc_inv (s : state) : Prop := {
  inv_pumps : (live_pumps s ≤ 1)%nat;
  inv_server : server s = false → ncDispatcher s = false ∧ live_pumps s = 0%nat;
  inv_publisher ctx : ctx ∈ live s → ncPublisher s = true ∧ cancel s = Some ctx;
  inv_fresh ctx : ctx ∈ cancelled s → (ctx < contexts s)%nat;
  inv_made ctx : ctx ∈ pumps s ∨ cancel s = Some ctx → (ctx < contexts s)%nat;
}.

(** ** The publisher

    [Pub] hands the message to a goroutine that waits for room in the buffered
    channel ([waiting]); [handlePubchan] takes messages from the channel. *)
Definition pub_capacity : nat := 2000.

Record message := mkMessage { subject : string; data : string; header : Header }.

Record publisher := mkPublisher {
  waiting : list message;
  channel : list message;
  published : list message;
  lost : list message;
}.

(** The configuration is zero, and so the limit is 0, until [StartServer]. *)
Definition max_payload (c : option Config) : Z :=
  match c with Some c => MaxPayload c | None => 0 end.

Definition Pub (c : option Config) (subj data : string) (hdr : Header) (p : publisher)
  : publisher * option error :=
  if decide (max_payload c < slen data)
  then (p, Some (Errorf_w ErrPayloadLim
         (subj +:+ " / " +:+ FormatInt (max_payload c) +:+ " / " +:+ FormatInt (slen data))%string))
  else (mkPublisher (mkMessage subj data (maps_Copy ∅ hdr) :: waiting p) (channel p) (published p) (lost p), None).

(** One round of [handlePubchan] for the message [m]: the results of the first
    publication, of the reconnection and of the second publication.  The
    reconnection asks the server for its address: a nil server panics.  The new
    connection replaces [ncPublisher]. *)
Definition pump_message (pub1 connect pub2 : option error) (s : state) : outcome (state * bool) :=
  match pub1 with
  | None => Ret (s, true)
  | Some _ =>
      if server s then
        match connect with
        | Some _ => Ret (s, false)
        | None =>
            Ret (mkState (config s) (server s) (ncDispatcher s) true (cancel s) (contexts s) (cancelled s) (pumps s),
                 match pub2 with None => true | Some _ => false end)
        end
      else Panic "invalid memory address or nil pointer dereference"
  end.

Inductive pub_step (c : option Config) : publisher → publisher → Prop :=
| ps_pub p subj data hdr p' : Pub c subj data hdr p = (p', None) → pub_step c p p'
| ps_send p l m r :
    waiting p = l ++ m :: r → (length (channel p) < pub_capacity)%nat →
    pub_step c p (mkPublisher (l ++ r) (channel p ++ [m]) (published p) (lost p))
| ps_publish p m l (ok : bool) :
    channel p = m :: l →
    pub_step c p (mkPublisher (waiting p) l (if ok then published p ++ [m] else published p)
                    (if ok then lost p else lost p ++ [m])).

(** ** Lemmas *)

Lemma live_pumps_zero s : live_pumps s = 0%nat → live s = [].
Proof. apply length_zero_iff_nil. Qed.

Lemma lc_inv_zero : lc_inv zero_state.
Proof. split; cbn; [lia|done|by intros ctx ?%elem_of_nil|set_solver|]. by intros ctx [?%elem_of_nil|]. Qed.

Lemma StartServer_inv cfg env s : lc_inv s → lc_inv (StartServer cfg env s).1.
Proof.
  intros Hi. pose proof Hi as [Hp Hs Hb Hf Hm]. unfold StartServer. destruct (server s) eqn:E; [exact Hi|].
  destruct (Hs eq_refl) as [Hd Hl]. pose proof (live_pumps_zero s Hl) as Hnone.
  destruct (if decide _ then _ else _) as [err|]; [exact Hi|].
  destruct (se_NewServer env) as [err|]; [by split|].
  destruct (se_Connect env) as [err|]; [by split|].
  assert (∀ ctx, ctx ∈ cancelled s → ctx < S (contexts s))%nat as Hf' by (intros ctx ?%Hf; lia).
  destruct (defineStream cfg (se_js env)).2 as [err|].
  - split; cbn; [exact Hp|done| |exact Hf'|].
    + intros ctx Hin. change (ctx ∈ live s) in Hin. rewrite Hnone in Hin. by apply elem_of_nil in Hin.
    + intros ctx [Hin|[= <-]]; [|lia]. specialize (Hm ctx (or_introl Hin)). lia.
  - assert (live (mkState (Some cfg) true (ncDispatcher s) true (Some (contexts s)) (S (contexts s)) (cancelled s)
              (pumps s ++ [contexts s])) = [contexts s]) as Hlive.
    { unfold live in *. cbn [pumps cancelled]. rewrite filter_app, Hnone, filter_cons_True; [done|].
      intros ?%Hf. lia. }
    split; cbn [fst]; [unfold live_pumps; rewrite Hlive; simpl; lia|done| |exact Hf'|].
    + intros ctx. rewrite Hlive. intros ->%list_elem_of_singleton. done.
    + intros ctx [[Hin| ->%list_elem_of_singleton]%elem_of_app|[= <-]]; cbn; [|lia..].
      specialize (Hm ctx (or_introl Hin)). lia.
Qed.

(** After a stop no pump is live: there was no other than that of the current context. *)
Lemma StopServer_live s s' : lc_inv s → StopServer s = Ret s' → live s' = [].
Proof.
  intros [_ _ Hb _ _]. unfold StopServer. destruct (cancel s) as [ctx|]; [|done]. intros [= <-]. unfold live in *.
  cbn [cancelled pumps]. destruct (filter _ (pumps s)) as [|x l] eqn:Hf in |- *; [done|exfalso].
  assert (x ∈ filter (λ c, c ∉ {[ctx]} ∪ cancelled s) (pumps s)) as Hx by (rewrite Hf; by left).
  apply list_elem_of_filter in Hx as [Hn Hin]. destruct (Hb x) as [_ Hc].
  - apply list_elem_of_filter. set_solver.
  - injection Hc as ->. set_solver.
Qed.

Lemma StopServer_inv s s' : lc_inv s → StopServer s = Ret s' → lc_inv s'.
Proof.
  intros Hi Hst. pose proof (StopServer_live s s' Hi Hst) as Hl. destruct Hi as [_ _ _ Hf Hm]. unfold StopServer in Hst.
  destruct (cancel s) as [ctx|] eqn:Hc; [|done]. injection Hst as <-. split; unfold live_pumps; rewrite ?Hl; cbn [length]; [lia|done| | |].
  - by intros ? ?%elem_of_nil.
  - cbn. intros x [->%elem_of_singleton|Hx]%elem_of_union; [apply Hm; by right|by apply Hf].
  - exact Hm.
Qed.

(** Changing the dispatcher connection keeps the invariant. *)
Lemma lc_inv_dispatcher s d :
  lc_inv s → (d = true → server s = true) →
  lc_inv (mkState (config s) (server s) d (ncPublisher s) (cancel s) (contexts s) (cancelled s) (pumps s)).
Proof.
  intros [Hp Hs Hb Hf Hm] Hd. split; [exact Hp| |exact Hb|exact Hf|exact Hm].
  cbn. intros E. destruct (Hs E) as [_ Hl]. split; [|exact Hl]. destruct d; [|done].
  specialize (Hd eq_refl). congruence.
Qed.

Lemma lifecycle_inv s s' : lc_inv s → lifecycle s s' → lc_inv s'.
Proof.
  intros Hi Hl. destruct Hl as [cfg env s|s s' H|c s|s].
  - by apply StartServer_inv.
  - by eapply StopServer_inv.
  - unfold StartDispatcher. cbn [StopDispatcher server]. destruct (server s) eqn:E; [destruct c|].
    + by apply lc_inv_dispatcher.
    + pose proof (lc_inv_dispatcher s true Hi (λ _, E)) as Hx. by rewrite E in Hx.
    + by apply lc_inv_dispatcher.
  - by apply lc_inv_dispatcher.
Qed.

Lemma retry_smaller_spec js create sc err cs e :
  retry_smaller js create sc err = (cs, e) →
  (cs = [] ∧ e = Some err) ∨
  ∃ free, disk_Usage js = Val free ∧ 1024 * 1024 ≤ free ∧
    uint64 (free / 8 * 5) ≤ uint64 (MaxBytes sc) ∧
    run_call js create (with_MaxBytes sc (int64 (Z.quot (int64 free) 8 * 5))) =
      (default (UpdateStream sc) (head cs), e) ∧ length cs = 1%nat.
Proof.
  unfold retry_smaller. destruct (disk_Usage js) as [free|]; [|intros [= <- <-]; by left].
  case_decide; [intros [= <- <-]; by left|]. case_decide; [intros [= <- <-]; by left|].
  destruct (run_call _ _ _) as [c e'] eqn:Hc. intros [= <- <-]. right. exists free. split_and!; try done; lia.
Qed.

(** What [attempt] may do to the stream: one call, or two calls of the same kind
    of which the second asks for less storage. *)
Definition attempt_calls (sc : StreamConfig) (cs : list call) : Prop :=
  cs = [UpdateStream sc] ∨ cs = [CreateStream sc] ∨
  (Storage sc = FileStorage ∧ ∃ mk err mb, (mk = UpdateStream ∨ mk = CreateStream) ∧
     isJSStorageErr err = true ∧ cs = [mk sc; mk (with_MaxBytes sc mb)] ∧ 0 < mb ≤ MaxBytes sc).

Lemma free_five_eighths free :
  1024 * 1024 ≤ free < 2 ^ 63 →
  int64 (Z.quot (int64 free) 8 * 5) = free / 8 * 5 ∧ 0 < free / 8 * 5 < 2 ^ 64.
Proof.
  intros Hf. pose proof (Z.mul_div_le free 8).
  assert (0 < free / 8) by (apply Z.div_str_pos; lia).
  rewrite (int64_id free) by (unfold in_int64; lia). rewrite Z.quot_div_nonneg by lia.
  split; [|lia]. apply int64_id. unfold in_int64. lia.
Qed.

Lemma attempt_spec js create sc cs e :
  0 ≤ MaxBytes sc < 2 ^ 63 → (∀ free, disk_Usage js = Val free → 0 ≤ free < 2 ^ 63) →
  attempt js create sc = (cs, e) → attempt_calls sc cs.
Proof.
  intros Hmax Hfree. unfold attempt. destruct (run_call js create sc) as [c e1] eqn:Hrun.
  assert (c = if create then CreateStream sc else UpdateStream sc) as Hc
    by (unfold run_call in Hrun; destruct create; congruence).
  assert (attempt_calls sc [c]) as H1 by (rewrite Hc; unfold attempt_calls; destruct create; auto).
  destruct e1 as [err|]; [|by intros [= <- <-]].
  destruct (isJSStorageErr err) eqn:Herr; cbn [negb orb]; [|by intros [= <- <-]].
  destruct (bool_decide_reflect (Storage sc = FileStorage)) as [Hst|]; cbn [negb]; [|by intros [= <- <-]].
  destruct (retry_smaller js create sc err) as [cs' e'] eqn:Hr. intros [= <- <-].
  destruct (retry_smaller_spec _ _ _ _ _ _ Hr) as [[-> _]|(free & Hu & Hlow & Hle & Hrun2 & Hlen)]; [done|].
  right. right. split; [done|]. specialize (Hfree _ Hu).
  destruct (free_five_eighths free) as [Hmb Hpos]; [lia|]. rewrite Hmb in Hrun2.
  unfold uint64, uwrap in Hle. rewrite !Z.mod_small in Hle by lia.
  destruct cs' as [|c2 [|]]; try done. cbn in Hrun2.
  exists (if create then CreateStream else UpdateStream), err, (free / 8 * 5).
  split_and!; [destruct create; auto|done| |lia|lia].
  rewrite Hc. unfold run_call in Hrun2. destruct create; congruence.
Qed.

(** ** Properties *)

(** C5: Over any sequence of starts and stops of server and dispatcher, whatever
    the NATS libraries answer: at most one publisher goroutine is live, and then
    the publisher connection exists and its context is the current one, not
    cancelled; without a server there is neither a live publisher nor a dispatcher
    connection; and stopping the server, which cancels the current context only,
    leaves no publisher live. *)
Theorem lifecycle_invariant (s : state) :
  rtc lifecycle zero_state s →
  (live_pumps s ≤ 1)%nat ∧
  (∀ ctx, ctx ∈ live s → server s = true ∧ ncPublisher s = true ∧ cancel s = Some ctx ∧ ctx ∉ cancelled s) ∧
  (IsStartedDispatcher s = true → IsStartedServer s = true) ∧
  (∀ s', StopServer s = Ret s' → live_pumps s' = 0%nat ∧ IsStartedServer s' = false ∧ IsStartedDispatcher s' = false).
Proof.
  intros Hr. assert (lc_inv s) as Hi.
  { remember zero_state as s0 eqn:E. assert (lc_inv s0) by (subst; apply lc_inv_zero). clear E.
    induction Hr; eauto using lifecycle_inv. }
  pose proof Hi as [Hp Hs Hb _ _]. split_and!; [done| | |].
  - intros ctx Hin. destruct (Hb ctx Hin). split_and!; [|done|done|by apply list_elem_of_filter in Hin as [? _]].
    destruct (server s); [done|]. destruct (Hs eq_refl) as [_ Hl%live_pumps_zero]. rewrite Hl in Hin. by apply elem_of_nil in Hin.
  - unfold IsStartedDispatcher, IsStartedServer. intros Hd. destruct (server s); [done|].
    destruct (Hs eq_refl) as [Hd' _]. congruence.
  - intros s' Hst. split; [unfold live_pumps; by rewrite (StopServer_live s s' Hi Hst)|].
    unfold StopServer in Hst. destruct (cancel s); [|done]. by injection Hst as <-.
Qed.

Definition good_js : jetstream :=
  mkJetstream None (Some ErrStreamNotFound) (Fail (Opaque "none")) (λ _, None) (λ _, None) (Val 0).

Definition some_config : Config := mkConfig 0 1024 0 "/tmp" "FILE" 0 1000 0 "".

Lemma lifecycle_invariant_witness :
  let s := (StartServer some_config (mkStartEnv None None None good_js) zero_state).1 in
  rtc lifecycle zero_state s ∧ live_pumps s = 1%nat ∧ (live_pumps s ≤ 1)%nat.
Proof.
  assert (rtc lifecycle zero_state
    (StartServer some_config (mkStartEnv None None None good_js) zero_state).1) as H.
  { eapply rtc_l; [apply lc_StartServer|apply rtc_refl]. }
  split; [exact H|]. split; [reflexivity|]. exact (proj1 (lifecycle_invariant _ H)).
Defined.

(** A first start whose connection fails leaves a half-started server: it
    reports itself as started, starting it again succeeds without making a
    publisher, no publisher goroutine runs, and stopping it panics. *)
Theorem StartServer_connect_failure (cfg cfg' : Config) (env env' : start_env) (err : error) :
  ConfigFile cfg = ""%string → se_NewServer env = None → se_Connect env = Some err →
  let '(s, e) := StartServer cfg env zero_state in
  e = Some err ∧ IsStartedServer s = true ∧ StartServer cfg' env' s = (s, None) ∧
  live_pumps s = 0%nat ∧ ncPublisher s = false ∧ is_panic (StopServer s) = true.
Proof. intros Hf Hn Hc. unfold StartServer. cbn. rewrite Hf, Hn, Hc. done. Qed.

Lemma StartServer_connect_failure_witness :
  let s := (StartServer some_config (mkStartEnv None None (Some (Opaque "refused")) good_js) zero_state).1 in
  is_panic (StopServer s) = true.
Proof.
  apply (StartServer_connect_failure some_config some_config
    (mkStartEnv None None (Some (Opaque "refused")) good_js)
    (mkStartEnv None None None good_js) (Opaque "refused")); reflexivity.
Defined.

(** [defineStream] leaves a stream with the configured age, size, count and
    storage alone; otherwise it updates or creates it, and only after a storage
    error of a file stream tries once more with less storage: 5/8 of the free
    disk space, which is positive and not more than was asked for. *)
Theorem defineStream_calls (cfg : Config) (js : jetstream) (cs : list call) (e : option error) :
  0 ≤ StoreMaxBytes cfg < 2 ^ 63 → (∀ free, disk_Usage js = Val free → 0 ≤ free < 2 ^ 63) →
  defineStream cfg js = (cs, e) →
  let sc := stream_config cfg in
  (∀ info, js_new js = None → js_Stream js = None → js_Info js = Val info →
     equalStreamConfig sc info = true → cs = [] ∧ e = None) ∧
  (cs = [] ∨ attempt_calls sc cs) ∧
  (e = None → cs = [] → ∃ info, js_Info js = Val info ∧ equalStreamConfig sc info = true).
Proof.
  intros Hmax Hfree. unfold defineStream.
  assert (∀ create cs e, attempt js create (stream_config cfg) = (cs, e) →
    cs ≠ [] ∧ attempt_calls (stream_config cfg) cs) as Hatt.
  { intros create cs' e' Ha. apply attempt_spec in Ha; [|done|done]. split; [|done].
    destruct Ha as [->|[->|(_ & mk & err & mb & _ & _ & -> & _)]]; done. }
  destruct (js_new js) as [err|]; [intros [= <- <-]; split_and!; [done|by left|done]|].
  destruct (js_Stream js) as [err|].
  - destruct (same err (tgt ErrStreamNotFound)); [|intros [= <- <-]; split_and!; [done|by left|done]].
    intros Ha. destruct (Hatt _ _ _ Ha) as [Hne Hcs]. split_and!; [done|by right|done].
  - destruct (js_Info js) as [info|err]; [|intros [= <- <-]; split_and!; [done|by left|done]].
    destruct (equalStreamConfig (stream_config cfg) info) eqn:Heq.
    + intros [= <- <-]. split_and!; [done|by left|]. intros _ _. by exists info.
    + intros Ha. destruct (Hatt _ _ _ Ha) as [Hne Hcs]. split_and!; [|by right|done].
      intros info' _ _ [= <-] ?. congruence.
Qed.

(** A file stream of 10 MB on a disk with 2 MB free, on a server that refuses
    more than 2 MB. *)
Definition small_disk : jetstream :=
  let create (c : StreamConfig) :=
    if decide (2000000 < MaxBytes c) then Some (APIError 10047 "insufficient storage") else None in
  mkJetstream None (Some ErrStreamNotFound) (Fail (Opaque "none")) create create (Val 2097152).

Definition big_config : Config := mkConfig 0 1024 0 "/tmp" "FILE" 0 10000000 0 "".

Lemma defineStream_calls_witness :
  defineStream big_config small_disk =
    ([CreateStream (stream_config big_config);
      CreateStream (with_MaxBytes (stream_config big_config) 1310720)], None) ∧
  attempt_calls (stream_config big_config)
    [CreateStream (stream_config big_config);
     CreateStream (with_MaxBytes (stream_config big_config) 1310720)].
Proof.
  split; [vm_compute; reflexivity|].
  destruct (defineStream_calls big_config small_disk
    [CreateStream (stream_config big_config);
     CreateStream (with_MaxBytes (stream_config big_config) 1310720)] None) as (_ & [Hc|Hc] & _).
  - split; [discriminate|reflexivity].
  - intros free Hf. injection Hf as Hf. rewrite <-Hf. split; [discriminate|reflexivity].
  - vm_compute. reflexivity.
  - discriminate Hc.
  - exact Hc.
Defined.

(** Nothing handed to [Pub] below the limit is lost before it is published,
    over any interleaving of publishers, waiting goroutines and pump: the
    accepted messages are those waiting, queued, published and those whose
    publication failed; the channel never exceeds its capacity. *)
Theorem Pub_conservation (c : option Config) (p : publisher) (subj data : string) (hdr : Header) :
  rtc (pub_step c) (mkPublisher [] [] [] []) p →
  (length (channel p) ≤ pub_capacity)%nat ∧
  (max_payload c < slen data → ∃ e, Pub c subj data hdr p = (p, Some e) ∧ Is e (tgt ErrPayloadLim) = true) ∧
  (slen data ≤ max_payload c → ∃ p', Pub c subj data hdr p = (p', None) ∧
     waiting p' ++ channel p' ++ published p' ++ lost p' ≡ₚ
       mkMessage subj data hdr :: waiting p ++ channel p ++ published p ++ lost p) ∧
  (∀ p', pub_step c p p' → waiting p' ++ channel p' ++ published p' ++ lost p' ≡ₚ
       waiting p ++ channel p ++ published p ++ lost p ∨
     ∃ s d h, Pub c s d h p = (p', None)).
Proof.
  intros Hr. split_and!.
  - remember (mkPublisher [] [] [] []) as p0 eqn:E.
    assert (length (channel p0) ≤ pub_capacity)%nat as H0 by (subst; cbn; lia). clear E.
    induction Hr as [|p0 p1 p Hst Hr IH]; [done|]. apply IH. clear IH Hr.
    destruct Hst as [p0 s d h p' Hp|p0 l m r Hw Hl|p0 m l ok Hc].
    + unfold Pub in Hp. case_decide; [done|]. by injection Hp as <-.
    + cbn. rewrite length_app. cbn. lia.
    + rewrite Hc in H0. cbn in *. lia.
  - intros Hd. unfold Pub. rewrite decide_True by done. eexists. by split.
  - intros Hd. unfold Pub. rewrite maps_Copy_empty, decide_False by lia. eexists. by split.
  - intros p' Hst. destruct Hst as [p s d h p' Hp|p l m r Hw Hl|p m l ok Hc].
    + right. by exists s, d, h.
    + left. cbn. rewrite Hw. solve_Permutation.
    + left. cbn. rewrite Hc. destruct ok; solve_Permutation.
Qed.

Lemma Pub_conservation_witness :
  ∃ p', Pub (Some some_config) "tcg.metrics" "{}" ∅ (mkPublisher [] [] [] []) = (p', None) ∧
    waiting p' ++ channel p' ++ published p' ++ lost p' ≡ₚ [mkMessage "tcg.metrics" "{}" ∅].
Proof.
  destruct (Pub_conservation (Some some_config) (mkPublisher [] [] [] []) "tcg.metrics" "{}" ∅)
    as (_ & _ & H & _); [apply rtc_refl|]. apply H. discriminate.
Defined.

(** The order of publication is not the order of [Pub]: of two messages handed
    over one after the other the second may be published first. *)
Theorem Pub_reorders (c : option Config) (s1 d1 s2 d2 : string) (h1 h2 : Header) :
  slen d1 ≤ max_payload c → slen d2 ≤ max_payload c →
  ∃ p1 p2 p, Pub c s1 d1 h1 (mkPublisher [] [] [] []) = (p1, None) ∧ Pub c s2 d2 h2 p1 = (p2, None) ∧
    rtc (pub_step c) p2 p ∧ published p = [mkMessage s2 d2 h2; mkMessage s1 d1 h1].
Proof.
  intros H1 H2.
  assert (∀ s d h p, slen d ≤ max_payload c → Pub c s d h p =
    (mkPublisher (mkMessage s d h :: waiting p) (channel p) (published p) (lost p), None)) as HP
    by (intros; unfold Pub; rewrite maps_Copy_empty, decide_False by lia; done).
  set (m1 := mkMessage s1 d1 h1). set (m2 := mkMessage s2 d2 h2).
  exists (mkPublisher [m1] [] [] []), (mkPublisher [m2; m1] [] [] []), (mkPublisher [] [] [m2; m1] []).
  split_and!; [by apply HP|by apply HP| |done].
  eapply rtc_l; [apply (ps_send c _ [] m2 [m1]); [done|cbn; unfold pub_capacity; lia]|].
  eapply rtc_l; [apply (ps_send c _ [] m1 []); [done|cbn; unfold pub_capacity; lia]|].
  eapply rtc_l; [by apply (ps_publish c _ m2 [m1] true)|].
  eapply rtc_l; [by apply (ps_publish c _ m1 [] true)|]. apply rtc_refl.
Qed.

Lemma Pub_reorders_witness :
  ∃ p1 p2 p, Pub (Some some_config) "a" "1" ∅ (mkPublisher [] [] [] []) = (p1, None) ∧
    Pub (Some some_config) "b" "2" ∅ p1 = (p2, None) ∧
    rtc (pub_step (Some some_config)) p2 p ∧ published p = [mkMessage "b" "2" ∅; mkMessage "a" "1" ∅].
Proof. apply (Pub_reorders (Some some_config) "a" "1" "b" "2" ∅ ∅); discriminate. Defined.
