(* ===== verification/Dispatcher.v ===== *)
(** nats/dispatcher.go: delivery of the stream's messages to a durable's handler,
    with a retry counter per durable.

    The two caches are go-cache instances: the library is an interface whose laws
    are its documented behaviour. *)

From S2P Require Import Prelude GoString Errors.

Local Open Scope Z_scope.

(** ** The cache library *)

(** A cache with a default expiration; [now] is the clock at the call. *)
Class GoCache (V : Type) := {
  cache : Type;
  c_new : cache;
  c_get : cache → string → Z → option V;
  c_set : cache → string → V → Z → cache;        (** [Set(k, v, DefaultExpiration)] *)
  c_delete : cache → string → cache;
}.
Arguments cache V {_}.

Class GoCacheLaws {V} (C : GoCache V) (ttl : Z) : Prop := {
  get_set m k v t t' : t ≤ t' ≤ t + ttl → c_get (c_set m k v t) k t' = Some v;
  get_set_ne m k k' v t t' : k ≠ k' → c_get (c_set m k v t) k' t' = c_get m k' t';
  get_delete m k t : c_get (c_delete m k) k t = None;
  get_delete_ne m k k' t : k ≠ k' → c_get (c_delete m k) k' t = c_get m k' t;
  get_new k t : c_get c_new k t = None;
  get_set_inv m k v t t' r : c_get (c_set m k v t) k t' = Some r → r = v;
}.

(** An instance: a map to values and their time of expiry. *)
Definition map_cache (V : Type) (ttl : Z) : GoCache V := {|
  cache := gmap string (V * Z);
  c_new := ∅;
  c_get m k t := '(v, e) ← m !! k; if decide (t ≤ e) then Some v else None;
  c_set m k v t := <[k := (v, t + ttl)]> m;
  c_delete m k := base.delete k m;
|}.

#[export] Instance map_cache_laws V ttl : GoCacheLaws (map_cache V ttl) ttl.
Proof.
  split; cbn; intros.
  - rewrite lookup_insert_eq. cbn. by rewrite decide_True by lia.
  - by rewrite lookup_insert_ne.
  - by rewrite lookup_delete_eq.
  - by rewrite lookup_delete_ne.
  - by rewrite lookup_empty.
  - revert H. rewrite lookup_insert_eq. cbn. case_decide; congruence.
Qed.

(** ** State *)

Record dispatcherRetry := mkRetry { Timestamp : Z; LastError : option error; Retry : Z }.

Definition zero_retry : dispatcherRetry := mkRetry 0 None 0.

Inductive ack := Ack | Nak.

#[export] Instance ack_eq_dec : EqDecision ack.
Proof. solve_decision. Defined.

Section dispatcher.
Context {CS : GoCache Z} {CR : GoCache dispatcherRetry}.

(** [RetryDelays], overridden from the configuration. *)
Context (RetryDelays : list Z).

(** The world of the handler and the messages; [Metadata] gives the sequence
    number in the stream. *)
Context {W M : Type} (Metadata : M → result error Z).
Context (Handler : W → M → W * option error) (Durable : string).

Record natsDispatcher := mkDispatcher {
  duraSeqs : cache Z;
  retries : cache dispatcherRetry;
}.

Definition Flush (d : natsDispatcher) : natsDispatcher := mkDispatcher c_new c_new.

(** Whether the message was delivered out of order: logged only. *)
Definition lostOrder (d : natsDispatcher) (seq now : Z) : bool :=
  match c_get (duraSeqs d) Durable now with
  | Some doneSeq => bool_decide (seq ≤ doneSeq)
  | None => false
  end.

(** [processMsg]: the result says whether the message is done; the retry record
    of the caller is only written in the transient case.  [duraSeqs] does not
    expire, whatever the clock. *)
Definition processMsg (now : Z) (d : natsDispatcher) (w : W) (m : M) (retry : dispatcherRetry)
  : natsDispatcher * W * dispatcherRetry * bool :=
  match Metadata m with
  | Fail _ => (d, w, retry, true)
  | Val seq =>
      let '(w, err) := Handler w m in
      match err with
      | None => (mkDispatcher (c_set (duraSeqs d) Durable seq now) (retries d), w, retry, true)
      | Some err =>
          if negb (Is err (tgt ErrTransient)) then (d, w, retry, true)
          else
            let n := match c_get (retries d) Durable now with
                     | Some lastRetry => Retry lastRetry + 1
                     | None => 0
                     end in
            let retry := mkRetry now (Some err) n in
            if decide (Z.of_nat (length RetryDelays) ≤ n)
            then (mkDispatcher (duraSeqs d) (c_delete (retries d) Durable), w, retry, true)
            else (mkDispatcher (duraSeqs d) (c_set (retries d) Durable retry now), w, retry, false)
      end
  end.

(** The loop over a fetched batch; the clock ticks once per message. *)
Fixpoint process_batch (clock : nat → Z) (i : nat) (d : natsDispatcher) (w : W)
    (delayRetry : dispatcherRetry) (done : bool) (msgs : list M)
  : natsDispatcher * W * dispatcherRetry * bool * list ack :=
  match msgs with
  | [] => (d, w, delayRetry, done, [])
  | m :: msgs =>
      if negb done then
        let '(d, w, r, dn, acks) := process_batch clock (S i) d w delayRetry done msgs in
        (d, w, r, dn, Nak :: acks)
      else
        let '(d, w, r, dn) := processMsg (clock i) d w m delayRetry in
        let '(d, w, r, dn', acks) := process_batch clock (S i) d w r dn msgs in
        (d, w, r, dn', (if dn then Ack else Nak) :: acks)
  end.

(** One round of [fetch]: the batch, and the delay before the next round, an
    element of [RetryDelays] (an index out of range panics). *)
Definition fetch_round (clock : nat → Z) (d : natsDispatcher) (w : W) (msgs : list M)
  : outcome (natsDispatcher * W * list ack * option Z) :=
  let '(d, w, delayRetry, done, acks) := process_batch clock 0 d w zero_retry true msgs in
  if done then Ret (d, w, acks, None)
  else
    delay ← match RetryDelays !! Z.to_nat (Retry delayRetry) with
            | Some x => if decide (0 ≤ Retry delayRetry) then Ret x else Panic "index out of range"
            | None => Panic "index out of range"
            end;
    Ret (d, w, acks, Some delay).

(** ** Lemmas *)

(** Retry counters are indices of [RetryDelays], at any time. *)
Definition retries_wf (d : natsDispatcher) : Prop :=
  ∀ t r, c_get (retries d) Durable t = Some r → 0 ≤ Retry r < Z.of_nat (length RetryDelays).

Context {ttl : Z} {LR : GoCacheLaws CR ttl}.

Lemma processMsg_wf now d w m retry d' w' r' dn :
  retries_wf d → processMsg now d w m retry = (d', w', r', dn) →
  retries_wf d' ∧ (dn = false → 0 ≤ Retry r' < Z.of_nat (length RetryDelays)).
Proof.
  intros Hw. unfold processMsg. destruct (Metadata m) as [seq|e]; [|by intros [= <- <- <- <-]].
  destruct (Handler w m) as [w1 [err|]]; [|by intros [= <- <- <- <-]].
  destruct (Is err (tgt ErrTransient)); cbn [negb]; [|by intros [= <- <- <- <-]].
  set (n := match c_get _ _ _ with Some _ => _ | None => _ end).
  assert (0 ≤ n) as Hn.
  { unfold n. destruct (c_get (retries d) Durable now) as [r|] eqn:E; [|done].
    specialize (Hw _ _ E). lia. }
  case_decide; intros [= <- <- <- <-]; (split; [|cbn; done || lia]).
  - intros t r. cbn. by rewrite (get_delete (C := CR)).
  - intros t r Hg. cbn in Hg. apply get_set_inv in Hg as ->. cbn. lia.
Qed.

(** Once a message is not done the rest of the batch is put back untouched. *)
Lemma process_batch_skip clock i d w r msgs :
  process_batch clock i d w r false msgs = (d, w, r, false, replicate (length msgs) Nak).
Proof.
  revert i. induction msgs as [|m msgs IH]; intros i; [done|]. cbn [process_batch negb].
  by rewrite IH.
Qed.

Lemma process_batch_spec clock msgs i d w r d' w' r' dn acks :
  retries_wf d → process_batch clock i d w r true msgs = (d', w', r', dn, acks) →
  retries_wf d' ∧
  (dn = true → acks = replicate (length msgs) Ack) ∧
  (dn = false → 0 ≤ Retry r' < Z.of_nat (length RetryDelays) ∧
     ∃ k, (k < length msgs)%nat ∧ acks = replicate k Ack ++ replicate (length msgs - k) Nak).
Proof.
  revert i d w r acks. induction msgs as [|m msgs IH]; intros i d w r acks Hw; cbn [process_batch negb].
  { by intros [= <- <- <- <- <-]. }
  destruct (processMsg (clock i) d w m r) as [[[d1 w1] r1] dn1] eqn:H1.
  destruct (processMsg_wf _ _ _ _ _ _ _ _ _ Hw H1) as [Hw1 Hr1].
  destruct dn1.
  - destruct (process_batch clock (S i) d1 w1 r1 true msgs) as [[[[d2 w2] r2] dn2] acks2] eqn:H2.
    intros [= <- <- <- <- <-]. destruct (IH _ _ _ _ _ Hw1 H2) as (Hw2 & Ht & Hf).
    split_and!; [done| |].
    + intros ->. by rewrite Ht.
    + intros ->. destruct (Hf eq_refl) as (Hr & k & Hk & ->). split; [done|].
      exists (S k). split; [cbn; lia|done].
  - rewrite process_batch_skip. intros [= <- <- <- <- <-]. split_and!; [done|done|].
    intros _. split; [by apply Hr1|]. exists 0%nat. split; [cbn; lia|done].
Qed.

Lemma new_retries_wf m : retries_wf (mkDispatcher m c_new).
Proof. intros t r. cbn. by rewrite (get_new (C := CR)). Qed.

(** The counter a transient failure gets: one more than the one on record. *)
Lemma processMsg_transient now d w m retry w' err seq :
  Metadata m = Val seq → Handler w m = (w', Some err) → Is err (tgt ErrTransient) = true →
  let n := match c_get (retries d) Durable now with Some r => Retry r + 1 | None => 0 end in
  let r := mkRetry now (Some err) n in
  processMsg now d w m retry =
    if decide (Z.of_nat (length RetryDelays) ≤ n)
    then (mkDispatcher (duraSeqs d) (c_delete (retries d) Durable), w', r, true)
    else (mkDispatcher (duraSeqs d) (c_set (retries d) Durable r now), w', r, false).
Proof. intros Hm Hh Ht. unfold processMsg. rewrite Hm, Hh, Ht. done. Qed.

(** A run of transient failures at the times [clock 0, clock 1, ...], none
    further apart than the expiry. *)
Fixpoint failures (clock : nat → Z) (i n : nat) (m : M) (d : natsDispatcher) (w : W) : natsDispatcher * W * list bool :=
  match n with
  | O => (d, w, [])
  | S n =>
      let '(d, w, _, dn) := processMsg (clock i) d w m zero_retry in
      let '(d, w, l) := failures clock (S i) n m d w in (d, w, dn :: l)
  end.

Lemma failures_spec clock m n i k d w seq :
  Metadata m = Val seq →
  (∀ w, ∃ w' err, Handler w m = (w', Some err) ∧ Is err (tgt ErrTransient) = true) →
  (∀ j, clock j ≤ clock (S j) ≤ clock j + ttl) →
  (match c_get (retries d) Durable (clock i) with Some r => Retry r + 1 | None => 0 end) = Z.of_nat k →
  (k + n = S (length RetryDelays))%nat → n ≠ 0%nat →
  ∃ d' w', failures clock i n m d w = (d', w', replicate (n - 1) false ++ [true]) ∧
    ∀ t, c_get (retries d') Durable t = None.
Proof.
  intros Hm Hh Hc. revert i k d w. induction n as [|n IH]; intros i k d w Hk Hkn Hn; [done|].
  destruct (Hh w) as (w' & err & Hw & Ht). cbn [failures].
  rewrite (processMsg_transient _ _ _ _ _ _ _ _ Hm Hw Ht), Hk.
  destruct n as [|n].
  - rewrite decide_True by lia. cbn. eexists _, _. split; [done|]. intros t. cbn.
    apply (get_delete (C := CR)).
  - rewrite decide_False by lia.
    destruct (IH (S i) (S k) (mkDispatcher (duraSeqs d)
      (c_set (retries d) Durable (mkRetry (clock i) (Some err) (Z.of_nat k)) (clock i))) w')
      as (d' & w2 & -> & Hg); [|lia|done|].
    + cbn [retries]. rewrite (get_set (C := CR) (ttl := ttl)) by apply Hc. cbn. lia.
    + eexists _, _. split; [|exact Hg]. cbn. by rewrite Nat.sub_0_r.
Qed.

(** ** Properties *)

(** C11: One fetch round: the messages acknowledged are a prefix of the batch and
    the others are put back, so that a message is never acknowledged while an
    earlier one of the batch is to be retried; the delay index is always in
    range, so the round never panics, and there is a delay exactly when some
    message was put back; the retry counters stay indices of [RetryDelays]. *)
Theorem fetch_round_spec (clock : nat → Z) (d : natsDispatcher) (w : W) (msgs : list M) :
  retries_wf d →
  ∃ d' w' k delay, fetch_round clock d w msgs =
      Ret (d', w', replicate k Ack ++ replicate (length msgs - k) Nak, delay) ∧
    (k ≤ length msgs)%nat ∧ retries_wf d' ∧
    (match delay with Some x => x ∈ RetryDelays ∧ (k < length msgs)%nat | None => k = length msgs end).
Proof.
  intros Hw. unfold fetch_round.
  destruct (process_batch clock 0 d w zero_retry true msgs) as [[[[d1 w1] r1] dn1] acks] eqn:H1.
  destruct (process_batch_spec _ _ _ _ _ _ _ _ _ _ _ Hw H1) as (Hw1 & Ht & Hf).
  destruct dn1.
  - exists d1, w1, (length msgs), None. rewrite (Ht eq_refl), Nat.sub_diag, app_nil_r. done.
  - destruct (Hf eq_refl) as (Hr & k & Hk & ->).
    destruct (RetryDelays !! Z.to_nat (Retry r1)) as [x|] eqn:Hx.
    + exists d1, w1, k, (Some x). rewrite decide_True, bind_ret_l by lia.
      split_and!; [done|lia|done|by eapply list_elem_of_lookup_2|done].
    + apply lookup_ge_None in Hx. lia.
Qed.

(** A message whose delivery fails transiently every time is put back
    [len(RetryDelays)] times and then dropped (acknowledged), with the counter
    reset, provided the attempts are not further apart than the expiry of the
    retry cache. *)
Theorem processMsg_retry_budget (clock : nat → Z) (m : M) (seq : Z) (d : natsDispatcher) (w : W) :
  Metadata m = Val seq →
  (∀ w, ∃ w' err, Handler w m = (w', Some err) ∧ Is err (tgt ErrTransient) = true) →
  (∀ j, clock j ≤ clock (S j) ≤ clock j + ttl) →
  c_get (retries d) Durable (clock 0%nat) = None →
  ∃ d' w', failures clock 0 (S (length RetryDelays)) m d w =
      (d', w', replicate (length RetryDelays) false ++ [true]) ∧
    ∀ t, c_get (retries d') Durable t = None.
Proof.
  intros Hm Hh Hc Hd.
  destruct (failures_spec clock m (S (length RetryDelays)) 0 0 d w seq Hm Hh Hc) as (d' & w' & -> & Hg);
    [by rewrite Hd|lia|done|].
  eexists _, _. split; [|exact Hg]. by rewrite Nat.sub_succ, Nat.sub_0_r.
Qed.

(** The retry budget belongs to the durable and not to the message: a message
    that is delivered after [n] failures leaves the counter, and the next message
    that fails transiently within the expiry starts with retry [n + 1] (and is
    dropped at once when the budget was used up). *)
Theorem processMsg_budget_shared (t t1 t2 : Z) (m1 m2 : M) (s1 s2 : Z) (d : natsDispatcher)
    (w w1 w2 : W) (r : dispatcherRetry) (retry : dispatcherRetry) (err : error) (rs : cache dispatcherRetry) :
  retries d = c_set rs Durable r t → t ≤ t1 ≤ t2 → t2 ≤ t + ttl →
  Metadata m1 = Val s1 → Metadata m2 = Val s2 →
  Handler w m1 = (w1, None) → Handler w1 m2 = (w2, Some err) → Is err (tgt ErrTransient) = true →
  let '(d1, w', _, done1) := processMsg t1 d w m1 retry in
  let '(_, _, r2, done2) := processMsg t2 d1 w' m2 retry in
  done1 = true ∧ Retry r2 = Retry r + 1 ∧
  (done2 = true ↔ Z.of_nat (length RetryDelays) ≤ Retry r + 1).
Proof.
  intros Hd Ht1 Ht2 Hm1 Hm2 Hh1 Hh2 He.
  assert (processMsg t1 d w m1 retry =
    (mkDispatcher (c_set (duraSeqs d) Durable s1 t1) (retries d), w1, retry, true)) as ->
    by (unfold processMsg; by rewrite Hm1, Hh1).
  rewrite (processMsg_transient t2 _ _ _ _ _ _ _ Hm2 Hh2 He). cbn [retries].
  rewrite Hd, (get_set (C := CR) (ttl := ttl)) by lia.
  case_decide; cbn; (split_and!; [done|done|]); split; done || lia.
Qed.
End dispatcher.
Arguments natsDispatcher : clear implicits.

(** A handler to run the dispatcher: messages are their delivery error, and the
    world counts the calls. *)
Definition test_handler (w : nat) (m : option error) : nat * option error := (S w, m).

Definition seq_cache := map_cache Z 0.
Definition retry_cache := map_cache dispatcherRetry 1800.

Definition new_dispatcher : natsDispatcher seq_cache retry_cache :=
  @mkDispatcher seq_cache retry_cache (@c_new _ seq_cache) (@c_new _ retry_cache).

Lemma fetch_round_spec_witness :
  ∃ d' w' k delay, @fetch_round seq_cache retry_cache [30; 60] nat (option error) (λ _, Val 1) test_handler "d"%string
    (λ _, 0) new_dispatcher 0%nat [None; Some ErrGateway; None] =
      Ret (d', w', replicate k Ack ++ replicate (3 - k) Nak, delay).
Proof.
  destruct (@fetch_round_spec seq_cache retry_cache [30; 60] nat (option error) (λ _, Val 1)
    test_handler "d"%string 1800 (map_cache_laws _ 1800) (λ _, 0) new_dispatcher 0%nat
    [None; Some ErrGateway; None]) as (d' & w' & k & delay & H & _).
  - apply (@new_retries_wf seq_cache retry_cache [30; 60] "d"%string 1800 (map_cache_laws _ 1800)).
  - exists d', w', k, delay. exact H.
Defined.

Lemma processMsg_retry_budget_witness :
  ∃ d' w', @failures seq_cache retry_cache [30; 60] nat (option error) (λ _, Val 1) test_handler "d"%string
    (λ j, 100 * Z.of_nat j) 0 3 (Some ErrGateway) new_dispatcher 0%nat = (d', w', [false; false; true]).
Proof.
  destruct (@processMsg_retry_budget seq_cache retry_cache [30; 60] nat (option error) (λ _, Val 1)
    test_handler "d"%string 1800 (map_cache_laws _ 1800) (λ j, 100 * Z.of_nat j) (Some ErrGateway) 1
    new_dispatcher 0%nat) as (d' & w' & H & _).
  - reflexivity.
  - intros w. exists (S w), ErrGateway. split; reflexivity.
  - intros j. lia.
  - reflexivity.
  - exists d', w'. exact H.
Defined.

Lemma processMsg_budget_shared_witness :
  let d := @mkDispatcher seq_cache retry_cache (@c_new _ seq_cache)
    (@c_set _ retry_cache (@c_new _ retry_cache) "d"%string (mkRetry 0 (Some ErrGateway) 1) 0) in
  let '(d1, w', _, done1) := @processMsg seq_cache retry_cache [30; 60] nat (option error) (λ _, Val 1)
    test_handler "d"%string 10 d 0%nat None zero_retry in
  let '(_, _, r2, done2) := @processMsg seq_cache retry_cache [30; 60] nat (option error) (λ _, Val 1)
    test_handler "d"%string 20 d1 w' (Some ErrGateway) zero_retry in
  done1 = true ∧ Retry r2 = 2 ∧ (done2 = true ↔ 2 ≤ 2).
Proof.
  apply (@processMsg_budget_shared seq_cache retry_cache [30; 60] nat (option error) (λ _, Val 1)
    test_handler "d"%string 1800 (map_cache_laws _ 1800) 0 10 20 None (Some ErrGateway) 1 1
    _ 0%nat 1%nat 2%nat (mkRetry 0 (Some ErrGateway) 1) zero_retry ErrGateway (@c_new _ retry_cache));
    try reflexivity; lia.
Defined.
