(* ===== verification/Clients.v ===== *)
(** sdk/clients/gwClient.go and dsClient.go: the Groundwork and the DalekServices
    clients: URIs, tokens and their renewal, and the errors that the answers of
    the servers become. *)

From S2P Require Import Prelude GoString Errors Payload Http.

Local Open Scope string_scope.

(** ** Entry points and URIs *)

Definition GWEntrypoint := string.
Definition GWEntrypointAuthenticate : GWEntrypoint := "/api/users/authenticatePassword".
Definition GWEntrypointConnect : GWEntrypoint := "/api/auth/login".
Definition GWEntrypointDisconnect : GWEntrypoint := "/api/auth/logout".
Definition GWEntrypointClearInDowntime : GWEntrypoint := "/api/biz/clearindowntime".
Definition GWEntrypointSetInDowntime : GWEntrypoint := "/api/biz/setindowntime".
Definition GWEntrypointEvents : GWEntrypoint := "/api/events".
Definition GWEntrypointEventsAck : GWEntrypoint := "/api/events/ack".
Definition GWEntrypointEventsUnack : GWEntrypoint := "/api/events/unack".
Definition GWEntrypointMonitoring : GWEntrypoint := "/api/monitoring".
Definition GWEntrypointMonitoringDyn : GWEntrypoint := "/api/monitoring?dynamic=true".
Definition GWEntrypointSynchronizer : GWEntrypoint := "/api/synchronizer".
Definition GWEntrypointServices : GWEntrypoint := "/api/services".
Definition GWEntrypointHostgroups : GWEntrypoint := "/api/hostgroups".
Definition GWEntrypointValidateToken : GWEntrypoint := "/api/auth/validatetoken".

Definition buildURI (hostname : string) (entrypoint : GWEntrypoint) : string :=
  (if HasPrefix hostname "http" then "" else "https://") +:+
  TrimSuffix (TrimRight hostname "/") "/api" +:+ "/" +:+ TrimLeft entrypoint "/".

(** ** The Groundwork client *)

Record GWConnection := mkGWConnection {
  gc_ID : Z;
  HostName : string;
  UserName : string;
  Password : string;
  gc_Enabled : bool;
  IsChild : bool;
  DisplayName : string;
  MergeHosts : bool;
  LocalConnection : bool;
  DeferOwnership : string;
  PrefixResourceNames : bool;
  ResourceNamePrefix : string;
  SendAllInventory : bool;
  IsDynamicInventory : bool;
  HTTPEncode : bool;
}.

Record GWClient := mkGWClient {
  AppName : string;
  AppType : string;
  connection : GWConnection;
}.

(** The URI of an entry point, built once per client. *)
Definition uri (c : GWClient) (e : GWEntrypoint) : string := buildURI (HostName (connection c)) e.

Definition tokenKey (c : GWClient) : string :=
  AppName c +:+ ";" +:+ UserName (connection c) +:+ ";" +:+ HostName (connection c).

(** The tokens shared between client instances. *)
Abbreviation tokens := (gmap string string).

Definition token (t : tokens) (c : GWClient) : string := default "" (t !! tokenKey c).

(** ** Errors of the answers *)

(** A transport error that is worth a retry. *)
Definition is_connection_error (windows : bool) (err : error) : bool :=
  IsErrorDNS err || IsErrorConnection windows err || IsErrorTimedOut windows err.

Definition transport_error (windows : bool) (err : error) : error :=
  if is_connection_error windows err then Errorf_w ErrTransient (Error err) else err.

(** The error of a status, [None] for 200.  [login]: the 404 that names the
    password means wrong credentials. *)
Definition status_error (login : bool) (status : Z) (resp : string) : option error :=
  if (bool_decide (status = 401) || (login && bool_decide (status = 404) && Contains resp "password"))%Z
  then Some (Errorf_w ErrUnauthorized resp)
  else if decide (status = 404)%Z then Some (Errorf_w ErrNotFound resp)
  else if decide (status = 502 ∨ status = 504)%Z then Some (Errorf_w ErrGateway resp)
  else if decide (status = 503)%Z then Some (Errorf_w ErrSynchronizer resp)
  else if decide (status ≠ 200)%Z then Some (Errorf_w ErrUndecided resp)
  else None.

Section client.
Context `{MapOrder} {W : Type} `{Transport W}.
Context (windows httpClientKeepAlive : bool).

(** [encoding/json]: the login payload, and the token of the user response. *)
Context (json_login : string → string → string) (json_accessToken : string → result error string).

(** [gzip]: [clients.GZip] into a buffer. *)
Context (GZip : string → result error string).

Definition to_map (l : list (string * string)) : gmap string string := list_to_map l.

Definition doReq (w : W) (ctxh : option Header) (c : GWClient) (method : string)
    (e : GWEntrypoint) (query : string) (headers : gmap string string)
    (form : option (gmap string string)) (payload : option string) : W * Req * option error :=
  SendWithContext httpClientKeepAlive w ctxh (new_Req method (uri c e +:+ query) headers form payload).

Definition form_headers (accept : string) : gmap string string :=
  to_map [("Accept", accept); ("Content-Type", "application/x-www-form-urlencoded")].

(** The result of the calls that return a token. *)
Definition login_result (q : Req) (err : option error) : result error string :=
  match err with
  | Some err => Fail (transport_error windows err)
  | None =>
      match status_error true (q_Status q) (q_Response q) with
      | Some e => Fail e
      | None => Val (q_Response q)
      end
  end.

Definition connectLocal (w : W) (c : GWClient) : W * result error string :=
  let form := to_map [("gwos-app-name", AppName c); ("user", UserName (connection c));
                      ("password", Password (connection c))] in
  let '(w, q, err) := doReq w None c "POST" GWEntrypointConnect "" (form_headers "text/plain")
                        (Some form) None in
  (w, login_result q err).

Definition AuthenticatePassword (w : W) (c : GWClient) (username password : string)
  : W * result error string :=
  let headers := to_map [("Accept", "application/json"); ("Content-Type", "application/json");
                         ("GWOS-APP-NAME", AppName c)] in
  let '(w, q, err) := doReq w None c "PUT" GWEntrypointAuthenticate "" headers None
                        (Some (json_login username password)) in
  (w, resp ← login_result q err;
      match json_accessToken resp with
      | Val t => Val t
      | Fail e => Fail (Errorf_w ErrUndecided (Error e))
      end).

(** [Connect] behind the mutex of its token key: [prevToken] was read before
    waiting for it. *)
Definition connect_locked (prevToken : string) (w : W) (t : tokens) (c : GWClient)
  : W * tokens * option error :=
  if decide (prevToken = token t c) then
    let '(w, r) := if LocalConnection (connection c) then connectLocal w c
                   else AuthenticatePassword w c (UserName (connection c)) (Password (connection c)) in
    match r with
    | Val tk => (w, <[tokenKey c := tk]> t, None)
    | Fail e => (w, t, Some e)
    end
  else (w, t, None).

Definition Connect (w : W) (t : tokens) (c : GWClient) : W * tokens * option error :=
  connect_locked (token t c) w t c.

Definition Disconnect (w : W) (t : tokens) (c : GWClient) : W * option error :=
  let form := to_map [("gwos-app-name", AppName c); ("gwos-api-token", token t c)] in
  let '(w, q, err) := doReq w None c "POST" GWEntrypointDisconnect "" (form_headers "text/plain")
                        (Some form) None in
  (w, match err with
      | Some err => Some (transport_error windows err)
      | None => status_error false (q_Status q) (q_Response q)
      end).

Definition invalid_token : error :=
  Errorf_w ErrUnauthorized "invalid gwos-app-name or gwos-api-token".

Definition GW_ValidateToken (w : W) (c : GWClient) (appName apiToken : string) : W * option error :=
  let form := to_map [("gwos-app-name", appName); ("gwos-api-token", apiToken)] in
  let '(w, q, err) := doReq w None c "POST" GWEntrypointValidateToken "" (form_headers "text/plain")
                        (Some form) None in
  (w, match err with
      | None =>
          if decide (q_Status q = 200%Z) then
            match ParseBool (q_Response q) with
            | Some true => None
            | _ => Some invalid_token
            end
          else Some (Errorf_w ErrUndecided (q_Response q))
      | Some err => Some (transport_error windows err)
      end).

(** The pairs of [additionalHeaders]; an odd last value is ignored. *)
Fixpoint add_headers (h : gmap string string) (l : list string) : gmap string string :=
  match l with
  | k :: v :: l => add_headers (<[k := v]> h) l
  | _ => h
  end.

Definition with_token (q : Req) (tk : string) : Req :=
  mkReq (q_Err q) (q_Form q) (<["GWOS-API-TOKEN" := tk]> (q_Headers q)) (q_Method q) (q_Payload q)
    (q_Response q) (q_Status q) (q_URL q).

(** The result of the last sending. *)
Definition send_result (q : Req) (err : option error) : result error string :=
  match err with
  | Some err =>
      if Is err (tgt Canceled) || Is err (tgt DeadlineExceeded) || is_connection_error windows err
      then Fail (Errorf_w ErrTransient (Error err)) else Fail err
  | None =>
      match status_error false (q_Status q) (q_Response q) with
      | Some e => Fail e
      | None => Val (q_Response q)
      end
  end.

(** [GWClient.SendRequest]: on 401 the token is renewed and the request is sent
    once more. *)
Definition GW_SendRequest (w : W) (t : tokens) (ctxh : option Header) (c : GWClient)
    (method : string) (e : GWEntrypoint) (query : string) (payload : option string)
    (additionalHeaders : list string) : W * tokens * result error string :=
  let headers := to_map [("Accept", "application/json"); ("Content-Type", "application/json");
                         ("GWOS-APP-NAME", AppName c); ("GWOS-API-TOKEN", token t c)] in
  let headers := add_headers headers additionalHeaders in
  let '(w, q, err) := doReq w ctxh c method e query headers None payload in
  match err with
  | None =>
      if decide (q_Status q = 401%Z) then
        let '(w, t, cerr) := Connect w t c in
        match cerr with
        | Some cerr => (w, t, Fail cerr)
        | None =>
            let '(w, q, err) := SendWithContext httpClientKeepAlive w ctxh (with_token q (token t c)) in
            (w, t, send_result q err)
        end
      else (w, t, send_result q None)
  | Some err => (w, t, send_result q (Some err))
  end.

(** ** The calls *)

Definition prefix_headers (c : GWClient) : list string :=
  let cn := connection c in
  if PrefixResourceNames cn && negb (bool_decide (ResourceNamePrefix cn = ""))
  then ["HostNamePrefix"; ResourceNamePrefix cn] else [].

(** The payload as it is sent and the headers of its encoding. *)
Definition encode_payload (c : GWClient) (payload : string) : result error (string * list string) :=
  if IsGZipped payload then Val (payload, ["Content-Encoding"; "gzip"])
  else if HTTPEncode (connection c)
  then p ← GZip payload; Val (p, ["Content-Encoding"; "gzip"])
  else Val (payload, []).

Definition SynchronizeInventory (w : W) (t : tokens) (ctxh : option Header) (c : GWClient)
    (payload : string) : W * tokens * result error string :=
  match encode_payload c payload with
  | Fail e => (w, t, Fail e)
  | Val (p, hs) =>
      let mergeParam := to_map [("merge", if MergeHosts (connection c) then "true" else "false")] in
      GW_SendRequest w t ctxh c "POST" GWEntrypointSynchronizer (BuildQueryParams mergeParam)
        (Some p) (app hs (prefix_headers c))
  end.

Definition SendResourcesWithMetrics (w : W) (t : tokens) (ctxh : option Header) (c : GWClient)
    (payload : string) : W * tokens * result error string :=
  match encode_payload c payload with
  | Fail e => (w, t, Fail e)
  | Val (p, hs) =>
      let e := if IsDynamicInventory (connection c) then GWEntrypointMonitoringDyn
               else GWEntrypointMonitoring in
      GW_SendRequest w t ctxh c "POST" e "" (Some p) (app hs (prefix_headers c))
  end.

Definition send_plain (e : GWEntrypoint) (w : W) (t : tokens) (ctxh : option Header) (c : GWClient)
    (payload : string) : W * tokens * result error string :=
  GW_SendRequest w t ctxh c "POST" e "" (Some payload) (prefix_headers c).

Definition ClearInDowntime := send_plain GWEntrypointClearInDowntime.
Definition SetInDowntime := send_plain GWEntrypointSetInDowntime.
Definition SendEvents := send_plain GWEntrypointEvents.
Definition SendEventsAck := send_plain GWEntrypointEventsAck.
Definition SendEventsUnack := send_plain GWEntrypointEventsUnack.

Definition GetServicesByAgent {A} (json : string → result error A) (w : W) (t : tokens) (c : GWClient)
    (agentID : string) : W * tokens * result error A :=
  let params := to_map [("query", "agentid='" +:+ agentID +:+ "'"); ("depth", "Shallow")] in
  let '(w, t, r) := GW_SendRequest w t None c "GET" GWEntrypointServices (BuildQueryParams params) None [] in
  (w, t, r ≫= json).

(** The query of the host groups: the host names, quoted and separated. *)
Definition hostgroups_query (appType : string) (hostNames : list string) : string :=
  "( hosts.hostName in (" +:+ Join ((λ h, "'" +:+ h +:+ "'") <$> hostNames) "," +:+ ")" +:+
  " ) and appType = '" +:+ appType +:+ "'".

Definition GetHostGroupsByAppTypeAndHostNames {A} (json : string → result error A) (w : W) (t : tokens)
    (c : GWClient) (appType : string) (hostNames : list string) : W * tokens * result error A :=
  match hostNames with
  | [] => (w, t, Fail (Opaque "unable to get host groups of host: host names are not provided"))
  | _ =>
      let params := to_map [("query", hostgroups_query appType hostNames); ("depth", "Shallow")] in
      let '(w, t, r) := GW_SendRequest w t None c "GET" GWEntrypointHostgroups (BuildQueryParams params) None [] in
      (w, t, r ≫= json)
  end.

(** ** The DalekServices client *)

Definition makeDalekServicesScheme (hostName : string) : string :=
  if HasPrefix hostName "dalekservices" then "http" else "https".

Definition DSEntrypointReload : string := "/dalekservices/connectors/reload/:agentID".
Definition DSEntrypointValidateToken : string := "/dalekservices/validate-token".

(** [url.URL.String]: escaping of the path is left to the library. *)
Context (url_String : string → string → string → string).

Definition DS_ValidateToken (w : W) (hostName appName apiToken : string) : W * option error :=
  if decide (hostName = "") then (w, None)
  else
    let form := to_map [("gwos-app-name", appName); ("gwos-api-token", apiToken)] in
    let url := url_String (makeDalekServicesScheme hostName) hostName DSEntrypointValidateToken in
    let '(w, q, err) := Send httpClientKeepAlive w (new_Req "POST" url (form_headers "text/plain") (Some form) None) in
    (w, match err with
        | Some err => Some err
        | None =>
            if decide (q_Status q = 201%Z) then
              match ParseBool (q_Response q) with
              | Some true => None
              | _ => Some invalid_token
              end
            else Some (Errorf_w ErrUndecided (q_Response q))
        end).

Definition Reload (w : W) (hostName agentID : string) : W * option error :=
  if decide (hostName = "") then (w, None)
  else
    let headers := to_map [("Accept", "application/json"); ("Content-Type", "application/json")] in
    let url := url_String (makeDalekServicesScheme hostName) hostName
                 (ReplaceAll DSEntrypointReload ":agentID" agentID) in
    let '(w, q, err) := Send httpClientKeepAlive w (new_Req "POST" url headers None None) in
    (w, match err with
        | Some err => Some err
        | None =>
            if decide (q_Status q = 201%Z) then None
            else if decide (q_Status q = 404%Z) then Some (Errorf_w ErrNotFound (q_Response q))
            else Some (Errorf_w ErrUndecided (q_Response q))
        end).
End client.

(** ** Lemmas *)

(** A transport that records the requests it sends. *)
Definition logged {W} (T : Transport W) : Transport (W * list http_request) := {|
  new_request := new_request;
  client_do wl r := let '(w, res) := client_do wl.1 r in ((w, app wl.2 [r]), res);
|}.

Abbreviation answer := (result error (Z * string)).

(** A transport that records the requests with their answers. *)
Definition traced {W} (T : Transport W) : Transport (W * list (http_request * answer)) := {|
  new_request := new_request;
  client_do wl r := let '(w, res) := client_do wl.1 r in ((w, app wl.2 [(r, res)]), res);
|}.

(** The status of an answer, and what an answer to the last sending gives. *)
Definition status_of (a : answer) : option Z := match a with Val (status, _) => Some status | Fail _ => None end.

Definition answer_result (windows : bool) (a : answer) : result error string :=
  match a with
  | Fail err =>
      if Is err (tgt Canceled) || Is err (tgt DeadlineExceeded) || is_connection_error windows err
      then Fail (Errorf_w ErrTransient (Error err)) else Fail err
  | Val (status, body) => match status_error false status body with Some e => Fail e | None => Val body end
  end.

(** Where a client logs in. *)
Definition login_url (c : GWClient) : string :=
  uri c (if LocalConnection (connection c) then GWEntrypointConnect else GWEntrypointAuthenticate).

Lemma trim_right_last f s c :
  f c = false → trim_right f (s +:+ String c "") = s +:+ String c "".
Proof. intros Hc. by rewrite trim_right_snoc, Hc. Qed.

Lemma TrimRight_slash s : TrimRight (s +:+ "/") "/" = TrimRight s "/".
Proof. unfold TrimRight. by rewrite trim_right_snoc. Qed.

Lemma HasSuffix_app s p : HasSuffix (s +:+ p) p = true.
Proof.
  unfold HasSuffix. apply bool_decide_eq_true. rewrite length_str_app. split; [lia|].
  replace (String.length s + String.length p - String.length p)%nat with (String.length s) by lia.
  apply str_drop_app.
Qed.

Lemma TrimSuffix_app s p : TrimSuffix (s +:+ p) p = s.
Proof.
  unfold TrimSuffix. rewrite HasSuffix_app, length_str_app.
  replace (String.length s + String.length p - String.length p)%nat with (String.length s) by lia.
  apply str_take_app.
Qed.

Lemma HasPrefix_app_l s t p : HasPrefix s p = true → HasPrefix (s +:+ t) p = true.
Proof. unfold HasPrefix. rewrite !prefix_spec. intros [u ->]. exists (u +:+ t). by rewrite str_app_assoc. Qed.

(** A prefix without a slash is not completed by what follows a slash. *)
Lemma prefix_slash p h s :
  str_forallb (λ c, negb (has_byte c "/")) p = true →
  String.prefix p (h +:+ String "/" s) = String.prefix p h.
Proof.
  revert p. induction h as [|c h IH]; intros [|d p]; try done.
  - intros [Hd _]%andb_true_iff. cbn. destruct (Ascii.ascii_dec d "/"%char) as [->|]; [|done].
    by vm_compute in Hd.
  - intros [_ Hp]%andb_true_iff. cbn. destruct (Ascii.ascii_dec d c); [|done]. by apply IH.
Qed.

Lemma HasPrefix_slash h s : HasPrefix (h +:+ String "/" s) "http" = HasPrefix h "http".
Proof. by apply prefix_slash. Qed.

Lemma str_app_snoc s c : s +:+ String c "" ≠ "".
Proof. by destruct s. Qed.

Section client_lemmas.
Context `{MapOrder} {W : Type} {T : Transport W} (windows keepAlive : bool).

Lemma add_headers_lookup_ne h l k :
  Forall (λ s, s ≠ k) l → add_headers h l !! k = h !! k.
Proof.
  enough (∀ n h l, (length l ≤ n)%nat → Forall (λ s, s ≠ k) l → add_headers h l !! k = h !! k) as Hn
    by (intros; by eapply (Hn (length l))).
  clear h l. induction n as [|n IH]; intros h l Hl Hf; [by destruct l; simpl in *; [|lia]|].
  destruct l as [|a [|b l]]; [done|done|]. cbn [add_headers].
  apply Forall_cons in Hf as [Ha Hf]. apply Forall_cons in Hf as [_ Hf].
  rewrite IH; [by rewrite lookup_insert_ne|simpl in *; lia|done].
Qed.

(** A header that no added key stands for is the one of the base. *)
Lemma foldl_h_Add_get l h k :
  Forall (λ kv, CanonicalKey kv.1 ≠ CanonicalKey k) l →
  h_Get (foldl (λ h kv, h_Add h kv.1 kv.2) h l) k = h_Get h k.
Proof.
  revert h. induction l as [|[a v] l IH]; intros h Hl; [done|].
  apply Forall_cons in Hl as [Ha Hl]. cbn [foldl]. rewrite IH by done.
  unfold h_Get, h_Add. by rewrite lookup_insert_ne.
Qed.

Lemma SendWithContext_logged wl ctxh q :
  let '(wl', q', e) := @SendWithContext _ _ (logged T) keepAlive wl ctxh q in
  (wl'.2 = wl.2 ∨ wl'.2 = app wl.2 [mkHttpRequest (q_Method q) (q_URL q) (req_header keepAlive ctxh q) (req_body q)])
  ∧ (e = None → wl'.2 = app wl.2 [mkHttpRequest (q_Method q) (q_URL q) (req_header keepAlive ctxh q) (req_body q)]
       ∧ q_Headers q' = q_Headers q ∧ q_Method q' = q_Method q ∧ q_URL q' = q_URL q
       ∧ q_Payload q' = q_Payload q ∧ q_Form q' = q_Form q).
Proof.
  unfold SendWithContext. cbn [new_request logged client_do].
  destruct (new_request _ _) as [e|]; [split; [by left|done]|].
  destruct (client_do wl.1 _) as [w r]. destruct r as [[s b]|e]; cbn; split; auto; done.
Qed.

Context (json_login : string → string → string) (json_accessToken : string → result error string).

(** The login of [Connect]: at most one request, and one when it succeeds. *)
Definition login_call (wl : W * list http_request) (c : GWClient)
  : (W * list http_request) * result error string :=
  if LocalConnection (connection c)
  then @connectLocal _ _ (logged T) windows keepAlive wl c
  else @AuthenticatePassword _ _ (logged T) windows keepAlive json_login json_accessToken wl c
         (UserName (connection c)) (Password (connection c)).

Lemma login_logged wl c :
  let '(wl', r) := login_call wl c in
  (wl'.2 = wl.2 ∨ ∃ x, wl'.2 = app wl.2 [x]) ∧ (is_val r = true → ∃ x, wl'.2 = app wl.2 [x]).
Proof.
  unfold login_call, connectLocal, AuthenticatePassword, doReq.
  destruct (LocalConnection _).
  - match goal with |- context [SendWithContext ?k ?w ?h ?q] =>
      pose proof (SendWithContext_logged w h q) as Hs;
      destruct (SendWithContext k w h q) as [[wl2 q2] err2] end.
    destruct Hs as [Hl Hq]. split; [destruct Hl; eauto|].
    intros Hv. destruct err2; [done|]. destruct (Hq eq_refl) as [-> _]. eauto.
  - match goal with |- context [SendWithContext ?k ?w ?h ?q] =>
      pose proof (SendWithContext_logged w h q) as Hs;
      destruct (SendWithContext k w h q) as [[wl2 q2] err2] end.
    destruct Hs as [Hl Hq]. split; [destruct Hl; eauto|].
    intros Hv. destruct err2; [done|]. destruct (Hq eq_refl) as [-> _]. eauto.
Qed.

(** [SendRequest] as a first sending, a login and a second sending. *)
Lemma GW_SendRequest_logged wl t ctxh c method e query payload hs :
  let '(wl', t', r) := @GW_SendRequest _ _ (logged T) windows keepAlive json_login json_accessToken
    wl t ctxh c method e query payload hs in
  ∃ headers r1, r1 = mkHttpRequest method (uri c e +:+ query)
      (req_header keepAlive ctxh (new_Req method (uri c e +:+ query) headers None payload)) payload ∧
    headers = add_headers (to_map [("Accept", "application/json"); ("Content-Type", "application/json");
                         ("GWOS-APP-NAME", AppName c); ("GWOS-API-TOKEN", token t c)]) hs ∧
    ((wl'.2 = wl.2 ∧ t' = t) ∨ (wl'.2 = app wl.2 [r1] ∧ t' = t) ∨
     (∃ login, wl'.2 = app wl.2 [r1; login] ∧ (t' = t ∨ ∃ tk, t' = <[tokenKey c := tk]> t)) ∨
     (∃ login tk, t' = <[tokenKey c := tk]> t ∧
        wl'.2 = app wl.2 [r1; login; mkHttpRequest method (uri c e +:+ query)
          (req_header keepAlive ctxh (new_Req method (uri c e +:+ query)
             (<["GWOS-API-TOKEN" := tk]> headers) None payload)) payload])).
Proof.
  unfold GW_SendRequest. set (headers := add_headers _ hs). unfold doReq.
  set (q0 := new_Req method (uri c e +:+ query) headers None payload).
  pose proof (SendWithContext_logged wl ctxh q0) as H1.
  destruct (SendWithContext _ _ _ _) as [[wl1 q1] err1]. destruct H1 as [Hl1 Hq1].
  destruct err1 as [err|].
  { exists headers. eexists. split_and!; [done|done|]. destruct Hl1; auto. }
  destruct (Hq1 eq_refl) as (Hw1 & Hh & Hme & Hu & Hp & Hf).
  destruct (decide (q_Status q1 = 401%Z)).
  2:{ exists headers. eexists. split_and!; [done|done|]. auto. }
  unfold Connect, connect_locked. rewrite decide_True by done.
  fold (login_call wl1 c). pose proof (login_logged wl1 c) as Hlog.
  destruct (login_call wl1 c) as [wl2 r2]. destruct Hlog as [Hw2 Hv2].
  destruct r2 as [tk|err].
  2:{ exists headers. eexists. split_and!; [done|done|]. rewrite Hw1 in Hw2.
      destruct Hw2 as [->|[x ->]]; [auto|]. do 2 right. left. exists x.
      rewrite <-(assoc_L app). split; [done|by left]. }
  destruct (Hv2 eq_refl) as [login Hw2'].
  unfold token at 1. rewrite lookup_insert_eq. cbn [default from_option id].
  pose proof (SendWithContext_logged wl2 ctxh (with_token q1 tk)) as H3.
  destruct (SendWithContext _ _ _ _) as [[wl3 q3] err3]. destruct H3 as [Hl3 _].
  exists headers. eexists. split_and!; [done|done|]. do 2 right.
  destruct Hl3 as [->| ->].
  - left. exists login. rewrite Hw2', Hw1, <-(assoc_L app). split; [done|]. eauto.
  - right. exists login, tk. split; [done|]. rewrite Hw2', Hw1, <-!(assoc_L app). cbn [app].
    destruct q1 as [? f1 h1 m1 p1 ? ? u1]. cbn in Hh, Hme, Hu, Hp, Hf. by subst.
Qed.

(** *** A trace with the answers *)

#[local] Abbreviation traced_send := (@SendWithContext _ _ (traced T) keepAlive).

Lemma SendWithContext_traced wl ctxh q :
  (∀ m u, new_request m u = None) →
  let x := mkHttpRequest (q_Method q) (q_URL q) (req_header keepAlive ctxh q) (req_body q) in
  ∃ w' a, traced_send wl ctxh q =
    match a with
    | Fail err => ((w', app wl.2 [(x, a)]), set_error q err, Some err)
    | Val (status, body) =>
        ((w', app wl.2 [(x, a)]),
         mkReq (q_Err q) (q_Form q) (q_Headers q) (q_Method q) (q_Payload q) body status (q_URL q), None)
    end.
Proof.
  intros Hn x. unfold SendWithContext. cbn [new_request traced client_do]. rewrite Hn. fold x.
  destruct (client_do wl.1 x) as [w' a]. exists w', a. by destruct a as [[s b]|err].
Qed.

(** The token that the answer to a login holds. *)
Definition new_token (c : GWClient) (a : answer) : result error string :=
  let resp := match a with
              | Fail err => Fail (transport_error windows err)
              | Val (status, body) => match status_error true status body with Some e => Fail e | None => Val body end
              end in
  if LocalConnection (connection c) then resp
  else body ← resp;
       match json_accessToken body with Val t => Val t | Fail e => Fail (Errorf_w ErrUndecided (Error e)) end.

Lemma login_traced wl c :
  (∀ m u, new_request m u = None) →
  ∃ w' x a, hr_URL x = login_url c ∧
    (if LocalConnection (connection c)
     then @connectLocal _ _ (traced T) windows keepAlive wl c
     else @AuthenticatePassword _ _ (traced T) windows keepAlive json_login json_accessToken wl c
            (UserName (connection c)) (Password (connection c))) = ((w', app wl.2 [(x, a)]), new_token c a).
Proof.
  intros Hn. unfold connectLocal, AuthenticatePassword, doReq, new_token, login_url.
  destruct (LocalConnection (connection c));
    match goal with |- context [traced_send ?w ?h ?q] => destruct (SendWithContext_traced w h q Hn) as (w' & a & ->) end;
    eexists w', _, a; (split; [|destruct a as [[st b]|err]; reflexivity]); cbn; by rewrite str_app_nil_r.
Qed.

Lemma GW_SendRequest_traced wl t ctxh c method e query payload hs :
  (∀ m u, new_request m u = None) →
  let '(wl', t', r) := @GW_SendRequest _ _ (traced T) windows keepAlive json_login json_accessToken
    wl t ctxh c method e query payload hs in
  let url := uri c e +:+ query in
  let sent headers := mkHttpRequest method url (req_header keepAlive ctxh (new_Req method url headers None payload)) payload in
  let headers := add_headers (to_map [("Accept", "application/json"); ("Content-Type", "application/json");
                    ("GWOS-APP-NAME", AppName c); ("GWOS-API-TOKEN", token t c)]) hs in
  ∃ a1, if decide (status_of a1 = Some 401%Z) then
    ∃ login al, hr_URL login = login_url c ∧
      match new_token c al with
      | Fail err => wl'.2 = app wl.2 [(sent headers, a1); (login, al)] ∧ t' = t ∧ r = Fail err
      | Val tk => ∃ a3, wl'.2 = app wl.2 [(sent headers, a1); (login, al); (sent (<["GWOS-API-TOKEN" := tk]> headers), a3)] ∧
          t' = <[tokenKey c := tk]> t ∧ r = answer_result windows a3
      end
  else wl'.2 = app wl.2 [(sent headers, a1)] ∧ t' = t ∧ r = answer_result windows a1.
Proof.
  intros Hn. unfold GW_SendRequest. set (headers := add_headers _ hs). unfold doReq.
  set (q0 := new_Req method (uri c e +:+ query) headers None payload).
  destruct (SendWithContext_traced wl ctxh q0 Hn) as (w1 & a1 & H1). rewrite H1. clear H1.
  destruct a1 as [[st b]|err].
  2:{ exists (Fail err). rewrite decide_False by done. by split_and!. }
  cbn [q_Status]. destruct (decide (st = 401%Z)) as [->|Hst].
  2:{ exists (Val (st, b)). rewrite decide_False by (intros [= ?]; done). by split_and!. }
  unfold Connect, connect_locked. rewrite (decide_True (P := token t c = token t c)) by done.
  match goal with |- context [connectLocal _ _ ?w c] => destruct (login_traced w c Hn) as (w2 & login & al & Hu & Hl) end.
  rewrite Hl. clear Hl. destruct (new_token c al) as [tk|err] eqn:Ht.
  - unfold token at 1. rewrite lookup_insert_eq. cbn [default from_option id].
    match goal with |- context [traced_send ?w ?h ?q] => destruct (SendWithContext_traced w h q Hn) as (w3 & a3 & ->) end.
    destruct a3 as [[s3 b3]|e3]; exists (Val (401%Z, b)); rewrite decide_True by done; exists login, al; rewrite Ht;
      (split; [done|]); [exists (Val (s3, b3))|exists (Fail e3)]; cbn [snd]; rewrite <-!(assoc_L app); by split_and!.
  - exists (Val (401%Z, b)). rewrite decide_True by done. exists login, al. rewrite Ht. cbn [snd].
    rewrite <-(assoc_L app). by split_and!.
Qed.
End client_lemmas.

(** ** Properties *)

(** C18: The verdict on the last answer of a request, on which the retry of the
    dispatcher rests: success is exactly status 200; of the statuses exactly 502,
    503 and 504 are transient, 401 is unauthorized, every other one permanent; a
    transport error is transient when it is a cancellation, a name resolution, a
    connection or a timeout error, and is passed on unchanged otherwise. *)
Theorem send_result_verdict (windows : bool) (q : Req) (err : option error) :
  match err with
  | None =>
      (q_Status q = 200%Z ∧ send_result windows q None = Val (q_Response q)) ∨
      (q_Status q ≠ 200%Z ∧ ∃ e, send_result windows q None = Fail e ∧
         (Is e (tgt ErrTransient) = true ↔ q_Status q ∈ [502; 503; 504]%Z) ∧
         (Is e (tgt ErrUnauthorized) = true ↔ q_Status q = 401%Z) ∧
         (Is e (tgt ErrPermanent) = negb (Is e (tgt ErrTransient))))
  | Some e =>
      if Is e (tgt Canceled) || Is e (tgt DeadlineExceeded) || is_connection_error windows e
      then ∃ e', send_result windows q err = Fail e' ∧ Is e' (tgt ErrTransient) = true
      else send_result windows q err = Fail e
  end.
Proof.
  destruct err as [e|].
  - cbn. destruct (_ || _); [|done]. eexists. split; done.
  - unfold send_result, status_error. rewrite andb_false_l, orb_false_r.
    destruct (decide (q_Status q = 401)%Z) as [H1|H1].
    { right. rewrite bool_decide_true by done. split; [lia|]. eexists. split; [done|]. rewrite H1.
      split_and!; [set_solver|done|done]. }
    rewrite bool_decide_false by done.
    destruct (decide (q_Status q = 404)%Z) as [H2|H2].
    { right. split; [lia|]. eexists. split; [done|]. rewrite H2. split_and!; [set_solver|done|done]. }
    destruct (decide (q_Status q = 502 ∨ q_Status q = 504)%Z) as [H3|H3].
    { right. split; [lia|]. eexists. split; [done|]. split_and!; [|split; [done|lia]|done].
      split; [|done]. intros _. set_solver. }
    destruct (decide (q_Status q = 503)%Z) as [H4|H4].
    { right. split; [lia|]. eexists. split; [done|]. split_and!; [|split; [done|lia]|done].
      split; [|done]. intros _. set_solver. }
    destruct (decide (q_Status q ≠ 200)%Z) as [H5|H5].
    { right. split; [done|]. eexists. split; [done|]. split_and!; [|split; [done|lia]|done].
      split; [done|]. intros Hin. exfalso. set_solver. }
    left. split; [lia|done].
Qed.

(** C17: What [SendRequest] sends, and what it returns.  An answer of 401 to the request, and
    nothing else, makes it log in, once; a login that gives a token makes it send the same
    request again, once, with no other change than the token; the shared tokens change
    only by that login, at the key of the client; and the result is the verdict on the
    last answer to the request, whatever it is, or the error of the login.  The addresses are
    such that requests can be made of them. *)
Theorem SendRequest_renews_once `{MapOrder} {W : Type} {T : Transport W} (windows keepAlive : bool)
    (json_login : string → string → string) (json_accessToken : string → result error string)
    (w : W) (t : tokens) (ctxh : option Header) (c : GWClient) (method : string) (e : GWEntrypoint)
    (query : string) (payload : option string) (hs : list string) :
  (∀ m u, new_request m u = None) →
  let '(wl, t', r) := @GW_SendRequest _ _ (traced T) windows keepAlive json_login json_accessToken
    (w, []) t ctxh c method e query payload hs in
  let url := uri c e +:+ query in
  let sent headers := mkHttpRequest method url (req_header keepAlive ctxh (new_Req method url headers None payload)) payload in
  let headers := add_headers (to_map [("Accept", "application/json"); ("Content-Type", "application/json");
                    ("GWOS-APP-NAME", AppName c); ("GWOS-API-TOKEN", token t c)]) hs in
  ∃ a1, if decide (status_of a1 = Some 401%Z) then
    ∃ login al, hr_URL login = login_url c ∧
      match new_token windows json_accessToken c al with
      | Fail err => wl.2 = [(sent headers, a1); (login, al)] ∧ t' = t ∧ r = Fail err
      | Val tk => ∃ a3, wl.2 = [(sent headers, a1); (login, al); (sent (<["GWOS-API-TOKEN" := tk]> headers), a3)] ∧
          t' = <[tokenKey c := tk]> t ∧ r = answer_result windows a3
      end
  else wl.2 = [(sent headers, a1)] ∧ t' = t ∧ r = answer_result windows a1.
Proof.
  intros Hn. exact (GW_SendRequest_traced windows keepAlive json_login json_accessToken (w, []) t ctxh c method e query payload hs Hn).
Qed.

(** A URI does not depend on how the host name is written: a trailing slash
    and a trailing [/api] make no difference, and there always is a scheme. *)
Theorem buildURI_normal (host : string) (c : ascii) (e : GWEntrypoint) :
  c ≠ "/"%char →
  let h := host +:+ String c "" in
  buildURI (h +:+ "/") e = buildURI h e ∧
  (HasSuffix h "/api" = false → buildURI (h +:+ "/api") e = buildURI h e) ∧
  HasPrefix (buildURI h e) "http" = true.
Proof.
  intros Hc h.
  assert (TrimRight h "/" = h) as Hh.
  { unfold TrimRight, h. apply trim_right_last. cbn. by rewrite bool_decide_eq_false_2. }
  split_and!.
  - unfold buildURI. by rewrite TrimRight_slash, Hh, HasPrefix_slash.
  - intros Hs. unfold buildURI. rewrite (HasPrefix_slash h "api").
    assert (TrimRight (h +:+ "/api") "/" = h +:+ "/api") as ->.
    { change "/api" with ("/ap" +:+ String "i" ""). rewrite <-str_app_assoc. by apply trim_right_last. }
    rewrite TrimSuffix_app, Hh. unfold TrimSuffix. by rewrite Hs.
  - unfold buildURI. destruct (HasPrefix h "http") eqn:E; [|done].
    rewrite Hh. cbn [String.append].
    apply prefix_spec in E as [t Ht].
    unfold TrimSuffix. destruct (HasSuffix h "/api") eqn:Hs; [|rewrite Ht; apply HasPrefix_app_l, prefix_app].
    unfold HasSuffix in Hs. apply bool_decide_eq_true in Hs as [Hlen Hd].
    assert (4 ≤ String.length h - 4)%nat as H4.
    { rewrite Ht in Hd |- *. clear -Hd.
      destruct t as [|t1 [|t2 [|t3 [|t4 t]]]]; cbn in Hd |- *; [discriminate..|lia]. }
    apply HasPrefix_app_l, prefix_spec. cbn [String.length] in *.
    exists (str_take (String.length h - 8) t). rewrite Ht at 2.
    replace (String.length h - 4)%nat with (4 + (String.length h - 8))%nat by lia. done.
Qed.

Lemma buildURI_normal_witness :
  buildURI "https://gw/api" GWEntrypointEvents = buildURI "https://gw" GWEntrypointEvents.
Proof.
  apply (proj1 (proj2 (buildURI_normal "https://g" "w" GWEntrypointEvents ltac:(discriminate)))).
  reflexivity.
Defined.

(** Compressed payloads.  Inventory and metrics are compressed at most once
    and carry the encoding header exactly when the body is compressed; the other
    calls send a body that was already compressed without any encoding header. *)
Theorem encoding_header `{MapOrder} {W : Type} {T : Transport W} (windows keepAlive : bool)
    (json_login : string → string → string) (json_accessToken : string → result error string)
    (GZip : string → result error string) (w : W) (t : tokens) (c : GWClient) (e : GWEntrypoint)
    (payload : string) :
  (∀ p z, GZip p = Val z → IsGZipped z = true) →
  (∀ p hs, encode_payload GZip c payload = Val (p, hs) →
     (hs = ["Content-Encoding"; "gzip"] ↔ IsGZipped p = true) ∧
     (IsGZipped payload = true → p = payload) ∧ (hs = ["Content-Encoding"; "gzip"] ∨ hs = [])) ∧
  (let '(wl, _, _) := @send_plain _ _ (logged T) windows keepAlive json_login json_accessToken e
     (w, []) t None c payload in
   ∀ r1, wl.2 !! 0%nat = Some r1 → h_Get (hr_Header r1) "Content-Encoding" = "" ∧ hr_Body r1 = Some payload).
Proof.
  intros Hgz. split.
  - unfold encode_payload. intros p hs. destruct (IsGZipped payload) eqn:E.
    + intros [= <- <-]. split_and!; [by rewrite E|done|by left].
    + destruct (HTTPEncode (connection c)).
      * destruct (GZip payload) as [z|] eqn:Ez; [|done]. intros [= <- <-].
        split_and!; [split; [intros _; by eapply Hgz|done]|done|by left].
      * intros [= <- <-]. split_and!; [split; [done|by rewrite E]|done|by right].
  - unfold send_plain.
    pose proof (GW_SendRequest_logged (T := T) windows keepAlive json_login json_accessToken
      (w, []) t None c "POST" e "" (Some payload) (prefix_headers c)) as Hs.
    destruct (GW_SendRequest _ _ _ _ _ _ _ _ _ _ _ _ _) as [[wl t'] r].
    destruct Hs as (headers & r1 & Hr1 & Hh & Hc). cbn [snd app] in Hc.
    intros r1' Hr. assert (r1' = r1) as ->.
    { destruct Hc as [[E _]|[[E _]|[(? & E & _)|(? & ? & _ & E)]]]; rewrite E in Hr; cbn in Hr; congruence. }
    rewrite Hr1. split; [|done]. cbn [hr_Header]. unfold req_header. cbn [q_Headers new_Req].
    rewrite foldl_h_Add_get.
    + destruct keepAlive; [done|]. rewrite h_Get_Set_ne; [done|by vm_compute].
    + apply Forall_forall. intros [k v] Hk%elem_of_map_order. cbn [fst].
      assert (k ∈ ["Accept"; "Content-Type"; "GWOS-APP-NAME"; "GWOS-API-TOKEN"; "HostNamePrefix"]) as Hin.
      { rewrite Hh in Hk. revert Hk. unfold prefix_headers, to_map.
        destruct (_ && _); cbn [add_headers list_to_map foldr curry fst snd];
          rewrite ?lookup_insert_Some, ?lookup_empty; intros Hk; set_solver. }
      assert (CanonicalKey "Content-Encoding" = "Content-Encoding") as -> by by vm_compute.
      rewrite !list_elem_of_In in Hin. cbn in Hin.
      destruct Hin as [<-|[<-|[<-|[<-|[<-|[]]]]]]; by vm_compute.
Qed.

(** A network that answers 200, and a client of it. *)
Definition ok_transport : Transport unit := {|
  new_request _ _ := None;
  client_do w _ := (w, Val (200%Z, "ok"));
|}.

Definition sample_client : GWClient :=
  mkGWClient "tcg" "VEMA" (mkGWConnection 1 "gw" "u" "p" true false "" false false "" false "" false false false).

Definition sample_gzip (p : string) : result error string := Val (String "031" (String "139" (String "000" p))).

(** A gateway whose token has expired: 401, a new token, success. *)
Definition expired_transport : Transport nat := {|
  new_request _ _ := None;
  client_do w _ := (S w, Val (match w with 0%nat => (401%Z, "expired") | 1%nat => (200%Z, "new") | _ => (200%Z, "ok") end));
|}.

Lemma SendRequest_renews_once_witness :
  (let '(wl, t', r) := @GW_SendRequest sorted_order _ (traced expired_transport) false false (λ _ _, "") (λ s, Val s)
     (0%nat, []) ∅ None sample_client "POST" GWEntrypointEvents "" (Some "{}") [] in
   (status_of ∘ snd <$> wl.2, t' !! tokenKey sample_client, r)) =
    ([Some 401; Some 200; Some 200]%Z, Some "new", Val "ok") ∧
  let '(wl, t', r) := @GW_SendRequest sorted_order _ (traced expired_transport) false false (λ _ _, "") (λ s, Val s)
     (0%nat, []) ∅ None sample_client "POST" GWEntrypointEvents "" (Some "{}") [] in
  ∃ x1 a1 rest, wl.2 = (x1, a1) :: rest ∧ (rest = [] ↔ status_of a1 ≠ Some 401%Z).
Proof.
  split; [vm_compute; reflexivity|].
  pose proof (@SendRequest_renews_once sorted_order nat expired_transport false false (λ _ _, "") (λ s, Val s)
    0%nat ∅ None sample_client "POST" GWEntrypointEvents "" (Some "{}") [] (λ _ _, eq_refl)) as H.
  destruct (GW_SendRequest _ _ _ _ _ _ _ _ _ _ _ _ _) as [[wl t'] r]. destruct H as (a1 & H).
  destruct (decide (status_of a1 = Some 401%Z)) as [Hs|Hs].
  - destruct H as (login & al & _ & H). destruct (new_token _ _ _ _).
    + destruct H as (a3 & -> & _). do 3 eexists. split; [reflexivity|]. split; [discriminate|intros Hn; by destruct Hn].
    + destruct H as (-> & _). do 3 eexists. split; [reflexivity|]. split; [discriminate|intros Hn; by destruct Hn].
  - destruct H as (-> & _). do 3 eexists. split; [reflexivity|]. by split.
Defined.

Lemma encoding_header_witness :
  match (@send_plain sorted_order _ (logged ok_transport) false false (λ _ _, "") (λ _, Val "") GWEntrypointEvents
     (tt, []) ∅ None sample_client (String "031" (String "139" "xyz"))).1.1.2 !! 0%nat with
  | Some r1 => h_Get (hr_Header r1) "Content-Encoding" = ""
  | None => False
  end.
Proof.
  destruct ((@send_plain sorted_order _ (logged ok_transport) false false (λ _ _, "") (λ _, Val "") GWEntrypointEvents
     (tt, []) ∅ None sample_client (String "031" (String "139" "xyz"))).1.1.2 !! 0%nat) as [r1|] eqn:Hr.
  - exact (proj1 (proj2 (@encoding_header sorted_order _ ok_transport false false (λ _ _, "") (λ _, Val "")
      sample_gzip tt ∅ sample_client GWEntrypointEvents (String "031" (String "139" "xyz"))
      ltac:(intros p z [= <-]; reflexivity)) r1 Hr)).
  - discriminate Hr.
Defined.
