(* ===== verification/Delivery.v ===== *)
(** services/nats.go: from a payload to the NATS subject ([Put2Nats]) and from a
    NATS message to a call of a Groundwork client ([makeDurable], [adaptClient]).

    OpenTelemetry gives the span context of a call; it is an argument.  The
    header of a delivered message is a map the handler may write to; [None] is the
    nil map. *)

From S2P Require Import Prelude GoString Errors Transit Payload Json Http Nats Dispatcher Tracer Clients.

Local Open Scope string_scope.

(** ** Publishing *)

Section put.
(** [clients.GZip] into a buffer. *)
Context (GZip : string → result error string).

Definition span_header (h : Header) (sc : SpanContext) : Header :=
  h_Set (h_Set (h_Set h HdrSpanSpanID (hex_encode (SpanID sc)))
           HdrSpanTraceID (hex_encode (TraceID sc)))
    HdrSpanTraceFlags (hex_encode (String (TraceFlags sc) "")).

(** [Put2Nats(ctx, subj, payload)]: [limit] is the [NatsMaxPayload] of the
    agent, [cfg] the configuration of the NATS server. *)
Definition Put2Nats (limit : Z) (cfg : option Config) (ctxh : option Header) (sc : SpanContext)
    (subj payload : string) (p : publisher) : publisher * option error :=
  let header := match ctxh with Some h => maps_Copy ∅ h | None => ∅ end in
  let header := span_header header sc in
  if decide (limit < slen payload)%Z then
    let n0 := slen payload in
    match GZip payload with
    | Fail err => (p, Some err)
    | Val z =>
        if decide (limit < slen z)%Z
        then (p, Some (Errorf_w ErrPayloadLim
               (subj +:+ " / " +:+ FormatInt limit +:+ " / " +:+ FormatInt n0 +:+ " / " +:+
                FormatInt (slen z) +:+ " / gzip compressed")))
        else
          let header := h_Set (h_Set header HdrCompressed "gzip") HdrPayloadLen (FormatInt n0) in
          Pub cfg subj z (h_Add header HdrPayloadLen (FormatInt (slen z))) p
    end
  else Pub cfg subj payload (h_Add header HdrPayloadLen (FormatInt (slen payload))) p.
End put.

(** ** Delivery *)

(** [nats.Header]: its keys are case-sensitive, a nil map reads as empty. *)
Definition nh_Get (h : option Header) (k : string) : string :=
  match default ∅ h !! k with Some (v :: _) => v | _ => "" end.

(** Writing to the nil map panics. *)
Definition nh_Set (h : option Header) (k v : string) : outcome (option Header) :=
  match h with
  | Some h => Ret (Some (<[k := [v]]> h))
  | None => Panic "assignment to entry in nil map"
  end.

Definition nh_Del (h : option Header) (k : string) : option Header := base.delete k <$> h.

Record jsmsg := mkJsmsg { jm_Subject : string; jm_Data : string; jm_Headers : option Header }.

(** What a published message is when it is delivered. *)
Definition deliver (m : message) : jsmsg := mkJsmsg (subject m) (Nats.data m) (Some (header m)).

Record Stats := mkStats {
  BytesSent : Z;
  MessagesSent : Z;
  MetricsSent : Z;
  x : gmap string Z;
}.

(** [expvar.Map.Add] *)
Definition x_Add (m : gmap string Z) (k : string) (n : Z) : gmap string Z :=
  <[k := int64 (default 0%Z (m !! k) + n)]> m.

Definition getCtx (sc : SpanContext) : option SpanContext := if IsValid sc then Some sc else None.

(** The span context of the header: the identifiers that decode; without a
    decoded byte the flags panic. *)
Definition header_span (h : option Header) : outcome (option SpanContext) :=
  let s := nh_Get h HdrSpanSpanID in
  let t := nh_Get h HdrSpanTraceID in
  let tf := nh_Get h HdrSpanTraceFlags in
  if negb (bool_decide (s = "")) && negb (bool_decide (t = "")) then
    let spanID := match hex_decode s with Val b => copy_bytes 8 b | Fail _ => zero_bytes 8 end in
    let traceID := match hex_decode t with Val b => copy_bytes 16 b | Fail _ => zero_bytes 16 end in
    flags ← match hex_decode tf with
            | Val b => '(c, _) ← next_byte b; Ret c
            | Fail _ => Ret "000"%char
            end;
    Ret (getCtx (mkSpanContext spanID traceID flags))
  else Ret None.

(** The durable's name without the characters NATS refuses. *)
Definition durable_name (durable : string) : string :=
  foldl (λ d s, ReplaceAll d s "") durable ["/"; "."; "*"; ">"].

Section delivery.
Context `{MapOrder} {W : Type} {T : Transport W}.
Context (windows httpClientKeepAlive : bool).
Context (json_login : string → string → string) (json_accessToken : string → result error string).
Context (GZip : string → result error string).
Context (json_p2 : string → result error natsPayload2).

(** What the handlers change: the network, the tokens, the counters, and how
    often [StopTransport] was asked for. *)
Record gateway := mkGateway {
  g_world : W;
  g_tokens : tokens;
  g_stats : Stats;
  g_stops : nat;
}.

(** The client call of a payload type. *)
Definition client_call (t : payloadType)
  : option (W → tokens → option Header → GWClient → string → W * tokens * result error string) :=
  if decide (t = typeEvents) then
    Some (SendEvents windows httpClientKeepAlive json_login json_accessToken)
  else if decide (t = typeEventsAck) then
    Some (SendEventsAck windows httpClientKeepAlive json_login json_accessToken)
  else if decide (t = typeEventsUnack) then
    Some (SendEventsUnack windows httpClientKeepAlive json_login json_accessToken)
  else if decide (t = typeClearInDowntime) then
    Some (ClearInDowntime windows httpClientKeepAlive json_login json_accessToken)
  else if decide (t = typeSetInDowntime) then
    Some (SetInDowntime windows httpClientKeepAlive json_login json_accessToken)
  else if decide (t = typeInventory) then
    Some (SynchronizeInventory windows httpClientKeepAlive json_login json_accessToken GZip)
  else if decide (t = typeMetrics) then
    Some (SendResourcesWithMetrics windows httpClientKeepAlive json_login json_accessToken GZip)
  else None.

Definition type_name (t : payloadType) : string :=
  match payloadType_String t with Ret s => s | Panic _ => "" end.

Definition with_MetricsSent (s : Stats) : Stats :=
  mkStats (BytesSent s) (MessagesSent s) (int64 (MetricsSent s + 1)) (x s).

(** Whether the context of the payload is to be completed. *)
Definition todo_fix (h : option Header) : bool :=
  negb (bool_decide (nh_Get h HdrTodoTracerCtx = "")) && bool_decide (nh_Get h HdrCompressed = "").

(** The handler of [adaptClient(gwClient)], under the agent identity [a]; the
    context of the dispatcher carries no header. *)
Definition adaptClient (a : AgentIdentity) (c : GWClient) (g : gateway) (msg : jsmsg)
  : gateway * option error :=
  let header := jm_Headers msg in
  match FromStr (nh_Get header HdrPayloadType) with
  | Fail err => (g, Some err)
  | Val pType =>
      let todo := todo_fix header in
      let data := if todo then fixTracerContext a (jm_Data msg) else jm_Data msg in
      let header := if todo then nh_Del header HdrTodoTracerCtx else header in
      match client_call pType with
      | None => (g, Some (Errorf_w ErrDispatcher ("unknown payload type: " +:+ type_name pType)))
      | Some fn =>
          let '(w, t, r) := fn (g_world g) (g_tokens g) (Some (default ∅ header)) c data in
          match r with
          | Val _ =>
              let st := if decide (pType = typeMetrics) then with_MetricsSent (g_stats g) else g_stats g in
              (mkGateway w t st (g_stops g), None)
          | Fail err => (mkGateway w t (g_stats g) (g_stops g), Some err)
          end
      end
  end.

Definition count_sent (durable data : string) (s : Stats) : Stats :=
  mkStats (int64 (BytesSent s + slen data)) (int64 (MessagesSent s + 1)) (MetricsSent s)
    (x_Add (x s) ("sentTo:" +:+ durable) 1).

(** The verdict of the handler: an unauthorized user stops the transport. *)
Definition settle (durable data : string) (g : gateway) (err : option error) : gateway :=
  match err with
  | None => mkGateway (g_world g) (g_tokens g) (count_sent durable data (g_stats g)) (g_stops g)
  | Some e =>
      if negb (Is e (tgt ErrTransient)) && Is e (tgt ErrUnauthorized)
      then mkGateway (g_world g) (g_tokens g) (g_stats g) (S (g_stops g)) else g
  end.

(** The handler [makeDurable(durable, handleWithCtx)] builds: the legacy flow
    of a wrapped payload, or the flow with headers; then the nested handler. *)
Definition makeDurable_Handler (durable : string) (handleWithCtx : gateway → jsmsg → gateway * option error)
    (g : gateway) (msg : jsmsg) : outcome (gateway * option error) :=
  r ← Unmarshal json_p2 (jm_Data msg);
  '(data, msg) ←
    match r with
    | Val p =>
        pType ← payloadType_String (np_Type p);
        h ← (if decide (nh_Get (jm_Headers msg) HdrPayloadType = "")
             then nh_Set (jm_Headers msg) HdrPayloadType pType else Ret (jm_Headers msg));
        Ret (np_Payload p, mkJsmsg (jm_Subject msg) (jm_Data msg) h)
    | Fail _ =>
        _ ← header_span (jm_Headers msg);
        Ret (jm_Data msg, msg)
    end;
  let '(g, err) := handleWithCtx g msg in
  Ret (settle durable data g err, err).

(** [makeSubscriptions(gwClients)]: a durable per client. *)
Definition makeSubscriptions (a : AgentIdentity) (gwClients : list GWClient)
  : list (string * (gateway → jsmsg → outcome (gateway * option error))) :=
  (λ c, let d := durable_name ("#" +:+ HostName (connection c) +:+ "#") in
        (d, makeDurable_Handler d (adaptClient a c))) <$> gwClients.
End delivery.
Arguments gateway : clear implicits.

(** ** Lemmas *)

(** The names of the headers are canonical. *)
Definition canonical (k : string) : Prop := CanonicalKey k = k.

Lemma canonical_hdrs :
  Forall canonical [HdrCompressed; HdrPayloadLen; HdrPayloadType; HdrSpanSpanID; HdrSpanTraceID;
                    HdrSpanTraceFlags; HdrTodoTracerCtx].
Proof. repeat constructor. Qed.

(** The header of a published message, above the header [h] of the context. *)
Definition sent_header (h : Header) (sc : SpanContext) (n0 : option Z) (n : Z) : Header :=
  let h := <[HdrSpanTraceFlags := [hex_encode (String (TraceFlags sc) "")]]>
             (<[HdrSpanTraceID := [hex_encode (TraceID sc)]]>
                (<[HdrSpanSpanID := [hex_encode (SpanID sc)]]> h)) in
  match n0 with
  | Some n0 => <[HdrPayloadLen := [FormatInt n0; FormatInt n]]> (<[HdrCompressed := ["gzip"]]> h)
  | None => <[HdrPayloadLen := app (default [] (h !! HdrPayloadLen)) [FormatInt n]]> h
  end.

Lemma span_header_eq h sc :
  span_header h sc = <[HdrSpanTraceFlags := [hex_encode (String (TraceFlags sc) "")]]>
             (<[HdrSpanTraceID := [hex_encode (TraceID sc)]]>
                (<[HdrSpanSpanID := [hex_encode (SpanID sc)]]> h)).
Proof. reflexivity. Qed.

Lemma Put2Nats_cases GZip limit cfg h sc subj payload p :
  Put2Nats GZip limit cfg (Some h) sc subj payload p =
    if decide (limit < slen payload)%Z then
      match GZip payload with
      | Fail err => (p, Some err)
      | Val z =>
          if decide (limit < slen z)%Z then (p, (Put2Nats GZip limit cfg (Some h) sc subj payload p).2)
          else Pub cfg subj z (sent_header h sc (Some (slen payload)) (slen z)) p
      end
    else Pub cfg subj payload (sent_header h sc None (slen payload)) p.
Proof.
  unfold Put2Nats. rewrite maps_Copy_empty, span_header_eq.
  case_decide; [|done]. destruct (GZip payload) as [z|]; [|done]. case_decide; [done|].
  unfold sent_header, h_Add, h_Set. change (CanonicalKey HdrPayloadLen) with HdrPayloadLen.
  change (CanonicalKey HdrCompressed) with HdrCompressed.
  rewrite lookup_insert_eq, insert_insert_eq. done.
Qed.

Lemma Pub_None cfg subj d h p p' :
  Pub cfg subj d h p = (p', None) ↔
  (slen d ≤ max_payload cfg)%Z ∧
  p' = mkPublisher (mkMessage subj d h :: waiting p) (channel p) (published p) (lost p).
Proof.
  unfold Pub. rewrite maps_Copy_empty. case_decide; split.
  - done.
  - intros [? _]. lia.
  - intros [= <-]. split; [lia|done].
  - by intros [_ ->].
Qed.

(** Header names are told apart by computation. *)
Ltac hdr_ne := apply (bool_decide_unpack _); vm_compute; exact I.

Lemma sent_header_ne h sc n0 n k :
  k ∉ [HdrPayloadLen; HdrCompressed; HdrSpanTraceFlags; HdrSpanTraceID; HdrSpanSpanID] →
  sent_header h sc n0 n !! k = h !! k.
Proof.
  rewrite !not_elem_of_cons. intros (? & ? & ? & ? & ? & _). unfold sent_header.
  by destruct n0; rewrite !lookup_insert_ne by congruence.
Qed.

Lemma sent_header_Compressed h sc n0 n :
  sent_header h sc n0 n !! HdrCompressed = match n0 with Some _ => Some ["gzip"] | None => h !! HdrCompressed end.
Proof.
  unfold sent_header. destruct n0; [by rewrite lookup_insert_ne, lookup_insert_eq by discriminate|].
  by rewrite !lookup_insert_ne by discriminate.
Qed.

(** The flags that [Put2Nats] writes decode: the handler does not panic. *)
Lemma header_span_sent h sc n0 n : ∃ s, header_span (Some (sent_header h sc n0 n)) = Ret s.
Proof.
  unfold header_span, nh_Get. cbn [default from_option id].
  assert (sent_header h sc n0 n !! HdrSpanTraceFlags = Some [hex_encode (String (TraceFlags sc) "")]) as ->.
  { unfold sent_header. by destruct n0; rewrite ?lookup_insert_ne, lookup_insert_eq by discriminate. }
  rewrite hex_decode_encode. cbn [next_byte]. rewrite !bind_ret_l.
  case_match; eauto.
Qed.

Lemma client_call_some `{MapOrder} {W} {T : Transport W} b1 b2 jl ja gz t :
  (1 ≤ t < 8)%Z → ∃ fn, client_call b1 b2 jl ja gz t = Some fn.
Proof.
  intros Ht. unfold client_call, typeEvents, typeEventsAck, typeEventsUnack, typeClearInDowntime,
    typeSetInDowntime, typeInventory, typeMetrics.
  repeat case_decide; try (eexists; reflexivity). lia.
Qed.

(** Texts that are not taken for a wrapped payload: their first byte is 8 or
    more and they do not start with the envelope of version 2. *)
Definition not_wrapped (s : string) : Prop :=
  match s with "" => False | String c _ => (8 ≤ of_byte c)%Z end ∧ HasPrefix s v2_prefix = false.

Lemma Unmarshal_not_wrapped json_p2 s :
  not_wrapped s → ∃ e, Unmarshal json_p2 s = Ret (Fail e).
Proof.
  destruct s as [|c s]; intros [Hc Hv]; [done|]. unfold Unmarshal. rewrite decide_False by lia.
  rewrite Hv. eauto.
Qed.

Lemma IsGZipped_not_wrapped z : IsGZipped z = true → not_wrapped z.
Proof.
  destruct z as [|a [|b [|c z]]]; try done. cbn [IsGZipped]. intros [Ha Hb]%andb_true_iff.
  apply bool_decide_eq_true in Ha, Hb. subst. by split.
Qed.

(** A successful publication: the one message added, under the header. *)
Lemma Put2Nats_published GZip limit cfg h sc subj payload p p' :
  Put2Nats GZip limit cfg (Some h) sc subj payload p = (p', None) →
  ∃ d n0, p' = mkPublisher (mkMessage subj d (sent_header h sc n0 (slen d)) :: waiting p)
                 (channel p) (published p) (lost p) ∧
    (slen d ≤ limit)%Z ∧ (slen d ≤ max_payload cfg)%Z ∧
    ((slen payload ≤ limit)%Z ∧ d = payload ∧ n0 = None ∨
     (limit < slen payload)%Z ∧ GZip payload = Val d ∧ n0 = Some (slen payload)).
Proof.
  rewrite Put2Nats_cases. case_decide as Hl.
  - destruct (GZip payload) as [z|] eqn:Hz; [|done]. case_decide as Hz'.
    + rewrite Put2Nats_cases, decide_True, Hz, decide_True by done.
      unfold Put2Nats. rewrite decide_True, Hz, decide_True by done. done.
    + intros [Hm ->]%Pub_None. exists z, (Some (slen payload)). split_and!; [done|lia|done|].
      right. done.
  - intros [Hm ->]%Pub_None. exists payload, None. split_and!; [done|lia|done|left]. split; [lia|done].
Qed.

(** A failed publication leaves the publisher alone. *)
Lemma Put2Nats_failed GZip limit cfg ctxh sc subj payload p p' err :
  Put2Nats GZip limit cfg ctxh sc subj payload p = (p', Some err) → p' = p.
Proof.
  unfold Put2Nats, Pub. case_decide; [destruct (GZip payload) as [z|]; [case_decide|]|]; try case_decide;
    congruence.
Qed.

(** The counters of a gateway after a call of the client. *)
Lemma settle_world durable d {W : Type} (g : gateway W) e :
  g_world (settle durable d g e) = g_world g ∧ g_tokens (settle durable d g e) = g_tokens g.
Proof. unfold settle. by destruct e as [e|]; [case_match|]. Qed.

(** A handler run on a message that is not wrapped. *)
Lemma Handler_not_wrapped W json_p2 durable hnd (g : gateway W) msg s :
  not_wrapped (jm_Data msg) → header_span (jm_Headers msg) = Ret s →
  makeDurable_Handler json_p2 durable hnd g msg =
    Ret (settle durable (jm_Data msg) (hnd g msg).1 (hnd g msg).2, (hnd g msg).2).
Proof.
  intros Hw Hs. unfold makeDurable_Handler.
  destruct (Unmarshal_not_wrapped json_p2 _ Hw) as [e ->]. rewrite bind_ret_l, Hs, !bind_ret_l.
  by destruct (hnd g msg).
Qed.

(** ** Properties *)

(** C10: [Put2Nats] hands over exactly one message or fails without one.  A payload
    within the limit of the agent is sent as it is; a larger one only compressed,
    with the lengths before and after in the header; neither limit is exceeded,
    and an error is the one of the compression or the payload limit. *)
Theorem Put2Nats_result (GZip : string → result error string) (limit : Z) (cfg : option Config) (h : Header)
    (sc : SpanContext) (subj payload : string) (p : publisher) :
  match Put2Nats GZip limit cfg (Some h) sc subj payload p with
  | (p', None) =>
      ∃ m, p' = mkPublisher (m :: waiting p) (channel p) (published p) (lost p) ∧ subject m = subj ∧
        (slen (Nats.data m) ≤ limit)%Z ∧ (slen (Nats.data m) ≤ max_payload cfg)%Z ∧
        ((slen payload ≤ limit)%Z → Nats.data m = payload ∧ header m !! HdrCompressed = h !! HdrCompressed) ∧
        ((limit < slen payload)%Z → GZip payload = Val (Nats.data m) ∧ header m !! HdrCompressed = Some ["gzip"] ∧
           header m !! HdrPayloadLen = Some [FormatInt (slen payload); FormatInt (slen (Nats.data m))]) ∧
        header m !! HdrPayloadType = h !! HdrPayloadType
  | (p', Some err) =>
      p' = p ∧ (GZip payload = Fail err ∨
                (Is err (tgt ErrPayloadLim) = true ∧ Z.min limit (max_payload cfg) < slen payload)%Z)
  end.
Proof.
  destruct (Put2Nats GZip limit cfg (Some h) sc subj payload p) as [p' [err|]] eqn:E.
  - unfold Put2Nats, Pub in E. case_decide; [destruct (GZip payload) as [z|]; [case_decide|]|].
    + injection E as <- <-. split; [done|right; split; [done|lia]].
    + case_decide; [|done]. injection E as <- <-. split; [done|right; split; [done|lia]].
    + injection E as <- <-. split; [done|by left].
    + case_decide; [|done]. injection E as <- <-. split; [done|right; split; [done|lia]].
  - apply Put2Nats_published in E as (d & n0 & -> & Hl & Hm & Hd).
    exists (mkMessage subj d (sent_header h sc n0 (slen d))).
    cbn [subject Nats.data header]. rewrite sent_header_Compressed, (sent_header_ne _ _ _ _ HdrPayloadType) by hdr_ne.
    destruct Hd as [(Hle & -> & ->)|(Hlt & Hz & ->)]; split_and!; try done; try lia.
    intros _. split_and!; [done|done|]. apply lookup_insert_eq.
Qed.

(** C9: A message is delivered as it was published.  What [Put2Nats] publishes
    under the payload type [t] makes the handler of a client call exactly the
    operation of [t], once, with the payload: compressed if it was compressed,
    with its tracer context completed if the publisher asked for it and it was not
    compressed.  The handler passes the verdict of the call on, does not panic,
    and counts the message exactly when the call succeeds. *)
Theorem Put2Nats_delivered `{MapOrder} {W : Type} {T : Transport W} (windows keepAlive : bool)
    (json_login : string → string → string) (json_accessToken : string → result error string)
    (GZip : string → result error string) (json_p2 : string → result error natsPayload2)
    (limit : Z) (cfg : option Config) (h : Header) (sc : SpanContext) (subj payload : string)
    (p p' : publisher) (t : payloadType) (durable : string) (a : AgentIdentity) (c : GWClient) (g : gateway W) :
  (∀ q z, GZip q = Val z → IsGZipped z = true) →
  Put2Nats GZip limit cfg (Some h) sc subj payload p = (p', None) →
  (1 ≤ t < 8)%Z → h !! HdrPayloadType = Some [type_name t] → h !! HdrCompressed = None → not_wrapped payload →
  ∃ m fn hdr, waiting p' = m :: waiting p ∧
    client_call windows keepAlive json_login json_accessToken GZip t = Some fn ∧
    let sent := if decide (limit < slen payload)%Z then Nats.data m
                else match h !! HdrTodoTracerCtx with
                     | Some (v :: _) => if decide (v = "") then payload else fixTracerContext a payload
                     | _ => payload
                     end in
    let '(w, tk, r) := fn (g_world g) (g_tokens g) (Some hdr) c sent in
    ∃ g', makeDurable_Handler json_p2 durable
            (adaptClient windows keepAlive json_login json_accessToken GZip a c) g (deliver m) =
          Ret (g', match r with Val _ => None | Fail e => Some e end) ∧
      g_world g' = w ∧ g_tokens g' = tk ∧
      MessagesSent (g_stats g') = (if is_val r then int64 (MessagesSent (g_stats g) + 1) else MessagesSent (g_stats g)).
Proof.
  intros Hgz Hput Ht Htype Hcomp Hnw.
  apply Put2Nats_published in Hput as (d & n0 & -> & _ & _ & Hd).
  destruct (client_call_some windows keepAlive json_login json_accessToken GZip t Ht) as [fn Hfn].
  set (hs := sent_header h sc n0 (slen d)). set (m := mkMessage subj d hs).
  set (hdr := if todo_fix (Some hs) then nh_Del (Some hs) HdrTodoTracerCtx else Some hs).
  exists m, fn, (default ∅ hdr). split_and!; [done|done|]. cbv zeta.
  set (sent := if decide (limit < slen payload)%Z then _ else _).
  destruct (fn (g_world g) (g_tokens g) (Some (default ∅ hdr)) c sent) as [[w tk] r] eqn:Hcall.
  assert (adaptClient windows keepAlive json_login json_accessToken GZip a c g (deliver m) =
    (mkGateway w tk (if is_val r then (if decide (t = typeMetrics) then with_MetricsSent (g_stats g) else g_stats g)
                     else g_stats g) (g_stops g), match r with Val _ => None | Fail e => Some e end)) as Ha.
  { unfold adaptClient. cbn [deliver jm_Headers jm_Data m Nats.data header].
    assert (FromStr (nh_Get (Some hs) HdrPayloadType) = Val t) as ->.
    { unfold nh_Get. cbn [default from_option id]. unfold hs. rewrite sent_header_ne by hdr_ne.
      rewrite Htype. apply FromStr_spec. unfold type_name.
      pose proof (proj1 (payloadType_String_ret t) ltac:(lia)) as Hs. by destruct (payloadType_String t). }
    rewrite Hfn. fold hdr.
    assert ((if todo_fix (Some hs) then fixTracerContext a d else d) = sent) as ->.
    { unfold sent, todo_fix, nh_Get. cbn [default from_option id]. unfold hs.
      rewrite sent_header_Compressed, sent_header_ne by hdr_ne.
      destruct Hd as [(Hle & -> & ->)|(Hlt & _ & ->)].
      - rewrite decide_False, Hcomp by lia. rewrite andb_true_r.
        destruct (h !! HdrTodoTracerCtx) as [[|v l]|]; [done| |done].
        destruct (decide (v = "")) as [->|]; [done|]. by rewrite bool_decide_false.
      - by rewrite decide_True, andb_false_r by done. }
    rewrite Hcall. by destruct r. }
  destruct (header_span_sent h sc n0 (slen d)) as [s Hs].
  assert (not_wrapped d) as Hnd.
  { destruct Hd as [(_ & -> & _)|(_ & Hz & _)]; [done|]. eapply IsGZipped_not_wrapped, Hgz, Hz. }
  rewrite (Handler_not_wrapped W json_p2 durable _ g (deliver m) s Hnd Hs), Ha. cbn [fst snd].
  eexists. split; [done|]. split_and!;
    [by rewrite (proj1 (settle_world _ _ _ _))|by rewrite (proj2 (settle_world _ _ _ _))|].
  unfold settle. destruct r as [v|e]; cbn [is_val]; [|by destruct (negb _ && _)].
  cbn. by case_decide.
Qed.

Definition sample_gateway : gateway unit := mkGateway tt ∅ (mkStats 0 0 0 ∅) 0.

Definition sample_span : SpanContext := mkSpanContext "12345678" "0123456789abcdef" "001".

Definition sample_header : Header := {[HdrPayloadType := ["metrics"]]}.

Lemma Put2Nats_delivered_witness :
  ∃ m, waiting (Put2Nats sample_gzip 1024 (Some some_config) (Some sample_header) sample_span "tcg.metrics" "{}"
                  (mkPublisher [] [] [] [])).1 = [m] ∧
    is_ret (makeDurable_Handler (λ _, Fail (Opaque "no")) "gw"
      (@adaptClient sorted_order unit ok_transport false false (λ _ _, "") (λ _, Val "") sample_gzip
         (mkAgentIdentity "id" "app" "VEMA") sample_client) sample_gateway (deliver m)) = true.
Proof.
  destruct (@Put2Nats_delivered sorted_order unit ok_transport false false (λ _ _, "") (λ _, Val "") sample_gzip
    (λ _, Fail (Opaque "no")) 1024 (Some some_config) sample_header sample_span "tcg.metrics" "{}"
    (mkPublisher [] [] [] [])
    (Put2Nats sample_gzip 1024 (Some some_config) (Some sample_header) sample_span "tcg.metrics" "{}"
                  (mkPublisher [] [] [] [])).1 typeMetrics "gw"
    (mkAgentIdentity "id" "app" "VEMA") sample_client sample_gateway) as (m & fn & hdr & Hm & Hfn & Hr).
  - intros q z [= <-]. reflexivity.
  - reflexivity.
  - split; [discriminate|reflexivity].
  - reflexivity.
  - reflexivity.
  - split; [discriminate|reflexivity].
  - exists m. split; [exact Hm|]. cbv zeta in Hr.
    destruct (fn _ _ _ _ _) as [[w tk] r]. destruct Hr as (g' & Hg & _). rewrite Hg. reflexivity.
Defined.

Lemma Unmarshal_marshalV1 json_p2 p :
  span_wf (np_SpanContext p) → (0 ≤ np_Type p < 8)%Z → Unmarshal json_p2 (marshalV1 p) = Ret (Val p).
Proof.
  destruct p as [[sid tid fl] pl ty]. intros [Hs Ht] Hty. cbn [np_Type np_SpanContext SpanID TraceID] in *.
  unfold marshalV1, Unmarshal. cbn [np_Type np_SpanContext SpanID TraceID TraceFlags np_Payload String.append].
  rewrite of_byte_of by lia. rewrite decide_True by lia.
  pose proof (unmarshalV1_fields (byte_of ty) sid tid fl pl Hs Ht) as Hu. rewrite of_byte_of in Hu by lia.
  exact Hu.
Qed.

(** The legacy flow.  A message wrapped in the binary format and published
    without a payload type reaches the client operation of its type, but with the
    whole envelope: the handler decodes the payload for its own counters only. *)
Theorem legacy_sent_wrapped `{MapOrder} {W : Type} {T : Transport W} (windows keepAlive : bool)
    (json_login : string → string → string) (json_accessToken : string → result error string)
    (GZip : string → result error string) (json_p2 : string → result error natsPayload2)
    (q : natsPayload) (subj durable : string) (h : Header) (a : AgentIdentity) (c : GWClient) (g : gateway W) :
  span_wf (np_SpanContext q) → (1 ≤ np_Type q < 8)%Z →
  h !! HdrPayloadType = None → h !! HdrTodoTracerCtx = None →
  slen (marshalV1 q) = (slen (np_Payload q) + 26)%Z ∧
  ∃ fn, client_call windows keepAlive json_login json_accessToken GZip (np_Type q) = Some fn ∧
    let '(w, tk, r) := fn (g_world g) (g_tokens g) (Some (<[HdrPayloadType := [type_name (np_Type q)]]> h)) c
                         (marshalV1 q) in
    ∃ g', makeDurable_Handler json_p2 durable
            (adaptClient windows keepAlive json_login json_accessToken GZip a c) g
            (mkJsmsg subj (marshalV1 q) (Some h)) =
          Ret (g', match r with Val _ => None | Fail e => Some e end) ∧ g_world g' = w.
Proof.
  intros Hwf Hty Hh Htodo. split.
  { destruct Hwf as [Hs Ht]. unfold marshalV1, slen. cbn. rewrite !length_str_app, Hs, Ht. cbn. lia. }
  destruct (client_call_some windows keepAlive json_login json_accessToken GZip _ Hty) as [fn Hfn].
  exists fn. split; [done|]. destruct (fn _ _ _ _ _) as [[w tk] r] eqn:Hcall.
  unfold makeDurable_Handler. cbn [jm_Data jm_Headers jm_Subject].
  rewrite Unmarshal_marshalV1 by (done || lia). rewrite bind_ret_l.
  pose proof (proj1 (payloadType_String_ret (np_Type q)) ltac:(lia)) as Hs.
  destruct (payloadType_String (np_Type q)) as [s|] eqn:Hstr; [|done].
  assert (type_name (np_Type q) = s) as Hname by by (unfold type_name; rewrite Hstr).
  rewrite Hname in Hcall. rewrite bind_ret_l.
  rewrite decide_True by (unfold nh_Get; cbn; by rewrite Hh). cbn [nh_Set]. rewrite !bind_ret_l.
  unfold adaptClient. cbn [jm_Data jm_Headers].
  assert (FromStr (nh_Get (Some (<[HdrPayloadType := [s]]> h)) HdrPayloadType) = Val (np_Type q)) as ->.
  { unfold nh_Get. cbn [default from_option id]. rewrite lookup_insert_eq. by apply FromStr_spec. }
  assert (todo_fix (Some (<[HdrPayloadType := [s]]> h)) = false) as ->.
  { unfold todo_fix, nh_Get. cbn [default from_option id]. by rewrite lookup_insert_ne, Htodo by discriminate. }
  rewrite Hfn. cbn [default from_option id]. rewrite Hcall.
  destruct r as [v|e]; (eexists; split; [done|]); by rewrite (proj1 (settle_world _ _ _ _)).
Qed.

Lemma legacy_sent_wrapped_witness :
  slen (marshalV1 (mkNatsPayload sample_span "{}" typeMetrics)) = 28%Z.
Proof.
  apply (@legacy_sent_wrapped sorted_order unit ok_transport false false (λ _ _, "") (λ _, Val "") sample_gzip
    (λ _, Fail (Opaque "no")) (mkNatsPayload sample_span "{}" typeMetrics) "tcg.metrics" "gw" ∅
    (mkAgentIdentity "id" "app" "VEMA") sample_client sample_gateway).
  - split; reflexivity.
  - split; [discriminate|reflexivity].
  - reflexivity.
  - reflexivity.
Defined.

(** The two kinds of message on which a handler panics, whatever its client: a
    wrapped payload without any header, and a payload with the identifiers of a
    span but without its flags. *)
Theorem Handler_panics {W : Type} (json_p2 : string → result error natsPayload2) (durable : string)
    (hnd : gateway W → jsmsg → gateway W * option error) (g : gateway W) (subj : string) :
  (∀ q, span_wf (np_SpanContext q) → (1 ≤ np_Type q < 8)%Z →
     is_panic (makeDurable_Handler json_p2 durable hnd g (mkJsmsg subj (marshalV1 q) None)) = true) ∧
  (∀ d h s t, not_wrapped d → h !! HdrSpanSpanID = Some [s] → h !! HdrSpanTraceID = Some [t] → s ≠ "" → t ≠ "" →
     h !! HdrSpanTraceFlags = None →
     is_panic (makeDurable_Handler json_p2 durable hnd g (mkJsmsg subj d (Some h))) = true).
Proof.
  split.
  - intros q Hwf Hty. unfold makeDurable_Handler. cbn [jm_Data jm_Headers].
    rewrite Unmarshal_marshalV1 by (done || lia). rewrite bind_ret_l.
    pose proof (proj1 (payloadType_String_ret (np_Type q)) ltac:(lia)) as Hs.
    by destruct (payloadType_String (np_Type q)).
  - intros d h s t Hd Hs Ht Hs0 Ht0 Hf. unfold makeDurable_Handler. cbn [jm_Data jm_Headers].
    destruct (Unmarshal_not_wrapped json_p2 d Hd) as [e ->]. rewrite bind_ret_l.
    unfold header_span, nh_Get. cbn [default from_option id]. rewrite Hs, Ht, Hf.
    by rewrite !bool_decide_false by done.
Qed.

Lemma Handler_panics_witness :
  is_panic (makeDurable_Handler (W := unit) (λ _, Fail (Opaque "no")) "gw" (λ g _, (g, None)) sample_gateway
    (mkJsmsg "tcg.events" "{}" (Some {[HdrSpanSpanID := ["0a"]; HdrSpanTraceID := ["0b"]]}))) = true.
Proof.
  apply (proj2 (Handler_panics (W := unit) (λ _, Fail (Opaque "no")) "gw" (λ g _, (g, None)) sample_gateway
    "tcg.events") "{}" _ "0a" "0b").
  - split; [discriminate|reflexivity].
  - reflexivity.
  - reflexivity.
  - discriminate.
  - discriminate.
  - reflexivity.
Defined.

(** The nested handler counts nothing for a failed message. *)
Lemma adaptClient_failed `{MapOrder} {W : Type} {T : Transport W} b1 b2 jl ja gz a c (g g' : gateway W) msg e :
  adaptClient b1 b2 jl ja gz a c g msg = (g', Some e) → g_stats g' = g_stats g ∧ g_stops g' = g_stops g.
Proof.
  unfold adaptClient. destruct (FromStr _) as [t|]; [|by intros [= <- _]].
  destruct (client_call _ _ _ _ _ t) as [fn|]; [|by intros [= <- _]].
  destruct (fn _ _ _ _ _) as [[w tk] [v|err]]; [done|]. by intros [= <- _].
Qed.

(** An unauthorized user.  The handler asks for the transport to be stopped,
    and the dispatcher acknowledges the message: it is neither counted as sent
    nor put back nor retried after the configuration is updated. *)
Theorem unauthorized_acknowledged `{MapOrder} {W : Type} {T : Transport W} (windows keepAlive : bool)
    (json_login : string → string → string) (json_accessToken : string → result error string)
    (GZip : string → result error string) (json_p2 : string → result error natsPayload2)
    {CS : GoCache Z} {CR : GoCache dispatcherRetry} (RetryDelays : list Z) (Metadata : jsmsg → result error Z)
    (handler : gateway W → jsmsg → gateway W * option error) (durable : string) (a : AgentIdentity) (c : GWClient)
    (now seq : Z) (d : natsDispatcher CS CR) (g g' : gateway W) (msg : jsmsg) (retry : dispatcherRetry) (err : error) :
  Metadata msg = Val seq →
  makeDurable_Handler json_p2 durable (adaptClient windows keepAlive json_login json_accessToken GZip a c) g msg =
    Ret (handler g msg) →
  handler g msg = (g', Some err) → Is err (tgt ErrUnauthorized) = true → Is err (tgt ErrTransient) = false →
  processMsg RetryDelays Metadata handler durable now d g msg retry = (d, g', retry, true) ∧
  g_stats g' = g_stats g ∧ g_stops g' = S (g_stops g).
Proof.
  intros Hmeta Hh Hr Hun Htr. split.
  - unfold processMsg. by rewrite Hmeta, Hr, Htr.
  - rewrite Hr in Hh. clear Hr. unfold makeDurable_Handler in Hh.
    apply bind_Ret_inv in Hh as (r & _ & Hh). apply bind_Ret_inv in Hh as ([data m] & _ & Hh).
    destruct (adaptClient _ _ _ _ _ a c g m) as [g1 e1] eqn:Ha. injection Hh as <- ->.
    apply adaptClient_failed in Ha as [Hs Ht]. unfold settle. rewrite Htr, Hun. cbn. by rewrite Hs, Ht.
Qed.

(** A network that answers every request with 401. *)
Definition locked_transport : Transport unit := {|
  new_request _ _ := None;
  client_do w _ := (w, Val (401%Z, "no"));
|}.

Definition sample_handler : gateway unit → jsmsg → gateway unit * option error := λ g msg,
  match makeDurable_Handler (λ _, Fail (Opaque "no")) "gw"
    (@adaptClient sorted_order unit locked_transport false false (λ _ _, "") (λ _, Val "") sample_gzip
       (mkAgentIdentity "id" "app" "VEMA") sample_client) g msg with
  | Ret x => x
  | Panic _ => (g, None)
  end.

Definition sample_msg : jsmsg := mkJsmsg "tcg.metrics" "{}" (Some sample_header).

Lemma unauthorized_acknowledged_witness :
  let d := @mkDispatcher (map_cache Z 10) (map_cache dispatcherRetry 10) (c_new (GoCache := map_cache Z 10)) (c_new (GoCache := map_cache dispatcherRetry 10)) in
  processMsg [1; 2]%Z (λ _, Val 7%Z) sample_handler "gw" 0 d sample_gateway sample_msg zero_retry =
    (d, (sample_handler sample_gateway sample_msg).1, zero_retry, true).
Proof.
  destruct (sample_handler sample_gateway sample_msg).2 as [err|] eqn:E; [|vm_compute in E; discriminate].
  apply (@unauthorized_acknowledged sorted_order unit locked_transport false false (λ _ _, "") (λ _, Val "")
    sample_gzip (λ _, Fail (Opaque "no")) (map_cache Z 10) (map_cache dispatcherRetry 10) [1; 2]%Z (λ _, Val 7%Z)
    sample_handler "gw" (mkAgentIdentity "id" "app" "VEMA") sample_client 0%Z 7%Z
    (@mkDispatcher (map_cache Z 10) (map_cache dispatcherRetry 10) (c_new (GoCache := map_cache Z 10)) (c_new (GoCache := map_cache dispatcherRetry 10)))
    sample_gateway _ sample_msg zero_retry err).
  - reflexivity.
  - reflexivity.
  - rewrite <-E. by destruct (sample_handler sample_gateway sample_msg).
  - vm_compute in E. injection E as <-. reflexivity.
  - vm_compute in E. injection E as <-. reflexivity.
Defined.
