(* ===== verification/TransitService.v ===== *)
(** services/transit.go: the operations of the transit service.  Each operation
    exports its payload, honours the suppression switches, and batches the payload
    or publishes it under its subject and payload type.

    The time, the span and the trace time of a call come from the environment;
    files that are written are an effect log. *)

From S2P Require Import Prelude GoString Errors Timestamp TypedValue Transit Batcher Codec Payload Json.
From S2P Require Import Http Nats Tracer Delivery.

Local Open Scope string_scope.

(** ** Operations and subjects *)

Definition TransitOperation := string.
Definition TOpClearInDowntime : TransitOperation := "downtime-clear".
Definition TOpSetInDowntime : TransitOperation := "downtime-set".
Definition TOpSendEvents : TransitOperation := "events".
Definition TOpSendEventsAck : TransitOperation := "events-ack".
Definition TOpSendEventsUnack : TransitOperation := "events-unack".
Definition TOpSendMetrics : TransitOperation := "metrics".
Definition TOpSendStates : TransitOperation := "states".
Definition TOpSyncInventory : TransitOperation := "inventory".

Definition subjDowntimes : string := "tcg.downtimes".
Definition subjEvents : string := "tcg.events".
Definition subjInventoryMetrics : string := "tcg.metrics".

(** ** Configuration and state *)

(** [config.Suppress] *)
Record Suppress := mkSuppress {
  sup_Downtimes : bool;
  sup_Events : bool;
  sup_Inventory : bool;
  sup_Metrics : bool;
  sup_States : bool;
}.

(** The part of [config.Connector] the operations read. *)
Record Connector := mkConnector {
  cn_Identity : AgentIdentity;
  cn_BatchEvents : Z;
  cn_BatchMetrics : Z;
  cn_ExportTransitDir : string;
  cn_NatsMaxPayload : Z;
}.

Inductive file_effect :=
| ExportTransit (op : TransitOperation) (payload : string)
| StoreInventory (payload : string).

Record run_stats := mkRunStats {
  LastEventsRun : Z;
  LastInventoryRun : Z;
  LastMetricsRun : Z;
  x_sendEvents : Z;
  x_sendMetrics : Z;
  x_sendStates : Z;
}.

(** The span of a publication, the clock, and [UnixNano]. *)
Record call_env := mkCallEnv { ce_span : SpanContext; ce_now : Timestamp; ce_nano : Z }.

(** ** Extended inventory *)

Definition set_props (b : BaseInfo) (m : gmap string TypedValue) : BaseInfo := with_Properties b m.

Definition res_props (b : BaseResource) : gmap string TypedValue := bi_Properties (br_BaseInfo b).
Definition with_res_props (b : BaseResource) (m : gmap string TypedValue) : BaseResource :=
  mkBaseResource (set_props (br_BaseInfo b) m) (br_Device b).

(** A property that is taken out of the map, if it is there. *)
Definition take_prop {A} (k : string) (f : TypedValue → outcome A) (m : gmap string TypedValue)
  : outcome (option A * gmap string TypedValue) :=
  match m !! k with
  | Some v => a ← f v; Ret (Some a, base.delete k m)
  | None => Ret (None, m)
  end.

(** The monitored fields among the properties, the depth of a downtime, and the
    properties left; a property of another type than expected is a nil
    dereference. *)
Definition ext_info (now : Timestamp) (m : gmap string TypedValue)
  : outcome (MonitoredInfo * option Z * gmap string TypedValue) :=
  '(st, m) ← take_prop "MonitorStatus" (λ v, deref (tv_StringValue v)) m;
  '(out, m) ← take_prop "LastPluginOutput" (λ v, deref (tv_StringValue v)) m;
  '(last, m) ← take_prop "LastCheckTime" (λ v, Ret (tv_TimeValue v)) m;
  '(next, m) ← take_prop "NextCheckTime" (λ v, Ret (tv_TimeValue v)) m;
  '(depth, m) ← take_prop "ScheduledDowntimeDepth" (λ v, deref (tv_IntegerValue v)) m;
  let mi := zero_MonitoredInfo in
  let mi := match st with Some x => SetStatus mi x | None => mi end in
  let mi := match out with Some x => SetLastPluginOutput mi x | None => mi end in
  let mi := SetLastCheckTime mi (match last with Some x => x | None => Some (NewTimestamp now) end) in
  let mi := match next with Some x => SetNextCheckTime mi x | None => mi end in
  Ret (mi, depth, m).

(** The properties the inventory keeps. *)
Definition keep_props (ks : list string) (m : gmap string TypedValue) : gmap string TypedValue :=
  filter (λ kv, kv.1 ∈ ks) m.

Definition iPropsRes : list string := ["Alias"; "Notes"].
Definition iPropsSvc : list string := ["Notes"].

Definition host_downtime (host : string) (depth : option Z) : list Downtime :=
  match depth with Some d => [mkDowntime "HOST" host host "" d] | None => [] end.

Definition service_downtime (host desc : string) (depth : option Z) : list Downtime :=
  match depth with Some d => [mkDowntime "HOST" host host desc d] | None => [] end.

Definition ext_service (now : Timestamp) (host : string) (iSvc : InventoryService)
  : outcome (InventoryService * MonitoredService * list Downtime) :=
  let b := is_BaseInfo iSvc in
  '(mi, depth, m) ← ext_info now (bi_Properties b);
  Ret (mkInventoryService (set_props b (keep_props iPropsSvc (bi_Properties b))),
       mkMonitoredService (set_props b m) mi [],
       service_downtime host (bi_Description b) depth).

Definition ext_resource (now : Timestamp) (iRes : InventoryResource)
  : outcome (InventoryResource * MonitoredResource * list Downtime) :=
  let b := ir_BaseResource iRes in
  '(mi, depth, m) ← ext_info now (res_props b);
  svcs ← mapM_o (ext_service now (bi_Name (br_BaseInfo b))) (ir_Services iRes);
  Ret (mkInventoryResource (with_res_props b (keep_props iPropsRes (res_props b))) ((λ x, x.1.1) <$> svcs),
       mkMonitoredResource (with_res_props b m) mi ((λ x, x.1.2) <$> svcs),
       app (host_downtime (bi_Name (br_BaseInfo b)) depth) (concat (snd <$> svcs))).

(** [filterExtInfo(p, mon, dt)] on empty [mon] and [dt]: the inventory that is
    left in [p], the monitored resources and the downtimes. *)
Definition filterExtInfo (now : Timestamp) (p : InventoryRequest)
  : outcome (InventoryRequest * ResourcesWithServicesRequest * Downtimes) :=
  rs ← mapM_o (ext_resource now) (irq_Resources p);
  Ret (mkInventoryRequest (irq_Context p) (irq_OwnershipType p) ((λ x, x.1.1) <$> rs) (irq_Groups p),
       mkRequest zero_Context ((λ x, x.1.2) <$> rs) [],
       mkDowntimes (concat (snd <$> rs))).

Section service.
Context {TC : TokenCache} (BE BM : BatchBuilder).
Context (FormatUUID : string → string) (GZip : string → result error string).
Context {JM : JsonCodec ResourcesWithServicesRequest} {JI : JsonCodec InventoryRequest}.
Context (json_Downtimes : Downtimes → result error string).

(** The environment of the [n]-th publication. *)
Context (environment : nat → call_env).

Context (suppress : Suppress) (conn : Connector) (natsConfig : option Config).
Context (TCG_INVENTORY_EXT : option string).

Record TransitService := mkService {
  sv_pub : publisher;
  sv_events : Batcher;
  sv_metrics : Batcher;
  sv_tracer : tracer;
  sv_headers : store;
  sv_stats : run_stats;
  sv_files : list file_effect;
  sv_tick : nat;
}.

Definition with_pub (s : TransitService) (p : publisher) (st : store) : TransitService :=
  mkService p (sv_events s) (sv_metrics s) (sv_tracer s) st (sv_stats s) (sv_files s) (S (sv_tick s)).
Definition with_tracer (s : TransitService) (t : tracer) : TransitService :=
  mkService (sv_pub s) (sv_events s) (sv_metrics s) t (sv_headers s) (sv_stats s) (sv_files s) (sv_tick s).
Definition with_stats (s : TransitService) (r : run_stats) : TransitService :=
  mkService (sv_pub s) (sv_events s) (sv_metrics s) (sv_tracer s) (sv_headers s) r (sv_files s) (sv_tick s).
Definition with_events (s : TransitService) (b : Batcher) : TransitService :=
  mkService (sv_pub s) b (sv_metrics s) (sv_tracer s) (sv_headers s) (sv_stats s) (sv_files s) (sv_tick s).
Definition with_metrics (s : TransitService) (b : Batcher) : TransitService :=
  mkService (sv_pub s) (sv_events s) b (sv_tracer s) (sv_headers s) (sv_stats s) (sv_files s) (sv_tick s).
Definition with_file (s : TransitService) (f : file_effect) : TransitService :=
  mkService (sv_pub s) (sv_events s) (sv_metrics s) (sv_tracer s) (sv_headers s) (sv_stats s)
    (app (sv_files s) [f]) (sv_tick s).

Definition env_now (s : TransitService) : call_env := environment (sv_tick s).

(** [exportTransit]: its errors are only logged. *)
Definition exportTransit (s : TransitService) (op : TransitOperation) (payload : string) : TransitService :=
  if decide (cn_ExportTransitDir conn = "") then s else with_file s (ExportTransit op payload).

(** A new header with the payload type, attached to the context, and
    [Put2Nats]. *)
Definition publish (s : TransitService) (ctx : context) (t : payloadType) (todo : bool)
    (subj payload : string) : TransitService * option error :=
  let header := h_Set ∅ HdrPayloadType (type_name t) in
  let header := if todo then h_Set header HdrTodoTracerCtx "-" else header in
  let l := fresh (dom (sv_headers s)) in
  let '(st, ctx) := CtxWithHeader (<[l := header]> (sv_headers s)) ctx l in
  let '(p, e) := Put2Nats GZip (cn_NatsMaxPayload conn) natsConfig (HeaderFromCtx st ctx)
                   (ce_span (env_now s)) subj payload (sv_pub s) in
  (with_pub s p st, e).

(** The operations that publish at once. *)
Definition export_publish (s : TransitService) (ctx : context) (op : TransitOperation) (off : bool)
    (t : payloadType) (subj payload : string) : TransitService * option error :=
  let s := exportTransit s op payload in
  if off then (s, None) else publish s ctx t false subj payload.

Definition ClearInDowntime (s : TransitService) (ctx : context) (payload : string) :=
  export_publish s ctx TOpClearInDowntime (sup_Downtimes suppress) typeClearInDowntime subjDowntimes payload.

Definition SetInDowntime (s : TransitService) (ctx : context) (payload : string) :=
  export_publish s ctx TOpSetInDowntime (sup_Downtimes suppress) typeSetInDowntime subjDowntimes payload.

Definition SendEventsAck (s : TransitService) (ctx : context) (payload : string) :=
  export_publish s ctx TOpSendEventsAck (sup_Events suppress) typeEventsAck subjEvents payload.

Definition SendEventsUnack (s : TransitService) (ctx : context) (payload : string) :=
  export_publish s ctx TOpSendEventsUnack (sup_Events suppress) typeEventsUnack subjEvents payload.

(** ** Events *)

Definition sendEvents (s : TransitService) (ctx : context) (payload : string)
  : TransitService * option error :=
  let r := sv_stats s in
  let s := with_stats s (mkRunStats (LastEventsRun r) (LastInventoryRun r) (LastMetricsRun r)
             (int64 (x_sendEvents r + 1)) (x_sendMetrics r) (x_sendStates r)) in
  publish s ctx typeEvents false subjEvents payload.

(** The batches of a batcher go to its handler one by one, without a header in
    the context; an error is logged. *)
Definition handle_events (s : TransitService) (payloads : list string) : TransitService :=
  foldl (λ s p, (sendEvents s None p).1) s payloads.

Definition SendEvents (s : TransitService) (ctx : context) (payload : string)
  : outcome (TransitService * option error) :=
  let s := exportTransit s TOpSendEvents payload in
  if sup_Events suppress then Ret (s, None)
  else
    let r := sv_stats s in
    let s := with_stats s (mkRunStats (UnixMilli (ce_now (env_now s))) (LastInventoryRun r) (LastMetricsRun r)
               (x_sendEvents r) (x_sendMetrics r) (x_sendStates r)) in
    if decide (cn_BatchEvents conn = 0%Z) then Ret (sendEvents s ctx payload)
    else
      '(b, out) ← Add (B := BE) (sv_events s) payload;
      Ret (handle_events (with_events s b) out, None).

(** ** Metrics *)

(** The payload with its tracer context, published. *)
Definition publish_mixed (s : TransitService) (ctx : context) (t : payloadType) (payload : string)
  : outcome (TransitService * option error) :=
  '(tr, payload, todo) ← mixTracerContext FormatUUID (sv_tracer s) (cn_Identity conn)
                           (ce_now (env_now s)) (ce_nano (env_now s)) payload;
  Ret (publish (with_tracer s tr) ctx t todo subjInventoryMetrics payload).

Definition count_metrics (s : TransitService) : TransitService :=
  let r := sv_stats s in
  with_stats s (mkRunStats (LastEventsRun r) (LastInventoryRun r) (LastMetricsRun r)
    (x_sendEvents r) (int64 (x_sendMetrics r + 1)) (x_sendStates r)).

Definition sendMetrics (s : TransitService) (ctx : context) (payload : string)
  : outcome (TransitService * option error) :=
  '(s, e) ← publish_mixed s ctx typeMetrics payload;
  Ret (match e with None => count_metrics s | Some _ => s end, e).

Definition handle_metrics (s : TransitService) (payloads : list string) : outcome TransitService :=
  foldM (λ s p, '(s, _) ← sendMetrics s None p; Ret s) s payloads.

Definition SendResourceWithMetrics (s : TransitService) (ctx : context) (payload : string)
  : outcome (TransitService * option error) :=
  let s := exportTransit s TOpSendMetrics payload in
  if sup_Metrics suppress then Ret (s, None)
  else
    let r := sv_stats s in
    let s := with_stats s (mkRunStats (LastEventsRun r) (LastInventoryRun r) (UnixMilli (ce_now (env_now s)))
               (x_sendEvents r) (x_sendMetrics r) (x_sendStates r)) in
    if decide (cn_BatchMetrics conn = 0%Z) then sendMetrics s ctx payload
    else
      '(b, out) ← Add (B := BM) (sv_metrics s) payload;
      s ← handle_metrics (with_metrics s b) out;
      Ret (s, None).

(** The metrics batched so far are sent first. *)
Definition flush_metrics (s : TransitService) : outcome TransitService :=
  if decide (cn_BatchMetrics conn = 0%Z) then Ret s
  else
    '(b, out) ← Batch (B := BM) (sv_metrics s);
    handle_metrics (with_metrics s b) out.

Definition count_states (s : TransitService) (e : option error) : TransitService :=
  let r := sv_stats s in
  match e with
  | None => with_stats s (mkRunStats (LastEventsRun r) (LastInventoryRun r) (LastMetricsRun r)
              (x_sendEvents r) (x_sendMetrics r) (int64 (x_sendStates r + 1)))
  | Some _ => s
  end.

(** [SendStates]: the counter is incremented whenever no error is returned,
    a suppressed call included. *)
Definition SendStates (s : TransitService) (ctx : context) (p : ResourcesWithServicesRequest)
  : outcome (TransitService * option error) :=
  match marshal p with
  | Fail err => Ret (s, Some err)
  | Val payload =>
      let s := exportTransit s TOpSendStates payload in
      if sup_States suppress then Ret (count_states s None, None)
      else
        s ← flush_metrics s;
        '(s, e) ← publish_mixed s ctx typeMetrics payload;
        Ret (count_states s e, e)
  end.

(** ** Inventory *)

Definition SynchronizeInventory (s : TransitService) (ctx : context) (payload : string)
  : outcome (TransitService * option error) :=
  let s := with_file s (StoreInventory payload) in
  let s := exportTransit s TOpSyncInventory payload in
  if sup_Inventory suppress then Ret (s, None)
  else
    s ← flush_metrics s;
    let r := sv_stats s in
    let s := with_stats s (mkRunStats (LastEventsRun r) (UnixMilli (ce_now (env_now s))) (LastMetricsRun r)
               (x_sendEvents r) (x_sendMetrics r) (x_sendStates r)) in
    publish_mixed s ctx typeInventory payload.

(** [TCG_INVENTORY_EXT] set to a false value turns the extension off. *)
Definition ext_off : bool :=
  match TCG_INVENTORY_EXT with
  | Some v => bool_decide (ParseBool v = Some false)
  | None => false
  end.

Definition SyncExt (s : TransitService) (ctx : context) (p : InventoryRequest)
  : outcome (TransitService * option error) :=
  if ext_off then
    match marshal p with
    | Fail err => Ret (s, Some err)
    | Val payload => SynchronizeInventory s ctx payload
    end
  else
    '(p, mon, dt) ← filterExtInfo (ce_now (env_now s)) p;
    match marshal p with
    | Fail err => Ret (s, Some err)
    | Val payload =>
        '(s, e) ← SynchronizeInventory s ctx payload;
        match e with
        | Some err => Ret (s, Some err)
        | None =>
            '(s, e) ←
              (if decide (rq_Resources mon = []) then Ret (s, None)
               else
                 let '(tr, tc) := MakeTracerContext FormatUUID (sv_tracer s) (cn_Identity conn)
                                    (ce_now (env_now s)) (ce_nano (env_now s)) in
                 SendStates (with_tracer s tr) ctx (Request_SetContext mon tc));
            match e with
            | Some err => Ret (s, Some err)
            | None =>
                if decide (dts_BizHostServiceInDowntimes dt = []) then Ret (s, None)
                else match json_Downtimes dt with
                     | Fail err => Ret (s, Some err)
                     | Val _ => Ret (s, None)
                     end
            end
        end
    end.

Definition SynchronizeInventoryExt (s : TransitService) (ctx : context) (payload : string)
  : outcome (TransitService * option error) :=
  if ext_off then SynchronizeInventory s ctx payload
  else match unmarshal payload with
       | Fail err => Ret (s, Some err)
       | Val p => SyncExt s ctx p
       end.

(** ** The calls of the service *)

Inductive command :=
| cClearInDowntime (payload : string)
| cSetInDowntime (payload : string)
| cSendEvents (payload : string)
| cSendEventsAck (payload : string)
| cSendEventsUnack (payload : string)
| cSendResourceWithMetrics (payload : string)
| cSendStates (p : ResourcesWithServicesRequest)
| cSynchronizeInventory (payload : string)
| cSynchronizeInventoryExt (payload : string)
| cTickEvents
| cTickMetrics.

(** The tickers of the two batchers, whose handlers [NewTransitService] sets. *)
Definition tick_events (s : TransitService) : outcome TransitService :=
  '(b, out) ← Batch (B := BE) (sv_events s); Ret (handle_events (with_events s b) out).

Definition tick_metrics (s : TransitService) : outcome TransitService :=
  '(b, out) ← Batch (B := BM) (sv_metrics s); handle_metrics (with_metrics s b) out.

Definition exec (s : TransitService) (ctx : context) (c : command)
  : outcome (TransitService * option error) :=
  match c with
  | cClearInDowntime p => Ret (ClearInDowntime s ctx p)
  | cSetInDowntime p => Ret (SetInDowntime s ctx p)
  | cSendEvents p => SendEvents s ctx p
  | cSendEventsAck p => Ret (SendEventsAck s ctx p)
  | cSendEventsUnack p => Ret (SendEventsUnack s ctx p)
  | cSendResourceWithMetrics p => SendResourceWithMetrics s ctx p
  | cSendStates p => SendStates s ctx p
  | cSynchronizeInventory p => SynchronizeInventory s ctx p
  | cSynchronizeInventoryExt p => SynchronizeInventoryExt s ctx p
  | cTickEvents => s ← tick_events s; Ret (s, None)
  | cTickMetrics => s ← tick_metrics s; Ret (s, None)
  end.

(** Calls of the service and steps of the NATS publisher, in any order. *)
Inductive transit_step : TransitService → TransitService → Prop :=
| ts_exec s ctx c s' e : exec s ctx c = Ret (s', e) → transit_step s s'
| ts_pump s p l m r :
    waiting (sv_pub s) = (l ++ m :: r)%list → (length (channel (sv_pub s)) < pub_capacity)%nat →
    p = mkPublisher (l ++ r)%list (channel (sv_pub s) ++ [m])%list (published (sv_pub s)) (Nats.lost (sv_pub s)) →
    transit_step s (with_pub s p (sv_headers s))
| ts_publish s p m l (ok : bool) :
    channel (sv_pub s) = m :: l →
    p = mkPublisher (waiting (sv_pub s)) l
          (if ok then published (sv_pub s) ++ [m] else published (sv_pub s))%list
          (if ok then Nats.lost (sv_pub s) else Nats.lost (sv_pub s) ++ [m])%list →
    transit_step s (with_pub s p (sv_headers s)).
End service.

(** ** Lemmas: the extended inventory *)

Definition ext_keys : list string :=
  ["MonitorStatus"; "LastPluginOutput"; "LastCheckTime"; "NextCheckTime"; "ScheduledDowntimeDepth"].

(** The properties that are looked into have the expected type. *)
Definition ext_typed (m : gmap string TypedValue) : Prop :=
  (∀ v, m !! "MonitorStatus" = Some v → is_Some (tv_StringValue v)) ∧
  (∀ v, m !! "LastPluginOutput" = Some v → is_Some (tv_StringValue v)) ∧
  (∀ v, m !! "ScheduledDowntimeDepth" = Some v → is_Some (tv_IntegerValue v)).

Definition ext_monitored (now : Timestamp) (m : gmap string TypedValue) : MonitoredInfo :=
  mkMonitoredInfo (default "" (m !! "MonitorStatus" ≫= tv_StringValue))
    (match m !! "LastCheckTime" with Some v => tv_TimeValue v | None => Some (NewTimestamp now) end)
    (m !! "NextCheckTime" ≫= tv_TimeValue)
    (default "" (m !! "LastPluginOutput" ≫= tv_StringValue)).

Lemma take_prop_ret {A} k (f : TypedValue → outcome A) m o m' :
  take_prop k f m = Ret (o, m') → m' = base.delete k m ∧
    match m !! k with Some v => ∃ a, f v = Ret a ∧ o = Some a | None => o = None end.
Proof.
  unfold take_prop. destruct (m !! k) as [v|] eqn:E.
  - intros (a & Ha & Hr)%bind_Ret_inv. injection Hr as <- <-. eauto.
  - intros [= <- <-]. split; [|done]. by rewrite delete_id.
Qed.

(** The value of a property that was taken. *)
Lemma take_prop_deref {A} k (g : TypedValue → option A) m o m' :
  take_prop k (λ v, deref (g v)) m = Ret (o, m') →
  m' = base.delete k m ∧ o = (m !! k ≫= g) ∧ ∀ v, m !! k = Some v → is_Some (g v).
Proof.
  intros [-> Ho]%take_prop_ret. split; [done|]. destruct (m !! k) as [v|]; [|by subst].
  destruct Ho as (a & Ha%deref_Ret & ->). cbn. rewrite Ha. split; [done|]. by intros ? [= <-].
Qed.

Lemma take_prop_is_ret {A} k (f : TypedValue → outcome A) m :
  (∀ v, m !! k = Some v → is_ret (f v) = true) → ∃ o, take_prop k f m = Ret (o, base.delete k m).
Proof.
  intros Hf. unfold take_prop. destruct (m !! k) as [v|] eqn:E.
  - specialize (Hf v eq_refl). destruct (f v) as [a|w]; [|done]. by eexists.
  - eexists. by rewrite delete_id.
Qed.

Lemma ext_info_spec now m mi d m' :
  ext_info now m = Ret (mi, d, m') →
  ext_typed m ∧ mi = ext_monitored now m ∧ d = (m !! "ScheduledDowntimeDepth" ≫= tv_IntegerValue) ∧
  ∀ k, m' !! k = if decide (k ∈ ext_keys) then None else m !! k.
Proof.
  unfold ext_info. intros Hx.
  apply bind_Ret_inv in Hx as ([st m1] & [-> [-> H1]]%take_prop_deref & Hx).
  apply bind_Ret_inv in Hx as ([out m2] & [-> [-> H2]]%take_prop_deref & Hx).
  apply bind_Ret_inv in Hx as ([last m3] & [-> H3]%take_prop_ret & Hx).
  apply bind_Ret_inv in Hx as ([next m4] & [-> H4]%take_prop_ret & Hx).
  apply bind_Ret_inv in Hx as ([dep m5] & [-> [-> H5]]%take_prop_deref & Hx).
  injection Hx as <- <- <-.
  repeat rewrite lookup_delete_ne in H2 by discriminate. repeat rewrite lookup_delete_ne in H3 by discriminate.
  repeat rewrite lookup_delete_ne in H4 by discriminate. repeat rewrite lookup_delete_ne in H5 by discriminate.
  repeat rewrite lookup_delete_ne by discriminate.
  split_and!.
  - by split_and!.
  - unfold ext_monitored.
    assert (last = (tv_TimeValue <$> m !! "LastCheckTime")) as ->.
    { destruct (m !! "LastCheckTime"); [by destruct H3 as (? & [= <-] & ->)|done]. }
    assert (next = (tv_TimeValue <$> m !! "NextCheckTime")) as ->.
    { destruct (m !! "NextCheckTime"); [by destruct H4 as (? & [= <-] & ->)|done]. }
    clear H3 H4.
    destruct (m !! "MonitorStatus") as [v1|]; cbn [mbind option_bind]; [destruct (tv_StringValue v1)|];
      (destruct (m !! "LastPluginOutput") as [v2|]; cbn [mbind option_bind]; [destruct (tv_StringValue v2)|]);
      (destruct (m !! "LastCheckTime")); (destruct (m !! "NextCheckTime")); reflexivity.
  - done.
  - intros k. unfold ext_keys. case_decide as Hk.
    + rewrite !elem_of_cons, elem_of_nil in Hk.
      destruct Hk as [->|[->|[->|[->|[->|[]]]]]]; rewrite ?lookup_delete_ne by discriminate;
        apply lookup_delete_eq || (rewrite lookup_delete_ne by discriminate; apply lookup_delete_eq).
    + rewrite !not_elem_of_cons in Hk. destruct Hk as (? & ? & ? & ? & ? & _).
      by rewrite !lookup_delete_ne by congruence.
Qed.

Lemma ext_info_ret now m : ext_typed m ↔ is_ret (ext_info now m) = true.
Proof.
  split.
  - intros (H1 & H2 & H3). unfold ext_info.
    destruct (take_prop_is_ret "MonitorStatus" (λ v, deref (tv_StringValue v)) m) as [o1 ->].
    { intros v [s Hs]%H1. by rewrite Hs. }
    rewrite bind_ret_l.
    destruct (take_prop_is_ret "LastPluginOutput" (λ v, deref (tv_StringValue v)) (base.delete "MonitorStatus" m))
      as [o2 ->].
    { intros v. rewrite lookup_delete_ne by discriminate. intros [s Hs]%H2. by rewrite Hs. }
    rewrite bind_ret_l.
    destruct (take_prop_is_ret "LastCheckTime" (λ v, Ret (tv_TimeValue v))
      (base.delete "LastPluginOutput" (base.delete "MonitorStatus" m))) as [o3 ->]; [done|].
    rewrite bind_ret_l.
    destruct (take_prop_is_ret "NextCheckTime" (λ v, Ret (tv_TimeValue v)) (base.delete "LastCheckTime"
      (base.delete "LastPluginOutput" (base.delete "MonitorStatus" m)))) as [o4 ->]; [done|].
    rewrite bind_ret_l.
    destruct (take_prop_is_ret "ScheduledDowntimeDepth" (λ v, deref (tv_IntegerValue v)) (base.delete "NextCheckTime"
      (base.delete "LastCheckTime" (base.delete "LastPluginOutput" (base.delete "MonitorStatus" m))))) as [o5 ->].
    { intros v. rewrite !lookup_delete_ne by discriminate. intros [s Hs]%H3. by rewrite Hs. }
    done.
  - destruct (ext_info now m) as [[[mi d] m']|w] eqn:E; [|done]. by apply ext_info_spec in E as [? _].
Qed.

(** What [filterExtInfo] makes of a resource, as pure functions. *)
Definition drop_props (m : gmap string TypedValue) : gmap string TypedValue :=
  filter (λ kv, kv.1 ∉ ext_keys) m.

Definition prop_depth (m : gmap string TypedValue) : option Z :=
  m !! "ScheduledDowntimeDepth" ≫= tv_IntegerValue.

Definition inventory_service (sv : InventoryService) : InventoryService :=
  let b := is_BaseInfo sv in mkInventoryService (set_props b (keep_props iPropsSvc (bi_Properties b))).

Definition monitored_service (now : Timestamp) (sv : InventoryService) : MonitoredService :=
  let b := is_BaseInfo sv in
  mkMonitoredService (set_props b (drop_props (bi_Properties b))) (ext_monitored now (bi_Properties b)) [].

Definition inventory_part (r : InventoryResource) : InventoryResource :=
  let b := ir_BaseResource r in
  mkInventoryResource (with_res_props b (keep_props iPropsRes (res_props b))) (inventory_service <$> ir_Services r).

Definition monitored_part (now : Timestamp) (r : InventoryResource) : MonitoredResource :=
  let b := ir_BaseResource r in
  mkMonitoredResource (with_res_props b (drop_props (res_props b))) (ext_monitored now (res_props b))
    (monitored_service now <$> ir_Services r).

Definition downtime_part (r : InventoryResource) : list Downtime :=
  let b := ir_BaseResource r in
  let host := bi_Name (br_BaseInfo b) in
  app (host_downtime host (prop_depth (res_props b)))
    (concat ((λ sv, service_downtime host (bi_Description (is_BaseInfo sv))
                      (prop_depth (bi_Properties (is_BaseInfo sv)))) <$> ir_Services r)).

Definition resource_typed (r : InventoryResource) : Prop :=
  ext_typed (res_props (ir_BaseResource r)) ∧
  Forall (λ sv, ext_typed (bi_Properties (is_BaseInfo sv))) (ir_Services r).

Lemma ext_info_drop now m mi d m' :
  ext_info now m = Ret (mi, d, m') → mi = ext_monitored now m ∧ d = prop_depth m ∧ m' = drop_props m.
Proof.
  intros (_ & -> & -> & Hm)%ext_info_spec. split_and!; [done|done|]. apply map_eq. intros k. rewrite Hm.
  unfold drop_props. destruct (m !! k) as [v|] eqn:E; case_decide as Hk; symmetry.
  - apply map_lookup_filter_None. right. intros x _. cbn. tauto.
  - by apply map_lookup_filter_Some.
  - apply map_lookup_filter_None. by left.
  - apply map_lookup_filter_None. by left.
Qed.

Lemma ext_service_spec now host sv y :
  ext_service now host sv = Ret y →
  y = (inventory_service sv, monitored_service now sv,
       service_downtime host (bi_Description (is_BaseInfo sv)) (prop_depth (bi_Properties (is_BaseInfo sv)))).
Proof.
  unfold ext_service. intros ([[mi d] m] & (-> & -> & ->)%ext_info_drop & Hr)%bind_Ret_inv.
  by injection Hr as <-.
Qed.

Lemma ext_resource_spec now r y :
  ext_resource now r = Ret y → y = (inventory_part r, monitored_part now r, downtime_part r).
Proof.
  unfold ext_resource. intros ([[mi d] m] & (-> & -> & ->)%ext_info_drop & Hr)%bind_Ret_inv.
  apply bind_Ret_inv in Hr as (svcs & Hs & Hr). injection Hr as <-.
  rewrite (mapM_o_fmap _ _ _ _ (ext_service_spec now _) Hs), <-!list_fmap_compose. done.
Qed.

Lemma ext_service_ret now host sv :
  is_ret (ext_service now host sv) = true ↔ ext_typed (bi_Properties (is_BaseInfo sv)).
Proof.
  rewrite (ext_info_ret now). unfold ext_service.
  by destruct (ext_info now (bi_Properties (is_BaseInfo sv))) as [[[mi d] m]|w].
Qed.

Lemma ext_resource_ret now r : is_ret (ext_resource now r) = true ↔ resource_typed r.
Proof.
  unfold resource_typed. rewrite (ext_info_ret now). unfold ext_resource.
  destruct (ext_info now (res_props (ir_BaseResource r))) as [[[mi d] m]|w]; cbn [mbind outcome_bind].
  - assert (Forall (λ sv, ext_typed (bi_Properties (is_BaseInfo sv))) (ir_Services r) ↔
      is_ret (mapM_o (ext_service now (bi_Name (br_BaseInfo (ir_BaseResource r)))) (ir_Services r)) = true) as ->.
    { rewrite mapM_o_is_ret. apply Forall_iff. intros sv. symmetry. apply ext_service_ret. }
    destruct (mapM_o _ _); cbn; tauto.
  - cbn. split; [done|by intros [? _]].
Qed.

(** ** Lemmas: publications *)

Definition all_messages (p : publisher) : list message := (waiting p ++ channel p ++ published p ++ lost p)%list.

(** The subject of a payload type. *)
Definition subject_of (t : payloadType) : string :=
  if decide (t ∈ [typeEvents; typeEventsAck; typeEventsUnack]) then subjEvents
  else if decide (t ∈ [typeInventory; typeMetrics]) then subjInventoryMetrics else subjDowntimes.

Definition context_field : string := dq +:+ "context" +:+ dq +:+ ":".

(** A message that may be on the stream: a payload type under its subject,
    within the limits, and with a tracer context if it is an inventory or metrics
    that is not compressed. *)
Definition message_ok (conn : Connector) (cfg : option Config) (m : message) : Prop :=
  ∃ t, (1 ≤ t < 8)%Z ∧ header m !! HdrPayloadType = Some [type_name t] ∧ subject m = subject_of t ∧
    (slen (Nats.data m) ≤ cn_NatsMaxPayload conn)%Z ∧ (slen (Nats.data m) ≤ max_payload cfg)%Z ∧
    (t ∈ [typeInventory; typeMetrics] → header m !! HdrCompressed = None →
     Contains (Nats.data m) context_field = true).

Definition extends (conn : Connector) (cfg : option Config) (p p' : publisher) : Prop :=
  ∃ ms, p' = mkPublisher (ms ++ waiting p)%list (channel p) (published p) (lost p) ∧ Forall (message_ok conn cfg) ms.

Lemma extends_refl conn cfg p : extends conn cfg p p.
Proof. exists []. by destruct p. Qed.

Lemma extends_trans conn cfg p1 p2 p3 :
  extends conn cfg p1 p2 → extends conn cfg p2 p3 → extends conn cfg p1 p3.
Proof.
  intros (l & -> & Hl) (k & -> & Hk). exists (k ++ l)%list. cbn. rewrite (assoc_L app).
  split; [done|]. by apply Forall_app.
Qed.

Lemma type_name_nonempty_header h t : h_Set h HdrPayloadType (type_name t) !! HdrPayloadType = Some [type_name t].
Proof. apply lookup_insert_eq. Qed.

(** The header of the context wins over nothing: the new type is seen. *)
Lemma CtxWithHeader_type st ctx l h v :
  st !! l = Some h → h !! HdrPayloadType = Some v →
  ∃ h', HeaderFromCtx (CtxWithHeader st ctx l).1 (CtxWithHeader st ctx l).2 = Some h' ∧
    h' !! HdrPayloadType = Some v.
Proof.
  intros Hl Hv. unfold CtxWithHeader, HeaderFromCtx. destruct ctx as [l'|]; cbn [fst snd mbind option_bind].
  - rewrite lookup_insert_eq. eexists. split; [done|]. rewrite Hl. cbn [default from_option id].
    unfold maps_Copy. by apply lookup_union_Some_l.
  - by exists h.
Qed.

Section service_lemmas.
Context {TC : TokenCache} (BE BM : BatchBuilder).
Context (FormatUUID : string → string) (GZip : string → result error string).
Context {JM : JsonCodec ResourcesWithServicesRequest} {JI : JsonCodec InventoryRequest}.
Context (json_Downtimes : Downtimes → result error string) (environment : nat → call_env).
Context (suppress : Suppress) (conn : Connector) (natsConfig : option Config).
Context (TCG_INVENTORY_EXT : option string).

Local Abbreviation ext s s' := (extends conn natsConfig (sv_pub s) (sv_pub s')).
Local Abbreviation publish := (publish GZip environment conn natsConfig).
Local Abbreviation sendEvents := (sendEvents GZip environment conn natsConfig).
Local Abbreviation handle_events := (handle_events GZip environment conn natsConfig).
Local Abbreviation publish_mixed := (publish_mixed FormatUUID GZip environment conn natsConfig).
Local Abbreviation sendMetrics := (sendMetrics FormatUUID GZip environment conn natsConfig).
Local Abbreviation handle_metrics := (handle_metrics FormatUUID GZip environment conn natsConfig).
Local Abbreviation flush_metrics := (flush_metrics BM FormatUUID GZip environment conn natsConfig).
Local Abbreviation SynchronizeInventory := (SynchronizeInventory BM FormatUUID GZip environment suppress conn natsConfig).
Local Abbreviation SendStates := (SendStates BM FormatUUID GZip environment suppress conn natsConfig).
Local Abbreviation exec := (exec BE BM FormatUUID GZip json_Downtimes environment suppress conn natsConfig TCG_INVENTORY_EXT).

Lemma publish_extends s ctx t todo subj payload :
  (1 ≤ t < 8)%Z → subj = subject_of t →
  (t ∈ [typeInventory; typeMetrics] → Contains payload context_field = true) →
  ext s (publish s ctx t todo subj payload).1.
Proof.
  intros Ht -> Hctx. unfold TransitService.publish.
  set (hd := if todo then _ else _). set (l := fresh _).
  assert (hd !! HdrPayloadType = Some [type_name t]) as Hty.
  { unfold hd. destruct todo; [|apply lookup_insert_eq].
    unfold h_Set at 1. by rewrite lookup_insert_ne, type_name_nonempty_header by discriminate. }
  destruct (CtxWithHeader_type (<[l := hd]> (sv_headers s)) ctx l hd [type_name t]) as (h' & Hh & Hv);
    [by rewrite lookup_insert_eq|done|].
  destruct (CtxWithHeader _ _ _) as [st ctx']. cbn [fst snd] in Hh. rewrite Hh.
  destruct (Put2Nats _ _ _ _ _ _ _ _) as [p e] eqn:E. cbn [fst with_pub sv_pub].
  destruct e as [err|].
  { apply Put2Nats_failed in E as ->. apply extends_refl. }
  apply Put2Nats_published in E as (d & n0 & -> & Hl & Hm & Hd). eexists [_]. split; [done|].
  apply Forall_singleton. exists t. cbn [header subject Nats.data].
  rewrite sent_header_Compressed, sent_header_ne by hdr_ne.
  split_and!; try done; try lia. intros Hin Hc. destruct Hd as [(_ & -> & _)|(_ & _ & ->)]; [auto|done].
Qed.

Lemma mixed_context tr a now nano payload tr' q todo :
  mixTracerContext FormatUUID tr a now nano payload = Ret (tr', q, todo) → Contains q context_field = true.
Proof.
  unfold mixTracerContext. destruct (has_context payload) eqn:Hc.
  - intros [= <- <- <-]. by apply andb_true_iff in Hc as [? _].
  - destruct (MakeTracerContext FormatUUID tr a now nano) as [t1 tc].
    intros (hd & _ & Hr)%bind_Ret_inv.
    apply (f_equal (λ o, match o with Ret (_, x, _) => x | Panic _ => q end)) in Hr. cbv beta iota in Hr.
    rewrite <-Hr.
    apply Contains_spec. exists (hd +:+ ","), (json_Context tc +:+ "}").
    unfold context_field. by rewrite !str_app_assoc.
Qed.

Lemma publish_mixed_extends s ctx t payload s' e :
  t ∈ [typeInventory; typeMetrics] → publish_mixed s ctx t payload = Ret (s', e) → ext s s'.
Proof.
  intros Ht. unfold TransitService.publish_mixed. intros ([[tr q] todo] & Hm & Hr)%bind_Ret_inv.
  apply mixed_context in Hm. injection Hr as Hr. apply (f_equal fst) in Hr. cbn in Hr. rewrite <-Hr.
  rewrite !elem_of_cons, elem_of_nil in Ht.
  apply (publish_extends (with_tracer s tr)); [|by destruct Ht as [->|[->|[]]]|done].
  by destruct Ht as [->|[->|[]]].
Qed.

Lemma sendEvents_extends s ctx payload : ext s (sendEvents s ctx payload).1.
Proof.
  unfold TransitService.sendEvents.
  apply (publish_extends (with_stats s _)); [done|done|].
  intros Hin. exfalso. revert Hin. by apply (bool_decide_unpack _).
Qed.

Lemma handle_events_extends s l : ext s (handle_events s l).
Proof.
  revert s. induction l as [|p l IH]; intros s; [apply extends_refl|].
  change (handle_events s (p :: l)) with (handle_events (sendEvents s None p).1 l).
  eapply extends_trans; [apply sendEvents_extends|apply IH].
Qed.

Lemma sendMetrics_extends s ctx payload s' e : sendMetrics s ctx payload = Ret (s', e) → ext s s'.
Proof.
  unfold TransitService.sendMetrics. intros ([s1 e1] & Hp & Hr)%bind_Ret_inv. injection Hr as <- <-.
  apply publish_mixed_extends in Hp; [|by apply (bool_decide_unpack _)]. by destruct e1.
Qed.

Lemma handle_metrics_extends s l s' : handle_metrics s l = Ret s' → ext s s'.
Proof.
  unfold TransitService.handle_metrics. intros Hf.
  refine (foldM_inv (λ x, ext s x) _ _ _ _ (extends_refl _ _ _) _ Hf).
  intros s1 p s2 _ H1 ([s3 e] & Hs & Hr)%bind_Ret_inv. injection Hr as <-.
  eapply extends_trans; [done|by eapply sendMetrics_extends].
Qed.

Lemma flush_metrics_extends s s' : flush_metrics s = Ret s' → ext s s'.
Proof.
  unfold TransitService.flush_metrics. case_decide; [intros [= <-]; apply extends_refl|].
  intros ([b out] & _ & Hh)%bind_Ret_inv. by apply (handle_metrics_extends (with_metrics s b)) in Hh.
Qed.

Lemma exportTransit_pub s op payload : sv_pub (exportTransit conn s op payload) = sv_pub s.
Proof. unfold exportTransit. by case_decide. Qed.

Lemma count_states_pub s e : sv_pub (count_states s e) = sv_pub s.
Proof. by destruct e. Qed.

Lemma export_publish_extends s ctx op off t subj payload :
  (1 ≤ t < 8)%Z → subj = subject_of t → t ∉ [typeInventory; typeMetrics] →
  ext s (export_publish GZip environment conn natsConfig s ctx op off t subj payload).1.
Proof.
  intros Ht Hs Hn. unfold export_publish. rewrite <-(exportTransit_pub s op payload).
  destruct off; [apply extends_refl|]. by apply publish_extends.
Qed.

Lemma SynchronizeInventory_extends s ctx payload s' e :
  SynchronizeInventory s ctx payload = Ret (s', e) → ext s s'.
Proof.
  unfold TransitService.SynchronizeInventory.
  change (sv_pub s) with (sv_pub (with_file s (StoreInventory payload))).
  rewrite <-(exportTransit_pub (with_file s (StoreInventory payload)) TOpSyncInventory payload).
  destruct (sup_Inventory suppress); [intros [= <- _]; apply extends_refl|].
  intros (s1 & Hf%flush_metrics_extends & Hp)%bind_Ret_inv.
  eapply extends_trans; [exact Hf|].
  apply (publish_mixed_extends (with_stats s1 _)) in Hp; [exact Hp|by apply (bool_decide_unpack _)].
Qed.

Lemma SendStates_extends s ctx p s' e : SendStates s ctx p = Ret (s', e) → ext s s'.
Proof.
  unfold TransitService.SendStates. destruct (marshal p) as [payload|err]; [|intros [= <- _]; apply extends_refl].
  rewrite <-(exportTransit_pub s TOpSendStates payload).
  destruct (sup_States suppress); [intros [= <- _]; apply extends_refl|].
  intros (s1 & Hf%flush_metrics_extends & Hp)%bind_Ret_inv.
  apply bind_Ret_inv in Hp as ([s2 e2] & Hp & Hr). injection Hr as <- <-. rewrite count_states_pub.
  eapply extends_trans; [exact Hf|]. apply publish_mixed_extends in Hp; [exact Hp|by apply (bool_decide_unpack _)].
Qed.

Local Abbreviation SyncExt :=
  (SyncExt BM FormatUUID GZip json_Downtimes environment suppress conn natsConfig TCG_INVENTORY_EXT).

Lemma SyncExt_extends s ctx p s' e : SyncExt s ctx p = Ret (s', e) → ext s s'.
Proof.
  unfold TransitService.SyncExt. destruct (ext_off _).
  { destruct (marshal p); [apply SynchronizeInventory_extends|intros [= <- _]; apply extends_refl]. }
  intros ([[p1 mon] dt] & _ & Hx)%bind_Ret_inv.
  destruct (marshal p1) as [payload|err]; [|injection Hx as <- _; apply extends_refl].
  apply bind_Ret_inv in Hx as ([s1 e1] & H1%SynchronizeInventory_extends & Hx).
  destruct e1 as [err|]; [by injection Hx as <- _|].
  apply bind_Ret_inv in Hx as ([s2 e2] & H2 & Hx).
  assert (ext s s2) as Hs2.
  { destruct (decide (rq_Resources mon = [])); [by injection H2 as <- _|].
    destruct (MakeTracerContext _ _ _ _ _) as [tr tc].
    eapply extends_trans; [exact H1|]. by apply (SendStates_extends (with_tracer s1 tr)) in H2. }
  destruct e2 as [err|]; [by injection Hx as <- _|].
  case_decide; [by injection Hx as <- _|]. destruct (json_Downtimes dt); by injection Hx as <- _.
Qed.

Lemma exec_extends s ctx c s' e : exec s ctx c = Ret (s', e) → ext s s'.
Proof.
  assert (∀ (r : TransitService * option error), Ret r = Ret (s', e) → ext s r.1 → ext s s') as Hret
    by (intros r [= ->]; done).
  destruct c as [p|p|p|p|p|p|p|p|p| |]; cbn [TransitService.exec].
  - intros Hr. apply (Hret _ Hr), export_publish_extends; [done|done|by apply (bool_decide_unpack _)].
  - intros Hr. apply (Hret _ Hr), export_publish_extends; [done|done|by apply (bool_decide_unpack _)].
  - unfold TransitService.SendEvents. rewrite <-(exportTransit_pub s TOpSendEvents p).
    destruct (sup_Events suppress); [intros [= <- _]; apply extends_refl|].
    case_decide.
    + intros [= Hr]. apply (f_equal fst) in Hr. cbn [fst] in Hr. rewrite <-Hr.
      apply (sendEvents_extends (with_stats (exportTransit conn s TOpSendEvents p) _)).
    + intros ([b out] & _ & Hr)%bind_Ret_inv. injection Hr as <- _.
      apply (handle_events_extends (with_events (with_stats (exportTransit conn s TOpSendEvents p) _) b)).
  - intros Hr. apply (Hret _ Hr), export_publish_extends; [done|done|by apply (bool_decide_unpack _)].
  - intros Hr. apply (Hret _ Hr), export_publish_extends; [done|done|by apply (bool_decide_unpack _)].
  - unfold TransitService.SendResourceWithMetrics. rewrite <-(exportTransit_pub s TOpSendMetrics p).
    destruct (sup_Metrics suppress); [intros [= <- _]; apply extends_refl|].
    case_decide.
    + intros Hr. apply (sendMetrics_extends (with_stats (exportTransit conn s TOpSendMetrics p) _)) in Hr. exact Hr.
    + intros ([b out] & _ & Hr)%bind_Ret_inv. apply bind_Ret_inv in Hr as (s1 & Hs1 & Hr). injection Hr as <- _.
      by apply (handle_metrics_extends (with_metrics (with_stats (exportTransit conn s TOpSendMetrics p) _) b)) in Hs1.
  - apply SendStates_extends.
  - apply SynchronizeInventory_extends.
  - unfold TransitService.SynchronizeInventoryExt. destruct (ext_off _); [apply SynchronizeInventory_extends|].
    destruct (unmarshal p) as [q|err]; [apply SyncExt_extends|intros [= <- _]; apply extends_refl].
  - intros (s1 & Ht & Hr)%bind_Ret_inv. injection Hr as <- _. unfold tick_events in Ht.
    apply bind_Ret_inv in Ht as ([b out] & _ & Ht). injection Ht as <-.
    apply (handle_events_extends (with_events s b)).
  - intros (s1 & Ht & Hr)%bind_Ret_inv. injection Hr as <- _. unfold tick_metrics in Ht.
    apply bind_Ret_inv in Ht as ([b out] & _ & Ht). by apply (handle_metrics_extends (with_metrics s b)) in Ht.
Qed.

(** A publication changes neither batcher. *)
Lemma publish_batchers s ctx t todo subj payload :
  let s' := (publish s ctx t todo subj payload).1 in
  sv_events s' = sv_events s ∧ sv_metrics s' = sv_metrics s.
Proof.
  unfold TransitService.publish. destruct (CtxWithHeader _ _ _) as [st c]. by destruct (Put2Nats _ _ _ _ _ _ _ _).
Qed.

Lemma publish_mixed_batchers s ctx t payload s' e :
  publish_mixed s ctx t payload = Ret (s', e) → sv_metrics s' = sv_metrics s.
Proof.
  unfold TransitService.publish_mixed. intros ([[tr q] todo] & _ & Hr)%bind_Ret_inv. injection Hr as Hr.
  apply (f_equal fst) in Hr. cbn in Hr. rewrite <-Hr.
  apply (publish_batchers (with_tracer s tr)).
Qed.

Lemma handle_metrics_batchers s l s' : handle_metrics s l = Ret s' → sv_metrics s' = sv_metrics s.
Proof.
  unfold TransitService.handle_metrics. intros Hf.
  refine (foldM_inv (λ x, sv_metrics x = sv_metrics s) _ _ _ _ eq_refl _ Hf).
  intros s1 p s2 _ <- ([s3 e] & Hs & Hr)%bind_Ret_inv. injection Hr as <-.
  unfold TransitService.sendMetrics in Hs. apply bind_Ret_inv in Hs as ([s4 e4] & Hs & Hr). injection Hr as <- _.
  apply publish_mixed_batchers in Hs. by destruct e4.
Qed.

(** A successful publication is the newest of the waiting messages. *)
Lemma publish_newest s ctx t todo subj payload s' :
  publish s ctx t todo subj payload = (s', None) →
  ∃ m, waiting (sv_pub s') = m :: waiting (sv_pub s) ∧ subject m = subj.
Proof.
  unfold TransitService.publish. set (l := fresh _). set (hd := if todo then _ else _).
  destruct (CtxWithHeader_type (<[l := h_Set hd HdrPayloadType ""]> (sv_headers s)) ctx l
    (h_Set hd HdrPayloadType "") [""]) as (h' & Hh & _); [by rewrite lookup_insert_eq|apply lookup_insert_eq|].
  clear h' Hh.
  assert (∃ h', HeaderFromCtx (CtxWithHeader (<[l := hd]> (sv_headers s)) ctx l).1
    (CtxWithHeader (<[l := hd]> (sv_headers s)) ctx l).2 = Some h') as [h' Hh].
  { unfold CtxWithHeader, HeaderFromCtx. destruct ctx; cbn; rewrite lookup_insert_eq; eauto. }
  destruct (CtxWithHeader _ _ _) as [st c]. cbn [fst snd] in Hh. rewrite Hh.
  destruct (Put2Nats _ _ _ _ _ _ _ _) as [p e] eqn:E. intros [= <- ->].
  apply Put2Nats_published in E as (d & n0 & -> & _). cbn. by eexists.
Qed.

Lemma transit_step_ok s s' :
  transit_step BE BM FormatUUID GZip json_Downtimes environment suppress conn natsConfig TCG_INVENTORY_EXT s s' →
  Forall (message_ok conn natsConfig) (all_messages (sv_pub s)) →
  Forall (message_ok conn natsConfig) (all_messages (sv_pub s')).
Proof.
  intros Hst. destruct Hst as [s ctx c s' e He|s p l m r Hw _ ->|s p m l ok Hc ->].
  - apply exec_extends in He as (ms & -> & Hms). intros Hs. unfold all_messages. cbn.
    rewrite <-(assoc_L app). by apply Forall_app.
  - intros Hs. set (s' := with_pub _ _ _).
    assert (all_messages (sv_pub s') ≡ₚ all_messages (sv_pub s)) as ->; [|done].
    unfold all_messages. cbn. rewrite Hw. solve_Permutation.
  - intros Hs. set (s' := with_pub _ _ _).
    assert (all_messages (sv_pub s') ≡ₚ all_messages (sv_pub s)) as ->; [|done].
    unfold all_messages. cbn. rewrite Hc. destruct ok; solve_Permutation.
Qed.
End service_lemmas.

(** A service without batching, to compute with, and one call of it. *)
Definition same_gzip (p : string) : result error string := Val p.

Definition sample_env (n : nat) : call_env := mkCallEnv sample_span (mkTimestamp 5 0 UTCLoc) 0.

Definition sample_conn : Connector := mkConnector (mkAgentIdentity "id" "app" "VEMA") 0 0 "" 1024.

Definition sample_service : @TransitService map_token_cache :=
  mkService (mkPublisher [] [] [] []) (mkBatcher [] 0 1024 1) (mkBatcher [] 0 1024 1)
    (@initTracerToken map_token_cache (Val "0123456789abcdef") 0 0) ∅ (mkRunStats 0 0 0 0 0 0) [] 0.

Definition no_suppress : Suppress := mkSuppress false false false false false.

Definition no_json {A} : JsonCodec A :=
  {| marshal _ := Fail (Opaque "no"); unmarshal _ := Fail (Opaque "no") |}.

(** ** Properties *)

(** C8: Over any calls of the service, ticks of its batchers and steps of the NATS
    publisher, with any builders and under any contexts: every message on its way
    carries a payload type and is on the subject of that type, keeps within the
    limits of the agent and of the server, and has a tracer context if it is an
    inventory or metrics, unless it is compressed. *)
Theorem messages_ok {TC : TokenCache} (BE BM : BatchBuilder) (FormatUUID : string → string)
    (GZip : string → result error string) {JM : JsonCodec ResourcesWithServicesRequest}
    {JI : JsonCodec InventoryRequest} (json_Downtimes : Downtimes → result error string)
    (environment : nat → call_env) (suppress : Suppress) (conn : Connector) (natsConfig : option Config)
    (inventory_ext : option string) (s s' : TransitService) :
  sv_pub s = mkPublisher [] [] [] [] →
  rtc (transit_step BE BM FormatUUID GZip json_Downtimes environment suppress conn natsConfig inventory_ext) s s' →
  Forall (message_ok conn natsConfig) (all_messages (sv_pub s')).
Proof.
  intros Hs Hr. assert (Forall (message_ok conn natsConfig) (all_messages (sv_pub s))) as H0
    by (rewrite Hs; constructor).
  clear Hs. induction Hr as [|s s1 s' Hst _ IH]; [done|].
  apply IH. exact (transit_step_ok BE BM FormatUUID GZip json_Downtimes environment suppress conn natsConfig
    inventory_ext s s1 Hst H0).
Qed.

Lemma messages_ok_witness :
  let s := (ClearInDowntime (TC := map_token_cache) same_gzip sample_env no_suppress sample_conn (Some some_config)
              sample_service None "{}").1 in
  length (all_messages (sv_pub s)) = 1%nat ∧
  Forall (message_ok sample_conn (Some some_config)) (all_messages (sv_pub s)).
Proof.
  split; [reflexivity|].
  apply (@messages_ok map_token_cache join_builder join_builder hash_UUID same_gzip no_json no_json
    (λ _, Val "") sample_env no_suppress sample_conn (Some some_config) None sample_service _ eq_refl).
  eapply rtc_l; [|apply rtc_refl].
  apply (ts_exec _ _ _ _ _ _ _ _ _ _ _ None (cClearInDowntime "{}") _
    (ClearInDowntime (TC := map_token_cache) same_gzip sample_env no_suppress sample_conn (Some some_config)
              sample_service None "{}").2).
  cbn [exec]. by destruct (ClearInDowntime _ _ _ _ _ _ _ _).
Defined.

(** The call is switched off by the configuration. *)
Definition suppressed (sup : Suppress) (c : command) : bool :=
  match c with
  | cClearInDowntime _ | cSetInDowntime _ => sup_Downtimes sup
  | cSendEvents _ | cSendEventsAck _ | cSendEventsUnack _ => sup_Events sup
  | cSendResourceWithMetrics _ => sup_Metrics sup
  | cSendStates _ => sup_States sup
  | cSynchronizeInventory _ => sup_Inventory sup
  | _ => false
  end.

(** A suppressed call never panics, hands nothing to the publisher and leaves
    both batchers alone; it reports success (states that cannot be marshalled
    apart), and the payload is still exported. *)
Theorem suppressed_silent {TC : TokenCache} (BE BM : BatchBuilder) (FormatUUID : string → string)
    (GZip : string → result error string) {JM : JsonCodec ResourcesWithServicesRequest}
    {JI : JsonCodec InventoryRequest} (json_Downtimes : Downtimes → result error string)
    (environment : nat → call_env) (sup : Suppress) (conn : Connector) (natsConfig : option Config)
    (inventory_ext : option string) (s : TransitService) (ctx : context) (c : command) :
  suppressed sup c = true →
  ∃ s' e, exec BE BM FormatUUID GZip json_Downtimes environment sup conn natsConfig inventory_ext s ctx c = Ret (s', e) ∧
    sv_pub s' = sv_pub s ∧ sv_events s' = sv_events s ∧ sv_metrics s' = sv_metrics s ∧
    (∀ err, e = Some err → ∃ r, c = cSendStates r ∧ marshal r = Fail err) ∧
    (cn_ExportTransitDir conn ≠ "" → e = None →
     ∃ op p, ExportTransit op p ∈ sv_files s' ∧
       match c with
       | cClearInDowntime q | cSetInDowntime q | cSendEvents q | cSendEventsAck q | cSendEventsUnack q
       | cSendResourceWithMetrics q | cSynchronizeInventory q => p = q
       | cSendStates r => marshal r = Val p
       | _ => False
       end).
Proof.
  assert (∀ (s : TransitService) op p, let s' := exportTransit conn s op p in
    sv_pub s' = sv_pub s ∧ sv_events s' = sv_events s ∧ sv_metrics s' = sv_metrics s ∧
    (cn_ExportTransitDir conn ≠ "" → ExportTransit op p ∈ sv_files s')) as Hexp.
  { intros s0 op p. unfold exportTransit. case_decide; [by split_and!|]. cbn. split_and!; try done.
    intros _. apply elem_of_app. right. by apply list_elem_of_singleton. }
  destruct c as [p|p|p|p|p|p|r|p|p| |]; try done; cbn [suppressed exec]; intros Hsup;
    unfold ClearInDowntime, SetInDowntime, SendEvents, SendEventsAck, SendEventsUnack, SendResourceWithMetrics,
      SendStates, SynchronizeInventory, export_publish; rewrite Hsup.
  7: destruct (marshal r) as [p|err] eqn:Hm.
  8: { eexists _, _. split; [done|]. split_and!; try done. intros e [= <-]. by exists r. }
  all: eexists _, _; (split; [done|]).
  8: pose proof (Hexp (with_file s (StoreInventory p)) TOpSyncInventory p) as (H1 & H2 & H3 & H4).
  1: pose proof (Hexp s TOpClearInDowntime p) as (H1 & H2 & H3 & H4).
  2: pose proof (Hexp s TOpSetInDowntime p) as (H1 & H2 & H3 & H4).
  3: pose proof (Hexp s TOpSendEvents p) as (H1 & H2 & H3 & H4).
  4: pose proof (Hexp s TOpSendEventsAck p) as (H1 & H2 & H3 & H4).
  5: pose proof (Hexp s TOpSendEventsUnack p) as (H1 & H2 & H3 & H4).
  6: pose proof (Hexp s TOpSendMetrics p) as (H1 & H2 & H3 & H4).
  7: pose proof (Hexp s TOpSendStates p) as (H1 & H2 & H3 & H4).
  all: split_and!; [exact H1|exact H2|exact H3|done|]; intros Hd _; eexists _, _; (split; [by apply H4|done]).
Qed.

Lemma suppressed_silent_witness :
  let sup := mkSuppress true false false false false in
  ∃ s' e, @exec map_token_cache join_builder join_builder hash_UUID same_gzip no_json no_json (λ _, Val "") sample_env sup
    sample_conn (Some some_config) None sample_service None (cClearInDowntime "{}") = Ret (s', e) ∧
    sv_pub s' = sv_pub sample_service.
Proof.
  destruct (@suppressed_silent map_token_cache join_builder join_builder hash_UUID same_gzip no_json no_json (λ _, Val "")
    sample_env (mkSuppress true false false false false) sample_conn (Some some_config) None sample_service None
    (cClearInDowntime "{}") eq_refl) as (s' & e & H1 & H2 & _).
  exists s', e. by split.
Defined.

(** States after metrics.  With batching on, [SendStates] hands everything that
    was batched to the publisher first: when it succeeds the metrics buffer is
    empty, and the states are the newest message, on the metrics subject, above
    those of the flushed batch. *)
Theorem SendStates_flushes {TC : TokenCache} (BM : BatchBuilder) (FormatUUID : string → string)
    (GZip : string → result error string) {JM : JsonCodec ResourcesWithServicesRequest}
    (environment : nat → call_env) (sup : Suppress) (conn : Connector) (natsConfig : option Config)
    (s s' : TransitService) (ctx : context) (r : ResourcesWithServicesRequest) :
  cn_BatchMetrics conn ≠ 0%Z → sup_States sup = false →
  SendStates BM FormatUUID GZip environment sup conn natsConfig s ctx r = Ret (s', None) →
  buf (sv_metrics s') = [] ∧
  ∃ p b out s1 m, marshal r = Val p ∧ Batch (B := BM) (sv_metrics s) = Ret (b, out) ∧
    handle_metrics FormatUUID GZip environment conn natsConfig
      (with_metrics (exportTransit conn s TOpSendStates p) b) out = Ret s1 ∧
    waiting (sv_pub s') = m :: waiting (sv_pub s1) ∧ subject m = subjInventoryMetrics.
Proof.
  intros Hb Hsup. unfold SendStates. destruct (marshal r) as [p|err]; [|done]. rewrite Hsup.
  intros (s1 & Hf & Hx)%bind_Ret_inv. apply bind_Ret_inv in Hx as ([s2 e2] & Hp & Hx).
  injection Hx as Hs2 ->. unfold flush_metrics in Hf. rewrite decide_False in Hf by done.
  apply bind_Ret_inv in Hf as ([b out] & Hbatch & Hh).
  assert (sv_metrics (exportTransit conn s TOpSendStates p) = sv_metrics s) as Hex
    by (unfold exportTransit; by case_decide).
  rewrite Hex in Hbatch. pose proof (handle_metrics_batchers _ _ _ _ _ _ _ _ Hh) as Hm1.
  pose proof (publish_mixed_batchers _ _ _ _ _ _ _ _ _ _ _ Hp) as Hm2.
  assert (sv_metrics s' = b ∧ sv_pub s' = sv_pub s2) as [Hmb Hpub].
  { rewrite <-Hs2. cbn. rewrite Hm2, Hm1. done. }
  split.
  - rewrite Hmb. exact (Batch_empties _ _ _ Hbatch).
  - unfold publish_mixed in Hp. apply bind_Ret_inv in Hp as ([[tr q] todo] & _ & Hp). injection Hp as Hp.
    apply publish_newest in Hp as (m & Hw & Hsub). exists p, b, out, s1, m. rewrite Hpub. by split_and!.
Qed.

Lemma SendStates_flushes_witness :
  let conn := mkConnector (mkAgentIdentity "id" "app" "VEMA") 0 10 "" 1024 in
  let codec : JsonCodec ResourcesWithServicesRequest :=
    {| marshal _ := Val "{}"; unmarshal _ := Fail (Opaque "no") |} in
  match @SendStates map_token_cache join_builder hash_UUID same_gzip codec sample_env no_suppress conn
          (Some some_config) sample_service None zero_Request with
  | Ret (s', None) => buf (sv_metrics s') = []
  | _ => False
  end.
Proof.
  intros conn codec.
  destruct (@SendStates map_token_cache join_builder hash_UUID same_gzip codec sample_env no_suppress conn
          (Some some_config) sample_service None zero_Request) as [[s' e]|w] eqn:E.
  - destruct e as [err|].
    + assert (match @SendStates map_token_cache join_builder hash_UUID same_gzip codec sample_env no_suppress conn
          (Some some_config) sample_service None zero_Request with Ret (_, e) => negb (bool_decide (is_Some e))
          | Panic _ => false end = true) as Hr by (vm_compute; reflexivity).
      rewrite E in Hr. discriminate.
    + exact (proj1 (@SendStates_flushes map_token_cache join_builder hash_UUID same_gzip codec sample_env no_suppress
        conn (Some some_config) sample_service s' None zero_Request ltac:(discriminate) eq_refl E)).
  - assert (is_ret (@SendStates map_token_cache join_builder hash_UUID same_gzip codec sample_env no_suppress conn
          (Some some_config) sample_service None zero_Request) = true) as Hr by (vm_compute; reflexivity).
    rewrite E in Hr. discriminate.
Defined.

(** [filterExtInfo] splits an extended inventory without losing anything: it
    panics exactly on a monitored property of the wrong type; otherwise resource
    by resource and service by service the inventory keeps the alias and notes,
    the monitoring gets the state from the monitored properties and all the other
    properties, and each downtime depth becomes a downtime. *)
Theorem filterExtInfo_splits (now : Timestamp) (p : InventoryRequest) :
  (is_ret (filterExtInfo now p) = true ↔ Forall resource_typed (irq_Resources p)) ∧
  (∀ p' mon dt, filterExtInfo now p = Ret (p', mon, dt) →
     irq_Resources p' = inventory_part <$> irq_Resources p ∧
     irq_Groups p' = irq_Groups p ∧ irq_Context p' = irq_Context p ∧
     rq_Resources mon = monitored_part now <$> irq_Resources p ∧
     dts_BizHostServiceInDowntimes dt = concat (downtime_part <$> irq_Resources p)) ∧
  (∀ m k v, m !! k = Some v →
     (k ∈ ext_keys ∧ drop_props m !! k = None) ∨ ((k ∉ ext_keys) ∧ drop_props m !! k = Some v)).
Proof.
  split_and!.
  - unfold filterExtInfo. assert (Forall resource_typed (irq_Resources p) ↔
      is_ret (mapM_o (ext_resource now) (irq_Resources p)) = true) as ->.
    { rewrite mapM_o_is_ret. apply Forall_iff. intros r. symmetry. apply ext_resource_ret. }
    by destruct (mapM_o (ext_resource now) (irq_Resources p)).
  - intros p' mon dt. unfold filterExtInfo. intros (rs & Hrs & Hr)%bind_Ret_inv.
    rewrite (mapM_o_fmap _ _ _ _ (ext_resource_spec now) Hrs) in Hr.
    injection Hr as <- <- <-. cbn. rewrite <-!list_fmap_compose. done.
  - intros m k v Hm. unfold drop_props. destruct (decide (k ∈ ext_keys)) as [Hk|Hk]; [left|right]; split; try done.
    + apply map_lookup_filter_None. right. intros x _. cbn. tauto.
    + by apply map_lookup_filter_Some.
Qed.

Definition sample_inventory : InventoryRequest :=
  let ps : gmap string TypedValue := {["MonitorStatus" := tv_string HostUp; "Notes" := tv_string "n";
    "ScheduledDowntimeDepth" := tv_int 2]} in
  mkInventoryRequest zero_Context Yield
    [mkInventoryResource (mkBaseResource (mkBaseInfo "h" ResourceTypeHost "" "" "" ps) "") []] [].

Lemma filterExtInfo_splits_witness :
  ∃ p' mon dt, filterExtInfo (mkTimestamp 0 0 UTCLoc) sample_inventory = Ret (p', mon, dt) ∧
    rq_Resources mon = monitored_part (mkTimestamp 0 0 UTCLoc) <$> irq_Resources sample_inventory.
Proof.
  destruct (filterExtInfo (mkTimestamp 0 0 UTCLoc) sample_inventory) as [[[p' mon] dt]|w] eqn:E.
  - exists p', mon, dt. split; [reflexivity|].
    exact (proj1 (proj2 (proj2 (proj2 (proj1 (proj2 (filterExtInfo_splits (mkTimestamp 0 0 UTCLoc)
      sample_inventory)) p' mon dt E))))).
  - assert (is_ret (filterExtInfo (mkTimestamp 0 0 UTCLoc) sample_inventory) = true) as Hr
      by (vm_compute; reflexivity).
    rewrite E in Hr. discriminate.
Defined.

