(* ===== verification/Agent.v ===== *)
(** services/agent.go: the tasks of the agent service, which start and stop the
    NATS server, the dispatcher and the controller, apply a configuration, reset
    the store and exit.  The task queue runs them one at a time.

    The results of the NATS libraries are the environment of a task; parsing a
    configuration and hashing its NATS part are arguments. *)

From S2P Require Import Prelude GoString Errors Transit Batcher Http Nats Tracer Clients.

Local Open Scope string_scope.

(** ** Tasks *)

Definition taskSubject := string.
Definition taskConfig : taskSubject := "config".
Definition taskExit : taskSubject := "exit".
Definition taskResetNats : taskSubject := "resetNats".
Definition taskStartController : taskSubject := "startController".
Definition taskStopController : taskSubject := "stopController".
Definition taskStartNats : taskSubject := "startNats".
Definition taskStopNats : taskSubject := "stopNats".
Definition taskStartTransport : taskSubject := "startTransport".
Definition taskStopTransport : taskSubject := "stopTransport".

(** [demandConfigBackoff]: seconds before the next reload. *)
Definition demandConfigBackoff (i : Z) : Z := ((Z.rem i 4 + 1) * 5)%Z.

(** ** Configuration and state *)

(** The part of the configuration the tasks read. *)
Record configuration := mkConfiguration {
  cf_Identity : AgentIdentity;
  cf_Enabled : bool;
  cf_Nats : Config;
  cf_GWConnections : list GWConnection;
  cf_BatchEvents : Z;
  cf_BatchMetrics : Z;
  cf_BatchMaxBytes : Z;
}.

(** The goroutine of a batcher's ticker: whether it runs, and whether [tickerExit], of
    capacity 1, holds a signal for it. *)
Record ticker_state := mkTicker { tk_alive : bool; tk_signal : bool }.

Record agent := mkAgent {
  ag_nats : state;
  ag_controller : bool;             (** the HTTP server of the controller runs *)
  ag_cfg : configuration;
  ag_gwClients : list GWClient;
  ag_events : Batcher;
  ag_metrics : Batcher;
  ag_flushed : list (string * bool);   (** payloads the batchers handed to their handlers, and whether
                                        a publisher ran that could send them *)
  ag_tickers : ticker_state * ticker_state;   (** of the events and of the metrics *)
  ag_authCache : gset string;
  ag_wipes : nat;                   (** removals of the jetstream directory *)
  ag_lastErrors : list string;
  ag_handled : list string;         (** configurations passed to [configHandler] *)
  ag_quit : nat;                    (** signals in [quitChan], of capacity 1 *)
}.

Definition set_nats (a : agent) (n : state) : agent :=
  mkAgent n (ag_controller a) (ag_cfg a) (ag_gwClients a) (ag_events a) (ag_metrics a) (ag_flushed a)
    (ag_tickers a) (ag_authCache a) (ag_wipes a) (ag_lastErrors a) (ag_handled a) (ag_quit a).
Definition set_controller (a : agent) (b : bool) : agent :=
  mkAgent (ag_nats a) b (ag_cfg a) (ag_gwClients a) (ag_events a) (ag_metrics a) (ag_flushed a)
    (ag_tickers a) (ag_authCache a) (ag_wipes a) (ag_lastErrors a) (ag_handled a) (ag_quit a).
Definition set_cfg (a : agent) (c : configuration) : agent :=
  mkAgent (ag_nats a) (ag_controller a) c (ag_gwClients a) (ag_events a) (ag_metrics a) (ag_flushed a)
    (ag_tickers a) (ag_authCache a) (ag_wipes a) (ag_lastErrors a) (ag_handled a) (ag_quit a).
Definition set_gwClients (a : agent) (l : list GWClient) : agent :=
  mkAgent (ag_nats a) (ag_controller a) (ag_cfg a) l (ag_events a) (ag_metrics a) (ag_flushed a)
    (ag_tickers a) (ag_authCache a) (ag_wipes a) (ag_lastErrors a) (ag_handled a) (ag_quit a).
Definition publisher_runs (a : agent) : bool := bool_decide (0 < live_pumps (ag_nats a))%nat.

Definition set_batchers (a : agent) (e m : Batcher) (sent : list string) : agent :=
  mkAgent (ag_nats a) (ag_controller a) (ag_cfg a) (ag_gwClients a) e m
    (app (ag_flushed a) ((λ p, (p, publisher_runs a)) <$> sent))
    (ag_tickers a) (ag_authCache a) (ag_wipes a) (ag_lastErrors a) (ag_handled a) (ag_quit a).
Definition flush_auth (a : agent) : agent :=
  mkAgent (ag_nats a) (ag_controller a) (ag_cfg a) (ag_gwClients a) (ag_events a) (ag_metrics a) (ag_flushed a)
    (ag_tickers a) ∅ (ag_wipes a) (ag_lastErrors a) (ag_handled a) (ag_quit a).
Definition wipe_store (a : agent) : agent :=
  mkAgent (ag_nats a) (ag_controller a) (ag_cfg a) (ag_gwClients a) (ag_events a) (ag_metrics a) (ag_flushed a)
    (ag_tickers a) (ag_authCache a) (S (ag_wipes a)) (ag_lastErrors a) (ag_handled a) (ag_quit a).
Definition resetErrorLogs (a : agent) : agent :=
  mkAgent (ag_nats a) (ag_controller a) (ag_cfg a) (ag_gwClients a) (ag_events a) (ag_metrics a) (ag_flushed a)
    (ag_tickers a) (ag_authCache a) (ag_wipes a) [] (ag_handled a) (ag_quit a).
Definition call_configHandler (a : agent) (d : string) : agent :=
  mkAgent (ag_nats a) (ag_controller a) (ag_cfg a) (ag_gwClients a) (ag_events a) (ag_metrics a) (ag_flushed a)
    (ag_tickers a) (ag_authCache a) (ag_wipes a) (ag_lastErrors a) (app (ag_handled a) [d]) (ag_quit a).
Definition quit_signal (a : agent) : agent :=
  mkAgent (ag_nats a) (ag_controller a) (ag_cfg a) (ag_gwClients a) (ag_events a) (ag_metrics a) (ag_flushed a)
    (ag_tickers a) (ag_authCache a) (ag_wipes a) (ag_lastErrors a) (ag_handled a) (S (ag_quit a)).
Definition set_tickers (a : agent) (t : ticker_state * ticker_state) : agent :=
  mkAgent (ag_nats a) (ag_controller a) (ag_cfg a) (ag_gwClients a) (ag_events a) (ag_metrics a) (ag_flushed a)
    t (ag_authCache a) (ag_wipes a) (ag_lastErrors a) (ag_handled a) (ag_quit a).

(** When the ticker goroutines take the signal of an [exit]: before its handler has
    ended, after the controller, the transport or the server was stopped (0 to 3), or
    after the task. *)
Record flush_times := mkFlushTimes { ft_events : nat; ft_metrics : nat }.

(** What the NATS libraries answer during a task, whether the controller's HTTP server
    can be started, and when the ticker goroutines run in it. *)
Record task_env := mkTaskEnv {
  te_start : start_env;
  te_connect : option error;
  te_listen : bool;
  te_flush : flush_times;
}.

(** ** Starting and stopping *)

(** [strings.EqualFold(s, t)] for an ASCII [t]: the long s folds to an s. *)
Fixpoint fold_ascii (s : string) : string :=
  match s with
  | "" => ""
  | String a s' =>
      match s' with
      | String b s'' =>
          if bool_decide (a = "197"%char) && bool_decide (b = "191"%char) then String "S" (fold_ascii s'')
          else String (upper_byte a) (fold_ascii s')
      | "" => String (upper_byte a) ""
      end
  end.

Definition EqualFold (s t : string) : bool := bool_decide (fold_ascii s = fold_ascii t).

Definition startNats (env : task_env) (a : agent) : agent * option error :=
  let '(n, e) := StartServer (cf_Nats (ag_cfg a)) (te_start env) (ag_nats a) in
  (set_nats a n, e).

Definition stopTransport (a : agent) : agent :=
  if IsStartedDispatcher (ag_nats a) then set_nats a (StopDispatcher (ag_nats a)) else a.

Definition stopNats (a : agent) : outcome agent :=
  if IsStartedServer (ag_nats a) then
    let a := stopTransport a in
    n ← StopServer (ag_nats a); Ret (set_nats a n)
  else Ret a.

(** The clients of the enabled connections. *)
Definition make_gwClients (c : configuration) : list GWClient :=
  (λ g, mkGWClient (ai_AppName (cf_Identity c)) (ai_AppType (cf_Identity c)) g) <$>
    filter (λ g, gc_Enabled g = true) (cf_GWConnections c).

Definition not_configured (c : configuration) : error :=
  Errorf_w ErrNotConfigured
    ("AppType/AgentID: " +:+ ai_AppType (cf_Identity c) +:+ "/" +:+ ai_AgentID (cf_Identity c)).

Definition startTransport (env : task_env) (a : agent) : agent * option error :=
  if negb (isConnectorConfigured (cf_Identity (ag_cfg a))) then
    (a, if EqualFold (ai_AppType (cf_Identity (ag_cfg a))) "NAGIOS" then None
        else Some (not_configured (ag_cfg a)))
  else
    let gwClients := make_gwClients (ag_cfg a) in
    if decide (gwClients = []) then (a, None)
    else
      let '(n, e) := StartDispatcher (te_connect env) (ag_nats a) in
      (set_nats (set_gwClients a gwClients) n, e).

Definition startController (env : task_env) (a : agent) : agent :=
  if ag_controller a then a else set_controller a (te_listen env).

Definition stopController (a : agent) : agent :=
  if ag_controller a then set_controller a false else a.

Definition resetNats (env : task_env) (a : agent) : outcome agent :=
  let isNatsRunning := IsStartedServer (ag_nats a) in
  let isTransportRunning := IsStartedDispatcher (ag_nats a) in
  a ← stopNats a;
  let a := wipe_store a in
  let a := if isNatsRunning then (startNats env a).1 else a in
  let a := if isTransportRunning then (startTransport env a).1 else a in
  Ret a.

Section tasks.
Context (BE BM : BatchBuilder).
(** [config.LoadConnectorDTO] on the current configuration, and the hash of its
    NATS part. *)
Context (LoadConnectorDTO : configuration → string → result error configuration).
Context (Hashsum : Config → string).

(** Whether [NewTicker] of a period would panic is left to [Reset_]. *)
Definition reset_batchers (a : agent) : outcome agent :=
  let c := ag_cfg a in
  '(e, sent1) ← Reset_ (B := BE) (ag_events a) (cf_BatchEvents c) (cf_BatchMaxBytes c);
  '(m, sent2) ← Reset_ (B := BM) (ag_metrics a) (cf_BatchMetrics c) (cf_BatchMaxBytes c);
  Ret (set_batchers a e m (app sent1 sent2)).

Definition clear_batchers (a : agent) : agent :=
  set_batchers a (Clear (ag_events a)) (Clear (ag_metrics a)) [].

(** The restart of [config]: the server if its configuration changed, the
    transport if it ran before or the server was restarted. *)
Definition config_restart (env : task_env) (changed isTransportRunning : bool) (a : agent) : outcome agent :=
  if changed then
    a ← stopNats a;
    let a := (startNats env a).1 in
    Ret (if cf_Enabled (ag_cfg a) then (startTransport env a).1 else a)
  else if cf_Enabled (ag_cfg a) && isTransportRunning then Ret (startTransport env a).1
  else Ret a.

Definition config (env : task_env) (data : string) (a : agent) : outcome (agent * option error) :=
  let natsChk0 := Hashsum (cf_Nats (ag_cfg a)) in
  let isTransportRunning := IsStartedDispatcher (ag_nats a) in
  let a := stopTransport a in
  match LoadConnectorDTO (ag_cfg a) data with
  | Fail err => Ret (a, Some err)
  | Val c =>
      let a := set_cfg a c in
      a ← reset_batchers a;
      let a := flush_auth a in
      let changed := negb (bool_decide (natsChk0 = Hashsum (cf_Nats (ag_cfg a)))) in
      a ← config_restart env changed isTransportRunning a;
      a ← (if isConnectorConfigured (cf_Identity (ag_cfg a)) then Ret a
           else a ← resetNats env (clear_batchers a); Ret (resetErrorLogs a));
      Ret (call_configHandler a data, None)
  end.

(** *** Exit *)

(** The ticker goroutine of a batcher takes the signal of [Exit], batches and ends. *)
Definition flush_events (a : agent) : outcome agent :=
  let t := (ag_tickers a).1 in
  if tk_alive t && tk_signal t then
    '(e, sent) ← Batch (B := BE) (ag_events a);
    Ret (set_tickers (set_batchers a e (ag_metrics a) sent) (mkTicker false false, (ag_tickers a).2))
  else Ret a.

Definition flush_metrics (a : agent) : outcome agent :=
  let t := (ag_tickers a).2 in
  if tk_alive t && tk_signal t then
    '(m, sent) ← Batch (B := BM) (ag_metrics a);
    Ret (set_tickers (set_batchers a (ag_events a) m sent) ((ag_tickers a).1, mkTicker false false))
  else Ret a.

(** [Batcher.Exit]: it does not wait for the batch.  With a signal in the channel it
    waits until the goroutine has taken that one, which never happens ([None]) when the
    goroutine has ended. *)
Definition signal (t : ticker_state) : ticker_state := mkTicker (tk_alive t) true.

Definition Exit_events (a : agent) : outcome (option agent) :=
  let t := (ag_tickers a).1 in
  if tk_signal t && negb (tk_alive t) then Ret None
  else
    a ← (if tk_signal t then flush_events a else Ret a);
    Ret (Some (set_tickers a (signal (ag_tickers a).1, (ag_tickers a).2))).

Definition Exit_metrics (a : agent) : outcome (option agent) :=
  let t := (ag_tickers a).2 in
  if tk_signal t && negb (tk_alive t) then Ret None
  else
    a ← (if tk_signal t then flush_metrics a else Ret a);
    Ret (Some (set_tickers a ((ag_tickers a).1, signal (ag_tickers a).2))).

(** The goroutines whose time has come. *)
Definition background (ft : flush_times) (now : nat) (a : agent) : outcome agent :=
  a ← (if decide (ft_events ft = now) then flush_events a else Ret a);
  if decide (ft_metrics ft = now) then flush_metrics a else Ret a.

(** How the registered handler ends. *)
Inductive handler_end := HReturns | HPanicsError | HPanicsOther.

(** The goroutine that calls the handler: whether it signals the end of it.  A panic
    skips the signal; its value is recovered if it is an error, and panics the
    recovery itself if it is not. *)
Definition call_exitHandler (h : handler_end) : outcome bool :=
  match h with
  | HReturns => Ret true
  | HPanicsError => Ret false
  | HPanicsOther => Panic "interface conversion: interface {} is not error"
  end.

(** What a task can wait for without end. *)
Inductive wait := AwaitsBatcher | AwaitsHandler | AwaitsQuit.

#[export] Instance wait_eq_dec : EqDecision wait.
Proof. solve_decision. Defined.

Inductive exit_result := Exited (a : agent) | Blocked (w : wait) (a : agent).

(** [exit]: the batchers are told to end, which they do in the background; the handler
    is awaited, everything is stopped, and the quit signal is sent.  It waits for ever
    for a handler that has panicked, and for room in a full [quitChan]. *)
Definition exit (ft : flush_times) (h : handler_end) (a : agent) : outcome exit_result :=
  told ← Exit_events a;
  match told with
  | None => Ret (Blocked AwaitsBatcher a)
  | Some a =>
      told ← Exit_metrics a;
      match told with
      | None => Ret (Blocked AwaitsBatcher a)
      | Some a =>
          a ← background ft 0 a;
          ended ← call_exitHandler h;
          if negb ended then Ret (Blocked AwaitsHandler a)
          else
            a ← background ft 1 (stopController a);
            a ← background ft 2 (stopTransport a);
            a ← stopNats a;
            a ← background ft 3 a;
            Ret (if decide (ag_quit a = 0%nat) then Exited (quit_signal a) else Blocked AwaitsQuit a)
      end
  end.

(** A task of the queue, [exit] apart. *)
Inductive task :=
| TConfig (data : string)
| TResetNats
| TStartController
| TStopController
| TStartNats
| TStopNats
| TStartTransport
| TStopTransport.

(** [hTask] *)
Definition run (env : task_env) (t : task) (a : agent) : outcome (agent * option error) :=
  match t with
  | TConfig data => config env data a
  | TResetNats => a ← resetNats env a; Ret (a, None)
  | TStartController => Ret (startController env a, None)
  | TStopController => Ret (stopController a, None)
  | TStartNats => Ret (startNats env a)
  | TStopNats => a ← stopNats a; Ret (a, None)
  | TStartTransport => Ret (startTransport env a)
  | TStopTransport => Ret (stopTransport a, None)
  end.

Inductive agent_step : agent → agent → Prop :=
| as_task env t a a' e : run env t a = Ret (a', e) → agent_step a a'.
End tasks.

(** ** Lemmas *)

(** What the clients of a running dispatcher are: a non-empty list of enabled
    connections. *)
Record agent_inv (a : agent) : Prop := {
  ai_nats : lc_inv (ag_nats a);
  ai_clients : IsStartedDispatcher (ag_nats a) = true →
    ag_gwClients a ≠ [] ∧ Forall (λ c, gc_Enabled (connection c) = true) (ag_gwClients a);
}.

Lemma make_gwClients_enabled c : Forall (λ g, gc_Enabled (connection g) = true) (make_gwClients c).
Proof.
  unfold make_gwClients. apply Forall_fmap, Forall_forall. intros g [Hg _]%list_elem_of_filter. exact Hg.
Qed.

Lemma stopTransport_stopped a : IsStartedDispatcher (ag_nats (stopTransport a)) = false.
Proof. unfold stopTransport. by destruct (IsStartedDispatcher (ag_nats a)) eqn:E. Qed.

Lemma stopTransport_inv a : agent_inv a → agent_inv (stopTransport a).
Proof.
  intros [Hn Hc]. split; [|by rewrite stopTransport_stopped]. unfold stopTransport.
  case_match; [|done]. eapply lifecycle_inv; [exact Hn|apply lc_StopDispatcher].
Qed.

Lemma stopNats_spec a a' :
  stopNats a = Ret a' →
  IsStartedServer (ag_nats a') = false ∧ (agent_inv a → agent_inv a' ∧ IsStartedDispatcher (ag_nats a') = false).
Proof.
  unfold stopNats. destruct (IsStartedServer (ag_nats a)) eqn:E.
  - intros (n & Hn & Hr)%bind_Ret_inv. injection Hr as <-. cbn [ag_nats set_nats].
    assert (server n = false ∧ ncDispatcher n = false) as [Hs Hd].
    { unfold StopServer in Hn. destruct (cancel _); [|done]. by injection Hn as <-. }
    split; [done|]. intros Hi. apply stopTransport_inv in Hi as [Hl _].
    split; [|done]. split; [|by unfold IsStartedDispatcher; cbn; rewrite Hd].
    eapply lifecycle_inv; [exact Hl|by apply lc_StopServer].
  - intros [= <-]. split; [done|]. intros Hi. split; [done|].
    destruct Hi as [[_ Hs _] _]. by destruct (Hs E).
Qed.

Lemma stopNats_keeps a a' :
  stopNats a = Ret a' → ag_controller a' = ag_controller a ∧ ag_quit a' = ag_quit a ∧
    ag_events a' = ag_events a ∧ ag_metrics a' = ag_metrics a ∧ ag_tickers a' = ag_tickers a.
Proof.
  unfold stopNats, stopTransport. destruct (IsStartedServer (ag_nats a)); [|by intros [= <-]].
  intros (n & _ & Hr)%bind_Ret_inv. injection Hr as <-. by destruct (IsStartedDispatcher (ag_nats a)).
Qed.

Lemma startNats_inv env a : agent_inv a → agent_inv (startNats env a).1.
Proof.
  intros [Hn Hc]. unfold startNats. destruct (StartServer _ _ _) as [n e] eqn:E. cbn [fst].
  assert (n = (StartServer (cf_Nats (ag_cfg a)) (te_start env) (ag_nats a)).1) as -> by by rewrite E.
  split; [by apply StartServer_inv|]. cbn [ag_nats set_nats ag_gwClients].
  intros Hd. apply Hc. revert Hd. unfold IsStartedDispatcher, StartServer.
  repeat case_match; done.
Qed.

Lemma startTransport_inv env a : agent_inv a → agent_inv (startTransport env a).1.
Proof.
  intros Hi. unfold startTransport. destruct (negb _); [done|]. case_decide as Hc; [done|].
  destruct (StartDispatcher _ _) as [n e] eqn:E. cbn [fst].
  assert (n = (StartDispatcher (te_connect env) (ag_nats a)).1) as -> by by rewrite E.
  split; [eapply lifecycle_inv; [apply Hi|apply lc_StartDispatcher]|].
  intros _. split; [done|apply make_gwClients_enabled].
Qed.

(** Changes that do not touch the NATS part. *)
Lemma agent_inv_same a a' :
  ag_nats a' = ag_nats a → ag_gwClients a' = ag_gwClients a → agent_inv a → agent_inv a'.
Proof. intros Hn Hg [Hl Hc]. split; [by rewrite Hn|by rewrite Hn, Hg]. Qed.

Lemma resetNats_inv env a a' : resetNats env a = Ret a' → agent_inv a → agent_inv a'.
Proof.
  unfold resetNats. intros (a1 & Hs%stopNats_spec & Hr)%bind_Ret_inv Hi. injection Hr as <-.
  destruct Hs as [_ Hs]. destruct (Hs Hi) as [H1 _].
  assert (agent_inv (wipe_store a1)) as H2 by (by eapply agent_inv_same; [..|exact H1]).
  destruct (IsStartedServer (ag_nats a)), (IsStartedDispatcher (ag_nats a)); auto using startNats_inv, startTransport_inv.
Qed.

Section agent_lemmas.
Context (BE BM : BatchBuilder).
Context (LoadConnectorDTO : configuration → string → result error configuration) (Hashsum : Config → string).

Lemma reset_batchers_same a a' :
  reset_batchers BE BM a = Ret a' →
  ag_nats a' = ag_nats a ∧ ag_gwClients a' = ag_gwClients a ∧ ag_cfg a' = ag_cfg a ∧ ag_controller a' = ag_controller a.
Proof.
  unfold reset_batchers. intros ([e s1] & _ & Hx)%bind_Ret_inv.
  apply bind_Ret_inv in Hx as ([m s2] & _ & Hx). injection Hx as <-. done.
Qed.

Lemma config_restart_inv env ch tr a a' :
  config_restart env ch tr a = Ret a' → agent_inv a → agent_inv a'.
Proof.
  unfold config_restart. destruct ch.
  - intros (a1 & Hs%stopNats_spec & Hr)%bind_Ret_inv Hi. injection Hr as <-. destruct Hs as [_ Hs].
    destruct (Hs Hi) as [H1 _]. case_match; auto using startNats_inv, startTransport_inv.
  - case_match; intros [= <-]; auto using startTransport_inv.
Qed.

Lemma config_inv env data a a' e :
  config BE BM LoadConnectorDTO Hashsum env data a = Ret (a', e) → agent_inv a → agent_inv a'.
Proof.
  unfold config. intros Hx Hi. apply stopTransport_inv in Hi.
  destruct (LoadConnectorDTO (ag_cfg (stopTransport a)) data) as [c|err]; [|by injection Hx as <- _].
  apply bind_Ret_inv in Hx as (a1 & H1%reset_batchers_same & Hx).
  destruct H1 as (Hn1 & Hg1 & _).
  assert (agent_inv (flush_auth a1)) as Hi1 by (by eapply agent_inv_same; [..|exact Hi]).
  apply bind_Ret_inv in Hx as (a2 & H2 & Hx). pose proof (config_restart_inv _ _ _ _ _ H2 Hi1) as Hi2.
  apply bind_Ret_inv in Hx as (a3 & H3 & Hx). injection Hx as <- _.
  eapply (agent_inv_same a3); [done|done|].
  destruct (isConnectorConfigured _); [by injection H3 as <-|].
  apply bind_Ret_inv in H3 as (a4 & H4 & H3). injection H3 as <-.
  apply (agent_inv_same a4); [done|done|]. eapply resetNats_inv; [exact H4|].
  by apply (agent_inv_same a2).
Qed.

Lemma run_inv env t a a' e :
  run BE BM LoadConnectorDTO Hashsum env t a = Ret (a', e) → agent_inv a → agent_inv a'.
Proof.
  destruct t as [data| | | | | | |]; cbn [run].
  - apply config_inv.
  - intros (a1 & Hr & Hx)%bind_Ret_inv Hi. injection Hx as <- _. by eapply resetNats_inv.
  - intros [= <- _] Hi. unfold startController. case_match; [done|]. by eapply agent_inv_same; [..|exact Hi].
  - intros [= <- _] Hi. unfold stopController. case_match; [|done]. by eapply agent_inv_same; [..|exact Hi].
  - intros [= Hr] Hi. apply (startNats_inv env) in Hi. by rewrite Hr in Hi.
  - intros (a1 & Hs%stopNats_spec & Hx)%bind_Ret_inv Hi. injection Hx as <- _. by apply Hs.
  - intros [= Hr] Hi. apply (startTransport_inv env) in Hi. by rewrite Hr in Hi.
  - intros [= <- _]. apply stopTransport_inv.
Qed.

(** Without a change of the NATS configuration a stopped transport stays
    stopped over a configuration. *)
Lemma config_restart_stopped env a a' : config_restart env false false a = Ret a' → a' = a.
Proof. unfold config_restart. rewrite andb_false_r. by intros [= <-]. Qed.
End agent_lemmas.

(** The agent before its first task. *)
Definition fresh_agent (c : configuration) : agent :=
  mkAgent zero_state false c [] (mkBatcher [] 0 (cf_BatchMaxBytes c) (period (cf_BatchEvents c)))
    (mkBatcher [] 0 (cf_BatchMaxBytes c) (period (cf_BatchMetrics c))) []
    (mkTicker true false, mkTicker true false) ∅ 0 [] [] 0.

Lemma fresh_agent_inv c : agent_inv (fresh_agent c).
Proof. split; [apply lc_inv_zero|done]. Qed.

(** ** Properties *)

(** C6: Over any tasks, configurations and answers of the NATS libraries: a running
    dispatcher has a running server, and serves a non-empty list of clients, of
    enabled connections only; there never is more than one publisher goroutine. *)
Theorem agent_invariant (BE BM : BatchBuilder)
    (LoadConnectorDTO : configuration → string → result error configuration) (Hashsum : Config → string)
    (c : configuration) (a : agent) :
  rtc (agent_step BE BM LoadConnectorDTO Hashsum) (fresh_agent c) a →
  (live_pumps (ag_nats a) ≤ 1)%nat ∧
  (IsStartedDispatcher (ag_nats a) = true →
     IsStartedServer (ag_nats a) = true ∧ ag_gwClients a ≠ [] ∧
     Forall (λ g, gc_Enabled (connection g) = true) (ag_gwClients a)).
Proof.
  intros Hr. assert (agent_inv a) as [[Hp Hs _] Hc].
  { pose proof (fresh_agent_inv c) as Hi. induction Hr as [|a0 a1 a2 [env t a0' a1' e Ht] _ IH]; [done|].
    apply IH. exact (run_inv BE BM LoadConnectorDTO Hashsum env t a0' a1' e Ht Hi). }
  split; [done|]. intros Hd. split; [|by apply Hc].
  unfold IsStartedServer. destruct (server (ag_nats a)) eqn:E; [done|].
  destruct (Hs eq_refl) as [Hd' _]. unfold IsStartedDispatcher in Hd. congruence.
Qed.

(** A configuration that does not change the NATS settings never starts a
    transport that is stopped, whatever it enables: after an unauthorized user or
    a rejected configuration stopped the transport, the corrected configuration
    does not resume the delivery. *)
Theorem config_keeps_stopped (BE BM : BatchBuilder)
    (LoadConnectorDTO : configuration → string → result error configuration) (Hashsum : Config → string)
    (env : task_env) (data : string) (a a' : agent) (c : configuration) (e : option error) :
  IsStartedDispatcher (ag_nats a) = false → LoadConnectorDTO (ag_cfg a) data = Val c →
  Hashsum (cf_Nats c) = Hashsum (cf_Nats (ag_cfg a)) → isConnectorConfigured (cf_Identity c) = true →
  config BE BM LoadConnectorDTO Hashsum env data a = Ret (a', e) →
  e = None ∧ ag_cfg a' = c ∧ ag_nats a' = ag_nats a ∧ IsStartedDispatcher (ag_nats a') = false.
Proof.
  intros Hst Hload Hhash Hid. unfold config.
  assert (stopTransport a = a) as -> by (unfold stopTransport; by rewrite Hst).
  rewrite Hload, Hst. intros (a1 & H1%reset_batchers_same & Hx)%bind_Ret_inv.
  destruct H1 as (Hn1 & Hg1 & Hc1 & _). cbn [ag_cfg set_cfg] in Hc1.
  cbn [ag_cfg flush_auth] in Hx. rewrite Hc1, Hhash, bool_decide_true in Hx by done.
  apply bind_Ret_inv in Hx as (a2 & ->%config_restart_stopped & Hx). cbn [ag_cfg flush_auth] in Hx.
  rewrite Hc1, Hid, bind_ret_l in Hx. injection Hx as <- <-. cbn. rewrite Hn1. by split_and!.
Qed.

(** A rejected configuration stops the transport and changes nothing else. *)
Theorem config_rejected (BE BM : BatchBuilder)
    (LoadConnectorDTO : configuration → string → result error configuration) (Hashsum : Config → string)
    (env : task_env) (data : string) (a : agent) (err : error) :
  LoadConnectorDTO (ag_cfg a) data = Fail err →
  ∃ a', config BE BM LoadConnectorDTO Hashsum env data a = Ret (a', Some err) ∧
    IsStartedDispatcher (ag_nats a') = false ∧ IsStartedServer (ag_nats a') = IsStartedServer (ag_nats a) ∧
    ag_cfg a' = ag_cfg a ∧ ag_gwClients a' = ag_gwClients a ∧ ag_handled a' = ag_handled a.
Proof.
  intros Hload. assert (ag_cfg (stopTransport a) = ag_cfg a) as Hcfg by (unfold stopTransport; by case_match).
  unfold config. rewrite Hcfg, Hload. eexists. split; [done|]. split; [apply stopTransport_stopped|].
  unfold stopTransport. by case_match.
Qed.

(** A running agent whose store is reset, on NATS libraries that work: the
    directory is removed once, and server and transport run again, for the current
    configuration. *)
Theorem resetNats_restores (env : task_env) (a : agent) :
  IsStartedServer (ag_nats a) = true → IsStartedDispatcher (ag_nats a) = true → cancel (ag_nats a) ≠ None →
  isConnectorConfigured (cf_Identity (ag_cfg a)) = true → make_gwClients (ag_cfg a) ≠ [] →
  ConfigFile (cf_Nats (ag_cfg a)) = "" → se_NewServer (te_start env) = None → se_Connect (te_start env) = None →
  te_connect env = None →
  ∃ a', resetNats env a = Ret a' ∧ ag_wipes a' = S (ag_wipes a) ∧
    IsStartedServer (ag_nats a') = true ∧ IsStartedDispatcher (ag_nats a') = true ∧
    ag_gwClients a' = make_gwClients (ag_cfg a) ∧ ag_cfg a' = ag_cfg a.
Proof.
  intros Hs Hd Hc Hid Hgw Hf Hn Hco Hte. unfold resetNats, stopNats.
  assert (stopTransport a = set_nats a (StopDispatcher (ag_nats a))) as Hst by (unfold stopTransport; by rewrite Hd).
  rewrite Hs, Hd, Hst. unfold StopServer at 1. cbn [ag_nats set_nats StopDispatcher cancel].
  destruct (cancel (ag_nats a)) as [b|]; [|done]. rewrite !bind_ret_l.
  set (a1 := wipe_store _).
  assert (server (ag_nats (startNats env a1).1) = true ∧ ag_cfg (startNats env a1).1 = ag_cfg a ∧
    ag_wipes (startNats env a1).1 = S (ag_wipes a)) as (Hs2 & Hcfg & Hw).
  { unfold startNats, StartServer. cbn. rewrite Hf, decide_True, Hn, Hco by done. cbn.
    destruct (defineStream _ _).2; done. }
  unfold startTransport. rewrite Hcfg, Hid. cbn [negb]. rewrite decide_False by done.
  unfold StartDispatcher. cbn [StopDispatcher server]. rewrite Hs2, Hte. cbn.
  eexists. split; [done|]. cbn. by split_and!.
Qed.

(** *** Exit *)

(** What the batchers do in the background leaves the rest of the agent alone. *)
Record same_services (a a' : agent) : Prop := {
  ss_nats : ag_nats a' = ag_nats a;
  ss_controller : ag_controller a' = ag_controller a;
  ss_clients : ag_gwClients a' = ag_gwClients a;
  ss_quit : ag_quit a' = ag_quit a;
}.

Lemma same_services_refl a : same_services a a.
Proof. done. Qed.

Lemma same_services_trans a b c : same_services a b → same_services b c → same_services a c.
Proof. intros [] []. split; congruence. Qed.

Lemma same_services_inv a a' : same_services a a' → agent_inv a → agent_inv a'.
Proof. intros [Hn _ Hg _]. by apply agent_inv_same. Qed.

(** A ticker goroutine that is told to end, and what it leaves when it has: [b0] is the
    batcher it was told with. *)
Definition told_or_ended (b0 b : Batcher) (t : ticker_state) (ended : bool) : Prop :=
  if ended then t = mkTicker false false ∧ buf b = [] else t = mkTicker true true ∧ b = b0.

(** The agent inside of an exit, by which goroutines have ended. *)
Record exiting (a a' : agent) (ev me : bool) : Prop := {
  ex_events : told_or_ended (ag_events a) (ag_events a') (ag_tickers a').1 ev;
  ex_metrics : told_or_ended (ag_metrics a) (ag_metrics a') (ag_tickers a').2 me;
}.

Lemma before_next n k : bool_decide (n < S k)%nat = bool_decide (n ≤ k)%nat.
Proof. apply bool_decide_ext. lia. Qed.

Lemma at_first n : bool_decide (n < 1)%nat = bool_decide (n = 0)%nat.
Proof. apply bool_decide_ext. lia. Qed.

Section exit_lemmas.
Context (BE BM : BatchBuilder) {TE : BatchBuilderTotal BE} {TM : BatchBuilderTotal BM}.

Lemma flush_events_exiting a a' me :
  (0 < maxBytes (ag_events a))%Z → exiting a a' false me →
  ∃ a2, flush_events BE a' = Ret a2 ∧ same_services a' a2 ∧ exiting a a2 true me.
Proof using TE.
  intros Hm [[Ht Hb] He]. unfold flush_events. rewrite Ht. cbn [tk_alive tk_signal andb].
  destruct (Batch_ret (B := BE) (ag_events a')) as [sent Hs]; [by rewrite Hb|]. rewrite Hs, bind_ret_l.
  eexists. by split_and!.
Qed.

Lemma flush_metrics_exiting a a' ev :
  (0 < maxBytes (ag_metrics a))%Z → exiting a a' ev false →
  ∃ a2, flush_metrics BM a' = Ret a2 ∧ same_services a' a2 ∧ exiting a a2 ev true.
Proof using TM.
  intros Hm [He [Ht Hb]]. unfold flush_metrics. rewrite Ht. cbn [tk_alive tk_signal andb].
  destruct (Batch_ret (B := BM) (ag_metrics a')) as [sent Hs]; [by rewrite Hb|]. rewrite Hs, bind_ret_l.
  eexists. by split_and!.
Qed.

(** A time of the schedule that comes next. *)
Lemma background_exiting ft now a a' :
  (0 < maxBytes (ag_events a))%Z → (0 < maxBytes (ag_metrics a))%Z →
  exiting a a' (bool_decide (ft_events ft < now)%nat) (bool_decide (ft_metrics ft < now)%nat) →
  ∃ a2, background BE BM ft now a' = Ret a2 ∧ same_services a' a2 ∧
    exiting a a2 (bool_decide (ft_events ft < S now)%nat) (bool_decide (ft_metrics ft < S now)%nat).
Proof using TE TM.
  intros He Hm H. unfold background.
  assert (∀ n k : nat, n ≠ k → bool_decide (n < S k)%nat = bool_decide (n < k)%nat) as Hne
    by (intros; apply bool_decide_ext; lia).
  assert (∃ a2, (if decide (ft_events ft = now) then flush_events BE a' else Ret a') = Ret a2 ∧ same_services a' a2 ∧
    exiting a a2 (bool_decide (ft_events ft < S now)%nat) (bool_decide (ft_metrics ft < now)%nat)) as (a2 & -> & Hs & H2).
  { destruct (decide (ft_events ft = now)) as [Hn|Hn].
    - rewrite (bool_decide_false (ft_events ft < now)%nat) in H by lia. rewrite (bool_decide_true (ft_events ft < S now)%nat) by lia.
      by apply flush_events_exiting.
    - exists a'. split_and!; [done|done|]. rewrite Hne by done. exact H. }
  rewrite bind_ret_l. destruct (decide (ft_metrics ft = now)) as [Hn|Hn].
  - rewrite (bool_decide_false (ft_metrics ft < now)%nat) in H2 by lia. rewrite (bool_decide_true (ft_metrics ft < S now)%nat) by lia.
    destruct (flush_metrics_exiting a a2 _ Hm H2) as (a3 & -> & Hs3 & H3). exists a3. split_and!; [done| |done].
    exact (same_services_trans _ _ _ Hs Hs3).
  - exists a2. split_and!; [done|done|]. rewrite (Hne (ft_metrics ft)) by done. exact H2.
Qed.

(** Stopping leaves the batchers alone. *)
Lemma exiting_same a b b' ev me :
  ag_events b' = ag_events b → ag_metrics b' = ag_metrics b → ag_tickers b' = ag_tickers b →
  exiting a b ev me → exiting a b' ev me.
Proof using Type. intros H1 H2 H3 []. split; congruence. Qed.

(** A started server that has no context to cancel: its publisher could not connect. *)
Definition half_started (n : state) : bool := server n && bool_decide (cancel n = None).

Lemma stopNats_ret a : is_ret (stopNats a) = negb (half_started (ag_nats a)).
Proof using Type.
  unfold stopNats, half_started, IsStartedServer. destruct (server (ag_nats a)) eqn:Hs; [|done].
  assert (cancel (ag_nats (stopTransport a)) = cancel (ag_nats a)) as Hc by (unfold stopTransport; by case_match).
  unfold StopServer. rewrite Hc. by destruct (cancel (ag_nats a)).
Qed.

(** The batchers are told, and the goroutines that come first have run. *)
Lemma exit_told ft h a :
  ag_tickers a = (mkTicker true false, mkTicker true false) →
  (0 < maxBytes (ag_events a))%Z → (0 < maxBytes (ag_metrics a))%Z →
  ∃ a1, same_services a a1 ∧ exiting a a1 (bool_decide (ft_events ft < 1)%nat) (bool_decide (ft_metrics ft < 1)%nat) ∧
    exit BE BM ft h a =
      (ended ← call_exitHandler h;
       if negb ended then Ret (Blocked AwaitsHandler a1)
       else
         a ← background BE BM ft 1 (stopController a1);
         a ← background BE BM ft 2 (stopTransport a);
         a ← stopNats a;
         a ← background BE BM ft 3 a;
         Ret (if decide (ag_quit a = 0%nat) then Exited (quit_signal a) else Blocked AwaitsQuit a)).
Proof using TE TM.
  intros Ht He Hm. unfold exit, Exit_events. rewrite Ht. cbn [fst snd tk_alive tk_signal andb negb]. rewrite !bind_ret_l.
  unfold Exit_metrics. cbn [ag_tickers set_tickers fst snd tk_alive tk_signal andb negb]. rewrite Ht.
  cbn [fst snd tk_alive tk_signal andb negb]. rewrite bind_ret_l. cbn [ag_tickers set_tickers fst snd signal tk_alive].
  rewrite bind_ret_l. set (a0 := set_tickers _ _).
  assert (exiting a a0 (bool_decide (ft_events ft < 0)%nat) (bool_decide (ft_metrics ft < 0)%nat)) as H0.
  { rewrite !bool_decide_false by lia. by split. }
  destruct (background_exiting ft 0 a a0 He Hm H0) as (a1 & Hb & Hs & H1). exists a1. split; [|split; [done|]].
  - by apply (same_services_trans a a0).
  - by rewrite Hb, bind_ret_l.
Qed.

Lemma half_started_stopTransport a : half_started (ag_nats (stopTransport a)) = half_started (ag_nats a).
Proof using Type. unfold stopTransport. by case_match. Qed.

Lemma stopController_spec a ev me b :
  exiting b a ev me →
  ag_nats (stopController a) = ag_nats a ∧ ag_controller (stopController a) = false ∧
  ag_quit (stopController a) = ag_quit a ∧ exiting b (stopController a) ev me.
Proof using Type. intros H. unfold stopController. destruct (ag_controller a) eqn:E; split_and!; try done; (eapply exiting_same; [..|exact H]; done). Qed.

Lemma stopTransport_spec a ev me b :
  exiting b a ev me →
  ag_controller (stopTransport a) = ag_controller a ∧ ag_quit (stopTransport a) = ag_quit a ∧ exiting b (stopTransport a) ev me.
Proof using Type. intros H. unfold stopTransport. case_match; split_and!; try done; (eapply exiting_same; [..|exact H]; done). Qed.

(** A handler that returns. *)
Lemma exit_returned ft a :
  agent_inv a → ag_quit a = 0%nat → ag_tickers a = (mkTicker true false, mkTicker true false) →
  (0 < maxBytes (ag_events a))%Z → (0 < maxBytes (ag_metrics a))%Z →
  if half_started (ag_nats a) then is_panic (exit BE BM ft HReturns a) = true
  else ∃ a', exit BE BM ft HReturns a = Ret (Exited a') ∧
     IsStartedServer (ag_nats a') = false ∧ IsStartedDispatcher (ag_nats a') = false ∧
     live_pumps (ag_nats a') = 0%nat ∧ ag_controller a' = false ∧ ag_quit a' = 1%nat ∧
     exiting a a' (bool_decide (ft_events ft ≤ 3)%nat) (bool_decide (ft_metrics ft ≤ 3)%nat).
Proof using TE TM.
  intros Hi Hq Ht He Hm. destruct (exit_told ft HReturns a Ht He Hm) as (a1 & Hs1 & H1 & ->).
  cbn [call_exitHandler]. rewrite bind_ret_l. cbn [negb].
  destruct (stopController_spec _ _ _ _ H1) as (Hn1 & Hc1 & Hq1 & H1').
  destruct (background_exiting ft 1 a _ He Hm H1') as (a2 & -> & [Hn2 Hc2 Hg2 Hq2] & H2). rewrite bind_ret_l.
  destruct (stopTransport_spec _ _ _ _ H2) as (Hc2' & Hq2' & H2').
  destruct (background_exiting ft 2 a _ He Hm H2') as (a3 & -> & Hs3 & H3). rewrite bind_ret_l.
  assert (half_started (ag_nats a3) = half_started (ag_nats a)) as Hh.
  { rewrite (ss_nats _ _ Hs3), half_started_stopTransport, Hn2, Hn1, (ss_nats _ _ Hs1). done. }
  assert (agent_inv a3) as Hi3.
  { apply (same_services_inv _ _ Hs3), stopTransport_inv. apply (agent_inv_same a).
    - by rewrite Hn2, Hn1, (ss_nats _ _ Hs1).
    - rewrite Hg2. unfold stopController. destruct (ag_controller a1); exact (ss_clients _ _ Hs1).
    - done. }
  pose proof (stopNats_ret a3) as Hr. rewrite Hh in Hr. destruct (half_started (ag_nats a)).
  { by destruct (stopNats a3). }
  destruct (stopNats a3) as [a4|] eqn:Hst; [|done]. rewrite bind_ret_l.
  destruct (stopNats_spec _ _ Hst) as [Hsrv Hinv]. destruct (Hinv Hi3) as [[Hl _] Hd].
  destruct (stopNats_keeps _ _ Hst) as (Hc4 & Hq4 & He4 & Hm4 & Ht4).
  destruct (background_exiting ft 3 a a4 He Hm) as (a5 & -> & [Hn5 Hc5 Hg5 Hq5] & H5).
  { by apply (exiting_same a a3). }
  rewrite bind_ret_l. rewrite decide_True by (rewrite Hq5, Hq4, (ss_quit _ _ Hs3), Hq2', Hq2, Hq1, (ss_quit _ _ Hs1); done).
  eexists. split; [done|]. cbn [quit_signal ag_nats ag_controller ag_quit]. rewrite Hn5. split_and!; [done|done| | | |].
  - by apply Hl.
  - by rewrite Hc5, Hc4, (ss_controller _ _ Hs3), Hc2', Hc2.
  - by rewrite Hq5, Hq4, (ss_quit _ _ Hs3), Hq2', Hq2, Hq1, (ss_quit _ _ Hs1), Hq.
  - apply (exiting_same a a5); [done|done|done|].
    rewrite <-!(before_next _ 3). exact H5.
Qed.
End exit_lemmas.


Definition sample_configuration : configuration :=
  mkConfiguration (mkAgentIdentity "id" "app" "VEMA") true some_config
    [mkGWConnection 1 "gw" "u" "p" true false "" false false "" false "" false false false] 0 0 1024.

Definition good_env : task_env := mkTaskEnv (mkStartEnv None None None good_js) None true (mkFlushTimes 0 0).

Definition running_agent : agent := (startTransport good_env (startNats good_env (fresh_agent sample_configuration)).1).1.

(** A loader that accepts the empty text only, and leaves the configuration. *)
Definition sample_load (c : configuration) (d : string) : result error configuration :=
  if decide (d = "") then Val c else Fail (Opaque "invalid character").

Definition sample_hash (c : Config) : string := StoreDir c.

Lemma agent_invariant_witness :
  IsStartedDispatcher (ag_nats running_agent) = true ∧ IsStartedServer (ag_nats running_agent) = true.
Proof.
  split; [reflexivity|].
  apply (agent_invariant join_builder join_builder sample_load sample_hash sample_configuration running_agent);
    [|reflexivity].
  eapply rtc_l.
  { eapply (as_task _ _ _ _ good_env TStartNats). reflexivity. }
  eapply rtc_l; [|apply rtc_refl].
  eapply (as_task _ _ _ _ good_env TStartTransport). reflexivity.
Defined.

Lemma config_keeps_stopped_witness :
  let a := stopTransport running_agent in
  ∃ a', config join_builder join_builder sample_load sample_hash good_env "" a = Ret (a', None) ∧
    cf_Enabled (ag_cfg a') = true ∧ IsStartedDispatcher (ag_nats a') = false.
Proof.
  eexists. split; [reflexivity|]. split; [reflexivity|].
  apply (config_keeps_stopped join_builder join_builder sample_load sample_hash good_env ""
    (stopTransport running_agent) _ sample_configuration None); reflexivity.
Defined.

Lemma config_rejected_witness :
  ∃ a', config join_builder join_builder sample_load sample_hash good_env "{" running_agent =
    Ret (a', Some (Opaque "invalid character")) ∧ IsStartedDispatcher (ag_nats a') = false.
Proof.
  destruct (config_rejected join_builder join_builder sample_load sample_hash good_env "{" running_agent
    (Opaque "invalid character") eq_refl) as (a' & H1 & H2 & _).
  exists a'. by split.
Defined.

Lemma resetNats_restores_witness :
  ∃ a', resetNats good_env running_agent = Ret a' ∧ ag_wipes a' = 1%nat.
Proof.
  destruct (resetNats_restores good_env running_agent) as (a' & H1 & H2 & _);
    [reflexivity|reflexivity|discriminate|reflexivity|discriminate|reflexivity..|].
  exists a'. split; [exact H1|exact H2].
Defined.

#[local] Instance join_builder_total : BatchBuilderTotal join_builder.
Proof. intros l limit _. reflexivity. Qed.

(** An agent with an event in its buffer. *)
Definition busy_agent : agent :=
  set_batchers running_agent (mkBatcher ["{}"] 2 1024 (period 0)) (mkBatcher [] 0 1024 (period 0)) [].


(** The last batch goes to the publisher only if the goroutine is in time: after the server
    was stopped it is handed on, and not sent. *)
Example late_batch_unsent :
  let flushed ft := match exit join_builder join_builder ft HReturns busy_agent with
                    | Ret (Exited a) => ag_flushed a | _ => [] end in
  flushed (mkFlushTimes 2 2) = [("{}", true)] ∧ flushed (mkFlushTimes 3 3) = [("{}", false)] ∧ flushed (mkFlushTimes 9 9) = [].
Proof. vm_compute. split_and!; reflexivity. Qed.
