(* ===== verification/Demand.v ===== *)
(** services/agent.go, DemandConfig: the agent asks the configuration server for its
    configuration, again and again until it answers.

    The clock is the number of seconds slept. *)

From S2P Require Import Prelude.
From S2P Require Import GoString.
From S2P Require Import Errors.
From S2P Require Import Transit.
From S2P Require Import Http.
From S2P Require Import Tracer.
From S2P Require Import Clients.
From S2P Require Import Agent.

Local Open Scope string_scope.
Local Open Scope Z_scope.

(** ** The loop *)

(** Why the loop ends: the server has taken the request, or does not know the agent. *)
Inductive loop_end := Connected | NotConfigured.

(** What a reload's error means to the loop, [None] for another try. *)
Definition verdict (err : option error) : option loop_end :=
  match err with
  | None => Some Connected
  | Some e => if Is e (tgt ErrNotFound) then Some NotConfigured else None
  end.

Section loop.
Context {W : Type} (reload : W → W * option error).

Fixpoint reload_loop (fuel : nat) (i : Z) (w : W) (slept : Z) : option (W * Z * loop_end) :=
  match fuel with
  | O => None
  | S fuel =>
      let '(w, err) := reload w in
      match verdict err with
      | Some e => Some (w, slept, e)
      | None => reload_loop fuel (int64 (i + 1)) w (slept + demandConfigBackoff i)
      end
  end.

(** The world after so many reloads, and the answer to the next one. *)
Fixpoint world_after (n : nat) (w : W) : W := match n with O => w | S n => world_after n (reload w).1 end.
Definition answer (n : nat) (w : W) : option error := (reload (world_after n w)).2.
End loop.

Section demand.
Context `{MapOrder} {W : Type} {T : Transport W} (windows : bool) (url_String : string → string → string → string).

(** [DemandConfig]: the error of the controller, or the loop that is started, if the
    agent has an identity and knows a server. *)
Definition DemandConfig (started : option error) (hostName agentID : string)
  : result error (option (W → W * option error)) :=
  match started with
  | Some e => Fail e
  | None =>
      if negb (isConfiguredAgentID agentID) || bool_decide (slen hostName = 0) then Val None
      else Val (Some (λ w, Reload windows url_String w hostName agentID))
  end.
End demand.

(** ** Lemmas *)

Lemma demandConfigBackoff_range i : 0 ≤ i → 5 ≤ demandConfigBackoff i ≤ 20.
Proof. intros Hi. unfold demandConfigBackoff. pose proof (Z.rem_bound_pos i 4). lia. Qed.

(** The seconds between [n] requests, from the [i]-th: 5, 10, 15, 20, and again. *)
Fixpoint waits (i : Z) (n : nat) : Z := match n with O => 0 | S n => (i mod 4 + 1) * 5 + waits (i + 1) n end.

Lemma waits_range i n : 5 * Z.of_nat n ≤ waits i n ≤ 20 * Z.of_nat n.
Proof. revert i. induction n as [|n IH]; intros i; cbn [waits]; [lia|]. pose proof (IH (i + 1)). pose proof (Z.mod_pos_bound i 4). lia. Qed.

Section loop_lemmas.
Context {W : Type} (reload : W → W * option error).

Lemma reload_loop_from n fuel i w slept e :
  0 ≤ i → i + Z.of_nat n < 2 ^ 63 → (n < fuel)%nat →
  (∀ k, (k < n)%nat → verdict (answer reload k w) = None) → verdict (answer reload n w) = Some e →
  reload_loop reload fuel i w slept = Some (world_after reload (S n) w, slept + waits i n, e).
Proof using Type.
  revert fuel i w slept. induction n as [|n IH]; intros [|fuel] i w slept Hi Hb Hf Hno Hend; try lia; cbn [reload_loop].
  - unfold answer in Hend. cbn [world_after waits] in *. destruct (reload w) as [w' err]. cbn [fst snd] in *. rewrite Hend.
    by rewrite Z.add_0_r.
  - assert (verdict (reload w).2 = None) as H0 by (apply (Hno 0%nat); lia).
    assert (∀ k, answer reload (S k) w = answer reload k (reload w).1) as Hs by done.
    change (world_after reload (S (S n)) w) with (world_after reload (S n) (reload w).1).
    destruct (reload w) as [w' err]. cbn [fst snd] in *. rewrite H0.
    rewrite int64_id by (unfold in_int64; lia).
    rewrite (IH fuel (i + 1) w' (slept + demandConfigBackoff i)); [|lia|lia|lia| |by rewrite <-Hs].
    + cbn [waits]. rewrite Z.add_assoc. unfold demandConfigBackoff. by rewrite Z.rem_mod_nonneg by lia.
    + intros k Hk. rewrite <-Hs. apply Hno. lia.
Qed.

Lemma reload_loop_deep fuel i w slept :
  (∀ k, (k < fuel)%nat → verdict (answer reload k w) = None) → reload_loop reload fuel i w slept = None.
Proof using Type.
  revert i w slept. induction fuel as [|fuel IH]; intros i w slept Hno; [done|]. cbn [reload_loop].
  assert (verdict (reload w).2 = None) as H0 by (apply (Hno 0%nat); lia).
  assert (∀ k, answer reload (S k) w = answer reload k (reload w).1) as Hs by done.
  destruct (reload w) as [w' err]. cbn [fst snd] in *. rewrite H0. apply IH. intros k Hk. rewrite <-Hs. apply Hno. lia.
Qed.
End loop_lemmas.

(** ** Properties *)

(** C21: The agent asks until it is answered, when the [n] requests before got errors other
    than that the server does not know the agent.  If the next one succeeds the loop ends as
    connected; if the server does not know the agent it ends and waits for a pushed
    configuration; with any other error it goes on.  Between the requests it sleeps 5, 10, 15
    and 20 seconds, and from the start again. *)
Theorem demand_answered {W : Type} (reload : W → W * option error) (w : W) (n : nat) :
  Z.of_nat n < 2 ^ 63 →
  (∀ k, (k < n)%nat → ∃ e, answer reload k w = Some e ∧ Is e (tgt ErrNotFound) = false) →
  5 * Z.of_nat n ≤ waits 0 n ≤ 20 * Z.of_nat n ∧
  match answer reload n w with
  | None => ∀ fuel, (n < fuel)%nat →
      reload_loop reload fuel 0 w 0 = Some (world_after reload (S n) w, waits 0 n, Connected)
  | Some e =>
      if Is e (tgt ErrNotFound) then ∀ fuel, (n < fuel)%nat →
        reload_loop reload fuel 0 w 0 = Some (world_after reload (S n) w, waits 0 n, NotConfigured)
      else ∀ fuel, (fuel ≤ S n)%nat → reload_loop reload fuel 0 w 0 = None
  end.
Proof.
  intros Hb Hno. split; [apply waits_range|].
  assert (∀ k, (k < n)%nat → verdict (answer reload k w) = None) as Hv.
  { intros k Hk. destruct (Hno k Hk) as (e & -> & He). unfold verdict. by rewrite He. }
  assert (∀ e fuel, verdict (answer reload n w) = Some e → (n < fuel)%nat →
    reload_loop reload fuel 0 w 0 = Some (world_after reload (S n) w, waits 0 n, e)) as Hend.
  { intros e fuel He Hf. by apply (reload_loop_from reload n fuel 0 w 0 e). }
  destruct (answer reload n w) as [e|] eqn:Ha; [destruct (Is e (tgt ErrNotFound)) eqn:He|]; intros fuel Hf.
  - apply Hend; [unfold verdict; by rewrite He|done].
  - apply reload_loop_deep. intros k Hk. destruct (decide (k = n)) as [->|]; [rewrite Ha; unfold verdict; by rewrite He|apply Hv; lia].
  - by apply Hend.
Qed.

(** A server that comes up with the third request: a world that counts the requests. *)
Definition sample_reload (w : nat) : nat * option error :=
  (S w, if decide (w < 2)%nat then Some (Opaque "connection refused") else None).

Lemma demand_answered_witness : reload_loop sample_reload 3 0 0%nat 0 = Some (3%nat, waits 0 2, Connected) ∧ waits 0 2 = 15.
Proof.
  split; [|reflexivity]. apply (demand_answered sample_reload 0%nat 2).
  - reflexivity.
  - intros [|[|k]] Hk; [by eexists|by eexists|lia].
  - lia.
Defined.

(** The two waits are of 5 and 10 seconds. *)
Example sample_slept : reload_loop sample_reload 3 0 0%nat 0 = Some (3%nat, 15, Connected).
Proof. reflexivity. Qed.

(** An answer of 404 ends the loop, and one of 401 does not. *)
Example verdicts : verdict (Some (Errorf_w ErrNotFound "")) = Some NotConfigured ∧ verdict (Some (Errorf_w ErrUnauthorized "")) = None.
Proof. by vm_compute. Qed.
