(* ===== verification/Expr.v ===== *)
(** connectors/groundworkFunctions.go: the Groundwork functions on floats and the
    evaluation of expressions of synthetic metrics, such as
    [GW:max(GW:KB(total.mem),1 + used)].

    The evaluator rewrites the text: it evaluates the last call, stores the value
    as a variable [res_N] of the map it was given and replaces the call by that
    name.  Arithmetic is left to the package gval, a parameter.  Calls nest with
    the text, so the recursion takes fuel; [RDeep] is the run that needs more, and
    a run that needs more than any fuel never returns. *)

From S2P Require Import Prelude GoString GoFloat Timestamp Errors.

Local Open Scope string_scope.

(** ** Functions *)

(** [values[i]] *)
Definition arg (values : list float64) (i : nat) : outcome float64 :=
  match values !! i with Some x => Ret x | None => Panic "index out of range" end.

Definition scale_down (d : Z) (values : list float64) : outcome float64 :=
  bytes ← arg values 0; Ret (f_div bytes (f_of_Z d)).

Definition MB : list float64 → outcome float64 := scale_down 1048576.
Definition KB : list float64 → outcome float64 := scale_down 1024.
Definition GB : list float64 → outcome float64 := scale_down 1073741824.
Definition TB : list float64 → outcome float64 := scale_down 1099511627776.
Definition MB2 : list float64 → outcome float64 := scale_down 1000000.
Definition KB2 : list float64 → outcome float64 := scale_down 1000.
Definition GB2 : list float64 → outcome float64 := scale_down 1000000000.
Definition TB2 : list float64 → outcome float64 := scale_down 1000000000000.

Definition f_max (a b : float64) : float64 := if f_lt b a then a else b.
Definition f_min (a b : float64) : float64 := if f_lt a b then a else b.

Definition MaxFloat (values : list float64) : outcome float64 :=
  a ← arg values 0; b ← arg values 1; Ret (f_max a b).
Definition MinFloat (values : list float64) : outcome float64 :=
  a ← arg values 0; b ← arg values 1; Ret (f_min a b).
Definition MaxInt : list float64 → outcome float64 := MaxFloat.
Definition MinInt : list float64 → outcome float64 := MinFloat.

Definition IntToDouble (values : list float64) : outcome float64 := arg values 0.

(** [int(x)]: the value of amd64 where the number is not an [int]. *)
Definition f_int (x : float64) : Z :=
  match f_trunc x with
  | Some z => if decide (in_int64 z) then z else (- 2 ^ 63)%Z
  | None => (- 2 ^ 63)%Z
  end.

Definition DoubleToInt (values : list float64) : outcome float64 :=
  x ← arg values 0; Ret (f_of_Z (f_int x)).

Definition f_049 : float64 := f_ratio 49 100.
Definition f_100 : float64 := f_of_Z 100.
Definition f_one : float64 := f_of_Z 1.

Definition percentage (value : float64) : float64 :=
  f_add (f_max f_zero (f_mul value f_100)) f_049.

Definition ToPercentage (values : list float64) : outcome float64 :=
  value ← arg values 0; Ret (percentage value).

Definition ToPercentageLimit (values : list float64) : outcome float64 :=
  value ← arg values 0;
  Ret (f_add (f_max f_zero (f_min f_100 (f_mul value f_100))) f_049).

Definition DivideToPercentage (values : list float64) : outcome float64 :=
  dividend ← arg values 0;
  divisor ← arg values 1;
  if f_eq divisor f_zero then Ret f_zero else Ret (percentage (f_div dividend divisor)).

(** The ratio shared by the two scaling functions. *)
Definition scaled_ratio (used available usedScaleFactor availableScaleFactor : float64) : float64 :=
  let usage := if f_eq usedScaleFactor f_zero then used else f_mul used usedScaleFactor in
  let availableScaled :=
    if f_eq availableScaleFactor f_zero then available else f_mul available availableScaleFactor in
  if f_eq usage f_zero then usage else f_div usage availableScaled.

Definition ScalePercentageUsed (values : list float64) : outcome float64 :=
  used ← arg values 0;
  available ← arg values 1;
  usedScaleFactor ← arg values 2;
  availableScaleFactor ← arg values 3;
  if f_eq used f_zero && f_eq available f_zero then Ret f_zero
  else Ret (percentage (scaled_ratio used available usedScaleFactor availableScaleFactor)).

Definition ScalePercentageUnused (values : list float64) : outcome float64 :=
  unused ← arg values 0;
  available ← arg values 1;
  usageScaleFactor ← arg values 2;
  availableScaleFactor ← arg values 3;
  if f_eq unused f_zero && f_eq available f_zero then Ret f_zero
  else Ret (percentage
              (f_sub f_one (scaled_ratio unused available usageScaleFactor availableScaleFactor))).

Definition PercentageUsed (values : list float64) : outcome float64 :=
  used ← arg values 0;
  available ← arg values 1;
  ScalePercentageUsed [used; available; f_one; f_zero].

Definition PercentageUnused (values : list float64) : outcome float64 :=
  demand ← arg values 0;
  usage ← arg values 1;
  ScalePercentageUnused [demand; usage; f_one; f_zero].

(** [expressionToFuncMap] with [expressionToArgsCountMap]: the two maps have the
    same keys. *)
Definition gw_functions : list (string * ((list float64 → outcome float64) * nat)) :=
  [("GW:KB", (KB, 1)); ("GW:MB", (MB, 1)); ("GW:GB", (GB, 1)); ("GW:TB", (TB, 1));
   ("GW:KB2", (KB2, 1)); ("GW:MB2", (MB2, 1)); ("GW:GB2", (GB2, 1)); ("GW:TB2", (TB2, 1));
   ("GW:maxInt", (MaxInt, 2)); ("GW:minInt", (MinInt, 2));
   ("GW:maxDouble", (MaxFloat, 2)); ("GW:minDouble", (MinFloat, 2));
   ("GW:toDouble", (IntToDouble, 1)); ("GW:toInt", (DoubleToInt, 1));
   ("GW:toPercentage", (ToPercentage, 1)); ("GW:percentageUsed", (PercentageUsed, 2));
   ("GW:percentageUnused", (PercentageUnused, 2));
   ("GW:toPercentageLimit", (ToPercentageLimit, 1));
   ("GW:divideToPercentage", (DivideToPercentage, 2));
   ("GW:scalePercentageUsed", (ScalePercentageUsed, 4));
   ("GW:scalePercentageUnused", (ScalePercentageUnused, 4))]%nat.

Definition gw_function (name : string) : option ((list float64 → outcome float64) * nat) :=
  snd <$> head (filter (λ p, p.1 = name) gw_functions).

(** ** Text *)

(** [\w] *)
Definition is_word (c : ascii) : bool :=
  byte_in 48 57 c || byte_in 65 90 c || byte_in 97 122 c || byte_in 95 95 c.

Definition is_paren (c : ascii) : bool := bool_decide (c = "("%char) || bool_decide (c = ")"%char).

(** [[^\(\)]*\)$] *)
Fixpoint args_end (s : string) : bool :=
  match s with
  | "" => false
  | String c s' => if is_paren c then bool_decide (String c s' = ")") else args_end s'
  end.

(** [\w*\([^\(\)]+\)$]; [seen] when a word byte came before. *)
Fixpoint word_args (seen : bool) (s : string) : bool :=
  match s with
  | "" => false
  | String c s' =>
      if is_word c then word_args true s'
      else seen && bool_decide (c = "("%char) &&
           match s' with "" => false | String d s'' => negb (is_paren d) && args_end s'' end
  end.

(** The pattern [^GW:\w+\([^\(\)]+\)$]. *)
Definition is_call (s : string) : bool := HasPrefix s "GW:" && word_args false (str_drop 3 s).

(** [strings.Index] and [strings.LastIndex] as the [int] the code computes with. *)
Definition idx (i : option nat) : Z := match i with Some n => Z.of_nat n | None => (-1)%Z end.

(** [strings.ReplaceAll] for any pattern: the empty one is found before every rune
    and at the end. *)
Fixpoint insert_go (skip : nat) (s new : string) : string :=
  match s with
  | "" => new
  | String c s' =>
      match skip with
      | S k => String c (insert_go k s' new)
      | 0%nat => new +:+ String c (insert_go (pred (rune_size s)) s' new)
      end
  end.

Definition ReplaceAll_any (s old new : string) : string :=
  if decide (old = "") then insert_go 0 s new else ReplaceAll s old new.

Definition underscored (name : string) : string := ReplaceAll name "." "_".

(** ** Runs *)

(** A computation that recursed deeper than its fuel is [RDeep]. *)
Inductive run (A : Type) : Type :=
| RRet (a : A)
| RPanic (why : string)
| RDeep.
Arguments RRet {A} _.
Arguments RPanic {A} _.
Arguments RDeep {A}.

#[export] Instance run_ret : MRet run := @RRet.
#[export] Instance run_bind : MBind run := λ A B f m,
  match m with RRet a => f a | RPanic w => RPanic w | RDeep => RDeep end.

Definition lift_o {A} (m : outcome A) : run A :=
  match m with Ret a => RRet a | Panic w => RPanic w end.

(** A value of the map [vars]: a [float64], or the pointer of a typed value. *)
Inductive var :=
| VFloat (x : float64)
| VPointer (p : option float64).

Abbreviation Vars := (gmap string var).

(** What gval computes: a [float64] or a value of another type. *)
Inductive gval_value := GFloat (x : float64) | GOther.

Section eval.
Context (gval : string → Vars → result error gval_value).

(** The arguments of a call, or the one value of an expression without commas. *)
Fixpoint arguments (vars : Vars) (args : list string) : outcome (result error (list float64)) :=
  match args with
  | [] => Ret (Val [])
  | val :: args =>
      let val := TrimSpace val in
      let r : outcome (result error float64) :=
        if ContainsAny val "+-/*" then
          match gval (underscored val) vars with
          | Val (GFloat v) => Ret (Val v)
          | Val GOther => Panic "interface conversion: interface {} is not float64"
          | Fail e => Ret (Fail e)
          end
        else match vars !! underscored val with
          | Some (VFloat v) => Ret (Val v)
          | Some (VPointer _) => Panic "interface conversion: interface {} is *float64, not float64"
          | None => Ret (Fail (Opaque ("undefined variable " +:+ val)))
          end in
      r ← r;
      match r with
      | Fail e => Ret (Fail e)
      | Val v =>
          rest ← arguments vars args;
          Ret (vs ← rest; Val (v :: vs))
      end
  end.

Abbreviation evaluator :=
  (string → Vars → Z → run (Vars * result error (float64 * list float64))).

(** The loop that replaces the calls, the last one first; at most [n] rounds. *)
Fixpoint replace_calls (ev : evaluator) (n : nat) (expression : string) (vars : Vars)
    (argumentCounter : Z) : run (Vars * result error string) :=
  match LastIndex expression "GW:" with
  | None => RRet (vars, Val expression)
  | Some firstIndex =>
      match n with
      | O => RDeep
      | S n =>
          let lastIndex := idx (Index (str_drop firstIndex expression) ")") in
          newExp ← lift_o (str_slice expression (Z.of_nat firstIndex)
                             (Z.of_nat firstIndex + lastIndex + 1));
          '(vars, r) ← ev newExp vars argumentCounter;
          match r with
          | Fail e => RRet (vars, Fail e)
          | Val (v, _) =>
              let argumentToReplace := "res_" +:+ FormatInt argumentCounter in
              replace_calls ev n (ReplaceAll_any expression newExp argumentToReplace)
                (<[argumentToReplace := VFloat v]> vars) (argumentCounter + 1)%Z
          end
      end
  end.

(** How often the pattern of a call begins in a text. *)
Fixpoint count_calls (s : string) : nat :=
  match s with
  | "" => 0
  | String _ s' => ((if HasPrefix s "GW:" then 1 else 0) + count_calls s')%nat
  end.

Fixpoint EvaluateGroundworkExpression (fuel : nat) (expression : string) (vars : Vars)
    (argumentCounter : Z) : run (Vars * result error (float64 * list float64)) :=
  match fuel with
  | O => RDeep
  | S fuel =>
      let expression := TrimSpace expression in
      if is_call expression then
        gwFuncName ← lift_o (str_slice expression 0 (idx (Index expression "(")));
        exp ← lift_o (str_slice expression (idx (Index expression "(") + 1)
                        (idx (LastIndex expression ")")));
        match gw_function gwFuncName with
        | None => RRet (vars, Fail (Opaque ("groundwork function [" +:+ gwFuncName +:+ "] doesn't exist")))
        | Some (function, count) =>
            '(vars, r) ← EvaluateGroundworkExpression fuel exp vars argumentCounter;
            match r with
            | Fail e => RRet (vars, Fail e)
            | Val (_, values) =>
                if decide (length values = count) then
                  v ← lift_o (function values);
                  RRet (vars, Val (v, [v]))
                else RRet (vars, Fail (Opaque ("invalid arguments count for Groundwork function [" +:+
                                                gwFuncName +:+ "]")))
            end
        end
      else
        '(vars, r) ← replace_calls (EvaluateGroundworkExpression fuel) (count_calls expression)
                       expression vars argumentCounter;
        match r with
        | Fail e => RRet (vars, Fail e)
        | Val expression =>
            r ← lift_o (arguments vars (Split expression ","));
            match r with
            | Fail e => RRet (vars, Fail e)
            | Val values => v ← lift_o (arg values 0); RRet (vars, Val (v, values))
            end
        end
  end.
End eval.

(** ** Entry points *)

Record ExpressionParameter := mkParameter { ep_Name : string; ep_Value : float64 }.
Record ExpressionToEvaluate := mkExpression { ee_Expression : string; ee_Params : list ExpressionParameter }.
Record ExpressionToSuggest := mkSuggest { es_Name : string; es_ArgsCount : nat }.

(** [EvaluateExpression]; [processes] is the entry of [ProcessesCache], if any. *)
Definition expression_vars (processes : option (gmap string float64)) (expression : ExpressionToEvaluate)
    (override : bool) : result error Vars :=
  if negb override then
    match processes with
    | None => Fail (Opaque "processes cache not initialized ")
    | Some processes =>
        Val (foldl (λ vars param,
          match processes !! underscored (ep_Name param) with
          | Some val => <[underscored (ep_Name param) := VFloat val]> vars
          | None => vars
          end) ∅ (ee_Params expression))
    end
  else Val (foldl (λ vars param, <[underscored (ep_Name param) := VFloat (ep_Value param)]> vars)
             ∅ (ee_Params expression)).

Definition EvaluateExpression (gval : string → Vars → result error gval_value) (fuel : nat)
    (processes : option (gmap string float64)) (expression : ExpressionToEvaluate)
    (override : bool) : run (result error float64) :=
  match expression_vars processes expression override with
  | Fail e => RRet (Fail e)
  | Val vars =>
      if decide (size vars ≠ length (ee_Params expression)) then
        RRet (Fail (Opaque "not enough expression parameters "))
      else
        '(_, r) ← EvaluateGroundworkExpression gval fuel (ee_Expression expression) vars 0;
        RRet ('(v, _) ← r; Val v)
  end.

(** [ListExpressions]: the functions whose name contains the text. *)
Definition expressionToArgsCountMap : gmap string nat :=
  list_to_map ((λ p, (p.1, p.2.2)) <$> gw_functions).

Definition ListExpressions `{MapOrder} (name : string) : list ExpressionToSuggest :=
  (λ p, mkSuggest p.1 p.2) <$> filter (λ p, Contains p.1 name = true) (map_order expressionToArgsCountMap).

(** ** Depth of the recursion *)

Section depth.
Context (gval : string → Vars → result error gval_value).
#[local] Abbreviation Evaluate := (EvaluateGroundworkExpression gval).

(** A text from the last [GW:] of a text to the next parenthesis. *)
Definition piece (x : string) : Prop :=
  x = "" ∨ ∃ m, x = "GW:" +:+ m +:+ ")" ∧ no_byte ")" m = true ∧ LastIndex x "GW:" = Some 0%nat.

(** A piece that the pattern of a call refuses, such as [GW:KB()]. *)
Definition bad_call (x : string) : Prop :=
  (∃ m, x = "GW:" +:+ m +:+ ")" ∧ no_byte ")" m = true) ∧ LastIndex x "GW:" = Some 0%nat ∧ is_call x = false.

(** The piece the loop evaluates next. *)
Definition last_call (s : string) : option (outcome string) :=
  (λ firstIndex, str_slice s (Z.of_nat firstIndex)
      (Z.of_nat firstIndex + idx (Index (str_drop firstIndex s) ")") + 1)) <$> LastIndex s "GW:".

Lemma Index_byte s c : Index s (String c "") = None ↔ no_byte c s = true.
Proof.
  induction s as [|d s IH]; [done|]. cbn [Index String.prefix no_byte str_forallb].
  destruct (Ascii.ascii_dec c d) as [->|Hn].
  - rewrite bool_decide_eq_true_2 by done. by destruct s.
  - rewrite bool_decide_eq_false_2 by done. rewrite fmap_None, IH. done.
Qed.

Lemma Index_byte_app c s t :
  no_byte c s = true → Index (s +:+ String c t) (String c "") = Some (String.length s).
Proof.
  induction s as [|d s IH]; cbn [no_byte str_forallb String.append Index String.prefix].
  - intros _. destruct (Ascii.ascii_dec c c); [|done]. by destruct t.
  - intros [Hd%negb_true_iff%bool_decide_eq_false Hs]%andb_true_iff.
    destruct (Ascii.ascii_dec c d); [done|]. by rewrite IH.
Qed.

(** A byte that occurs splits the text at its first occurrence. *)
Lemma Index_byte_split c s i :
  Index s (String c "") = Some i → ∃ l r, s = l +:+ String c r ∧ no_byte c l = true ∧ String.length l = i.
Proof.
  revert i. induction s as [|d s IH]; intros i; cbn [Index String.prefix]; [done|].
  destruct (Ascii.ascii_dec c d) as [<-|Hn].
  - intros Hi. assert (i = 0%nat) as -> by (destruct s; simpl in Hi; congruence). by exists "", s.
  - intros (j & Hj & ->)%fmap_Some. destruct (IH j Hj) as (l & r & -> & Hl & <-).
    exists (String d l), r. split_and!; [done| |done].
    cbn [no_byte str_forallb]. by rewrite bool_decide_eq_false_2.
Qed.

(** The last occurrence: the rest has no other. *)
Lemma LastIndex_drop s sub i :
  LastIndex s sub = Some i → LastIndex (str_drop i s) sub = Some 0%nat.
Proof.
  revert i. induction s as [|c s IH]; intros i Hi.
  - cbn [LastIndex] in Hi. destruct (String.prefix sub "") eqn:Hp; [|done].
    injection Hi as <-. cbn [str_drop LastIndex]. by rewrite Hp.
  - cbn [LastIndex] in Hi. destruct (LastIndex s sub) as [j|] eqn:Hj.
    + injection Hi as <-. by apply IH.
    + destruct (String.prefix sub (String c s)) eqn:Hp; [|done]. injection Hi as <-.
      cbn [str_drop LastIndex]. by rewrite Hj, Hp.
Qed.

Lemma str_slice_app l m r i j :
  i = Z.of_nat (String.length l) → j = (i + Z.of_nat (String.length m))%Z →
  str_slice (l +:+ m +:+ r) i j = Ret m.
Proof.
  intros -> ->. unfold str_slice. rewrite !length_str_app, decide_True by lia.
  rewrite Nat2Z.id, str_drop_app.
  replace (Z.to_nat _) with (String.length m) by lia. by rewrite str_take_app.
Qed.

(** The next piece: it is cut without a panic, and has the shape of a piece. *)
Lemma last_call_piece s i :
  LastIndex s "GW:" = Some i →
  ∃ x, str_slice s (Z.of_nat i) (Z.of_nat i + idx (Index (str_drop i s) ")") + 1) = Ret x ∧ piece x ∧
       (x = "" ∨ ∃ l r, s = l +:+ x +:+ r).
Proof.
  intros Hi. pose proof (LastIndex_drop _ _ _ Hi) as Hd.
  destruct (LastIndex_Some _ _ _ Hi) as (l & r & -> & <-). rewrite str_drop_app in *.
  destruct (Index ("GW:" +:+ r) ")") as [j|] eqn:Hj; cbn [idx].
  - apply Index_byte_split in Hj as (m & r' & Hr & Hm & <-).
    destruct m as [|c1 [|c2 [|c3 m]]]; try done.
    injection Hr as <- <- <- ->. set (x := "GW:" +:+ m +:+ ")").
    assert (l +:+ "GW:" +:+ m +:+ String ")" r' = l +:+ x +:+ r') as ->.
    { unfold x. cbn [String.append]. by rewrite str_app_assoc. }
    exists x. rewrite (str_slice_app l x r'); [|done|].
    2: { unfold x. rewrite !length_str_app. cbn [String.length]. rewrite ?length_str_app. simpl. lia. }
    split_and!; [done| |right; eauto]. right. exists m. split_and!; [done|done|].
    assert ("GW:" +:+ m +:+ String ")" r' = x +:+ r') as Hx.
    { unfold x. cbn [String.append]. by rewrite str_app_assoc. }
    rewrite Hx in Hd. destruct (LastIndex x "GW:") as [k|] eqn:Hk.
    + f_equal. destruct (LastIndex_Some _ _ _ Hk) as (l1 & r1 & Hx1 & <-).
      destruct l1 as [|d l1]; [done|]. exfalso. clear -Hd Hx1.
      rewrite Hx1, !str_app_assoc in Hd. cbn [String.append LastIndex] in Hd.
      destruct (LastIndex (l1 +:+ _) "GW:") eqn:Hl; [discriminate Hd|].
      apply LastIndex_None in Hl. rewrite Index_None in Hl.
      exact (Hl l1 (r1 +:+ r') eq_refl).
    + exfalso. apply LastIndex_None in Hk. rewrite Index_None in Hk. by destruct (Hk "" (m +:+ ")")).
  - exists "". split_and!; [|by left|by left].
    replace (_ + -1 + 1)%Z with (Z.of_nat (String.length l)) by lia.
    change (l +:+ "GW:" +:+ r) with (l +:+ "" +:+ "GW:" +:+ r).
    rewrite (str_slice_app l "" ("GW:" +:+ r)); [done|done|simpl; lia].
Qed.

(** The rounds of the loop depend on the evaluator at pieces only. *)
Lemma replace_calls_ext ev ev' n s vars c :
  (∀ x vars c, piece x → ev x vars c = ev' x vars c) →
  replace_calls ev n s vars c = replace_calls ev' n s vars c.
Proof.
  intros He. revert s vars c. induction n as [|n IH]; intros s vars c; cbn [replace_calls];
    destruct (LastIndex s "GW:") as [i|] eqn:Hi; try done.
  destruct (last_call_piece s i Hi) as (x & -> & Hx & _). cbn.
  rewrite He by done. destruct (ev' x vars c) as [[vars' [[v vs]|e]]|w|]; cbn; [|done|done|done].
  apply IH.
Qed.

Lemma Evaluate_empty n vars c : Evaluate (S n) "" vars c = Evaluate 1 "" vars c.
Proof. done. Qed.

(** *** The loop ends: each round removes a call *)

(** A text without the bytes of [GW:]. *)
Definition neutral (c : ascii) : bool :=
  negb (bool_decide (c = "G"%char) || bool_decide (c = "W"%char) || bool_decide (c = ":"%char)).
Definition neutral_name (s : string) : Prop := s ≠ "" ∧ str_forallb neutral s = true.

Lemma neutral_spec c : neutral c = true → c ≠ "G"%char ∧ c ≠ "W"%char ∧ c ≠ ":"%char.
Proof. unfold neutral. repeat case_bool_decide; naive_solver. Qed.

Lemma res_name_neutral k : neutral_name ("res_" +:+ FormatInt k).
Proof.
  split; [done|]. cbn [String.append str_forallb]. cbn.
  eapply str_forallb_impl; [|apply FormatInt_chars].
  intros c. cbn. rewrite orb_true_iff. unfold neutral, is_digit, minus_sign.
  intros [Hd%bool_decide_eq_true|Hd%bool_decide_eq_true].
  - repeat case_bool_decide; subst; first [done | exfalso; revert Hd; vm_compute; lia].
  - by subst.
Qed.

Lemma count_calls_app u t : (count_calls t ≤ count_calls (u +:+ t))%nat.
Proof.
  induction u as [|c u IH]; [done|]. cbn [String.append count_calls].
  destruct (HasPrefix _ _); lia.
Qed.

Lemma HasPrefix_call c s : HasPrefix (String c s) "GW:" = true → c = "G"%char.
Proof.
  unfold HasPrefix. cbn [String.prefix].
  destruct (Ascii.ascii_dec "G" c); [by intros _|done].
Qed.

Lemma count_calls_neutral new t :
  str_forallb neutral new = true → count_calls (new +:+ t) = count_calls t.
Proof.
  induction new as [|c new IH]; [done|]. cbn [str_forallb String.append count_calls].
  intros [Hc Hn]%andb_true_iff. rewrite IH by done.
  destruct (HasPrefix _ "GW:") eqn:Hp; [|done]. apply HasPrefix_call in Hp as ->. done.
Qed.

Lemma count_calls_zero s : count_calls s = 0%nat ↔ LastIndex s "GW:" = None.
Proof.
  rewrite LastIndex_None. induction s as [|c s IH]; [done|]. cbn [count_calls Index].
  unfold HasPrefix. destruct (String.prefix "GW:" (String c s)); cbn [Nat.add]; [done|].
  rewrite IH, fmap_None. done.
Qed.

(** A byte of a replaced text that is not of the new text was there before. *)
Lemma replace_head old new s d r :
  neutral_name new → neutral d = false → ReplaceAll s old new = String d r →
  ∃ s', s = String d s' ∧ r = ReplaceAll s' old new.
Proof.
  unfold ReplaceAll. intros [Hne Hn] Hd. destruct s as [|c s]; [done|]. cbn [replace_go].
  destruct (String.prefix old (String c s)).
  - destruct new as [|e new]; [done|]. intros [= -> _]. cbn [str_forallb] in Hn. by rewrite Hd in Hn.
  - intros [= -> <-]. eauto.
Qed.

Lemma HasPrefix_replace old new c s :
  neutral_name new → HasPrefix (String c (ReplaceAll s old new)) "GW:" = true →
  HasPrefix (String c s) "GW:" = true.
Proof.
  unfold HasPrefix. intros Hn [t Ht]%prefix_spec. injection Ht as -> Ht.
  apply replace_head in Ht as (s1 & -> & Ht); [|done|done]. symmetry in Ht.
  apply replace_head in Ht as (s2 & -> & ->); [|done|done].
  apply (prefix_app "GW:" s2).
Qed.

Lemma count_calls_ReplaceAll o new s :
  neutral_name new →
  (count_calls (ReplaceAll s ("GW:" +:+ o) new) ≤ count_calls s)%nat ∧
  (Contains s ("GW:" +:+ o) = true → (count_calls (ReplaceAll s ("GW:" +:+ o) new) < count_calls s)%nat).
Proof.
  intros Hn. set (old := "GW:" +:+ o). remember (String.length s) as n eqn:Hlen.
  assert (String.length s ≤ n)%nat as Hle by lia. clear Hlen. revert s Hle.
  induction n as [|n IH]; intros s Hle.
  { destruct s; [|simpl in Hle; lia]. split; [done|].
    intros (l & r & Hs)%Contains_spec. unfold old in Hs. by destruct l. }
  destruct (String.prefix old s) eqn:Hp.
  - apply prefix_spec in Hp as [t ->]. rewrite ReplaceAll_prefix by done.
    rewrite count_calls_neutral by apply Hn.
    destruct (IH t) as [Ht _]. { unfold old in Hle. simpl in Hle. rewrite length_str_app in Hle. lia. }
    assert (1 + count_calls t ≤ count_calls (old +:+ t))%nat; [|lia].
    unfold old. cbn [String.append].
    change (String "G" (String "W" (String ":" (o +:+ t)))) with ("G" +:+ ("W:" +:+ o) +:+ t).
    cbn [count_calls String.append]. unfold HasPrefix.
    change (String "G" (String "W" (String ":" (o +:+ t)))) with ("GW:" +:+ (o +:+ t)).
    rewrite prefix_app. pose proof (count_calls_app o t). lia.
  - destruct s as [|c s].
    { split; [done|]. intros (l & r & Hs)%Contains_spec. unfold old in Hs. by destruct l. }
    unfold ReplaceAll. cbn [replace_go]. rewrite Hp. fold (ReplaceAll s old new).
    destruct (IH s) as [IH1 IH2]. { simpl in Hle. lia. }
    cbn [count_calls].
    assert ((if HasPrefix (String c (ReplaceAll s old new)) "GW:" then 1 else 0) ≤
            (if HasPrefix (String c s) "GW:" then 1 else 0))%nat.
    { destruct (HasPrefix (String c (ReplaceAll s old new)) "GW:") eqn:Hc; [|lia].
      by rewrite (HasPrefix_replace _ _ _ _ Hn Hc). }
    split; [lia|]. intros (l & r & Hs)%Contains_spec.
    destruct l as [|d l].
    { rewrite Hs in Hp. cbn [String.append] in Hp. by rewrite prefix_app in Hp. }
    injection Hs as -> ->. enough (Contains (l +:+ old +:+ r) old = true) as Hc by (specialize (IH2 Hc); lia).
    apply Contains_spec. eauto.
Qed.

Lemma byte_in_neutral lo hi c : (128 ≤ lo)%nat → byte_in lo hi c = true → neutral c = true.
Proof.
  unfold byte_in, neutral. intros Hlo Hb%bool_decide_eq_true.
  assert (128 ≤ Ascii.nat_of_ascii c)%nat as Hc by lia. clear Hlo Hb.
  repeat case_bool_decide; subst; first [done | exfalso; revert Hc; vm_compute; lia].
Qed.

(** The bytes after the first of a rune are above 127. *)
Lemma rune_size_tail c s :
  str_forallb neutral (str_take (pred (rune_size (String c s))) s) = true.
Proof.
  cbn [rune_size]. destruct (byte_in 0 127 c); [by destruct s|].
  destruct s as [|b s]; [done|].
  set (second := if byte_in 224 224 c then _ else _).
  assert (second = true → neutral b = true) as Hb.
  { unfold second. repeat case_match; apply byte_in_neutral; lia. }
  destruct (byte_in 194 223 c).
  { destruct second; [|done]. cbn. rewrite Hb by done. by destruct s. }
  destruct s as [|d s]; [done|].
  destruct (second && byte_in 128 191 d) eqn:H3.
  - apply andb_true_iff in H3 as [H2 H3]. apply byte_in_neutral in H3; [|lia].
    destruct (byte_in 224 239 c).
    { cbn. rewrite Hb, H3 by done. by destruct s. }
    destruct s as [|e s]; [done|].
    destruct (byte_in 128 191 e) eqn:He.
    + apply byte_in_neutral in He; [|lia].
      destruct (byte_in 240 244 c); [|done]. cbn. rewrite Hb, H3, He by done. by destruct s.
    + by rewrite andb_false_r.
  - destruct (byte_in 224 239 c); [done|]. destruct s; [done|]. by rewrite andb_false_r.
Qed.

Lemma insert_go_head new s : neutral_name new → ∃ d r, insert_go 0 s new = String d r ∧ neutral d = true.
Proof.
  intros [Hne Hn]. destruct new as [|d new]; [done|]. cbn in Hn.
  apply andb_true_iff in Hn as [Hd _]. destruct s; cbn; eauto.
Qed.

Lemma count_calls_insert new s k :
  neutral_name new → str_forallb neutral (str_take k s) = true → count_calls (insert_go k s new) = 0%nat.
Proof.
  intros Hn. assert (count_calls new = 0%nat) as H0.
  { rewrite <-(str_app_nil_r new). rewrite count_calls_neutral by apply Hn. done. }
  revert k. induction s as [|c s IH]; intros k Hk; [by destruct k|].
  destruct k as [|k]; cbn [insert_go].
  - rewrite count_calls_neutral by apply Hn. cbn [count_calls].
    rewrite IH by apply rune_size_tail.
    destruct (HasPrefix _ "GW:") eqn:Hp; [exfalso|done].
    pose proof (HasPrefix_call _ _ Hp) as ->.
    destruct (insert_go_head new s Hn) as (d & r & Hr & Hd).
    change (pred (rune_size (String "G" s))) with 0%nat in Hp. rewrite Hr in Hp.
    unfold HasPrefix in Hp. cbn [String.prefix] in Hp. apply neutral_spec in Hd as (_ & Hd & _).
    destruct (Ascii.ascii_dec "G" "G"), (Ascii.ascii_dec "W" d); congruence.
  - cbn [str_take str_forallb] in Hk. apply andb_true_iff in Hk as [Hc Hk].
    cbn [count_calls]. rewrite IH by done.
    destruct (HasPrefix _ "GW:") eqn:Hp; [|done]. by apply HasPrefix_call in Hp as ->.
Qed.

(** A round leaves fewer calls. *)
Lemma count_calls_round s i x new :
  LastIndex s "GW:" = Some i →
  str_slice s (Z.of_nat i) (Z.of_nat i + idx (Index (str_drop i s) ")") + 1) = Ret x →
  neutral_name new →
  (count_calls (ReplaceAll_any s x new) < count_calls s)%nat.
Proof.
  intros Hi Hx Hn. destruct (last_call_piece s i Hi) as (x' & Hx' & Hp & Hs).
  rewrite Hx in Hx'. injection Hx' as <-.
  assert (0 < count_calls s)%nat.
  { destruct (count_calls s) eqn:H0; [|lia]. apply count_calls_zero in H0. congruence. }
  unfold ReplaceAll_any. case_decide as Hd.
  - rewrite count_calls_insert; [done|done|by destruct s].
  - destruct Hp as [->|(m & -> & _)]; [done|].
    destruct Hs as [Hs|(l & r & Hs)]; [done|].
    apply count_calls_ReplaceAll; [done|]. apply Contains_spec. eauto.
Qed.

(** *** Fuel *)

(** A call: what is between the parentheses has none. *)
Lemma args_end_split s : args_end s = true → ∃ a, s = a +:+ ")" ∧ str_forallb (negb ∘ is_paren) a = true.
Proof.
  induction s as [|c s IH]; [done|]. cbn [args_end]. destruct (is_paren c) eqn:Hc.
  - intros ->%bool_decide_eq_true. by exists "".
  - intros (a & -> & Ha)%IH. exists (String c a). split; [done|]. cbn. by rewrite Hc.
Qed.

Lemma word_args_split b s :
  word_args b s = true →
  ∃ w a, s = w +:+ "(" +:+ a +:+ ")" ∧ str_forallb is_word w = true ∧ (b = true ∨ w ≠ "") ∧
         a ≠ "" ∧ str_forallb (negb ∘ is_paren) a = true.
Proof.
  revert b. induction s as [|c s IH]; intros b; [done|]. cbn [word_args].
  destruct (is_word c) eqn:Hc.
  - intros (w & a & -> & Hw & _ & Ha)%IH. exists (String c w), a. cbn. rewrite Hc.
    split_and!; try apply Ha; auto.
  - intros [[-> ->%bool_decide_eq_true]%andb_true_iff Hs]%andb_true_iff.
    destruct s as [|d s]; [done|]. apply andb_true_iff in Hs as [Hd Hs].
    apply args_end_split in Hs as (a & -> & Ha). exists "", (String d a). cbn. rewrite Hd.
    split_and!; auto.
Qed.

Lemma word_not_paren c : is_word c = true → is_paren c = false.
Proof.
  unfold is_word, is_paren, byte_in. intros Hc.
  apply orb_false_iff. split; apply bool_decide_eq_false; intros ->; revert Hc; by vm_compute.
Qed.

Lemma str_forallb_negb (f g : ascii → bool) s :
  (∀ c, f c = true → g c = false) → str_forallb f s = true → str_forallb (negb ∘ g) s = true.
Proof. intros H. apply str_forallb_impl. intros c Hc. cbn. by rewrite (H c Hc). Qed.

Lemma no_paren_byte s :
  str_forallb (negb ∘ is_paren) s = true → no_byte "(" s = true ∧ no_byte ")" s = true.
Proof.
  intros Hs. split; (eapply str_forallb_impl; [|exact Hs]); intros c; cbn; unfold is_paren;
    repeat case_bool_decide; subst; simpl; congruence.
Qed.

Lemma is_call_split s :
  is_call s = true →
  ∃ w a, s = "GW:" +:+ w +:+ "(" +:+ a +:+ ")" ∧ str_forallb is_word w = true ∧ w ≠ "" ∧ a ≠ "" ∧
         str_forallb (negb ∘ is_paren) a = true.
Proof.
  unfold is_call. intros [[t ->]%prefix_spec Hw]%andb_true_iff. cbn [str_drop String.append] in Hw.
  apply word_args_split in Hw as (w & a & -> & Hw & [|Hne] & Ha & Hp); [done|]. eauto 10.
Qed.

Lemma is_call_paren s : no_byte ")" s = true → is_call s = false.
Proof.
  intros Hn. destruct (is_call s) eqn:Hc; [|done].
  apply is_call_split in Hc as (w & a & -> & _). exfalso.
  rewrite !no_byte_app, !andb_true_iff in Hn. by destruct Hn as (_ & _ & _ & _ & ?).
Qed.

(** The name and the arguments the code cuts out of a call. *)
Lemma call_slices w a :
  str_forallb is_word w = true → str_forallb (negb ∘ is_paren) a = true →
  let s := "GW:" +:+ w +:+ "(" +:+ a +:+ ")" in
  str_slice s 0 (idx (Index s "(")) = Ret ("GW:" +:+ w) ∧
  str_slice s (idx (Index s "(") + 1) (idx (LastIndex s ")")) = Ret a.
Proof.
  intros Hw Ha s.
  assert (no_byte "(" ("GW:" +:+ w) = true) as Hn.
  { rewrite no_byte_app. cbn. apply no_paren_byte. by apply (str_forallb_negb _ _ _ word_not_paren). }
  assert (s = ("GW:" +:+ w) +:+ String "(" (a +:+ ")")) as Hs by (unfold s; by rewrite str_app_assoc).
  assert (Index s "(" = Some (3 + String.length w)%nat) as ->.
  { rewrite Hs, Index_byte_app by done. by rewrite length_str_app. }
  assert (LastIndex s ")" = Some (4 + String.length w + String.length a)%nat) as ->.
  { assert (s = ("GW:" +:+ w +:+ "(" +:+ a) +:+ String ")" "") as ->.
    { unfold s. by rewrite !str_app_assoc. }
    rewrite LastIndex_byte by done. rewrite !length_str_app. simpl. f_equal. lia. }
  cbn [idx]. split.
  - rewrite Hs. change (("GW:" +:+ w) +:+ ?t) with ("" +:+ ("GW:" +:+ w) +:+ t).
    apply str_slice_app; [done|]. rewrite length_str_app. simpl. lia.
  - assert (s = ("GW:" +:+ w +:+ "(") +:+ a +:+ ")") as ->.
    { unfold s. by rewrite !str_app_assoc. }
    apply str_slice_app; rewrite ?length_str_app; simpl; lia.
Qed.

Lemma lift_not_deep {A} (m : outcome A) : lift_o m ≠ RDeep.
Proof. by destruct m. Qed.

Lemma bind_not_deep {A B} (m : run A) (f : A → run B) :
  m ≠ RDeep → (∀ a, f a ≠ RDeep) → (m ≫= f) ≠ RDeep.
Proof. intros Hm Hf. destruct m; cbn; [apply Hf|done|done]. Qed.

Lemma Evaluate_empty_not_deep vars c : Evaluate 1 "" vars c ≠ RDeep.
Proof.
  cbn. destruct (vars !! _) as [[v|p]|]; cbn; done.
Qed.

(** A text without a closing parenthesis: a [GW:] in it is read as the variable
    with the empty name. *)
Lemma replace_calls_flat ev ev' k s vars c :
  no_byte ")" s = true →
  (∀ vars c, ev "" vars c = ev' "" vars c ∧ ev "" vars c ≠ RDeep) →
  replace_calls ev k s vars c = replace_calls ev' k s vars c ∧
  ((count_calls s ≤ k)%nat → replace_calls ev k s vars c ≠ RDeep).
Proof.
  intros Hn He. destruct k as [|k]; cbn [replace_calls].
  { destruct (LastIndex s "GW:") eqn:Hi; [|done]. split; [done|]. intros Hk.
    assert (count_calls s = 0%nat) as H0 by lia. apply count_calls_zero in H0. congruence. }
  destruct (LastIndex s "GW:") as [i|] eqn:Hi; [|done].
  destruct (last_call_piece s i Hi) as (x & Hx & Hp & Hs).
  assert (x = "") as ->.
  { destruct Hp as [|(m & -> & _)]; [done|]. exfalso.
    destruct Hs as [Hs|(l & r & ->)]; [done|].
    rewrite !no_byte_app, !andb_true_iff in Hn. by destruct Hn as (_ & (_ & _ & ?) & _). }
  rewrite Hx. cbn. destruct (He vars c) as [<- Hd].
  destruct (ev "" vars c) as [[vars' [[v vs]|e]]|w|]; cbn; [|done|done|done].
  assert (LastIndex (ReplaceAll_any s "" ("res_" +:+ FormatInt c)) "GW:" = None) as Hl.
  { apply count_calls_zero. unfold ReplaceAll_any. rewrite decide_True by done.
    apply count_calls_insert; [apply res_name_neutral|by destruct s]. }
  cbn [String.append] in Hl. destruct k; cbn [replace_calls]; by rewrite Hl.
Qed.

Lemma Evaluate_flat n s vars c :
  no_byte ")" (TrimSpace s) = true →
  Evaluate (2 + n) s vars c = Evaluate 2 s vars c ∧ Evaluate 2 s vars c ≠ RDeep.
Proof.
  intros Hn. cbn [Nat.add EvaluateGroundworkExpression]. rewrite is_call_paren by done.
  destruct (replace_calls_flat (Evaluate 1) (Evaluate (S n)) (count_calls (TrimSpace s))
              (TrimSpace s) vars c Hn) as [Heq Hd].
  { intros vars' c'. rewrite (Evaluate_empty n). split; [done|apply Evaluate_empty_not_deep]. }
  cbn [EvaluateGroundworkExpression] in Heq, Hd. rewrite <-Heq. split; [done|].
  apply bind_not_deep; [by apply Hd|]. intros [vars' [s'|e]]; [|done].
  apply bind_not_deep; [apply lift_not_deep|]. intros [values|e]; [|done].
  apply bind_not_deep; [apply lift_not_deep|done].
Qed.

Lemma Evaluate_call n s vars c :
  is_call (TrimSpace s) = true →
  Evaluate (3 + n) s vars c = Evaluate 3 s vars c ∧ Evaluate 3 s vars c ≠ RDeep.
Proof.
  intros Hc. pose proof (is_call_split _ Hc) as (w & a & Hs & Hw & _ & _ & Ha).
  destruct (call_slices w a Hw Ha) as [H1 H2]. rewrite <-Hs in H1, H2.
  change (3 + n)%nat with (S (2 + n)).
  change (Evaluate (S (2 + n)) s vars c) with (Evaluate (S (2 + n)) s vars c).
  cbn [EvaluateGroundworkExpression]. rewrite Hc, H1, H2. cbn [lift_o mbind run_bind].
  destruct (gw_function _) as [[f count]|]; [|done].
  destruct (Evaluate_flat n a vars c) as [Heq Hd].
  { apply TrimSpace_forallb. by apply no_paren_byte. }
  cbn [EvaluateGroundworkExpression Nat.add] in Heq, Hd |- *. rewrite Heq. split; [done|].
  apply bind_not_deep; [done|]. intros [vars' [[v values]|e]]; [|done].
  case_decide; [|done]. apply bind_not_deep; [apply lift_not_deep|done].
Qed.

Lemma TrimSpace_call m : TrimSpace ("GW:" +:+ m +:+ ")") = "GW:" +:+ m +:+ ")".
Proof.
  eapply (TrimSpace_solid _ "G" ("W:" +:+ m +:+ ")") ")"); [done|done| |done].
  exists ("GW:" +:+ m). by rewrite str_app_assoc.
Qed.

(** A malformed call evaluates itself again, whatever the fuel. *)
Lemma Evaluate_bad n x vars c : bad_call x → Evaluate n x vars c = RDeep.
Proof.
  intros Hb. destruct Hb as ((m & Hx & Hm) & Hl & Hc). revert vars c.
  induction n as [|n IH]; intros vars c; [done|].
  cbn [EvaluateGroundworkExpression]. rewrite Hx, TrimSpace_call, <-Hx, Hc.
  destruct (count_calls x) as [|k]; cbn [replace_calls]; rewrite Hl; [done|].
  assert (Index x ")" = Some (3 + String.length m)%nat) as Hi.
  { rewrite Hx. change ("GW:" +:+ m +:+ ")") with (("GW:" +:+ m) +:+ String ")" "").
    rewrite Index_byte_app; [by rewrite length_str_app|]. by rewrite no_byte_app, Hm. }
  cbn [str_drop]. rewrite Hi. cbn [idx].
  assert (str_slice x (Z.of_nat 0) (Z.of_nat 0 + Z.of_nat (3 + String.length m) + 1) = Ret x) as ->.
  { rewrite <-(str_app_nil_r x) at 1. change (x +:+ "") with ("" +:+ x +:+ "").
    apply str_slice_app; [done|]. rewrite Hx, !length_str_app. simpl. lia. }
  cbn [lift_o mbind run_bind]. by rewrite IH.
Qed.

Lemma piece_cases x : piece x → x = "" ∨ (TrimSpace x = x ∧ (is_call x = true ∨ bad_call x)).
Proof.
  intros [->|(m & Hx & Hm & Hl)]; [by left|right]. split.
  - rewrite Hx. apply TrimSpace_call.
  - destruct (is_call x) eqn:Hc; [by left|right]. split_and!; eauto.
Qed.

Lemma Evaluate_piece n x vars c : piece x → Evaluate (3 + n) x vars c = Evaluate 3 x vars c.
Proof.
  intros [->|[Ht [Hc|Hb]]]%piece_cases.
  - done.
  - apply Evaluate_call. by rewrite Ht.
  - by rewrite !Evaluate_bad.
Qed.

(** The recursion is at most four deep, or endless. *)
Lemma Evaluate_depth n e vars c : (4 ≤ n)%nat → Evaluate n e vars c = Evaluate 4 e vars c.
Proof.
  intros Hn. replace n with (S (3 + (n - 4))) by lia.
  destruct (is_call (TrimSpace e)) eqn:Hc.
  - destruct (Evaluate_call (S (n - 4)) e vars c Hc) as [H1 _].
    destruct (Evaluate_call 1 e vars c Hc) as [H2 _].
    replace (S (3 + (n - 4))) with (3 + S (n - 4))%nat by lia.
    rewrite H1. symmetry. exact H2.
  - change (Evaluate 4) with (Evaluate (S 3)).
    remember (3 + (n - 4))%nat as k eqn:Hk.
    cbn [EvaluateGroundworkExpression]. rewrite Hc.
    rewrite (replace_calls_ext (Evaluate k) (Evaluate 3)).
    { cbn [EvaluateGroundworkExpression]. done. }
    intros x vars' c' Hx. rewrite Hk. by apply Evaluate_piece.
Qed.

(** A round of the loop: the state is the text, the variables and the counter. *)
Inductive round : string * Vars * Z → string * Vars * Z → Prop :=
| round_step s vars c x vars' v vs :
    last_call s = Some (Ret x) →
    Evaluate 3 x vars c = RRet (vars', Val (v, vs)) →
    round (s, vars, c)
      (ReplaceAll_any s x ("res_" +:+ FormatInt c),
       <["res_" +:+ FormatInt c := VFloat v]> vars', (c + 1)%Z).

Lemma last_call_Some s i x :
  LastIndex s "GW:" = Some i →
  str_slice s (Z.of_nat i) (Z.of_nat i + idx (Index (str_drop i s) ")") + 1) = Ret x →
  last_call s = Some (Ret x).
Proof. unfold last_call. intros -> Hx. cbn. by rewrite Hx. Qed.

(** The loop needs more fuel only where it reaches a piece that does. *)
Lemma replace_calls_deep k s vars c :
  (count_calls s ≤ k)%nat → replace_calls (Evaluate 3) k s vars c = RDeep →
  ∃ s' vars' c' x, rtc round (s, vars, c) (s', vars', c') ∧ last_call s' = Some (Ret x) ∧
                   bad_call x.
Proof.
  revert s vars c. induction k as [|k IH]; intros s vars c Hk; cbn [replace_calls];
    destruct (LastIndex s "GW:") as [i|] eqn:Hi; try done.
  { assert (count_calls s = 0%nat) as H0 by lia. apply count_calls_zero in H0. congruence. }
  destruct (last_call_piece s i Hi) as (x & Hx & Hp & _). rewrite Hx. cbn [lift_o mbind run_bind].
  pose proof (last_call_Some s i x Hi Hx) as Hlast.
  destruct (Evaluate 3 x vars c) as [[vars' [[v vs]|e]]|w|] eqn:He; try done; intros Hd.
  - apply IH in Hd as (s1 & vars1 & c1 & x1 & Hr & Hl & Hb).
    + exists s1, vars1, c1, x1. split_and!; [|done|done]. eapply rtc_l; [|exact Hr].
      by econstructor.
    + pose proof (count_calls_round s i x _ Hi Hx (res_name_neutral c)). cbn in *. lia.
  - exists s, vars, c, x. split_and!; [done|done|].
    apply piece_cases in Hp as [->|[Ht [Hc|Hb]]]; [|exfalso|done].
    + by destruct (Evaluate_empty_not_deep vars c).
    + destruct (Evaluate_call 0 x vars c) as [_ Hnd]; [by rewrite Ht|]. done.
Qed.

Lemma replace_calls_reach k s vars c s' vars' c' x :
  rtc round (s, vars, c) (s', vars', c') → last_call s' = Some (Ret x) → bad_call x →
  replace_calls (Evaluate 3) k s vars c = RDeep.
Proof.
  intros Hr Hl Hb. remember (s, vars, c) as st eqn:Hst. remember (s', vars', c') as st' eqn:Hst'.
  revert k s vars c Hst. induction Hr as [st|st st1 st2 Hstep Hr IH]; intros k s vars c ->.
  - injection Hst' as -> -> ->. unfold last_call in Hl.
    destruct k; cbn [replace_calls]; destruct (LastIndex s' "GW:") as [i|]; try done.
    injection Hl as Hl. rewrite Hl. cbn [lift_o mbind run_bind].
    by rewrite Evaluate_bad.
  - specialize (IH Hst'). inversion Hstep as [s0 v0 c0 y vars1 v vs Hy He]; subst.
    unfold last_call in Hy.
    destruct k; cbn [replace_calls]; destruct (LastIndex s "GW:") as [i|]; try done.
    injection Hy as Hy. rewrite Hy. cbn [lift_o mbind run_bind].
    rewrite He. cbn [mbind run_bind]. by apply IH.
Qed.

(** C23: The evaluation of an expression never needs a recursion deeper than four, or
    it recurses for ever: this happens exactly when the loop, started with the
    trimmed text, reaches a text whose last call is malformed (an empty argument
    list, a parenthesis among the arguments, another byte in the name). *)
Theorem Evaluate_returns_or_never (e : string) (vars : Vars) (c : Z) :
  (∀ n, (4 ≤ n)%nat → Evaluate n e vars c = Evaluate 4 e vars c) ∧
  (Evaluate 4 e vars c = RDeep ↔
   is_call (TrimSpace e) = false ∧
   ∃ s' vars' c' x, rtc round (TrimSpace e, vars, c) (s', vars', c') ∧
                    last_call s' = Some (Ret x) ∧ bad_call x).
Proof.
  split; [intros; by apply Evaluate_depth|].
  destruct (is_call (TrimSpace e)) eqn:Hc.
  { split; [|by intros [? _]]. intros Hd. destruct (Evaluate_call 1 e vars c Hc) as [Heq Hn].
    cbn [Nat.add] in Heq. congruence. }
  change (Evaluate 4) with (Evaluate (S 3)). remember 3%nat as k eqn:Hk.
  cbn [EvaluateGroundworkExpression]. rewrite Hc. rewrite Hk. split.
  - intros Hd. split; [done|]. eapply replace_calls_deep; [reflexivity|].
    destruct (replace_calls _ _ _ _ _) as [[vars' [s'|er]]|w|]; try done.
    revert Hd. cbn [mbind run_bind]. intros Hd. exfalso. revert Hd.
    apply bind_not_deep; [apply lift_not_deep|]. intros [values|er]; [|done].
    apply bind_not_deep; [apply lift_not_deep|done].
  - intros (_ & s' & vars' & c' & x & Hr & Hl & Hb).
    by rewrite (replace_calls_reach _ _ _ _ _ _ _ _ Hr Hl Hb).
Qed.
End depth.
