(* ===== verification/ExprSpec.v ===== *)
(** The value of a Groundwork expression: expressions as trees, their text and
    their meaning, and the proof that the text-rewriting evaluator of [Expr]
    computes that meaning. *)

From S2P Require Import Prelude GoString GoFloat Timestamp Errors Expr.
From Stdlib Require Import DecimalString DecimalZ.

Local Open Scope string_scope.

(** ** Trees *)

Inductive gexpr :=
| GVar (name : string)
| GCall (f : string) (args : list gexpr).

Fixpoint print (e : gexpr) : string :=
  match e with
  | GVar n => n
  | GCall f args => f +:+ "(" +:+ Join (print <$> args) "," +:+ ")"
  end.

(** Calls apply the function to the values of the arguments. *)
Fixpoint denote (vars : Vars) (e : gexpr) : option float64 :=
  match e with
  | GVar n => match vars !! underscored n with Some (VFloat v) => Some v | _ => None end
  | GCall f args =>
      values ← mapM (denote vars) args;
      '(fn, count) ← gw_function f;
      if decide (length values = count) then
        match fn values with Ret v => Some v | Panic _ => None end
      else None
  end.

(** Variable names: letters, digits, underscores and dots. *)
Definition name_char (c : ascii) : bool := is_word c || bool_decide (c = "."%char).
Definition name_ok (n : string) : bool := negb (bool_decide (n = "")) && str_forallb name_char n.

Fixpoint wf (e : gexpr) : bool :=
  match e with
  | GVar n => name_ok n
  | GCall f args => bool_decide (is_Some (gw_function f)) && bool_decide (args ≠ []) && forallb wf args
  end.

(** The variables of the evaluator that the expression may not use. *)
Fixpoint fresh_from (c : Z) (e : gexpr) : Prop :=
  match e with
  | GVar n => ∀ k, (c ≤ k)%Z → underscored n ≠ "res_" +:+ FormatInt k
  | GCall _ args => foldr (λ a P, fresh_from c a ∧ P) True args
  end.

Definition is_var (e : gexpr) : bool := match e with GVar _ => true | _ => false end.

(** The tree with every call of the given text replaced by a variable. *)
Fixpoint subst (px r : string) (e : gexpr) : gexpr :=
  if decide (print e = px) then GVar r
  else match e with
       | GVar n => GVar n
       | GCall f args => GCall f (subst px r <$> args)
       end.

Section induction.
Context (P : gexpr → Prop).
Context (HV : ∀ n, P (GVar n)) (HC : ∀ f args, Forall P args → P (GCall f args)).

Lemma gexpr_ind' : ∀ e, P e.
Proof.
  fix IH 1. intros [n|f args]; [apply HV|]. apply HC.
  induction args as [|a args IHa]; constructor; [apply IH|apply IHa].
Qed.
End induction.

Lemma fresh_from_call c f args : fresh_from c (GCall f args) ↔ Forall (fresh_from c) args.
Proof.
  induction args as [|a args IH]; [by split|]. rewrite Forall_cons, <-IH. done.
Qed.

Lemma wf_call f args :
  wf (GCall f args) = true ↔ is_Some (gw_function f) ∧ args ≠ [] ∧ Forall (λ a, wf a = true) args.
Proof.
  cbn [wf]. rewrite !andb_true_iff, !bool_decide_eq_true, forallb_forall, Forall_forall.
  setoid_rewrite list_elem_of_In. tauto.
Qed.

(** ** Characters *)

Lemma name_char_cases c : name_char c = true → is_paren c = false ∧ c ≠ ","%char ∧ c ≠ ":"%char ∧ solid c = true
  ∧ has_byte c "+-/*" = false.
Proof.
  unfold name_char. intros [Hw|Hd%bool_decide_eq_true]%orb_true_iff; [|by subst].
  revert Hw. unfold is_word, solid. destruct c as [[] [] [] [] [] [] [] []]; vm_compute; try done.
Qed.

Lemma name_ok_spec n : name_ok n = true ↔ n ≠ "" ∧ str_forallb name_char n = true.
Proof. unfold name_ok. rewrite andb_true_iff, negb_true_iff, bool_decide_eq_false. done. Qed.

Lemma word_name w : str_forallb is_word w = true → str_forallb name_char w = true.
Proof. apply str_forallb_impl. intros c Hc. unfold name_char. by rewrite Hc. Qed.

Lemma name_no_byte c n : str_forallb name_char n = true → name_char c = false → no_byte c n = true.
Proof.
  intros Hn Hc. eapply str_forallb_impl; [|exact Hn]. intros d Hd.
  rewrite bool_decide_eq_false_2; [done|]. intros ->. congruence.
Qed.

Lemma gw_function_elem f y : gw_function f = Some y → List.In (f, y) gw_functions.
Proof.
  unfold gw_function. intros ((g & z) & Hh & Hy)%fmap_Some. cbn in Hy. subst z.
  destruct (filter (λ p : string * _, p.1 = f) gw_functions) as [|p l] eqn:Hf; [done|].
  injection Hh as ->. assert ((g, y) ∈ filter (λ p : string * _, p.1 = f) gw_functions) as Hin
    by (rewrite Hf; left).
  apply list_elem_of_filter in Hin as [Hg Hin]. cbn in Hg. subst g. by apply list_elem_of_In.
Qed.

(** Every function name is [GW:] and a word; every function has an argument. *)
Lemma gw_function_name f : is_Some (gw_function f) → ∃ w, f = "GW:" +:+ w ∧ w ≠ "" ∧ str_forallb is_word w = true.
Proof.
  assert (forallb (λ p : string * _, HasPrefix p.1 "GW:" && negb (bool_decide (str_drop 3 p.1 = "")) &&
            str_forallb is_word (str_drop 3 p.1)) gw_functions = true) as Hall by by vm_compute.
  rewrite forallb_forall in Hall. intros [x Hx%gw_function_elem].
  specialize (Hall _ Hx). cbn [fst] in Hall.
  apply andb_true_iff in Hall as [[[t ->]%prefix_spec Hne]%andb_true_iff Hw].
  exists t. split_and!; [done| |done]. by apply negb_true_iff, bool_decide_eq_false in Hne.
Qed.

Lemma gw_function_count f fn count : gw_function f = Some (fn, count) → (0 < count)%nat.
Proof.
  assert (forallb (λ p : string * (_ * nat), bool_decide (0 < p.2.2)%nat) gw_functions = true) as Hall by by vm_compute.
  rewrite forallb_forall in Hall. intros Hx%gw_function_elem.
  specialize (Hall _ Hx). by apply bool_decide_eq_true in Hall.
Qed.

(** ** Texts *)

Lemma byte_split_unique c u u' x x' :
  no_byte c u = true → no_byte c u' = true → u +:+ String c x = u' +:+ String c x' → u = u' ∧ x = x'.
Proof.
  revert u'. induction u as [|d u IH]; intros [|d' u']; cbn [no_byte str_forallb String.append];
    rewrite ?andb_true_iff, ?negb_true_iff, ?bool_decide_eq_false; intros H1 H2 He; simplify_eq.
  - done.
  - by destruct H2.
  - by destruct H1.
  - destruct (IH u') as [-> ->]; [apply H1|apply H2|done|done].
Qed.

Lemma byte_split_absurd c d u a x y :
  c ≠ d → no_byte d u = true → no_byte c a = true → u +:+ String c x = a +:+ String d y → False.
Proof.
  intros Hcd. revert a. induction u as [|e u IH]; intros [|e' a]; cbn [no_byte str_forallb String.append];
    rewrite ?andb_true_iff, ?negb_true_iff, ?bool_decide_eq_false; intros H1 H2 He; simplify_eq.
  - by destruct H2.
  - by destruct H1.
  - eapply IH; [apply H1|apply H2|done].
Qed.

(** What may follow the text of an expression. *)
Definition delim (s : string) : bool :=
  match s with "" => true | String c _ => is_paren c || bool_decide (c = ","%char) end.

(** A call does not begin inside a name. *)
Lemma prefix_in_name o n rest :
  n ≠ "" → str_forallb name_char n = true → delim rest = true →
  String.prefix ("GW:" +:+ o) (n +:+ rest) = false.
Proof.
  intros Hne Hn Hd. destruct (String.prefix _ _) eqn:Hp; [exfalso|done].
  apply prefix_spec in Hp as [t Ht]. clear Hne.
  assert (∀ c s, delim (String c s) = true → c ≠ "G"%char ∧ c ≠ "W"%char ∧ c ≠ ":"%char) as Hdel.
  { intros c s [[Hc%bool_decide_eq_true|Hc%bool_decide_eq_true]%orb_true_iff|
                Hc%bool_decide_eq_true]%orb_true_iff; subst; done. }
  assert (str_forallb name_char n = true → no_byte ":" n = true) as Hcol.
  { intros. by apply name_no_byte. }
  specialize (Hcol Hn). clear Hn.
  destruct n as [|c1 n]; cbn [String.append] in Ht.
  { rewrite Ht in Hd. by destruct (Hdel _ _ Hd). }
  injection Ht as -> Ht. destruct n as [|c2 n]; cbn [String.append] in Ht.
  { rewrite Ht in Hd. by destruct (Hdel _ _ Hd) as (_ & ? & _). }
  injection Ht as -> Ht. destruct n as [|c3 n]; cbn [String.append] in Ht.
  { rewrite Ht in Hd. by destruct (Hdel _ _ Hd) as (_ & _ & ?). }
  by injection Ht as -> Ht.
Qed.

Lemma ReplaceAll_name o r n rest :
  str_forallb name_char n = true → delim rest = true →
  ReplaceAll (n +:+ rest) ("GW:" +:+ o) r = n +:+ ReplaceAll rest ("GW:" +:+ o) r.
Proof.
  intros Hn Hd. induction n as [|c n IH]; [done|].
  pose proof (prefix_in_name o (String c n) rest ltac:(done) Hn Hd) as Hp.
  cbn [str_forallb] in Hn. apply andb_true_iff in Hn as [_ Hn]. specialize (IH Hn).
  unfold ReplaceAll in *. cbn [String.append] in Hp |- *. cbn [replace_go].
  cbn [String.append] in IH. rewrite Hp. by rewrite IH.
Qed.

(** *** Flat calls *)

Definition flat (f : string) (ns : list string) : gexpr := GCall f (GVar <$> ns).

Lemma print_flat f ns : print (flat f ns) = f +:+ "(" +:+ Join ns "," +:+ ")".
Proof.
  unfold flat. cbn [print]. rewrite <-list_fmap_compose.
  by rewrite (list_fmap_id ns : (print ∘ GVar) <$> ns = ns).
Qed.

Lemma Join_forallb f ns :
  f ","%char = true → Forall (λ n, str_forallb f n = true) ns → str_forallb f (Join ns ",") = true.
Proof.
  intros Hc. induction 1 as [|n ns Hn Hns IH]; [done|].
  destruct ns as [|m ns]; [done|]. rewrite Join_cons by done.
  rewrite !str_forallb_app, Hn, IH. cbn. by rewrite Hc.
Qed.

Lemma names_no_paren ns :
  Forall (λ n, name_ok n = true) ns → str_forallb (negb ∘ is_paren) (Join ns ",") = true.
Proof.
  intros Hns. apply Join_forallb; [done|]. eapply Forall_impl; [exact Hns|].
  intros n [_ Hn]%name_ok_spec. eapply str_forallb_negb; [|exact Hn].
  intros c Hc. by apply name_char_cases.
Qed.

Lemma Join_inj ns ms :
  ns ≠ [] → ms ≠ [] → Forall (λ n, no_byte "," n = true) ns → Forall (λ n, no_byte "," n = true) ms →
  Join ns "," = Join ms "," → ns = ms.
Proof. intros H1 H2 H3 H4 He. rewrite <-(Split_Join_byte "," ns), <-(Split_Join_byte "," ms) by done. by rewrite He. Qed.

Lemma wf_GVar_names args :
  Forall (λ a, wf a = true) args → forallb is_var args = true →
  ∃ ns, args = GVar <$> ns ∧ Forall (λ n, name_ok n = true) ns.
Proof.
  induction 1 as [|a args Ha _ IH]; intros Hv; [by exists []|].
  cbn in Hv. apply andb_true_iff in Hv as [Hv1 Hv2].
  destruct (IH Hv2) as (ns & -> & Hns). destruct a as [n|]; [|done].
  exists (n :: ns). split; [done|]. by constructor.
Qed.

Lemma name_ok_comma n : name_ok n = true → no_byte "," n = true.
Proof. intros [_ Hn]%name_ok_spec. by apply name_no_byte. Qed.

(** The arguments of a call, up to the first parenthesis. *)
Lemma args_paren args :
  Forall (λ a, wf a = true) args → forallb is_var args = false →
  ∃ u x, Join (print <$> args) "," = u +:+ String "(" x ∧ no_byte ")" u = true.
Proof.
  induction 1 as [|a args Ha Hwf IH]; [done|]. cbn [forallb fmap list_fmap]. intros Hv.
  destruct a as [n|f as'].
  - apply IH in Hv as (u & x & He & Hu). exists (n +:+ "," +:+ u), x. split.
    + rewrite Join_cons.
      * cbn [print]. rewrite He. by rewrite !str_app_assoc.
      * intros Hnil. rewrite Hnil in He. by destruct u.
    + rewrite !no_byte_app, Hu. apply name_ok_spec in Ha as [_ Hn].
      rewrite (name_no_byte _ _ Hn); done.
  - clear IH. apply wf_call in Ha as (Hf & _ & _).
    destruct (gw_function_name f Hf) as (w & -> & _ & Hw).
    exists ("GW:" +:+ w). destruct args as [|b args].
    + eexists. cbn [Join print fmap list_fmap]. rewrite !str_app_assoc. split; [reflexivity|].
      rewrite no_byte_app. apply word_name in Hw. by rewrite (name_no_byte _ _ Hw).
    + eexists. rewrite Join_cons by done. cbn [print]. rewrite !str_app_assoc.
      split; [reflexivity|]. rewrite no_byte_app. apply word_name in Hw. by rewrite (name_no_byte _ _ Hw).
Qed.

Lemma gw_word_no_paren w : str_forallb is_word w = true → no_byte "(" ("GW:" +:+ w) = true.
Proof. intros Hw%word_name. rewrite no_byte_app. by rewrite (name_no_byte _ _ Hw). Qed.

(** The text of a flat call begins a text of an expression only if it is its text. *)
Lemma prefix_flat f ns e rest :
  wf (flat f ns) = true → wf e = true → delim rest = true →
  String.prefix (print (flat f ns)) (print e +:+ rest) = true → e = flat f ns.
Proof.
  intros Hx He Hd Hp. apply wf_call in Hx as (Hf & Hne & Hns).
  rewrite Forall_fmap in Hns. cbn [wf compose] in Hns.
  rewrite print_flat in Hp. destruct (gw_function_name f Hf) as (w & -> & _ & Hw).
  destruct e as [n|g args].
  { apply name_ok_spec in He as [Hn0 Hn]. cbn [print] in Hp.
    rewrite str_app_assoc in Hp. by rewrite prefix_in_name in Hp. }
  apply prefix_spec in Hp as [t Ht]. cbn [print] in Ht.
  apply wf_call in He as (Hg & Hane & Hargs).
  destruct (gw_function_name g Hg) as (wg & -> & _ & Hwg).
  rewrite !(str_app_assoc _ _ rest), !(str_app_assoc _ _ t) in Ht.
  apply (byte_split_unique "(") in Ht as [Hgf Ht]; [|by apply gw_word_no_paren..].
  assert (str_forallb (negb ∘ is_paren) (Join ns ",") = true) as Hj by by apply names_no_paren.
  apply no_paren_byte in Hj as [Hj1 Hj2].
  destruct (forallb is_var args) eqn:Hv.
  - apply wf_GVar_names in Hv as (ms & -> & Hms); [|done].
    rewrite Hgf. unfold flat. f_equal. f_equal.
    rewrite <-list_fmap_compose, (list_fmap_id ms : (print ∘ GVar) <$> ms = ms) in Ht.
    pose proof (names_no_paren _ Hms) as [_ Hms2]%no_paren_byte.
    apply (byte_split_unique ")") in Ht as [Ht _]; [|done|done].
    apply Join_inj; [by intros ->| |..].
    + by intros ->.
    + eapply Forall_impl; [exact Hms|apply name_ok_comma].
    + eapply Forall_impl; [exact Hns|apply name_ok_comma].
    + done.
  - exfalso. apply args_paren in Hv as (u & x & Hu & Hun); [|done].
    cbn [fmap] in Ht, Hu. rewrite Hu, str_app_assoc in Ht. cbn [String.append] in Ht.
    eapply (byte_split_absurd "(" ")"); [done|exact Hun|exact Hj1|exact Ht].
Qed.

(** ** One round on the tree *)

Section round.
Context (f : string) (ns : list string) (r : string).
Context (Hx : wf (flat f ns) = true).
#[local] Abbreviation px := (print (flat f ns)).

Lemma px_call : ∃ o, px = "GW:" +:+ o.
Proof using Hx.
  apply wf_call in Hx as (Hf & _ & _). destruct (gw_function_name f Hf) as (w & -> & _).
  rewrite print_flat, str_app_assoc. eauto.
Qed.

Lemma ReplaceAll_miss c s :
  String.prefix px (String c s) = false → ReplaceAll (String c s) px r = String c (ReplaceAll s px r).
Proof using Type. intros Hp. unfold ReplaceAll. cbn [replace_go]. by rewrite Hp. Qed.

Lemma ReplaceAll_delim c s :
  c ≠ "G"%char → ReplaceAll (String c s) px r = String c (ReplaceAll s px r).
Proof using Hx.
  intros Hc. apply ReplaceAll_miss. destruct px_call as [o ->]. cbn [String.append String.prefix].
  by destruct (Ascii.ascii_dec "G" c) as [<-|].
Qed.

(** A Join followed by a parenthesis, argument by argument. *)
Lemma ReplaceAll_args args rest :
  Forall (λ a, ∀ rest, delim rest = true →
    ReplaceAll (print a +:+ rest) px r = print (subst px r a) +:+ ReplaceAll rest px r) args →
  ReplaceAll (Join (print <$> args) "," +:+ String ")" rest) px r =
  Join (print <$> (subst px r <$> args)) "," +:+ ReplaceAll (String ")" rest) px r.
Proof using Hx.
  induction 1 as [|a args Ha Hargs IH]; [done|].
  destruct args as [|b args]; [by apply Ha|].
  change (print <$> a :: b :: args) with (print a :: (print <$> b :: args)).
  change (subst px r <$> a :: b :: args) with (subst px r a :: (subst px r <$> b :: args)).
  change (print <$> subst px r a :: ?l) with (print (subst px r a) :: (print <$> l)).
  rewrite !Join_cons by done. rewrite !str_app_assoc. rewrite Ha by done.
  f_equal. cbn [String.append]. rewrite ReplaceAll_delim by done. by rewrite IH.
Qed.

(** Replacing the text of a call is replacing the call in the tree. *)
Lemma ReplaceAll_print e rest :
  wf e = true → delim rest = true →
  ReplaceAll (print e +:+ rest) px r = print (subst px r e) +:+ ReplaceAll rest px r.
Proof using Hx.
  revert rest. induction e as [n|g args IH] using gexpr_ind'; intros rest He Hd.
  - cbn [subst]. case_decide as Heq.
    + rewrite Heq. apply ReplaceAll_prefix. destruct px_call as [o ->]. done.
    + destruct px_call as [o ->]. apply name_ok_spec in He as [_ Hn]. by apply ReplaceAll_name.
  - cbn [subst]. case_decide as Heq.
    + rewrite Heq. apply ReplaceAll_prefix. destruct px_call as [o ->]. done.
    + assert (String.prefix px (print (GCall g args) +:+ rest) = false) as Hp.
      { destruct (String.prefix _ _) eqn:Hp; [|done]. apply prefix_flat in Hp; [|done..].
        by rewrite Hp in Heq. }
      apply wf_call in He as (Hg & _ & Hargs).
      destruct (gw_function_name g Hg) as (w & -> & _ & Hw).
      assert (print (GCall ("GW:" +:+ w) args) +:+ rest =
              String "G" (String "W" (String ":" (w +:+ String "(" (Join (print <$> args) "," +:+ String ")" rest)))))
        as Hprint by (cbn [print]; by rewrite !str_app_assoc).
      rewrite Hprint in Hp |- *. rewrite ReplaceAll_miss by done.
      rewrite !ReplaceAll_delim by done.
      destruct px_call as [o Ho]. rewrite Ho, ReplaceAll_name by (done || by apply word_name). rewrite <-Ho.
      rewrite ReplaceAll_delim by done. rewrite ReplaceAll_args.
      2: { eapply Forall_impl; [apply Forall_and; split; [exact IH|exact Hargs]|].
           cbn. intros a [H1 H2]. auto. }
      rewrite ReplaceAll_delim by done. cbn [print]. by rewrite !str_app_assoc.
Qed.

Lemma subst_wf e : name_ok r = true → wf e = true → wf (subst px r e) = true.
Proof using Type.
  intros Hr. induction e as [n|g args IH] using gexpr_ind'; intros He; cbn [subst]; case_decide; try done.
  apply wf_call in He as (Hg & Hne & Hargs). apply wf_call. split_and!; [done|by destruct args|].
  apply Forall_fmap. eapply Forall_impl; [apply Forall_and; split; [exact IH|exact Hargs]|].
  cbn. intros a [H1 H2]. auto.
Qed.

Lemma subst_fresh c e :
  (∀ k, (c + 1 ≤ k)%Z → underscored r ≠ "res_" +:+ FormatInt k) →
  fresh_from c e → fresh_from (c + 1) (subst px r e).
Proof using Type.
  intros Hr. induction e as [n|g args IH] using gexpr_ind'; intros He; cbn [subst]; case_decide; try done.
  - intros k Hk. apply He. lia.
  - apply fresh_from_call in He. apply fresh_from_call. apply Forall_fmap.
    eapply Forall_impl; [apply Forall_and; split; [exact IH|exact He]|]. cbn. intros a [H1 H2]. auto.
Qed.

End round.

Lemma mapM_fmap_ext {A B C} (d : B → option C) (d' : A → option C) (g : A → B) l :
  Forall (λ a, d (g a) = d' a) l → mapM d (g <$> l) = mapM d' l.
Proof. induction 1 as [|a l Ha _ IH]; [done|]. cbn. rewrite Ha. by rewrite <-IH. Qed.

(** The meaning is kept when the variable has the value of the call. *)
Lemma subst_denote f ns r vars v c e :
  wf (flat f ns) = true → denote vars (flat f ns) = Some v →
  r = "res_" +:+ FormatInt c → underscored r = r →
  wf e = true → fresh_from c e →
  denote (<[r := VFloat v]> vars) (subst (print (flat f ns)) r e) = denote vars e.
Proof.
  intros Hx Hv Hr Hu. induction e as [n|g args IH] using gexpr_ind'; intros He Hfr.
  - cbn [subst]. case_decide as Heq.
    + exfalso. destruct (px_call f ns Hx) as [o Ho]. cbn [print] in Heq.
      apply name_ok_spec in He as [Hn0 Hn].
      pose proof (prefix_in_name o n "" Hn0 Hn eq_refl) as Hp. rewrite <-Ho, <-Heq in Hp.
      by rewrite prefix_app in Hp.
    + cbn [denote]. rewrite lookup_insert_ne; [done|].
      intros Hn. apply (Hfr c); [lia|]. by rewrite <-Hn.
  - cbn [subst]. case_decide as Heq.
    + assert (GCall g args = flat f ns) as ->.
      { apply (prefix_flat f ns _ ""); [done..|]. rewrite Heq. apply prefix_app. }
      cbn [denote] in Hv |- *. rewrite Hu, lookup_insert_eq. done.
    + apply wf_call in He as (_ & _ & Hargs). apply fresh_from_call in Hfr.
      cbn [denote]. rewrite (mapM_fmap_ext _ (denote vars)); [done|].
      eapply Forall_impl; [apply Forall_and; split; [exact IH|apply Forall_and; split; [exact Hargs|exact Hfr]]|].
      cbn. intros a (H1 & H2 & H3). auto.
Qed.

(** ** The last call *)

Lemma LastIndex_call l t : no_byte ":" t = true → LastIndex (l +:+ "GW:" +:+ t) "GW:" = Some (String.length l).
Proof.
  intros Ht.
  assert (∀ s, no_byte ":" s = true → LastIndex s "GW:" = None) as Hnone.
  { intros s Hs. apply LastIndex_None, Index_None. intros u v ->.
    rewrite !no_byte_app, !andb_true_iff in Hs. by destruct Hs as (_ & ? & _). }
  assert (LastIndex ("GW:" +:+ t) "GW:" = Some 0%nat) as H0.
  { cbn [String.append LastIndex]. rewrite Hnone by done. cbn [String.prefix].
    destruct (Ascii.ascii_dec "G" "W"); [done|]. cbn.
    by destruct t. }
  induction l as [|c l IH]; [exact H0|]. cbn [String.append LastIndex String.length].
  cbn [String.append] in IH. by rewrite IH.
Qed.

Lemma Join_middle xs y ys :
  ∃ p q, Join (xs ++ y :: ys)%list "," = p +:+ y +:+ q ∧
         (Forall (λ n, no_byte ":" n = true) ys → no_byte ":" q = true).
Proof.
  assert (∃ q, Join (y :: ys) "," = y +:+ q ∧
         (Forall (λ n, no_byte ":" n = true) ys → no_byte ":" q = true)) as (q & Hq & Hn).
  { revert y. induction ys as [|z ys IH]; intros y.
    - exists "". cbn. by rewrite str_app_nil_r.
    - destruct (IH z) as (q & Hq & Hn). exists ("," +:+ z +:+ q).
      rewrite Join_cons, Hq by done. split; [done|]. intros Hf.
      apply Forall_cons in Hf as [Hz Hys]. by rewrite !no_byte_app, Hz, Hn. }
  induction xs as [|x xs (p & q' & IH & Hn')].
  - exists "", q. done.
  - exists (x +:+ "," +:+ p), q'. cbn [app]. rewrite Join_cons by by destruct xs.
    rewrite IH. by rewrite !str_app_assoc.
Qed.

(** The last element that has a property. *)
Lemma last_split {A} (P : A → bool) (l : list A) :
  forallb P l = false → ∃ xs y ys, l = (xs ++ y :: ys)%list ∧ P y = false ∧ forallb P ys = true.
Proof.
  induction l as [|a l IH]; [done|]. cbn [forallb]. intros Hf.
  destruct (forallb P l) eqn:Hl.
  - rewrite andb_true_r in Hf. by exists [], a, l.
  - destruct IH as (xs & y & ys & -> & Hy & Hys); [done|]. by exists (a :: xs), y, ys.
Qed.

Lemma mapM_elem {A B} (d : A → option B) l k a : mapM d l = Some k → a ∈ l → ∃ b, d a = Some b.
Proof.
  intros Hm%mapM_Some Ha. apply list_elem_of_lookup in Ha as [i Hi].
  destruct (Forall2_lookup_l _ _ _ _ _ Hm Hi) as (b & _ & Hb). eauto.
Qed.

Lemma name_no_colon n : name_ok n = true → no_byte ":" n = true.
Proof. intros [_ Hn]%name_ok_spec. by apply name_no_byte. Qed.

Lemma flat_tail f ns :
  wf (flat f ns) = true → ∃ o, print (flat f ns) = "GW:" +:+ o ∧ no_byte ":" o = true.
Proof.
  intros (Hf & _ & Hns)%wf_call. destruct (gw_function_name f Hf) as (w & -> & _ & Hw%word_name).
  rewrite print_flat, str_app_assoc. eexists. split; [reflexivity|].
  rewrite !no_byte_app, (name_no_byte _ _ Hw) by done.
  enough (no_byte ":" (Join ns ",") = true) as -> by done. apply Join_forallb; [done|].
  rewrite Forall_fmap in Hns. eapply Forall_impl; [exact Hns|]. intros n Hn. by apply name_no_colon.
Qed.

Lemma last_flat e :
  wf e = true → is_var e = false →
  ∃ f ns l o r, wf (flat f ns) = true ∧ print (flat f ns) = "GW:" +:+ o ∧
    print e = l +:+ print (flat f ns) +:+ r ∧ no_byte ":" (o +:+ r) = true ∧
    (∀ vars v, denote vars e = Some v → ∃ w, denote vars (flat f ns) = Some w).
Proof.
  induction e as [n|g args IH] using gexpr_ind'; intros He Hv; [done|].
  pose proof He as (Hg & Hne & Hargs)%wf_call. clear Hv.
  destruct (forallb is_var args) eqn:Hvs.
  - apply wf_GVar_names in Hvs as (ns & -> & Hns); [|done].
    destruct (flat_tail g ns He) as (o & Ho & Hn).
    exists g, ns, "", o, "". rewrite str_app_nil_r. cbn [String.append]. rewrite str_app_nil_r.
    split_and!; eauto.
  - apply last_split in Hvs as (xs & y & ys & -> & Hy & Hys).
    apply Forall_app in Hargs as [_ [Hyw Hysw]%Forall_cons].
    apply Forall_app in IH as [_ [IHy _]%Forall_cons].
    destruct (IHy Hyw Hy) as (f & ns & l & o & r & Hx & Ho & Hpy & Hn & Hden).
    destruct (Join_middle (print <$> xs) (print y) (print <$> ys)) as (p & q & Hj & Hq).
    exists f, ns, (g +:+ "(" +:+ p +:+ l), o, (r +:+ q +:+ ")"). split_and!; [done|done| | |].
    + cbn [print]. rewrite fmap_app. cbn [fmap list_fmap] in Hj |- *. rewrite Hj, Hpy.
      by rewrite !str_app_assoc.
    + rewrite <-!str_app_assoc, !no_byte_app. rewrite no_byte_app in Hn. rewrite Hn, Hq; [done|].
      apply wf_GVar_names in Hys as (ms & -> & Hms); [|done].
      rewrite !Forall_fmap. eapply Forall_impl; [exact Hms|]. intros n Hn'. by apply name_no_colon.
    + intros vars v Hd. cbn [denote] in Hd.
      destruct (mapM (denote vars) (xs ++ y :: ys)%list) as [vs|] eqn:Hm; [|done].
      destruct (mapM_elem _ _ _ y Hm) as (b & Hb); [set_solver|]. eauto.
Qed.

(** The piece the loop cuts out is the call. *)
Lemma flat_slice f ns l r :
  wf (flat f ns) = true →
  let s := l +:+ print (flat f ns) +:+ r in
  str_slice s (Z.of_nat (String.length l))
    (Z.of_nat (String.length l) + idx (Index (str_drop (String.length l) s) ")") + 1) = Ret (print (flat f ns)).
Proof.
  intros Hx s. unfold s. rewrite str_drop_app.
  pose proof Hx as (Hf & _ & Hns)%wf_call. rewrite Forall_fmap in Hns.
  destruct (gw_function_name f Hf) as (w & -> & _ & Hw%word_name).
  rewrite print_flat. set (t := ("GW:" +:+ w) +:+ "(" +:+ Join ns ",").
  assert (("GW:" +:+ w) +:+ "(" +:+ Join ns "," +:+ ")" = t +:+ ")") as ->
    by (unfold t; by rewrite !str_app_assoc).
  assert (no_byte ")" t = true) as Ht.
  { unfold t. rewrite !no_byte_app, (name_no_byte _ _ Hw) by done.
    by rewrite (proj2 (no_paren_byte _ (names_no_paren _ Hns))). }
  rewrite (str_app_assoc t ")" r). cbn [String.append].
  rewrite Index_byte_app by done. cbn [idx].
  change (String ")" r) with (")" +:+ r). rewrite <-(str_app_assoc t ")" r).
  apply str_slice_app; [done|]. rewrite length_str_app. simpl. lia.
Qed.

(** ** Evaluation of a flat call *)

Lemma TrimSpace_all_solid s : str_forallb solid s = true → TrimSpace s = s.
Proof.
  intros Hs. destruct s as [|c s]; [done|].
  destruct (str_snoc (String c s)) as (u & d & Hu); [done|].
  eapply (TrimSpace_solid _ c s d); [done| |by exists u|].
  - cbn in Hs. by apply andb_true_iff in Hs as [? _].
  - rewrite Hu, str_forallb_app in Hs. apply andb_true_iff in Hs as [_ Hs]. cbn in Hs.
    by rewrite andb_true_r in Hs.
Qed.

Lemma name_solid n : str_forallb name_char n = true → str_forallb solid n = true.
Proof. apply str_forallb_impl. intros c Hc. by apply name_char_cases. Qed.

Lemma name_no_operator n : str_forallb name_char n = true → ContainsAny n "+-/*" = false.
Proof.
  induction n as [|c n IH]; [done|]. cbn [str_forallb ContainsAny].
  intros [Hc Hn]%andb_true_iff. rewrite IH by done.
  destruct (name_char_cases c Hc) as (_ & _ & _ & _ & ->). done.
Qed.

Lemma is_call_intro w a :
  str_forallb is_word w = true → w ≠ "" → a ≠ "" → str_forallb (negb ∘ is_paren) a = true →
  is_call ("GW:" +:+ w +:+ "(" +:+ a +:+ ")") = true.
Proof.
  intros Hw Hw0 Ha0 Ha. unfold is_call, HasPrefix. rewrite prefix_app. cbn [str_drop String.append andb].
  assert (∀ a, str_forallb (negb ∘ is_paren) a = true → args_end (a +:+ ")") = true) as Hend.
  { clear. induction a as [|c a IH]; [done|]. cbn. intros [Hc%negb_true_iff Ha]%andb_true_iff.
    rewrite Hc. by apply IH. }
  assert (∀ b, b = true ∨ w ≠ "" → word_args b (w +:+ "(" +:+ a +:+ ")") = true) as Hgo; [|by apply Hgo; right].
  clear Hw0. induction w as [|c w IH]; intros b Hb.
  - destruct Hb as [->|]; [|done]. cbn [String.append]. cbn [word_args].
    change (is_word "(") with false. destruct a as [|d a]; [done|]. cbn [String.append].
    cbn in Ha. apply andb_true_iff in Ha as [-> Ha]. by rewrite Hend.
  - cbn in Hw. apply andb_true_iff in Hw as [Hc Hw]. cbn [String.append word_args]. rewrite Hc.
    apply IH; [done|by left].
Qed.

Section evaluation.
Context (gval : string → Vars → result error gval_value).
#[local] Abbreviation Evaluate := (EvaluateGroundworkExpression gval).

Lemma arguments_names vars ns vs :
  Forall (λ n, name_ok n = true) ns → mapM (denote vars) (GVar <$> ns) = Some vs →
  arguments gval vars ns = Ret (Val vs).
Proof.
  intros Hns. revert vs. induction Hns as [|n ns Hn _ IH]; intros vs; cbn [fmap list_fmap].
  { by intros [= <-]. }
  intros Hm. cbn [mapM] in Hm.
  cbn [denote] in Hm. destruct (vars !! underscored n) as [[v|]|] eqn:Hl; try done.
  cbn in Hm. destruct (mapM (denote vars) (GVar <$> ns)) as [vs'|] eqn:Hm'; [|done].
  injection Hm as <-. cbn [arguments]. apply name_ok_spec in Hn as [_ Hn].
  rewrite TrimSpace_all_solid by by apply name_solid.
  rewrite name_no_operator, Hl, (IH vs') by done. done.
Qed.

Lemma arguments_length vars ns values :
  arguments gval vars ns = Ret (Val values) → length values = length ns.
Proof.
  revert values. induction ns as [|n ns IH]; intros values; cbn [arguments]; [by intros [= <-]|].
  intros (r & _ & Hr)%bind_Ret_inv. destruct r as [v|]; [|done].
  apply bind_Ret_inv in Hr as (rest & Hrest & Hr). destruct rest as [vs|]; [|done].
  injection Hr as <-. cbn. f_equal. by apply IH.
Qed.

(** A flat call evaluates its arguments, checks their number and applies the
    function. *)
Lemma Evaluate_flat_call f fn count ns vars c :
  wf (flat f ns) = true → gw_function f = Some (fn, count) →
  Evaluate 3 (print (flat f ns)) vars c =
  (r ← lift_o (arguments gval vars ns);
   match r with
   | Fail e => RRet (vars, Fail e)
   | Val values =>
       if decide (length values = count) then v ← lift_o (fn values); RRet (vars, Val (v, [v]))
       else RRet (vars, Fail (Opaque ("invalid arguments count for Groundwork function [" +:+ f +:+ "]")))
   end).
Proof.
  intros Hx Hg. pose proof Hx as (Hf & Hne & Hns)%wf_call.
  rewrite Forall_fmap in Hns. unfold compose in Hns. cbn [wf] in Hns.
  destruct (gw_function_name f Hf) as (w & -> & Hw0 & Hw).
  pose proof (names_no_paren ns Hns) as Hp.
  assert (Join ns "," ≠ "") as Hj0.
  { destruct Hns as [|n ns [Hn _]%name_ok_spec _]; [done|]. by destruct n, ns. }
  assert (str_forallb solid (Join ns ",") = true) as Hsol.
  { apply Join_forallb; [done|]. eapply Forall_impl; [exact Hns|].
    intros n [_ Hn]%name_ok_spec. by apply name_solid. }
  assert (no_byte ":" (Join ns ",") = true) as Hcol.
  { apply Join_forallb; [done|]. eapply Forall_impl; [exact Hns|]. intros n. apply name_no_colon. }
  destruct (call_slices w (Join ns ",") Hw Hp) as [H1 H2].
  assert (Evaluate 2 (Join ns ",") vars c =
          (r ← lift_o (arguments gval vars ns);
           match r with
           | Fail e => RRet (vars, Fail e)
           | Val values => v ← lift_o (arg values 0); RRet (vars, Val (v, values))
           end)) as Hin.
  { cbn [EvaluateGroundworkExpression]. rewrite TrimSpace_all_solid by done.
    rewrite is_call_paren by by apply no_paren_byte.
    assert (count_calls (Join ns ",") = 0%nat) as Hc0.
    { apply count_calls_zero, LastIndex_None, Index_None. intros l r Hl.
      rewrite Hl, !no_byte_app, !andb_true_iff in Hcol. by destruct Hcol as (_ & ? & _). }
    rewrite Hc0. cbn [replace_calls]. apply count_calls_zero in Hc0. rewrite Hc0. cbn [mbind run_bind].
    rewrite (Split_Join_byte ","); [done|by intros ->|eapply Forall_impl; [exact Hns|apply name_ok_comma]]. }
  rewrite print_flat, str_app_assoc. set (s := "GW:" +:+ w +:+ "(" +:+ Join ns "," +:+ ")") in *.
  assert (TrimSpace s = s) as Ht.
  { assert (s = "GW:" +:+ (w +:+ "(" +:+ Join ns ",") +:+ ")") as ->
      by (unfold s; by rewrite !str_app_assoc). apply TrimSpace_call. }
  assert (is_call s = true) as Hc by by apply is_call_intro.
  change 3%nat with (S 2). remember 2%nat as k. cbn [EvaluateGroundworkExpression].
  rewrite Ht, Hc, H1, H2. cbn [lift_o mbind run_bind]. rewrite Hg, Hin.
  destruct (arguments gval vars ns) as [[values|e]|y] eqn:Ha; [|done..]. cbn [lift_o mbind run_bind].
  apply arguments_length in Ha. destruct values as [|v values]; [by destruct ns|]. done.
Qed.

Lemma Evaluate_flat_value f ns vars c v :
  wf (flat f ns) = true → denote vars (flat f ns) = Some v →
  Evaluate 3 (print (flat f ns)) vars c = RRet (vars, Val (v, [v])).
Proof.
  intros Hx Hv. pose proof Hx as (_ & _ & Hns)%wf_call.
  rewrite Forall_fmap in Hns. unfold compose in Hns. cbn [wf] in Hns.
  unfold flat in Hv. cbn [denote] in Hv.
  destruct (mapM (denote vars) (GVar <$> ns)) as [vs|] eqn:Hm; [|done].
  cbn [mbind option_bind] in Hv. destruct (gw_function f) as [[fn count]|] eqn:Hg; [|done].
  cbn [mbind option_bind] in Hv. case_decide as Hlen; [|done].
  destruct (fn vs) as [v'|] eqn:Hfn; [|done]. injection Hv as ->.
  rewrite (Evaluate_flat_call f fn count), (arguments_names _ _ _ Hns Hm) by done.
  cbn [lift_o mbind run_bind]. by rewrite decide_True, Hfn by done.
Qed.

(** The variables [res_k] of the evaluator. *)
Definition res_name (k : Z) : string := "res_" +:+ FormatInt k.

Lemma res_name_inj i j : res_name i = res_name j → i = j.
Proof. intros [= Hij]. by apply FormatInt_inj. Qed.

Lemma res_name_ok k : (0 ≤ k)%Z → name_ok (res_name k) = true.
Proof.
  intros Hk. apply name_ok_spec. split; [done|]. cbn.
  assert (∀ d, str_forallb name_char (NilZero.string_of_uint d) = true) as Hd.
  { intros d. assert (str_forallb name_char (NilEmpty.string_of_uint d) = true) by by induction d.
    by destruct d. }
  unfold FormatInt. destruct k; [done|apply Hd|lia].
Qed.

Lemma underscored_res k : (0 ≤ k)%Z → underscored (res_name k) = res_name k.
Proof.
  intros Hk. apply ReplaceAll_no_byte. unfold res_name. rewrite no_byte_app. cbn.
  assert (∀ d, no_byte "." (NilZero.string_of_uint d) = true) as Hd.
  { intros d. assert (no_byte "." (NilEmpty.string_of_uint d) = true) by by induction d.
    by destruct d. }
  unfold FormatInt. destruct k; [done|apply Hd|lia].
Qed.

(** What the evaluation leaves of the variables. *)
Definition frame (c : Z) (vars vars' : Vars) : Prop :=
  ∀ x, (∀ k, (c ≤ k)%Z → x ≠ res_name k) → vars' !! x = vars !! x.

(** The loop reduces the text to the name of a variable that holds the value. *)
Lemma replace_calls_denotes k e vars c v :
  (count_calls (print e) ≤ k)%nat → wf e = true → denote vars e = Some v →
  fresh_from c e → (0 ≤ c)%Z →
  ∃ n vars', replace_calls (Evaluate 3) k (print e) vars c = RRet (vars', Val n) ∧
             name_ok n = true ∧ vars' !! underscored n = Some (VFloat v) ∧ frame c vars vars'.
Proof.
  revert e vars c. induction k as [|k IH]; intros e vars c Hk He Hv Hfr Hc;
    destruct (is_var e) eqn:Hiv.
  1, 3: destruct e as [n|]; [|done]; exists n, vars; cbn [print];
    assert (LastIndex n "GW:" = None) as Hl by
      (apply LastIndex_None, Index_None; intros l r ->; apply name_no_colon in He;
       rewrite !no_byte_app, !andb_true_iff in He; by destruct He as (_ & ? & _));
    cbn [replace_calls]; rewrite Hl; split_and!; try done;
    cbn [denote] in Hv; destruct (vars !! underscored n) as [[]|]; congruence.
  - destruct (last_flat e He Hiv) as (f & ns & l & o & r & _ & Ho & Hp & _). exfalso.
    assert (count_calls (print e) = 0%nat) as H0 by lia. apply count_calls_zero, LastIndex_None in H0.
    rewrite Index_None, Hp, Ho in H0. apply (H0 l (o +:+ r)). by rewrite str_app_assoc.
  - destruct (last_flat e He Hiv) as (f & ns & l & o & r & Hx & Ho & Hp & Hn & Hden).
    destruct (Hden vars v Hv) as (w & Hw).
    assert (LastIndex (print e) "GW:" = Some (String.length l)) as Hi.
    { rewrite Hp, Ho, str_app_assoc. by apply LastIndex_call. }
    pose proof (flat_slice f ns l r Hx) as Hsl. rewrite <-Hp in Hsl.
    cbn [replace_calls]. rewrite Hi, Hsl. cbn [lift_o mbind run_bind].
    rewrite (Evaluate_flat_value f ns vars c w Hx Hw). cbn [mbind run_bind].
    change ("res_" +:+ FormatInt c) with (res_name c).
    assert (ReplaceAll_any (print e) (print (flat f ns)) (res_name c) =
            print (subst (print (flat f ns)) (res_name c) e)) as Hrep.
    { unfold ReplaceAll_any. rewrite decide_False by by rewrite Ho.
      rewrite <-(str_app_nil_r (print e)), (ReplaceAll_print f ns (res_name c) Hx e "") by done.
      cbn. apply str_app_nil_r. }
    pose proof (count_calls_round (print e) _ _ (res_name c) Hi Hsl (res_name_neutral c)) as Hlt.
    rewrite Hrep in Hlt |- *.
    destruct (IH (subst (print (flat f ns)) (res_name c) e) (<[res_name c := VFloat w]> vars) (c + 1)%Z)
      as (n & vars' & H1 & H2 & H3 & H4).
    + lia.
    + apply subst_wf; [by apply res_name_ok|done].
    + rewrite <-Hv. eapply subst_denote; [done|done|reflexivity|by apply underscored_res|done|done].
    + apply subst_fresh; [|done]. intros j Hj Heq. rewrite underscored_res in Heq by done.
      apply res_name_inj in Heq. lia.
    + lia.
    + exists n, vars'. split_and!; [done|done|done|].
      intros x Hxk. rewrite H4; [|intros j Hj; apply Hxk; lia].
      apply lookup_insert_ne. intros Heq. by apply (Hxk c); [lia|].
Qed.
End evaluation.

(** ** Results *)

Lemma print_solid e : wf e = true → str_forallb solid (print e) = true.
Proof.
  induction e as [n|f args IH] using gexpr_ind'; intros He.
  - apply name_ok_spec in He as [_ Hn]. by apply name_solid.
  - apply wf_call in He as (Hf & _ & Hargs). destruct (gw_function_name f Hf) as (w & -> & _ & Hw%word_name).
    cbn [print]. rewrite !str_forallb_app, (name_solid w) by done.
    enough (str_forallb solid (Join (print <$> args) ",") = true) as -> by done.
    apply Join_forallb; [done|]. rewrite Forall_fmap.
    eapply Forall_impl; [apply Forall_and; split; [exact IH|exact Hargs]|]. cbn. intros a [H1 H2]. auto.
Qed.

(** Only a flat call has the pattern of a call. *)
Lemma is_call_flat e : wf e = true → is_call (print e) = true → ∃ f ns, e = flat f ns.
Proof.
  intros He Hc. destruct e as [n|f args].
  - exfalso. apply is_call_split in Hc as (w & a & Hp & _). cbn [print] in Hp. apply name_no_colon in He.
    by rewrite Hp in He.
  - pose proof He as (Hf & _ & Hargs)%wf_call. destruct (forallb is_var args) eqn:Hv.
    + apply wf_GVar_names in Hv as (ns & -> & _); [|done]. by exists f, ns.
    + exfalso. apply args_paren in Hv as (u & x & Hu & _); [|done].
      apply is_call_split in Hc as (w & a & Hp & Hw & _ & _ & Ha).
      destruct (gw_function_name f Hf) as (w' & -> & _ & Hw').
      cbn [print] in Hp. rewrite <-(str_app_assoc "GW:" w) in Hp.
      apply (byte_split_unique "(") in Hp as [_ Hp]; [|by apply gw_word_no_paren..].
      rewrite Hu in Hp. apply no_paren_byte in Ha as [Ha _].
      assert (no_byte "(" (a +:+ ")") = true) as Hn by by rewrite no_byte_app, Ha.
      rewrite <-Hp, !no_byte_app in Hn. apply andb_true_iff in Hn as [Hn _].
      apply andb_true_iff in Hn as [_ Hn]. by cbn in Hn.
Qed.

Lemma Evaluate_print (gval : string → Vars → result error gval_value)
    (n : nat) (e : gexpr) (vars : Vars) (c : Z) (v : float64) :
  (4 ≤ n)%nat → (0 ≤ c)%Z →
  wf e = true → fresh_from c e → denote vars e = Some v →
  ∃ vars', EvaluateGroundworkExpression gval n (print e) vars c = RRet (vars', Val (v, [v])) ∧
           frame c vars vars'.
Proof.
  intros Hn Hc He Hfr Hv. rewrite Evaluate_depth by done.
  pose proof (TrimSpace_all_solid _ (print_solid e He)) as Ht.
  destruct (is_call (print e)) eqn:Hcall.
  - destruct (is_call_flat e He Hcall) as (f & ns & ->).
    exists vars. split; [|by intros x _].
    destruct (Evaluate_call gval 1 (print (flat f ns)) vars c) as [Heq _]; [by rewrite Ht|].
    change (3 + 1)%nat with 4%nat in Heq. rewrite Heq. by apply Evaluate_flat_value.
  - destruct (replace_calls_denotes gval (count_calls (print e)) e vars c v)
      as (m & vars' & H1 & H2 & H3 & H4); [done..|].
    exists vars'. split; [|done]. change 4%nat with (S 3). remember 3%nat as k.
    cbn [EvaluateGroundworkExpression]. rewrite Ht, Hcall, H1. cbn [mbind run_bind].
    assert (Split m "," = [m]) as ->.
    { apply (Split_Join_byte "," [m]); [done|]. repeat constructor. by apply name_ok_comma. }
    rewrite (arguments_names gval vars' [m] [v]); [done|by repeat constructor|].
    cbn. by rewrite H3.
Qed.

(** A well-formed expression only reads variables that the evaluator does not write. *)
Lemma denote_frame c vars vars' e :
  fresh_from c e → frame c vars vars' → denote vars' e = denote vars e.
Proof.
  intros Hfr Hframe. induction e as [n|f args IH] using gexpr_ind'.
  - cbn [denote]. by rewrite (Hframe (underscored n)).
  - apply fresh_from_call in Hfr. cbn [denote]. f_equal. 
    induction args as [|a args IHa]; [done|]. apply Forall_cons in IH as [Ha IH].
    apply Forall_cons in Hfr as [Hfa Hfr]. cbn [mapM]. rewrite (Ha Hfa).
    by rewrite (IHa IH Hfr).
Qed.

(** ** Properties *)

(** C22: A well-formed expression evaluates to its meaning: the innermost call first,
    each function applied to the values of its arguments, whatever the nesting.
    The evaluator returns within the depth four, and the only variables it adds or
    changes are the [res_k] from the counter on, which the expression may not use. *)
Theorem Evaluate_denotes (gval : string → Vars → result error gval_value)
    (n : nat) (e : gexpr) (vars : Vars) (c : Z) (v : float64) :
  (4 ≤ n)%nat → (0 ≤ c)%Z →
  wf e = true → fresh_from c e → denote vars e = Some v →
  ∃ vars', EvaluateGroundworkExpression gval n (print e) vars c = RRet (vars', Val (v, [v])) ∧
           frame c vars vars'.
Proof. apply Evaluate_print. Qed.

Definition sample_expr : gexpr :=
  GCall "GW:percentageUsed" [GCall "GW:MB" [GVar "disk.used"]; GCall "GW:MB" [GVar "disk.total"]].
Definition sample_vars : Vars :=
  <["disk_used" := VFloat (f_of_Z 262144000)]> (<["disk_total" := VFloat (f_of_Z 1048576000)]> ∅).
Definition no_gval (_ : string) (_ : Vars) : result error gval_value := Fail (Opaque "no arithmetic").

Example sample_text :
  print sample_expr = "GW:percentageUsed(GW:MB(disk.used),GW:MB(disk.total))".
Proof. reflexivity. Qed.

Lemma sample_fresh : fresh_from 0 sample_expr.
Proof. cbn. by split_and!. Qed.

Lemma Evaluate_denotes_witness :
  ∃ v vars', EvaluateGroundworkExpression no_gval 4 (print sample_expr) sample_vars 0 =
             RRet (vars', Val (v, [v])) ∧ frame 0 sample_vars vars'.
Proof.
  eexists. apply (Evaluate_denotes no_gval 4 sample_expr sample_vars 0).
  - lia.
  - lia.
  - vm_compute. reflexivity.
  - apply sample_fresh.
  - vm_compute. reflexivity.
Defined.

(** A call without arguments makes the evaluator recurse for ever: it is not one
    of the calls the pattern admits, and it is its own last call. *)
Theorem Evaluate_empty_call_never_returns (gval : string → Vars → result error gval_value)
    (f : string) (vars : Vars) (c : Z) :
  is_Some (gw_function f) →
  ∀ n, EvaluateGroundworkExpression gval n (f +:+ "()") vars c = RDeep.
Proof.
  intros Hf n. apply Evaluate_bad. destruct (gw_function_name f Hf) as (w & -> & _ & Hw).
  pose proof (word_name w Hw) as Hwn.
  assert (("GW:" +:+ w) +:+ "()" = "GW:" +:+ (w +:+ "(") +:+ ")") as -> by by rewrite !str_app_assoc.
  split_and!.
  - exists (w +:+ "("). split; [done|]. rewrite no_byte_app. by rewrite (name_no_byte _ _ Hwn).
  - apply (LastIndex_call ""). rewrite !no_byte_app. by rewrite (name_no_byte _ _ Hwn).
  - destruct (is_call _) eqn:Hc; [|done].
    apply is_call_split in Hc as (w' & a & Hp & Hw' & _ & Ha0 & Ha).
    assert ("GW:" +:+ (w +:+ "(") +:+ ")" = ("GW:" +:+ w) +:+ String "(" ")") as He by by rewrite !str_app_assoc.
    rewrite He, <-(str_app_assoc "GW:" w') in Hp.
    apply (byte_split_unique "(") in Hp as [_ Hp]; [|by apply gw_word_no_paren..].
    destruct a as [|d [|d' a]]; [done|by injection Hp|by injection Hp].
Qed.

Lemma Evaluate_empty_call_never_returns_witness :
  is_Some (gw_function "GW:KB") ∧
  ∀ n, EvaluateGroundworkExpression no_gval n "GW:KB()" ∅ 0 = RDeep.
Proof.
  split; [by eexists|].
  apply (Evaluate_empty_call_never_returns no_gval "GW:KB" ∅ 0). by eexists.
Defined.

(** A parameter that is named like a variable of the evaluator is overwritten by
    the value of the last call before it is read. *)
Example Evaluate_clobbers_res :
  EvaluateGroundworkExpression no_gval 4 "GW:maxDouble(res_0,GW:KB(total))"
    (<["res_0" := VFloat (f_of_Z 100)]> (<["total" := VFloat (f_of_Z 2048)]> ∅)) 0 =
  RRet (<["res_0" := VFloat (f_of_Z 2)]> (<["res_1" := VFloat (f_of_Z 2)]> (<["total" := VFloat (f_of_Z 2048)]> ∅)),
        Val (f_of_Z 2, [f_of_Z 2])).
Proof. vm_compute. reflexivity. Qed.
