(* ===== verification/FloatText.v ===== *)
(** Go's text of floats and durations: [strconv.ParseFloat], [%.0f], and the
    conversions of [time.Duration]; and the text of an integer read back as a
    float. *)

From S2P Require Import Prelude.
From S2P Require Import GoString.
From S2P Require Import GoFloat.
From Stdlib Require Import DecimalString DecimalPos DecimalFacts.

Local Open Scope string_scope.
Local Open Scope Z_scope.

(** ** Printing with no decimals *)

(** [fmt.Sprintf("%.0f", x)] *)
Definition fmt_f0 (x : float64) : string :=
  let text (neg : bool) (u : Z) : string := (if neg then "-" else "") +:+ FormatInt u in
  match x with
  | S754_nan => "NaN"
  | S754_infinity neg => if neg then "-Inf" else "+Inf"
  | S754_zero neg => text neg 0
  | S754_finite neg m e => text neg (scaled (Z.pos m) e 0)
  end.

Example fmt_f0_1 : fmt_f0 (f_ratio 5 2) = "2". Proof. by vm_compute. Qed.
Example fmt_f0_2 : fmt_f0 (f_ratio (-7) 2) = "-4". Proof. by vm_compute. Qed.

(** ** Durations *)

Definition Nanosecond : Z := 1.
Definition Millisecond : Z := 10 ^ 6.
Definition Second : Z := 10 ^ 9.
Definition Minute : Z := 60 * Second.
Definition Hour : Z := 60 * Minute.

(** [Hours], [Minutes] and [Seconds]: the whole units plus the rest as a quotient. *)
Definition in_units (unit d : Z) : float64 :=
  f_add (f_of_Z (Z.quot d unit)) (f_div (f_of_Z (Z.rem d unit)) (f_of_Z unit)).

Definition Hours : Z → float64 := in_units Hour.
Definition Minutes : Z → float64 := in_units Minute.
Definition Seconds : Z → float64 := in_units Second.

(** [time.ParseDuration] of a decimal number of hours without a sign, the only
    texts the program parses: the value, 0 with an error when it overflows. *)
Definition ParseDuration_hours (h : Z) : result num_error Z :=
  if decide (h * Hour < 2 ^ 63) then Val (h * Hour) else Fail ErrSyntax.

(** ** Parsing *)

Definition digit_value (c : ascii) : option Z :=
  let n := Z.of_nat (nat_of_ascii c) in
  if decide (48 ≤ n ≤ 57) then Some (n - 48) else None.

(** ASCII letters in lower case, as [c | ('x' - 'X')] does for letters. *)
Definition lower (c : ascii) : ascii := ascii_of_nat (Nat.lor (nat_of_ascii c) 32).

Definition hex_value (c : ascii) : option Z :=
  match digit_value c with
  | Some d => Some d
  | None =>
      let n := Z.of_nat (nat_of_ascii (lower c)) in
      if decide (97 ≤ n ≤ 102) then Some (n - 87) else None
  end.

Definition mant_value (hex : bool) (c : ascii) : option Z :=
  if hex then hex_value c else digit_value c.

(** What the mantissa loop has read: the digits as one number, how many of them
    follow the point, and which characters were seen. *)
Record mant := mkMant {
  mt_value : Z;
  mt_frac : Z;
  mt_sawdot : bool;
  mt_sawdigits : bool;
  mt_underscores : bool;
}.

Fixpoint scan_mant (hex : bool) (m : mant) (s : string) : mant * string :=
  match s with
  | "" => (m, "")
  | String c s' =>
      if decide (c = "_"%char) then
        scan_mant hex (mkMant (mt_value m) (mt_frac m) (mt_sawdot m) (mt_sawdigits m) true) s'
      else if decide (c = "."%char) then
        if mt_sawdot m then (m, s)
        else scan_mant hex (mkMant (mt_value m) (mt_frac m) true (mt_sawdigits m) (mt_underscores m)) s'
      else match mant_value hex c with
      | Some d =>
          scan_mant hex (mkMant ((if hex then 16 else 10) * mt_value m + d)
            (mt_frac m + if mt_sawdot m then 1 else 0) (mt_sawdot m) true (mt_underscores m)) s'
      | None => (m, s)
      end
  end.

(** The digits of the exponent, which stops growing at 10000. *)
Fixpoint scan_exp (e : Z) (underscores : bool) (s : string) : Z * bool * string :=
  match s with
  | "" => (e, underscores, "")
  | String c s' =>
      if decide (c = "_"%char) then scan_exp e true s'
      else match digit_value c with
      | Some d => scan_exp (if decide (e < 10000) then e * 10 + d else e) underscores s'
      | None => (e, underscores, s)
      end
  end.

(** [underscoreOK]: an underscore stands between digits, or after a base prefix. *)
Fixpoint underscore_ok (hex : bool) (saw : ascii) (s : string) : bool :=
  match s with
  | "" => negb (bool_decide (saw = "_"%char))
  | String c s' =>
      match mant_value hex c with
      | Some _ => underscore_ok hex "0" s'
      | None =>
          if decide (c = "_"%char) then
            bool_decide (saw = "0"%char) && underscore_ok hex "_" s'
          else negb (bool_decide (saw = "_"%char)) && underscore_ok hex "!" s'
      end
  end.

Definition underscoreOK (s : string) : bool :=
  let s := (split_sign s).2 in
  match s with
  | String "0" (String c s') =>
      if decide (lower c ∈ ["b"; "o"; "x"]%char) then
        underscore_ok (bool_decide (lower c = "x"%char)) "0" s'
      else underscore_ok false "^" s
  | _ => underscore_ok false "^" s
  end.

(** The body after the sign: whether it is hexadecimal, and its digits. *)
Definition split_hex (s : string) : bool * string :=
  match s with
  | String "0" (String c (String _ _ as s')) =>
      if decide (lower c = "x"%char) then (true, s') else (false, s)
  | _ => (false, s)
  end.

(** The exponent and what follows; [None] is a syntax error. *)
Definition read_exp (hex : bool) (s : string) : option (Z * bool * string) :=
  match s with
  | String c s' =>
      if decide (lower c = (if hex then "p" else "e")%char) then
        let '(neg, s') := split_sign s' in
        match s' with
        | String d _ =>
            match digit_value d with
            | Some _ =>
                let '(e, u, rest) := scan_exp 0 false s' in
                Some (if neg then - e else e, u, rest)
            | None => None
            end
        | "" => None
        end
      else if hex then None else Some (0, false, s)
  | "" => if hex then None else Some (0, false, "")
  end.

(** [m * 10^e], and [m * 2^e], correctly rounded; infinite when too large. *)
Definition decimal_float (neg : bool) (m e : Z) : float64 :=
  match m with
  | Z.pos p =>
      if decide (0 ≤ e) then
        binary_normalize prec64 emax64 (if neg then - (m * 10 ^ e) else m * 10 ^ e) 0 neg
      else SFdiv prec64 emax64 (S754_finite neg p 0) (S754_finite false (Z.to_pos (10 ^ (- e))) 0)
  | _ => S754_zero neg
  end.

Definition hex_float (neg : bool) (m e : Z) : float64 :=
  match m with
  | Z.pos p => binary_normalize prec64 emax64 (if neg then Z.neg p else m) e neg
  | _ => S754_zero neg
  end.

Definition range_checked (x : float64) : result num_error float64 :=
  match x with S754_infinity _ => Fail ErrRange | _ => Val x end.

(** Case-insensitive comparison with a lower-case word. *)
Fixpoint lower_all (s : string) : string :=
  match s with
  | "" => ""
  | String c s' =>
      String (if decide (65 ≤ Z.of_nat (nat_of_ascii c) ≤ 90) then lower c else c) (lower_all s')
  end.

Definition special (s : string) : option float64 :=
  let '(neg, body) := split_sign s in
  if decide (lower_all body ∈ ["inf"; "infinity"]) then Some (S754_infinity neg)
  else if decide (lower_all s = "nan") then Some f_nan else None.

Definition ParseFloat (s : string) : result num_error float64 :=
  match special s with
  | Some x => Val x
  | None =>
      let '(neg, body) := split_sign s in
      let '(hex, body) := split_hex body in
      let '(m, rest) := scan_mant hex (mkMant 0 0 false false false) body in
      if negb (mt_sawdigits m) then Fail ErrSyntax
      else match read_exp hex rest with
      | None => Fail ErrSyntax
      | Some (e, u, rest) =>
          if (mt_underscores m || u) && negb (underscoreOK s) then Fail ErrSyntax
          else if negb (bool_decide (rest = "")) then Fail ErrSyntax
          else range_checked
            (if hex then hex_float neg (mt_value m) (e - 4 * mt_frac m)
             else decimal_float neg (mt_value m) (e - mt_frac m))
      end
  end.

Example ParseFloat_1 : ParseFloat "30.590000" = Val (f_ratio 3059 100). Proof. by vm_compute. Qed.
Example ParseFloat_2 : ParseFloat "-1_0e-1" = Val (f_of_Z (-1)). Proof. by vm_compute. Qed.
Example ParseFloat_3 : ParseFloat "0x1.8p1" = Val (f_of_Z 3). Proof. by vm_compute. Qed.
Example ParseFloat_4 : ParseFloat "1e309" = Fail ErrRange. Proof. by vm_compute. Qed.
Example ParseFloat_5 : ParseFloat "3 minute(s)" = Fail ErrSyntax. Proof. by vm_compute. Qed.
Example ParseFloat_6 : ParseFloat "+Infinity" = Val (S754_infinity false). Proof. by vm_compute. Qed.

(** ** Shortest text: [fmt.Sprint(x)]

    The shortest decimal that reads back as the number, and the closest of these: its
    digits, and the place of the decimal point, counted from the left of the digits. *)

Definition digit_count (z : Z) : Z := if decide (z = 0) then 0 else slen (FormatInt z).

(** The place of the point of [num / den]; [fuel] bounds the zeros after it. *)
Fixpoint point_below (fuel : nat) (num den : Z) : Z :=
  match fuel with
  | O => 0
  | S fuel => if decide (den ≤ num * 10) then 0 else point_below fuel (num * 10) den - 1
  end.

Definition point_of (num den : Z) : Z :=
  let d := digit_count (num / den) in if decide (d = 0) then point_below 330 num den else d.

(** The candidates with [n] digits: the quotient and the next number. *)
Definition candidate (x : float64) (num den p n : Z) : option Z :=
  let up := 10 ^ Z.max (n - p) 0 in
  let down := 10 ^ Z.max (p - n) 0 in
  let q := num * up / (den * down) in
  let r := (num * up) `mod` (den * down) in
  let reads d := f_eq (decimal_float false d (p - n)) x in
  let (a, b) := if decide (2 * r ≤ den * down) then (q, q + 1) else (q + 1, q) in
  if reads a then Some a else if reads b then Some b else None.

Fixpoint shortest (fuel : nat) (x : float64) (num den p n : Z) : Z :=
  match fuel with
  | O => 0
  | S fuel => match candidate x num den p n with Some d => d | None => shortest fuel x num den p (n + 1) end
  end.

Fixpoint strip_zeros (s : string) : string :=
  match s with
  | "" => ""
  | String c s => match strip_zeros s with "" => if decide (c = "0"%char) then "" else String c "" | r => String c r end
  end.

(** Without an exponent. *)
Definition fmt_point (digits : string) (p : Z) : string :=
  let n := slen digits in
  if decide (p ≤ 0) then "0." +:+ zeros (Z.to_nat (- p)) +:+ digits
  else if decide (n ≤ p) then digits +:+ zeros (Z.to_nat (p - n))
  else String.substring 0 (Z.to_nat p) digits +:+ "." +:+ String.substring (Z.to_nat p) (Z.to_nat (n - p)) digits.

(** With an exponent below 10^-4 and from 10^6. *)
Definition fmt_shortest (digits : string) (p : Z) : string :=
  if decide (p - 1 < -4 ∨ 6 ≤ p - 1) then
    let e := p - 1 in
    let (h, t) := match digits with String c t => (String c "", t) | "" => ("", "") end in
    h +:+ (if decide (t = "") then "" else "." +:+ t) +:+ "e" +:+ (if decide (e < 0) then "-" else "+") +:+
      pad_left 2 (FormatInt (Z.abs e))
  else fmt_point digits p.

(** The text of a number, by the text of its shortest digits. *)
Definition fmt_digits (text : string → Z → string) (x : float64) : string :=
  match x with
  | S754_nan => "NaN"
  | S754_infinity neg => if neg then "-Inf" else "+Inf"
  | S754_zero neg => if neg then "-0" else "0"
  | S754_finite neg m e =>
      let num := Z.pos m * 2 ^ Z.max e 0 in
      let den := 2 ^ Z.max (- e) 0 in
      let p := point_of num den in
      let d := shortest 17 (S754_finite false m e) num den p 1 in
      let s := FormatInt d in
      (** A carry gives one digit more. *)
      let n := digit_count d in
      (if neg then "-" else "") +:+
        text (strip_zeros s) (if decide (d = 10 ^ (n - 1) ∧ f_le (decimal_float false 1 p) (S754_finite false m e) = true)
                              then p + 1 else p)
  end.

(** [fmt.Sprint(x)], and [strconv.FormatFloat(x, 'f', -1, 64)]. *)
Definition fmt_v : float64 → string := fmt_digits fmt_shortest.
Definition fmt_plain : float64 → string := fmt_digits fmt_point.

Example fmt_v_1 : fmt_v (f_ratio 250 1000) = "0.25". Proof. by vm_compute. Qed.
Example fmt_v_2 : fmt_v (f_ratio 1930 1000) = "1.93". Proof. by vm_compute. Qed.
Example fmt_v_3 : fmt_v (f_ratio 100000 1) = "100000". Proof. by vm_compute. Qed.
Example fmt_v_4 : fmt_v (f_ratio 1 10) = "0.1". Proof. by vm_compute. Qed.
Example fmt_v_5 : fmt_v (f_ratio (-1) 3) = "-0.3333333333333333". Proof. by vm_compute. Qed.
Example fmt_v_7 : fmt_v (f_ratio 123456789 1) = "1.23456789e+08". Proof. by vm_compute. Qed.
Example fmt_v_8 : fmt_v (f_ratio 9999999 10000) = "999.9999". Proof. by vm_compute. Qed.
Example fmt_v_9 : fmt_v (decimal_float false 1 23) = "1e+23". Proof. by vm_compute. Qed.
Example fmt_plain_1 : fmt_plain (f_ratio 123456789 1) = "123456789". Proof. by vm_compute. Qed.
Example fmt_plain_2 : fmt_plain (f_ratio 1 100000) = "0.00001". Proof. by vm_compute. Qed.
Example fmt_plain_3 : fmt_plain (f_ratio 25 10) = "2.5". Proof. by vm_compute. Qed.
Example fmt_v_6 : fmt_v (f_ratio 1 100000) = "1e-05". Proof. by vm_compute. Qed.

(** ** Conversions of integers

    [float64(z)] of a 64-bit integer is a number: it is never NaN and never
    infinite. *)

Lemma digits2_log2 p : Z.pos (digits2_pos p) = Z.log2 (Z.pos p) + 1.
Proof.
  induction p as [p IH|p IH|]; [| |done]; cbn [digits2_pos]; rewrite Pos2Z.inj_succ, IH.
  - rewrite (Pos2Z.inj_xI p), Z.log2_succ_double by lia. lia.
  - rewrite (Pos2Z.inj_xO p), Z.log2_double by lia. lia.
Qed.

Lemma Zdigits2_bound m k : 0 ≤ m → m < 2 ^ k → 0 ≤ k → 0 ≤ Zdigits2 m ≤ k.
Proof.
  intros Hm Hk Hk0. destruct m as [|p|p]; cbn [Zdigits2]; [lia| |lia].
  rewrite digits2_log2. assert (Z.log2 (Z.pos p) < k) by by apply Z.log2_lt_pow2. 
  pose proof (Z.log2_nonneg (Z.pos p)). lia.
Qed.

Lemma shr_1_bound r : 0 ≤ shr_m r → 0 ≤ shr_m (shr_1 r) ≤ shr_m r.
Proof. destruct r as [[|[p|p|]|p] a b]; cbn; lia. Qed.

Lemma iter_shr_bound p r : 0 ≤ shr_m r → 0 ≤ shr_m (iter_pos shr_1 p r) ≤ shr_m r.
Proof.
  revert r. induction p as [p IH|p IH|]; intros r Hr; cbn [iter_pos].
  - pose proof (shr_1_bound r Hr). pose proof (IH (shr_1 r)). 
    pose proof (IH (iter_pos shr_1 p (shr_1 r))). lia.
  - pose proof (IH r Hr). pose proof (IH (iter_pos shr_1 p r)). lia.
  - by apply shr_1_bound.
Qed.

Lemma shr_record_of_loc_m m l : shr_m (shr_record_of_loc m l) = m.
Proof. by destruct l as [|[]]. Qed.

Lemma shr_fexp_bound m e l k r e' :
  0 ≤ m < 2 ^ k → 0 ≤ k ≤ 300 → - 1074 ≤ e ≤ 300 →
  shr_fexp prec64 emax64 m e l = (r, e') → 0 ≤ shr_m r ≤ m ∧ - 1074 ≤ e' ≤ Z.max e (k + e - 53).
Proof.
  intros Hm Hk He. unfold shr_fexp, shr, SpecFloat.fexp, emin, prec64, emax64.
  pose proof (Zdigits2_bound m k). pose proof (shr_record_of_loc_m m l) as Hr.
  destruct (_ - e) as [|p|p] eqn:Hp; intros [= <- <-]; rewrite ?Hr; [lia| |lia].
  pose proof (iter_shr_bound p (shr_record_of_loc m l)). lia.
Qed.

Lemma round_nearest_even_bound m l : m ≤ round_nearest_even m l ≤ m + 1.
Proof. destruct l as [|[]]; cbn; try case_match; lia. Qed.

Definition is_inf (x : float64) : bool := match x with S754_infinity _ => true | _ => false end.
Definition is_number (x : float64) : bool := negb (is_nan x) && negb (is_inf x).

Lemma binary_round_aux_number s m e l :
  0 ≤ m < 2 ^ 200 → - 1074 ≤ e ≤ 100 → is_number (binary_round_aux prec64 emax64 s m e l) = true.
Proof.
  intros Hm He. unfold binary_round_aux.
  destruct (shr_fexp _ _ m e l) as [r e'] eqn:H1. apply (shr_fexp_bound _ _ _ 200) in H1; try lia.
  destruct (shr_fexp _ _ (round_nearest_even _ _) _ _) as [r' e''] eqn:H2.
  pose proof (round_nearest_even_bound (shr_m r) (loc_of_shr_record r)).
  apply (shr_fexp_bound _ _ _ 201) in H2; [|lia..].
  destruct (shr_m r') eqn:Hr; [done| |lia].
  rewrite (proj2 (Z.leb_le e'' _)); [done|]. unfold emax64, prec64. lia.
Qed.

Lemma shl_align_bound p e e' : 
  shl_align p e e' = (p, e) ∨ 
  ∃ d, e' = e - Z.pos d ∧ shl_align p e e' = (Pos.iter xO p d, e').
Proof.
  unfold shl_align. destruct (e' - e) as [|d|d] eqn:Hd; [by left..|]. right. exists d. split; [lia|done].
Qed.

Lemma Pos_iter_xO p d : Z.pos (Pos.iter xO p d) = Z.pos p * 2 ^ Z.pos d.
Proof.
  revert p. induction d as [|d IH] using Pos.peano_ind; intros p; [cbn; lia|].
  rewrite Pos.iter_succ, Pos2Z.inj_xO, IH, Pos2Z.inj_succ, Z.pow_succ_r by lia. lia.
Qed.

Lemma f_of_Z_number z : - 2 ^ 64 < z < 2 ^ 64 → is_number (f_of_Z z) = true.
Proof.
  intros Hz. unfold f_of_Z, binary_normalize.
  assert (∀ s p, Z.pos p < 2 ^ 64 → is_number (binary_round prec64 emax64 s p 0) = true) as Hr.
  { intros s p Hp. unfold binary_round.
    destruct (shl_align_bound p 0 (SpecFloat.fexp prec64 emax64 (Z.pos (digits2_pos p) + 0)))
      as [->|(d & Hd & ->)].
    - apply binary_round_aux_number; lia.
    - pose proof (Zdigits2_bound (Z.pos p) 64) as Hb. cbn [Zdigits2] in Hb.
      unfold SpecFloat.fexp, emin, prec64, emax64 in Hd |- *.
      assert (1 ≤ Z.pos d ≤ 53) by lia. 
      assert (2 ^ Z.pos d ≤ 2 ^ 53) by (apply Z.pow_le_mono_r; lia).
      apply binary_round_aux_number; [rewrite Pos_iter_xO; nia|lia]. }
  destruct z as [|p|p]; [done|apply Hr; lia|apply Hr; lia].
Qed.

(** ** The text of an integer reads back as its float *)

Lemma scan_digit c d v sd u s :
  digit_value c = Some d → c ≠ "_"%char → c ≠ "."%char →
  scan_mant false (mkMant v 0 false sd u) (String c s) =
  scan_mant false (mkMant (10 * v + d) 0 false true u) s.
Proof. intros Hd H1 H2. cbn [scan_mant mt_sawdot mt_value mt_frac mt_underscores mant_value].
  by rewrite !decide_False, Hd by done. Qed.

Lemma scan_uint_acc d acc u :
  scan_mant false (mkMant (Z.pos acc) 0 false true u) (NilEmpty.string_of_uint d) =
  (mkMant (Z.pos (Pos.of_uint_acc d acc)) 0 false true u, "").
Proof.
  revert acc. induction d as [|d IH|d IH|d IH|d IH|d IH|d IH|d IH|d IH|d IH|d IH]; intros acc; [done|..];
    cbn [NilEmpty.string_of_uint Pos.of_uint_acc];
    (erewrite scan_digit; [|reflexivity|done|done]); rewrite <-IH; do 2 f_equal; match goal with |- context [Z.of_nat ?n - 48] => let d := eval vm_compute in (Z.of_nat n - 48) in change (Z.of_nat n - 48) with d end; lia.
Qed.

Lemma scan_uint d sd u :
  scan_mant false (mkMant 0 0 false sd u) (NilEmpty.string_of_uint d) =
  (mkMant (Z.of_N (Pos.of_uint d)) 0 false (sd || match d with Decimal.Nil => false | _ => true end) u, "").
Proof.
  revert sd. induction d as [|d IH|d IH|d IH|d IH|d IH|d IH|d IH|d IH|d IH|d IH]; intros sd;
    [cbn; by rewrite orb_false_r|..];
    cbn [NilEmpty.string_of_uint Pos.of_uint]; rewrite orb_true_r;
    (erewrite scan_digit; [|reflexivity|done|done]).
  - apply (IH true).
  - apply (scan_uint_acc d 1).
  - apply (scan_uint_acc d 2).
  - apply (scan_uint_acc d 3).
  - apply (scan_uint_acc d 4).
  - apply (scan_uint_acc d 5).
  - apply (scan_uint_acc d 6).
  - apply (scan_uint_acc d 7).
  - apply (scan_uint_acc d 8).
  - apply (scan_uint_acc d 9).
Qed.

Lemma Pos_to_uint_string p :
  NilZero.string_of_uint (Pos.to_uint p) = NilEmpty.string_of_uint (Pos.to_uint p).
Proof. pose proof (Pos_to_uint_nonnil p). by destruct (Pos.to_uint p). Qed.

(** The first character of a number is a digit, and no [0x] opens it. *)
Lemma uint_head d : d ≠ Decimal.Nil →
  ∃ c s, NilEmpty.string_of_uint d = String c s ∧ c ∈ ["0";"1";"2";"3";"4";"5";"6";"7";"8";"9"]%char.
Proof. destruct d; [done|..]; intros _; eexists _, _; (split; [reflexivity|set_solver]). Qed.

Lemma lower_all_head c s w : c ∈ ["0";"1";"2";"3";"4";"5";"6";"7";"8";"9"]%char →
  lower_all (String c s) = w → ∃ t, w = String c t.
Proof.
  intros Hc <-. cbn [lower_all]. eexists. f_equal.
  repeat (apply elem_of_cons in Hc as [->|Hc]; [done|]). by apply elem_of_nil in Hc.
Qed.

Lemma not_special_digit c s : c ∈ ["0";"1";"2";"3";"4";"5";"6";"7";"8";"9"]%char →
  special (String c s) = None ∧ special (String "-" (String c s)) = None.
Proof.
  intros Hc. unfold special.
  assert (split_sign (String c s) = (false, String c s)) as ->.
  { unfold split_sign. repeat (apply elem_of_cons in Hc as [->|Hc]; [done|]). by apply elem_of_nil in Hc. }
  change (split_sign (String "-" (String c s))) with (true, String c s).
  assert (∀ w, w ∈ ["inf"; "infinity"; "nan"] → lower_all (String c s) ≠ w) as Hn.
  { intros w Hw Hl. destruct (lower_all_head c s w Hc Hl) as [t ->].
    repeat (apply elem_of_cons in Hc as [->|Hc]; [set_solver|]). by apply elem_of_nil in Hc. }
  assert (lower_all (String c s) ∉ ["inf"; "infinity"]) as Hi.
  { intros Hi. apply (Hn (lower_all (String c s))); [set_solver|done]. }
  rewrite !(decide_False _ _ Hi), !decide_False; [done|by intros [=]|apply Hn; set_solver].
Qed.

Lemma lower_digit_not_x c : c ∈ ["0";"1";"2";"3";"4";"5";"6";"7";"8";"9"]%char → lower c ≠ "x"%char.
Proof. intros Hc. repeat (apply elem_of_cons in Hc as [->|Hc]; [by vm_compute|]). by apply elem_of_nil in Hc. Qed.

Lemma string_of_uint_all d c : c ∈ String.list_ascii_of_string (NilEmpty.string_of_uint d) →
  c ∈ ["0";"1";"2";"3";"4";"5";"6";"7";"8";"9"]%char.
Proof.
  induction d as [|d IH|d IH|d IH|d IH|d IH|d IH|d IH|d IH|d IH|d IH]; cbn; [by intros ?%elem_of_nil|..];
    (intros [->|?]%elem_of_cons; [set_solver|auto]).
Qed.

Lemma split_hex_uint d : split_hex (NilEmpty.string_of_uint d) = (false, NilEmpty.string_of_uint d).
Proof.
  pose proof (string_of_uint_all d) as Hall.
  destruct (NilEmpty.string_of_uint d) as [|a [|b [|c s]]]; [done| | |];
    destruct a as [[] [] [] [] [] [] [] []]; try done.
  cbn [split_hex]. rewrite decide_False; [done|]. apply lower_digit_not_x, Hall. cbn. set_solver.
Qed.

Lemma decimal_float_int neg p :
  decimal_float neg (Z.pos p) 0 = f_of_Z (if neg then Z.neg p else Z.pos p).
Proof. unfold decimal_float. rewrite decide_True by lia. rewrite Z.mul_1_r. by destruct neg. Qed.

Lemma ParseFloat_FormatInt z : - 2 ^ 64 < z < 2 ^ 64 → ParseFloat (FormatInt z) = Val (f_of_Z z).
Proof.
  intros Hz. pose proof (f_of_Z_number z Hz) as Hn.
  assert (range_checked (f_of_Z z) = Val (f_of_Z z)) as Hr by by destruct (f_of_Z z).
  destruct z as [|p|p]; [by vm_compute| |];
    unfold FormatInt; cbn [Z.to_int NilZero.string_of_int]; rewrite Pos_to_uint_string;
    destruct (uint_head (Pos.to_uint p) (Pos_to_uint_nonnil p)) as (c & s & Hs & Hc);
    destruct (not_special_digit c s Hc) as [Hs1 Hs2]; unfold ParseFloat;
    pose proof (split_hex_uint (Pos.to_uint p)) as Hx;
    pose proof (split_sign_uint (Pos.to_uint p)) as Hss; rewrite Pos_to_uint_string in Hss;
    pose proof (scan_uint (Pos.to_uint p) false false) as Hsc;
    assert (match Pos.to_uint p with Decimal.Nil => false | _ => true end = true) as Hnn
      by (pose proof (Pos_to_uint_nonnil p); by destruct (Pos.to_uint p));
    rewrite Hnn in Hsc;
    rewrite DecimalPos.Unsigned.of_to in Hsc; cbn [Z.of_N orb] in Hsc.
  - rewrite Hs, Hs1, <-Hs, Hss, Hx, Hsc. cbn -[decimal_float range_checked binary_normalize].
    by rewrite (decimal_float_int false).
  - rewrite Hs, Hs2, <-Hs. change (split_sign (String "-" ?x)) with (true, x). cbv beta iota. rewrite Hx, Hsc. 
    cbn -[decimal_float range_checked binary_normalize]. by rewrite (decimal_float_int true).
Qed.
