(* ===== verification/AgentTasks.v ===== *)
(** services/agent.go: the agent service as its callers see it.  Every call of its
    interface becomes a task of the queue; the worker looks the subject up, runs the
    task and remembers it as the task in progress; a signal becomes an exit task.

    The parts are [TaskQueue] and [Agent].  The queue keeps the tasks, the service
    beside it the agent and the results for the callers that wait.  The effect of
    a task is one step, at its end. *)

From S2P Require Import Prelude.
From S2P Require Import GoString.
From S2P Require Import Errors.
From S2P Require Import FloatText.
From S2P Require Import Batcher.
From S2P Require Import TaskQueue.
From S2P Require Import Nats.
From S2P Require Import Agent.

Local Open Scope string_scope.

(** ** Calls *)

Definition taskQueueAlarm : Z := (9 * Second)%Z.
Definition taskQueueCapacity : Z := 8.

(** The calls of the interface: the tasks, and [exit]. *)
Inductive call := Call (t : task) | CallExit.

Definition call_subject (c : call) : taskSubject :=
  match c with
  | Call (TConfig _) => taskConfig
  | Call TResetNats => taskResetNats
  | Call TStartController => taskStartController
  | Call TStopController => taskStopController
  | Call TStartNats => taskStartNats
  | Call TStopNats => taskStopNats
  | Call TStartTransport => taskStartTransport
  | Call TStopTransport => taskStopTransport
  | CallExit => taskExit
  end.

Definition call_args (c : call) : list string :=
  match c with Call (TConfig data) => [data] | _ => [] end.

Abbreviation Task := (TaskQueue.Task string string).
Abbreviation queue_t := (TaskQueue.TaskQueue string string).
Abbreviation system := (TaskQueue.system string string).

Section async.
Context (idle : bool) (q : queue_t).
Definition pushed : Type := outcome (queue_t * result error Task).

Definition ExitAsync : pushed := PushAsync id idle q taskExit [].
Definition ResetNatsAsync : pushed := PushAsync id idle q taskResetNats [].
Definition StartControllerAsync : pushed := PushAsync id idle q taskStartController [].
Definition StopControllerAsync : pushed := PushAsync id idle q taskStopController [].
Definition StartNatsAsync : pushed := PushAsync id idle q taskStartNats [].
Definition StopNatsAsync : pushed := PushAsync id idle q taskStopNats [].
Definition StartTransportAsync : pushed := PushAsync id idle q taskStartTransport [].
Definition StopTransportAsync : pushed := PushAsync id idle q taskStopTransport [].

(** What a call of the interface does before it waits, if it does. *)
Definition call_async (c : call) : pushed :=
  match c with
  | Call (TConfig data) => PushAsync id idle q taskConfig [data]
  | Call TResetNats => ResetNatsAsync
  | Call TStartController => StartControllerAsync
  | Call TStopController => StopControllerAsync
  | Call TStartNats => StartNatsAsync
  | Call TStopNats => StopNatsAsync
  | Call TStartTransport => StartTransportAsync
  | Call TStopTransport => StopTransportAsync
  | CallExit => ExitAsync
  end.
End async.

(** [PushSync]: the error of the push, or what comes from the channel of the task, if
    anything has. *)
Definition PushSync (r : result error Task) (done : option (option error)) : option (option error) :=
  match r with Fail e => Some (Some e) | Val _ => done end.

(** The queue of [handleTasks]: the subjects that have a handler.  What the handler
    does is [hTask]; it also changes the agent, so its error is kept outside of the
    queue's history. *)
Definition task_handlers : list (string * @Handler string string) :=
  (λ s, (s, λ _, None)) <$>
    [taskConfig; taskExit; taskResetNats; taskStartController; taskStopController;
     taskStartNats; taskStopNats; taskStartTransport; taskStopTransport].

Definition handleTasks : list (@TaskQueueOption string string) :=
  [WithCapacity taskQueueCapacity; WithHandlers task_handlers].

(** ** The status *)

Inductive Status := StatusProcessing | StatusRunning | StatusStopped | StatusUnknown.

Definition status_of (b : bool) : Status := if b then StatusRunning else StatusStopped.

Definition status_text (s : Status) : string :=
  match s with
  | StatusProcessing => "processing"
  | StatusRunning => "running"
  | StatusStopped => "stopped"
  | StatusUnknown => "unknown"
  end.

(** [AgentStatus]: its fields are functions, evaluated where they are shown. *)
Record AgentStatus := mkAgentStatus {
  as_Controller : agent → Status;
  as_Transport : agent → Status;
  as_Nats : agent → Status;
  as_task : option Task;
}.

Definition xAgentStatusController (a : agent) : Status := status_of (ag_controller a).
Definition xAgentStatusTransport (a : agent) : Status := status_of (IsStartedDispatcher (ag_nats a)).
Definition xAgentStatusNats (a : agent) : Status := status_of (IsStartedServer (ag_nats a)).

Definition AgentStatus_String (p : AgentStatus) (a : agent) : string :=
  "{Nats:" +:+ status_text (as_Nats p a) +:+ " Transport:" +:+ status_text (as_Transport p a) +:+
  " Controller:" +:+ status_text (as_Controller p a) +:+ "}".

(** ** Tasks *)

(** A task that ended, or one that waits without end. *)
Inductive task_end := TaskDone (a : agent) (e : option error) | TaskBlocked (w : wait) (a : agent).

Definition exit_end (r : exit_result) : task_end :=
  match r with Exited a => TaskDone a None | Blocked w a => TaskBlocked w a end.

Section service.
Context (BE BM : BatchBuilder).
Context (LoadConnectorDTO : configuration → string → result error configuration).
Context (Hashsum : Config → string).

(** What is registered: a handler of configurations, which may panic, and the end
    of the exit handler. *)
Record callbacks := mkCallbacks {
  configHandler : string → outcome unit;
  exitHandler : handler_end;
}.

Definition defaultConfigHandler : string → outcome unit := λ _, Ret tt.
Definition defaultExitHandler : handler_end := HReturns.

Definition RegisterConfigHandler (cb : callbacks) (fn : string → outcome unit) : callbacks :=
  mkCallbacks fn (exitHandler cb).
Definition RemoveConfigHandler (cb : callbacks) : callbacks := mkCallbacks defaultConfigHandler (exitHandler cb).
Definition RegisterExitHandler (cb : callbacks) (fn : handler_end) : callbacks := mkCallbacks (configHandler cb) fn.
Definition RemoveExitHandler (cb : callbacks) : callbacks := mkCallbacks (configHandler cb) defaultExitHandler.

Abbreviation run := (run BE BM LoadConnectorDTO Hashsum).

(** [config] up to its end, the call of the registered handler. *)
Definition config_task (env : task_env) (cb : callbacks) (data : string) (a : agent) : outcome task_end :=
  '(a, e) ← config BE BM LoadConnectorDTO Hashsum env data a;
  match e with
  | None => _ ← configHandler cb data; Ret (TaskDone a None)
  | Some e => Ret (TaskDone a (Some e))
  end.

Definition done_task (r : agent * option error) : task_end := TaskDone r.1 r.2.

(** [hTask], without the note of the task in progress. *)
Definition hTask (env : task_env) (cb : callbacks) (t : Task) (a : agent) : outcome task_end :=
  let s := TaskQueue.subject t in
  if decide (s = taskConfig) then
    match Args t with
    | data :: _ => config_task env cb data a
    | [] => Panic "index out of range [0] with length 0"
    end
  else if decide (s = taskExit) then exit_end <$> exit BE BM (te_flush env) (exitHandler cb) a
  else if decide (s = taskResetNats) then a ← resetNats env a; Ret (TaskDone a None)
  else if decide (s = taskStartController) then Ret (TaskDone (startController env a) None)
  else if decide (s = taskStopController) then Ret (TaskDone (stopController a) None)
  else if decide (s = taskStartNats) then Ret (done_task (startNats env a))
  else if decide (s = taskStopNats) then a ← stopNats a; Ret (TaskDone a None)
  else if decide (s = taskStartTransport) then Ret (done_task (startTransport env a))
  else if decide (s = taskStopTransport) then Ret (TaskDone (stopTransport a) None)
  else Ret (TaskDone a None).

(** What a call means, whatever carries it to the agent. *)
Definition perform (env : task_env) (cb : callbacks) (c : call) (a : agent) : outcome task_end :=
  match c with
  | Call (TConfig data) => config_task env cb data a
  | Call t => done_task <$> run env t a
  | CallExit => exit_end <$> exit BE BM (te_flush env) (exitHandler cb) a
  end.

(** ** The service and its steps *)

(** [sv_task] is [agentStatus.task], [sv_results] what the [done] channels got, and
    [sv_hook] says that the goroutine of the signals waits. *)
Record service := mkService {
  sv_queue : system;
  sv_agent : agent;
  sv_task : option Task;
  sv_results : list (option error);
  sv_callbacks : callbacks;
  sv_blocked : option wait;
  sv_hook : bool;
}.

(** [GetAgentService], on its first call. *)
Definition GetAgentService (AllowSignalHandlers : bool) (c : configuration) : service :=
  mkService (initial handleTasks) (fresh_agent c) None [] (mkCallbacks defaultConfigHandler defaultExitHandler) None
    AllowSignalHandlers.

Definition Status_ (s : service) : AgentStatus :=
  mkAgentStatus xAgentStatusController xAgentStatusTransport xAgentStatusNats (sv_task s).

Definition with_queue (s : service) (q : system) : service :=
  mkService q (sv_agent s) (sv_task s) (sv_results s) (sv_callbacks s) (sv_blocked s) (sv_hook s).
Definition with_callbacks (s : service) (cb : callbacks) : service :=
  mkService (sv_queue s) (sv_agent s) (sv_task s) (sv_results s) cb (sv_blocked s) (sv_hook s).

(** The first part of a push: the task of a caller. *)
Definition caller (s : service) (su : taskSubject) (args : list string) : option service :=
  let q := sv_queue s in
  match new_task id (tq q) su args with
  | Val t => Some (with_queue s (mkSystem (tq q) (pending q ++ [t]) (running q) (finished q) (accepted q) (rejected q)))
  | Fail _ => None
  end.

(** The second part, of the [i]-th caller between the two. *)
Definition push_part (s : service) (i : nat) : option service :=
  let q := sv_queue s in
  match pending q !! i with
  | None => None
  | Some t =>
      let others := take i (pending q) ++ drop (S i) (pending q) in
      match push_locked (is_idle q) (tq q) t with
      | Ret (q', None) => Some (with_queue s (mkSystem q' others (running q) (finished q) (accepted q ++ [t]) (rejected q)))
      | Ret (q', Some _) => Some (with_queue s (mkSystem q' others (running q) (finished q) (accepted q) (rejected q ++ [t])))
      | Panic _ => None
      end
  end%list.

(** The worker takes a task, and the agent notes it. *)
Definition start_part (s : service) : option service :=
  let q := sv_queue s in
  match running q, queue (tq q) with
  | None, t :: l =>
      let tq' := mkTaskQueue (capacity (tq q)) (handlers (tq q)) (idx (tq q)) l (ring (tq q)) in
      Some (mkService (mkSystem tq' (pending q) (Some t) (finished q) (accepted q) (rejected q))
              (sv_agent s) (Some t) (sv_results s) (sv_callbacks s) None (sv_hook s))
  | _, _ => None
  end.

(** A task has ended: its error goes to its channel. *)
Definition ended (s : service) (t : Task) (a : agent) (e : option error) : service :=
  let q := sv_queue s in
  mkService (mkSystem (tq q) (pending q) None (finished q ++ [(t, None)]) (accepted q) (rejected q))%list
    a None (sv_results s ++ [e])%list (sv_callbacks s) None (sv_hook s).

Definition end_part (env : task_env) (s : service) : option service :=
  match running (sv_queue s), sv_blocked s with
  | Some t, None =>
      match hTask env (sv_callbacks s) t (sv_agent s) with
      | Ret (TaskDone a e) => Some (ended s t a e)
      | Ret (TaskBlocked w a) =>
          Some (mkService (sv_queue s) a (sv_task s) (sv_results s) (sv_callbacks s) (Some w) (sv_hook s))
      | Panic _ => None
      end
  | _, _ => None
  end.

(** A receive from [Quit]. *)
Definition take_quit (a : agent) : agent :=
  mkAgent (ag_nats a) (ag_controller a) (ag_cfg a) (ag_gwClients a) (ag_events a) (ag_metrics a) (ag_flushed a)
    (ag_tickers a) (ag_authCache a) (ag_wipes a) (ag_lastErrors a) (ag_handled a) (pred (ag_quit a)).

(** The receiver makes room for an exit that waits for it, which ends. *)
Definition quit_part (s : service) : option service :=
  if decide (ag_quit (sv_agent s) = 0%nat) then None
  else
    let a := take_quit (sv_agent s) in
    match running (sv_queue s), sv_blocked s with
    | Some t, Some AwaitsQuit => Some (ended s t (quit_signal a) None)
    | _, _ => Some (mkService (sv_queue s) a (sv_task s) (sv_results s) (sv_callbacks s) (sv_blocked s) (sv_hook s))
    end.

(** The goroutines of the batchers, between the tasks or while one waits. *)
Definition ticker_part (events : bool) (s : service) : option service :=
  match (if events then flush_events BE (sv_agent s) else flush_metrics BM (sv_agent s)) with
  | Ret a => Some (mkService (sv_queue s) a (sv_task s) (sv_results s) (sv_callbacks s) (sv_blocked s) (sv_hook s))
  | Panic _ => None
  end.

(** [hookInterrupt]: one signal is read, and becomes an exit task; those after it
    stay in the channel. *)
Definition hookInterrupt (s : service) : option service :=
  if sv_hook s then
    s ← caller s taskExit [];
    Some (mkService (sv_queue s) (sv_agent s) (sv_task s) (sv_results s) (sv_callbacks s) (sv_blocked s) false)
  else Some s.

Inductive action :=
| ACall (c : call)
| APush (i : nat)
| AStart
| AEnd (env : task_env)
| AQuit
| ATicker (events : bool)
| ASignal
| ARegisterConfig (fn : string → outcome unit)
| ARemoveConfig
| ARegisterExit (fn : handler_end)
| ARemoveExit.

Definition act (x : action) (s : service) : option service :=
  match x with
  | ACall c => caller s (call_subject c) (call_args c)
  | APush i => push_part s i
  | AStart => start_part s
  | AEnd env => end_part env s
  | AQuit => quit_part s
  | ATicker events => ticker_part events s
  | ASignal => hookInterrupt s
  | ARegisterConfig fn => Some (with_callbacks s (RegisterConfigHandler (sv_callbacks s) fn))
  | ARemoveConfig => Some (with_callbacks s (RemoveConfigHandler (sv_callbacks s)))
  | ARegisterExit fn => Some (with_callbacks s (RegisterExitHandler (sv_callbacks s) fn))
  | ARemoveExit => Some (with_callbacks s (RemoveExitHandler (sv_callbacks s)))
  end.

Definition service_step (s s' : service) : Prop := ∃ x, act x s = Some s'.

Fixpoint acts (l : list action) (s : service) : option service :=
  match l with [] => Some s | x :: l => s ← act x s; acts l s end.

(** ** The specification: calls one after another

    Each call has its environment, and the callbacks registered at the time; the
    goroutines of the batchers come between the calls, and an exit that waits for room
    ends when the signal before it is taken. *)
Inductive ticks : agent → agent → Prop :=
| ticks_events a a' : flush_events BE a = Ret a' → ticks a a'
| ticks_metrics a a' : flush_metrics BM a = Ret a' → ticks a a'.

Inductive performs (a : agent) : list (call * option error) → agent → Prop :=
| performs_none : performs a [] a
| performs_call l a1 env cb c a2 e :
    performs a l a1 → perform env cb c a1 = Ret (TaskDone a2 e) → performs a (l ++ [(c, e)])%list a2
| performs_late_exit l a1 env cb a2 a3 :
    performs a l a1 → perform env cb CallExit a1 = Ret (TaskBlocked AwaitsQuit a2) → rtc ticks a2 a3 →
    performs a (l ++ [(CallExit, None)])%list (quit_signal (take_quit a3))
| performs_quit l a1 : performs a l a1 → performs a l (take_quit a1)
| performs_ticks l a1 a2 : performs a l a1 → ticks a1 a2 → performs a l a2.

(** A task of the queue is the call. *)
Definition carries (t : Task) (c : call) : Prop := TaskQueue.subject t = call_subject c ∧ Args t = call_args c.
End service.
Arguments carries : simpl never.

(** ** Lemmas *)

Lemma PushAsync_call idle q c : call_async idle q c = PushAsync id idle q (call_subject c) (call_args c).
Proof. by destruct c as [[]|]. Qed.

Lemma call_known c q : handlers q = task_handlers → is_defined q (call_subject c) = true.
Proof. intros Hh. unfold is_defined, handler_of. rewrite Hh. by destruct c as [[]|]. Qed.

Lemma task_handlers_none q t e : handlers q = task_handlers → run_task q t = Ret e → e = None.
Proof.
  intros Hh. unfold run_task, handler_of. rewrite Hh.
  destruct (filter _ task_handlers) as [|p l] eqn:Hf; [done|]. cbn. intros [= <-].
  assert (p ∈ p :: l) as Hp by constructor. rewrite <-Hf in Hp.
  apply list_elem_of_filter in Hp as [_ Hp]. apply list_elem_of_fmap in Hp as (su & -> & _). done.
Qed.

Section service_lemmas.
Context (BE BM : BatchBuilder).
Context (LoadConnectorDTO : configuration → string → result error configuration) (Hashsum : Config → string).

Abbreviation hTask := (hTask BE BM LoadConnectorDTO Hashsum).
Abbreviation perform := (perform BE BM LoadConnectorDTO Hashsum).
Abbreviation performs := (performs BE BM LoadConnectorDTO Hashsum).
Abbreviation act := (act BE BM LoadConnectorDTO Hashsum).
Abbreviation service_step := (service_step BE BM LoadConnectorDTO Hashsum).

(** The worker does for a task what its call means. *)
Lemma hTask_carries env cb t c a : carries t c → hTask env cb t a = perform env cb c a.
Proof.
  intros [Hs Ha]. unfold AgentTasks.hTask. rewrite Hs, Ha. destruct c as [[]|]; try reflexivity.
  - cbn. by destruct (resetNats env a).
  - cbn. by destruct (stopNats a).
Qed.

(** Only an exit waits. *)
Lemma perform_blocked env cb c a w a' : perform env cb c a = Ret (TaskBlocked w a') → c = CallExit.
Proof.
  destruct c as [t|]; cbn; [|done]. intros H. exfalso. destruct t; cbn in H; unfold config_task in H;
    repeat (apply bind_Ret_inv in H as (? & _ & H) || (case_match; try discriminate)); discriminate.
Qed.
End service_lemmas.

(** An exit keeps the invariant of the agent. *)
Lemma set_batchers_inv a e m l : agent_inv a → agent_inv (set_batchers a e m l).
Proof. intros Hi. by eapply agent_inv_same; [..|exact Hi]. Qed.

Lemma take_quit_inv a : agent_inv a → agent_inv (take_quit a).
Proof. intros Hi. by eapply agent_inv_same; [..|exact Hi]. Qed.

Lemma take_quits_inv n a : agent_inv a → agent_inv (Nat.iter n take_quit a).
Proof. intros Hi. induction n as [|n IH]; [done|]. cbn [Nat.iter]. by apply take_quit_inv. Qed.

Lemma quit_signal_inv a : agent_inv a → agent_inv (quit_signal a).
Proof. intros Hi. by eapply agent_inv_same; [..|exact Hi]. Qed.

(** The batchers leave the services alone. *)
Lemma flush_events_same BE a a' : flush_events BE a = Ret a' → same_services a a'.
Proof.
  unfold flush_events. case_match; [|by intros [= <-]].
  intros ([e sent] & _ & Hr)%bind_Ret_inv. by injection Hr as <-.
Qed.

Lemma flush_metrics_same BM a a' : flush_metrics BM a = Ret a' → same_services a a'.
Proof.
  unfold flush_metrics. case_match; [|by intros [= <-]].
  intros ([m sent] & _ & Hr)%bind_Ret_inv. by injection Hr as <-.
Qed.

Lemma ticks_same BE BM a a' : ticks BE BM a a' → same_services a a'.
Proof. intros [??? %flush_events_same|??? %flush_metrics_same]; done. Qed.

Lemma background_same BE BM ft now a a' : background BE BM ft now a = Ret a' → same_services a a'.
Proof.
  unfold background. intros (a1 & H1 & H2)%bind_Ret_inv. apply (same_services_trans a a1).
  - destruct (decide (ft_events ft = now)); [exact (flush_events_same _ _ _ H1)|by injection H1 as <-].
  - destruct (decide (ft_metrics ft = now)); [exact (flush_metrics_same _ _ _ H2)|by injection H2 as <-].
Qed.

Lemma Exit_events_same BE a a' : Exit_events BE a = Ret (Some a') → same_services a a'.
Proof.
  unfold Exit_events. case_match; [done|]. intros (a1 & H1 & H2)%bind_Ret_inv. injection H2 as <-.
  apply (same_services_trans a a1); [|done]. case_match; [exact (flush_events_same _ _ _ H1)|by injection H1 as <-].
Qed.

Lemma Exit_metrics_same BM a a' : Exit_metrics BM a = Ret (Some a') → same_services a a'.
Proof.
  unfold Exit_metrics. case_match; [done|]. intros (a1 & H1 & H2)%bind_Ret_inv. injection H2 as <-.
  apply (same_services_trans a a1); [|done]. case_match; [exact (flush_metrics_same _ _ _ H1)|by injection H1 as <-].
Qed.

Lemma stopController_inv a : agent_inv a → agent_inv (stopController a).
Proof. intros Hi. unfold stopController. destruct (ag_controller a); [eapply agent_inv_same; [..|exact Hi]; done|exact Hi]. Qed.

Definition end_agent (r : task_end) : agent := match r with TaskDone a _ | TaskBlocked _ a => a end.

Lemma exit_inv BE BM ft h a r : exit BE BM ft h a = Ret r → agent_inv a → agent_inv (end_agent (exit_end r)).
Proof.
  unfold exit. intros (told & H1 & Hx)%bind_Ret_inv Hi. destruct told as [a1|]; [|by injection Hx as <-].
  apply Exit_events_same, same_services_inv in H1; [|done].
  apply bind_Ret_inv in Hx as (told & H2 & Hx). destruct told as [a2|]; [|by injection Hx as <-].
  apply Exit_metrics_same, same_services_inv in H2; [|done].
  apply bind_Ret_inv in Hx as (a3 & H3%background_same & Hx). apply same_services_inv in H3; [|done].
  apply bind_Ret_inv in Hx as (ended & _ & Hx). destruct ended; cbn [negb] in Hx; [|by injection Hx as <-].
  apply bind_Ret_inv in Hx as (a4 & H4%background_same & Hx).
  apply same_services_inv in H4; [|by apply stopController_inv].
  apply bind_Ret_inv in Hx as (a5 & H5%background_same & Hx).
  apply same_services_inv in H5; [|by apply stopTransport_inv].
  apply bind_Ret_inv in Hx as (a6 & [_ H6]%stopNats_spec & Hx).
  apply bind_Ret_inv in Hx as (a7 & H7%background_same & Hx).
  apply same_services_inv in H7; [|by apply H6].
  case_decide; injection Hx as <-; cbn; [by apply quit_signal_inv|done].
Qed.

Section invariant.
Context (BE BM : BatchBuilder).
Context (LoadConnectorDTO : configuration → string → result error configuration) (Hashsum : Config → string).

Abbreviation hTask := (hTask BE BM LoadConnectorDTO Hashsum).
Abbreviation perform := (perform BE BM LoadConnectorDTO Hashsum).
Abbreviation performs := (performs BE BM LoadConnectorDTO Hashsum).
Abbreviation act := (act BE BM LoadConnectorDTO Hashsum).
Abbreviation service_step := (service_step BE BM LoadConnectorDTO Hashsum).

Lemma perform_inv env cb c a r : perform env cb c a = Ret r → agent_inv a → agent_inv (end_agent r).
Proof.
  assert (∀ t a' e, run BE BM LoadConnectorDTO Hashsum env t a = Ret (a', e) → agent_inv a → agent_inv a') as Hrun
    by (intros t a' e Hr; exact (run_inv BE BM LoadConnectorDTO Hashsum env t a a' e Hr)).
  assert (∀ t, done_task <$> run BE BM LoadConnectorDTO Hashsum env t a = Ret r → agent_inv a →
    agent_inv (end_agent r)) as Hdone.
  { intros t. destruct (run BE BM LoadConnectorDTO Hashsum env t a) as [[a' e]|] eqn:E; [|done].
    intros [= <-]. exact (Hrun _ _ _ E). }
  destruct c as [t|].
  - destruct t as [data| | | | | | |]; try exact (Hdone _).
    cbn. unfold config_task. intros ([a' e] & Hc & Hx)%bind_Ret_inv Hi.
    pose proof (Hrun (TConfig data) a' e Hc Hi) as Hi'.
    destruct e; [by injection Hx as <-|]. apply bind_Ret_inv in Hx as (? & _ & Hx). by injection Hx as <-.
  - cbn. destruct (exit BE BM (te_flush env) (exitHandler cb) a) as [x|] eqn:E; [|done]. intros [= <-]. exact (exit_inv _ _ _ _ _ _ E).
Qed.

Abbreviation ticks := (ticks BE BM).

Lemma rtc_ticks_same a a' : rtc ticks a a' → same_services a a'.
Proof. induction 1 as [a|a a1 a' H1 _ IH]; [done|]. exact (same_services_trans _ _ _ (ticks_same _ _ _ _ H1) IH). Qed.

Lemma performs_inv a log a' : performs a log a' → agent_inv a → agent_inv a'.
Proof.
  induction 1 as [|l a1 env cb c a2 e _ IH Hp|l a1 env cb a2 a3 _ IH Hp Ht|l a1 _ IH|l a1 a2 _ IH Ht]; intros Hi; [done|..];
    specialize (IH Hi).
  - exact (perform_inv _ _ _ _ _ Hp IH).
  - apply quit_signal_inv, take_quit_inv. apply (same_services_inv _ _ (rtc_ticks_same _ _ Ht)).
    exact (perform_inv _ _ _ _ _ Hp IH).
  - by apply take_quit_inv.
  - exact (same_services_inv _ _ (ticks_same _ _ _ _ Ht) IH).
Qed.

(** *** The invariant of the service *)

(** What happens to the agent beside a task that waits: a goroutine of a batcher, or a
    receive from [Quit], which ends a wait for room. *)
Inductive beside (w : wait) : agent → agent → Prop :=
| beside_ticks a a' : ticks a a' → beside w a a'
| beside_quit a : w ≠ AwaitsQuit → beside w a (take_quit a).

(** Where the agent stands after the finished calls: between two of them, or
    inside of an exit that waits. *)
Inductive stands (s : service) (a0 : agent) : Prop :=
| stands_between : sv_blocked s = None → sv_agent s = a0 → stands s a0
| stands_waiting t env cb w a1 :
    running (sv_queue s) = Some t → carries t CallExit → sv_blocked s = Some w →
    perform env cb CallExit a0 = Ret (TaskBlocked w a1) → rtc (beside w) a1 (sv_agent s) → stands s a0.

Record service_inv (c : configuration) (s : service) : Prop := {
  si_reach : reachable id handleTasks (sv_queue s);
  si_handlers : handlers (tq (sv_queue s)) = task_handlers;
  si_capacity : capacity (tq (sv_queue s)) = taskQueueCapacity;
  si_pending : Forall (λ t, ∃ c, carries t c) (pending (sv_queue s));
  si_accepted : Forall (λ t, ∃ c, carries t c) (accepted (sv_queue s));
  si_task : sv_task s = running (sv_queue s);
  si_log : ∃ log a0, performs (fresh_agent c) log a0 ∧ stands s a0 ∧
    Forall2 carries (finished (sv_queue s)).*1 log.*1 ∧ sv_results s = log.*2;
}.

Lemma inv_init allow c : service_inv c (GetAgentService allow c).
Proof.
  split; try done; [apply rtc_refl|]. exists [], (fresh_agent c). split_and!; try done; [constructor|by apply stands_between].
Qed.

(** A change of the callers' side of the queue, or of the callbacks. *)
Lemma stands_same s s' a0 :
  sv_agent s' = sv_agent s → sv_blocked s' = sv_blocked s → running (sv_queue s') = running (sv_queue s) →
  stands s a0 → stands s' a0.
Proof.
  intros Ha Hb Hr [? ?|t env cb w a1 ? ? ? ? ?].
  - apply stands_between; congruence.
  - eapply (stands_waiting _ _ t env cb w a1); congruence.
Qed.

Lemma caller_inv c s s' k :
  caller s (call_subject k) (call_args k) = Some s' → service_inv c s → service_inv c s'.
Proof.
  unfold caller. destruct (new_task _ _ _ _) as [t|] eqn:Hn; [|done]. intros [= <-] [Hr Hh Hc Hp Ha Ht (log & a0 & Hl & Hs & H2 & H3)].
  split; try done; cbn.
  - unfold reachable in *. eapply rtc_r; [exact Hr|]. by eapply step_call.
  - apply Forall_app. split; [done|]. apply Forall_singleton. exists k. unfold new_task in Hn.
    case_match; [|done]. by injection Hn as <-.
  - exists log, a0. split_and!; try done. by eapply stands_same; [..|exact Hs].
Qed.

Lemma push_inv c s s' i : push_part s i = Some s' → service_inv c s → service_inv c s'.
Proof.
  unfold push_part. destruct (pending (sv_queue s) !! i) as [t|] eqn:Hi; [|done].
  pose proof (take_drop_middle _ _ _ Hi) as Hpe.
  destruct (push_locked _ _ t) as [[q' e]|] eqn:Hpu; [|done].
  pose proof (push_locked_cases _ _ _ _ _ Hpu) as (Hcq & Hhq & _).
  intros Hs' [Hr Hh Hc Hp Ha Ht (log & a0 & Hl & Hs & H2 & H3)].
  assert (Forall (λ t, ∃ c, carries t c) (take i (pending (sv_queue s)) ++ drop (S i) (pending (sv_queue s))) ∧
    ∃ c, carries t c) as [Hp' Ht'].
  { rewrite <-Hpe in Hp. apply Forall_app in Hp as [H4 [H5 H6]%Forall_cons].
    split; [by apply Forall_app|done]. }
  symmetry in Hpe. destruct e as [e|]; injection Hs' as <-; (split; try done; cbn).
  - unfold reachable in *. eapply rtc_r; [exact Hr|]. eapply step_reject; [exact Hpe|exact Hpu].
  - by rewrite Hhq.
  - by rewrite Hcq.
  - exists log, a0. split_and!; try done. by eapply stands_same; [..|exact Hs].
  - unfold reachable in *. eapply rtc_r; [exact Hr|]. eapply step_push; [exact Hpe|exact Hpu].
  - by rewrite Hhq.
  - by rewrite Hcq.
  - apply Forall_app. split; [done|]. by apply Forall_singleton.
  - exists log, a0. split_and!; try done. by eapply stands_same; [..|exact Hs].
Qed.

Lemma start_inv c s s' : start_part s = Some s' → service_inv c s → service_inv c s'.
Proof.
  unfold start_part. destruct (running (sv_queue s)) eqn:Hru; [done|].
  destruct (queue (tq (sv_queue s))) as [|t l] eqn:Hq; [done|].
  intros [= <-] [Hr Hh Hc Hp Ha Ht (log & a0 & Hl & Hs & H2 & H3)]. split; try done; cbn.
  - unfold reachable in *. eapply rtc_r; [exact Hr|]. eapply step_start; [exact Hru|exact Hq].
  - exists log, a0. split_and!; try done. destruct Hs; [by apply stands_between|congruence..].
Qed.

(** The end of a task that adds a call to the log. *)
Lemma ended_inv c s t a e k log a0 :
  service_inv c s → running (sv_queue s) = Some t → carries t k →
  performs (fresh_agent c) log a0 → Forall2 carries (finished (sv_queue s)).*1 log.*1 → sv_results s = log.*2 →
  performs (fresh_agent c) (log ++ [(k, e)]) a → service_inv c (ended s t a e).
Proof.
  intros [Hr Hh Hc Hp Ha Ht _] Hru Hk Hl H2 H3 Hl'. split; try done; cbn.
  - unfold reachable in *. eapply rtc_r; [exact Hr|]. apply step_finish; [done|].
    assert (is_defined (tq (sv_queue s)) (TaskQueue.subject t) = true) as Hd
      by (rewrite (proj1 Hk); by apply call_known).
    destruct (run_task (tq (sv_queue s)) t) as [e'|] eqn:E.
    + f_equal. exact (task_handlers_none _ _ _ Hh E).
    + exfalso. revert E Hd. unfold run_task, is_defined. by destruct (handler_of _ _).
  - exists (log ++ [(k, e)])%list, a. split_and!; [done|by apply stands_between| |].
    + rewrite !fmap_app. apply Forall2_app; [done|]. cbn. apply Forall2_cons_2; [exact Hk|apply Forall2_nil_2].
    + by rewrite fmap_app, H3.
Qed.

(** The call of the running task. *)
Lemma running_carries c s t : service_inv c s → running (sv_queue s) = Some t → ∃ k, carries t k.
Proof.
  intros [Hr _ _ _ Hac _ _] Hru. destruct (reachable_inv _ _ _ Hr) as [_ _ _ _ Hf _].
  unfold running_list in Hf. rewrite Hru in Hf. rewrite Forall_forall in Hac. apply Hac. rewrite Hf. set_solver.
Qed.

Lemma end_inv c s s' env : end_part BE BM LoadConnectorDTO Hashsum env s = Some s' → service_inv c s → service_inv c s'.
Proof.
  unfold end_part. destruct (running (sv_queue s)) as [t|] eqn:Hru; [|done].
  destruct (sv_blocked s) eqn:Hb; [done|]. intros Hs' Hi.
  destruct (running_carries c s t Hi Hru) as [k Hk]. pose proof Hi as [Hr Hh Hc Hp Ha Ht (log & a0 & Hl & Hs & H2 & H3)].
  assert (sv_agent s = a0) as <- by (destruct Hs; [done|congruence..]).
  rewrite (hTask_carries _ _ _ _ _ _ _ k) in Hs' by done.
  destruct (perform env (sv_callbacks s) k (sv_agent s)) as [[a e|w a]|] eqn:E; [| |done]; injection Hs' as <-.
  - eapply ended_inv; [done..|]. eapply performs_call; [exact Hl|exact E].
  - pose proof (perform_blocked _ _ _ _ _ _ _ _ _ _ E) as ->. split; try done; cbn.
    exists log, (sv_agent s). split_and!; try done.
    eapply (stands_waiting _ _ t env (sv_callbacks s) w a); done.
Qed.

Lemma quit_inv c s s' : quit_part s = Some s' → service_inv c s → service_inv c s'.
Proof.
  unfold quit_part. case_decide as Hz; [done|]. intros Hs' Hi.
  pose proof Hi as [Hr Hh Hc Hp Ha Ht (log & a0 & Hl & Hs & H2 & H3)].
  destruct Hs as [Hb Hag|t env cb w a1 Hru Hk Hb Hpf Hag].
  - assert (s' = mkService (sv_queue s) (take_quit (sv_agent s)) (sv_task s) (sv_results s) (sv_callbacks s)
      (sv_blocked s) (sv_hook s)) as -> by (rewrite Hb in *; destruct (running (sv_queue s)); congruence).
    split; try done. exists log, (take_quit a0). split_and!; [by apply performs_quit| |done|done].
    apply stands_between; [done|]. cbn. by rewrite Hag.
  - rewrite Hru, Hb in Hs'. destruct (decide (w = AwaitsQuit)) as [->|Hw].
    + injection Hs' as <-. eapply ended_inv; [done..|]. eapply performs_late_exit; [exact Hl|exact Hpf|].
      clear -Hag. induction Hag as [a|a a1 a2 H1 _ IH]; [apply rtc_refl|]. destruct H1 as [a a1 H1|a H1]; [|done].
      by apply (rtc_l _ a a1).
    + assert (s' = mkService (sv_queue s) (take_quit (sv_agent s)) (sv_task s) (sv_results s) (sv_callbacks s)
        (sv_blocked s) (sv_hook s)) as -> by (rewrite Hb; destruct w; congruence).
      split; try done. exists log, a0. split_and!; try done.
      eapply (stands_waiting _ _ t env cb w a1); try done. eapply rtc_r; [exact Hag|]. by apply beside_quit.
Qed.

Lemma ticker_inv c events s s' : ticker_part BE BM events s = Some s' → service_inv c s → service_inv c s'.
Proof.
  unfold ticker_part. intros Hs'.
  assert (∃ a, ticks (sv_agent s) a ∧ s' = mkService (sv_queue s) a (sv_task s) (sv_results s) (sv_callbacks s)
    (sv_blocked s) (sv_hook s)) as (a & Ha & ->).
  { destruct events;
      [destruct (flush_events BE (sv_agent s)) as [a|] eqn:E|destruct (flush_metrics BM (sv_agent s)) as [a|] eqn:E]; try done;
      injection Hs' as <-; exists a; (split; [|done]); [by apply ticks_events|by apply ticks_metrics]. }
  intros [Hr Hh Hc Hp Hac Ht (log & a0 & Hl & Hs & H2 & H3)]. split; try done.
  destruct Hs as [Hb Hag|t env cb w a1 Hru Hk Hb Hpf Hag].
  - exists log, a. split_and!; [|by apply stands_between|done|done]. eapply performs_ticks; [exact Hl|]. by rewrite <-Hag.
  - exists log, a0. split_and!; try done. eapply (stands_waiting _ _ t env cb w a1); try done.
    eapply rtc_r; [exact Hag|]. by apply beside_ticks.
Qed.

Lemma with_hook_inv c s b :
  service_inv c s →
  service_inv c (mkService (sv_queue s) (sv_agent s) (sv_task s) (sv_results s) (sv_callbacks s) (sv_blocked s) b).
Proof.
  intros [Hr Hh Hc Hp Ha Ht (log & a0 & Hl & Hs & H2 & H3)]. split; try done.
  exists log, a0. split_and!; try done. by eapply stands_same; [..|exact Hs].
Qed.

Lemma with_callbacks_inv c s cb : service_inv c s → service_inv c (with_callbacks s cb).
Proof.
  intros [Hr Hh Hc Hp Ha Ht (log & a0 & Hl & Hs & H2 & H3)]. split; try done.
  exists log, a0. split_and!; try done. by eapply stands_same; [..|exact Hs].
Qed.

Lemma act_inv c x s s' : act x s = Some s' → service_inv c s → service_inv c s'.
Proof.
  destruct x; cbn [AgentTasks.act].
  - apply caller_inv.
  - apply push_inv.
  - apply start_inv.
  - apply end_inv.
  - apply quit_inv.
  - apply ticker_inv.
  - unfold hookInterrupt. destruct (sv_hook s); [|by intros [= <-]].
    destruct (caller s taskExit []) as [s1|] eqn:E; [|done]. intros [= <-] Hi.
    apply with_hook_inv. exact (caller_inv c s s1 CallExit E Hi).
  - intros [= <-]. apply with_callbacks_inv.
  - intros [= <-]. apply with_callbacks_inv.
  - intros [= <-]. apply with_callbacks_inv.
  - intros [= <-]. apply with_callbacks_inv.
Qed.

Lemma steps_inv c s s' : rtc service_step s s' → service_inv c s → service_inv c s'.
Proof. induction 1 as [|s s1 s' [x Hx] _ IH]; [done|]. intros Hi. apply IH. exact (act_inv c x s s1 Hx Hi). Qed.

Lemma acts_steps l s s' : acts BE BM LoadConnectorDTO Hashsum l s = Some s' → rtc service_step s s'.
Proof.
  revert s. induction l as [|x l IH]; intros s; cbn.
  - intros [= <-]. apply rtc_refl.
  - destruct (act x s) as [s1|] eqn:E; [|done]. intros Hl. eapply rtc_l; [by exists x|]. by apply IH.
Qed.

Lemma beside_inv w a a' : rtc (beside w) a a' → agent_inv a → agent_inv a'.
Proof.
  induction 1 as [|a a1 a' [a2 a3 Ht|a2 _] _ IH]; intros Hi; [done| |]; apply IH.
  - exact (same_services_inv _ _ (ticks_same _ _ _ _ Ht) Hi).
  - by apply take_quit_inv.
Qed.

Lemma stands_inv s a0 : stands s a0 → agent_inv a0 → agent_inv (sv_agent s).
Proof.
  intros [_ ->|t env cb w a1 _ _ _ Hp Hb] Hi; [done|]. apply (beside_inv _ _ _ Hb). exact (perform_inv _ _ _ _ _ Hp Hi).
Qed.

(** *** An exit whose handler panicked *)

Record same_wait (s s' : service) : Prop := {
  sw_blocked : sv_blocked s' = Some AwaitsHandler;
  sw_running : running (sv_queue s') = running (sv_queue s);
  sw_finished : finished (sv_queue s') = finished (sv_queue s);
  sw_results : sv_results s' = sv_results s;
  sw_nats : ag_nats (sv_agent s') = ag_nats (sv_agent s);
  sw_controller : ag_controller (sv_agent s') = ag_controller (sv_agent s);
}.

Lemma caller_wait s s' su args :
  caller s su args = Some s' → sv_blocked s = Some AwaitsHandler → same_wait s s'.
Proof. unfold caller. case_match; [|done]. by intros [= <-]. Qed.

Lemma act_wait x s s' t :
  act x s = Some s' → running (sv_queue s) = Some t → sv_blocked s = Some AwaitsHandler → same_wait s s'.
Proof.
  intros Hx Hru Hb. destruct x; cbn [AgentTasks.act] in Hx; try (by injection Hx as <-).
  - by eapply caller_wait.
  - unfold push_part in Hx. repeat (case_match; try done); by injection Hx as <-.
  - unfold start_part in Hx. by rewrite Hru in Hx.
  - unfold end_part in Hx. by rewrite Hru, Hb in Hx.
  - unfold quit_part in Hx. rewrite Hru, Hb in Hx. case_decide; [done|]. by injection Hx as <-.
  - unfold ticker_part in Hx. destruct events.
    + destruct (flush_events BE (sv_agent s)) as [a|] eqn:E; [|done]. injection Hx as <-.
      by destruct (flush_events_same _ _ _ E).
    + destruct (flush_metrics BM (sv_agent s)) as [a|] eqn:E; [|done]. injection Hx as <-.
      by destruct (flush_metrics_same _ _ _ E).
  - unfold hookInterrupt in Hx. destruct (sv_hook s); [|by injection Hx as <-].
    destruct (caller s taskExit []) as [s1|] eqn:E; [|done]. injection Hx as <-.
    by destruct (caller_wait _ _ _ _ E Hb).
Qed.

Lemma steps_wait s s' t :
  rtc service_step s s' → running (sv_queue s) = Some t → sv_blocked s = Some AwaitsHandler → same_wait s s'.
Proof.
  induction 1 as [s|s s1 s' [x Hx] _ IH]; intros Hru Hb; [done|].
  destruct (act_wait _ _ _ _ Hx Hru Hb) as [H1 H2 H3 H4 H5 H6].
  destruct (IH) as [G1 G2 G3 G4 G5 G6]; [congruence|done|]. split; congruence.
Qed.
End invariant.

(** ** Properties *)

(** C7: The calls of any number of callers, signals and receivers of [Quit], in any
    interleaving, have the effect of calls one after another: the finished tasks are
    the first of the accepted ones, in order; each caller gets the error its call has
    on the agent the calls before have left; the task in progress is the one the
    queue runs; not more than eight tasks wait; and the status shows a transport as
    running only with the server. *)
Theorem agent_runs_calls (BE BM : BatchBuilder)
    (LoadConnectorDTO : configuration → string → result error configuration) (Hashsum : Config → string)
    (allow : bool) (c : configuration) (s : service) :
  rtc (service_step BE BM LoadConnectorDTO Hashsum) (GetAgentService allow c) s →
  (∃ log a0,
     performs BE BM LoadConnectorDTO Hashsum (fresh_agent c) log a0 ∧
     stands BE BM LoadConnectorDTO Hashsum s a0 ∧
     Forall2 carries (finished (sv_queue s)).*1 log.*1 ∧ sv_results s = log.*2) ∧
  accepted (sv_queue s) = ((finished (sv_queue s)).*1 ++ running_list (sv_queue s) ++ queue (tq (sv_queue s)))%list ∧
  as_task (Status_ s) = running (sv_queue s) ∧
  (length (queue (tq (sv_queue s))) ≤ 8)%nat ∧
  (as_Transport (Status_ s) (sv_agent s) = StatusRunning → as_Nats (Status_ s) (sv_agent s) = StatusRunning).
Proof.
  intros Hr. destruct (steps_inv BE BM LoadConnectorDTO Hashsum c _ _ Hr (inv_init BE BM LoadConnectorDTO Hashsum allow c))
    as [Hq _ Hc _ _ Ht (log & a0 & Hl & Hs & H2 & H3)].
  destruct (reachable_inv _ _ _ Hq) as [Hb _ _ _ Hf _]. split_and!; try done.
  - by exists log, a0.
  - rewrite Hc in Hb. unfold taskQueueCapacity in Hb. lia.
  - cbn. unfold xAgentStatusTransport, xAgentStatusNats, status_of.
    pose proof (performs_inv _ _ _ _ _ _ _ Hl (fresh_agent_inv c)) as Ha.
    destruct (stands_inv _ _ _ _ _ _ Hs Ha) as [[_ Hsrv _] _]. unfold IsStartedServer, IsStartedDispatcher.
    destruct (server _); [done|]. by destruct (Hsrv eq_refl) as [-> _].
Qed.

(** While no exit waits, the worker goes on: it takes the next task, or the task it
    runs ends or panics, as its call does. *)
Theorem worker_goes_on (BE BM : BatchBuilder)
    (LoadConnectorDTO : configuration → string → result error configuration) (Hashsum : Config → string)
    (allow : bool) (c : configuration) (env : task_env) (s : service) :
  rtc (service_step BE BM LoadConnectorDTO Hashsum) (GetAgentService allow c) s → sv_blocked s = None →
  match running (sv_queue s) with
  | Some t => ∃ k, carries t k ∧
      is_ret (perform BE BM LoadConnectorDTO Hashsum env (sv_callbacks s) k (sv_agent s)) =
        bool_decide (is_Some (end_part BE BM LoadConnectorDTO Hashsum env s))
  | None => queue (tq (sv_queue s)) ≠ [] → is_Some (start_part s)
  end.
Proof.
  intros Hr Hb. pose proof (steps_inv BE BM LoadConnectorDTO Hashsum c _ _ Hr (inv_init BE BM LoadConnectorDTO Hashsum allow c)) as Hi.
  destruct (running (sv_queue s)) as [t|] eqn:Hru.
  - destruct (running_carries _ _ _ _ c s t Hi Hru) as [k Hk]. exists k. split; [done|].
    unfold end_part. rewrite Hru, Hb, (hTask_carries BE BM LoadConnectorDTO Hashsum env _ t k) by done.
    destruct (perform _ _ _ _ env _ k _) as [[]|]; symmetry; [by apply bool_decide_eq_true; eexists..|].
    apply bool_decide_eq_false. by intros [].
  - unfold start_part. rewrite Hru. destruct (queue _); [done|]. by eexists.
Qed.

(** After an exit handler has panicked with an error the agent is lost: whatever is
    called, no task ends any more, no caller gets an answer, server and controller stay
    as they were, and at most eight more tasks are accepted. *)
Theorem exit_panic_blocks (BE BM : BatchBuilder)
    (LoadConnectorDTO : configuration → string → result error configuration) (Hashsum : Config → string)
    (allow : bool) (c : configuration) (s s' : service) :
  rtc (service_step BE BM LoadConnectorDTO Hashsum) (GetAgentService allow c) s →
  sv_blocked s = Some AwaitsHandler → rtc (service_step BE BM LoadConnectorDTO Hashsum) s s' →
  sv_blocked s' = Some AwaitsHandler ∧ sv_results s' = sv_results s ∧
  ag_nats (sv_agent s') = ag_nats (sv_agent s) ∧ ag_controller (sv_agent s') = ag_controller (sv_agent s) ∧
  (length (accepted (sv_queue s')) ≤ length (accepted (sv_queue s)) + 8)%nat.
Proof.
  intros Hr Hb Hs. pose proof (inv_init BE BM LoadConnectorDTO Hashsum allow c) as H0.
  pose proof (steps_inv BE BM LoadConnectorDTO Hashsum c _ _ Hr H0) as Hi.
  pose proof (steps_inv BE BM LoadConnectorDTO Hashsum c _ _ Hs Hi) as Hi'.
  assert (∃ t, running (sv_queue s) = Some t) as [t Hru].
  { destruct Hi as [_ _ _ _ _ _ (log & a0 & _ & Hst & _)]. destruct Hst; [congruence|by eexists..]. }
  destruct (steps_wait BE BM LoadConnectorDTO Hashsum s s' t Hs Hru Hb) as [H1 H2 H3 H4 H5 H6]. split_and!; try done.
  destruct Hi as [Hq _ Hc _ _ _ _], Hi' as [Hq' _ Hc' _ _ _ _].
  destruct (reachable_inv _ _ _ Hq) as [_ _ _ _ Hf _], (reachable_inv _ _ _ Hq') as [Hb' _ _ _ Hf' _].
  rewrite Hc' in Hb'. unfold taskQueueCapacity in Hb'. rewrite Hf, Hf', !length_app, H3.
  unfold running_list. rewrite H2. lia.
Qed.

(** *** Runs *)

Abbreviation sample_acts := (acts join_builder join_builder sample_load sample_hash).

(** A call that is pushed, taken and run. *)
Definition whole_call (c : call) : list action := [ACall c; APush 0; AStart; AEnd good_env].

Definition sample_service : service := GetAgentService true sample_configuration.

(** Server and transport are started and the store is reset; what was started runs. *)
Definition started_service : option service :=
  sample_acts (whole_call (Call TStartNats) ++ whole_call (Call TStartTransport) ++ whole_call (Call TResetNats))%list
    sample_service.

Lemma started_steps s :
  started_service = Some s → rtc (service_step join_builder join_builder sample_load sample_hash) sample_service s.
Proof. apply acts_steps. Qed.

Lemma started_values :
  (λ s, (sv_results s, AgentStatus_String (Status_ s) (sv_agent s))) <$> started_service =
    Some ([None; None; None], "{Nats:running Transport:running Controller:stopped}").
Proof. vm_compute. reflexivity. Qed.

Lemma agent_runs_calls_witness :
  ∃ s, started_service = Some s ∧ sv_results s = [None; None; None] ∧
    AgentStatus_String (Status_ s) (sv_agent s) = "{Nats:running Transport:running Controller:stopped}" ∧
    as_task (Status_ s) = running (sv_queue s).
Proof.
  destruct (proj1 (fmap_Some _ _ _) started_values) as (s & E & [H1 H2]%pair_eq).
  destruct (agent_runs_calls join_builder join_builder sample_load sample_hash true sample_configuration s
    (started_steps s E)) as (_ & _ & Ht & _).
  exists s. split; [exact E|]. split; [symmetry; exact H1|]. split; [symmetry; exact H2|exact Ht].
Defined.

(** A task that was taken. *)
Definition taken_service : option service := sample_acts [ACall (Call TStartNats); APush 0; AStart] sample_service.

Lemma taken_steps s :
  taken_service = Some s → rtc (service_step join_builder join_builder sample_load sample_hash) sample_service s.
Proof. apply acts_steps. Qed.

Lemma taken_values : (λ s, (sv_blocked s, bool_decide (is_Some (running (sv_queue s))))) <$> taken_service = Some (None, true).
Proof. vm_compute. reflexivity. Qed.

Lemma worker_goes_on_witness :
  ∃ s k, taken_service = Some s ∧
    is_ret (perform join_builder join_builder sample_load sample_hash good_env (sv_callbacks s) k (sv_agent s)) =
      bool_decide (is_Some (end_part join_builder join_builder sample_load sample_hash good_env s)).
Proof.
  destruct (proj1 (fmap_Some _ _ _) taken_values) as (s & E & [Hb Hru]%pair_eq).
  symmetry in Hru. apply bool_decide_eq_true in Hru as [t Hru].
  pose proof (worker_goes_on join_builder join_builder sample_load sample_hash true sample_configuration good_env s
    (taken_steps s E) (eq_sym Hb)) as Hw.
  rewrite Hru in Hw. destruct Hw as (k & _ & Hw). exists s, k. split; [exact E|exact Hw].
Defined.

(** The exit handler panics; then a call is accepted, and never answered. *)
Definition panicked_service : option service :=
  sample_acts (ARegisterExit HPanicsError :: whole_call CallExit) sample_service.

Definition later_service : option service :=
  s ← panicked_service; sample_acts [ACall (Call TStopNats); APush 0] s.

Lemma panicked_steps s :
  panicked_service = Some s → rtc (service_step join_builder join_builder sample_load sample_hash) sample_service s.
Proof. apply acts_steps. Qed.

Lemma panicked_values : (λ s, (sv_blocked s, sv_results s)) <$> panicked_service = Some (Some AwaitsHandler, []).
Proof. vm_compute. reflexivity. Qed.

Lemma later_values : (λ s, length (accepted (sv_queue s))) <$> later_service = Some 2%nat.
Proof. vm_compute. reflexivity. Qed.

Lemma later_steps s' :
  later_service = Some s' → ∃ s, panicked_service = Some s ∧
    rtc (service_step join_builder join_builder sample_load sample_hash) s s'.
Proof. intros (s & E & H)%bind_Some. exists s. split; [done|]. exact (acts_steps _ _ _ _ _ _ _ H). Qed.

Lemma exit_panic_blocks_witness :
  ∃ s', later_service = Some s' ∧
    length (accepted (sv_queue s')) = 2%nat ∧ sv_blocked s' = Some AwaitsHandler ∧ sv_results s' = [].
Proof.
  destruct (proj1 (fmap_Some _ _ _) later_values) as (s' & E' & Hl).
  destruct (later_steps s' E') as (s & E & Hs).
  destruct (proj1 (fmap_Some _ _ _) panicked_values) as (s1 & E1 & [Hb Hre]%pair_eq).
  rewrite E in E1. apply Some_inj in E1. subst s1.
  destruct (exit_panic_blocks join_builder join_builder sample_load sample_hash true sample_configuration s s'
    (panicked_steps s E) (eq_sym Hb) Hs) as (G1 & G2 & _).
  exists s'. split; [exact E'|]. split; [symmetry; exact Hl|]. split; [exact G1|]. rewrite G2. symmetry. exact Hre.
Defined.

(** A signal that comes when the queue is full is lost, and those after it are not
    read. *)
Definition full_queue : list action :=
  ([ACall (Call TStartNats); APush 0; AStart] ++ mjoin (replicate 8 [ACall (Call TStopNats); APush 0]))%list.

Example signal_lost :
  ((λ s, (sv_hook s, TaskQueue.subject <$> rejected (sv_queue s), pending (sv_queue s))) <$>
    sample_acts (full_queue ++ [ASignal; APush 0; ASignal; ASignal])%list sample_service) =
  Some (false, [taskExit], []).
Proof. vm_compute. reflexivity. Qed.
