(* ===== verification/StatusText.v ===== *)
(** connectors/connectors.go, texts: sanitised names, durations for messages, the
    status text of a service with its thresholds, and the summary of a host. *)

From S2P Require Import Prelude.
From S2P Require Import GoString.
From S2P Require Import GoFloat.
From S2P Require Import FloatText.
From S2P Require Import Errors.
From S2P Require Import Timestamp.
From S2P Require Import TypedValue.
From S2P Require Import Transit.
From S2P Require Import Status.
From Stdlib Require Import DecimalString.

Local Open Scope string_scope.

(** ** Durations *)

(** [FormatTimeForStatusMessage]; an overflow of the parsed hours is ignored. *)
Definition ParseDuration_or_zero (hours : string) : Z :=
  match NilZero.uint_of_string hours with
  | Some d => match ParseDuration_hours (Z.of_uint d) with Val v => v | Fail _ => 0%Z end
  | None => 0%Z
  end.

Definition FormatTimeForStatusMessage (value minRound : Z) : string :=
  let h := Hours value in
  let m := Minutes value in
  let s := Seconds value in
  if f_lt (f_of_Z 3) h || bool_decide (Minute < minRound)%Z then
    if f_lt h (f_of_Z 73) then fmt_f0 h +:+ " hour(s)"
    else
      let d := ParseDuration_or_zero (fmt_f0 h) in
      fmt_f0 (f_div (Hours d) (f_of_Z 24)) +:+ " day(s)"
  else if f_lt (f_of_Z 3) m || bool_decide (Second < minRound)%Z then fmt_f0 m +:+ " minute(s)"
  else fmt_f0 s +:+ " second(s)".

Example format_1 : FormatTimeForStatusMessage (120 * Second) Second = "120 second(s)".
Proof. by vm_compute. Qed.
Example format_2 : FormatTimeForStatusMessage (120 * Second) Minute = "2 minute(s)".
Proof. by vm_compute. Qed.
Example format_3 : FormatTimeForStatusMessage (120 * Second) Hour = "0 hour(s)".
Proof. by vm_compute. Qed.
Example format_4 : FormatTimeForStatusMessage (100 * Hour) Second = "4 day(s)".
Proof. by vm_compute. Qed.

(** [MaxDuration] *)
Definition MaxDuration (x : Z) (rest : list Z) : Z :=
  foldl (λ m y, if decide (m < y)%Z then y else m) x rest.

(** ** Names *)

Definition Name (defaultName customName : string) : string :=
  if decide (customName = "") then defaultName else customName.

(** The class [[\w-_.:]]. *)
Definition name_byte (c : ascii) : bool :=
  byte_in 48 57 c || byte_in 65 90 c || byte_in 97 122 c ||
  bool_decide (c ∈ ["_"; "-"; "."; ":"]%char).

(** [sanitizeRegexp.ReplaceAllString(str, "_")]: one underscore for every rune
    outside the class; a byte that is not UTF-8 is a rune of its own. *)
Fixpoint replace_bad (skip : nat) (s : string) : string :=
  match s with
  | "" => ""
  | String c s' =>
      match skip with
      | S k => replace_bad k s'
      | O => if name_byte c then String c (replace_bad 0 s')
             else String "_" (replace_bad (pred (rune_size s)) s')
      end
  end.

(** [removeUnderscoreDuplicates] on the ASCII text it is called with: [last] is
    the character written last. *)
Fixpoint dedup_underscore (last : option ascii) (s : string) : string :=
  match s with
  | "" => ""
  | String c s' =>
      if decide (Some c ≠ last ∨ c ≠ "_"%char) then String c (dedup_underscore (Some c) s')
      else dedup_underscore last s'
  end.

Definition removeUnderscoreDuplicates (s : string) : string := dedup_underscore None s.

(** [SanitizeString]: the slice [str[len(str)-1:]] of an empty text panics. *)
Definition SanitizeString (str : string) : outcome string :=
  let str := removeUnderscoreDuplicates (replace_bad 0 str) in
  last ← str_slice str (slen str - 1) (slen str);
  if decide (last = "_") then str_slice str 0 (slen str - 1) else Ret str.

Example sanitize_1 : SanitizeString "C:\ Disk  (used)" = Ret "C:_Disk_used". Proof. by vm_compute. Qed.
Example sanitize_2 : SanitizeString "" = Panic "slice bounds out of range". Proof. by vm_compute. Qed.

(** ** Values *)

(** [time.Time.UnixNano] *)
Definition UnixNano (t : Timestamp) : Z := int64 (sec t * 10 ^ 9 + nsec t).

(** [getValueText] *)
Definition getValueText (value : option TypedValue) : outcome (result error string) :=
  match value with
  | None => Ret (Fail (Opaque "no value"))
  | Some value =>
      let ty := tv_ValueType value in
      if decide (ty = IntegerType) then Val ∘ FormatInt <$> deref (tv_IntegerValue value)
      else if decide (ty = DoubleType) then Val ∘ fmt_f <$> deref (tv_DoubleValue value)
      else if decide (ty = StringType) then Val <$> deref (tv_StringValue value)
      else if decide (ty = BooleanType) then Val ∘ FormatBool <$> deref (tv_BoolValue value)
      else if decide (ty = TimeType) then
        t ← deref (tv_TimeValue value);
        Ret (Val (FormatTimeForStatusMessage (UnixNano t) Second))
      else Ret (Fail (Opaque "unknown value type"))
  end.

(** ** Thresholds in the status text *)

Definition noneThresholdText : string := "-1".

(** The texts of the warning and the critical threshold, the last of each kind;
    one without a value is skipped. *)
Fixpoint threshold_texts (wt crt : string) (l : list ThresholdValue) : outcome (string * string) :=
  match l with
  | [] => Ret (wt, crt)
  | th :: l =>
      let ty := thr_SampleType th in
      if decide (ty = Warning ∨ ty = Critical) then
        v ← getValueText (thr_Value th);
        match v with
        | Val value =>
            if decide (ty = Warning) then threshold_texts value crt l else threshold_texts wt value l
        | Fail _ => threshold_texts wt crt l
        end
      else threshold_texts wt crt l
  end.

Definition th_text (name mValText label text : string) : string :=
  " | [" +:+ name +:+ "] [VAL=" +:+ mValText +:+ "] [" +:+ label +:+ "=" +:+ text +:+ "]".

(** The text a metric adds; nothing when a number does not parse. *)
Definition metric_text (name mValText wt crt : string) : string :=
  match ParseFloat mValText with
  | Fail _ => ""
  | Val metricVal =>
      if decide (wt ≠ noneThresholdText ∧ crt ≠ noneThresholdText) then
        match ParseFloat wt, ParseFloat crt with
        | Val wtVal, Val crtVal =>
            if f_le wtVal metricVal && f_le crtVal metricVal
            then th_text name mValText "W/C" (wt +:+ "/" +:+ crt)
            else if f_le crtVal metricVal then th_text name mValText "Crit" crt
            else if f_le wtVal metricVal then th_text name mValText "Warn" wt else ""
        | _, _ => ""
        end
      else if decide (wt ≠ noneThresholdText) then
        match ParseFloat wt with
        | Val wtVal => if f_le wtVal metricVal then th_text name mValText "Warn" wt else ""
        | Fail _ => ""
        end
      else if decide (crt ≠ noneThresholdText) then
        match ParseFloat crt with
        | Val crtVal => if f_le crtVal metricVal then th_text name mValText "Crit" wt else ""
        | Fail _ => ""
        end
      else ""
  end.

Fixpoint threshold_text (statusText : string) (metrics : list TimeSeries) : outcome string :=
  match metrics with
  | [] => Ret statusText
  | metric :: metrics =>
      v ← getValueText (ts_Value metric);
      match v with
      | Fail _ => threshold_text statusText metrics
      | Val mValText =>
          match ts_Thresholds metric with
          | [] => threshold_text statusText metrics
          | l =>
              '(wt, crt) ← threshold_texts noneThresholdText noneThresholdText l;
              threshold_text (statusText +:+ metric_text (ts_MetricName metric) mValText wt crt) metrics
          end
      end
  end.

Definition addThresholdsToStatusText (statusText : string) (service : option MonitoredService)
  : outcome string :=
  match service with
  | None => Ret statusText
  | Some service =>
      t ← threshold_text statusText (ms_Metrics service); Ret (TrimPrefix t " | ")
  end.

(** ** Status messages *)

Definition extractValueForStatusText (service : MonitoredService) : outcome (result error string) :=
  match ms_Metrics service with
  | [m] => getValueText (ts_Value m)
  | _ => Ret (Fail (Opaque "not supported for service with more than one metric"))
  end.

Definition extractIntervalForStatusText (CheckInterval : Z) (service : MonitoredService)
  : outcome (result error string) :=
  Ret (Val (FormatTimeForStatusMessage CheckInterval Minute)).

Definition statusTextValGetters (CheckInterval : Z) (pattern : string)
  : option (MonitoredService → outcome (result error string)) :=
  if decide (pattern = "{value}") then Some extractValueForStatusText
  else if decide (pattern = "{interval}") then Some (extractIntervalForStatusText CheckInterval)
  else None.

(** [FindAllString] of the pattern [\{(.*?)\}]: from a brace to the next closing
    brace, on one line; [open] is the text since the brace. *)
Fixpoint find_patterns (open : option string) (s : string) : list string :=
  match s with
  | "" => []
  | String c s' =>
      match open with
      | None => find_patterns (if decide (c = "{"%char) then Some "{" else None) s'
      | Some p =>
          if decide (c = "}"%char) then (p +:+ "}") :: find_patterns None s'
          else if decide (c = ascii_of_nat 10) then find_patterns None s'
          else find_patterns (Some (p +:+ String c "")) s'
      end
  end.

Fixpoint replace_patterns (CheckInterval : Z) (service : MonitoredService) (patternMessage : string)
    (patterns : list string) : outcome string :=
  match patterns with
  | [] => Ret patternMessage
  | pattern :: patterns =>
      match statusTextValGetters CheckInterval pattern with
      | None => replace_patterns CheckInterval service patternMessage patterns
      | Some fn =>
          r ← fn service;
          replace_patterns CheckInterval service
            (match r with Val replacement => ReplaceAll patternMessage pattern replacement
                        | Fail _ => patternMessage end) patterns
      end
  end.

Definition with_plugin_output (service : MonitoredService) (text : string) : MonitoredService :=
  mkMonitoredService (ms_BaseInfo service) (SetLastPluginOutput (ms_MonitoredInfo service) text)
    (ms_Metrics service).

(** [addServiceStatusText]: the service afterwards; nil is only logged. *)
Definition addServiceStatusText (CheckInterval : Z) (patternMessage : string)
    (service : option MonitoredService) : outcome (option MonitoredService) :=
  match service with
  | None => Ret None
  | Some s =>
      m ← replace_patterns CheckInterval s patternMessage (find_patterns None patternMessage);
      statusText ← addThresholdsToStatusText m (Some s);
      Ret (Some (with_plugin_output s statusText))
  end.

(** ** Hosts *)

(** [buildHostStatusText] *)
Definition count_status (p : MonitorStatus → bool) (services : list MonitoredService) : nat :=
  length (filter (λ s, p (mi_Status (ms_MonitoredInfo s)) = true) services).

Definition is_status (l : list MonitorStatus) (s : MonitorStatus) : bool := bool_decide (s ∈ l).
Definition critical_statuses : list MonitorStatus := [ServiceScheduledCritical; ServiceUnscheduledCritical].
Definition known_statuses : list MonitorStatus := ServiceOk :: ServiceWarning :: critical_statuses.

Definition buildHostStatusText (services : list MonitoredService) : string :=
  let n p := FormatInt (Z.of_nat (count_status p services)) in
  "Host has " +:+ n (is_status [ServiceOk]) +:+ " OK, " +:+ n (is_status [ServiceWarning]) +:+ " WARNING, " +:+
  n (is_status critical_statuses) +:+ " CRITICAL and " +:+
  n (negb ∘ is_status known_statuses) +:+ " other services.".

(** ** Lemmas: sanitised names *)

(** No two underscores in a row; [prev]: an underscore stands before. *)
Fixpoint spaced (prev : bool) (s : string) : bool :=
  match s with
  | "" => true
  | String c s' => if decide (c = "_"%char) then negb prev && spaced true s' else spaced false s'
  end.

Lemma spaced_no_double prev s l r : spaced prev s = true → s ≠ l +:+ "__" +:+ r.
Proof.
  revert prev s. induction l as [|c l IH]; intros prev s Hs ->; cbn in Hs.
  - destruct prev; done.
  - case_decide; [apply andb_true_iff in Hs as [_ Hs]|]; by eapply IH.
Qed.

Lemma spaced_dedup last s : spaced (bool_decide (last = Some "_"%char)) (dedup_underscore last s) = true.
Proof.
  revert last. induction s as [|c s IH]; intros last; [done|]. cbn [dedup_underscore].
  case_decide as Hc; [|apply IH]. cbn [spaced]. case_decide as Hu.
  - subst c. rewrite bool_decide_eq_false_2 by naive_solver. specialize (IH (Some "_"%char)).
    by rewrite bool_decide_eq_true_2 in IH.
  - specialize (IH (Some c)). by rewrite bool_decide_eq_false_2 in IH by congruence.
Qed.

Lemma dedup_spaced last s :
  spaced (bool_decide (last = Some "_"%char)) s = true → dedup_underscore last s = s.
Proof.
  revert last. induction s as [|c s IH]; intros last; [done|]. cbn [spaced dedup_underscore].
  case_decide as Hu; intros Hs.
  - apply andb_true_iff in Hs as [Hp Hs]. apply negb_true_iff, bool_decide_eq_false in Hp.
    subst c. rewrite decide_True by (left; congruence). f_equal. apply IH.
    by rewrite bool_decide_eq_true_2.
  - rewrite decide_True by by right. f_equal. apply IH. by rewrite bool_decide_eq_false_2 by congruence.
Qed.

Lemma dedup_forallb f last s : str_forallb f s = true → str_forallb f (dedup_underscore last s) = true.
Proof.
  revert last. induction s as [|c s IH]; intros last; [done|]. cbn.
  intros [Hc Hs]%andb_true_iff. case_decide; [|by apply IH]. cbn. by rewrite Hc, IH.
Qed.

Lemma replace_bad_forallb k s : str_forallb name_byte (replace_bad k s) = true.
Proof.
  revert k. induction s as [|c s IH]; intros k; [done|]. cbn [replace_bad].
  destruct k; [|apply IH]. destruct (name_byte c) eqn:Hc; cbn [str_forallb]; by rewrite ?Hc, IH.
Qed.

Lemma replace_bad_id s : str_forallb name_byte s = true → replace_bad 0 s = s.
Proof.
  induction s as [|c s IH]; [done|]. cbn. intros [-> Hs]%andb_true_iff. by rewrite IH.
Qed.

Lemma sanitized_nonempty s : s ≠ "" → removeUnderscoreDuplicates (replace_bad 0 s) ≠ "".
Proof.
  destruct s as [|c s]; [done|]. intros _. unfold removeUnderscoreDuplicates. cbn [replace_bad].
  by destruct (name_byte c); cbn; rewrite decide_True by by left.
Qed.

(** A trailing underscore of a text that is not empty is cut off. *)
Lemma str_slice_last u d :
  str_slice (u +:+ String d "") (slen (u +:+ String d "") - 1) (slen (u +:+ String d "")) = Ret (String d "") ∧
  str_slice (u +:+ String d "") 0 (slen (u +:+ String d "") - 1) = Ret u.
Proof.
  unfold str_slice. rewrite slen_app. change (slen (String d "")) with 1%Z.
  replace (slen u + 1 - 1)%Z with (slen u) by lia. unfold slen. rewrite length_str_app. cbn [String.length].
  split; rewrite decide_True by lia; f_equal.
  - rewrite Nat2Z.id, str_drop_app. by replace (Z.to_nat _) with 1 by lia.
  - rewrite Z.sub_0_r, Nat2Z.id. change (str_drop (Z.to_nat 0) ?x) with x. by rewrite str_take_app.
Qed.

(** What [SanitizeString] promises. *)
Definition clean_name (t : string) : Prop :=
  str_forallb name_byte t = true ∧ (∀ l r, t ≠ l +:+ "__" +:+ r) ∧ (∀ l, t ≠ l +:+ "_").

Lemma no_double_spaced s : (∀ l r, s ≠ l +:+ "__" +:+ r) → spaced false s = true.
Proof.
  intros Hs. assert (∀ prev, (prev = true → ∀ r, s ≠ "_" +:+ r) → spaced prev s = true) as H; [|by apply H].
  induction s as [|c s IH]; intros prev Hp; [done|]. cbn [spaced]. case_decide as Hc.
  - subst c. destruct prev; [by destruct (Hp eq_refl s)|]. cbn [negb andb]. apply IH.
    + intros l r ->. by apply (Hs (String "_" l) r).
    + intros _ r ->. by apply (Hs "" r).
  - apply IH; [|done]. intros l r ->. by apply (Hs (String c l) r).
Qed.

(** ** Properties *)

(** [SanitizeString] panics exactly on the empty text.  Its result is empty or a
    name of word characters, dashes, dots and colons without doubled or trailing
    underscores; a name that is already of this form is unchanged, so that
    sanitising twice is sanitising once. *)
Theorem SanitizeString_clean (s : string) :
  (is_panic (SanitizeString s) = true ↔ s = "") ∧
  (∀ t, SanitizeString s = Ret t → clean_name t ∧ (t ≠ "" → SanitizeString t = Ret t)) ∧
  (s ≠ "" → clean_name s → SanitizeString s = Ret s).
Proof.
  assert (∀ s, s ≠ "" → ∃ t, SanitizeString s = Ret t ∧ clean_name t) as Hret.
  { intros x Hx. apply sanitized_nonempty in Hx as Hne.
    pose proof (spaced_dedup None (replace_bad 0 x)) as Hsp.
    pose proof (dedup_forallb name_byte None _ (replace_bad_forallb 0 x)) as Hfa.
    unfold SanitizeString. fold (removeUnderscoreDuplicates (replace_bad 0 x)) in Hsp, Hfa.
    rewrite bool_decide_eq_false_2 in Hsp by done.
    destruct (str_snoc _ Hne) as (u & d & Hu). rewrite Hu in Hsp, Hfa |- *.
    destruct (str_slice_last u d) as [-> ->]. cbn [mbind outcome_bind].
    pose proof (λ l r, spaced_no_double _ _ l r Hsp) as Hnd. case_decide as Hd.
    - injection Hd as ->. exists u. split; [done|]. split_and!.
      + rewrite str_forallb_app in Hfa. by apply andb_true_iff in Hfa as [? _].
      + intros l r ->. apply (Hnd l (r +:+ "_")). by rewrite !str_app_assoc.
      + intros l ->. apply (Hnd l ""). by rewrite !str_app_assoc.
    - exists (u +:+ String d ""). split; [done|]. split_and!; [done|done|].
      intros l Hl. apply (str_snoc_inj u l) in Hl as [_ ->]. done. }
  assert (∀ s, s ≠ "" → clean_name s → SanitizeString s = Ret s) as Hid.
  { intros x Hx (Hf & Hd & Hl). unfold SanitizeString, removeUnderscoreDuplicates.
    rewrite replace_bad_id, dedup_spaced by (done || by apply no_double_spaced).
    destruct (str_snoc _ Hx) as (u & d & ->). destruct (str_slice_last u d) as [-> _].
    cbn [mbind outcome_bind]. rewrite decide_False; [done|]. intros [= ->]. by apply (Hl u). }
  split_and!; [|intros t Ht|by apply Hid].
  - split; [|by intros ->]. destruct (decide (s = "")); [done|].
    by destruct (Hret s) as (t & -> & _).
  - assert (clean_name t) as Hc.
    { destruct (decide (s = "")) as [->|Hs]; [done|].
      destruct (Hret s Hs) as (t' & Ht' & Hc). congruence. }
    split; [done|]. intros. by apply Hid.
Qed.

Lemma SanitizeString_clean_witness :
  (is_panic (SanitizeString "a b") = true ↔ "a b" = "") ∧
  (clean_name "a_b" ∧ ("a_b" ≠ "" → SanitizeString "a_b" = Ret "a_b")).
Proof.
  destruct (SanitizeString_clean "a b") as (H1 & H2 & _). split; [exact H1|].
  apply H2. vm_compute. reflexivity.
Defined.

(** ** Thresholds in the text and the status

    Metrics with an integer value and two integer thresholds that are enabled and
    ordered, the warning first, as [BuildMetric] attaches them. *)

Definition two_thresholds (m : TimeSeries) (z w c : Z) : Prop :=
  ts_Value m = Some (tv_int z) ∧
  (∃ lw lc, ts_Thresholds m = [mkThresholdValue Warning lw (Some (tv_int w));
                               mkThresholdValue Critical lc (Some (tv_int c))]) ∧
  in_int64 z ∧ in_int64 w ∧ in_int64 c ∧
  f_eq (f_of_Z w) minus_one = false ∧ f_eq (f_of_Z c) minus_one = false.

Definition ordered_metric (m : TimeSeries) : Prop :=
  ∃ z w c, two_thresholds m z w c ∧ f_lt (f_of_Z c) (f_of_Z w) = false.

Definition shown (t : option TypedValue) : string := from_option FormatInt "" (t ≫= tv_IntegerValue).

(** The text a status calls for. *)
Definition alert (m : TimeSeries) (s : MonitorStatus) : string :=
  match ts_Thresholds m with
  | [w; c] =>
      if decide (s = ServiceUnscheduledCritical) then
        th_text (ts_MetricName m) (shown (ts_Value m)) "W/C" (shown (thr_Value w) +:+ "/" +:+ shown (thr_Value c))
      else if decide (s = ServiceWarning) then
        th_text (ts_MetricName m) (shown (ts_Value m)) "Warn" (shown (thr_Value w))
      else ""
  | _ => ""
  end.

Fixpoint concat_text (l : list string) : string :=
  match l with [] => "" | s :: l => s +:+ concat_text l end.

Lemma enabled_text z : in_int64 z → f_eq (f_of_Z z) minus_one = false → FormatInt z ≠ noneThresholdText.
Proof.
  intros Hz Hf He. pose proof (ParseInt_FormatInt z Hz) as Hp. rewrite He in Hp.
  vm_compute in Hp. injection Hp as <-. by vm_compute in Hf.
Qed.

Lemma ParseFloat_int z : in_int64 z → ParseFloat (FormatInt z) = Val (f_of_Z z).
Proof. intros Hz. apply ParseFloat_FormatInt. unfold in_int64 in Hz. lia. Qed.

Lemma f_of_Z_not_nan z : in_int64 z → is_nan (f_of_Z z) = false.
Proof.
  intros Hz. assert (is_number (f_of_Z z) = true) as Hn by (apply f_of_Z_number; unfold in_int64 in Hz; lia).
  unfold is_number in Hn. by destruct (is_nan (f_of_Z z)).
Qed.

Lemma getValueText_int z : getValueText (Some (tv_int z)) = Ret (Val (FormatInt z)).
Proof. reflexivity. Qed.

Lemma threshold_texts_two wt crt lw lc w c :
  threshold_texts wt crt [mkThresholdValue Warning lw (Some (tv_int w));
                          mkThresholdValue Critical lc (Some (tv_int c))] =
  Ret (FormatInt w, FormatInt c).
Proof. reflexivity. Qed.

Lemma shown_int z : shown (Some (tv_int z)) = FormatInt z.
Proof. reflexivity. Qed.

Lemma ordered_metric_text m :
  ordered_metric m → ∃ s,
    metric_status m = Some (Ret s) ∧
    ∀ text l, threshold_text text (m :: l) = threshold_text (text +:+ alert m s) l.
Proof.
  intros (z & w & c & (Hv & (lw & lc & Ht) & Hz & Hw & Hc & Hw1 & Hc1) & Hle).
  exists (severity (f_of_Z z) (f_of_Z w) (f_of_Z c)). split.
  { unfold metric_status. rewrite Ht, Hv. cbn [pick_thresholds thr_SampleType thr_Value].
    rewrite decide_True, decide_False, decide_True by done. f_equal.
    by apply CalculateStatus_severity. }
  intros text l. cbn [threshold_text]. unfold alert. rewrite Hv, Ht, getValueText_int.
  cbn [mbind outcome_bind]. rewrite threshold_texts_two.
  cbn [mbind outcome_bind thr_Value]. rewrite !shown_int. do 2 f_equal.
  unfold metric_text. rewrite !ParseFloat_int by done.
  rewrite decide_True by (split; by apply enabled_text). unfold severity. rewrite Hle.
  pose proof (f_lt_negb_le (f_of_Z c) (f_of_Z w) (f_of_Z_not_nan c Hc) (f_of_Z_not_nan w Hw)) as Hwc.
  rewrite Hle in Hwc. symmetry in Hwc. apply negb_false_iff in Hwc.
  destruct (f_le (f_of_Z c) (f_of_Z z)) eqn:H1.
  - assert (f_le (f_of_Z w) (f_of_Z z) = true) as -> by by eapply f_le_trans.
    cbn [andb]. by rewrite decide_True.
  - rewrite andb_false_r, decide_False by by case_match.
    destruct (f_le (f_of_Z w) (f_of_Z z)); [by rewrite decide_True|by rewrite decide_False].
Qed.

(** For metrics with ordered integer thresholds the text agrees with the status:
    after the message stand, metric by metric, the critical metrics with both
    thresholds and the warning ones with the warning threshold, and nothing for
    the others; the statuses are the ones the status of the service is computed
    from. *)
Theorem status_text_agrees (text : string) (ms : list TimeSeries) :
  Forall ordered_metric ms →
  ∃ ss, statuses_are ms ss ∧
        threshold_text text ms = Ret (text +:+ concat_text (zip_with alert ms ss)).
Proof.
  intros Hms. revert text. induction Hms as [|m ms Hm _ IH]; intros text.
  { exists []. split; [constructor|]. cbn. by rewrite str_app_nil_r. }
  destruct (ordered_metric_text m Hm) as (s & Hs & Ht).
  destruct (IH (text +:+ alert m s)) as (ss & Hss & He).
  exists (s :: ss). split; [by constructor|].
  rewrite Ht, He. cbn [zip_with concat_text]. by rewrite str_app_assoc.
Qed.

Definition sample_series (name : string) (v w c : TypedValue) : TimeSeries :=
  mkTimeSeries name Value None (Some v) ∅ "" 
    [mkThresholdValue Warning "_wn" (Some w); mkThresholdValue Critical "_cr" (Some c)] "" "".

Lemma status_text_agrees_witness :
  ∃ ss, statuses_are [sample_series "cpu" (tv_int 95) (tv_int 80) (tv_int 90);
                      sample_series "mem" (tv_int 85) (tv_int 80) (tv_int 90)] ss ∧
        threshold_text "Load" [sample_series "cpu" (tv_int 95) (tv_int 80) (tv_int 90);
                               sample_series "mem" (tv_int 85) (tv_int 80) (tv_int 90)] =
        Ret ("Load" +:+ concat_text (zip_with alert
              [sample_series "cpu" (tv_int 95) (tv_int 80) (tv_int 90);
               sample_series "mem" (tv_int 85) (tv_int 80) (tv_int 90)] ss)).
Proof.
  apply status_text_agrees. repeat apply Forall_cons_2; [..|apply Forall_nil_2].
  - exists 95%Z, 80%Z, 90%Z. split; [|vm_compute; reflexivity].
    split_and!; [reflexivity|by eexists _, _|by vm_compute..].
  - exists 85%Z, 80%Z, 90%Z. split; [|vm_compute; reflexivity].
    split_and!; [reflexivity|by eexists _, _|by vm_compute..].
Defined.

(** Outside of these metrics the text and the status differ: thresholds in the
    other order (a low value is critical) are not announced, and an OK value is;
    a double value is compared after rounding to six decimals; and a critical
    threshold without a warning is printed as -1. *)
Theorem status_text_differs :
  (CalculateStatus (Some (tv_int 5)) (Some (tv_int 20)) (Some (tv_int 10)) = Ret ServiceUnscheduledCritical ∧
   threshold_text "" [sample_series "free" (tv_int 5) (tv_int 20) (tv_int 10)] = Ret "") ∧
  (CalculateStatus (Some (tv_int 50)) (Some (tv_int 20)) (Some (tv_int 10)) = Ret ServiceOk ∧
   threshold_text "" [sample_series "free" (tv_int 50) (tv_int 20) (tv_int 10)] =
   Ret " | [free] [VAL=50] [W/C=20/10]") ∧
  (CalculateStatus (Some (tv_double (f_ratio 9999999 10000000))) (Some (tv_int 1)) (Some (tv_int 2)) = Ret ServiceOk ∧
   threshold_text "" [sample_series "load" (tv_double (f_ratio 9999999 10000000)) (tv_int 1) (tv_int 2)] =
   Ret " | [load] [VAL=1.000000] [Warn=1]") ∧
  threshold_text "" [mkTimeSeries "cpu" Value None (Some (tv_int 95)) ∅ ""
                       [mkThresholdValue Critical "cpu_cr" (Some (tv_int 90))] "" ""] =
  Ret " | [cpu] [VAL=95] [Crit=-1]".
Proof. split_and!; vm_compute; reflexivity. Qed.
