(* ===== verification/Connectors.v ===== *)
(** connectors/connectors.go, data: the constructors of metrics, services,
    resources and inventories, the evaluation of synthetic metrics, and the
    payloads handed to the transit service. *)

From S2P Require Import Prelude.
From S2P Require Import GoString.
From S2P Require Import GoFloat.
From S2P Require Import FloatText.
From S2P Require Import Errors.
From S2P Require Import Timestamp.
From S2P Require Import TypedValue.
From S2P Require Import Transit.
From S2P Require Import Status.
From S2P Require Import Codec.
From S2P Require Import Batcher.
From S2P Require Import Http.
From S2P Require Import Nats.
From S2P Require Import Tracer.
From S2P Require Import TransitService.
From S2P Require Import Expr.
From S2P Require Import ExprSpec.
From S2P Require Import StatusText.

Local Open Scope string_scope.

Definition ErrUnsupportedType : error := Named "ErrUnsupportedType" "unsupported value type" None.

Definition DefaultCheckInterval : Z := 2 * Minute.

(** The interval of the extensions in minutes, 0 when there is none; a
    configuration that does not parse leaves the interval alone. *)
Definition UnmarshalConfig_interval (timer : result error Z) (CheckInterval : Z) : Z :=
  match timer with
  | Val t => if decide (0 < t)%Z then int64 (Minute * t) else DefaultCheckInterval
  | Fail _ => CheckInterval
  end.

(** ** Inventory *)

Definition named_info (name : string) (type : ResourceType) (owner : string) : BaseInfo :=
  mkBaseInfo name type owner "" "" ∅.

Definition CreateInventoryService (name owner : string) : InventoryService :=
  mkInventoryService (named_info name ResourceTypeService owner).

Definition CreateInventoryResource (name : string) (services : list InventoryService) : InventoryResource :=
  mkInventoryResource (mkBaseResource (named_info name ResourceTypeHost "") "") services.

Definition CreateResourceRef (name owner : string) (resourceType : ResourceType) : ResourceRef :=
  mkResourceRef name resourceType owner.

Definition CreateResourceGroup (name description : string) (groupType : GroupType)
    (resources : list ResourceRef) : ResourceGroup :=
  mkResourceGroup name groupType description resources.

Definition FillGroupWithResources (group : ResourceGroup) (resources : list InventoryResource) : ResourceGroup :=
  mkResourceGroup (rg_GroupName group) (rg_Type group) (rg_Description group)
    ((λ r, mkResourceRef (bi_Name (br_BaseInfo (ir_BaseResource r)))
             (bi_Type (br_BaseInfo (ir_BaseResource r))) "") <$> resources).

(** ** Metrics *)

(** [%T] of an argument. *)
Definition type_name (v : any) : string :=
  match v with AOther t => t | _ => "<nil>" end.

Definition unsupported (t : string) : error := Errorf_w ErrUnsupportedType t.

(** The optional arguments of [CreateMetric]. *)
Inductive metric_arg :=
| ArgString (s : string)
| ArgUnit (u : UnitType)
| ArgInterval (i : option TimeInterval)
| ArgTags (tags : gmap string string)
| ArgOther (type_name : string).

Definition with_unit (m : TimeSeries) (u : UnitType) : TimeSeries := SetUnit m u.

Definition set_interval (m : TimeSeries) (i : option TimeInterval) : TimeSeries :=
  mkTimeSeries (ts_MetricName m) (ts_SampleType m) i (ts_Value m) (ts_Tags m) (ts_Unit m)
    (ts_Thresholds m) (ts_MetricComputeType m) (ts_MetricExpression m).

Definition with_tags (m : TimeSeries) (tags : gmap string string) : TimeSeries :=
  mkTimeSeries (ts_MetricName m) (ts_SampleType m) (ts_Interval m) (ts_Value m) tags (ts_Unit m)
    (ts_Thresholds m) (ts_MetricComputeType m) (ts_MetricExpression m).

Fixpoint metric_args (m : TimeSeries) (args : list metric_arg) : result error TimeSeries :=
  match args with
  | [] => Val m
  | ArgString s :: args => metric_args (with_unit m s) args
  | ArgUnit u :: args => metric_args (with_unit m u) args
  | ArgInterval i :: args => metric_args (set_interval m i) args
  | ArgTags t :: args => metric_args (with_tags m t) args
  | ArgOther t :: args => Fail (unsupported t)
  end.

Definition CreateMetric (now : Timestamp) (name : string) (value : any) (args : list metric_arg)
  : outcome (result error TimeSeries) :=
  typedValue ← NewTypedValue value;
  match typedValue with
  | None => Ret (Fail (unsupported (type_name value)))
  | Some typedValue =>
      Ret (metric ← metric_args (mkTimeSeries name Value None (Some typedValue) ∅ "" [] "" "") args;
           let metric := match ts_Interval metric with
             | None =>
                 let timestamp := NewTimestamp now in
                 set_interval metric (Some (mkTimeInterval (Some timestamp) (Some timestamp)))
             | Some _ => metric
             end in
           Val (if decide (ts_Unit metric = "") then with_unit metric UnitCounter else metric))
  end.

Definition CreateThreshold (thresholdType : MetricSampleType) (label : string) (value : any)
  : outcome (result error ThresholdValue) :=
  typedValue ← NewTypedValue value;
  Ret (match typedValue with
       | None => Fail (unsupported (type_name value))
       | Some t => Val (mkThresholdValue thresholdType label (Some t))
       end).

Definition CreateWarningThreshold : string → any → outcome (result error ThresholdValue) :=
  CreateThreshold Warning.
Definition CreateCriticalThreshold : string → any → outcome (result error ThresholdValue) :=
  CreateThreshold Critical.

Record MetricBuilder := mkMetricBuilder {
  mb_Name : string;
  mb_CustomName : string;
  mb_ComputeType : ComputeType;
  mb_Expression : string;
  mb_Value : any;
  mb_UnitType : option metric_arg;
  mb_Warning : any;
  mb_Critical : any;
  mb_StartTimestamp : option Timestamp;
  mb_EndTimestamp : option Timestamp;
  mb_Graphed : bool;
  mb_Tags : gmap string string;
}.

(** The arguments of [BuildMetric]; half an interval is only logged. *)
Definition builder_args (b : MetricBuilder) : list metric_arg :=
  (match mb_UnitType b with Some u => [u] | None => [] end ++
   match mb_StartTimestamp b, mb_EndTimestamp b with
   | Some s, Some e => [ArgInterval (Some (mkTimeInterval (Some e) (Some s)))]
   | _, _ => []
   end ++
   (if decide (mb_Tags b = ∅) then [] else [ArgTags (mb_Tags b)]))%list.

(** A threshold that is given; the error of an unsupported one is logged, and the
    nil pointer dereferenced. *)
Definition build_threshold (create : string → any → outcome (result error ThresholdValue))
    (label : string) (value : any) : outcome (list ThresholdValue) :=
  match value with
  | ANil => Ret []
  | _ =>
      t ← create label value;
      match t with
      | Val t => Ret [t]
      | Fail _ => Panic "invalid memory address or nil pointer dereference"
      end
  end.

Definition BuildMetric (now : Timestamp) (b : MetricBuilder) : outcome (result error TimeSeries) :=
  let metricName := Name (mb_Name b) (mb_CustomName b) in
  metric ← CreateMetric now metricName (mb_Value b) (builder_args b);
  match metric with
  | Fail e => Ret (Fail e)
  | Val m =>
      warning ← build_threshold CreateWarningThreshold (metricName +:+ "_wn") (mb_Warning b);
      critical ← build_threshold CreateCriticalThreshold (metricName +:+ "_cr") (mb_Critical b);
      let thresholds := (warning ++ critical)%list in
      Ret (Val (mkTimeSeries (ts_MetricName m) (ts_SampleType m) (ts_Interval m) (ts_Value m)
        (ts_Tags m) (ts_Unit m) (match thresholds with [] => ts_Thresholds m | _ => thresholds end)
        (mb_ComputeType b) (mb_Expression b)))
  end.

Fixpoint build_metrics (now : Timestamp) (bs : list MetricBuilder) : outcome (result error (list TimeSeries)) :=
  match bs with
  | [] => Ret (Val [])
  | b :: bs =>
      metric ← BuildMetric now b;
      match metric with
      | Fail _ => Ret (Fail (Opaque "cannot create service with metric due to metric creation failure"))
      | Val m => rest ← build_metrics now bs; Ret (ms ← rest; Val (m :: ms))
      end
  end.

(** ** Services and resources *)

Inductive service_arg :=
| SvcMetrics (metrics : list TimeSeries)
| SvcProperties (properties : gmap string any)
| SvcOther (type_name : string).

Inductive resource_arg :=
| ResServices (services : list MonitoredService)
| ResDevice (device : string)
| ResOther (type_name : string).

Section builders.
Context `{MapOrder} (CheckInterval : Z) (now : Timestamp).

Definition with_times (i : MonitoredInfo) (t : Timestamp) : MonitoredInfo :=
  SetNextCheckTime (SetLastCheckTime i (Some t)) (Some (Timestamp.Add t CheckInterval)).

(** The end of the interval of the last metric. *)
Definition last_end (metrics : list TimeSeries) : outcome (option Timestamp) :=
  match last metrics with
  | None => Ret None
  | Some m => i ← deref (ts_Interval m); t ← deref (ti_EndTime i); Ret (Some t)
  end.

Fixpoint service_args (service : MonitoredService) (args : list service_arg)
  : outcome (result error MonitoredService) :=
  match args with
  | [] => Ret (Val service)
  | SvcMetrics metrics :: args =>
      t ← last_end metrics;
      let info := match t with
        | Some t => with_times (ms_MonitoredInfo service) t
        | None => ms_MonitoredInfo service
        end in
      service_args (mkMonitoredService (ms_BaseInfo service) info metrics) args
  | SvcProperties properties :: args =>
      base ← CreateProperties (ms_BaseInfo service) properties;
      service_args (mkMonitoredService base (ms_MonitoredInfo service) (ms_Metrics service)) args
  | SvcOther t :: args => Ret (Fail (unsupported t))
  end.

(** [CreateService]: the status of its metrics, unknown without any; the error of
    a wrong threshold is dropped. *)
Definition CreateService (name owner : string) (args : list service_arg)
  : outcome (result error MonitoredService) :=
  let info := with_times (mkMonitoredInfo ServiceOk None None "") (NewTimestamp now) in
  r ← service_args (mkMonitoredService (named_info name ResourceTypeService owner) info []) args;
  match r with
  | Fail e => Ret (Fail e)
  | Val s =>
      '(status, _) ← CalculateServiceStatus (Some (ms_Metrics s));
      Ret (Val (mkMonitoredService (ms_BaseInfo s) (SetStatus (ms_MonitoredInfo s) status) (ms_Metrics s)))
  end.

Definition BuildServiceForMetric (hostName : string) (b : MetricBuilder)
  : outcome (result error MonitoredService) :=
  metric ← BuildMetric now b;
  match metric with
  | Fail _ => Ret (Fail (Opaque "cannot create service with metric due to metric creation failure"))
  | Val m => CreateService (Name (mb_Name b) (mb_CustomName b)) hostName [SvcMetrics [m]; SvcProperties ∅]
  end.

(** The message of the status, or an empty one. *)
Definition BuildServiceForMetricWithStatusText (hostName : string) (b : MetricBuilder)
    (statusMessages : gmap MonitorStatus string) : outcome (result error MonitoredService) :=
  r ← BuildServiceForMetric hostName b;
  match r with
  | Fail e => Ret (Fail e)
  | Val service =>
      let patternMessage := default "" (statusMessages !! mi_Status (ms_MonitoredInfo service)) in
      s ← addServiceStatusText CheckInterval patternMessage (Some service);
      Ret (match s with Some s => Val s | None => Val service end)
  end.

Definition BuildServiceForMultiMetric (hostName serviceName customName : string) (bs : list MetricBuilder)
  : outcome (result error MonitoredService) :=
  metrics ← build_metrics now bs;
  match metrics with
  | Fail e => Ret (Fail e)
  | Val metrics => CreateService (Name serviceName customName) hostName [SvcMetrics metrics]
  end.

(** [BuildServiceForMetrics]: an error of [CreateService] is logged, and the nil
    service returned. *)
Definition BuildServiceForMetrics (serviceName hostName : string) (bs : list MetricBuilder)
  : outcome (result error (option MonitoredService)) :=
  metrics ← build_metrics now bs;
  match metrics with
  | Fail e => Ret (Fail e)
  | Val metrics =>
      r ← CreateService serviceName hostName [SvcMetrics metrics];
      let service := match r with Val s => Some s | Fail _ => None end in
      Val <$> addServiceStatusText CheckInterval "" service
  end.

Fixpoint resource_args (resource : MonitoredResource) (args : list resource_arg)
  : result error MonitoredResource :=
  match args with
  | [] => Val resource
  | ResServices services :: args =>
      let info := match services with
        | s :: _ => SetNextCheckTime
            (SetLastCheckTime (mr_MonitoredInfo resource) (mi_LastCheckTime (ms_MonitoredInfo s)))
            (mi_NextCheckTime (ms_MonitoredInfo s))
        | [] => mr_MonitoredInfo resource
        end in
      resource_args (mkMonitoredResource (mr_BaseResource resource) info services) args
  | ResDevice device :: args =>
      resource_args (mkMonitoredResource (SetDevice (mr_BaseResource resource) device)
                       (mr_MonitoredInfo resource) (mr_Services resource)) args
  | ResOther t :: args => Fail (unsupported t)
  end.

Definition CreateResource (name : string) (args : list resource_arg) : result error MonitoredResource :=
  let info := with_times (mkMonitoredInfo HostUp None None "") (NewTimestamp now) in
  r ← resource_args (mkMonitoredResource (mkBaseResource (named_info name ResourceTypeHost "") "") info []) args;
  let status := match mr_Services r with [] => HostUp | l => CalculateResourceStatus l end in
  Val (mkMonitoredResource (mr_BaseResource r) (SetStatus (mr_MonitoredInfo r) status) (mr_Services r)).
End builders.

(** ** Synthetic metrics *)

Section evaluate.
Context (gval : string → Vars → result error gval_value) (fuel : nat) (CheckInterval : Z).

(** The variables of a metric that is not synthetic: an integer as a float, a
    double as the pointer to it. *)
Definition metric_var (vars : Vars) (metric : TimeSeries) : outcome Vars :=
  if decide (ts_MetricComputeType metric = Synthetic) then Ret vars
  else
    value ← deref (ts_Value metric);
    let k := underscored (ts_MetricName metric) in
    if decide (tv_ValueType value = IntegerType) then
      z ← deref (tv_IntegerValue value); Ret (<[k := VFloat (f_of_Z z)]> vars)
    else if decide (tv_ValueType value = DoubleType) then
      Ret (<[k := VPointer (tv_DoubleValue value)]> vars)
    else Ret vars.

Definition service_vars (vars : Vars) (services : list MonitoredService) : outcome Vars :=
  foldM metric_var vars (services ≫= ms_Metrics).

(** The service that replaces the one of a synthetic metric. *)
Definition synthetic_service (service : MonitoredService) (metric : TimeSeries) (value : float64)
  : outcome MonitoredService :=
  i ← deref (ts_Interval metric);
  endTime ← deref (ti_EndTime i);
  let metrics := [mkTimeSeries (ts_MetricName metric) Value
                    (Some (mkTimeInterval (ti_EndTime i) (ti_StartTime i)))
                    (Some (tv_double value)) ∅ "" (ts_Thresholds metric) "" ""] in
  '(status, _) ← CalculateServiceStatus (Some metrics);
  Ret (mkMonitoredService
    (named_info (bi_Name (ms_BaseInfo service)) ResourceTypeService (bi_Owner (ms_BaseInfo service)))
    (mkMonitoredInfo status (Some endTime) (Some (Timestamp.Add endTime CheckInterval))
       (" Expression: " +:+ ts_MetricExpression metric))
    metrics).

(** The metrics the service had at first, one after the other; an expression that
    fails is logged. *)
Fixpoint evaluate_metrics (vars : Vars) (service : MonitoredService) (metrics : list TimeSeries)
  : run (Vars * MonitoredService) :=
  match metrics with
  | [] => RRet (vars, service)
  | metric :: metrics =>
      if decide (ts_MetricComputeType metric = Synthetic) then
        '(vars, r) ← EvaluateGroundworkExpression gval fuel (ts_MetricExpression metric) vars 0;
        match r with
        | Fail _ => evaluate_metrics vars service metrics
        | Val (value, _) =>
            service ← lift_o (synthetic_service service metric value);
            evaluate_metrics vars service metrics
        end
      else evaluate_metrics vars service metrics
  end.

Fixpoint evaluate_services (vars : Vars) (services : list MonitoredService)
  : run (list MonitoredService) :=
  match services with
  | [] => RRet []
  | service :: services =>
      '(vars, service) ← evaluate_metrics vars service (ms_Metrics service);
      rest ← evaluate_services vars services;
      RRet (service :: rest)
  end.

Definition EvaluateExpressions (services : list MonitoredService) : run (list MonitoredService) :=
  vars ← lift_o (service_vars ∅ services);
  evaluate_services vars services.

(** The resources of a request with their services evaluated and summarised. *)
Definition evaluate_resource (resource : MonitoredResource) : run MonitoredResource :=
  monitoredServices ← EvaluateExpressions (mr_Services resource);
  RRet (mkMonitoredResource (mr_BaseResource resource)
    (SetLastPluginOutput (mr_MonitoredInfo resource) (buildHostStatusText monitoredServices))
    monitoredServices).

Fixpoint evaluate_resources (resources : list MonitoredResource) : run (list MonitoredResource) :=
  match resources with
  | [] => RRet []
  | r :: rs => r ← evaluate_resource r; rs ← evaluate_resources rs; RRet (r :: rs)
  end.
End evaluate.

(** ** Payloads for the transit service *)

Section send.
Context {TC : TokenCache} (BE BM : BatchBuilder).
Context (FormatUUID : string → string) (GZip : string → result error string).
Context {JM : JsonCodec ResourcesWithServicesRequest} {JI : JsonCodec InventoryRequest}.
Context (environment : nat → call_env) (suppress : Suppress) (conn : Connector) (natsConfig : option Config).
Context (gval : string → Vars → result error gval_value) (fuel : nat) (CheckInterval : Z).

(** [GetTransitService().MakeTracerContext()] *)
Definition service_context (s : TransitService) : TransitService * TracerContext :=
  let e := env_now environment s in
  let '(tr, c) := MakeTracerContext FormatUUID (sv_tracer s) (cn_Identity conn) (ce_now e) (ce_nano e) in
  (with_tracer s tr, c).

Definition SendMetrics (s : TransitService) (ctx : context) (resources : list MonitoredResource)
    (groups : option (list ResourceGroup)) : run (TransitService * option error) :=
  let '(s, c) := service_context s in
  resources ← evaluate_resources gval fuel CheckInterval resources;
  match marshal (mkRequest c resources (default [] groups)) with
  | Fail e => RRet (s, Some e)
  | Val b => lift_o (SendResourceWithMetrics BM FormatUUID GZip environment suppress conn natsConfig s ctx b)
  end.

Definition SendInventory (s : TransitService) (ctx : context) (resources : list InventoryResource)
    (resourceGroups : list ResourceGroup) (ownershipType : HostOwnershipType)
  : outcome (TransitService * option error) :=
  let '(s, c) := service_context s in
  match marshal (mkInventoryRequest c ownershipType resources resourceGroups) with
  | Fail e => Ret (s, Some e)
  | Val b => SynchronizeInventory BM FormatUUID GZip environment suppress conn natsConfig s ctx b
  end.
End send.

(** ** Lemmas: synthetic metrics *)

Definition synthetic (m : TimeSeries) : bool := bool_decide (ts_MetricComputeType m = Synthetic).

(** What the evaluation should give: every synthetic metric with the value of its
    expression, given by [value], replaces its service. *)
Definition expected_service (CheckInterval : Z) (value : TimeSeries → option float64)
    (service : MonitoredService) : outcome MonitoredService :=
  foldM (λ s m,
    match (if synthetic m then value m else None) with
    | Some v => synthetic_service CheckInterval s m v
    | None => Ret s
    end) service (ms_Metrics service).

Lemma frame_trans vars vars1 vars2 : frame 0 vars vars1 → frame 0 vars1 vars2 → frame 0 vars vars2.
Proof. intros H1 H2 x Hx. by rewrite H2, H1. Qed.

Section evaluate_lemmas.
Context (gval : string → Vars → result error gval_value) (n : nat) (CheckInterval : Z).
Context (vars : Vars) (expr_of : TimeSeries → gexpr) (Hn : (4 ≤ n)%nat).

(** A synthetic metric whose expression has a value. *)
Definition evaluable (m : TimeSeries) : Prop :=
  synthetic m = true →
  ts_MetricExpression m = print (expr_of m) ∧ wf (expr_of m) = true ∧
  fresh_from 0 (expr_of m) ∧ is_Some (denote vars (expr_of m)).

Lemma evaluate_metrics_expected vars1 service metrics :
  frame 0 vars vars1 → Forall evaluable metrics →
  match foldM (λ s m,
    match (if synthetic m then denote vars (expr_of m) else None) with
    | Some v => synthetic_service CheckInterval s m v | None => Ret s end) service metrics with
  | Ret s => ∃ vars2, evaluate_metrics gval n CheckInterval vars1 service metrics = RRet (vars2, s) ∧
                      frame 0 vars vars2
  | Panic w => evaluate_metrics gval n CheckInterval vars1 service metrics = RPanic w
  end.
Proof using Hn.
  revert vars1 service. induction metrics as [|m metrics IH]; intros vars1 service Hf Hm.
  { cbn. by exists vars1. }
  apply Forall_cons in Hm as [Hm Hms]. cbn [foldM evaluate_metrics].
  unfold evaluable, synthetic in *. case_bool_decide as Hs.
  - rewrite decide_True by done. destruct Hm as (-> & Hwf & Hfr & v & Hv); [done|].
    rewrite Hv.
    destruct (Evaluate_print gval n (expr_of m) vars1 0 v) as (vars2 & -> & Hf2); try done.
    { by rewrite (denote_frame 0 vars vars1). }
    cbn [mbind run_bind outcome_bind].
    destruct (synthetic_service CheckInterval service m v) as [s|w]; [|done].
    cbn [lift_o mbind run_bind outcome_bind]. apply IH; [by eapply frame_trans|done].
  - rewrite decide_False by done. cbn [mbind outcome_bind]. by apply IH.
Qed.

Lemma evaluate_services_expected vars1 services :
  frame 0 vars vars1 → Forall (λ s, Forall evaluable (ms_Metrics s)) services →
  evaluate_services gval n CheckInterval vars1 services =
  lift_o (mapM_o (expected_service CheckInterval (λ m, denote vars (expr_of m))) services).
Proof using Hn.
  revert vars1. induction services as [|s services IH]; intros vars1 Hf Hs; [done|].
  apply Forall_cons in Hs as [Hm Hs]. cbn [evaluate_services mapM_o].
  pose proof (evaluate_metrics_expected vars1 s (ms_Metrics s) Hf Hm) as He.
  destruct (expected_service CheckInterval (λ m, denote vars (expr_of m)) s) as [s'|w] eqn:E;
    unfold expected_service in E; rewrite E in He.
  - destruct He as (vars2 & -> & Hf2). cbn [mbind run_bind outcome_bind]. rewrite IH by done.
    by destruct (mapM_o _ services).
  - by rewrite He.
Qed.
End evaluate_lemmas.

(** The first synthetic metric of the services, if any, is evaluated with the
    variables of all services. *)
Lemma evaluate_services_first gval n CheckInterval vars services m w :
  List.find synthetic (services ≫= ms_Metrics) = Some m →
  EvaluateGroundworkExpression gval n (ts_MetricExpression m) vars 0 = RPanic w →
  evaluate_services gval n CheckInterval vars services = RPanic w.
Proof.
  intros Hf Hp.
  assert (∀ l service, List.find synthetic l = Some m →
    evaluate_metrics gval n CheckInterval vars service l = RPanic w) as Hyes.
  { induction l as [|x l IH]; intros service Hl; [done|]. cbn [List.find] in Hl. cbn [evaluate_metrics].
    unfold synthetic in Hl at 1. case_bool_decide as Hs.
    - injection Hl as ->. by rewrite decide_True, Hp.
    - rewrite decide_False by done. by apply IH. }
  assert (∀ l service, List.find synthetic l = None →
    evaluate_metrics gval n CheckInterval vars service l = RRet (vars, service)) as Hno.
  { induction l as [|x l IH]; intros service Hl; [done|]. cbn [List.find] in Hl. cbn [evaluate_metrics].
    unfold synthetic in Hl at 1. case_bool_decide as Hs; [done|].
    rewrite decide_False by done. by apply IH. }
  assert (∀ l k, List.find synthetic (l ++ k) =
    match List.find synthetic l with Some x => Some x | None => List.find synthetic k end) as Happ.
  { induction l as [|x l IH]; intros k; [done|]. cbn. by destruct (synthetic x). }
  induction services as [|s services IH]; [done|].
  cbn [mbind list_bind] in Hf. rewrite Happ in Hf. cbn [evaluate_services].
  destruct (List.find synthetic (ms_Metrics s)) as [x|] eqn:Hx.
  - injection Hf as ->. by rewrite (Hyes _ s Hx).
  - rewrite (Hno _ s Hx). cbn [mbind run_bind]. by rewrite IH.
Qed.

(** An argument that is the pointer of a double is not a float. *)
Lemma arguments_pointer gval vars ns :
  Forall (λ n, name_ok n = true ∧ is_Some (vars !! underscored n)) ns →
  Exists (λ n, ∃ p, vars !! underscored n = Some (VPointer p)) ns →
  arguments gval vars ns = Panic "interface conversion: interface {} is *float64, not float64".
Proof.
  induction 1 as [|n ns [[_ Hn]%name_ok_spec [x Hx]] _ IH]; [by intros ?%Exists_nil|].
  intros He. cbn [arguments]. rewrite TrimSpace_all_solid by by apply name_solid.
  rewrite name_no_operator, Hx by done. destruct x as [v|p]; [|done].
  apply Exists_cons in He as [[p He]|He]; [congruence|]. by rewrite IH.
Qed.

(** ** Lemmas: constructors *)

(** A threshold that is absent, or of a type that can be compared. *)
Definition usable (v : any) : Prop := v = ANil ∨ (nil_pointer v = false ∧ is_Some (typed v)).

Definition threshold_of (ty : MetricSampleType) (label : string) (v : any) : list ThresholdValue :=
  match typed v with Some t => [mkThresholdValue ty label (Some t)] | None => [] end.

Lemma build_threshold_usable ty label v :
  usable v → build_threshold (CreateThreshold ty) label v = Ret (threshold_of ty label v).
Proof.
  intros [->|[Hn [t Ht]]]; [done|]. unfold build_threshold, threshold_of, CreateThreshold.
  rewrite (NewTypedValue_typed v Hn), Ht. cbn [mbind outcome_bind]. by destruct v.
Qed.

(** The unit of a builder that is text. *)
Definition builder_unit (b : MetricBuilder) : option UnitType :=
  match mb_UnitType b with
  | None => Some ""
  | Some (ArgString u) | Some (ArgUnit u) => Some u
  | Some _ => None
  end.

Definition unit_or_counter (u : UnitType) : UnitType := if decide (u = "") then UnitCounter else u.

Definition builder_interval (now : Timestamp) (b : MetricBuilder) : Timestamp * Timestamp :=
  match mb_StartTimestamp b, mb_EndTimestamp b with
  | Some s, Some e => (s, e)
  | _, _ => (NewTimestamp now, NewTimestamp now)
  end.

(** The metric a builder describes. *)
Definition builder_metric (now : Timestamp) (b : MetricBuilder) (v : TypedValue) (u : UnitType) : TimeSeries :=
  let '(s, e) := builder_interval now b in
  let name := Name (mb_Name b) (mb_CustomName b) in
  mkTimeSeries name Value (Some (mkTimeInterval (Some e) (Some s))) (Some v) (mb_Tags b)
    (unit_or_counter u)
    (threshold_of Warning (name +:+ "_wn") (mb_Warning b) ++
     threshold_of Critical (name +:+ "_cr") (mb_Critical b))
    (mb_ComputeType b) (mb_Expression b).

Lemma CreateMetric_builder now name value v b u :
  nil_pointer value = false → typed value = Some v → builder_unit b = Some u →
  CreateMetric now name value (builder_args b) =
  Ret (Val (mkTimeSeries name Value
    (let '(s, e) := builder_interval now b in Some (mkTimeInterval (Some e) (Some s)))
    (Some v) (mb_Tags b) (unit_or_counter u) [] "" "")).
Proof.
  intros Hn Hv Hu. unfold CreateMetric. rewrite (NewTypedValue_typed _ Hn), Hv. cbn [mbind outcome_bind].
  unfold builder_args, builder_unit, builder_interval, unit_or_counter in *.
  destruct (decide (mb_Tags b = ∅)) as [->|?];
    destruct (mb_UnitType b) as [[]|]; try done; injection Hu as ->;
    destruct (mb_StartTimestamp b), (mb_EndTimestamp b); cbn; by case_decide.
Qed.

Lemma BuildMetric_usable now b v u :
  nil_pointer (mb_Value b) = false → typed (mb_Value b) = Some v → builder_unit b = Some u →
  usable (mb_Warning b) → usable (mb_Critical b) →
  BuildMetric now b = Ret (Val (builder_metric now b v u)).
Proof.
  intros Hn Hv Hu Hw Hc. unfold BuildMetric.
  rewrite (CreateMetric_builder _ _ _ v _ u) by done. cbn [mbind outcome_bind].
  unfold CreateWarningThreshold, CreateCriticalThreshold. rewrite !build_threshold_usable by done.
  cbn [mbind outcome_bind]. unfold builder_metric. destruct (builder_interval now b) as [s e].
  cbn. by destruct (app _ _).
Qed.

(** The status of a service with one metric is the status of the metric. *)
Lemma CalculateServiceStatus_one m v w c lw lc :
  ts_Value m = Some v →
  ts_Thresholds m = (match w with Some t => [mkThresholdValue Warning lw (Some t)] | None => [] end ++
                     match c with Some t => [mkThresholdValue Critical lc (Some t)] | None => [] end)%list →
  CalculateServiceStatus (Some [m]) = (s ← CalculateStatus (Some v) w c; Ret (s, None)).
Proof.
  intros Hv Ht. cbn [CalculateServiceStatus]. rewrite service_status_cons by done.
  assert (metric_status m = Some (CalculateStatus (Some v) w c)) as ->.
  { unfold metric_status. rewrite Ht, Hv. by destruct w, c. }
  destruct (CalculateStatus (Some v) w c) as [s|] eqn:Hs; [|done].
  apply CalculateStatus_computed in Hs. cbn [mbind outcome_bind service_status].
  unfold computed_statuses in Hs. repeat (apply elem_of_cons in Hs as [->|Hs]; [done|]).
  by apply elem_of_nil in Hs.
Qed.

(** The service of a builder whose value and thresholds have supported types. *)
Lemma BuildServiceForMetric_built `{MapOrder} (CheckInterval : Z) now hostName b v u :
  nil_pointer (mb_Value b) = false → typed (mb_Value b) = Some v → builder_unit b = Some u →
  usable (mb_Warning b) → usable (mb_Critical b) →
  let e := (builder_interval now b).2 in
  BuildServiceForMetric CheckInterval now hostName b =
  (status ← CalculateStatus (Some v) (typed (mb_Warning b)) (typed (mb_Critical b));
   Ret (Val (mkMonitoredService
     (named_info (Name (mb_Name b) (mb_CustomName b)) ResourceTypeService hostName)
     (mkMonitoredInfo status (Some e) (Some (Timestamp.Add e CheckInterval)) "")
     [builder_metric now b v u]))).
Proof.
  intros Hn Hv Hu Hw Hc. cbn zeta. unfold BuildServiceForMetric.
  rewrite (BuildMetric_usable _ _ v u) by done. cbn [mbind outcome_bind].
  unfold CreateService, builder_metric. destruct (builder_interval now b) as [s e].
  cbn [service_args last_end last ts_Interval deref ti_EndTime mbind outcome_bind snd].
  unfold CreateProperties. assert (map_order (∅ : gmap string any) = []) as ->.
  { apply Permutation_nil_r. by rewrite map_order_perm, map_to_list_empty. }
  cbn [foldM mbind outcome_bind ms_Metrics ms_BaseInfo ms_MonitoredInfo].
  rewrite (CalculateServiceStatus_one _ v (typed (mb_Warning b)) (typed (mb_Critical b))
    (Name (mb_Name b) (mb_CustomName b) +:+ "_wn") (Name (mb_Name b) (mb_CustomName b) +:+ "_cr")) by done.
  by destruct (CalculateStatus _ _ _).
Qed.

(** ** Properties *)

(** A service that is built from a metric has the name of the metric, the host as
    owner, the end of the interval (or the time of the call) as its check time,
    the next check one interval later, exactly the metric the builder describes,
    and the status of its value against the thresholds of the builder.  A value
    of an unsupported type is an error; a threshold of an unsupported type is a
    nil dereference, although its error is checked. *)
Theorem BuildServiceForMetric_status `{MapOrder} (CheckInterval : Z) (now : Timestamp)
    (hostName : string) (b : MetricBuilder) :
  (∀ v u,
    nil_pointer (mb_Value b) = false → typed (mb_Value b) = Some v → builder_unit b = Some u →
    usable (mb_Warning b) → usable (mb_Critical b) →
    let e := (builder_interval now b).2 in
    BuildServiceForMetric CheckInterval now hostName b =
    (status ← CalculateStatus (Some v) (typed (mb_Warning b)) (typed (mb_Critical b));
     Ret (Val (mkMonitoredService
       (named_info (Name (mb_Name b) (mb_CustomName b)) ResourceTypeService hostName)
       (mkMonitoredInfo status (Some e) (Some (Timestamp.Add e CheckInterval)) "")
       [builder_metric now b v u])))) ∧
  (supported (mb_Value b) = false →
    ∃ e, BuildServiceForMetric CheckInterval now hostName b = Ret (Fail e)) ∧
  (∀ v u t,
    nil_pointer (mb_Value b) = false → typed (mb_Value b) = Some v → builder_unit b = Some u →
    mb_Warning b = AOther t → is_panic (BuildServiceForMetric CheckInterval now hostName b) = true).
Proof.
  split_and!.
  - intros v u Hn Hv Hu Hw Hc. by apply BuildServiceForMetric_built.
  - intros Hs. unfold BuildServiceForMetric, BuildMetric, CreateMetric.
    destruct (mb_Value b); try done; by eexists.
  - intros v u t Hn Hv Hu Hw. unfold BuildServiceForMetric, BuildMetric.
    rewrite (CreateMetric_builder _ _ _ v _ u) by done. by rewrite Hw.
Qed.

Definition sample_builder : MetricBuilder :=
  mkMetricBuilder "cpu" "" Query "" (AInt KInt 95) (Some (ArgUnit PercentCPU))
    (AInt KInt 80) (AInt KInt 90) None None false ∅.

Lemma BuildServiceForMetric_status_witness :
  BuildServiceForMetric (H := sorted_order) DefaultCheckInterval (mkTimestamp 100 0 LocalLoc) "host" sample_builder =
  Ret (Val (mkMonitoredService (named_info "cpu" ResourceTypeService "host")
    (mkMonitoredInfo ServiceUnscheduledCritical (Some (mkTimestamp 100 0 UTCLoc))
       (Some (mkTimestamp 220 0 UTCLoc)) "")
    [builder_metric (mkTimestamp 100 0 LocalLoc) sample_builder (tv_int 95) PercentCPU])).
Proof.
  destruct (@BuildServiceForMetric_status sorted_order DefaultCheckInterval (mkTimestamp 100 0 LocalLoc)
    "host" sample_builder) as (H1 & _ & _).
  rewrite (H1 (tv_int 95) PercentCPU); [|reflexivity|reflexivity|reflexivity|..].
  - vm_compute. reflexivity.
  - right. split; [reflexivity|by eexists].
  - right. split; [reflexivity|by eexists].
Defined.

(** Synthetic metrics are evaluated as meant: when the variables come from
    integer metrics, every synthetic metric whose expression has a value replaces
    its service by one with that value, and the other services stay; the values
    are those of the expression trees, whatever the order of the metrics and
    whatever the evaluator leaves in the shared variables. *)
Theorem EvaluateExpressions_denotes (gval : string → Vars → result error gval_value) (n : nat)
    (CheckInterval : Z) (services : list MonitoredService) (vars : Vars) (expr_of : TimeSeries → gexpr) :
  (4 ≤ n)%nat →
  service_vars ∅ services = Ret vars →
  Forall (λ s, Forall (evaluable vars expr_of) (ms_Metrics s)) services →
  EvaluateExpressions gval n CheckInterval services =
  lift_o (mapM_o (expected_service CheckInterval (λ m, denote vars (expr_of m))) services).
Proof.
  intros Hn Hv Hs. unfold EvaluateExpressions. rewrite Hv. cbn [lift_o mbind run_bind].
  by apply evaluate_services_expected.
Qed.

Definition sample_interval : TimeInterval :=
  mkTimeInterval (Some (mkTimestamp 100 0 UTCLoc)) (Some (mkTimestamp 90 0 UTCLoc)).

Definition sample_metric_service (name expression : string) (compute : ComputeType) (v : TypedValue)
  : MonitoredService :=
  mkMonitoredService (named_info name ResourceTypeService "host") (mkMonitoredInfo ServiceOk None None "")
    [mkTimeSeries name Value (Some sample_interval) (Some v) ∅ "" [] compute expression].

Lemma EvaluateExpressions_denotes_witness :
  EvaluateExpressions no_gval 4 DefaultCheckInterval
    [sample_metric_service "used" "" Query (tv_int 2048);
     sample_metric_service "used.kb" "GW:KB(used)" Synthetic (tv_int 0)] =
  lift_o (mapM_o (expected_service DefaultCheckInterval
      (λ m, denote (<["used" := VFloat (f_of_Z 2048)]> ∅) (GCall "GW:KB" [GVar "used"])))
    [sample_metric_service "used" "" Query (tv_int 2048);
     sample_metric_service "used.kb" "GW:KB(used)" Synthetic (tv_int 0)]).
Proof.
  apply (EvaluateExpressions_denotes no_gval 4 DefaultCheckInterval _
    (<["used" := VFloat (f_of_Z 2048)]> ∅) (λ _, GCall "GW:KB" [GVar "used"])).
  - lia.
  - vm_compute. reflexivity.
  - apply Forall_cons_2; [|apply Forall_singleton]; apply Forall_singleton; intros Hs;
      [by vm_compute in Hs|].
    split_and!; [reflexivity|reflexivity|by cbn; split_and!|by eexists].
Defined.

(** A synthetic metric over a double metric panics: the variable is the pointer of
    the value, and the evaluator asserts a float.  The first synthetic metric of
    the services that applies a function to variables, one of them a double, ends
    the evaluation of them all. *)
Theorem EvaluateExpressions_double_panics (gval : string → Vars → result error gval_value) (n : nat)
    (CheckInterval : Z) (services : list MonitoredService) (vars : Vars) (m : TimeSeries)
    (f : string) (ns : list string) :
  (4 ≤ n)%nat →
  service_vars ∅ services = Ret vars →
  List.find synthetic (services ≫= ms_Metrics) = Some m →
  ts_MetricExpression m = print (flat f ns) → wf (flat f ns) = true →
  Forall (λ x, is_Some (vars !! underscored x)) ns →
  Exists (λ x, ∃ p, vars !! underscored x = Some (VPointer p)) ns →
  EvaluateExpressions gval n CheckInterval services =
  RPanic "interface conversion: interface {} is *float64, not float64".
Proof.
  intros Hn Hv Hm He Hwf Hall Hex. unfold EvaluateExpressions. rewrite Hv. cbn [lift_o mbind run_bind].
  apply (evaluate_services_first gval n CheckInterval vars services m); [done|].
  pose proof Hwf as ([[fn count] Hg] & _ & Hns)%wf_call. rewrite He.
  replace n with (3 + (n - 3))%nat by lia.
  destruct (is_call (TrimSpace (print (flat f ns)))) eqn:Hc.
  - rewrite (proj1 (Evaluate_call gval _ _ _ _ Hc)).
    rewrite (Evaluate_flat_call gval f fn count) by done. rewrite arguments_pointer; [done| |done].
    rewrite Forall_fmap in Hns. apply Forall_and. by split.
  - exfalso. destruct (gw_function_name f) as (w & -> & Hw0 & Hw); [by eexists|].
    rewrite TrimSpace_all_solid in Hc by by apply print_solid.
    rewrite print_flat, str_app_assoc in Hc. rewrite is_call_intro in Hc; try done.
    + intros Hj. pose proof Hwf as (_ & Hne & _)%wf_call. rewrite Forall_fmap in Hns.
      destruct Hns as [|x xs [Hx _]%name_ok_spec _]; [done|]. by destruct x, xs.
    + apply names_no_paren. by rewrite Forall_fmap in Hns.
Qed.

Lemma EvaluateExpressions_double_panics_witness :
  EvaluateExpressions no_gval 4 DefaultCheckInterval
    [sample_metric_service "used" "" Query (tv_double (f_of_Z 2048));
     sample_metric_service "used.kb" "GW:KB(used)" Synthetic (tv_int 0)] =
  RPanic "interface conversion: interface {} is *float64, not float64".
Proof.
  eapply (EvaluateExpressions_double_panics no_gval 4 DefaultCheckInterval
    [sample_metric_service "used" "" Query (tv_double (f_of_Z 2048));
     sample_metric_service "used.kb" "GW:KB(used)" Synthetic (tv_int 0)]
    (<["used" := VPointer (Some (f_of_Z 2048))]> ∅) _ "GW:KB" ["used"]).
  - lia.
  - vm_compute. reflexivity.
  - vm_compute. reflexivity.
  - reflexivity.
  - vm_compute. reflexivity.
  - apply Forall_singleton. by eexists.
  - apply Exists_cons_hd. by eexists.
Defined.
