(* ===== verification/Periodic.v ===== *)
(** connectors/connectors.go, Start and StartPeriodic, and their use in the connectors' cmd.go: the
    loops that collect, the contexts that end them, and the configurations that start
    them again.

    Contexts are numbered in the order they are made.  The goroutines of a connector are
    a sequence of events in any order that they admit: a loop takes a tick or returns,
    a handler ends, [Run] starts its loop, a configuration arrives, the agent exits. *)

From S2P Require Import Prelude.
From S2P Require Import FloatText.
From S2P Require Import StatusText.

(** ** The start of the transport *)

(** [Duration.Truncate], toward zero. *)
Definition Truncate (d m : Z) : Z := if decide (m ≤ 0)%Z then d else (d - Z.rem d m)%Z.

(** The time [Start] waits before the transport: the bound of the random part in
    seconds, the time since the start of the agent, and the random number. *)
Definition transport_delay (td age rnd : Z) : Z :=
  if decide (0 < td ∧ Truncate age Second < 8)%Z then int64 (2 * Minute + Second * rnd) else 0.

(** The bound of eight is compared with a duration, so it means nanoseconds: only in its
    first second does an agent wait. *)
Theorem delay_in_first_second (td age rnd : Z) :
  (0 < td)%Z → (0 ≤ age)%Z → (0 ≤ rnd < 10 ^ 6)%Z →
  transport_delay td age rnd = if decide (age < Second)%Z then (2 * Minute + Second * rnd)%Z else 0%Z.
Proof.
  intros Htd Hage Hr. assert (0 < Second)%Z as Hs by done. unfold transport_delay, Truncate.
  rewrite (decide_False (P := (Second ≤ 0)%Z)) by lia. rewrite Z.rem_mod_nonneg, Z.mod_eq by lia.
  replace (age - (age - Second * (age / Second)))%Z with (Second * (age / Second))%Z by lia.
  destruct (decide (age < Second)%Z) as [Hlt|Hge].
  - rewrite Z.div_small by lia. rewrite decide_True by (split; [done|lia]).
    apply int64_id. unfold in_int64, Minute, Second. lia.
  - rewrite decide_False; [done|]. intros [_ Hlt]. pose proof (Z.div_str_pos age Second).
    assert (Second = 10 ^ 9)%Z as He by done. rewrite He in *. lia.
Qed.

(** ** The state *)

(** How a handler ends.  A value that is recovered is asserted to be an error: a panic
    with another value, as of [regexp.MustCompile], panics again where it is recovered. *)
Inductive handler_end := Returned | PanicError | PanicOther.

Record periodic := mkPeriodic {
  pe_ctx : nat;              (** [ctxCancel] and [cancel] *)
  pe_exit : nat;             (** the context of the registered exit handler *)
  pe_cancelled : gset nat;
  pe_loops : list nat;       (** the contexts of the loops that have not returned *)
  pe_handlers : nat;         (** the handlers that run *)
  pe_waiting : bool;         (** [Run] has not started its loop yet *)
  pe_crashed : bool;
}.

Definition initial : periodic := mkPeriodic 0 0 ∅ [] 0 true false.

(** The period of the ticks, not shorter than a minute or the context's own bound. *)
Definition period (notOften : option Z) (t : Z) : Z := MaxDuration t [default Minute notOften].

(** [StartPeriodic]: a loop, and a handler at once. *)
Definition StartPeriodic (s : periodic) (ctx : nat) : periodic :=
  mkPeriodic (pe_ctx s) (pe_exit s) (pe_cancelled s) (pe_loops s ++ [ctx]) (S (pe_handlers s)) (pe_waiting s) (pe_crashed s).

(** The end of a [configHandler]: the context is cancelled, and another one made for
    the loop, which not every configuration starts.  It is one event: the queue of the
    agent runs its tasks one by one, and a loop has its context as an argument, so that
    nothing between the assignments is seen by another. *)
Definition restart (s : periodic) (start : bool) : periodic :=
  let ctx := S (pe_ctx s) in
  let s := mkPeriodic ctx ctx ({[pe_ctx s]} ∪ pe_cancelled s) (pe_loops s) (pe_handlers s) (pe_waiting s) (pe_crashed s) in
  if start then StartPeriodic s ctx else s.

(** ** Events *)

Inductive event :=
| ERun
| EConfig (start : bool)
| ETick (ctx : nat)
| EDone (ctx : nat)
| EHandler (e : handler_end)
| EExit.

(** The first loop of a context, removed. *)
Fixpoint remove_loop (ctx : nat) (l : list nat) : list nat :=
  match l with
  | [] => []
  | c :: l => if decide (c = ctx) then l else c :: remove_loop ctx l
  end.

(** An event that can happen.  A tick that is ready beside the end of the context may
    be taken first. *)
Definition step (s : periodic) (e : event) : option periodic :=
  if pe_crashed s then None
  else match e with
  | ERun =>
      if pe_waiting s then
        Some (StartPeriodic (mkPeriodic (pe_ctx s) (pe_exit s) (pe_cancelled s) (pe_loops s) (pe_handlers s) false false) (pe_ctx s))
      else None
  | EConfig start => Some (restart s start)
  | ETick ctx =>
      if decide (ctx ∈ pe_loops s) then
        Some (mkPeriodic (pe_ctx s) (pe_exit s) (pe_cancelled s) (pe_loops s) (S (pe_handlers s)) (pe_waiting s) false)
      else None
  | EDone ctx =>
      if decide (ctx ∈ pe_loops s ∧ ctx ∈ pe_cancelled s) then
        Some (mkPeriodic (pe_ctx s) (pe_exit s) (pe_cancelled s) (remove_loop ctx (pe_loops s)) (pe_handlers s) (pe_waiting s) false)
      else None
  | EHandler r =>
      match pe_handlers s with
      | O => None
      | S n =>
          Some (mkPeriodic (pe_ctx s) (pe_exit s) (pe_cancelled s) (pe_loops s) n (pe_waiting s)
                  (match r with PanicOther => true | _ => false end))
      end
  | EExit =>
      Some (mkPeriodic (pe_ctx s) (pe_exit s) ({[pe_exit s]} ∪ pe_cancelled s) (pe_loops s) (pe_handlers s) (pe_waiting s) false)
  end.

Fixpoint steps (s : periodic) (es : list event) : option periodic :=
  match es with
  | [] => Some s
  | e :: es => s ← step s e; steps s es
  end.

(** The loops that will go on: their context is not cancelled. *)
Definition live (s : periodic) : list nat := filter (λ c, c ∉ pe_cancelled s) (pe_loops s).

(** ** Lemmas *)

(** The context that exits is the current one; those before it are cancelled, and none
    after it is known. *)
Definition periodic_inv (s : periodic) : Prop :=
  pe_exit s = pe_ctx s ∧
  (∀ c, c < pe_ctx s → c ∈ pe_cancelled s) ∧
  (∀ c, c ∈ pe_cancelled s → c ≤ pe_ctx s) ∧
  (∀ c, c ∈ pe_loops s → c ≤ pe_ctx s).

Lemma remove_loop_sublist c l : remove_loop c l `sublist_of` l.
Proof. induction l as [|x l IH]; cbn; [done|]. case_decide; [by apply sublist_cons|by apply sublist_skip]. Qed.

Lemma initial_inv : periodic_inv initial.
Proof. split_and!; [done|cbn; lia|set_solver..]. Qed.

Lemma StartPeriodic_inv s : periodic_inv s → periodic_inv (StartPeriodic s (pe_ctx s)).
Proof.
  intros (He & Hold & Hc & Hle). split_and!; [done..|]. cbn.
  intros c [Hin| ->%list_elem_of_singleton]%elem_of_app; auto.
Qed.

Lemma restart_inv s start : periodic_inv s → periodic_inv (restart s start).
Proof.
  intros (He & Hold & Hc & Hle).
  set (s1 := mkPeriodic (S (pe_ctx s)) (S (pe_ctx s)) ({[pe_ctx s]} ∪ pe_cancelled s) (pe_loops s) (pe_handlers s)
    (pe_waiting s) (pe_crashed s)).
  assert (periodic_inv s1) as Hs1; [|destruct start; [by apply (StartPeriodic_inv s1)|done]].
  split_and!; cbn; [done|..].
  - intros c Hlt. destruct (decide (c = pe_ctx s)) as [->|]; [set_solver|]. apply elem_of_union_r, Hold. lia.
  - intros c [->%elem_of_singleton|Hin]%elem_of_union; [lia|]. specialize (Hc c Hin). lia.
  - intros c Hin. specialize (Hle c Hin). lia.
Qed.

Lemma step_inv s e s' : step s e = Some s' → periodic_inv s → periodic_inv s'.
Proof.
  unfold step. destruct (pe_crashed s); [done|]. intros Hs Hi. pose proof Hi as (He & Hold & Hc & Hle).
  destruct e as [|start|c|c|r|].
  - destruct (pe_waiting s); [|done]. injection Hs as <-.
    apply (StartPeriodic_inv (mkPeriodic (pe_ctx s) _ _ _ _ _ _)). by split_and!.
  - injection Hs as <-. by apply restart_inv.
  - case_decide; [|done]. injection Hs as <-. by split_and!.
  - case_decide; [|done]. injection Hs as <-. split_and!; [done..|]. cbn. intros c' Hc'. apply Hle.
    eapply elem_of_sublist; [exact Hc'|apply remove_loop_sublist].
  - destruct (pe_handlers s); [done|]. injection Hs as <-. by split_and!.
  - injection Hs as <-. split_and!; [done| | |done]; cbn; [intros c ?; apply elem_of_union_r; auto|].
    intros c [->%elem_of_singleton|Hin]%elem_of_union; [lia|auto].
Qed.

(** *** How many loops go on *)

Lemma live_StartPeriodic s c : length (live (StartPeriodic s c)) ≤ S (length (live s)).
Proof.
  unfold live. cbn [StartPeriodic pe_cancelled pe_loops]. rewrite filter_app, length_app, filter_cons, filter_nil.
  case_decide; cbn [length]; lia.
Qed.

(** The loops before a configuration do not go on. *)
Lemma live_restart s start : periodic_inv s → length (live (restart s start)) ≤ if start then 1 else 0.
Proof.
  intros (He & Hold & Hc & Hle).
  set (s1 := mkPeriodic (S (pe_ctx s)) (S (pe_ctx s)) ({[pe_ctx s]} ∪ pe_cancelled s) (pe_loops s) (pe_handlers s)
    (pe_waiting s) (pe_crashed s)).
  assert (live s1 = []) as Hnone.
  { destruct (live s1) as [|c l] eqn:Hl; [done|]. assert (c ∈ live s1) as Hin by (rewrite Hl; left).
    apply list_elem_of_filter in Hin as [Hn Hin]. cbn in Hn, Hin. specialize (Hle c Hin). destruct Hn.
    destruct (decide (c = pe_ctx s)) as [->|]; [set_solver|]. apply elem_of_union_r, Hold. lia. }
  destruct start; cbn [restart]; fold s1.
  - pose proof (live_StartPeriodic s1 (S (pe_ctx s))). rewrite Hnone in *. done.
  - rewrite Hnone. done.
Qed.

Lemma length_filter_impl (P Q : nat → Prop) `{∀ x, Decision (P x), ∀ x, Decision (Q x)} (l : list nat) :
  (∀ x, P x → Q x) → length (filter P l) ≤ length (filter Q l).
Proof.
  intros Hpq. induction l as [|x l IH]; [done|]. rewrite !filter_cons.
  destruct (decide (P x)); destruct (decide (Q x)); cbn [length]; try lia. naive_solver.
Qed.

(** The other events start no loop. *)
Lemma live_other s e s' :
  step s e = Some s' → match e with ERun | EConfig _ => False | _ => True end →
  length (live s') ≤ length (live s) ∧ pe_waiting s' = pe_waiting s.
Proof.
  unfold step. destruct (pe_crashed s); [done|]. intros Hs He. destruct e as [|start|c|c|r|]; try done.
  - case_decide; [|done]. by injection Hs as <-.
  - case_decide; [|done]. injection Hs as <-. split; [|done]. unfold live. cbn [pe_loops pe_cancelled].
    clear. induction (pe_loops s) as [|x l IH]; [done|]. cbn [remove_loop]. rewrite filter_cons.
    destruct (decide (x = c)); destruct (decide (x ∉ pe_cancelled s)) as [Hx|Hx]; cbn [length]; try lia;
      rewrite filter_cons; [rewrite decide_True by done|rewrite decide_False by done]; cbn [length]; lia.
  - destruct (pe_handlers s); [done|]. by injection Hs as <-.
  - injection Hs as <-. split; [|done]. unfold live. cbn [pe_loops pe_cancelled].
    apply length_filter_impl. intros x Hx Hin. apply Hx. by apply elem_of_union_r.
Qed.

(** The last configuration of a history starts a loop. *)
Definition last_config (es : list event) : Prop :=
  ∃ es1 es2, es = es1 ++ EConfig true :: es2 ∧ ∀ b, EConfig b ∉ es2.

(** It does, and [Run] starts its own after it. *)
Definition run_late (es : list event) : Prop :=
  ∃ es1 es2, es = es1 ++ EConfig true :: es2 ∧ (∀ b, EConfig b ∉ es2) ∧ ERun ∈ es2.

Lemma last_config_snoc es e : last_config es → (∀ b, e ≠ EConfig b) → last_config (es ++ [e]).
Proof.
  intros (es1 & es2 & -> & Hno) He. exists es1, (es2 ++ [e]). rewrite <-(assoc_L (++)). split; [done|].
  intros b [Hb|Hb%list_elem_of_singleton]%elem_of_app; [by apply (Hno b)|by apply (He b)].
Qed.

Lemma run_late_snoc es e : run_late es → (∀ b, e ≠ EConfig b) → run_late (es ++ [e]).
Proof.
  intros (es1 & es2 & -> & Hno & Hr) He. exists es1, (es2 ++ [e]). rewrite <-(assoc_L (++)). split; [done|]. split.
  - intros b [Hb|Hb%list_elem_of_singleton]%elem_of_app; [by apply (Hno b)|by apply (He b)].
  - apply elem_of_app. by left.
Qed.

Lemma steps_snoc s es e : steps s (es ++ [e]) = s' ← steps s es; step s' e.
Proof.
  revert s. induction es as [|x es IH]; intros s; cbn; [by destruct (step s e)|].
  destruct (step s x); [apply IH|done].
Qed.

Lemma steps_bound es s :
  steps initial es = Some s →
  periodic_inv s ∧ length (live s) ≤ 2 ∧ (length (live s) = 2 → run_late es) ∧
  (pe_waiting s = true → length (live s) ≤ 1 ∧ (length (live s) = 1 → last_config es)).
Proof.
  revert s. induction es as [|e es IH] using rev_ind; intros s.
  { intros [= <-]. split; [apply initial_inv|]. cbn. by split_and!; intros; lia. }
  rewrite steps_snoc. destruct (steps initial es) as [s0|] eqn:H0; [|done]. cbn [mbind option_bind].
  intros Hs. destruct (IH s0 eq_refl) as (Hi & H2 & Hlate & Hw). split; [by eapply step_inv|].
  assert (match e with ERun | EConfig _ => False | _ => True end →
    length (live s) ≤ 2 ∧ (length (live s) = 2 → run_late (es ++ [e])) ∧
    (pe_waiting s = true → length (live s) ≤ 1 ∧ (length (live s) = 1 → last_config (es ++ [e])))) as Hother.
  { intros He. destruct (live_other _ _ _ Hs He) as [Hl Hpe]. rewrite Hpe.
    assert (∀ b, e ≠ EConfig b) as Hne by (intros b ->; done). split; [lia|]. split.
    - intros H. apply run_late_snoc; [apply Hlate; lia|done].
    - intros Hwait. destruct (Hw Hwait) as [H1 Hc]. split; [lia|]. intros H. apply last_config_snoc; [apply Hc; lia|done]. }
  destruct e as [|start|c|c|r|]; try (by apply Hother); clear Hother; unfold step in Hs;
    destruct (pe_crashed s0); try done.
  - destruct (pe_waiting s0) eqn:Hwait; [|done]. injection Hs as <-. destruct (Hw eq_refl) as [H1 Hc].
    pose proof (live_StartPeriodic (mkPeriodic (pe_ctx s0) (pe_exit s0) (pe_cancelled s0) (pe_loops s0) (pe_handlers s0)
      false false) (pe_ctx s0)) as Hl.
    change (live (mkPeriodic _ _ _ _ _ _ _)) with (live s0) in Hl. split; [lia|]. split; [|done]. intros H.
    destruct Hc as (es1 & es2 & -> & Hno); [lia|]. exists es1, (es2 ++ [ERun]). rewrite <-(assoc_L (++)). split; [done|]. split.
    + intros b [Hb|Hb%list_elem_of_singleton]%elem_of_app; [by apply (Hno b)|done].
    + apply elem_of_app. right. by apply list_elem_of_singleton.
  - injection Hs as <-. pose proof (live_restart s0 start Hi) as Hl. split; [destruct start; lia|].
    split; [destruct start; lia|]. intros _. split; [destruct start; lia|]. intros H. destruct start; [|lia].
    exists es, []. split; [done|]. intros b Hb. by apply elem_of_nil in Hb.
Qed.

(** ** Properties *)

(** C33: Whatever the order of events, at most two loops go on at a time, all with the current
    context; and two only if the last configuration came before [Run] had started its
    own loop. *)
Theorem loops_that_go_on (es : list event) (s : periodic) :
  steps initial es = Some s →
  length (live s) ≤ 2 ∧ Forall (λ c, c = pe_ctx s) (live s) ∧ (length (live s) = 2 → run_late es).
Proof.
  intros (Hi & H2 & Hlate & _)%steps_bound. split; [done|]. split; [|done].
  destruct Hi as (_ & Hold & _ & Hle). apply Forall_forall. intros c [Hn Hl]%list_elem_of_filter.
  specialize (Hle c Hl). destruct (decide (c = pe_ctx s)) as [|Hne]; [done|]. destruct Hn. apply Hold. lia.
Qed.

Lemma loops_that_go_on_witness :
  ∃ s, steps initial [EConfig true; ERun; ETick 1; EHandler Returned] = Some s ∧ live s = [1; 1] ∧
    run_late [EConfig true; ERun; ETick 1; EHandler Returned].
Proof.
  eexists. split; [vm_compute; reflexivity|]. split; [vm_compute; reflexivity|].
  apply (loops_that_go_on [EConfig true; ERun; ETick 1; EHandler Returned] _ eq_refl). vm_compute. reflexivity.
Defined.

(** In the order that is meant, a configuration after the start, one loop goes on, and
    the one before returns. *)
Example loop_restarted : (live <$> steps initial [ERun; ETick 0; EConfig true; EDone 0; ETick 1]) = Some [1].
Proof. by vm_compute. Qed.

(** A panic with a value that is no error ends the program. *)
Example panic_of_text : (pe_crashed <$> steps initial [ERun; EHandler PanicOther]) = Some true ∧
  (pe_crashed <$> steps initial [ERun; EHandler PanicError]) = Some false.
Proof. by vm_compute. Qed.
