(* ===== verification/Access.v ===== *)
(** services/controller.go, access control: [checkAccess] with its cache of
    accepted credentials, and the double-checked locking that keeps concurrent
    requests from authenticating the same credentials twice.

    go-cache is an interface with its documented laws, the hash is an argument,
    and the remote checks are the calls of the clients. *)

From S2P Require Import Prelude.
From S2P Require Import GoString.
From S2P Require Import Errors.
From S2P Require Import Payload.
From S2P Require Import Http.
From S2P Require Import Clients.

Local Open Scope string_scope.

(** ** The cache *)

(** go-cache: [Get] finds an item until it expires, [Add] fails when it is there. *)
Class AuthCache := {
  acache : Type;
  ac_new : acache;
  ac_get : acache → Z → string → bool;
  ac_add : acache → Z → string → Z → acache * option error;
  ac_flush : acache → acache;
}.

Class AuthCacheLaws (C : AuthCache) : Prop := {
  ac_get_new t k : ac_get ac_new t k = false;
  ac_get_flush c t k : ac_get (ac_flush c) t k = false;
  ac_add_present c t k d : ac_get c t k = true → ∃ e, ac_add c t k d = (c, Some e);
  ac_add_absent c t k d : ac_get c t k = false →
    ∃ c', ac_add c t k d = (c', None) ∧
      ∀ t' k', ac_get c' t' k' = if decide (k' = k) then bool_decide (t' ≤ t + d)%Z else ac_get c t' k';
}.

Definition map_auth_cache : AuthCache := {|
  acache := gmap string Z;
  ac_new := ∅;
  ac_get m t k := match m !! k with Some e => bool_decide (t ≤ e)%Z | None => false end;
  ac_add m t k d :=
    match m !! k with
    | Some e => if bool_decide (t ≤ e)%Z then (m, Some (Opaque ("Item " +:+ k +:+ " already exists")))
                else (<[k := (t + d)%Z]> m, None)
    | None => (<[k := (t + d)%Z]> m, None)
    end;
  ac_flush _ := ∅;
|}.

#[export] Instance map_auth_cache_laws : AuthCacheLaws map_auth_cache.
Proof.
  assert (∀ (m : gmap string Z) t k d t' k',
    match <[k := (t + d)%Z]> m !! k' with Some e => bool_decide (t' ≤ e)%Z | None => false end =
    if decide (k' = k) then bool_decide (t' ≤ t + d)%Z
    else match m !! k' with Some e => bool_decide (t' ≤ e)%Z | None => false end) as Hins.
  { intros m t k d t' k'. case_decide; [subst; by rewrite lookup_insert_eq|by rewrite lookup_insert_ne]. }
  split; cbn [ac_get ac_add ac_new ac_flush map_auth_cache acache].
  - done.
  - done.
  - intros c t k d. destruct (c !! k); [|done]. intros ->. by eexists.
  - intros c t k d. destruct (c !! k); [intros ->|intros _]; eexists; (split; [reflexivity|]);
      intros; apply Hins.
Qed.

(** ** Basic authentication *)

Definition b64_value (c : ascii) : option N :=
  let n := N_of_ascii c in
  (if byte_in 65 90 c then Some (n - 65)
   else if byte_in 97 122 c then Some (n - 71)
   else if byte_in 48 57 c then Some (n + 4)
   else if decide (c = "+"%char) then Some 62
   else if decide (c = "/"%char) then Some 63 else None)%N.

Definition b64_bytes (a b c d : N) : string :=
  let n := (a * 2 ^ 18 + b * 2 ^ 12 + c * 2 ^ 6 + d)%N in
  String (ascii_of_N (n / 2 ^ 16)) (String (ascii_of_N ((n / 2 ^ 8) mod 256))
    (String (ascii_of_N (n mod 256)) "")).

(** [base64.StdEncoding.DecodeString] of a text without line breaks. *)
Fixpoint b64_decode (s : string) : option string :=
  match s with
  | "" => Some ""
  | String a (String b (String c (String d s'))) =>
      x ← b64_value a; y ← b64_value b;
      if decide (s' = "" ∧ c = "="%char ∧ d = "="%char) then Some (str_take 1 (b64_bytes x y 0 0))
      else
        z ← b64_value c;
        if decide (s' = "" ∧ d = "="%char) then Some (str_take 2 (b64_bytes x y z 0))
        else w ← b64_value d; r ← b64_decode s'; Some (b64_bytes x y z w +:+ r)
  | _ => None
  end.

Fixpoint without_breaks (s : string) : string :=
  match s with
  | "" => ""
  | String c s' =>
      if decide (c = ascii_of_nat 10 ∨ c = ascii_of_nat 13) then without_breaks s'
      else String c (without_breaks s')
  end.

(** ASCII letters in lower case. *)
Fixpoint ascii_lower (s : string) : string :=
  match s with
  | "" => ""
  | String c s' =>
      String (if byte_in 65 90 c then ascii_of_N (N_of_ascii c + 32) else c) (ascii_lower s')
  end.

(** [http.Request.BasicAuth] *)
Definition BasicAuth (h : Header) : option (string * string) :=
  let auth := h_Get h "Authorization" in
  if decide (ascii_lower (str_take 6 auth) = "basic ") then
    cs ← b64_decode (without_breaks (str_drop 6 auth));
    i ← Index cs ":";
    Some (str_take i cs, str_drop (S i) cs)
  else None.

Example BasicAuth_1 :
  BasicAuth (<["Authorization" := ["Basic QWxhZGRpbjpvcGVuIHNlc2FtZQ=="]]> ∅) = Some ("Aladdin", "open sesame").
Proof. by vm_compute. Qed.

(** ** [checkAccess] *)

Inductive access := Allowed | Denied (err : error).

(** What the check reads of the configuration. *)
Record access_config := mkAccessConfig {
  ac_dsHost : string;
  ac_gwClients : list GWClient;
  ac_pin : string;
}.

Definition hour : Z := (3600 * 10 ^ 9)%Z.

Section access.
Context `{MapOrder} {W : Type} `{Transport W} {C : AuthCache}.
Context (windows httpClientKeepAlive : bool).
Context (json_login : string → string → string) (json_accessToken : string → result error string).
Context (url_String : string → string → string → string).

(** [blake2b.New512(nil)]: the sum of the bytes written; it has no errors without
    a key. *)
Context (blake2b512 : string → string).

Definition hashFn (args : list string) : string := hex_encode (blake2b512 (Join args "")).

(** The part under the mutex: the cache is read again, then the remote check. *)
Definition authenticate_locked (remote : W → W * option error) (w : W) (cache : acache) (now : Z)
    (ck : string) : W * acache * option error :=
  if ac_get cache now ck then (w, cache, None)
  else
    let '(w, err) := remote w in
    match err with
    | None => let '(cache, err) := ac_add cache now ck hour in (w, cache, err)
    | Some err => (w, cache, Some err)
    end.

Definition authenticate (remote : W → W * option error) (w : W) (cache : acache) (now : Z)
    (ck : string) : W * acache * option error :=
  if ac_get cache now ck then (w, cache, None) else authenticate_locked remote w cache now ck.

Definition basic_remote (c : GWClient) (username password : string) (w : W) : W * option error :=
  let '(w, r) := AuthenticatePassword windows httpClientKeepAlive json_login json_accessToken w c username password in
  (w, match r with Val _ => None | Fail e => Some e end).

Definition gwos_remote (dsHost appName apiToken : string) (w : W) : W * option error :=
  DS_ValidateToken httpClientKeepAlive url_String w dsHost appName apiToken.

Definition verdict (r : W * acache * option error) : W * acache * access :=
  (r.1, match r.2 with None => Allowed | Some e => Denied e end).

Definition checkAccess (cfg : access_config) (w : W) (cache : acache) (now : Z) (h : Header)
  : W * acache * access :=
  if decide (ac_dsHost cfg = "" ∧ ac_gwClients cfg = []) then (w, cache, Allowed)
  else if decide (ac_pin cfg ≠ "" ∧ ac_pin cfg = h_Get h "X-PIN") then (w, cache, Allowed)
  else match BasicAuth h with
  | Some (username, password) =>
      match ac_gwClients cfg with
      | [] => (w, cache, Denied (Opaque "misconfigured BASIC auth"))
      | c :: _ =>
          if decide (username = "" ∨ password = "") then (w, cache, Denied (Opaque "misconfigured BASIC auth"))
          else verdict (authenticate (basic_remote c username password) w cache now (hashFn [username; password]))
      end
  | None =>
      let gwosAppName := h_Get h "GWOS-APP-NAME" in
      let gwosAPIToken := h_Get h "GWOS-API-TOKEN" in
      if decide (gwosAppName = "" ∨ gwosAPIToken = "" ∨ ac_dsHost cfg = "") then
        (w, cache, Denied (Opaque "misconfigured GWOS auth"))
      else verdict (authenticate (gwos_remote (ac_dsHost cfg) gwosAppName gwosAPIToken) w cache now
                      (hashFn [gwosAppName; gwosAPIToken]))
  end.
End access.

(** ** Concurrent requests

    Requests of a scheme (basic or gwos) share a mutex.  A thread reads the cache;
    on a miss it waits for the mutex, reads the cache again, asks the remote
    server, and stores the key before it leaves.  [successes] is the history of
    positive remote answers. *)

Inductive scheme := SBasic | SGwos.

#[export] Instance scheme_eq_dec : EqDecision scheme.
Proof. solve_decision. Defined.

Inductive phase :=
| PStart                     (** before the first read *)
| PWait                      (** missed, waits for the mutex *)
| PLocked                    (** holds the mutex *)
| PMissed                    (** missed again under the mutex *)
| PAccepted                  (** accepted by the remote server, not stored yet *)
| PDone (allowed : bool).    (** left *)

Definition holds_lock (p : phase) : bool :=
  match p with PLocked | PMissed | PAccepted => true | _ => false end.

Record thread := mkThread { th_scheme : scheme; th_key : string; th_phase : phase }.

Record auth_system := mkAuthSystem {
  as_threads : list thread;
  as_cached : gset string;
  as_successes : list (scheme * string);
}.

Definition set_phase (t : thread) (p : phase) : thread := mkThread (th_scheme t) (th_key t) p.

(** No thread of the scheme holds its mutex. *)
Definition mutex_free (ts : list thread) (s : scheme) : Prop :=
  Forall (λ t, holds_lock (th_phase t) = true → th_scheme t ≠ s) ts.

(** The steps of requests with credentials of the two schemes.  Left out are the expiry of a
    key after an hour and the flush of the cache by a new configuration, which only take
    keys from the cache, and the requests that ask neither the cache nor the remote
    server: those with a pin, and all while the interface is open.  [checkAccess] has
    them. *)
Inductive auth_step : auth_system → auth_system → Prop :=
| as_arrive s ts cached succ k :
    auth_step (mkAuthSystem ts cached succ) (mkAuthSystem (ts ++ [mkThread s k PStart]) cached succ)
| as_hit l t r cached succ :
    th_phase t = PStart → th_key t ∈ cached →
    auth_step (mkAuthSystem (l ++ t :: r) cached succ)
              (mkAuthSystem (l ++ set_phase t (PDone true) :: r) cached succ)
| as_miss l t r cached succ :
    th_phase t = PStart → th_key t ∉ cached →
    auth_step (mkAuthSystem (l ++ t :: r) cached succ)
              (mkAuthSystem (l ++ set_phase t PWait :: r) cached succ)
| as_lock l t r cached succ :
    th_phase t = PWait → mutex_free (l ++ r) (th_scheme t) →
    auth_step (mkAuthSystem (l ++ t :: r) cached succ)
              (mkAuthSystem (l ++ set_phase t PLocked :: r) cached succ)
| as_hit_locked l t r cached succ :
    th_phase t = PLocked → th_key t ∈ cached →
    auth_step (mkAuthSystem (l ++ t :: r) cached succ)
              (mkAuthSystem (l ++ set_phase t (PDone true) :: r) cached succ)
| as_miss_locked l t r cached succ :
    th_phase t = PLocked → th_key t ∉ cached →
    auth_step (mkAuthSystem (l ++ t :: r) cached succ)
              (mkAuthSystem (l ++ set_phase t PMissed :: r) cached succ)
| as_reject l t r cached succ :
    th_phase t = PMissed →
    auth_step (mkAuthSystem (l ++ t :: r) cached succ)
              (mkAuthSystem (l ++ set_phase t (PDone false) :: r) cached succ)
| as_accept l t r cached succ :
    th_phase t = PMissed →
    auth_step (mkAuthSystem (l ++ t :: r) cached succ)
              (mkAuthSystem (l ++ set_phase t PAccepted :: r) cached
                 (succ ++ [(th_scheme t, th_key t)]))
| as_store l t r cached succ :
    (** [Add] fails when the other scheme stored the key meanwhile. *)
    th_phase t = PAccepted →
    auth_step (mkAuthSystem (l ++ t :: r) cached succ)
              (mkAuthSystem (l ++ set_phase t (PDone (bool_decide (th_key t ∉ cached))) :: r)
                 ({[th_key t]} ∪ cached) succ).

(** ** Lemmas: concurrent requests *)

Local Open Scope list_scope.

Definition locks (ts : list thread) : list scheme :=
  th_scheme <$> filter (λ t, holds_lock (th_phase t) = true) ts.

#[export] Instance locks_perm : Proper ((≡ₚ) ==> (≡ₚ)) locks.
Proof. intros ts ts' Hts. unfold locks. by rewrite Hts. Qed.

Lemma locks_middle l t r :
  locks (l ++ t :: r) ≡ₚ (if holds_lock (th_phase t) then [th_scheme t] else []) ++ locks (l ++ r).
Proof.
  rewrite <-Permutation_middle. unfold locks. rewrite filter_cons.
  destruct (holds_lock (th_phase t)); [by rewrite decide_True|by rewrite decide_False].
Qed.

Lemma mutex_free_locks ts s : mutex_free ts s ↔ s ∉ locks ts.
Proof.
  unfold mutex_free, locks. rewrite Forall_forall. split.
  - intros Hf (t & -> & Ht)%list_elem_of_fmap. apply list_elem_of_filter in Ht as [Ht1 Ht2]. by apply (Hf t).
  - intros Hn t Ht Hh <-. apply Hn, list_elem_of_fmap. exists t. split; [done|].
    by apply list_elem_of_filter.
Qed.

Definition credited (s : auth_system) (k : string) : Prop := ∃ sch, (sch, k) ∈ as_successes s.

Record auth_inv (s : auth_system) : Prop := {
  ai_mutex : NoDup (locks (as_threads s));
  ai_once : NoDup (as_successes s);
  ai_stored sch k : (sch, k) ∈ as_successes s → k ∈ as_cached s ∨
    mkThread sch k PAccepted ∈ as_threads s;
  ai_missed t : t ∈ as_threads s → th_phase t = PMissed → (th_scheme t, th_key t) ∉ as_successes s;
  ai_accepted t : t ∈ as_threads s → th_phase t = PAccepted → (th_scheme t, th_key t) ∈ as_successes s;
  ai_cached k : k ∈ as_cached s → credited s k;
  ai_granted t : t ∈ as_threads s → th_phase t = PDone true → credited s (th_key t);
}.

Lemma elem_middle {A} (x t : A) l r : x ∈ l ++ t :: r ↔ x = t ∨ x ∈ l ++ r.
Proof. rewrite !elem_of_app, elem_of_cons. tauto. Qed.

(** A thread that moves between phases without touching cache and history. *)
Lemma auth_inv_move l t r p cached succ :
  auth_inv (mkAuthSystem (l ++ t :: r) cached succ) →
  th_phase t ≠ PAccepted →
  (holds_lock p = true → holds_lock (th_phase t) = true ∨ th_scheme t ∉ locks (l ++ r)) →
  (p = PMissed → (th_scheme t, th_key t) ∉ succ) → p ≠ PAccepted →
  (p = PDone true → ∃ sch, (sch, th_key t) ∈ succ) →
  auth_inv (mkAuthSystem (l ++ set_phase t p :: r) cached succ).
Proof.
  intros [Hm Ho Hs Hmi Ha Hc Hg] Ht Hl Hp Hpa Hd. cbn [as_threads as_cached as_successes] in *.
  assert (∀ x, x ∈ l ++ r → x ∈ l ++ t :: r) as Hsub by (intros; rewrite elem_middle; by right).
  split; cbn [as_threads as_cached as_successes]; try done.
  - rewrite locks_middle in Hm |- *. cbn [th_phase set_phase th_scheme].
    destruct (holds_lock p) eqn:E; cbn.
    + destruct (holds_lock (th_phase t)); [done|]. destruct (Hl eq_refl) as [|Hn]; [done|].
      by apply NoDup_cons.
    + destruct (holds_lock (th_phase t)); cbn in Hm; [by apply NoDup_cons in Hm as [_ ?]|done].
  - intros sch k Hk. destruct (Hs sch k Hk) as [|Hin]; [by left|]. right.
    apply elem_middle in Hin as [<-|Hin]; [done|]. apply elem_middle. by right.
  - intros x [->|Hx]%elem_middle; [cbn; auto|by apply Hmi, Hsub].
  - intros x [->|Hx]%elem_middle; [cbn; congruence|by apply Ha, Hsub].
  - intros x [->|Hx]%elem_middle; [cbn; auto|by apply Hg, Hsub].
Qed.

Lemma auth_step_inv s s' : auth_step s s' → auth_inv s → auth_inv s'.
Proof.
  intros Hstep Hi. destruct Hstep as
    [sch ts cached succ k|l t r cached succ Hp Hk|l t r cached succ Hp Hk|l t r cached succ Hp Hf
    |l t r cached succ Hp Hk|l t r cached succ Hp Hk|l t r cached succ Hp|l t r cached succ Hp
    |l t r cached succ Hp].
  - destruct Hi as [Hm Ho Hs Hmi Ha Hc Hg]. cbn [as_threads as_cached as_successes] in *.
    assert (∀ x, x ∈ ts ++ [mkThread sch k PStart] ↔ x ∈ ts ∨ x = mkThread sch k PStart) as Hin
      by (intros; rewrite elem_of_app, list_elem_of_singleton; done).
    split; cbn [as_threads as_cached as_successes]; try done.
    + unfold locks. rewrite filter_app, fmap_app. cbn. by rewrite app_nil_r.
    + intros sch' k' Hk. destruct (Hs _ _ Hk); [by left|right]. apply Hin. by left.
    + intros t [Ht| ->]%Hin; [by apply Hmi|done].
    + intros t [Ht| ->]%Hin; [by apply Ha|done].
    + intros t [Ht| ->]%Hin; [by apply Hg|done].
  - apply auth_inv_move; [done|by rewrite Hp|done..|]. intros _. by apply (ai_cached _ Hi).
  - by apply auth_inv_move; [|rewrite Hp|..].
  - apply auth_inv_move; [done|by rewrite Hp|..|done|done|done]. intros _. right. by apply mutex_free_locks.
  - apply auth_inv_move; [done|by rewrite Hp|done..|]. intros _. by apply (ai_cached _ Hi).
  - apply auth_inv_move; [done|by rewrite Hp|..|done|done].
    + intros _. left. by rewrite Hp.
    + intros _ Hin. destruct (ai_stored _ Hi _ _ Hin) as [|Hacc]; [done|]. cbn [as_threads] in Hacc.
      apply elem_middle in Hacc as [Heq|Hacc]; [by rewrite <-Heq in Hp|].
      pose proof (ai_mutex _ Hi) as Hm. cbn [as_threads] in Hm. rewrite locks_middle, Hp in Hm. cbn in Hm.
      apply NoDup_cons in Hm as [Hm _]. apply Hm, list_elem_of_fmap.
      eexists. split; [|apply list_elem_of_filter; split; [|exact Hacc]]; done.
  - by apply auth_inv_move; [|rewrite Hp|..].
  - destruct Hi as [Hm Ho Hs Hmi Ha Hc Hg]. cbn [as_threads as_cached as_successes] in *.
    assert (∀ x, x ∈ l ++ r → x ∈ l ++ t :: r) as Hsub by (intros; rewrite elem_middle; by right).
    assert (∀ k, credited (mkAuthSystem (l ++ t :: r) cached succ) k →
      credited (mkAuthSystem (l ++ set_phase t PAccepted :: r) cached (succ ++ [(th_scheme t, th_key t)])) k) as Hcr.
    { intros k [sch Hk]. exists sch. apply elem_of_app. by left. }
    assert (th_scheme t ∉ locks (l ++ r)) as Hfree.
    { rewrite locks_middle, Hp in Hm. cbn in Hm. by apply NoDup_cons in Hm as [? _]. }
    assert ((th_scheme t, th_key t) ∉ succ) as Hnew by (apply Hmi; [apply elem_middle; by left|done]).
    split; cbn [as_threads as_cached as_successes].
    + rewrite locks_middle in Hm |- *. by rewrite Hp in Hm.
    + apply NoDup_app. split_and!; [done| |apply NoDup_singleton]. by intros x Hx ->%list_elem_of_singleton.
    + intros sch k [Hk|Heq%list_elem_of_singleton]%elem_of_app.
      * destruct (Hs _ _ Hk) as [|Hin]; [by left|right]. apply elem_middle in Hin as [Heq|Hin].
        -- by rewrite <-Heq in Hp.
        -- apply elem_middle. by right.
      * injection Heq as -> ->. right. apply elem_middle. by left.
    + intros x [->|Hx]%elem_middle; [done|]. intros Hxp [Hin|Heq%list_elem_of_singleton]%elem_of_app.
      * by apply (Hmi x); [apply Hsub| |].
      * injection Heq as Heq _. apply Hfree, list_elem_of_fmap. exists x. split; [done|].
        apply list_elem_of_filter. split; [by rewrite Hxp|done].
    + intros x [->|Hx]%elem_middle Hxp; apply elem_of_app; [right; by apply list_elem_of_singleton|left].
      apply Ha; [by apply Hsub|done].
    + intros k Hk. by apply Hcr, Hc.
    + intros x [->|Hx]%elem_middle; [done|]. intros Hxp. apply Hcr, Hg; [by apply Hsub|done].
  - destruct Hi as [Hm Ho Hs Hmi Ha Hc Hg]. cbn [as_threads as_cached as_successes] in *.
    assert (∀ x, x ∈ l ++ r → x ∈ l ++ t :: r) as Hsub by (intros; rewrite elem_middle; by right).
    assert ((th_scheme t, th_key t) ∈ succ) as Hacc by (apply Ha; [apply elem_middle; by left|done]).
    split; cbn [as_threads as_cached as_successes]; try done.
    + rewrite locks_middle in Hm |- *. rewrite Hp in Hm. cbn in Hm |- *. by apply NoDup_cons in Hm as [_ ?].
    + intros sch k Hk. destruct (Hs _ _ Hk) as [|Hin]; [left; set_solver|].
      apply elem_middle in Hin as [Heq|Hin].
      * left. rewrite <-Heq. cbn. set_solver.
      * right. apply elem_middle. by right.
    + intros x [->|Hx]%elem_middle; [done|by apply Hmi, Hsub].
    + intros x [->|Hx]%elem_middle; [done|by apply Ha, Hsub].
    + intros k [->%elem_of_singleton|Hk]%elem_of_union; [by exists (th_scheme t)|by apply Hc].
    + intros x [->|Hx]%elem_middle; [intros _; by exists (th_scheme t)|by apply Hg, Hsub].
Qed.

(** ** Lemmas: one request *)

Section access_lemmas.
Context `{MapOrder} {W : Type} `{Transport W} {C : AuthCache} {L : AuthCacheLaws C}.
Context (windows keepAlive : bool).
Context (json_login : string → string → string) (json_accessToken : string → result error string).
Context (url_String : string → string → string → string) (blake2b512 : string → string).
#[local] Abbreviation hash := (hashFn blake2b512).
#[local] Abbreviation check :=
  (checkAccess windows keepAlive json_login json_accessToken url_String blake2b512).
#[local] Abbreviation basic := (basic_remote windows keepAlive json_login json_accessToken).
#[local] Abbreviation gwos := (gwos_remote keepAlive url_String).

(** Every key of the cache is the hash of a pair of [A]. *)
Definition justified (A : list (string * string)) (c : acache) : Prop :=
  ∀ t k, ac_get c t k = true → ∃ u p, (u, p) ∈ A ∧ k = hash [u; p].

Lemma authenticate_cases (remote : W → W * option error) w c now ck :
  (ac_get c now ck = true ∧ authenticate remote w c now ck = (w, c, None)) ∨
  (ac_get c now ck = false ∧ ∃ w' e, remote w = (w', Some e) ∧
     authenticate remote w c now ck = (w', c, Some e)) ∨
  (ac_get c now ck = false ∧ ∃ w' c', remote w = (w', None) ∧
     authenticate remote w c now ck = (w', c', None) ∧
     ∀ t k, ac_get c' t k = if decide (k = ck) then bool_decide (t ≤ now + hour)%Z else ac_get c t k).
Proof using L.
  unfold authenticate, authenticate_locked. destruct (ac_get c now ck) eqn:Hg; [by left|right].
  destruct (remote w) as [w' [e|]] eqn:Hr; [left|right]; (split; [done|]).
  - by exists w', e.
  - destruct (ac_add_absent c now ck hour Hg) as (c' & -> & Hc'). by exists w', c'.
Qed.

(** What a request proves about its credentials: a positive remote answer now. *)
Definition accepted_now (cfg : access_config) (w : W) (h : Header) (x : string * string) : Prop :=
  match BasicAuth h with
  | Some (u, p) => x = (u, p) ∧ ∃ c, head (ac_gwClients cfg) = Some c ∧ (basic c u p w).2 = None
  | None => x = (h_Get h "GWOS-APP-NAME", h_Get h "GWOS-API-TOKEN") ∧
            (gwos (ac_dsHost cfg) x.1 x.2 w).2 = None
  end.

(** The credentials of a request. *)
Definition credentials (h : Header) : string * string :=
  match BasicAuth h with
  | Some up => up
  | None => (h_Get h "GWOS-APP-NAME", h_Get h "GWOS-API-TOKEN")
  end.

Definition open_access (cfg : access_config) : Prop := ac_dsHost cfg = "" ∧ ac_gwClients cfg = [].
Definition pin_access (cfg : access_config) (h : Header) : Prop :=
  ac_pin cfg ≠ "" ∧ ac_pin cfg = h_Get h "X-PIN".

(** A check that authenticates: its cache stays justified, and it allows only
    credentials whose hash is the hash of an accepted pair. *)
Lemma verdict_sound A (remote : W → W * option error) w c now u p w' c' r (P : string * string → Prop) :
  justified A c → ((remote w).2 = None → P (u, p)) →
  verdict (authenticate remote w c now (hash [u; p])) = (w', c', r) →
  ∃ A', justified A' c' ∧ (∀ x, x ∈ A' → x ∈ A ∨ P x) ∧
        (r = Allowed → ∃ u' p', (u', p') ∈ A' ∧ hash [u; p] = hash [u'; p']).
Proof using L.
  intros Hj HP. destruct (authenticate_cases remote w c now (hash [u; p]))
    as [[Hg ->]|[(Hg & w1 & e & Hr & ->)|(Hg & w1 & c1 & Hr & -> & Hc1)]]; intros [= <- <- <-].
  - exists A. split_and!; [done|by left|]. intros _. destruct (Hj _ _ Hg) as (u' & p' & Hin & He). eauto.
  - exists A. split_and!; [done|by left|done].
  - exists ((u, p) :: A). split_and!.
    + intros t k. rewrite Hc1. case_decide as Hk; [intros _; exists u, p; split; [by left|done]|].
      intros (u' & p' & Hin & He)%Hj. exists u', p'. split; [by right|done].
    + intros x [->|Hx]%elem_of_cons; [right; apply HP; by rewrite Hr|by left].
    + intros _. exists u, p. split; [by left|done].
Qed.

(** ** Properties *)

(** Access is granted only to an agent without any connection, to the pin, or to
    credentials with the hash of a pair that the remote server accepted, now or in
    an earlier request; the cache never holds anything else. *)
Theorem checkAccess_sound (cfg : access_config) (w w' : W) (c c' : acache) (now : Z) (h : Header)
    (r : access) (A : list (string * string)) :
  justified A c → check cfg w c now h = (w', c', r) →
  ∃ A', justified A' c' ∧
    (∀ x, x ∈ A' → x ∈ A ∨ accepted_now cfg w h x) ∧
    (r = Allowed → open_access cfg ∨ pin_access cfg h ∨
      ∃ u p, (u, p) ∈ A' ∧ hash [(credentials h).1; (credentials h).2] = hash [u; p]).
Proof using L.
  intros Hj. unfold checkAccess, accepted_now, credentials. case_decide as Ho.
  { intros [= <- <- <-]. exists A. split_and!; [done|by left|]. intros _. by left. }
  case_decide as Hp.
  { intros [= <- <- <-]. exists A. split_and!; [done|by left|]. intros _. right. by left. }
  destruct (BasicAuth h) as [[u p]|].
  - destruct (ac_gwClients cfg) as [|g gs] eqn:Hgw.
    { intros [= <- <- <-]. exists A. split_and!; [done|by left|done]. }
    case_decide. { intros [= <- <- <-]. exists A. split_and!; [done|by left|done]. }
    intros Hv. eapply (verdict_sound A _ _ _ _ _ _ _ _ _
      (λ x, x = (u, p) ∧ ∃ c, head (g :: gs) = Some c ∧ (basic c u p w).2 = None)) in Hv
      as (A' & J1 & J2 & J3); [|done|by eauto].
    exists A'. split_and!; [done|done|]. intros Hr. right. right. by apply J3.
  - case_decide. { intros [= <- <- <-]. exists A. split_and!; [done|by left|done]. }
    intros Hv. eapply (verdict_sound A _ _ _ _ _ _ _ _ _
      (λ x, x = (h_Get h "GWOS-APP-NAME", h_Get h "GWOS-API-TOKEN") ∧
            (gwos (ac_dsHost cfg) x.1 x.2 w).2 = None)) in Hv as (A' & J1 & J2 & J3); [|done|by eauto].
    exists A'. split_and!; [done|done|]. intros Hr. right. right. by apply J3.
Qed.

(** The credentials are hashed without a separator and both schemes share the
    cache: once a user name and password are accepted, for an hour every pair of
    an application name and a token with the same concatenation is allowed, without
    a remote check and whatever the remote server would answer. *)
Theorem checkAccess_confusion (cfg : access_config) (w w' w2 : W) (c c' : acache) (now now' : Z)
    (h h' : Header) (u p : string) :
  ¬ open_access cfg → ¬ pin_access cfg h → ¬ pin_access cfg h' → ac_dsHost cfg ≠ "" →
  BasicAuth h = Some (u, p) → BasicAuth h' = None →
  check cfg w c now h = (w', c', Allowed) → ac_get c now (hash [u; p]) = false →
  h_Get h' "GWOS-APP-NAME" ≠ "" → h_Get h' "GWOS-API-TOKEN" ≠ "" →
  h_Get h' "GWOS-APP-NAME" +:+ h_Get h' "GWOS-API-TOKEN" = u +:+ p →
  (now' ≤ now + hour)%Z →
  check cfg w2 c' now' h' = (w2, c', Allowed).
Proof using L.
  intros Ho Hp Hp' Hds Hb Hb' Hc Hg Hn Ht He Hnow.
  assert (hash [h_Get h' "GWOS-APP-NAME"; h_Get h' "GWOS-API-TOKEN"] = hash [u; p]) as Hh.
  { unfold hashFn. cbn [Join]. do 2 f_equal. by change ("" +:+ ?x) with x. }
  assert (ac_get c' now' (hash [u; p]) = true) as Hget.
  { revert Hc. unfold checkAccess. rewrite decide_False, decide_False, Hb by done.
    destruct (ac_gwClients cfg) as [|g gs]; [done|]. case_decide; [done|].
    destruct (authenticate_cases (basic g u p) w c now (hash [u; p]))
      as [[Hg' _]|[(_ & w1 & e & _ & ->)|(_ & w1 & c1 & _ & -> & Hc1)]]; [congruence|done|].
    intros [= <- <-]. rewrite Hc1, decide_True by done. by apply bool_decide_eq_true. }
  unfold checkAccess. rewrite decide_False, decide_False, Hb' by done.
  rewrite decide_False by (intros [?|[?|?]]; done).
  rewrite Hh. unfold authenticate. by rewrite Hget.
Qed.
End access_lemmas.

(** C13: Concurrent requests authenticate each pair of scheme and key at most once
    while its key is cached, each mutex is held by one request at a time, and a
    request is only let in with a key the remote server accepted. *)
Theorem double_checked_locking (s : auth_system) :
  rtc auth_step (mkAuthSystem [] ∅ []) s →
  NoDup (as_successes s) ∧ NoDup (locks (as_threads s)) ∧
  (∀ t, t ∈ as_threads s → th_phase t = PDone true → credited s (th_key t)).
Proof.
  intros Hr. assert (∀ x, rtc auth_step x s → auth_inv x → auth_inv s) as Hx.
  { intros x Hx. induction Hx as [|x y z Hxy _ IH]; [done|]. intros Hi. by eapply IH, auth_step_inv. }
  destruct (Hx _ Hr) as [Hm Ho _ _ _ _ Hg]; [|done].
  split; cbn; try (intros; set_solver); constructor.
Qed.

(** Two requests with the same credentials: the second waits for the first. *)
Lemma double_checked_locking_witness :
  let t p := mkThread SBasic "k" p in
  rtc auth_step (mkAuthSystem [] ∅ [])
    (mkAuthSystem [t (PDone true); t (PDone true)] {["k"]} [(SBasic, "k")]) ∧
  NoDup [(SBasic, "k")].
Proof.
  intros t.
  assert (rtc auth_step (mkAuthSystem [] ∅ [])
    (mkAuthSystem [t (PDone true); t (PDone true)] {["k"]} [(SBasic, "k")])) as Hr.
  { eapply rtc_l; [apply (as_arrive SBasic [] ∅ [] "k")|].
    eapply rtc_l; [apply (as_arrive SBasic [t PStart] ∅ [] "k")|].
    eapply rtc_l; [apply (as_miss [] (t PStart) [t PStart] ∅ []); [done|set_solver]|].
    eapply rtc_l; [apply (as_miss [t PWait] (t PStart) [] ∅ []); [done|set_solver]|].
    eapply rtc_l; [apply (as_lock [] (t PWait) [t PWait] ∅ []); [done|by repeat constructor]|].
    eapply rtc_l; [apply (as_miss_locked [] (t PLocked) [t PWait] ∅ []); [done|set_solver]|].
    eapply rtc_l; [apply (as_accept [] (t PMissed) [t PWait] ∅ []); done|].
    eapply rtc_l; [apply (as_store [] (t PAccepted) [t PWait] ∅ [(SBasic, "k")]); done|].
    rewrite (bool_decide_eq_true_2 ("k" ∉ ∅)) by set_solver. rewrite (right_id_L ∅ (∪)).
    eapply rtc_l; [apply (as_lock [t (PDone true)] (t PWait) [] {["k"]} [(SBasic, "k")]); [done|by repeat constructor]|].
    eapply rtc_l; [apply (as_hit_locked [t (PDone true)] (t PLocked) [] {["k"]} [(SBasic, "k")]); [done|set_solver]|].
    apply rtc_refl. }
  split; [exact Hr|]. exact (proj1 (double_checked_locking _ Hr)).
Defined.

(** A network that accepts every login while its state is [true]. *)
Definition toggle_transport : Transport bool := {|
  new_request _ _ := None;
  client_do (w : bool) (_ : http_request) := (w, if w then Val (200%Z, "true") else Fail (Opaque "no route to host"));
|}.

Definition sample_access : access_config :=
  mkAccessConfig "dalek" [mkGWClient "app" "type"
    (mkGWConnection 1 "gw" "" "" true false "" false false "" false "" false false false)] "".

Definition sample_basic : Header := <["Authorization" := ["Basic YWI6Yw=="]]> ∅.
Definition sample_gwos : Header := <["Gwos-App-Name" := ["a"]]> (<["Gwos-Api-Token" := ["bc"]]> ∅).

Definition sample_check (w : bool) (c : gmap string Z) (now : Z) (h : Header)
  : bool * gmap string Z * access :=
  @checkAccess sorted_order bool toggle_transport map_auth_cache false true (λ u p, u +:+ p) Val
    (λ s h p, s +:+ h +:+ p) id sample_access w c now h.

Lemma checkAccess_sound_witness :
  (sample_check true ∅ 0 sample_basic).2 = Allowed ∧
  ∃ A' : list (string * string), ∃ u p, (u, p) ∈ A' ∧ hashFn id ["ab"; "c"] = hashFn id [u; p].
Proof.
  assert (sample_check true ∅ 0 sample_basic =
    (true, (sample_check true ∅ 0 sample_basic).1.2, Allowed)) as Hc by (vm_compute; reflexivity).
  split; [rewrite Hc; reflexivity|].
  edestruct (@checkAccess_sound sorted_order bool toggle_transport map_auth_cache map_auth_cache_laws
    false true (λ u p, u +:+ p) Val (λ s h p, s +:+ h +:+ p) id sample_access true true ∅
    (sample_check true ∅ 0 sample_basic).1.2 0
    sample_basic Allowed []) as (A' & _ & _ & Hr); [by intros t k| exact Hc |].
  exists A'. destruct (Hr eq_refl) as [[Ho _]|[[Hp _]|He]]; [discriminate Ho|by destruct Hp|exact He].
Defined.

Lemma checkAccess_confusion_witness :
  sample_check false (sample_check true ∅ 0 sample_basic).1.2 5 sample_gwos =
    (false, (sample_check true ∅ 0 sample_basic).1.2, Allowed) ∧
  (sample_check false ∅ 5 sample_gwos).2 ≠ Allowed.
Proof.
  split; [|vm_compute; discriminate].
  eapply (@checkAccess_confusion sorted_order bool toggle_transport map_auth_cache map_auth_cache_laws
    false true (λ u p, u +:+ p) Val (λ s h p, s +:+ h +:+ p) id sample_access true true false ∅ _ 0 5
    sample_basic sample_gwos "ab" "c").
  - intros [Ho _]. discriminate Ho.
  - intros [Hp _]. by destruct Hp.
  - intros [Hp _]. by destruct Hp.
  - discriminate.
  - vm_compute. reflexivity.
  - vm_compute. reflexivity.
  - vm_compute. reflexivity.
  - vm_compute. reflexivity.
  - vm_compute. discriminate.
  - vm_compute. discriminate.
  - vm_compute. reflexivity.
  - vm_compute. discriminate.
Defined.
