(* ===== verification/Controller.v ===== *)
(** services/controller.go: the HTTP interface of the agent.  The handlers forward
    payloads to the transit service and jobs to the task queue; the routes tell
    which handlers stand behind the access check; and the listener that retries
    while its address is in use.

    gin, which matches paths and serves requests, is an argument where the model
    needs it; so are the answers of the listener. *)

From S2P Require Import Prelude.
From S2P Require Import GoString.
From S2P Require Import FloatText.
From S2P Require Import Errors.
From S2P Require Import Transit.
From S2P Require Import Batcher.
From S2P Require Import Codec.
From S2P Require Import Http.
From S2P Require Import Nats.
From S2P Require Import Tracer.
From S2P Require Import TaskQueue.
From S2P Require Import Clients.
From S2P Require Import TransitService.
From S2P Require Import Agent.
From S2P Require Import Access.

Local Open Scope string_scope.

(** ** Requests and replies *)

Record request := mkHTTPRequest {
  hq_Method : string;
  hq_Path : string;
  hq_Header : Header;
  hq_Body : result error string;     (** [GetRawData] *)
}.

Definition Status := string.
Definition StatusProcessing : Status := "processing".
Definition StatusRunning : Status := "running".
Definition StatusStopped : Status := "stopped".

(** [ConnectorStatusDTO] *)
Record ConnectorStatusDTO := mkStatusDTO { sd_Status : Status; sd_JobID : Z }.

Inductive body :=
| BNull
| BText (s : string)
| BError (s : string)
| BStatus (dto : ConnectorStatusDTO)
| BData (s : string)
| BIdentity (a : AgentIdentity)
| BStats (r : run_stats)
| BOther.                            (** the version, and the configuration of the process *)

Record reply := mkReply { rp_status : Z; rp_body : body }.

Definition StatusOK : Z := 200.
Definition StatusBadRequest : Z := 400.
Definition StatusUnauthorized : Z := 401.
Definition StatusNotFound : Z := 404.
Definition StatusInternalServerError : Z := 500.
Definition StatusServiceUnavailable : Z := 503.

(** ** The listener *)

Definition startRetryDelay : Z := 200 * Millisecond.

(** The loop of [startController]: [answer i] is the error of the [i]-th
    [Listen] or [Serve] and the time since the start.  The result is the number of
    retries and the last error, [None] when the fuel is used up. *)
Fixpoint listen_loop (windows : bool) (startTimeout : Z) (answer : nat → option error * Z)
    (fuel i : nat) : option (nat * option error) :=
  match fuel with
  | O => None
  | S fuel =>
      let '(err, elapsed) := answer i in
      match err with
      | Some e =>
          if IsErrorAddressInUse windows e && bool_decide (elapsed < startTimeout - startRetryDelay)%Z
          then listen_loop windows startTimeout answer fuel (S i)
          else Some (i, Some e)
      | None => Some (i, None)
      end
  end.

(** ":port" listens on all addresses. *)
Definition listen_addr (addr : string) : string :=
  if HasPrefix addr ":" then "0.0.0.0" +:+ addr else addr.

Section controller.
Context `{MapOrder} {W : Type} `{Transport W} {AC : AuthCache}.
Context (windows httpClientKeepAlive : bool).
Context (json_login : string → string → string) (json_accessToken : string → result error string).
Context (url_String : string → string → string → string) (blake2b512 : string → string).

(** The transit service of the controller. *)
Context {TC : TokenCache} (BE BM : BatchBuilder).
Context (FormatUUID : string → string) (GZip : string → result error string).
Context {JM : JsonCodec ResourcesWithServicesRequest} {JI : JsonCodec InventoryRequest}.
Context (json_Downtimes : Downtimes → result error string).
Context (environment : nat → call_env).
Context (suppress : Suppress) (conn : TransitService.Connector) (natsConfig : option Nats.Config).
Context (TCG_INVENTORY_EXT : option string).

(** [json.Unmarshal] of the connector DTO, of which the handler reads the host of
    the DalekServices connection. *)
Context (unmarshal_dto : string → result error string).

(** [INSTALLATION_MODE] is the managed child, and [PARENT_INSTANCE_NAME]. *)
Context (IsPMC : bool) (parentInstanceName : string).

(** The registered handler of the metrics list. *)
Context (ListMetrics : result error string).
(** [Connector.ExportProm], and the pages of libraries: swagger, expvar, Prometheus and
    pprof. *)
Context (ExportProm : bool) (library_page : request → reply).

Abbreviation service := TransitService.
Abbreviation queue_t := (@TaskQueue.TaskQueue taskSubject string).

Record controller := mkController {
  ct_net : W;
  ct_cache : acache;
  ct_service : service;
  ct_queue : queue_t;
  ct_running : bool;                 (** the transport runs *)
  ct_task : option (@TaskQueue.Task taskSubject string);   (** the task in progress *)
  ct_idle : bool;                    (** the worker of the queue waits *)
}.

Definition with_service (c : controller) (s : service) : controller :=
  mkController (ct_net c) (ct_cache c) s (ct_queue c) (ct_running c) (ct_task c) (ct_idle c).
Definition with_queue (c : controller) (q : queue_t) : controller :=
  mkController (ct_net c) (ct_cache c) (ct_service c) q (ct_running c) (ct_task c) (ct_idle c).
Definition with_access (c : controller) (w : W) (a : acache) : controller :=
  mkController w a (ct_service c) (ct_queue c) (ct_running c) (ct_task c) (ct_idle c).

Definition handler := controller → request → outcome (controller * reply).

(** ** Jobs *)

Definition push (c : controller) (s : taskSubject) (args : list string)
  : outcome (controller * reply) :=
  '(q, r) ← PushAsync id (ct_idle c) (ct_queue c) s args;
  Ret (with_queue c q,
       match r with
       | Fail err => mkReply StatusInternalServerError (BText (Error err))
       | Val task => mkReply StatusOK (BStatus (mkStatusDTO StatusProcessing (TaskQueue.Idx task)))
       end).

Definition config_handler : handler := λ c q,
  match hq_Body q with
  | Fail err => Ret (c, mkReply StatusBadRequest (BText (Error err)))
  | Val payload =>
      match unmarshal_dto payload with
      | Fail _ => Ret (c, mkReply StatusBadRequest (BText "could not unmarshal connector dto"))
      | Val dsHost =>
          if IsPMC && bool_decide (dsHost ≠ parentInstanceName) then
            Ret (c, mkReply StatusBadRequest (BText "wrong PMC connector config"))
          else push c taskConfig [payload]
      end
  end.

Definition resetNats_handler : handler := λ c q, push c taskResetNats [].

Definition start_handler : handler := λ c q,
  match ct_task c with
  | None =>
      if ct_running c then Ret (c, mkReply StatusOK (BStatus (mkStatusDTO StatusRunning 0)))
      else push c taskStartTransport []
  | Some _ => push c taskStartTransport []
  end.

Definition stop_handler : handler := λ c q,
  match ct_task c with
  | None =>
      if ct_running c then push c taskStopTransport []
      else Ret (c, mkReply StatusOK (BStatus (mkStatusDTO StatusStopped 0)))
  | Some _ => push c taskStopTransport []
  end.

Definition status_handler : handler := λ c q,
  Ret (c, mkReply StatusOK (BStatus
    match ct_task c with
    | Some t => mkStatusDTO StatusProcessing (TaskQueue.Idx t)
    | None => mkStatusDTO (if ct_running c then StatusRunning else StatusStopped) 0
    end)).

(** ** Payloads *)

(** The handlers that pass their payload to an operation of the service. *)
Definition forward (op : string → command) : handler := λ c q,
  match hq_Body q with
  | Fail err => Ret (c, mkReply StatusBadRequest (BText (Error err)))
  | Val payload =>
      '(s, err) ← exec BE BM FormatUUID GZip json_Downtimes environment suppress conn natsConfig
                    TCG_INVENTORY_EXT (ct_service c) None (op payload);
      Ret (with_service c s,
           match err with
           | Some err => mkReply StatusInternalServerError (BText (Error err))
           | None => mkReply StatusOK BNull
           end)
  end.

Definition clearInDowntime_handler : handler := forward cClearInDowntime.
Definition setInDowntime_handler : handler := forward cSetInDowntime.
Definition sendEvents_handler : handler := forward cSendEvents.
Definition sendEventsAck_handler : handler := forward cSendEventsAck.
Definition sendEventsUnack_handler : handler := forward cSendEventsUnack.
Definition syncInventory_handler : handler := forward cSynchronizeInventory.
Definition sendMetrics_handler : handler := forward cSendResourceWithMetrics.

Definition listMetrics_handler : handler := λ c q,
  Ret (c, match ListMetrics with
          | Fail err => mkReply StatusInternalServerError (BText (Error err))
          | Val metrics => mkReply StatusOK (BData metrics)
          end).

(** ** Public pages *)

Definition agentIdentity_handler : handler := λ c q,
  Ret (c, mkReply StatusOK (BIdentity (cn_Identity conn))).
Definition stats_handler : handler := λ c q, Ret (c, mkReply StatusOK (BStats (sv_stats (ct_service c)))).
Definition page_handler : handler := λ c q, Ret (c, mkReply StatusOK BOther).
Definition library_handler : handler := λ c q, Ret (c, library_page q).
Definition debug_metrics_handler : handler := λ c q,
  Ret (c, if ExportProm then library_page q
          else mkReply StatusServiceUnavailable (BText "export Prometheus metrics is not configured")).

(** ** Routes *)

(** [Entrypoint]: what a connector adds to the interface. *)
Record Entrypoint := mkEntrypoint { ep_URL : string; ep_Method : string; ep_Handler : handler }.

Record route := mkRoute { rt_private : bool; rt_Method : string; rt_Path : string; rt_Handler : handler }.

Definition private (method path : string) (h : handler) : route := mkRoute true method ("/api/v1" +:+ path) h.
Definition public (path : string) (h : handler) : route := mkRoute false "GET" path h.

Definition entrypoint_route (e : Entrypoint) : list route :=
  if decide (ep_Method e ∈ ["GET"; "POST"; "PUT"; "DELETE"])
  then [private (ep_Method e) (ep_URL e) (ep_Handler e)] else [].

Definition private_routes : list route :=
  [private "POST" "/config" config_handler;
   private "POST" "/downtime-clear" clearInDowntime_handler;
   private "POST" "/downtime-set" setInDowntime_handler;
   private "POST" "/events" sendEvents_handler;
   private "POST" "/events-ack" sendEventsAck_handler;
   private "POST" "/events-unack" sendEventsUnack_handler;
   private "POST" "/inventory" syncInventory_handler;
   private "POST" "/metrics" sendMetrics_handler;
   private "GET" "/metrics" listMetrics_handler;
   private "POST" "/reset-nats" resetNats_handler;
   private "POST" "/start" start_handler;
   private "POST" "/stop" stop_handler].

Definition pprof (method path : string) : route := mkRoute false method ("/api/v1/debug/pprof" +:+ path) library_handler.

(** Documentation, identity, statistics, status, version and the debug pages. *)
Definition public_routes : list route :=
  [public "/swagger/*any" library_handler;
   public "/api/v1/identity" agentIdentity_handler;
   public "/api/v1/stats" stats_handler;
   public "/api/v1/status" status_handler;
   public "/api/v1/version" page_handler;
   public "/api/v1/debug/config" page_handler;
   public "/api/v1/debug/vars" library_handler;
   public "/api/v1/debug/metrics" debug_metrics_handler;
   pprof "GET" "/"; pprof "GET" "/cmdline"; pprof "GET" "/profile";
   pprof "GET" "/symbol"; pprof "POST" "/symbol"; pprof "GET" "/trace";
   pprof "GET" "/allocs"; pprof "GET" "/block"; pprof "GET" "/goroutine";
   pprof "GET" "/heap"; pprof "GET" "/mutex"; pprof "GET" "/threadcreate"].

Definition registerAPI1 (entrypoints : list Entrypoint) : list route :=
  (private_routes ++ (entrypoints ≫= entrypoint_route) ++ public_routes)%list.

(** The route gin chooses for a method and a path among the registered ones. *)
Context (gin_match : list route → string → string → option route).

(** A request: the access check stands before the private handlers and aborts a
    denied request. *)
Definition serve (access : access_config) (entrypoints : list Entrypoint) (now : Z) (c : controller)
    (q : request) : outcome (controller * reply) :=
  match gin_match (registerAPI1 entrypoints) (hq_Method q) (hq_Path q) with
  | None => Ret (c, mkReply StatusNotFound (BText "404 page not found"))
  | Some r =>
      if rt_private r then
        let '(w, a, res) := checkAccess windows httpClientKeepAlive json_login json_accessToken url_String
                              blake2b512 access (ct_net c) (ct_cache c) now (hq_Header q) in
        let c := with_access c w a in
        match res with
        | Denied err => Ret (c, mkReply StatusUnauthorized (BError (Error err)))
        | Allowed => rt_Handler r c q
        end
      else rt_Handler r c q
  end.
End controller.

(** ** Lemmas *)

Lemma with_queue_same {TC : TokenCache} {W} {AC : AuthCache} (c : @controller W AC TC) :
  with_queue c (ct_queue c) = c.
Proof. by destruct c. Qed.

(** A job is put at the end of the queue, or the queue is as before. *)
Lemma PushAsync_queue {Arg} idle (q q' : @TaskQueue.TaskQueue taskSubject Arg) s args r :
  PushAsync id idle q s args = Ret (q', r) →
  match r with
  | Val t => queue q' = (queue q ++ [t])%list ∧ subject t = s ∧ Args t = args
  | Fail _ => q' = q
  end.
Proof.
  unfold PushAsync, new_task. destruct (is_defined _ _); [|intros Heq; by simplify_eq/=].
  unfold push_locked. destruct (_ || _).
  - destruct (ring _) as [|x l]; cbn; [done|]. intros Heq. by simplify_eq/=.
  - cbn. intros Heq. by simplify_eq/=.
Qed.

Lemma push_result {TC : TokenCache} {W} {AC : AuthCache} (c c' : @controller W AC TC) s args rp :
  push c s args = Ret (c', rp) →
  (∃ t, rp = mkReply StatusOK (BStatus (mkStatusDTO StatusProcessing (TaskQueue.Idx t))) ∧
        queue (ct_queue c') = (queue (ct_queue c) ++ [t])%list ∧ subject t = s ∧ Args t = args ∧
        ct_service c' = ct_service c) ∨
  (rp_status rp = StatusInternalServerError ∧ c' = c).
Proof.
  unfold push. intros ([q r] & Hq & Hr)%bind_Ret_inv. apply PushAsync_queue in Hq.
  injection Hr as <- <-. destruct r as [t|e].
  - left. destruct Hq as (H1 & H2 & H3). by exists t.
  - right. subst q. split; [done|apply with_queue_same].
Qed.

Section controller_lemmas.
Context `{MapOrder} {W : Type} `{Transport W} {AC : AuthCache} (windows keepAlive : bool).
Context (json_login : string → string → string) (json_accessToken : string → result error string).
Context (url_String : string → string → string → string) (blake2b512 : string → string).
Context {TC : TokenCache} (BE BM : BatchBuilder).
Context (FormatUUID : string → string) (GZip : string → result error string).
Context {JM : JsonCodec ResourcesWithServicesRequest} {JI : JsonCodec InventoryRequest}.
Context (json_Downtimes : Downtimes → result error string) (environment : nat → call_env).
Context (suppress : Suppress) (conn : TransitService.Connector) (natsConfig : option Nats.Config).
Context (TCG_INVENTORY_EXT : option string) (unmarshal_dto : string → result error string).
Context (IsPMC : bool) (parentInstanceName : string) (ListMetrics : result error string).
Context (ExportProm : bool) (library_page : request → reply).
#[local] Abbreviation ctl := (@controller W AC TC).
#[local] Abbreviation route := (@Controller.route W AC TC).
#[local] Abbreviation registered := (registerAPI1 BE BM FormatUUID GZip json_Downtimes environment
  suppress conn natsConfig TCG_INVENTORY_EXT unmarshal_dto IsPMC parentInstanceName ListMetrics ExportProm library_page).
#[local] Abbreviation serve_with := (serve windows keepAlive json_login json_accessToken url_String blake2b512
  BE BM FormatUUID GZip json_Downtimes environment suppress conn natsConfig TCG_INVENTORY_EXT
  unmarshal_dto IsPMC parentInstanceName ListMetrics ExportProm library_page).
#[local] Abbreviation check :=
  (checkAccess windows keepAlive json_login json_accessToken url_String blake2b512).

(** The public handlers only read. *)
Lemma public_reads (entrypoints : list (@Entrypoint W AC TC)) (r : route) (c c' : ctl) q rp :
  r ∈ registered entrypoints → rt_private r = false → rt_Handler r c q = Ret (c', rp) → c' = c.
Proof using Type.
  unfold registerAPI1, private_routes, public_routes. rewrite !elem_of_app.
  intros [Hr|[Hr|Hr]] Hp.
  - exfalso. repeat (apply elem_of_cons in Hr as [->|Hr]; [done|]). by apply elem_of_nil in Hr.
  - exfalso. apply list_elem_of_bind in Hr as (e & Hr & _). unfold entrypoint_route in Hr.
    case_decide; [|by apply elem_of_nil in Hr]. apply list_elem_of_singleton in Hr as ->. done.
  - repeat (apply elem_of_cons in Hr as [->|Hr]; [by intros [= <- _]|]). by apply elem_of_nil in Hr.
Qed.

(** ** Properties *)

(** C12: Only a request that passes the access check changes anything: whatever the
    entry points of a connector and whatever route is chosen among the registered
    ones, a request that is denied access leaves the transit service and the task
    queue as they were, and a denied request to a private route gets 401. *)
Theorem changes_need_access (gin_match : list route → string → string → option route)
    (access : access_config) (entrypoints : list (@Entrypoint W AC TC)) (now : Z) (c c' : ctl)
    (q : request) (rp : reply) (err : error) :
  (∀ l m p r, gin_match l m p = Some r → r ∈ l) →
  (check access (ct_net c) (ct_cache c) now (hq_Header q)).2 = Denied err →
  serve_with gin_match access entrypoints now c q = Ret (c', rp) →
  ct_service c' = ct_service c ∧ ct_queue c' = ct_queue c ∧
  (∀ r, gin_match (registered entrypoints) (hq_Method q) (hq_Path q) = Some r → rt_private r = true →
        rp = mkReply StatusUnauthorized (BError (Error err))).
Proof using Type.
  intros Hgin Hd. unfold serve. destruct (gin_match _ _ _) as [r|] eqn:Hm; [|by intros [= <- <-]].
  destruct (rt_private r) eqn:Hp.
  - destruct (check access (ct_net c) (ct_cache c) now (hq_Header q)) as [[w a] res].
    cbn [snd] in Hd. subst res. intros [= <- <-]. split_and!; [done|done|]. by intros r' [= <-].
  - intros Hh. pose proof (public_reads entrypoints r c c' q rp (Hgin _ _ _ _ Hm) Hp Hh) as ->.
    split_and!; [done|done|]. intros r' [= <-]. congruence.
Qed.

(** A configuration is accepted exactly when its payload was read, is a connector
    DTO and, for a managed child, names the parent; it is then one job at the end
    of the queue whose number is in the reply.  Every other answer leaves the
    controller as it was. *)
Theorem config_handler_result (c c' : ctl) (q : request) (rp : reply) :
  config_handler unmarshal_dto IsPMC parentInstanceName c q = Ret (c', rp) →
  (rp_status rp = StatusOK ∧ ∃ payload dsHost t,
     hq_Body q = Val payload ∧ unmarshal_dto payload = Val dsHost ∧
     (IsPMC = true → dsHost = parentInstanceName) ∧
     queue (ct_queue c') = (queue (ct_queue c) ++ [t])%list ∧
     subject t = taskConfig ∧ Args t = [payload] ∧
     rp_body rp = BStatus (mkStatusDTO StatusProcessing (TaskQueue.Idx t))) ∨
  (rp_status rp ≠ StatusOK ∧ c' = c).
Proof using Type.
  unfold config_handler. destruct (hq_Body q) as [payload|e]; [|intros [= <- <-]; by right].
  destruct (unmarshal_dto payload) as [dsHost|] eqn:Hu; [|intros [= <- <-]; by right].
  destruct (IsPMC && bool_decide (dsHost ≠ parentInstanceName)) eqn:Hp; [intros [= <- <-]; by right|].
  intros [(t & -> & Hq & Hs & Ha & _)|[Hst ->]]%push_result; [left|right].
  - split; [done|]. exists payload, dsHost, t. split_and!; try done.
    intros Hpmc. rewrite Hpmc in Hp. by apply bool_decide_eq_false, dec_stable in Hp.
  - by rewrite Hst.
Qed.
End controller_lemmas.

(** The listener gives up: when every try comes at least the retry delay after the
    one before, the loop ends after at most as many retries as the delay fits in
    the start timeout, and an address that is still in use is only given up when
    no time is left for another try. *)
Theorem listen_loop_ends (windows : bool) (startTimeout : Z) (answer : nat → option error * Z) :
  (∀ i, (Z.of_nat i * startRetryDelay ≤ (answer i).2)%Z) →
  ∃ n r, listen_loop windows startTimeout answer (S (Z.to_nat (startTimeout / startRetryDelay))) 0 = Some (n, r) ∧
    (n ≤ Z.to_nat (startTimeout / startRetryDelay))%nat ∧ r = (answer n).1 ∧
    (∀ e, r = Some e → IsErrorAddressInUse windows e = true → (startTimeout - startRetryDelay ≤ (answer n).2)%Z).
Proof.
  intros Ha. assert (0 < startRetryDelay)%Z as Hd by done.
  assert (∀ f i, (Z.to_nat (startTimeout / startRetryDelay) - i < f)%nat →
    (i ≤ Z.to_nat (startTimeout / startRetryDelay))%nat →
    ∃ n r, listen_loop windows startTimeout answer f i = Some (n, r) ∧
      (n ≤ Z.to_nat (startTimeout / startRetryDelay))%nat ∧ r = (answer n).1 ∧
      (∀ e, r = Some e → IsErrorAddressInUse windows e = true →
            (startTimeout - startRetryDelay ≤ (answer n).2)%Z)) as Hloop; [|apply Hloop; lia].
  induction f as [|f IH]; intros i Hf Hi; [lia|]. cbn [listen_loop].
  specialize (Ha i). destruct (answer i) as [err elapsed] eqn:Hans. cbn [snd] in Ha.
  destruct err as [e|]; [|exists i, None; by rewrite Hans].
  destruct (_ && _) eqn:Hc.
  - apply andb_true_iff in Hc as [_ Hlt%bool_decide_eq_true].
    apply IH; [|].
    + assert (Z.of_nat (S i) ≤ startTimeout / startRetryDelay)%Z; [|lia].
      apply Z.div_le_lower_bound; lia.
    + assert (Z.of_nat (S i) ≤ startTimeout / startRetryDelay)%Z; [|lia].
      apply Z.div_le_lower_bound; lia.
  - exists i, (Some e). rewrite Hans. split_and!; [done|done|done|].
    intros e' [= <-] He. rewrite He in Hc. apply bool_decide_eq_false in Hc. cbn [snd]. lia.
Qed.

(** ** Samples *)

Definition exact_match {W} {AC : AuthCache} {TC : TokenCache} (l : list (@route W AC TC)) (m p : string)
  : option route :=
  List.find (λ r, bool_decide (rt_Method r = m) && bool_decide (rt_Path r = p)) l.

Lemma exact_match_in {W} {AC : AuthCache} {TC : TokenCache} (l : list (@route W AC TC)) m p r :
  exact_match l m p = Some r → r ∈ l.
Proof. intros Hf. apply list_elem_of_In. by apply List.find_some in Hf as [? _]. Qed.

Definition sample_controller : @controller bool map_auth_cache map_token_cache :=
  mkController false ∅ sample_service
    (NewTaskQueue [WithCapacity 8; WithHandlers [(taskConfig, λ _, None)]]) false None true.

Definition sample_request (path : string) : request := mkHTTPRequest "POST" path sample_gwos (Val "{}").

Definition no_page (q : request) : reply := mkReply StatusNotFound BNull.

Definition sample_serve (q : request) : outcome (@controller bool map_auth_cache map_token_cache * reply) :=
  @serve sorted_order bool toggle_transport map_auth_cache false true (λ u p, u +:+ p) Val
    (λ s h p, s +:+ h +:+ p) id map_token_cache join_builder join_builder hash_UUID same_gzip
    no_json no_json (λ _, Fail (Opaque "")) sample_env no_suppress sample_conn None None
    (λ _, Val "dalek") false "" (Val "") false no_page exact_match sample_access [] 0 sample_controller q.

Lemma changes_need_access_witness :
  ∃ c' rp, sample_serve (sample_request "/api/v1/config") = Ret (c', rp) ∧
    ct_queue c' = ct_queue sample_controller ∧ rp_status rp = StatusUnauthorized.
Proof.
  assert (is_ret (sample_serve (sample_request "/api/v1/config")) = true) as Hret by (vm_compute; reflexivity).
  destruct (sample_serve (sample_request "/api/v1/config")) as [[c' rp]|] eqn:Hs; [|discriminate Hret].
  exists c', rp. split; [reflexivity|].
  destruct (@changes_need_access sorted_order bool toggle_transport map_auth_cache false true
    (λ u p, u +:+ p) Val (λ s h p, s +:+ h +:+ p) id map_token_cache join_builder join_builder hash_UUID same_gzip
    no_json no_json (λ _, Fail (Opaque "")) sample_env no_suppress sample_conn None None
    (λ _, Val "dalek") false "" (Val "") false no_page exact_match sample_access [] 0 sample_controller c'
    (sample_request "/api/v1/config") rp (Opaque "no route to host")) as (_ & Hq & Hr).
  - intros l m p r. apply exact_match_in.
  - vm_compute. reflexivity.
  - exact Hs.
  - split; [exact Hq|]. rewrite (Hr _ eq_refl eq_refl). reflexivity.
Defined.

Lemma config_handler_result_witness :
  ∃ c' rp, config_handler (λ _, Val "dalek") false "" sample_controller (sample_request "/api/v1/config") = Ret (c', rp) ∧
    rp_status rp = StatusOK.
Proof.
  set (r := config_handler (λ _, Val "dalek") false "" sample_controller (sample_request "/api/v1/config")).
  assert (is_ret r = true) as Hret by (vm_compute; reflexivity).
  assert (match r with Ret (_, rp) => rp_status rp | Panic _ => 0%Z end = StatusOK) as Hst
    by (vm_compute; reflexivity).
  destruct r as [[c' rp]|] eqn:Hs; [|discriminate Hret].
  exists c', rp. split; [reflexivity|].
  destruct (config_handler_result (λ _, Val "dalek") false "" sample_controller c' _ rp Hs) as [[Hok _]|[Hno _]];
    [exact Hok|by destruct Hno].
Defined.

Lemma listen_loop_ends_witness :
  ∃ n r, listen_loop false (4 * Second) (λ i, (Some (Errno 98 "address already in use"), Z.of_nat i * startRetryDelay)%Z)
           21 0 = Some (n, r) ∧ (n ≤ 20)%nat.
Proof.
  destruct (listen_loop_ends false (4 * Second)
    (λ i, (Some (Errno 98 "address already in use"), Z.of_nat i * startRetryDelay)%Z)) as (n & r & Hl & Hn & _).
  { intros i. simpl. lia. }
  exists n, r. split; [exact Hl|exact Hn].
Defined.
