(* ===== verification/Configuration.v ===== *)
(** config/config.go, crypt.go, hashsum.go and env.go: the configuration of the
    agent, its defaults, the password format of the file, the merge of the
    Groundwork connections, and loading a connector DTO.

    The YAML, JSON and environment decoders, secretbox and SHA-256 are arguments;
    reading and writing the configuration file are results and effects. *)

From S2P Require Import Prelude.
From S2P Require Import GoString.
From S2P Require Import FloatText.
From S2P Require Import Errors.
From S2P Require Import Transit.
From S2P Require Import Payload.
From S2P Require Import Clients.

Local Open Scope string_scope.

(** ** Data *)

Definition InstallationModePMC : string := "PARENT_MANAGED_CHILD".
Definition SecVerPrefix : string := "_v1_".

(** [LogLevel], an [int]: the array of names is indexed by it. *)
Definition LogLevel := Z.

Definition index_array {A} (l : list A) (i : Z) : outcome A :=
  if decide (0 ≤ i)%Z then
    match l !! Z.to_nat i with Some a => Ret a | None => Panic "index out of range" end
  else Panic "index out of range".

Definition LogLevel_String (l : LogLevel) : outcome string :=
  index_array ["Error"; "Warn"; "Info"; "Debug"; "Trace"] l.

Record Nats := mkNats {
  NatsAckWait : Z;
  NatsMaxInflight : Z;
  NatsMaxPubAcksInflight : Z;
  NatsMaxPayload : Z;
  NatsMonitorPort : Z;
  NatsStoreDir : string;
  NatsStoreType : string;
  NatsStoreMaxAge : Z;
  NatsStoreMaxBytes : Z;
  NatsStoreMaxMsgs : Z;
  NatsServerConfigFile : string;
}.

Record Connector := mkConnector {
  c_AgentIdentity : AgentIdentity;
  BatchEvents : Z;
  BatchMetrics : Z;
  BatchMaxBytes : Z;
  ControllerAddr : string;
  ControllerCertFile : string;
  ControllerKeyFile : string;
  ControllerPin : string;
  ControllerReadTimeout : Z;
  ControllerWriteTimeout : Z;
  ControllerStartTimeout : Z;
  ControllerStopTimeout : Z;
  c_Enabled : bool;
  InstallationMode : string;
  c_IsDynamicInventory : bool;
  GWEncode : string;
  LogCondense : Z;
  LogFile : string;
  LogFileMaxSize : Z;
  LogFileRotate : Z;
  c_LogLevel : LogLevel;
  LogColors : bool;
  LogTimeFormat : string;
  c_Nats : Nats;
  RetryDelays : list Z;
  TransportStartRndDelay : Z;
  ExportProm : bool;
  ExportTransitDir : string;
}.

Record Config := mkConfig {
  cfg_Connector : Connector;
  cfg_DSHostName : string;
  cfg_GWConnections : list GWConnection;
}.

Record ConnectorDTO := mkConnectorDTO {
  dto_Identity : AgentIdentity;
  dto_TcgURL : string;
  dto_LogLevel : LogLevel;
  dto_Enabled : bool;
  dto_DSHostName : string;
  dto_GWConnections : list GWConnection;
}.

Definition zero_GWConnection : GWConnection :=
  mkGWConnection 0 "" "" "" false false "" false false "" false "" false false false.

Definition defaults : Config :=
  mkConfig
    (mkConnector (mkAgentIdentity "" "" "") 0 0 (1024 * 1024) ":8099" "" "" "" (10 * Second) (20 * Second)
      (4 * Second) (4 * Second) false "" false "" 0 "" (1024 * 1024 * 10) 5 1 false
      "2006-01-02T15:04:05Z07:00"
      (mkNats (30 * Second) 4 4 (1024 * 1024 * 8) 0 "natsstore" "FILE" (24 * 10 * Hour)
         (1024 * 1024 * 1024 * 20) 1000000 "")
      (replicate 8 (30 * Second) ++ [Minute; 5 * Minute; 20 * Minute])%Z%list 60 false "")%Z
    "" (replicate 4 zero_GWConnection).

(** ** Setters *)

Definition with_dto (c : Connector) (dto : ConnectorDTO) : Connector :=
  mkConnector (dto_Identity dto) (BatchEvents c) (BatchMetrics c) (BatchMaxBytes c) (ControllerAddr c)
    (ControllerCertFile c) (ControllerKeyFile c) (ControllerPin c) (ControllerReadTimeout c)
    (ControllerWriteTimeout c) (ControllerStartTimeout c) (ControllerStopTimeout c) (dto_Enabled dto)
    (InstallationMode c) (c_IsDynamicInventory c) (GWEncode c) (LogCondense c) (LogFile c) (LogFileMaxSize c)
    (LogFileRotate c) (dto_LogLevel dto) (LogColors c) (LogTimeFormat c) (c_Nats c) (RetryDelays c)
    (TransportStartRndDelay c) (ExportProm c) (ExportTransitDir c).

(** The installation mode and the flag of the dynamic inventory. *)
Definition with_mode (c : Connector) (mode : string) (dynamic : bool) : Connector :=
  mkConnector (c_AgentIdentity c) (BatchEvents c) (BatchMetrics c) (BatchMaxBytes c) (ControllerAddr c)
    (ControllerCertFile c) (ControllerKeyFile c) (ControllerPin c) (ControllerReadTimeout c)
    (ControllerWriteTimeout c) (ControllerStartTimeout c) (ControllerStopTimeout c) (c_Enabled c)
    mode dynamic (GWEncode c) (LogCondense c) (LogFile c) (LogFileMaxSize c)
    (LogFileRotate c) (c_LogLevel c) (LogColors c) (LogTimeFormat c) (c_Nats c) (RetryDelays c)
    (TransportStartRndDelay c) (ExportProm c) (ExportTransitDir c).

Definition with_connector (c : Config) (x : Connector) : Config :=
  mkConfig x (cfg_DSHostName c) (cfg_GWConnections c).
Definition with_ds (c : Config) (host : string) : Config :=
  mkConfig (cfg_Connector c) host (cfg_GWConnections c).
Definition with_connections (c : Config) (l : list GWConnection) : Config :=
  mkConfig (cfg_Connector c) (cfg_DSHostName c) l.

Definition with_password (g : GWConnection) (p : string) : GWConnection :=
  mkGWConnection (gc_ID g) (HostName g) (UserName g) p (gc_Enabled g) (IsChild g) (DisplayName g)
    (MergeHosts g) (LocalConnection g) (DeferOwnership g) (PrefixResourceNames g) (ResourceNamePrefix g)
    (SendAllInventory g) (IsDynamicInventory g) (HTTPEncode g).
Definition with_prefix (g : GWConnection) (on : bool) (p : string) : GWConnection :=
  mkGWConnection (gc_ID g) (HostName g) (UserName g) (Password g) (gc_Enabled g) (IsChild g) (DisplayName g)
    (MergeHosts g) (LocalConnection g) (DeferOwnership g) on p
    (SendAllInventory g) (IsDynamicInventory g) (HTTPEncode g).
Definition with_flags (g : GWConnection) (dynamic encode : bool) : GWConnection :=
  mkGWConnection (gc_ID g) (HostName g) (UserName g) (Password g) (gc_Enabled g) (IsChild g) (DisplayName g)
    (MergeHosts g) (LocalConnection g) (DeferOwnership g) (PrefixResourceNames g) (ResourceNamePrefix g)
    (SendAllInventory g) dynamic encode.

(** ** Names of environment variables *)

(** [applyFlags]: a name given with or without its prefix gets the prefix in use. *)
Definition env_name (EnvPrefix s : string) : string :=
  EnvPrefix +:+ TrimPrefix (TrimPrefix s "TCG_") EnvPrefix.

(** ** Hash sums *)

Definition fnv_prime : Z := 2 ^ 88 + 315.
Definition fnv_offset : Z := 144066263297769815596495629667062367629.

(** [fnv.New128]: multiply, then xor with the byte. *)
Fixpoint fnv128 (h : Z) (s : string) : Z :=
  match s with
  | "" => h
  | String c s' => fnv128 (Z.lxor ((h * fnv_prime) `mod` 2 ^ 128) (Z.of_N (N_of_ascii c))) s'
  end.

Fixpoint big_endian (n : nat) (z : Z) : string :=
  match n with
  | O => ""
  | S n => big_endian n (z / 256) +:+ String (ascii_of_N (Z.to_N (z `mod` 256))) ""
  end.

(** [Hashsum] of the JSON texts of its arguments; the first that fails ends it. *)
Fixpoint Hashsum (args : list (result error string)) (b : string) : result error string :=
  match args with
  | [] => Val (big_endian 16 (fnv128 fnv_offset b))
  | arg :: args => s ← arg; Hashsum args (b +:+ s)
  end.

Section crypt.
(** [sha256.Sum256], and secretbox with a nonce and a key. *)
Context (sha256 : string → string).
Context (box_Seal : string → string → string → string) (box_Open : string → string → string → option string).

(** ** Encryption *)

(** [Encrypt] with the random nonce, which precedes the sealed message. *)
Definition Encrypt (nonce : result error string) (message secret : string) : result error string :=
  n ← nonce; Val (n +:+ box_Seal message n (sha256 secret)).

(** [Decrypt]: a message without a nonce is sliced out of range. *)
Definition Decrypt (message secret : string) : outcome (result error string) :=
  nonce ← str_slice message 0 24;
  box ← str_slice message 24 (slen message);
  Ret (match box_Open box nonce (sha256 secret) with
       | Some decrypted => Val decrypted
       | None => Fail (Opaque "decryption error")
       end).

(** ** The password in the file *)

(** The hexadecimal bytes [%x] reads: up to the first character that is no digit;
    half a byte is an error, and so is nothing. *)
Fixpoint scan_hex (s : string) : result error string :=
  match s with
  | String a s' =>
      match Payload.hex_value a with
      | None => Val ""
      | Some x =>
          match s' with
          | String b s'' =>
              match Payload.hex_value b with
              | Some y => r ← scan_hex s''; Val (String (ascii_of_nat (16 * x + y)) r)
              | None => Fail (Opaque "illegal hex digit")
              end
          | "" => Fail (Opaque "unexpected EOF")
          end
      end
  | "" => Val ""
  end.

(** Spaces before the operand; a line break is an error. *)
Fixpoint skip_blanks (skip : nat) (s : string) : result error string :=
  match s with
  | "" => Val ""
  | String c s' =>
      match skip with
      | S k => skip_blanks k s'
      | O =>
          if decide (c = ascii_of_nat 10) then Fail (Opaque "unexpected newline")
          else match space_size s with
               | O => Val s
               | S k => skip_blanks k s'
               end
      end
  end.

(** [fmt.Sscanf(s, "_v1_%x", &encrypted)] of a text with the prefix. *)
Definition scan_password (s : string) : result error string :=
  body ← skip_blanks 0 (TrimPrefix s SecVerPrefix);
  b ← (if decide (body = "") then Fail (Opaque "unexpected EOF") else scan_hex body);
  if decide (b = "") then Fail (Opaque "no hex data for %x string") else Val b.

Definition marshal_password (secKey : string) (nonce : result error string) (password : string)
  : result error string :=
  if decide (secKey = "") then Val password
  else encrypted ← Encrypt nonce password secKey; Val (SecVerPrefix +:+ hex_encode encrypted).

Definition unmarshal_password (secKey password : string) : outcome (result error string) :=
  if HasPrefix password SecVerPrefix then
    if decide (secKey = "") then Ret (Fail (Opaque "unmarshaler error: _v1_ SecKeyEnv is empty"))
    else match scan_password password with
         | Fail e => Ret (Fail e)
         | Val encrypted => Decrypt encrypted secKey
         end
  else Ret (Val password).

(** [GWConnection.MarshalYAML] and [UnmarshalYAML]; [unmarshal] decodes the plain
    fields into the connection. *)
Definition GWConnection_MarshalYAML (secKey : string) (nonce : result error string) (c : GWConnection)
  : result error GWConnection :=
  p ← marshal_password secKey nonce (Password c); Val (with_password c p).

Definition GWConnection_UnmarshalYAML (secKey : string) (unmarshal : GWConnection → GWConnection * option error)
    (c : GWConnection) : outcome (GWConnection * option error) :=
  let '(c, err) := unmarshal c in
  match err with
  | Some e => Ret (c, Some e)
  | None =>
      p ← unmarshal_password secKey (Password c);
      Ret (match p with Val p => (with_password c p, None) | Fail e => (c, Some e) end)
  end.
End crypt.

(** ** The merge of the connections *)

(** [GWConnections.UnmarshalYAML]: each node is decoded into the connection of its
    index, which is added when there is none. *)
Fixpoint merge_connections (nodes : list (GWConnection → outcome (GWConnection * option error)))
    (cc : list GWConnection) : outcome (list GWConnection * option error) :=
  match nodes with
  | [] => Ret (cc, None)
  | decode :: nodes =>
      let '(c, cc) := match cc with c :: cc => (c, cc) | [] => (zero_GWConnection, []) end in
      '(c, err) ← decode c;
      match err with
      | Some e => Ret (c :: cc, Some e)
      | None => '(cc, err) ← merge_connections nodes cc; Ret (c :: cc, err)
      end
  end.

(** ** Loading *)

(** The flags of the connections follow the connector. *)
Fixpoint to_lower (s : string) : string :=
  match s with
  | "" => ""
  | String c s' =>
      String (if byte_in 65 90 c then ascii_of_N (N_of_ascii c + 32) else c) (to_lower s')
  end.

Definition encode_flag (gwEncode : string) (isChild : bool) : bool :=
  bool_decide (gwEncode = "force") || (negb (bool_decide (gwEncode = "off")) && isChild).

Definition prepare_connections (cfg : Config) : Config :=
  let gwEncode := to_lower (GWEncode (cfg_Connector cfg)) in
  with_connections cfg
    ((λ g, with_flags g (c_IsDynamicInventory (cfg_Connector cfg)) (encode_flag gwEncode (IsChild g))) <$>
     cfg_GWConnections cfg).

Definition process_PMC (isPMC : bool) (parentInstanceName : string) (cfg : Config) : Config :=
  if isPMC then
    with_ds (with_connector cfg (with_mode (cfg_Connector cfg) InstallationModePMC
                                   (c_IsDynamicInventory (cfg_Connector cfg)))) parentInstanceName
  else cfg.

(** [initLogger]: the level and the condensing of the logger. *)
Definition logger_options (c : Connector) : outcome (Z * Z) :=
  let l := if decide (4 < c_LogLevel c)%Z then 4%Z else c_LogLevel c in
  lvl ← index_array [3; 2; 1; 0; -1]%Z l;
  Ret (lvl, if decide (lvl ≤ 0)%Z then 0%Z else LogCondense c).

Definition loadConnector (cfg : Config) (dto : ConnectorDTO) : Config :=
  mkConfig (with_dto (cfg_Connector cfg) dto)
    (if decide (dto_DSHostName dto = "") then cfg_DSHostName cfg else dto_DSHostName dto)
    (dto_GWConnections dto).

(** The prefixes of the connections, the last one that names a connection. *)
Definition prefix_of (prefixes : list (Z * string)) (g : GWConnection) : GWConnection :=
  foldl (λ g p, if decide (gc_ID g = p.1 ∧ p.2 ≠ "") then with_prefix g true p.2 else g)
    (with_prefix g false "") prefixes.

Definition loadAdvancedPrefixes (cfg : Config) (prefixes : list (Z * string)) : Config :=
  with_connections cfg (prefix_of prefixes <$> cfg_GWConnections cfg).

Definition dynamic_types : list string := ["CHECKER"; "APM"; "EVENTS"; "TCGAZURE"; "ORACLE"].

Definition loadDynamicInventoryFlag (cfg : Config) : Config :=
  let c := cfg_Connector cfg in
  with_connector cfg (with_mode c (InstallationMode c)
    (bool_decide (ai_AppType (c_AgentIdentity c) ∈ dynamic_types))).

Section load.
(** [os.ReadFile] of the file; the YAML decoder, which may panic in the password;
    the JSON decoders of the DTO and of the prefixes; the YAML encoder; and the
    environment over a configuration, whose errors are logged. *)
Context (read_file : result error string).
Context (yaml_Unmarshal : string → Config → outcome (Config * option error)).
Context (json_dto : string → result error ConnectorDTO) (json_prefixes : string → result error (list (Z * string))).
Context (yaml_Marshal : Config → result error string).
Context (apply_env : Config → Config).
Context (isPMC : bool) (parentInstanceName : string).

(** The defaults and the file over them; a file that cannot be read or parsed is
    logged, and what the decoder had set stays. *)
Definition file_config : outcome Config :=
  match read_file with
  | Fail _ => Ret defaults
  | Val data => '(c, _) ← yaml_Unmarshal data defaults; Ret c
  end.

(** [GetConfig], the first call: the configuration, and the options of the logger. *)
Definition GetConfig : outcome (Config * (Z * Z)) :=
  cfg ← file_config;
  let cfg := prepare_connections (process_PMC isPMC parentInstanceName (apply_env cfg)) in
  opts ← logger_options (cfg_Connector cfg);
  Ret (cfg, opts).

(** [LoadConnectorDTO]: the new configuration and the text written to the file, if
    it could be encoded; the environment is only applied in that case. *)
Definition LoadConnectorDTO (cfg : Config) (data : string)
  : outcome (Config * option string * result error ConnectorDTO) :=
  newCfg ← file_config;
  match json_dto data with
  | Fail e => Ret (cfg, None, Fail e)
  | Val dto =>
      let newCfg := loadConnector newCfg dto in
      match json_prefixes data with
      | Fail e => Ret (cfg, None, Fail e)
      | Val prefixes =>
          let newCfg := loadDynamicInventoryFlag (loadAdvancedPrefixes newCfg prefixes) in
          let output := match yaml_Marshal newCfg with Val s => Some s | Fail _ => None end in
          let newCfg := match output with Some _ => apply_env newCfg | None => newCfg end in
          let newCfg := prepare_connections (process_PMC isPMC parentInstanceName newCfg) in
          _ ← logger_options (cfg_Connector newCfg);
          Ret (newCfg, output, Val dto)
      end
  end.
End load.

(** ** Lemmas *)

Lemma scan_hex_encode s : scan_hex (hex_encode s) = Val s.
Proof.
  induction s as [|c s IH]; [done|]. cbn [hex_encode scan_hex].
  pose proof (nat_ascii_bounded c).
  rewrite !hex_value_digit, IH by
    first [apply Nat.Div0.div_lt_upper_bound; lia | apply Nat.mod_upper_bound; lia].
  cbn [mbind result_bind]. by rewrite <-Nat.div_mod_eq, ascii_nat_embedding.
Qed.

Lemma hex_encode_nonempty s : s ≠ "" → hex_encode s ≠ "".
Proof. by destruct s. Qed.

Lemma hex_digit_solid n c s :
  (n < 16)%nat → hex_digit n = c → c ≠ ascii_of_nat 10 ∧ space_size (String c s) = 0%nat.
Proof.
  intros Hn <-. do 16 (destruct n as [|n]; [by split; [done|apply solid_space_size]|]). lia.
Qed.

Lemma skip_blanks_hex s : skip_blanks 0 (hex_encode s) = Val (hex_encode s).
Proof.
  destruct s as [|c s]; [done|]. cbn [hex_encode].
  pose proof (nat_ascii_bounded c).
  assert (nat_of_ascii c / 16 < 16)%nat as Hn by (apply Nat.Div0.div_lt_upper_bound; lia).
  set (rest := String (hex_digit (nat_of_ascii c mod 16)) (hex_encode s)).
  destruct (hex_digit_solid (nat_of_ascii c / 16) _ rest Hn eq_refl) as [H1 H2].
  cbn [skip_blanks]. by rewrite decide_False, H2.
Qed.

Lemma TrimPrefix_app p s : TrimPrefix (p +:+ s) p = s.
Proof. unfold TrimPrefix, HasPrefix. rewrite prefix_app. apply str_drop_app. Qed.

Section crypt_lemmas.
Context (sha256 : string → string).
Context (box_Seal : string → string → string → string) (box_Open : string → string → string → option string).
#[local] Abbreviation marshal_p := (marshal_password sha256 box_Seal).
#[local] Abbreviation unmarshal_p := (unmarshal_password sha256 box_Open).

Lemma Decrypt_Encrypt nonce message secret :
  String.length nonce = 24%nat →
  (∀ m n k, box_Open (box_Seal m n k) n k = Some m) →
  ∃ b, Encrypt sha256 box_Seal (Val nonce) message secret = Val b ∧ b ≠ "" ∧
       Decrypt sha256 box_Open b secret = Ret (Val message).
Proof.
  intros Hn Hbox. eexists. split; [reflexivity|]. split; [by destruct nonce|].
  unfold Decrypt, str_slice, slen. rewrite length_str_app, Hn.
  rewrite !decide_True by lia. cbn [mbind outcome_bind].
  change (Z.to_nat (24 - 0)) with 24%nat. change (Z.to_nat 0) with 0%nat. change (Z.to_nat 24) with 24%nat.
  change (str_drop 0 ?x) with x.
  assert (∀ x, str_take 24 (nonce +:+ x) = nonce) as -> by (intros; rewrite <-Hn; apply str_take_app).
  assert (∀ x, str_drop 24 (nonce +:+ x) = x) as -> by (intros; rewrite <-Hn; apply str_drop_app).
  assert (∀ n s, (String.length s ≤ n)%nat → str_take n s = s) as Htake.
  { intros n s. revert n. induction s as [|c s IH]; intros [|n] Hl; cbn in *; try done; [lia|].
    f_equal. apply IH. lia. }
  rewrite Htake by lia. by rewrite Hbox.
Qed.

(** ** Properties *)

(** C24: A password comes back from the file as it was: encrypted under a key, whatever
    it is, and in the clear without a key unless it begins with the prefix of the
    encrypted form.  With that prefix and no key it cannot be read back, and with
    a key a text that is too short for a nonce panics. *)
Theorem password_roundtrip (secKey nonce password : string) :
  String.length nonce = 24%nat →
  (∀ m n k, box_Open (box_Seal m n k) n k = Some m) →
  (secKey ≠ "" → ∃ s, marshal_p secKey (Val nonce) password = Val s ∧
                      unmarshal_p secKey s = Ret (Val password)) ∧
  (marshal_p "" (Val nonce) password = Val password ∧
   (HasPrefix password SecVerPrefix = false → unmarshal_p "" password = Ret (Val password)) ∧
   (HasPrefix password SecVerPrefix = true → ∃ e, unmarshal_p "" password = Ret (Fail e))) ∧
  (∀ b, secKey ≠ "" → b ≠ "" → (String.length b < 24)%nat →
        is_panic (unmarshal_p secKey (SecVerPrefix +:+ hex_encode b)) = true).
Proof using Type.
  intros Hn Hbox.
  assert (∀ b, b ≠ "" → scan_password (SecVerPrefix +:+ hex_encode b) = Val b) as Hscan.
  { intros b Hb. unfold scan_password. rewrite TrimPrefix_app, skip_blanks_hex. cbn [mbind result_bind].
    rewrite decide_False by by apply hex_encode_nonempty. rewrite scan_hex_encode. cbn [mbind result_bind].
    by rewrite decide_False. }
  assert (∀ x, HasPrefix (SecVerPrefix +:+ x) SecVerPrefix = true) as Hpre by (intros; apply prefix_app).
  split_and!.
  - intros Hk. destruct (Decrypt_Encrypt nonce password secKey Hn Hbox) as (b & He & Hb & Hd).
    unfold marshal_password. rewrite decide_False, He by done. eexists. split; [reflexivity|].
    unfold unmarshal_password. by rewrite Hpre, decide_False, Hscan.
  - done.
  - unfold unmarshal_password. by intros ->.
  - unfold unmarshal_password. intros ->. by eexists.
  - intros b Hk Hb Hlen. unfold unmarshal_password. rewrite Hpre, decide_False, Hscan by done.
    cbn [result_bind]. unfold Decrypt, str_slice. rewrite (decide_False (P := (0 ≤ 0 ≤ 24 ∧ _)%Z)); [done|lia].
Qed.
End crypt_lemmas.

Definition box_seal_xor (m n k : string) : string := k +:+ m.
Definition box_open_drop (b n k : string) : option string :=
  if String.prefix k b then Some (str_drop (String.length k) b) else None.

Lemma password_roundtrip_witness :
  ∃ s, marshal_password id box_seal_xor "key" (Val "012345678901234567890123") "_v1_secret" = Val s ∧
       unmarshal_password id box_open_drop "key" s = Ret (Val "_v1_secret").
Proof.
  apply (password_roundtrip id box_seal_xor box_open_drop "key" "012345678901234567890123" "_v1_secret").
  - reflexivity.
  - intros m n k. unfold box_open_drop, box_seal_xor. by rewrite prefix_app, str_drop_app.
  - discriminate.
Defined.

(** The connections of the file are merged by index: the nodes up to the first that
    fails update the connections at their indexes, or add new ones after the last,
    and the connections after them are as they were. *)
Theorem merge_connections_spec (nodes : list (GWConnection → outcome (GWConnection * option error)))
    (cc cc' : list GWConnection) (err : option error) :
  merge_connections nodes cc = Ret (cc', err) →
  let old i := default zero_GWConnection (cc !! i) in
  ∃ k : nat,
    (∀ i, (i < k)%nat → ∃ decode g, nodes !! i = Some decode ∧ decode (old i) = Ret (g, None) ∧ cc' !! i = Some g) ∧
    match err with
    | None => k = length nodes ∧ ∀ i, (k ≤ i)%nat → cc' !! i = cc !! i
    | Some e =>
        (∃ decode g, nodes !! k = Some decode ∧ decode (old k) = Ret (g, Some e) ∧ cc' !! k = Some g) ∧
        ∀ i, (k < i)%nat → cc' !! i = cc !! i
    end.
Proof.
  intros Hm old. subst old. revert cc cc' err Hm.
  induction nodes as [|decode nodes IH]; intros cc cc' err.
  { intros [= <- <-]. exists 0%nat. split; [lia|]. split; done. }
  cbn [merge_connections].
  assert ((match cc with c :: cc => (c, cc) | [] => (zero_GWConnection, []) end) =
          (default zero_GWConnection (cc !! 0%nat), tail cc)) as -> by by destruct cc.
  assert (∀ i, tail cc !! i = cc !! S i) as Htail by by destruct cc.
  intros ([g e] & Hd & Hr)%bind_Ret_inv. destruct e as [e|].
  - injection Hr as <- <-. exists 0%nat. split; [lia|]. split; [by eexists _, _|].
    intros [|i] Hi; [lia|]. apply Htail.
  - apply bind_Ret_inv in Hr as ([cc1 err1] & Hm & Hr). injection Hr as <- <-.
    destruct (IH _ _ _ Hm) as (k & Hlow & Hhigh). exists (S k). split.
    + intros [|i] Hi; [by eexists _, _|]. rewrite <-Htail. apply (Hlow i). lia.
    + destruct err1 as [e1|]; destruct Hhigh as [H1 H2]; (split;
        [rewrite <-?Htail; first [exact H1|by rewrite H1|by cbn; rewrite H1]
        |intros [|i] Hi; [lia|]; rewrite <-Htail; apply (H2 i); lia]).
Qed.

Definition set_host (host : string) (g : GWConnection) : outcome (GWConnection * option error) :=
  Ret (mkGWConnection (gc_ID g) host (UserName g) (Password g) (gc_Enabled g) (IsChild g) (DisplayName g)
    (MergeHosts g) (LocalConnection g) (DeferOwnership g) (PrefixResourceNames g) (ResourceNamePrefix g)
    (SendAllInventory g) (IsDynamicInventory g) (HTTPEncode g), None).

Lemma merge_connections_spec_witness :
  ∃ k : nat,
    (∀ i, (i < k)%nat → ∃ decode g,
       [set_host "a"; set_host "b"] !! i = Some decode ∧
       decode (default zero_GWConnection ([with_password zero_GWConnection "p"] !! i)) = Ret (g, None) ∧
       (λ g, (HostName g, Password g)) <$> Some g = [("a", "p"); ("b", "")] !! i).
Proof.
  destruct (merge_connections_spec [set_host "a"; set_host "b"] [with_password zero_GWConnection "p"] _ None
              eq_refl) as (k & Hlow & Hk & _).
  exists k. intros i Hi. destruct (Hlow i Hi) as (d & g & H1 & H2 & H3).
  exists d, g. split_and!; [exact H1|exact H2|]. rewrite <-H3.
  cbn in Hk. subst k. by destruct i as [|[|i]]; [..|lia].
Defined.

(** *** The flags of the connections *)

Definition flags_ok (c : Connector) (g : GWConnection) : Prop :=
  IsDynamicInventory g = c_IsDynamicInventory c ∧ HTTPEncode g = encode_flag (to_lower (GWEncode c)) (IsChild g).

Lemma prepare_flags cfg :
  Forall (flags_ok (cfg_Connector cfg)) (cfg_GWConnections (prepare_connections cfg)).
Proof. apply Forall_fmap, Forall_true. by split. Qed.

Lemma index_array_Ret {A} (l : list A) i a : index_array l i = Ret a → (0 ≤ i)%Z ∧ l !! Z.to_nat i = Some a.
Proof. unfold index_array. case_decide; [|done]. by destruct (l !! _); intros [= ->]. Qed.

(** The levels of the logger: the configured one, cut at the most verbose, and none
    for a negative level. *)
Lemma logger_options_spec c :
  (∃ o, logger_options c = Ret o) ↔ (0 ≤ c_LogLevel c)%Z.
Proof.
  unfold logger_options. split.
  - intros (o & Ho). apply bind_Ret_inv in Ho as (lvl & Hl%index_array_Ret & _).
    destruct Hl as [Hl _]. destruct (decide (4 < c_LogLevel c)%Z); lia.
  - intros Hl. destruct (decide (4 < c_LogLevel c)%Z); [by eexists|].
    unfold index_array. rewrite decide_True by lia.
    destruct (lookup_lt_is_Some_2 [3; 2; 1; 0; -1]%Z (Z.to_nat (c_LogLevel c))) as [x Hx]; [cbn; lia|].
    rewrite Hx. by eexists.
Qed.

(** *** Prefixes *)

(** The prefixes that name a connection; an empty one names none. *)
Definition named_prefixes (prefixes : list (Z * string)) (id : Z) : list string :=
  (filter (λ p, p.1 = id ∧ p.2 ≠ "") prefixes).*2.

Lemma prefix_of_spec prefixes g :
  prefix_of prefixes g =
  match last (named_prefixes prefixes (gc_ID g)) with
  | Some p => with_prefix g true p
  | None => with_prefix g false ""
  end.
Proof.
  unfold prefix_of, named_prefixes. induction prefixes as [|p prefixes IH] using rev_ind; [done|].
  rewrite foldl_app, filter_app, fmap_app, IH. cbn [foldl].
  set (g' := match last _ with Some q => _ | None => _ end).
  assert (gc_ID g' = gc_ID g) as Hid by (unfold g'; by destruct (last _)).
  assert (∀ b q, with_prefix g' b q = with_prefix g b q) as Hw by (intros; unfold g'; by destruct (last _)).
  rewrite Hid. destruct (decide (gc_ID g = p.1 ∧ p.2 ≠ "")) as [[Hp Hne]|Hn].
  - rewrite filter_cons_True by done. rewrite filter_nil. cbn. by rewrite last_snoc.
  - rewrite filter_cons_False by naive_solver. by rewrite filter_nil, app_nil_r.
Qed.

Section load_lemmas.
Context (read_file : result error string).
Context (yaml_Unmarshal : string → Config → outcome (Config * option error)).
Context (json_dto : string → result error ConnectorDTO) (json_prefixes : string → result error (list (Z * string))).
Context (yaml_Marshal : Config → result error string).
Context (apply_env : Config → Config).
Context (isPMC : bool) (parentInstanceName : string).
#[local] Abbreviation load_dto :=
  (LoadConnectorDTO read_file yaml_Unmarshal json_dto json_prefixes yaml_Marshal apply_env isPMC parentInstanceName).
#[local] Abbreviation file_cfg := (file_config read_file yaml_Unmarshal).

(** What a DTO and its prefixes make of the configuration in the file. *)
Definition dto_config (base : Config) (dto : ConnectorDTO) (prefixes : list (Z * string)) (c : Config) : Prop :=
  c_AgentIdentity (cfg_Connector c) = dto_Identity dto ∧
  c_LogLevel (cfg_Connector c) = dto_LogLevel dto ∧
  c_Enabled (cfg_Connector c) = dto_Enabled dto ∧
  (c_IsDynamicInventory (cfg_Connector c) = true ↔ ai_AppType (dto_Identity dto) ∈ dynamic_types) ∧
  c_Nats (cfg_Connector c) = c_Nats (cfg_Connector base) ∧
  RetryDelays (cfg_Connector c) = RetryDelays (cfg_Connector base) ∧
  cfg_DSHostName c = (if decide (dto_DSHostName dto = "") then cfg_DSHostName base else dto_DSHostName dto) ∧
  Forall2 (λ g g', g' = with_prefix g (bool_decide (named_prefixes prefixes (gc_ID g) ≠ []))
                          (default "" (last (named_prefixes prefixes (gc_ID g)))))
    (dto_GWConnections dto) (cfg_GWConnections c).

Lemma dto_config_loaded base dto prefixes :
  dto_config base dto prefixes
    (loadDynamicInventoryFlag (loadAdvancedPrefixes (loadConnector base dto) prefixes)).
Proof using Type.
  unfold dto_config. cbn. split_and!; try done.
  - apply bool_decide_eq_true.
  - apply Forall2_fmap_r, Forall_Forall2_diag, Forall_true. intros g.
    change (prefix_of prefixes g = with_prefix g (bool_decide (named_prefixes prefixes (gc_ID g) ≠ []))
              (default "" (last (named_prefixes prefixes (gc_ID g))))). rewrite prefix_of_spec.
    destruct (named_prefixes prefixes (gc_ID g)) as [|q l]; [done|].
    rewrite bool_decide_true by done. rewrite last_cons. by destruct (last l).
Qed.

(** Loading a connector: a text that does not parse leaves the configuration and
    the file alone.  Otherwise the file's configuration with the fields of the DTO
    and the last prefix of each connection is what is written; the configuration in
    use is that one under the environment, with the mode and the host of a managed
    child and with connections whose flags agree with the connector.  The load
    returns whenever the resulting log level is not negative. *)
Theorem LoadConnectorDTO_result (cfg base : Config) (data : string) :
  file_cfg = Ret base →
  match json_dto data, json_prefixes data with
  | Val dto, Val prefixes =>
      ∃ written cfg' env,
        dto_config base dto prefixes written ∧
        env = match yaml_Marshal written with Val _ => apply_env written | Fail _ => written end ∧
        cfg_Connector cfg' =
          (if isPMC then with_mode (cfg_Connector env) InstallationModePMC
                           (c_IsDynamicInventory (cfg_Connector env))
           else cfg_Connector env) ∧
        cfg_DSHostName cfg' = (if isPMC then parentInstanceName else cfg_DSHostName env) ∧
        Forall (flags_ok (cfg_Connector cfg')) (cfg_GWConnections cfg') ∧
        gc_ID <$> cfg_GWConnections cfg' = gc_ID <$> cfg_GWConnections env ∧
        load_dto cfg data =
          if decide (0 ≤ c_LogLevel (cfg_Connector env))%Z
          then Ret (cfg', match yaml_Marshal written with Val s => Some s | Fail _ => None end, Val dto)
          else Panic "index out of range"
  | Fail e, _ => load_dto cfg data = Ret (cfg, None, Fail e)
  | Val _, Fail e => load_dto cfg data = Ret (cfg, None, Fail e)
  end.
Proof using Type.
  intros Hfile. unfold LoadConnectorDTO. rewrite Hfile. cbn [mbind outcome_bind].
  destruct (json_dto data) as [dto|e]; [|done]. destruct (json_prefixes data) as [prefixes|e]; [|done].
  set (written := loadDynamicInventoryFlag _). cbv zeta.
  assert ((match (match yaml_Marshal written with Val s => Some s | Fail _ => None end) with
           | Some _ => apply_env written | None => written end) =
          match yaml_Marshal written with Val _ => apply_env written | Fail _ => written end) as ->
    by by destruct (yaml_Marshal written).
  set (env := match yaml_Marshal written with Val _ => _ | Fail _ => _ end).
  exists written, (prepare_connections (process_PMC isPMC parentInstanceName env)), env.
  split_and!; [apply dto_config_loaded|done|by destruct isPMC|by destruct isPMC|exact (prepare_flags (process_PMC isPMC parentInstanceName env))| |].
  - cbn. rewrite <-list_fmap_compose. by destruct isPMC.
  - assert (c_LogLevel (cfg_Connector (prepare_connections (process_PMC isPMC parentInstanceName env))) =
            c_LogLevel (cfg_Connector env)) as Hl by by destruct isPMC.
    rewrite <-Hl. set (c := cfg_Connector _). case_decide as Hc.
    + destruct (proj2 (logger_options_spec c) Hc) as [o ->]. done.
    + unfold logger_options, index_array. rewrite (decide_False (P := (4 < _)%Z)) by lia. by rewrite decide_False.
Qed.

(** The first load gives connections whose flags agree with the connector, whatever
    the file and the environment say. *)
Lemma GetConfig_flags cfg o :
  GetConfig read_file yaml_Unmarshal apply_env isPMC parentInstanceName = Ret (cfg, o) →
  Forall (flags_ok (cfg_Connector cfg)) (cfg_GWConnections cfg).
Proof using Type.
  unfold GetConfig. intros (c & _ & (o' & _ & [= <- _])%bind_Ret_inv)%bind_Ret_inv.
  exact (prepare_flags (process_PMC isPMC parentInstanceName (apply_env c))).
Qed.
End load_lemmas.

Definition dto_example : ConnectorDTO :=
  mkConnectorDTO (mkAgentIdentity "id" "app" "APM") "" 2%Z true "ds"
    [with_password zero_GWConnection "p"; with_password zero_GWConnection "q"].

Lemma LoadConnectorDTO_result_witness :
  ∃ cfg', LoadConnectorDTO (Fail (Opaque "no file")) (λ _ c, Ret (c, None)) (λ _, Val dto_example)
            (λ _, Val [(0%Z, "pre-")]) (λ _, Val "yaml") id true "parent" defaults "{}" =
          Ret (cfg', Some "yaml", Val dto_example) ∧
          cfg_DSHostName cfg' = "parent".
Proof.
  destruct (LoadConnectorDTO_result (Fail (Opaque "no file")) (λ _ c, Ret (c, None)) (λ _, Val dto_example)
              (λ _, Val [(0%Z, "pre-")]) (λ _, Val "yaml") id true "parent" defaults defaults "{}" eq_refl)
    as (written & cfg' & env & Hw & -> & Hc & Hds & _ & _ & ->).
  exists cfg'. split; [|exact Hds]. destruct Hw as (_ & Hl & _). cbn. rewrite Hl. reflexivity.
Defined.
