(* ===== verification/Regexp.v ===== *)
(** The matching of Go's [regexp] package for the patterns of the program: the
    leftmost match that a backtracking search would find first, with its named
    submatches.  Characters are runes; a byte that starts no rune is one.

    The matcher passes the rest of the search as a continuation; [matches] is its
    declarative counterpart, and [run_sound] and [run_complete] relate the two. *)

From S2P Require Import Prelude.
From S2P Require Import GoString.

Local Open Scope string_scope.
Local Open Scope nat_scope.

(** ** Patterns *)

(** [.], [\s] and [\D]; [OneOf] is a rune whose first byte is in a set, and [Repeat]
    the greedy repetition of a pattern. *)
Inductive rune_class := Any | Space | NonDigit.

Inductive regexp :=
| Lit (c : ascii)
| Star (greedy : bool) (p : rune_class)
| Seq (r1 r2 : regexp)
| Alt (r1 r2 : regexp)
| Maybe (r : regexp)
| Group (name : string) (r : regexp)
| EndText
| OneOf (p : ascii → bool)
| Repeat (r : regexp).

(** The submatches by name; a group that took no part has the empty string. *)
Abbreviation captures := (gmap string string).
Definition capture (m : captures) (name : string) : string := default "" (m !! name).

Definition is_digit (c : ascii) : bool := byte_in 48 57 c.

Definition in_class (p : rune_class) (c : ascii) : bool :=
  let n := Ascii.nat_of_ascii c in
  match p with
  | Any => negb (bool_decide (n = 10))
  | Space => bool_decide (n = 9) || bool_decide (n = 10) || bool_decide (n = 12) ||
             bool_decide (n = 13) || bool_decide (n = 32)
  | NonDigit => negb (is_digit c)
  end.

(** The bytes of the rune at the head of the string, if it is in the class. *)
Definition class_size (p : rune_class) (s : string) : nat :=
  match s with
  | "" => 0
  | String c _ => if in_class p c then Nat.max 1 (rune_size s) else 0
  end.

Definition or_else {X} (a : option X) (b : option X) : option X :=
  match a with Some x => Some x | None => b end.

(** Repetitions; [skip] bytes of a rune remain to be consumed. *)
Fixpoint star {X} (greedy : bool) (p : rune_class) (skip : nat) (s : string) (k : string → option X) : option X :=
  match s with
  | "" => match skip with O => k "" | S _ => None end
  | String _ s' =>
      match skip with
      | S j => star greedy p j s' k
      | O =>
          match class_size p s with
          | O => k s
          | S j => if greedy then or_else (star greedy p j s' k) (k s)
                   else or_else (k s) (star greedy p j s' k)
          end
      end
  end.

(** The text between two positions of the search. *)
Definition between (s s' : string) : string := str_take (String.length s - String.length s') s.

(** At most [n] rounds, each of which takes some text. *)
Fixpoint repeat_go {X} (round : string → captures → (string → captures → option X) → option X) (n : nat)
    (s : string) (m : captures) (k : string → captures → option X) : option X :=
  match n with
  | O => k s m
  | S n =>
      or_else (round s m (λ s' m', if decide (String.length s' < String.length s) then repeat_go round n s' m' k else None))
        (k s m)
  end.

Fixpoint run {X} (r : regexp) (s : string) (m : captures) (k : string → captures → option X) : option X :=
  match r with
  | Lit c =>
      match s with
      | String d s' => if decide (c = d) then k s' m else None
      | "" => None
      end
  | Star greedy p => star greedy p 0 s (λ s', k s' m)
  | Seq r1 r2 => run r1 s m (λ s' m', run r2 s' m' k)
  | Alt r1 r2 => or_else (run r1 s m k) (run r2 s m k)
  | Maybe r => or_else (run r s m k) (k s m)
  | Group name r => run r s m (λ s' m', k s' (<[name := between s s']> m'))
  | EndText => match s with "" => k s m | _ => None end
  | OneOf p =>
      match s with
      | String c _ => if p c then k (str_drop (Nat.max 1 (rune_size s)) s) m else None
      | "" => None
      end
  | Repeat r =>
      repeat_go (run r) (String.length s) s m k
  end.

(** [FindStringSubmatch] of a pattern that begins with [^]. *)
Definition FindStringSubmatch (r : regexp) (s : string) : option captures := run r s ∅ (λ _ m, Some m).

(** ** The declarative counterpart *)

Inductive star_reach (p : rune_class) : string → string → Prop :=
| star_stop s : star_reach p s s
| star_step s s' : 0 < class_size p s → star_reach p (str_drop (class_size p s) s) s' → star_reach p s s'.

Inductive matches : regexp → string → captures → string → captures → Prop :=
| match_Lit c s m : matches (Lit c) (String c s) m s m
| match_Star g p s m s' : star_reach p s s' → matches (Star g p) s m s' m
| match_Seq r1 r2 s m s1 m1 s2 m2 :
    matches r1 s m s1 m1 → matches r2 s1 m1 s2 m2 → matches (Seq r1 r2) s m s2 m2
| match_Alt_l r1 r2 s m s' m' : matches r1 s m s' m' → matches (Alt r1 r2) s m s' m'
| match_Alt_r r1 r2 s m s' m' : matches r2 s m s' m' → matches (Alt r1 r2) s m s' m'
| match_Maybe r s m s' m' : matches r s m s' m' → matches (Maybe r) s m s' m'
| match_Skip r s m : matches (Maybe r) s m s m
| match_Group name r s m s' m' :
    matches r s m s' m' → matches (Group name r) s m s' (<[name := between s s']> m')
| match_End m : matches EndText "" m "" m
| match_OneOf (p : ascii → bool) c s m :
    p c = true → matches (OneOf p) (String c s) m (str_drop (Nat.max 1 (rune_size (String c s))) (String c s)) m
| match_Repeat_stop r s m : matches (Repeat r) s m s m
| match_Repeat_step r s m s1 m1 s2 m2 :
    matches r s m s1 m1 → String.length s1 < String.length s → matches (Repeat r) s1 m1 s2 m2 →
    matches (Repeat r) s m s2 m2.

#[export] Hint Constructors star_reach matches : tcg.

(** ** Runes *)

Definition ascii7 (c : ascii) : Prop := (Ascii.nat_of_ascii c < 128).

(** The bytes of a rune after the first are not ASCII. *)
Lemma rune_size_inner s j c : 0 < j → j < rune_size s → String.get j s = Some c → ¬ ascii7 c.
Proof.
  unfold ascii7. intros Hj Hlt Hget.
  destruct s as [|a [|b [|d [|e s]]]]; cbn [rune_size] in Hlt; unfold byte_in in Hlt;
    repeat case_match; try lia;
    repeat match goal with
      | H : _ && _ = true |- _ => apply andb_true_iff in H as [? ?]
      | H : bool_decide _ = true |- _ => apply bool_decide_eq_true in H
      | H : (if ?b then _ else _) = true |- _ => destruct b eqn:?
      end; repeat (destruct j as [|j]; cbn in Hget; try lia; simplify_eq; try lia).
Qed.

Lemma rune_size_ascii c s : ascii7 c → rune_size (String c s) = 1.
Proof. unfold ascii7. intros Hc. cbn. unfold byte_in. by rewrite bool_decide_true by lia. Qed.

Lemma rune_size_length s : rune_size s ≤ String.length s.
Proof.
  destruct s as [|a [|b [|d [|e s]]]]; cbn [rune_size String.length]; repeat case_match; lia.
Qed.

Lemma get_app_r a c t : String.get (String.length a) (a +:+ String c t) = Some c.
Proof. by induction a as [|x a IH]. Qed.

(** A position next to an ASCII byte is between two runes. *)
Definition cut (a t : string) : Prop :=
  (∃ a' c, a = a' +:+ String c "" ∧ ascii7 c) ∨ (∃ c t', t = String c t' ∧ ascii7 c) ∨ t = "" ∨ a = "".

Lemma class_size_cut p a t : a ≠ "" → cut a t → class_size p (a +:+ t) ≤ String.length a.
Proof.
  intros Ha Hcut. assert (Nat.max 1 (rune_size (a +:+ t)) ≤ String.length a) as Hle.
  2: { destruct a as [|c a]; [done|]. cbn [String.append class_size] in *. destruct (in_class p c); simpl in *; lia. }
  assert (1 ≤ String.length a) by (destruct a; simpl in *; [done|lia]).
  apply Nat.max_lub; [done|]. destruct (decide (rune_size (a +:+ t) ≤ String.length a)) as [|Hgt]; [done|].
  exfalso. destruct Hcut as [(a' & c & -> & Hc)|[(c & t' & -> & Hc)|[-> | ->]]].
  - rewrite length_str_app in *. cbn [String.length] in *. rewrite str_app_assoc in Hgt. cbn [String.append] in Hgt.
    destruct (decide (a' = "")) as [->|Ha'].
    + cbn [String.append] in Hgt. rewrite rune_size_ascii in Hgt by done. simpl in Hgt. lia.
    + assert (0 < String.length a') by (destruct a'; simpl; [done|lia]).
      apply (rune_size_inner (a' +:+ String c t) (String.length a') c); [lia|lia|apply get_app_r|done].
  - apply (rune_size_inner (a +:+ String c t') (String.length a) c); [lia|lia|apply get_app_r|done].
  - rewrite str_app_nil_r in Hgt. pose proof (rune_size_length a). lia.
  - done.
Qed.

(** ** The matcher and the matches *)

Lemma or_else_Some {X} (a b : option X) x : or_else a b = Some x ↔ a = Some x ∨ (a = None ∧ b = Some x).
Proof. destruct a; naive_solver. Qed.

Lemma class_size_length p s : class_size p s ≤ String.length s.
Proof.
  destruct s as [|c s]; [done|]. cbn [class_size]. case_match; [|lia].
  pose proof (rune_size_length (String c s)). simpl String.length in *. lia.
Qed.

Lemma star_skip {X} g p j s (k : string → option X) :
  j ≤ String.length s → star g p j s k = star g p 0 (str_drop j s) k.
Proof. revert s. induction j as [|j IH]; intros [|c s] Hj; cbn in *; try done; [lia|]. apply IH. lia. Qed.

Lemma star_unfold {X} g p s (k : string → option X) :
  star g p 0 s k =
  match class_size p s with
  | O => k s
  | S j => if g then or_else (star g p 0 (str_drop (S j) s) k) (k s)
           else or_else (k s) (star g p 0 (str_drop (S j) s) k)
  end.
Proof.
  destruct s as [|c s]; [done|]. pose proof (class_size_length p (String c s)) as Hl.
  cbn [star]. destruct (class_size p (String c s)) as [|j]; [done|].
  rewrite star_skip by (simpl in Hl; lia). done.
Qed.

(** Induction over the runes of a class. *)
Lemma class_ind p (P : string → Prop) :
  (∀ s, (0 < class_size p s → P (str_drop (class_size p s) s)) → P s) → ∀ s, P s.
Proof.
  intros Hstep s. remember (String.length s) as n eqn:Hn. revert s Hn.
  induction (Nat.lt_wf_0 n) as [n _ IH]. intros s ->. apply Hstep. intros Hpos.
  eapply IH; [|reflexivity]. rewrite length_str_drop. pose proof (class_size_length p s). lia.
Qed.

Lemma star_sound {X} g p s (k : string → option X) x :
  star g p 0 s k = Some x → ∃ s', star_reach p s s' ∧ k s' = Some x.
Proof.
  induction s as [s IH] using (class_ind p). rewrite star_unfold.
  destruct (class_size p s) as [|j] eqn:Hj; [intros; eexists; split; [constructor|done]|].
  assert (star g p 0 (str_drop (S j) s) k = Some x ∨ k s = Some x →
          ∃ s', star_reach p s s' ∧ k s' = Some x) as Hor.
  { intros [Hs|Hk]; [|eexists; split; [constructor|done]].
    destruct (IH ltac:(lia) Hs) as (s' & Hr & Hk). exists s'. split; [|done].
    apply star_step; [lia|]. by rewrite Hj. }
  destruct g; intros H%or_else_Some; apply Hor; naive_solver.
Qed.

Lemma star_complete {X} g p s s' (k : string → option X) :
  star_reach p s s' → is_Some (k s') → is_Some (star g p 0 s k).
Proof.
  intros Hr Hk. induction Hr as [s|s s' Hpos _ IH]; rewrite star_unfold.
  - destruct (class_size p s), g; [done..| |by destruct (k s)].
    unfold or_else. by case_match.
  - destruct (class_size p s) as [|j]; [lia|].
    destruct (IH Hk) as [x Hx]. destruct g; rewrite Hx; [by eexists|]. unfold or_else. by case_match.
Qed.

Lemma run_sound {X} r s m (k : string → captures → option X) x :
  run r s m k = Some x → ∃ s' m', matches r s m s' m' ∧ k s' m' = Some x.
Proof.
  revert s m k x. induction r as [c|g p|r1 IH1 r2 IH2|r1 IH1 r2 IH2|r IH|name r IH| |p|r IH]; intros s m k x; cbn [run].
  - destruct s as [|d s]; [done|]. case_decide; [subst d|done]. eauto with tcg.
  - intros (s' & ? & ?)%star_sound. eauto with tcg.
  - intros (s1 & m1 & ? & (s2 & m2 & ? & ?)%IH2)%IH1. eauto with tcg.
  - intros [(s1 & m1 & ? & ?)%IH1|[_ (s1 & m1 & ? & ?)%IH2]]%or_else_Some; eauto with tcg.
  - intros [(s1 & m1 & ? & ?)%IH|[_ ?]]%or_else_Some; eauto with tcg.
  - intros (s1 & m1 & ? & ?)%IH. eauto with tcg.
  - destruct s; [|done]. eauto with tcg.
  - destruct s as [|c s]; [done|]. destruct (p c) eqn:Hp; [|done]. eauto with tcg.
  - generalize (String.length s) as n. intros n. revert s m. induction n as [|n IHn]; intros s m.
    + intros ?. eauto with tcg.
    + cbn [repeat_go]. intros [(s1 & m1 & Hm & Hr)%IH|[_ ?]]%or_else_Some; [|eauto with tcg].
      case_decide; [|done]. destruct (IHn _ _ Hr) as (s2 & m2 & ? & ?). eauto with tcg.
Qed.

(** The search with any bound on the rounds that is not below the length. *)
Definition run_rounds {X} (n : nat) (r : regexp) (s : string) (m : captures) (k : string → captures → option X) : option X :=
  match r with
  | Repeat r => repeat_go (run r) n s m k
  | _ => run r s m k
  end.

Lemma run_rounds_complete {X} r s m s' m' n (k : string → captures → option X) :
  matches r s m s' m' → String.length s ≤ n → is_Some (k s' m') → is_Some (run_rounds n r s m k).
Proof.
  intros Hm. revert n k. induction Hm as
    [c s m|g p s m s' Hr|r1 r2 s m s1 m1 s2 m2 _ IH1 _ IH2|r1 r2 s m s' m' _ IH|r1 r2 s m s' m' _ IH
    |r s m s' m' _ IH|r s m|name r s m s' m' _ IH|m|p c s m Hp|r s m|r s m s1 m1 s2 m2 _ IH1 Hlt _ IH2];
    intros n k Hn Hk.
  - cbn. by rewrite decide_True.
  - cbn [run_rounds run]. by eapply star_complete.
  - assert (is_Some (run r2 s1 m1 k)) as H2 by (specialize (IH2 (String.length s1) k); destruct r2; by apply IH2).
    specialize (IH1 (String.length s) (λ s' m', run r2 s' m' k)). cbn [run_rounds run]. destruct r1; by apply IH1.
  - cbn [run_rounds run]. assert (is_Some (run r1 s m k)) as [x ->]; [|by eexists].
    specialize (IH (String.length s) k). destruct r1; by apply IH.
  - cbn [run_rounds run]. assert (is_Some (run r2 s m k)) as [x Hx].
    { specialize (IH (String.length s) k). destruct r2; by apply IH. }
    unfold or_else. case_match; [by eexists|by rewrite Hx].
  - cbn [run_rounds run]. assert (is_Some (run r s m k)) as [x ->]; [|by eexists].
    specialize (IH (String.length s) k). destruct r; by apply IH.
  - cbn [run_rounds run]. unfold or_else. by case_match.
  - cbn [run_rounds run]. specialize (IH (String.length s) (λ s' m', k s' (<[name := between s s']> m'))).
    destruct r; by apply IH.
  - done.
  - cbn [run_rounds run]. by rewrite Hp.
  - cbn [run_rounds]. destruct n; [done|]. cbn [repeat_go]. unfold or_else. by case_match.
  - cbn [run_rounds] in *. destruct n as [|n]; [lia|]. cbn [repeat_go].
    assert (is_Some (run r s m (λ s' m', if decide (String.length s' < String.length s)
              then repeat_go (run r) n s' m' k else None))) as [x ->]; [|by eexists].
    specialize (IH1 (String.length s) (λ s' m', if decide (String.length s' < String.length s)
              then repeat_go (run r) n s' m' k else None)).
    cbn beta in IH1. rewrite decide_True in IH1 by done. destruct r; (apply IH1; [lia|apply IH2; [lia|done]]).
Qed.

Lemma run_complete {X} r s m s' m' (k : string → captures → option X) :
  matches r s m s' m' → is_Some (k s' m') → is_Some (run r s m k).
Proof.
  intros Hm Hk. pose proof (run_rounds_complete _ _ _ _ _ (String.length s) k Hm ltac:(lia) Hk) as H. by destruct r.
Qed.

(** A search fails when no match leads to a success. *)
Lemma run_None {X} r s m (k : string → captures → option X) :
  (∀ s' m', matches r s m s' m' → k s' m' = None) → run r s m k = None.
Proof.
  intros Hk. destruct (run r s m k) as [x|] eqn:Hrun; [|done].
  apply run_sound in Hrun as (s' & m' & Hm & Hs). by rewrite (Hk _ _ Hm) in Hs.
Qed.

(** ** Lazy repetitions *)

Definition all_class (p : rune_class) (s : string) : bool := str_forallb (in_class p) s.

Lemma str_drop_cons_app n a t :
  n ≤ String.length a → str_drop n (a +:+ t) = str_drop n a +:+ t.
Proof. revert a. induction n as [|n IH]; intros [|c a] Hn; cbn in *; try done; [lia|]. apply IH. lia. Qed.

Lemma str_drop_all a : str_drop (String.length a) a = "".
Proof. by induction a. Qed.

Lemma str_forallb_drop f n s : str_forallb f s = true → str_forallb f (str_drop n s) = true.
Proof.
  revert s. induction n as [|n IH]; intros [|c s]; cbn; try done. intros [_ H]%andb_true_iff. by apply IH.
Qed.

Lemma str_drop_suffix n a : ∃ a', a = a' +:+ str_drop n a.
Proof. exists (str_take n a). by rewrite str_take_drop. Qed.

(** What is left of a string before a cut is before the same cut. *)
Lemma cut_drop n a t : n < String.length a → cut a t → cut (str_drop n a) t.
Proof.
  intros Hn [(a' & c & -> & Hc)|[Hcut|[Hcut| ->]]]; [|by right; left|by right; right; left|simpl in Hn; lia]. left.
  rewrite length_str_app in Hn. cbn [String.length] in Hn.
  rewrite str_drop_cons_app by lia. by eexists _, _.
Qed.

(** A lazy repetition stops where the rest of the search first succeeds. *)
Lemma lazy_stops {X} p a t (k : string → option X) x :
  cut a t → all_class p a = true →
  (∀ a1 a2, a = a1 +:+ a2 → a2 ≠ "" → k (a2 +:+ t) = None) →
  k t = Some x →
  star false p 0 (a +:+ t) k = Some x.
Proof.
  intros Hcut Hall Hnone Hk. remember (String.length a) as n eqn:Hn. revert a Hn Hcut Hall Hnone.
  induction (Nat.lt_wf_0 n) as [n _ IH]. intros a -> Hcut Hall Hnone.
  rewrite star_unfold. destruct (decide (a = "")) as [->|Ha].
  { cbn. rewrite Hk. by case_match. }
  assert (0 < class_size p (a +:+ t)) as Hpos.
  { destruct a as [|c a]; [done|]. cbn in *. apply andb_true_iff in Hall as [-> _]. lia. }
  pose proof (class_size_cut p a t Ha Hcut) as Hle.
  destruct (class_size p (a +:+ t)) as [|j] eqn:Hj; [lia|].
  rewrite (Hnone "" a) by done. cbn [or_else]. rewrite str_drop_cons_app by done.
  destruct (decide (String.length a = S j)) as [He|He].
  - rewrite <-He, str_drop_all.
    cbn [String.append]. rewrite star_unfold, Hk. by case_match.
  - eapply IH; [|reflexivity|apply cut_drop; [lia|done]|by apply str_forallb_drop|].
    + rewrite length_str_drop. lia.
    + intros a1 a2 Heq Ha2. destruct (str_drop_suffix (S j) a) as [a0 Ha0].
      apply (Hnone (a0 +:+ a1) a2); [|done]. by rewrite str_app_assoc, <-Heq.
Qed.

Lemma between_app a t : between (a +:+ t) t = a.
Proof.
  unfold between. rewrite length_str_app. replace (_ + _ - _) with (String.length a) by lia. apply str_take_app.
Qed.

(** *** A lazy group before a separator that its text does not contain *)

(** [(?P<name>.*?)c] *)
Definition field (name : string) (c : ascii) : regexp := Seq (Group name (Star false Any)) (Lit c).

Lemma run_field {X} name c a t m (k : string → captures → option X) x :
  ascii7 c → all_class Any a = true → no_byte c a = true →
  k t (<[name := a]> m) = Some x →
  run (field name c) (a +:+ String c t) m k = Some x.
Proof.
  intros Hc Hall Hno Hk. cbn [field run]. apply lazy_stops; [by right; left; eexists _, _|done| |].
  - intros a1 a2 -> Ha2. destruct a2 as [|d a2]; [done|]. cbn [String.append].
    rewrite decide_False; [done|]. intros <-. unfold no_byte in Hno.
    rewrite str_forallb_app in Hno. apply andb_true_iff in Hno as [_ Hno]. cbn in Hno.
    by rewrite bool_decide_true in Hno.
  - rewrite decide_True by done. by rewrite between_app.
Qed.

(** *** A greedy repetition takes all it can *)
Lemma greedy_takes {X} p a t (k : string → option X) x :
  cut a t → all_class p a = true → class_size p t = 0 → k t = Some x →
  star true p 0 (a +:+ t) k = Some x.
Proof.
  intros Hcut Hall Ht Hk. remember (String.length a) as n eqn:Hn. revert a Hn Hcut Hall.
  induction (Nat.lt_wf_0 n) as [n _ IH]. intros a -> Hcut Hall. rewrite star_unfold.
  destruct (decide (a = "")) as [->|Ha]; [cbn [String.append]; by rewrite Ht|].
  assert (0 < class_size p (a +:+ t)) as Hpos.
  { destruct a as [|c a]; [done|]. cbn in *. apply andb_true_iff in Hall as [-> _]. lia. }
  pose proof (class_size_cut p a t Ha Hcut) as Hle.
  destruct (class_size p (a +:+ t)) as [|j] eqn:Hj; [lia|]. rewrite str_drop_cons_app by done.
  destruct (decide (String.length a = S j)) as [He|He].
  - rewrite <-He, str_drop_all. cbn [String.append]. by rewrite star_unfold, Ht, Hk.
  - erewrite IH; [done| |reflexivity|apply cut_drop; [lia|done]|by apply str_forallb_drop].
    rewrite length_str_drop. lia.
Qed.

(** *** What a match says of the text *)

Lemma in_class_high p c : p ≠ Space → ¬ ascii7 c → in_class p c = true.
Proof.
  unfold ascii7. intros Hp Hc. destruct p; [|done|]; cbn; unfold is_digit, byte_in;
    rewrite bool_decide_false by lia; done.
Qed.

Lemma class_size_Space s : class_size Space s ≤ 1.
Proof.
  destruct s as [|c s]; [simpl; lia|]. cbn [class_size]. destruct (in_class Space c) eqn:Hc; [|lia].
  rewrite rune_size_ascii; [lia|]. unfold ascii7. cbn in Hc.
  repeat (apply orb_true_iff in Hc as [Hc|Hc]); apply bool_decide_eq_true in Hc; lia.
Qed.

Lemma str_forallb_get f s :
  (∀ j c, String.get j s = Some c → f c = true) → str_forallb f s = true.
Proof.
  induction s as [|c s IH]; intros Hf; cbn; [done|]. rewrite (Hf 0 c) by done.
  apply IH. intros j d Hj. by apply (Hf (S j)).
Qed.

Lemma get_str_take n s j c : String.get j (str_take n s) = Some c → j < n ∧ String.get j s = Some c.
Proof.
  revert s j. induction n as [|n IH]; intros [|d s] [|j]; cbn; try done.
  - intros ?. split; [lia|done].
  - intros [? ?]%IH. split; [lia|done].
Qed.

Lemma class_rune p s : all_class p (str_take (class_size p s) s) = true.
Proof.
  apply str_forallb_get. intros j c [Hj Hget]%get_str_take.
  destruct s as [|d s]; [by destruct j|]. pose proof (class_size_Space (String d s)) as Hsp.
  cbn [class_size] in *. destruct (in_class p d) eqn:Hd; [|lia].
  destruct j as [|j]; [by injection Hget as <-|]. apply in_class_high.
  - intros ->. rewrite Hd in Hsp. lia.
  - eapply (rune_size_inner (String d s) (S j)); [lia| |done]. lia.
Qed.

Lemma star_reach_text p s s' : star_reach p s s' → ∃ a, s = a +:+ s' ∧ all_class p a = true.
Proof.
  induction 1 as [s|s s' Hpos _ (a & Ha & Hall)]; [by exists ""|].
  exists (str_take (class_size p s) s +:+ a). split.
  - by rewrite str_app_assoc, <-Ha, str_take_drop.
  - pose proof (class_rune p s) as Hr. unfold all_class in *. by rewrite str_forallb_app, Hall, Hr.
Qed.

(** *** Inversion *)

Lemma matches_Lit c s m s' m' : matches (Lit c) s m s' m' → s = String c s' ∧ m' = m.
Proof. inversion 1; by subst. Qed.

Lemma matches_Star g p s m s' m' : matches (Star g p) s m s' m' → star_reach p s s' ∧ m' = m.
Proof. inversion 1; by subst. Qed.

Lemma matches_Seq r1 r2 s m s' m' :
  matches (Seq r1 r2) s m s' m' → ∃ s1 m1, matches r1 s m s1 m1 ∧ matches r2 s1 m1 s' m'.
Proof. inversion 1; subst. by eexists _, _. Qed.

Lemma matches_Group name r s m s' m' :
  matches (Group name r) s m s' m' → ∃ m1, matches r s m s' m1 ∧ m' = <[name := between s s']> m1.
Proof. inversion 1; subst. by eexists. Qed.

Lemma field_match_text name c s m s' m' :
  matches (field name c) s m s' m' → ∃ a, s = a +:+ String c s'.
Proof.
  intros (s1 & m1 & (m2 & [Hr _]%matches_Star & _)%matches_Group & [-> _]%matches_Lit)%matches_Seq.
  apply star_reach_text in Hr as (a & -> & _). by exists a.
Qed.

(** ** Sets of bytes *)

Definition member (l : list ascii) (c : ascii) : bool := bool_decide (c ∈ l).

(** Any, or at least one, of a set; and a literal text. *)
Definition some_of (p : ascii → bool) : regexp := Repeat (OneOf p).
Definition at_least_one (p : ascii → bool) : regexp := Seq (OneOf p) (some_of p).

Fixpoint literal (s : string) (r : regexp) : regexp :=
  match s with "" => r | String c s => Seq (Lit c) (literal s r) end.
Definition epsilon : regexp := Repeat (OneOf (λ _, false)).

(** *** Runes next to a cut *)

Lemma rune_cut a t : a ≠ "" → cut a t → Nat.max 1 (rune_size (a +:+ t)) ≤ String.length a.
Proof.
  intros Ha Hcut. pose proof (class_size_cut NonDigit a t Ha Hcut) as Hn. destruct a as [|c a]; [done|].
  destruct (is_digit c) eqn:Hd.
  - cbn [String.append]. rewrite rune_size_ascii; [simpl; lia|]. unfold is_digit, byte_in, ascii7 in *.
    destruct (bool_decide (57 < nat_of_ascii c)) eqn:H57; repeat case_bool_decide; try done; lia.
  - cbn [String.append class_size] in Hn |- *. cbn [in_class] in Hn. rewrite Hd in Hn. exact Hn.
Qed.

(** The bytes of a rune whose first is not a given ASCII byte are not that byte. *)
Lemma rune_no_byte q c s :
  ascii7 q → c ≠ q → no_byte q (str_take (Nat.max 1 (rune_size (String c s))) (String c s)) = true.
Proof.
  intros Hq Hc. apply str_forallb_get. intros j d [Hj Hget]%get_str_take. apply negb_true_iff, bool_decide_false.
  intros <-. destruct j as [|j]; [injection Hget as <-; done|].
  destruct (decide (S j < rune_size (String c s))) as [Hlt|]; [|lia].
  by apply (rune_size_inner (String c s) (S j) q ltac:(lia) Hlt Hget).
Qed.

(** *** Repetitions of a set *)

Lemma str_forallb_and f g s : str_forallb f s && str_forallb g s = str_forallb (λ c, f c && g c) s.
Proof.
  induction s as [|c s IH]; [done|]. cbn. rewrite <-IH. destruct (f c), (g c), (str_forallb f s); done.
Qed.

(** A repetition of a pattern that takes the runes of a set can take any text of it
    before a cut. *)
Lemma repeat_matches r p a t m :
  (∀ s s', matches (OneOf p) s m s' m → matches r s m s' m) → cut a t → str_forallb p a = true →
  matches (Repeat r) (a +:+ t) m t m.
Proof.
  intros Hr Hcut Hall. remember (String.length a) as n eqn:Hn. revert a Hn Hcut Hall.
  induction (Nat.lt_wf_0 n) as [n _ IH]. intros a -> Hcut Hall.
  destruct a as [|c a]; [constructor|]. pose proof (rune_cut (String c a) t ltac:(done) Hcut) as Hle.
  set (d := Nat.max 1 (rune_size (String c a +:+ t))) in *.
  assert (p c = true) as Hp by (cbn in Hall; by apply andb_true_iff in Hall as [? _]).
  assert (str_drop d (String c a +:+ t) = str_drop d (String c a) +:+ t) as Hd by (by apply str_drop_cons_app).
  eapply match_Repeat_step; [exact (Hr _ _ (match_OneOf p c (a +:+ t) m Hp))| |];
    change (String c (a +:+ t)) with (String c a +:+ t); fold d.
  - rewrite length_str_drop, length_str_app. simpl String.length in *. lia.
  - rewrite Hd. destruct (decide (String.length (String c a) = d)) as [He|He].
    + rewrite <-He, str_drop_all. constructor.
    + eapply IH; [|reflexivity|apply cut_drop; [lia|done]|by apply str_forallb_drop].
      rewrite length_str_drop. lia.
Qed.

Lemma matches_OneOf p s m s' m' :
  matches (OneOf p) s m s' m' →
  ∃ c s0, s = String c s0 ∧ p c = true ∧ s' = str_drop (Nat.max 1 (rune_size s)) s ∧ m' = m.
Proof. inversion 1; subst. by eexists _, _. Qed.

Lemma OneOf_text p q s m s' m' :
  ascii7 q → p q = false → matches (OneOf p) s m s' m' → ∃ a, s = a +:+ s' ∧ no_byte q a = true ∧ m' = m.
Proof.
  intros Hq Hp (c & s0 & -> & Hc & -> & ->)%matches_OneOf. eexists. split; [by rewrite str_take_drop|].
  split; [|done]. apply rune_no_byte; [done|congruence].
Qed.

(** What it takes has no ASCII byte that the set has not. *)
Lemma some_of_text p q s m s' m' :
  ascii7 q → p q = false → matches (some_of p) s m s' m' → ∃ a, s = a +:+ s' ∧ no_byte q a = true ∧ m' = m.
Proof.
  intros Hq Hp. unfold some_of. remember (Repeat (OneOf p)) as r eqn:Hr. intros Hm. revert Hr.
  induction Hm as [| | | | | | | | | |r s m|r s m s1 m1 s2 m2 H1 _ Hlt _ IH2]; intros [=]; [by exists ""|].
  subst r. destruct (OneOf_text _ _ _ _ _ _ Hq Hp H1) as (b & -> & Hb & ->).
  destruct (IH2 eq_refl) as (a & -> & Ha & ->). exists (b +:+ a).
  by rewrite str_app_assoc, no_byte_app, Ha, Hb.
Qed.

Lemma Repeat_ind r (P : string → captures → Prop) s m s' m' :
  matches (Repeat r) s m s' m' → P s m →
  (∀ s1 m1 s2 m2, matches r s1 m1 s2 m2 → P s1 m1 → P s2 m2) → P s' m'.
Proof.
  intros Hm HP Hstep. remember (Repeat r) as r0 eqn:Hr. revert Hr HP.
  induction Hm as [| | | | | | | | | | |r0 s m s1 m1 s2 m2 H1 _ _ _ IH2]; intros [=] HP; subst; [done|].
  apply IH2; [done|]. by eapply Hstep.
Qed.

Lemma no_byte_split q a b s t :
  no_byte q a = true → no_byte q b = true → a +:+ String q s = b +:+ String q t → a = b ∧ s = t.
Proof.
  revert b. induction a as [|c a IH]; intros [|d b] Ha Hb; cbn in *; intros [=]; subst; try done.
  - by rewrite bool_decide_true in Hb.
  - by rewrite bool_decide_true in Ha.
  - apply andb_true_iff in Ha as [_ Ha]. apply andb_true_iff in Hb as [_ Hb].
    destruct (IH b Ha Hb) as [-> ->]; [done|done].
Qed.
