(* ===== verification/NscaParser.v ===== *)
(** connectors/nsca/parser/parser.go: the parser of check results in the "bronx"
    and "nsca" formats.

    A payload is a list of lines; each is matched by the pattern of the format, its
    performance data item by item.  The clock of each pass is an argument. *)

From S2P Require Import Prelude.
From S2P Require Import GoString.
From S2P Require Import GoFloat.
From S2P Require Import FloatText.
From S2P Require Import Errors.
From S2P Require Import Timestamp.
From S2P Require Import TypedValue.
From S2P Require Import Transit.
From S2P Require Import Status.
From S2P Require Import StatusText.
From S2P Require Import Connectors.
From S2P Require Import Regexp.

Local Open Scope string_scope.
Local Open Scope nat_scope.

(** ** Patterns *)

Definition semicolon : ascii := ";"%char.
Definition bar : ascii := "|"%char.

(** [.*?] in a named group *)
Definition text_group (name : string) : regexp := Group name (Star false Any).

(** [\s*\|\s*(?P<perf>.*?)$] *)
Definition bar_perf : regexp :=
  Seq (Star true Space) (Seq (Lit bar) (Seq (Star true Space) (Seq (text_group "perf") EndText))).

(** [(?P<msg>.*?)\s*\|\s*(?P<perf>.*?)$] *)
Definition msg_perf : regexp := Seq (text_group "msg") bar_perf.

Definition bronxRegexp : regexp :=
  Seq (Group "type" (Alt (Lit "H"%char) (Lit "S"%char))) (Seq (Lit semicolon)
    (Seq (field "ts" semicolon) (Seq (field "resName" semicolon) (Seq (Maybe (field "svcName" semicolon))
      (Seq (field "status" semicolon) msg_perf))))).

Definition nscaRegexp : regexp :=
  Seq (Maybe (field "ts" semicolon)) (Seq (field "resName" semicolon) (Seq (field "svcName" semicolon)
    (Seq (field "status" semicolon) msg_perf))).

(** [(?P<name>.*?)(\D*?);], or [(?P<name>.*?)(?P<unit>\D*?);] *)
Definition unit_group (unit : option string) : regexp :=
  match unit with
  | Some name => Group name (Star false NonDigit)
  | None => Star false NonDigit
  end.

Definition number (name : string) (unit : option string) : regexp :=
  Seq (text_group name) (Seq (unit_group unit) (Lit semicolon)).

Definition perfDataRegexp : regexp :=
  Seq (field "label" "="%char)
    (Seq (number "val" (Some "unitType")) (Seq (number "warn" None) (Seq (number "crit" None)
      (Seq (Maybe (number "min" None)) (Seq (Maybe (number "max" None)) EndText))))).

(** ** Data *)

Definition ErrInvalidMetricFormat : error := Named "ErrInvalidMetricFormat" "invalid metric format" None.
Definition ErrUnknownMetricFormat : error := Named "ErrUnknownMetricFormat" "unknown metric format" None.

Definition DataFormat := string.
Definition Bronx : DataFormat := "bronx".
Definition NSCA : DataFormat := "nsca".
Definition NSCAAlt : DataFormat := "nsca-alt".

Abbreviation MetricsMap := (gmap string (list TimeSeries)).
Abbreviation ServicesMap := (gmap string (list MonitoredService)).

(** [m[key] = append(m[key], x)] *)
Definition append_to {A} (m : gmap string (list A)) (key : string) (x : A) : gmap string (list A) :=
  <[key := (default [] (m !! key) ++ [x])%list]> m.

Definition getTime (str : string) : result error Timestamp :=
  match ParseInt str with
  | Val i => Val (mkTimestamp i 0 UTCLoc)
  | Fail _ => Fail (Opaque "strconv.ParseInt")
  end.

Definition getStatus (str : string) : result error MonitorStatus :=
  if decide (str = "0") then Val ServiceOk
  else if decide (str = "1") then Val ServiceWarning
  else if decide (str = "2") then Val ServiceUnscheduledCritical
  else if decide (str = "3") then Val ServiceUnknown
  else Fail (Opaque "unknown status provided").

(** ** Lines *)

(** The time of a line: of the "nsca" formats, the reading of the clock unless the
    line has a time; of the "bronx" format, the time of the line. *)
Definition nsca_time (now : Timestamp) (m : captures) : result error Timestamp :=
  let ts := capture m "ts" in
  if decide (ts = "") then Val (NewTimestamp now)
  else match getTime ts with Val t => Val t | Fail _ => Val (NewTimestamp now) end.

Definition bronx_time (now : Timestamp) (m : captures) : result error Timestamp := getTime (capture m "ts").

(** A number of the performance data; an absent one is 0. *)
Definition perf_number (s : string) : result error float64 :=
  if decide (s = "") then Val f_zero
  else match ParseFloat s with Val x => Val x | Fail _ => Fail (Opaque "strconv.ParseFloat") end.

Definition perf_builder (timestamp : Timestamp) (label : string) (value warning critical : float64) : MetricBuilder :=
  mkMetricBuilder label "" Query "" (AFloat64 value) (Some (ArgUnit MB)) (AFloat64 warning) (AFloat64 critical)
    (Some timestamp) (Some timestamp) false ∅.

(** One item of the performance data. *)
Definition perf_metric (timestamp : Timestamp) (metric : string) : outcome (result error TimeSeries) :=
  match FindStringSubmatch perfDataRegexp metric with
  | None => Ret (Fail (Errorf_w ErrInvalidMetricFormat "perf data"))
  | Some m =>
      match (value ← perf_number (capture m "val");
             warning ← perf_number (capture m "warn");
             critical ← perf_number (capture m "crit");
             Val (perf_builder timestamp (capture m "label") value warning critical)) with
      | Fail e => Ret (Fail e)
      | Val b => BuildMetric timestamp b
      end
  end.

Fixpoint perf_metrics (timestamp : Timestamp) (key : string) (items : list string) (metricsMap : MetricsMap)
  : outcome (result error MetricsMap) :=
  match items with
  | [] => Ret (Val metricsMap)
  | metric :: items =>
      timeSeries ← perf_metric timestamp metric;
      match timeSeries with
      | Fail e => Ret (Fail e)
      | Val t => perf_metrics timestamp key items (append_to metricsMap key t)
      end
  end.

(** [fmt.Sprintf("%s:%s", resName, svcName)] *)
Definition service_key (m : captures) : string := capture m "resName" +:+ ":" +:+ capture m "svcName".

Definition perf_items (m : captures) : list string := Split (TrimSpace (capture m "perf")) " ".

Definition line_service (metrics : list TimeSeries) (timestamp : Timestamp) (status : MonitorStatus) (m : captures)
  : MonitoredService :=
  mkMonitoredService
    (mkBaseInfo (capture m "svcName") ResourceTypeService (capture m "resName") "" "" ∅)
    (mkMonitoredInfo status (Some timestamp) None (capture m "msg"))
    metrics.

Section lines.
(** The pattern and the time of a line of the format. *)
Context (re : regexp) (line_time : Timestamp → captures → result error Timestamp).

(** [getNscaMetrics], [getBronxMetrics]: [now i] is the clock at the [i]-th line. *)
Fixpoint getMetrics (now : nat → Timestamp) (i : nat) (metricsLines : list string) (metricsMap : MetricsMap)
  : outcome (result error MetricsMap) :=
  match metricsLines with
  | [] => Ret (Val metricsMap)
  | metric :: metricsLines =>
      match FindStringSubmatch re metric with
      | None => Ret (Fail (Errorf_w ErrInvalidMetricFormat "resource"))
      | Some m =>
          match line_time (now i) m with
          | Fail e => Ret (Fail e)
          | Val timestamp =>
              metricsMap ← perf_metrics timestamp (service_key m) (perf_items m) metricsMap;
              match metricsMap with
              | Fail e => Ret (Fail e)
              | Val metricsMap => getMetrics now (S i) metricsLines metricsMap
              end
          end
      end
  end.

(** [getNscaServices], [getBronxServices], before duplicates are removed. *)
Fixpoint getServices (now : nat → Timestamp) (metricsMap : MetricsMap) (i : nat) (metricsLines : list string)
    (servicesMap : ServicesMap) : result error ServicesMap :=
  match metricsLines with
  | [] => Val servicesMap
  | metric :: metricsLines =>
      match FindStringSubmatch re metric with
      | None => Fail (Errorf_w ErrInvalidMetricFormat "service")
      | Some m =>
          timestamp ← line_time (now i) m;
          status ← getStatus (capture m "status");
          getServices now metricsMap (S i) metricsLines
            (append_to servicesMap (capture m "resName")
              (line_service (default [] (metricsMap !! service_key m)) timestamp status m))
      end
  end.
End lines.

(** ** Services of a resource *)

Definition svc_name (s : MonitoredService) : string := bi_Name (ms_BaseInfo s).

(** The first service of each name. *)
Fixpoint first_services (keys : gset string) (value : list MonitoredService) : list MonitoredService :=
  match value with
  | [] => []
  | entry :: value =>
      if decide (svc_name entry ∈ keys) then first_services keys value
      else entry :: first_services ({[svc_name entry]} ∪ keys) value
  end.

Definition removeDuplicateServices (servicesMap : ServicesMap) : ServicesMap := first_services ∅ <$> servicesMap.

(** The services with a name, and the last host check. *)
Fixpoint split_host_checks (services : list MonitoredService) (info : option MonitoredInfo)
  : list MonitoredService * option MonitoredInfo :=
  match services with
  | [] => ([], info)
  | svc :: services =>
      if decide (svc_name svc = "") then split_host_checks services (Some (ms_MonitoredInfo svc))
      else let '(l, info) := split_host_checks services info in (svc :: l, info)
  end.

Definition host_resource (now : Timestamp) (resName : string) (services : list MonitoredService) : MonitoredResource :=
  let '(svcs, info) := split_host_checks services None in
  mkMonitoredResource (mkBaseResource (mkBaseInfo resName ResourceTypeHost "" "" "" ∅) "")
    (match info with
     | Some i => i
     | None => mkMonitoredInfo (CalculateResourceStatus svcs) (Some (NewTimestamp now)) None ""
     end) svcs.

Definition getNscaMetrics (now : nat → Timestamp) (metricsLines : list string) : outcome (result error MetricsMap) :=
  getMetrics nscaRegexp nsca_time now 0 metricsLines ∅.
Definition getBronxMetrics (now : nat → Timestamp) (metricsLines : list string) : outcome (result error MetricsMap) :=
  getMetrics bronxRegexp bronx_time now 0 metricsLines ∅.

Definition getNscaServices (now : nat → Timestamp) (metricsMap : MetricsMap) (metricsLines : list string)
  : result error ServicesMap :=
  servicesMap ← getServices nscaRegexp nsca_time now metricsMap 0 metricsLines ∅;
  Val (removeDuplicateServices servicesMap).
Definition getBronxServices (now : nat → Timestamp) (metricsMap : MetricsMap) (metricsLines : list string)
  : result error ServicesMap :=
  servicesMap ← getServices bronxRegexp bronx_time now metricsMap 0 metricsLines ∅;
  Val (removeDuplicateServices servicesMap).

(** Both passes over the lines, and the resources in the order of the map; [now i] is
    the clock at the [i]-th resource. *)
Definition parse_lines `{MapOrder} (metrics : outcome (result error MetricsMap))
    (services : MetricsMap → result error ServicesMap) (now : nat → Timestamp)
  : outcome (result error (list MonitoredResource)) :=
  metricsMap ← metrics;
  match metricsMap with
  | Fail e => Ret (Fail e)
  | Val metricsMap =>
      match services metricsMap with
      | Fail e => Ret (Fail e)
      | Val servicesMap => Ret (Val (imap (λ i kv, host_resource (now i) kv.1 kv.2) (map_order servicesMap)))
      end
  end.

Definition payload_lines (payload : string) : list string :=
  Split (Trim payload (String " " (String (ascii_of_nat 10) (String (ascii_of_nat 13) "")))) (String (ascii_of_nat 10) "").

Definition Parse `{MapOrder} (now_metrics now_services now_resources : nat → Timestamp)
    (payload : string) (dataFormat : DataFormat) : outcome (result error (list MonitoredResource)) :=
  let metricsLines := payload_lines payload in
  if decide (dataFormat = Bronx)
  then parse_lines (getBronxMetrics now_metrics metricsLines)
         (λ m, getBronxServices now_services m metricsLines) now_resources
  else if decide (dataFormat = NSCA ∨ dataFormat = NSCAAlt)
  then parse_lines (getNscaMetrics now_metrics metricsLines)
         (λ m, getNscaServices now_services m metricsLines) now_resources
  else Ret (Fail ErrUnknownMetricFormat).

(** ** Bytes of a line *)

Fixpoint byte_count (c : ascii) (s : string) : nat :=
  match s with
  | "" => 0
  | String d s' => if decide (c = d) then S (byte_count c s') else byte_count c s'
  end.

Lemma byte_count_app c s t : byte_count c (s +:+ t) = byte_count c s + byte_count c t.
Proof. induction s as [|d s IH]; cbn; [done|]. rewrite IH. case_decide; lia. Qed.

Lemma byte_count_self c s : byte_count c (String c s) = S (byte_count c s).
Proof. cbn. by rewrite decide_True. Qed.

Lemma byte_count_other c d s : c ≠ d → byte_count c (String d s) = byte_count c s.
Proof. intros. cbn. by rewrite decide_False. Qed.

Lemma no_byte_count c s : no_byte c s = true → byte_count c s = 0.
Proof.
  unfold no_byte. induction s as [|d s IH]; cbn; [done|]. intros [Hd Hs]%andb_true_iff.
  apply negb_true_iff, bool_decide_eq_false in Hd. rewrite decide_False by done. by apply IH.
Qed.

(** The text before a byte that occurs once. *)
Lemma before_unique c a b a' b' :
  a +:+ String c b = a' +:+ String c b' → no_byte c a = true → no_byte c b = true → a = a' ∧ b = b'.
Proof.
  intros Heq Ha Hb. apply no_byte_count in Ha, Hb.
  revert a' Heq Ha. induction a as [|d a IH]; intros [|d' a'] Heq Ha; cbn [String.append] in Heq.
  - by injection Heq.
  - injection Heq as <- ->. rewrite byte_count_app, byte_count_self in Hb. lia.
  - injection Heq as -> Heq. rewrite byte_count_self in Ha. lia.
  - injection Heq as <- Heq. cbn in Ha. case_decide; [lia|]. by destruct (IH a' Heq Ha) as [-> ->].
Qed.

(** Where a byte of a text falls in a prefix of it. *)
Lemma app_split a t b c s :
  a +:+ t = b +:+ String c s → (∃ u, b = a +:+ u) ∨ (∃ u, a = b +:+ String c u).
Proof.
  revert b. induction a as [|d a IH]; intros [|d' b] Heq; cbn [String.append] in *.
  - left. by exists "".
  - left. by eexists.
  - injection Heq as -> _. right. by exists a.
  - injection Heq as -> Heq. destruct (IH b Heq) as [[u ->]|[u ->]]; [left|right]; by eexists.
Qed.

Lemma no_byte_app_r c a b : no_byte c (a +:+ b) = true → no_byte c b = true.
Proof. rewrite no_byte_app. by intros [_ ?]%andb_true_iff. Qed.

Lemma byte_count_pos c u s : byte_count c (u +:+ String c s) ≠ 0.
Proof. rewrite byte_count_app, byte_count_self. lia. Qed.

(** A text that ends in a byte outside the class does not let a repetition of the
    class pass to a byte that the text does not contain. *)
Lemma reach_blocked p a t c s' d :
  star_reach p (a +:+ t) (String c s') → no_byte c a = true → in_class p d = false →
  (∃ a0, a = a0 +:+ String d "") → False.
Proof.
  intros (b & Heq & Hall)%star_reach_text Hno Hd [a0 ->].
  apply app_split in Heq as [[u ->]|[u Ha]].
  - unfold all_class in Hall. rewrite !str_forallb_app in Hall. cbn in Hall. rewrite Hd in Hall.
    by rewrite !andb_false_r in Hall.
  - rewrite Ha in Hno. apply no_byte_count in Hno. by apply byte_count_pos in Hno.
Qed.

(** ** The fields of a line *)

(** The text of a field. *)
Definition clean (f : string) : Prop :=
  all_class Any f = true ∧ no_byte semicolon f = true ∧ no_byte bar f = true.

Definition blank (s : string) : Prop := all_class Space s = true ∧ all_class Any s = true.

(** The message and the performance data around the bar. *)
Record msg_ok (msg sp1 sp2 perf : string) : Prop := {
  mo_msg : clean msg;
  mo_last : msg = "" ∨ ∃ a d, msg = a +:+ String d "" ∧ in_class Space d = false;
  mo_sp1 : blank sp1;
  mo_sp2 : blank sp2;
  mo_perf : all_class Any perf = true ∧ no_byte bar perf = true;
  mo_first : class_size Space perf = 0;
}.

Definition msg_text (msg sp1 sp2 perf : string) : string := msg +:+ sp1 +:+ String bar (sp2 +:+ perf).

Lemma suffix_last a1 a2 a0 d : a1 +:+ a2 = a0 +:+ String d "" → a2 ≠ "" → ∃ b, a2 = b +:+ String d "".
Proof.
  intros Heq (u & d' & ->)%str_snoc. rewrite <-str_app_assoc in Heq.
  apply str_snoc_inj in Heq as [_ ->]. by eexists.
Qed.

Lemma space_cut a t : all_class Space a = true → a ≠ "" → cut a t.
Proof.
  intros Hall (u & d & ->)%str_snoc. left. exists u, d. split; [done|].
  unfold all_class in Hall. rewrite str_forallb_app in Hall. apply andb_true_iff in Hall as [_ Hd].
  cbn [str_forallb] in Hd. apply andb_true_iff in Hd as [Hd _]. unfold ascii7. cbn in Hd.
  repeat (apply orb_true_iff in Hd as [Hd|Hd]); apply bool_decide_eq_true in Hd; lia.
Qed.

Lemma cut_nil t : cut "" t.
Proof. by right; right; right. Qed.
Lemma cut_ascii a c t : ascii7 c → cut a (String c t).
Proof. intros. right; left. by eexists _, _. Qed.
#[local] Hint Resolve cut_nil cut_ascii : tcg.

Lemma ascii7_bar : ascii7 bar. Proof. apply Nat.ltb_lt. reflexivity. Qed.
Lemma ascii7_semicolon : ascii7 semicolon. Proof. apply Nat.ltb_lt. reflexivity. Qed.
#[local] Hint Resolve ascii7_bar ascii7_semicolon : tcg.

Lemma blank_cut a sp c t : blank sp → ascii7 c → cut a (sp +:+ String c t).
Proof.
  intros [Hsp _] Hc. destruct sp as [|d sp]; [by apply cut_ascii|]. apply cut_ascii.
  cbn in Hsp. apply andb_true_iff in Hsp as [Hd _]. unfold ascii7.
  repeat (apply orb_true_iff in Hd as [Hd|Hd]); apply bool_decide_eq_true in Hd; lia.
Qed.

(** The search of a lazy group, with the rest of the search. *)
Lemma run_text_group {X} name a t m (k : string → captures → option X) x :
  cut a t → all_class Any a = true →
  (∀ a1 a2, a = a1 +:+ a2 → a2 ≠ "" → ∀ m, k (a2 +:+ t) m = None) →
  k t (<[name := a]> m) = Some x →
  run (text_group name) (a +:+ t) m k = Some x.
Proof.
  intros Hcut Hall Hnone Hk. cbn [run text_group]. apply lazy_stops; [done|done| |by rewrite between_app].
  intros a1 a2 Heq Ha2. by eapply Hnone.
Qed.

Lemma run_bar_perf sp1 sp2 perf m :
  blank sp1 → blank sp2 → all_class Any perf = true → class_size Space perf = 0 →
  run bar_perf (sp1 +:+ String bar (sp2 +:+ perf)) m (λ _ m, Some m) = Some (<["perf" := perf]> m).
Proof.
  intros Hs1 [Hs2 _] Hp Hfirst. unfold bar_perf. cbn [run].
  apply greedy_takes; [apply cut_ascii, ascii7_bar|apply Hs1|done|].
  rewrite decide_True by done. apply greedy_takes; [|done|done|].
  - destruct (decide (sp2 = "")) as [->|Hne]; [apply cut_nil|by apply space_cut].
  - rewrite <-(str_app_nil_r perf) at 1.
    apply (run_text_group "perf" perf ""); [by right; right; left|done| |done].
    intros a1 [|d a2]; [done|]. done.
Qed.

Lemma bar_perf_blocked {X} a t m (k : string → captures → option X) d :
  no_byte bar a = true → in_class Space d = false → (∃ a0, a = a0 +:+ String d "") →
  run bar_perf (a +:+ t) m k = None.
Proof.
  intros Hno Hd Ha. apply run_None. intros s' m' Hm. exfalso.
  apply matches_Seq in Hm as (s1 & m1 & [Hr _]%matches_Star & (s2 & m2 & [-> _]%matches_Lit & _)%matches_Seq).
  by eapply reach_blocked.
Qed.

Lemma run_msg_perf msg sp1 sp2 perf m :
  msg_ok msg sp1 sp2 perf →
  run msg_perf (msg_text msg sp1 sp2 perf) m (λ _ m, Some m) = Some (<["perf" := perf]> (<["msg" := msg]> m)).
Proof.
  intros [(Hm1 & _ & Hm3) Hlast Hs1 Hs2 [Hp1 Hp2] Hfirst].
  change (run (text_group "msg") (msg_text msg sp1 sp2 perf) m
            (λ s' m', run bar_perf s' m' (λ _ m, Some m)) =
          Some (<["perf" := perf]> (<["msg" := msg]> m))).
  apply run_text_group; [apply blank_cut; [done|apply ascii7_bar]|done| |by apply run_bar_perf].
  intros a1 a2 -> Ha2 m'. destruct Hlast as [Hnil|(a & d & Ha & Hd)].
  { by destruct a1, a2. }
  eapply bar_perf_blocked; [|done|by eapply suffix_last]. by eapply no_byte_app_r.
Qed.

(** A match of [n] fields, the message and the performance data has [n] semicolons
    before a bar. *)
Lemma bar_perf_text s m s' m' : matches bar_perf s m s' m' → ∃ a b, s = a +:+ String bar b.
Proof.
  intros (s1 & m1 & [Hr _]%matches_Star & (s2 & m2 & [-> _]%matches_Lit & _)%matches_Seq)%matches_Seq.
  apply star_reach_text in Hr as (a & -> & _). by eexists _, _.
Qed.

Lemma msg_perf_text s m s' m' : matches msg_perf s m s' m' → ∃ a b, s = a +:+ String bar b.
Proof.
  intros (s1 & m1 & (m2 & [Hr _]%matches_Star & _)%matches_Group & Hl)%matches_Seq.
  apply star_reach_text in Hr as (a & -> & _). apply bar_perf_text in Hl as (a' & b & ->).
  exists (a +:+ a'), b. by rewrite str_app_assoc.
Qed.

(** [r] consumes at least [n] semicolons before a bar. *)
Definition needs (n : nat) (r : regexp) : Prop :=
  ∀ s m s' m', matches r s m s' m' → ∃ a b, s = a +:+ String bar b ∧ n ≤ byte_count semicolon a.

Lemma needs_msg_perf : needs 0 msg_perf.
Proof. intros s m s' m' (a & b & ->)%msg_perf_text. exists a, b. split; [done|lia]. Qed.

Lemma needs_field name n r : needs n r → needs (S n) (Seq (field name semicolon) r).
Proof.
  intros Hn s m s' m' (s1 & m1 & Hf & Hr)%matches_Seq.
  apply field_match_text in Hf as (x & ->). destruct (Hn _ _ _ _ Hr) as (a & b & -> & Hc).
  exists (x +:+ String semicolon a), b. split; [by rewrite str_app_assoc|].
  rewrite byte_count_app, byte_count_self. lia.
Qed.
#[local] Hint Resolve needs_msg_perf needs_field : tcg.

(** A search that needs more semicolons than the line has before its bar fails. *)
Lemma needs_blocked {X} n r a b m (k : string → captures → option X) :
  needs n r → no_byte bar a = true → no_byte bar b = true → byte_count semicolon a < n →
  run r (a +:+ String bar b) m k = None.
Proof.
  intros Hn Ha Hb Hlt. apply run_None. intros s' m' Hm. exfalso.
  destruct (Hn _ _ _ _ Hm) as (a' & b' & Heq & Hc).
  destruct (before_unique _ _ _ _ _ Heq Ha Hb) as [<- _]. lia.
Qed.

(** *** Lines of the two formats *)

Definition field_text (f rest : string) : string := f +:+ String semicolon rest.
Definition optional_field (f : option string) (rest : string) : string :=
  match f with Some f => field_text f rest | None => rest end.

Definition nsca_line (ts : option string) (resName svcName status rest : string) : string :=
  optional_field ts (field_text resName (field_text svcName (field_text status rest))).

Definition bronx_line (type : ascii) (ts resName : string) (svcName : option string) (status rest : string) : string :=
  String type (String semicolon (field_text ts (field_text resName (optional_field svcName (field_text status rest))))).

Lemma run_clean_field {X} name f rest m (k : string → captures → option X) x :
  clean f → k rest (<[name := f]> m) = Some x → run (field name semicolon) (field_text f rest) m k = Some x.
Proof. intros (H1 & H2 & _) Hk. apply run_field; [apply ascii7_semicolon|done|done|done]. Qed.

Lemma run_seq {X} r1 r2 s m (k : string → captures → option X) :
  run (Seq r1 r2) s m k = run r1 s m (λ s m, run r2 s m k).
Proof. done. Qed.

Lemma run_maybe {X} r s m (k : string → captures → option X) :
  run (Maybe r) s m k = or_else (run r s m k) (k s m).
Proof. done. Qed.

Lemma clean_no_bar f : clean f → no_byte bar f = true.
Proof. by intros (_ & _ & ?). Qed.

Lemma no_bar_field f rest : clean f → no_byte bar rest = true → no_byte bar (field_text f rest) = true.
Proof. intros Hf Hr. unfold field_text. rewrite no_byte_app, clean_no_bar by done. cbn. done. Qed.

Lemma semicolons_field f rest :
  clean f → byte_count semicolon (field_text f rest) = S (byte_count semicolon rest).
Proof.
  intros (_ & Hf & _). unfold field_text. by rewrite byte_count_app, byte_count_self, (no_byte_count _ f).
Qed.

Lemma blank_free c sp : blank sp → in_class Space c = false → no_byte c sp = true.
Proof.
  intros [Hs _] Hc. unfold all_class, no_byte in *. induction sp as [|d sp IH]; cbn in *; [done|].
  apply andb_true_iff in Hs as [Hd Hs]. rewrite IH by done. rewrite bool_decide_false; [done|].
  intros <-. by rewrite Hc in Hd.
Qed.

(** The part of the message before the bar. *)
Lemma before_bar msg sp1 sp2 perf :
  msg_ok msg sp1 sp2 perf →
  msg_text msg sp1 sp2 perf = (msg +:+ sp1) +:+ String bar (sp2 +:+ perf) ∧
  no_byte bar (msg +:+ sp1) = true ∧ byte_count semicolon (msg +:+ sp1) = 0 ∧ no_byte bar (sp2 +:+ perf) = true.
Proof.
  intros [(_ & Hm2 & Hm3) _ Hs1 Hs2 [_ Hp2] _]. unfold msg_text. rewrite str_app_assoc. split_and!; [done|..].
  - by rewrite no_byte_app, Hm3, (blank_free bar).
  - apply no_byte_count. by rewrite no_byte_app, Hm2, (blank_free semicolon).
  - by rewrite no_byte_app, Hp2, (blank_free bar).
Qed.

Lemma field_text_app f rest t : field_text f rest +:+ t = field_text f (rest +:+ t).
Proof. unfold field_text. by rewrite str_app_assoc. Qed.

Definition optional_capture (name : string) (f : option string) (m : captures) : captures :=
  match f with Some f => <[name := f]> m | None => m end.

Lemma nsca_captures ts resName svcName status msg sp1 sp2 perf :
  (∀ f, ts = Some f → clean f) → clean resName → clean svcName → clean status → msg_ok msg sp1 sp2 perf →
  FindStringSubmatch nscaRegexp (nsca_line ts resName svcName status (msg_text msg sp1 sp2 perf)) =
  Some (<["perf" := perf]> (<["msg" := msg]> (<["status" := status]> (<["svcName" := svcName]>
          (<["resName" := resName]> (optional_capture "ts" ts ∅)))))).
Proof.
  intros Hts Hr Hsv Hst Hmsg. unfold FindStringSubmatch, nscaRegexp.
  assert (∀ m, run (Seq (field "resName" semicolon) (Seq (field "svcName" semicolon) (Seq (field "status" semicolon) msg_perf)))
      (field_text resName (field_text svcName (field_text status (msg_text msg sp1 sp2 perf)))) m (λ _ m, Some m) =
      Some (<["perf" := perf]> (<["msg" := msg]> (<["status" := status]> (<["svcName" := svcName]>
          (<["resName" := resName]> m)))))) as Hrest.
  { intros m. do 3 (rewrite run_seq; apply run_clean_field; [done|]). by apply run_msg_perf. }
  rewrite run_seq, run_maybe. destruct ts as [ts|]; cbn [nsca_line optional_field optional_capture].
  - erewrite run_clean_field; [|by apply Hts|apply Hrest]. done.
  - rewrite <-run_seq. destruct (before_bar _ _ _ _ Hmsg) as (Heq & Hb1 & Hc & Hb2).
    assert (run (Seq (field "ts" semicolon) (Seq (field "resName" semicolon) (Seq (field "svcName" semicolon)
              (Seq (field "status" semicolon) msg_perf))))
            (field_text resName (field_text svcName (field_text status (msg_text msg sp1 sp2 perf)))) ∅
            (λ _ m, Some m) = None) as ->; [|by rewrite Hrest].
    rewrite Heq. do 3 rewrite <-field_text_app. apply (needs_blocked 4).
    + auto with tcg.
    + by repeat apply no_bar_field.
    + done.
    + rewrite !semicolons_field, Hc by done. lia.
Qed.

Lemma bronx_captures type ts resName svcName status msg sp1 sp2 perf :
  type = "H"%char ∨ type = "S"%char → clean ts → clean resName → (∀ f, svcName = Some f → clean f) →
  clean status → msg_ok msg sp1 sp2 perf →
  FindStringSubmatch bronxRegexp (bronx_line type ts resName svcName status (msg_text msg sp1 sp2 perf)) =
  Some (<["perf" := perf]> (<["msg" := msg]> (<["status" := status]> (optional_capture "svcName" svcName
          (<["resName" := resName]> (<["ts" := ts]> {["type" := String type ""]})))))).
Proof.
  intros Htype Hts Hr Hsv Hst Hmsg. unfold FindStringSubmatch, bronxRegexp, bronx_line.
  assert (∀ m, run (Seq (field "status" semicolon) msg_perf) (field_text status (msg_text msg sp1 sp2 perf)) m
      (λ _ m, Some m) = Some (<["perf" := perf]> (<["msg" := msg]> (<["status" := status]> m)))) as Hrest.
  { intros m. rewrite run_seq. apply run_clean_field; [done|]. by apply run_msg_perf. }
  rewrite run_seq.
  assert (∀ (k : string → captures → option captures) t, run (Group "type" (Alt (Lit "H"%char) (Lit "S"%char)))
      (String type t) ∅ k = k t {["type" := String type ""]}) as ->.
  { intros k t. assert (between (String type t) t = String type "") as Hb
      by exact (between_app (String type "") t).
    cbn [run]. destruct Htype as [-> | ->].
    - rewrite decide_True by done. rewrite Hb. unfold or_else. by case_match.
    - rewrite (decide_False (P := "H"%char = "S"%char)) by done. rewrite decide_True by done. by rewrite Hb. }
  cbv beta. rewrite run_seq. unfold run at 1. rewrite decide_True by done.
  do 2 (rewrite run_seq; apply run_clean_field; [done|]).
  rewrite run_seq, run_maybe. destruct svcName as [svcName|]; cbn [optional_field optional_capture].
  - erewrite run_clean_field; [|by apply Hsv|apply Hrest]. done.
  - destruct (before_bar _ _ _ _ Hmsg) as (Heq & Hb1 & Hc & Hb2).
    match goal with |- or_else ?a _ = _ => assert (a = None) as -> end; [|apply Hrest].
    rewrite <-run_seq, Heq, <-field_text_app. apply (needs_blocked 2).
    + auto with tcg.
    + by apply no_bar_field.
    + done.
    + rewrite semicolons_field, Hc by done. lia.
Qed.

(** ** Performance data *)

(** A number and its unit: the text up to the last digit, and the rest. *)
Record number_ok (v u : string) : Prop := {
  no_value : all_class Any v = true ∧ no_byte semicolon v = true;
  no_last : v = "" ∨ ∃ a d, v = a +:+ String d "" ∧ is_digit d = true;
  no_unit : all_class NonDigit u = true ∧ no_byte semicolon u = true;
}.

Definition number_text (n : string * string) (rest : string) : string := n.1 +:+ field_text n.2 rest.

Lemma digit_ascii7 d : is_digit d = true → ascii7 d.
Proof. unfold is_digit, byte_in, ascii7. intros ?%bool_decide_eq_true. lia. Qed.

Lemma free_head c a : no_byte c a = true → ∀ a1 a2, a = a1 +:+ a2 → a2 ≠ "" → ∃ d b, a2 = String d b ∧ c ≠ d.
Proof.
  intros Hno a1 a2 -> Ha2. apply no_byte_app_r in Hno. destruct a2 as [|d b]; [done|].
  exists d, b. split; [done|]. unfold no_byte in Hno. cbn in Hno.
  apply andb_true_iff in Hno as [Hd _]. by apply negb_true_iff, bool_decide_eq_false in Hd.
Qed.

Lemma run_unit {X} unit u rest m (k : string → captures → option X) x :
  all_class NonDigit u = true → no_byte semicolon u = true →
  k rest (match unit with Some name => <[name := u]> m | None => m end) = Some x →
  run (Seq (unit_group unit) (Lit semicolon)) (field_text u rest) m k = Some x.
Proof.
  intros Hu Hno Hk. unfold field_text.
  destruct unit as [name|]; cbn [unit_group run]; (apply lazy_stops; [apply cut_ascii, ascii7_semicolon|done| |]).
  - intros a1 a2 Heq Ha2. destruct (free_head _ _ Hno _ _ Heq Ha2) as (d & b & -> & Hd). cbn. by rewrite decide_False.
  - rewrite decide_True by done. by rewrite between_app.
  - intros a1 a2 Heq Ha2. destruct (free_head _ _ Hno _ _ Heq Ha2) as (d & b & -> & Hd). cbn. by rewrite decide_False.
  - by rewrite decide_True by done.
Qed.

Lemma unit_blocked {X} unit a t m (k : string → captures → option X) d :
  no_byte semicolon a = true → is_digit d = true → (∃ a0, a = a0 +:+ String d "") →
  run (Seq (unit_group unit) (Lit semicolon)) (a +:+ t) m k = None.
Proof.
  intros Hno Hd Ha. apply run_None. intros s' m' Hm. exfalso.
  apply matches_Seq in Hm as (s1 & m1 & Hs & [-> _]%matches_Lit).
  assert (star_reach NonDigit (a +:+ t) (String semicolon s')) as Hr.
  { destruct unit; [apply matches_Group in Hs as (m2 & Hs & _)|]; by apply matches_Star in Hs as [? _]. }
  eapply (reach_blocked NonDigit a t semicolon s' d); [done|done| |done]. cbn. by rewrite Hd.
Qed.

Definition number_capture (name : string) (unit : option string) (n : string * string) (m : captures) : captures :=
  match unit with Some u => <[u := n.2]> (<[name := n.1]> m) | None => <[name := n.1]> m end.

Lemma run_number {X} name unit n rest m (k : string → captures → option X) x :
  number_ok n.1 n.2 → k rest (number_capture name unit n m) = Some x →
  run (number name unit) (number_text n rest) m k = Some x.
Proof.
  intros [[Hv1 Hv2] Hlast [Hu1 Hu2]] Hk. unfold number, number_text. rewrite run_seq.
  apply run_text_group; [|done| |].
  - destruct Hlast as [-> |(a & d & Ha & Hd)]; [apply cut_nil|]. left. exists a, d. split; [done|by apply digit_ascii7].
  - intros a1 a2 Heq Ha2 m'. destruct Hlast as [Hnil|(a & d & Ha & Hd)].
    { rewrite Hnil in Heq. by destruct a1, a2. }
    rewrite Heq in Ha, Hv2. eapply unit_blocked; [by eapply no_byte_app_r|done|by eapply suffix_last].
  - apply run_unit; [done|done|]. by destruct unit.
Qed.

(** The minimum and the maximum are optional. *)
Definition extra_text (extra : list (string * string)) : string := foldr number_text "" extra.

Lemma run_number_end {X} name m (k : string → captures → option X) : run (number name None) "" m k = None.
Proof. done. Qed.

Lemma run_extra extra m :
  length extra ≤ 2 → Forall (λ n, number_ok n.1 n.2) extra →
  ∃ m', run (Seq (Maybe (number "min" None)) (Seq (Maybe (number "max" None)) EndText)) (extra_text extra) m
          (λ _ m, Some m) = Some m' ∧
        (∀ name, name ≠ "min" → name ≠ "max" → m' !! name = m !! name).
Proof.
  intros Hlen Hok. rewrite run_seq, run_maybe.
  destruct extra as [|n1 [|n2 [|n3 extra]]]; cbn [extra_text foldr]; [| | |simpl in Hlen; lia].
  - by exists m.
  - exists (<["min" := n1.1]> m). split; [|intros; by rewrite lookup_insert_ne].
    apply Forall_cons in Hok as [Hn1 _]. by erewrite run_number; [|done|rewrite run_seq, run_maybe, run_number_end].
  - exists (<["max" := n2.1]> (<["min" := n1.1]> m)). split; [|intros; by rewrite !lookup_insert_ne].
    apply Forall_cons in Hok as [Hn1 [Hn2 _]%Forall_cons].
    erewrite run_number; [done|done|]. rewrite run_seq, run_maybe. by erewrite run_number.
Qed.

Definition perf_text (label : string) (val warn crit : string * string) (extra : list (string * string)) : string :=
  label +:+ String "="%char (number_text val (number_text warn (number_text crit (extra_text extra)))).

Lemma perf_captures label val warn crit extra :
  all_class Any label = true → no_byte "="%char label = true →
  Forall (λ n, number_ok n.1 n.2) [val; warn; crit] →
  length extra ≤ 2 → Forall (λ n, number_ok n.1 n.2) extra →
  ∃ m, FindStringSubmatch perfDataRegexp (perf_text label val warn crit extra) = Some m ∧
       capture m "label" = label ∧ capture m "val" = val.1 ∧ capture m "warn" = warn.1 ∧ capture m "crit" = crit.1.
Proof.
  intros Hl1 Hl2 [Hv [Hw [Hc _]%Forall_cons]%Forall_cons]%Forall_cons Hlen Hextra.
  unfold FindStringSubmatch, perfDataRegexp.
  destruct (run_extra extra (number_capture "crit" None crit (number_capture "warn" None warn
              (number_capture "val" (Some "unitType") val (<["label" := label]> ∅)))) Hlen Hextra) as (m & Hm & Hsame).
  exists m. split.
  - rewrite run_seq. apply run_field; [apply Nat.ltb_lt; reflexivity|done|done|].
    do 3 (rewrite run_seq; apply run_number; [done|]). done.
  - unfold capture. by rewrite !Hsame.
Qed.

(** ** What the passes over the lines compute *)

Definition item_numbers (m : captures) : result error (float64 * float64 * float64) :=
  value ← perf_number (capture m "val");
  warning ← perf_number (capture m "warn");
  critical ← perf_number (capture m "crit");
  Val (value, warning, critical).

(** The metric of an item: its value and both thresholds, in megabytes. *)
Definition item_metric (timestamp : Timestamp) (metric : string) : result error TimeSeries :=
  match FindStringSubmatch perfDataRegexp metric with
  | None => Fail (Errorf_w ErrInvalidMetricFormat "perf data")
  | Some m =>
      '(value, warning, critical) ← item_numbers m;
      Val (builder_metric timestamp (perf_builder timestamp (capture m "label") value warning critical)
             (tv_double value) MB)
  end.

Lemma perf_metric_eq t x : perf_metric t x = Ret (item_metric t x).
Proof.
  unfold perf_metric, item_metric, item_numbers. destruct (FindStringSubmatch _ _) as [m|]; [|done].
  destruct (perf_number (capture m "val")) as [v|]; [|done].
  destruct (perf_number (capture m "warn")) as [w|]; [|done].
  destruct (perf_number (capture m "crit")) as [c|]; [|done]. cbn [mbind result_bind].
  apply (BuildMetric_usable t (perf_builder t (capture m "label") v w c) (tv_double v) MB);
    try done; right; (split; [done|by eexists]).
Qed.

Definition append_list {A} (m : gmap string (list A)) (key : string) (l : list A) : gmap string (list A) :=
  foldl (λ m x, append_to m key x) m l.

Lemma lookup_append_to {A} (m : gmap string (list A)) key x k :
  default [] (append_to m key x !! k) = (default [] (m !! k) ++ if decide (key = k) then [x] else [])%list.
Proof.
  unfold append_to. destruct (decide (key = k)) as [->|Hn].
  - by rewrite lookup_insert_eq.
  - by rewrite lookup_insert_ne, app_nil_r.
Qed.

Lemma lookup_append_list {A} (m : gmap string (list A)) key l k :
  default [] (append_list m key l !! k) = (default [] (m !! k) ++ if decide (key = k) then l else [])%list.
Proof.
  revert m. induction l as [|x l IH]; intros m; cbn [append_list foldl].
  - case_decide; by rewrite app_nil_r.
  - fold (append_list (append_to m key x) key l). rewrite IH, lookup_append_to, <-app_assoc. by case_decide.
Qed.

Lemma perf_metrics_eq t key items mm :
  perf_metrics t key items mm = Ret (ts ← mapM (item_metric t) items; Val (append_list mm key ts)).
Proof.
  revert mm. induction items as [|x items IH]; intros mm; cbn [perf_metrics]; [done|].
  rewrite perf_metric_eq. cbn [mbind outcome_bind]. cbn. destruct (item_metric t x) as [ts|]; [|done].
  rewrite IH. cbn. by destruct (mapM (item_metric t) items).
Qed.

(** A pass over the lines stops at the first error. *)
Fixpoint all_lines {A} (f : nat → string → result error A) (i : nat) (lines : list string) : result error (list A) :=
  match lines with
  | [] => Val []
  | line :: lines => a ← f i line; l ← all_lines f (S i) lines; Val (a :: l)
  end.

(** What a line says of a service. *)
Record check := mkCheck {
  ck_host : string;
  ck_service : string;
  ck_status : MonitorStatus;
  ck_time : Timestamp;
  ck_message : string;
}.

Definition ck_key (c : check) : string := ck_host c +:+ ":" +:+ ck_service c.

Section passes.
Context (re : regexp) (line_time : Timestamp → captures → result error Timestamp).

(** The key of a line and its metrics. *)
Definition line_metrics (now : nat → Timestamp) (i : nat) (line : string) : result error (string * list TimeSeries) :=
  match FindStringSubmatch re line with
  | None => Fail (Errorf_w ErrInvalidMetricFormat "resource")
  | Some m => t ← line_time (now i) m; ts ← mapM (item_metric t) (perf_items m); Val (service_key m, ts)
  end.

Definition line_check (now : nat → Timestamp) (i : nat) (line : string) : result error check :=
  match FindStringSubmatch re line with
  | None => Fail (Errorf_w ErrInvalidMetricFormat "service")
  | Some m =>
      t ← line_time (now i) m; status ← getStatus (capture m "status");
      Val (mkCheck (capture m "resName") (capture m "svcName") status t (capture m "msg"))
  end.

Definition check_service (metrics : list TimeSeries) (c : check) : MonitoredService :=
  mkMonitoredService (mkBaseInfo (ck_service c) ResourceTypeService (ck_host c) "" "" ∅)
    (mkMonitoredInfo (ck_status c) (Some (ck_time c)) None (ck_message c)) metrics.

Lemma getMetrics_eq now i lines mm :
  getMetrics re line_time now i lines mm =
  Ret (ms ← all_lines (line_metrics now) i lines; Val (foldl (λ mm p, append_list mm p.1 p.2) mm ms)).
Proof using Type.
  revert i mm. induction lines as [|line lines IH]; intros i mm; cbn [getMetrics all_lines]; [done|].
  remember (line_metrics now i line) as r eqn:Hr. unfold line_metrics in Hr.
  destruct (FindStringSubmatch re line) as [m|]; [|by subst r].
  destruct (line_time (now i) m) as [t|]; [|by subst r]. cbn [mbind result_bind] in Hr.
  rewrite perf_metrics_eq. cbn [mbind outcome_bind result_bind].
  destruct (mapM _ _) as [ts|]; subst r; [|done]. cbn. rewrite IH. by destruct (all_lines _ _ _).
Qed.

Lemma getServices_eq now mm i lines sm :
  getServices re line_time now mm i lines sm =
  (cs ← all_lines (line_check now) i lines;
   Val (foldl (λ sm c, append_to sm (ck_host c) (check_service (default [] (mm !! ck_key c)) c)) sm cs)).
Proof using Type.
  revert i sm. induction lines as [|line lines IH]; intros i sm; cbn [getServices all_lines]; [done|].
  remember (line_check now i line) as r eqn:Hr. unfold line_check in Hr.
  destruct (FindStringSubmatch re line) as [m|]; [|by subst r].
  destruct (line_time (now i) m) as [t|]; [|by subst r]. cbn [mbind result_bind] in *.
  destruct (getStatus _) as [st|]; subst r; [|done]. cbn. rewrite IH. by destruct (all_lines _ _ _).
Qed.
End passes.

(** The metrics of all lines with a key, and the checks of a host, in order. *)
Definition metrics_of (ms : list (string * list TimeSeries)) (key : string) : list TimeSeries :=
  p ← filter (λ p, p.1 = key) ms; p.2.

Definition services_of (ms : list (string * list TimeSeries)) (cs : list check) (host : string)
  : list MonitoredService :=
  (λ c, check_service (metrics_of ms (ck_key c)) c) <$> filter (λ c, ck_host c = host) cs.

Lemma metrics_map ms mm key :
  default [] (foldl (λ mm p, append_list mm p.1 p.2) mm ms !! key) = (default [] (mm !! key) ++ metrics_of ms key)%list.
Proof.
  revert mm. induction ms as [|p ms IH]; intros mm; cbn [foldl]; [by rewrite app_nil_r|].
  rewrite IH, lookup_append_list, <-app_assoc. f_equal. unfold metrics_of.
  destruct (decide (p.1 = key)) as [He|He].
  - by rewrite filter_cons_True.
  - by rewrite filter_cons_False.
Qed.

Lemma services_map (f : check → MonitoredService) cs (sm : ServicesMap) h :
  default [] (foldl (λ sm c, append_to sm (ck_host c) (f c)) sm cs !! h) =
    (default [] (sm !! h) ++ (f <$> filter (λ c, ck_host c = h) cs))%list ∧
  (is_Some (foldl (λ sm c, append_to sm (ck_host c) (f c)) sm cs !! h) ↔
     is_Some (sm !! h) ∨ h ∈ ck_host <$> cs).
Proof.
  revert sm. induction cs as [|c cs IH]; intros sm; cbn [foldl].
  - split; [by rewrite app_nil_r|]. cbn. rewrite elem_of_nil. naive_solver.
  - destruct (IH (append_to sm (ck_host c) (f c))) as [IH1 IH2]. split.
    + rewrite IH1, lookup_append_to, <-app_assoc. f_equal. destruct (decide (ck_host c = h)) as [He|He].
      * by rewrite filter_cons_True.
      * by rewrite filter_cons_False.
    + rewrite IH2, fmap_cons, elem_of_cons. unfold append_to.
      destruct (decide (ck_host c = h)) as [->|Hn].
      * rewrite lookup_insert_eq. split; [by right; left|]. intros _. left. by eexists.
      * rewrite lookup_insert_ne by done. naive_solver.
Qed.

(** *** Duplicates and host checks *)

Definition with_name (n : string) (l : list MonitoredService) : list MonitoredService :=
  filter (λ s, svc_name s = n) l.

(** Of the services with a name the first is kept. *)
Lemma first_services_with keys l n :
  with_name n (first_services keys l) =
  if decide (n ∈ keys) then [] else option_list (head (with_name n l)).
Proof.
  unfold with_name. revert keys. induction l as [|s l IH]; intros keys; cbn [first_services].
  - by case_decide.
  - destruct (decide (svc_name s ∈ keys)) as [Hs|Hs].
    + rewrite IH. case_decide as Hn; [done|]. rewrite filter_cons_False; [done|]. congruence.
    + destruct (decide (svc_name s = n)) as [He|He].
      * rewrite !filter_cons_True by done. rewrite IH, decide_True by set_solver.
        rewrite decide_False by congruence. done.
      * rewrite !filter_cons_False by done. rewrite IH. f_equal.
        destruct (decide (n ∈ keys)); [rewrite decide_True|rewrite decide_False]; set_solver.
Qed.

Lemma first_services_sublist keys l : first_services keys l `sublist_of` l.
Proof.
  revert keys. induction l as [|s l IH]; intros keys; cbn [first_services]; [constructor|].
  case_decide; by constructor.
Qed.

Lemma split_host_checks_spec l info :
  split_host_checks l info =
  (filter (λ s, svc_name s ≠ "") l,
   match last (with_name "" l) with Some s => Some (ms_MonitoredInfo s) | None => info end).
Proof.
  unfold with_name. revert info. induction l as [|s l IH]; intros info; cbn [split_host_checks]; [done|].
  destruct (decide (svc_name s = "")) as [Hs|Hs].
  - rewrite IH, filter_cons_False, filter_cons_True by naive_solver.
    rewrite last_cons. by destruct (last _).
  - rewrite IH. by rewrite filter_cons_True, filter_cons_False by naive_solver.
Qed.

(** What a resource says of the services of its host. *)
Definition resource_of (services : list MonitoredService) (r : MonitoredResource) : Prop :=
  mr_Services r `sublist_of` services ∧
  with_name "" (mr_Services r) = [] ∧
  (∀ n, n ≠ "" → with_name n (mr_Services r) = option_list (head (with_name n services))) ∧
  match head (with_name "" services) with
  | Some s => mr_MonitoredInfo r = ms_MonitoredInfo s
  | None => ∃ now, mr_MonitoredInfo r = mkMonitoredInfo HostUp (Some (NewTimestamp now)) None ""
  end.

Lemma last_option_list {A} (o : option A) : last (option_list o) = o.
Proof. by destruct o. Qed.

Lemma host_resource_spec now h services :
  resource_of services (host_resource now h (first_services ∅ services)).
Proof.
  unfold resource_of, host_resource. rewrite split_host_checks_spec, first_services_with.
  rewrite decide_False by set_solver. rewrite last_option_list. cbn [mr_Services mr_MonitoredInfo].
  split_and!.
  - transitivity (first_services ∅ services); [apply sublist_filter|apply first_services_sublist].
  - unfold with_name. rewrite list_filter_filter, (list_filter_iff _ (λ _, False)) by naive_solver.
    induction (first_services ∅ services) as [|s l IH]; [done|]. rewrite filter_cons_False by (by intros []). done.
  - intros n Hn. unfold with_name. rewrite list_filter_filter_l by naive_solver.
    fold (with_name n (first_services ∅ services)). rewrite first_services_with. by rewrite decide_False by set_solver.
  - destruct (head (with_name "" services)) as [s|]; [done|]. by eexists.
Qed.

Definition resource_name (r : MonitoredResource) : string := bi_Name (br_BaseInfo (mr_BaseResource r)).

Lemma host_resource_name now h l : resource_name (host_resource now h l) = h.
Proof. unfold host_resource. by destruct (split_host_checks l None). Qed.

(** The pattern and the time of the formats. *)
Definition format_of (dataFormat : DataFormat) : option (regexp * (Timestamp → captures → result error Timestamp)) :=
  if decide (dataFormat = Bronx) then Some (bronxRegexp, bronx_time)
  else if decide (dataFormat = NSCA ∨ dataFormat = NSCAAlt) then Some (nscaRegexp, nsca_time)
  else None.

(** The services the passes collect for a host. *)
Lemma lookup_services ms cs h :
  removeDuplicateServices (foldl (λ sm c, append_to sm (ck_host c)
    (check_service (default [] (foldl (λ mm p, append_list mm p.1 p.2) ∅ ms !! ck_key c)) c)) ∅ cs) !! h =
  if decide (h ∈ ck_host <$> cs) then Some (first_services ∅ (services_of ms cs h)) else None.
Proof.
  set (f := λ c, check_service (default [] (foldl (λ mm p, append_list mm p.1 p.2) ∅ ms !! ck_key c)) c).
  destruct (services_map f cs ∅ h) as [Hd Hs]. rewrite lookup_empty in Hd, Hs. cbn in Hd.
  unfold removeDuplicateServices. rewrite lookup_fmap.
  change (foldl (λ sm c, append_to sm (ck_host c)
    (check_service (default [] (foldl (λ mm p, append_list mm p.1 p.2) ∅ ms !! ck_key c)) c)) ∅ cs)
    with (foldl (λ sm c, append_to sm (ck_host c) (f c)) (∅ : ServicesMap) cs).
  destruct (foldl _ ∅ cs !! h) as [l|]; cbn.
  - rewrite decide_True by (destruct (proj1 Hs) as [[? ?]|]; [by eexists|done|done]).
    cbn in Hd. rewrite Hd. do 2 f_equal. unfold services_of. apply list_fmap_ext. intros _ c _.
    unfold f. by rewrite metrics_map, lookup_empty.
  - rewrite decide_False; [done|]. intros Hin. by destruct (proj2 Hs (or_intror Hin)).
Qed.

Lemma parse_lines_spec `{MapOrder} re line_time now_metrics now_services now_resources lines :
  let parse := parse_lines (getMetrics re line_time now_metrics 0 lines ∅)
    (λ m, sm ← getServices re line_time now_services m 0 lines ∅; Val (removeDuplicateServices sm)) now_resources in
  match all_lines (line_metrics re line_time now_metrics) 0 lines,
        all_lines (line_check re line_time now_services) 0 lines with
  | Fail e, _ => parse = Ret (Fail e)
  | Val _, Fail e => parse = Ret (Fail e)
  | Val ms, Val cs =>
      ∃ rs, parse = Ret (Val rs) ∧ NoDup (resource_name <$> rs) ∧
        (∀ h, h ∈ resource_name <$> rs ↔ h ∈ ck_host <$> cs) ∧
        Forall (λ r, resource_of (services_of ms cs (resource_name r)) r) rs
  end.
Proof.
  intros parse. subst parse. unfold parse_lines. rewrite getMetrics_eq. cbn [mbind outcome_bind].
  destruct (all_lines (line_metrics re line_time now_metrics) 0 lines) as [ms|e]; [|done].
  cbn [mbind result_bind]. rewrite getServices_eq.
  destruct (all_lines (line_check re line_time now_services) 0 lines) as [cs|e]; [|done].
  cbn [mbind result_bind]. eexists. split; [reflexivity|].
  set (sm := removeDuplicateServices _).
  assert (resource_name <$> imap (λ i kv, host_resource (now_resources i) kv.1 kv.2) (map_order sm) =
          (map_order sm).*1) as Hnames.
  { rewrite fmap_imap, <-imap_const. apply imap_ext. intros i kv _. apply host_resource_name. }
  split_and!.
  - rewrite Hnames. apply NoDup_map_order.
  - intros h. rewrite Hnames. split.
    + intros ([h' l] & -> & Hin%elem_of_map_order)%list_elem_of_fmap. unfold sm in Hin.
      rewrite lookup_services in Hin. by case_decide.
    + intros Hh. apply list_elem_of_fmap. exists (h, first_services ∅ (services_of ms cs h)).
      split; [done|]. apply elem_of_map_order. unfold sm. by rewrite lookup_services, decide_True.
  - apply Forall_forall. intros r (i & [h l] & -> & Hin)%elem_of_lookup_imap.
    apply list_elem_of_lookup_2, elem_of_map_order in Hin. unfold sm in Hin. rewrite lookup_services in Hin.
    case_decide; [|done]. injection Hin as <-. rewrite host_resource_name. apply host_resource_spec.
Qed.

(** ** Properties *)

(** C25: A payload is parsed as a whole: the first line that does not match, or whose
    time, status or performance data is invalid, makes an error and no resource.
    Otherwise there is one resource for each host of the lines.  Its services are
    those of the lines of the host in their order, of the lines with the same
    service the first, with the metrics of every line that has the same key
    "host:service"; the first line without a service name gives the status of the
    host, which is up at the time of the call when there is none. *)
Theorem Parse_spec `{MapOrder} (now_metrics now_services now_resources : nat → Timestamp)
    (payload : string) (dataFormat : DataFormat) :
  let parse := Parse now_metrics now_services now_resources payload dataFormat in
  let lines := payload_lines payload in
  match format_of dataFormat with
  | None => parse = Ret (Fail ErrUnknownMetricFormat)
  | Some (re, line_time) =>
      match all_lines (line_metrics re line_time now_metrics) 0 lines,
            all_lines (line_check re line_time now_services) 0 lines with
      | Fail e, _ => parse = Ret (Fail e)
      | Val _, Fail e => parse = Ret (Fail e)
      | Val ms, Val cs =>
          ∃ rs, parse = Ret (Val rs) ∧ NoDup (resource_name <$> rs) ∧
            (∀ h, h ∈ resource_name <$> rs ↔ h ∈ ck_host <$> cs) ∧
            Forall (λ r, resource_of (services_of ms cs (resource_name r)) r) rs
      end
  end.
Proof.
  intros parse lines. subst parse. unfold Parse, format_of. fold lines.
  repeat case_decide; [apply parse_lines_spec|apply parse_lines_spec|done].
Qed.

(** The time an "nsca" line gives, if it has one that is a number. *)
Definition time_or (now : Timestamp) (ts : option string) : Timestamp :=
  match getTime (default "" ts) with Val t => t | Fail _ => NewTimestamp now end.

Lemma nsca_check (now : nat → Timestamp) i ts resName svcName status msg sp1 sp2 perf st :
  (∀ f, ts = Some f → clean f) → clean resName → clean svcName → clean status → msg_ok msg sp1 sp2 perf →
  getStatus status = Val st →
  line_check nscaRegexp nsca_time now i (nsca_line ts resName svcName status (msg_text msg sp1 sp2 perf)) =
  Val (mkCheck resName svcName st (time_or (now i) ts) msg).
Proof.
  intros Hts Hr Hsv Hst Hmsg Hstatus. unfold line_check. rewrite nsca_captures by done.
  unfold nsca_time, time_or, capture. destruct ts as [ts|]; cbn [optional_capture]; simplify_map_eq;
    cbn [default option_map from_option id].
  - destruct (decide (ts = "")) as [->|Hne]; cbn; [by rewrite Hstatus|]. destruct (getTime ts); cbn; by rewrite Hstatus.
  - cbn. by rewrite Hstatus.
Qed.

(** A line of either format whose fields have no semicolon, bar or line break is
    read as the check it was written for: an "nsca" line with or without a time, a
    "bronx" line with or without a service, and any white space around the bar. *)
Theorem clean_line_check (now : nat → Timestamp) (i : nat) (ts resName svcName status msg sp1 sp2 perf : string)
    (st : MonitorStatus) :
  clean ts → clean resName → clean svcName → clean status → msg_ok msg sp1 sp2 perf → getStatus status = Val st →
  let rest := msg_text msg sp1 sp2 perf in
  let check := mkCheck resName svcName st in
  line_check nscaRegexp nsca_time now i (nsca_line None resName svcName status rest) =
    Val (check (NewTimestamp (now i)) msg) ∧
  line_check nscaRegexp nsca_time now i (nsca_line (Some ts) resName svcName status rest) =
    Val (check (time_or (now i) (Some ts)) msg) ∧
  (∀ type t, type = "H"%char ∨ type = "S"%char → getTime ts = Val t →
     line_check bronxRegexp bronx_time now i (bronx_line type ts resName (Some svcName) status rest) =
       Val (check t msg) ∧
     line_check bronxRegexp bronx_time now i (bronx_line type ts resName None status rest) =
       Val (mkCheck resName "" st t msg)).
Proof.
  intros Hts Hr Hsv Hst Hmsg Hstatus rest check. subst rest check. split_and!.
  - by rewrite nsca_check with (st := st).
  - rewrite nsca_check with (st := st); try done. by intros f [= <-].
  - intros type t Htype Ht. unfold line_check. split; (rewrite bronx_captures by (intros; by simplify_eq || done));
      unfold bronx_time, capture; cbn [optional_capture]; simplify_map_eq; cbn; rewrite Ht; cbn;
      by rewrite Hstatus.
Qed.

(** An item of the performance data "label=value unit;warn;crit;" with an optional
    minimum and maximum is a metric of the label with the value and both
    thresholds, an empty number being 0.  Whatever the unit of the item, the unit
    of the metric is the megabyte. *)
Theorem perf_item_metric (t : Timestamp) (label : string) (val warn crit : string * string)
    (extra : list (string * string)) (v w c : float64) :
  all_class Any label = true → no_byte "="%char label = true →
  Forall (λ n, number_ok n.1 n.2) [val; warn; crit] →
  length extra ≤ 2 → Forall (λ n, number_ok n.1 n.2) extra →
  perf_number val.1 = Val v → perf_number warn.1 = Val w → perf_number crit.1 = Val c →
  item_metric t (perf_text label val warn crit extra) =
  Val (mkTimeSeries (Name label "") Value (Some (mkTimeInterval (Some t) (Some t))) (Some (tv_double v)) ∅ MB
         [mkThresholdValue Warning (Name label "" +:+ "_wn") (Some (tv_double w));
          mkThresholdValue Critical (Name label "" +:+ "_cr") (Some (tv_double c))] Query "").
Proof.
  intros Hl1 Hl2 Hnum Hlen Hextra Hv Hw Hc.
  destruct (perf_captures label val warn crit extra Hl1 Hl2 Hnum Hlen Hextra) as (m & Hm & H1 & H2 & H3 & H4).
  unfold item_metric, item_numbers. rewrite Hm, H1, H2, H3, H4, Hv, Hw, Hc. reflexivity.
Qed.

(** ** Witnesses *)

Lemma clean_of f : all_class Any f && no_byte semicolon f && no_byte bar f = true → clean f.
Proof. by intros [[? ?]%andb_true_iff ?]%andb_true_iff. Qed.

Lemma number_of v u d a :
  all_class Any v && no_byte semicolon v && all_class NonDigit u && no_byte semicolon u && is_digit d = true →
  v = a +:+ String d "" → number_ok v u.
Proof.
  intros ([[[? ?]%andb_true_iff ?]%andb_true_iff ?]%andb_true_iff & ?)%andb_true_iff Hv.
  split; [done|right; by exists a, d|done].
Qed.

Definition at_zero (i : nat) : Timestamp := mkTimestamp 0 0 UTCLoc.

Lemma clean_line_check_witness :
  line_check bronxRegexp bronx_time at_zero 0 "H;1628546296;demo;0;UP - demo (21:58:16) | result=21ms;;;0;" =
  Val (mkCheck "demo" "" ServiceOk (mkTimestamp 1628546296 0 UTCLoc) "UP - demo (21:58:16)").
Proof.
  refine (proj2 (proj2 (proj2 (clean_line_check at_zero 0 "1628546296" "demo" "" "0" "UP - demo (21:58:16)" " " " "
            "result=21ms;;;0;" ServiceOk _ _ _ _ _ _)) "H"%char _ _ _)); [apply clean_of; reflexivity..| | |by left|];
    [|reflexivity|reflexivity].
  split; [apply clean_of; reflexivity| |split; reflexivity|split; reflexivity|split; reflexivity|reflexivity].
  right. exists "UP - demo (21:58:16", ")"%char. split; reflexivity.
Defined.

Lemma perf_item_metric_witness :
  ∃ x y z, item_metric (at_zero 0) "load1=2.5ms;3;4%;0;" =
  Val (mkTimeSeries (Name "load1" "") Value (Some (mkTimeInterval (Some (at_zero 0)) (Some (at_zero 0))))
         (Some (tv_double x)) ∅ MB
         [mkThresholdValue Warning (Name "load1" "" +:+ "_wn") (Some (tv_double y));
          mkThresholdValue Critical (Name "load1" "" +:+ "_cr") (Some (tv_double z))] Query "").
Proof.
  do 3 eexists.
  apply (perf_item_metric (at_zero 0) "load1" ("2.5", "ms") ("3", "") ("4", "%") [("0", "")]);
    [reflexivity|reflexivity| |simpl; lia| |vm_compute; reflexivity..].
  - apply Forall_cons_2; [|apply Forall_cons_2; [|apply Forall_cons_2; [|by apply Forall_nil_2]]].
    + apply (number_of "2.5" "ms" "5"%char "2."); reflexivity.
    + apply (number_of "3" "" "3"%char ""); reflexivity.
    + apply (number_of "4" "%" "4"%char ""); reflexivity.
  - apply Forall_cons_2; [|by apply Forall_nil_2]. apply (number_of "0" "" "0"%char ""); reflexivity.
Defined.

(** A payload of three lines: a service twice, and its host. *)
Definition two_lines (line1 line2 : string) : string := line1 +:+ String (ascii_of_nat 10) line2.

Definition services_sent (r : outcome (result error (list MonitoredResource))) : list (string * list (string * nat)) :=
  match r with
  | Ret (Val rs) => (λ r, (resource_name r, (λ s, (svc_name s, length (ms_Metrics s))) <$> mr_Services r)) <$> rs
  | _ => []
  end.

(** A message with a semicolon shifts the fields of an "nsca" line, and the line is
    an error of the whole payload. *)
Lemma semicolon_in_message `{MapOrder} nm ns nr :
  Parse nm ns nr (two_lines "host;disk;0;OK|used=1;2;3;" "host;cpu;0;OK; load is fine|load=1;2;3;") NSCA =
  Ret (Fail (Opaque "unknown status provided")).
Proof. vm_compute. reflexivity. Qed.

(** A line without performance data is an error of the whole payload, although a
    host check usually has none. *)
Lemma no_performance_data `{MapOrder} nm ns nr :
  Parse nm ns nr (two_lines "host;disk;0;OK|used=1;2;3;" "host;;0;UP|") NSCA =
  Ret (Fail (Errorf_w ErrInvalidMetricFormat "perf data")) ∧
  Parse nm ns nr "host;disk;0;OK" NSCA = Ret (Fail (Errorf_w ErrInvalidMetricFormat "resource")).
Proof. split; vm_compute; reflexivity. Qed.

(** Hosts and services whose names have colons can share a key: both services get
    the metrics of both. *)
Lemma keys_collide nm ns nr :
  services_sent (Parse (H := sorted_order) nm ns nr (two_lines "a:b;c;0;OK|x=1;2;3;" "a;b:c;0;OK|y=1;2;3;") NSCA) =
  [("a:b", [("c", 2)]); ("a", [("b:c", 2)])].
Proof. vm_compute. reflexivity. Qed.
