(* ===== verification/Nsca.v ===== *)
(** connectors/nsca (nsca.go and nsca/nsca.go) and connectors/checker: check results
    from HTTP requests, from NSCA packets and from scheduled commands.

    The NSCA library (packets' decryption and checksum), the scheduler's parser and
    the commands are arguments. *)

From S2P Require Import Prelude.
From stdpp Require Import pretty.
From S2P Require Import GoString.
From S2P Require Import GoFloat.
From S2P Require Import Errors.
From S2P Require Import Timestamp.
From S2P Require Import Transit.
From S2P Require Import Codec.
From S2P Require Import Batcher.
From S2P Require Import Http.
From S2P Require Import Nats.
From S2P Require Import Tracer.
From S2P Require Import TransitService.
From S2P Require Import Expr.
From S2P Require Import Connectors.
From S2P Require Import NscaParser.

Local Open Scope string_scope.
Local Open Scope nat_scope.

(** ** Packets *)

Definition int16 (z : Z) : Z := swrap 16 z.
Definition uint16 (z : Z) : Z := uwrap 16 z.

Record DataPacket := mkDataPacket {
  p_Version : Z;
  p_Crc : Z;
  p_Timestamp : Z;
  p_State : Z;
  p_HostName : string;
  p_Service : string;
  p_PluginOutput : string;
}.

(** [binary.BigEndian.Uint32] and [Uint16] of a slice of that size. *)
Fixpoint be_value (acc : Z) (s : string) : Z :=
  match s with
  | "" => acc
  | String c s' => be_value (acc * 256 + Z.of_N (N_of_ascii c)) s'
  end.

(** The text before the first zero byte. *)
Definition nul : ascii := ascii_of_nat 0.
Definition until_nul (s : string) : string := List.hd "" (Split s (String nul "")).

Section packet.
(** [Decrypt] in place and [CalculateCrc] of the library; [spare] is the memory of
    the read buffer after the packet, within its capacity. *)
Context (Decrypt : string → result error string) (CalculateCrc : string → Z) (spare : string).

(** A slice of the buffer between constant bounds: Go checks them against the
    capacity. *)
Definition buffer_slice (packet : string) (i j : Z) : outcome string := str_slice (packet +:+ spare) i j.

(** [DataPacketExt.Read]; [conn] is what is read from the connection. *)
Definition Read (conn : result error string) : outcome (result error DataPacket) :=
  match (packet ← conn; Decrypt packet) with
  | Fail e => Ret (Fail e)
  | Val packet =>
      crc ← buffer_slice packet 4 8;
      if decide (be_value 0 crc ≠ CalculateCrc packet)
      then Ret (Fail (Opaque "invalid CRC32: possibly due to mismatch password or crypto algorithm"))
      else
        timestamp ← buffer_slice packet 8 12;
        version ← buffer_slice packet 0 2;
        state ← buffer_slice packet 12 14;
        host ← buffer_slice packet 14 78;
        service ← buffer_slice packet 78 206;
        output ← str_slice packet 206 (slen packet);
        Ret (Val (mkDataPacket (int16 (be_value 0 version)) (be_value 0 crc) (be_value 0 timestamp)
                    (int16 (be_value 0 state)) (until_nul host) (until_nul service) (until_nul output)))
  end.
End packet.

(** [AdaptHandler]: the text of a packet as an "nsca" payload. *)
Definition packet_payload (p : DataPacket) : string :=
  let s := ReplaceAll (p_PluginOutput p) "\n" (String (ascii_of_nat 10) "") in
  p_HostName p +:+ String semicolon (p_Service p +:+ String semicolon
    (FormatInt (p_State p) +:+ String semicolon s)).

(** ** The server *)

(** [Start]: the address and the encryption from the environment; a port or a method
    that is no number is ignored, a number that is no port is cut to 16 bits. *)
Definition Start_config (NSCA_HOST NSCA_PORT NSCA_ENCRYPT NSCA_PASSWORD : string) (EncryptNone : Z)
  : string * Z * Z * string :=
  let atoi s d f := if decide (s = "") then d else match ParseInt s with Val i => f i | Fail _ => d end in
  (if decide (NSCA_HOST = "") then "0.0.0.0" else NSCA_HOST,
   atoi NSCA_PORT 5667%Z uint16, atoi NSCA_ENCRYPT EncryptNone id, NSCA_PASSWORD).

(** [initializeEntrypoints]: method, path and format of the handler.  The slice is
    made with six zero entries before the three are appended; the controller makes
    no route of an entry without a method. *)
Definition initializeEntrypoints : list (string * string * option DataFormat) :=
  (replicate 6 ("", "", None) ++
   ((λ dataFormat, ("POST", "check/" +:+ dataFormat, Some dataFormat)) <$> [Bronx; NSCA; NSCAAlt]))%list.

(** What a round of the accept loop meets. *)
Inductive accept (C : Type) :=
| Cancelled
| DeadlineError (e : error)
| AcceptTimeout
| AcceptError (e : error)
| Accepted (c : C).
Arguments Cancelled {C}. Arguments DeadlineError {C} _. Arguments AcceptTimeout {C}.
Arguments AcceptError {C} _. Arguments Accepted {C} _.

(** [StartServerWithContext]: the connections that got a handler, and the result of
    the loop, [None] while it runs.  After an error other than a timeout the method
    of a nil connection is deferred. *)
Fixpoint accept_loop {C} (rounds : list (accept C)) : outcome (list C * option (option error)) :=
  match rounds with
  | [] => Ret ([], None)
  | Cancelled :: _ => Ret ([], Some None)
  | DeadlineError e :: _ => Ret ([], Some (Some e))
  | AcceptTimeout :: rounds => accept_loop rounds
  | AcceptError _ :: _ => Panic "invalid memory address or nil pointer dereference"
  | Accepted c :: rounds => '(cs, r) ← accept_loop rounds; Ret (c :: cs, r)
  end.

(** ** Processing *)

Section connector.
Context `{MapOrder} {AC : TokenCache} (BM : BatchBuilder).
Context (FormatUUID : string → string) (GZip : string → result error string).
Context {JM : JsonCodec ResourcesWithServicesRequest}.
Context (environment : nat → call_env) (suppress : Suppress) (conn : Connector) (natsConfig : option Config).
Context (gval : string → Vars → result error gval_value) (fuel : nat) (CheckInterval : Z).
Context (now_metrics now_services now_resources : nat → Timestamp).

#[local] Abbreviation send :=
  (SendMetrics BM FormatUUID GZip environment suppress conn natsConfig gval fuel CheckInterval).

Definition processData (s : TransitService) (ctx : context) (payload : string) (dataFormat : DataFormat)
  : run (TransitService * option error) :=
  parsed ← lift_o (Parse now_metrics now_services now_resources payload dataFormat);
  match parsed with
  | Fail e => RRet (s, Some e)
  | Val monitoredResources => send s ctx monitoredResources None
  end.

(** The handler of an entry point: [body] is what [GetRawData] reads. *)
Definition EntrypointHandler (dataFormat : DataFormat) (s : TransitService) (body : result error string)
  : run (TransitService * (Z * option string)) :=
  match body with
  | Fail e => RRet (s, (400, Some (Error e)))%Z
  | Val payload =>
      '(s, err) ← processData s None payload dataFormat;
      RRet (s, match err with Some e => (400, Some (Error e)) | None => (200, None) end)%Z
  end.

(** The handler of packets: an error is logged and not returned. *)
Definition NSCAHandler (s : TransitService) (p : DataPacket) : run (TransitService * option error) :=
  '(s, _) ← processData s None (packet_payload p) NSCA; RRet (s, None).

(** [HandleClientExt]: [init] is the error of the initialization packet. *)
Definition HandleClientExt (Decrypt : string → result error string) (CalculateCrc : string → Z) (spare : string)
    (s : TransitService) (init : option error) (packet : result error string)
  : run (TransitService * option error) :=
  match init with
  | Some e => RRet (s, Some e)
  | None =>
      dp ← lift_o (Read Decrypt CalculateCrc spare packet);
      match dp with
      | Fail e => RRet (s, Some e)
      | Val dp => NSCAHandler s dp
      end
  end.

(** ** The checker: scheduled commands *)

Record ScheduleTask := mkScheduleTask {
  st_CombinedOutput : bool;
  st_Command : list string;
  st_Cron : string;
  st_DataFormat : DataFormat;
  st_Environment : list string;
}.

Definition ExtConfig := list ScheduleTask.

Fixpoint Validate (cfg : ExtConfig) : option error :=
  match cfg with
  | [] => None
  | task :: cfg =>
      match st_Command task with
      | [] => Some (Opaque "ExtConfig Schedule item error: Command is empty")
      | _ => Validate cfg
      end
  end.

(** The variables of the package: the configuration, its checksum ([nil] is empty),
    and the scheduler's entries and whether it was started. *)
Record checker := mkChecker {
  ck_extConfig : ExtConfig;
  ck_chksum : string;
  ck_entries : list ScheduleTask;
  ck_started : bool;
}.

Definition init_checker : checker := mkChecker [] "" [] false.

(** The parser of the scheduler, and the checksum of a configuration. *)
Context (cron_ok : string → bool) (hashsum : ExtConfig → result error string).

(** The old entries are removed; a task with a bad schedule is left out. *)
Definition restartScheduler (c : checker) (tasks : list ScheduleTask) : checker :=
  let entries := filter (λ t, cron_ok (st_Cron t) = true) tasks in
  mkChecker (ck_extConfig c) (ck_chksum c) entries
    (match entries with [] => ck_started c | _ => true end).

(** [configHandler] of a parsed configuration, or of the error of the parser. *)
Definition configHandler (c : checker) (config : result error ExtConfig) : checker :=
  match config with
  | Fail _ => c
  | Val tExt =>
      match Validate tExt with
      | Some _ => c
      | None =>
          let c := mkChecker tExt (ck_chksum c) (ck_entries c) (ck_started c) in
          let chk := hashsum tExt in
          let c := match chk with
                   | Fail _ => restartScheduler c tExt
                   | Val b => if decide (b = ck_chksum c) then c else restartScheduler c tExt
                   end in
          match chk with
          | Fail _ => c
          | Val b => mkChecker (ck_extConfig c) b (ck_entries c) (ck_started c)
          end
      end
  end.

(** [taskHandler]: [exec combined env program args] is the output of the command. *)
Definition taskHandler (exec : bool → list string → string → list string → result error string)
    (s : TransitService) (task : ScheduleTask) : run (TransitService * option error) :=
  match st_Command task with
  | [] => RPanic "index out of range"
  | program :: args =>
      match exec (st_CombinedOutput task) (st_Environment task) program args with
      | Fail e => RRet (s, Some e)
      | Val res => processData s None res (st_DataFormat task)
      end
  end.
End connector.

(** ** Lemmas *)

Lemma str_take_all s n : String.length s ≤ n → str_take n s = s.
Proof.
  revert n. induction s as [|c s IH]; intros [|n] Hn; cbn in *; try done; [lia|]. by rewrite IH by lia.
Qed.

Lemma str_slice_skip a t i j n :
  String.length a = n → (Z.of_nat n ≤ i)%Z →
  str_slice (a +:+ t) i j = str_slice t (i - Z.of_nat n) (j - Z.of_nat n).
Proof.
  intros <- Hi. unfold str_slice, slen. rewrite length_str_app.
  destruct (decide (0 ≤ i ≤ j ∧ j ≤ Z.of_nat (String.length a + String.length t))%Z) as [Hd|Hd].
  - rewrite decide_True by lia. do 2 f_equal; [lia|].
    replace (Z.to_nat i) with (String.length a + Z.to_nat (i - Z.of_nat (String.length a))) by lia.
    generalize (Z.to_nat (i - Z.of_nat (String.length a))) as k. intros k. clear.
    induction a as [|c a IH]; [done|]. by cbn.
  - by rewrite decide_False by lia.
Qed.

Lemma str_slice_head b c j : j = slen b → str_slice (b +:+ c) 0 j = Ret b.
Proof.
  intros ->. unfold str_slice, slen. rewrite length_str_app. rewrite decide_True by lia.
  replace (Z.to_nat (_ - _)) with (String.length b) by lia. f_equal. apply str_take_app.
Qed.

Lemma str_slice_all b j : j = slen b → str_slice b 0 j = Ret b.
Proof. intros. rewrite <-(str_app_nil_r b) at 1. by apply str_slice_head. Qed.

Lemma str_slice_short s i j : (slen s < j)%Z → is_panic (str_slice s i j) = true.
Proof. unfold str_slice, slen. intros. by rewrite decide_False by lia. Qed.

Lemma until_nul_text s junk : no_byte nul s = true → until_nul (s +:+ String nul junk) = s.
Proof.
  unfold until_nul, Split. intros Hs.
  assert (∀ s, no_byte nul s = true →
    (split_go 0 (s +:+ String nul junk) (String nul "")).1 = s) as H.
  { clear s Hs. induction s as [|c s IH]; intros Hs.
    - cbn [String.append split_go].
      rewrite (prefix_app (String nul "") junk : String.prefix (String nul "") (String nul junk) = true).
      by destruct (split_go _ _ _).
    - unfold no_byte in Hs. cbn [str_forallb] in Hs. apply andb_true_iff in Hs as [Hc Hs].
      apply negb_true_iff, bool_decide_eq_false in Hc. specialize (IH Hs).
      cbn [String.append split_go String.prefix].
      destruct (Ascii.ascii_dec nul c) as [|_]; [done|].
      destruct (split_go 0 (s +:+ _) _) as [q r]. cbn in IH. by subst q. }
  specialize (H s Hs). destruct (split_go _ _ _) as [q r]. done.
Qed.

Lemma until_nul_full s : no_byte nul s = true → until_nul s = s.
Proof.
  unfold until_nul, Split. intros Hs.
  assert (split_go 0 s (String nul "") = (s, [])) as ->; [|done].
  induction s as [|c s IH]; [done|].
  unfold no_byte in Hs. cbn [str_forallb] in Hs. apply andb_true_iff in Hs as [Hc Hs].
  apply negb_true_iff, bool_decide_eq_false in Hc. cbn [split_go String.prefix].
  destruct (Ascii.ascii_dec nul c) as [|_]; [done|]. by rewrite (IH Hs).
Qed.

(** ** Properties *)

(** The layout of a decrypted packet. *)
Definition packet_bytes (version pad crc timestamp state host service output : string) : string :=
  version +:+ (pad +:+ (crc +:+ (timestamp +:+ (state +:+ (host +:+ (service +:+ output)))))).

(** A packet whose checksum agrees is read by its layout, and a packet shorter than
    the layout never is: with the right checksum it panics, and so does the server,
    since nothing recovers the panic of a connection. *)
Theorem Read_packet (Decrypt : string → result error string) (CalculateCrc : string → Z)
    (spare sent version pad crc timestamp state host service output : string) :
  (Decrypt sent = Val (packet_bytes version pad crc timestamp state host service output) →
   String.length <$> [version; pad; crc; timestamp; state; host; service] = [2; 2; 4; 4; 2; 64; 128] →
   be_value 0 crc = CalculateCrc (packet_bytes version pad crc timestamp state host service output) →
   Read Decrypt CalculateCrc spare (Val sent) =
   Ret (Val (mkDataPacket (int16 (be_value 0 version)) (be_value 0 crc) (be_value 0 timestamp)
               (int16 (be_value 0 state)) (until_nul host) (until_nul service) (until_nul output)))) ∧
  (∀ packet, Decrypt sent = Val packet → String.length packet < 206 →
     (∀ dp, Read Decrypt CalculateCrc spare (Val sent) ≠ Ret (Val dp)) ∧
     (8 ≤ String.length (packet +:+ spare) →
      be_value 0 (str_take 4 (str_drop 4 (packet +:+ spare))) = CalculateCrc packet →
      is_panic (Read Decrypt CalculateCrc spare (Val sent)) = true)).
Proof.
  split.
  - intros Hd Hlen Hcrc. injection Hlen as H1 H2 H3 H4 H5 H6 H7.
    unfold Read. cbn [mbind result_bind]. rewrite Hd. unfold buffer_slice, packet_bytes in *.
    rewrite !str_app_assoc.
    unfold slen. rewrite !length_str_app, H1, H2, H3, H4, H5, H6, H7.
    repeat first [rewrite str_slice_head by (unfold slen; lia)
                 |erewrite str_slice_skip by (eassumption || lia); cbn [Z.of_nat Z.sub]].
    cbn [mbind outcome_bind]. rewrite decide_False by (intros Hne; by apply Hne).
    repeat first [rewrite str_slice_head by (unfold slen; lia)
                 |erewrite str_slice_skip by (eassumption || lia)].
    rewrite str_slice_all by (unfold slen; lia). done.
  - intros packet Hd Hlen. unfold Read. cbn [mbind result_bind]. rewrite Hd.
    assert (∀ A (f : string → outcome A), is_panic (str_slice packet 206 (slen packet) ≫= f) = true) as Htail.
    { intros A f. unfold str_slice, slen. by rewrite decide_False by lia. }
    assert (∀ A (m : outcome string) (f : string → outcome A),
              (∀ a, is_panic (f a) = true) → is_panic (m ≫= f) = true) as Hbind by (intros A [] f Hf; [apply Hf|done]).
    split.
    + intros dp. destruct (buffer_slice spare packet 4 8) as [b|]; [|done]. cbn [mbind outcome_bind].
      case_decide; [done|]. intros Hr.
      match type of Hr with ?m = _ => assert (is_panic m = true) as Hp end; [|by rewrite Hr in Hp].
      do 5 (apply Hbind; intros ?). apply Htail.
    + intros Hspare Hcrc.
      assert (buffer_slice spare packet 4 8 = Ret (str_take 4 (str_drop 4 (packet +:+ spare)))) as ->.
      { unfold buffer_slice, str_slice. by rewrite decide_True by lia. }
      cbn [mbind outcome_bind]. rewrite decide_False by (intros Hne; by apply Hne).
      do 5 (apply Hbind; intros ?). apply Htail.
Qed.

(** A packet without line breaks in its output gives one line, which is read as the
    check of the packet. *)
Theorem packet_check (now : nat → Timestamp) (version crc timestamp state : Z)
    (host service msg sp1 sp2 perf : string) (st : MonitorStatus) :
  clean host → clean service → clean (FormatInt state) → msg_ok msg sp1 sp2 perf →
  getStatus (FormatInt state) = Val st →
  Index (msg_text msg sp1 sp2 perf) "\n" = None →
  line_check nscaRegexp nsca_time now 0
    (packet_payload (mkDataPacket version crc timestamp state host service (msg_text msg sp1 sp2 perf))) =
  Val (mkCheck host service st (NewTimestamp (now 0)) msg).
Proof.
  intros Hh Hs Hst Hmsg Hstatus Hindex. unfold packet_payload. cbn [p_PluginOutput p_HostName p_Service p_State].
  rewrite ReplaceAll_absent by done.
  change (line_check nscaRegexp nsca_time now 0
    (nsca_line None host service (FormatInt state) (msg_text msg sp1 sp2 perf)) =
    Val (mkCheck host service st (NewTimestamp (now 0)) msg)).
  by rewrite nsca_check with (st := st).
Qed.

(** Every connection before the end of the loop is handled, in order; the loop ends
    with the context, or with the error of the deadline, and panics on an error of
    the listener that is not a timeout. *)
Theorem accept_loop_spec {C} (rounds : list (accept C)) :
  (∃ cs, accept_loop rounds = Ret (cs, None) ∧
         Forall (λ r, r = AcceptTimeout ∨ ∃ c, r = Accepted c) rounds ∧
         cs = omap (λ r, match r with Accepted c => Some c | _ => None end) rounds) ∨
  (∃ before r rest, rounds = (before ++ r :: rest)%list ∧
     Forall (λ r, r = AcceptTimeout ∨ ∃ c, r = Accepted c) before ∧
     let cs := omap (λ r, match r with Accepted c => Some c | _ => None end) before in
     match r with
     | Cancelled => accept_loop rounds = Ret (cs, Some None)
     | DeadlineError e => accept_loop rounds = Ret (cs, Some (Some e))
     | AcceptError _ => is_panic (accept_loop rounds) = true
     | _ => False
     end).
Proof.
  induction rounds as [|r rounds IH]; [left; by exists []|].
  destruct r as [|e| |e|c].
  - right. by exists [], Cancelled, rounds.
  - right. by exists [], (DeadlineError e), rounds.
  - destruct IH as [(cs & H1 & H2 & H3)|(before & r & rest & -> & Hb & Hr)]; [left|right].
    + exists cs. split_and!; [done| |done]. constructor; [by left|done].
    + exists (AcceptTimeout :: before), r, rest. split_and!; [done| |].
      * constructor; [by left|done].
      * by destruct r.
  - right. by exists [], (AcceptError e), rounds.
  - destruct IH as [(cs & H1 & H2 & H3)|(before & r & rest & -> & Hb & Hr)]; [left|right].
    + exists (c :: cs). cbn [accept_loop]. rewrite H1. split_and!; [done| |].
      * constructor; [right; by exists c|done].
      * cbn. by rewrite H3.
    + exists (Accepted c :: before), r, rest. split_and!; [done| |].
      * constructor; [right; by exists c|done].
      * cbn [app accept_loop]. destruct r; try done; by destruct (accept_loop _) as [[]|]; simplify_eq/=.
Qed.

Section checker_properties.
Context (cron_ok : string → bool) (hashsum : ExtConfig → result error string).

Lemma Validate_commands cfg : Validate cfg = None ↔ Forall (λ t, st_Command t ≠ []) cfg.
Proof.
  induction cfg as [|t cfg IH]; cbn [Validate]; [done|].
  rewrite Forall_cons, <-IH. destruct (st_Command t); naive_solver.
Qed.

Lemma restart_started c tasks :
  ck_entries (restartScheduler cron_ok c tasks) ≠ [] → ck_started (restartScheduler cron_ok c tasks) = true.
Proof. unfold restartScheduler. by destruct (filter _ tasks). Qed.

#[local] Abbreviation handle := (configHandler cron_ok hashsum).
#[local] Abbreviation scheduled := (filter (λ t, cron_ok (st_Cron t) = true)).

(** The last valid configuration. *)
Definition last_valid (configs : list (result error ExtConfig)) : ExtConfig :=
  default [] (last (omap (λ c, match c with
    | Val cfg => if decide (Validate cfg = None) then Some cfg else None
    | Fail _ => None
    end) configs)).

(** Whatever configurations arrive, the scheduler runs the tasks of the last valid
    one that have a valid schedule, it has a command for each, and it is running
    once there is a task: a configuration with the checksum of the last one changes
    nothing, and the checksum of different configurations differs. *)
Theorem checker_schedule (configs : list (result error ExtConfig)) :
  (∀ cfg, ∃ b, hashsum cfg = Val b ∧ b ≠ "") →
  (∀ cfg1 cfg2, hashsum cfg1 = hashsum cfg2 → cfg1 = cfg2) →
  let c := foldl handle init_checker configs in
  ck_extConfig c = last_valid configs ∧
  ck_entries c = scheduled (last_valid configs) ∧
  Forall (λ t, st_Command t ≠ []) (ck_entries c) ∧
  (ck_entries c ≠ [] → ck_started c = true).
Proof using Type.
  intros Htotal Hinj.
  assert (let c := foldl handle init_checker configs in
    ck_extConfig c = last_valid configs ∧
    (ck_chksum c = "" ∧ ck_extConfig c = [] ∨ hashsum (ck_extConfig c) = Val (ck_chksum c)) ∧
    ck_entries c = scheduled (ck_extConfig c) ∧
    Forall (λ t, st_Command t ≠ []) (ck_extConfig c) ∧
    (ck_entries c ≠ [] → ck_started c = true)) as Hinv.
  { induction configs as [|cfg configs IH] using rev_ind; [split_and!; [done|by left|done|by apply Forall_nil_2|done]|].
    rewrite foldl_app. cbn [foldl]. set (c := foldl handle init_checker configs) in *.
    destruct IH as (H1 & H2 & H3 & H4 & H5).
    assert (∀ o, last_valid (configs ++ [o])%list =
      match o with Val cfg => if decide (Validate cfg = None) then cfg else last_valid configs
      | Fail _ => last_valid configs end) as Hlast.
    { intros o. unfold last_valid. rewrite omap_app. cbn. destruct o as [cfg'|]; [|by rewrite app_nil_r].
      case_decide; [by rewrite last_snoc|by rewrite app_nil_r]. }
    rewrite Hlast. unfold configHandler. destruct cfg as [cfg|e]; [|done].
    destruct (Validate cfg) as [e|] eqn:Hv; [by rewrite decide_False|]. rewrite decide_True by done.
    destruct (Htotal cfg) as (b & Hb & Hne). rewrite Hb. cbn [ck_chksum].
    apply Validate_commands in Hv. destruct (decide (b = ck_chksum c)) as [->|Hn]; cbn.
    - destruct H2 as [[H2 _]|H2]; [congruence|].
      assert (ck_extConfig c = cfg) as Hc by (apply Hinj; congruence).
      split_and!; [done|by right|by rewrite H3, Hc|done|done].
    - split_and!; [done|by right|done|done|].
      exact (restart_started (mkChecker cfg (ck_chksum c) (ck_entries c) (ck_started c)) cfg). }
  destruct Hinv as (H1 & _ & H3 & H4 & H5). rewrite <-H1. split_and!; [done|done| |done].
  rewrite H3. apply Forall_forall. intros t [_ Ht]%list_elem_of_filter. by eapply Forall_forall in H4.
Qed.
End checker_properties.

(** ** Witnesses *)

Fixpoint nuls (n : nat) : string := match n with O => "" | S n => String nul (nuls n) end.

Lemma Read_packet_witness :
  Read Val (λ _, 0%Z) (nuls 512) (Val (packet_bytes (nuls 2) (nuls 2) (nuls 4) (nuls 4) (nuls 2)
         ("host" +:+ nuls 60) ("disk" +:+ nuls 124) "OK|used=1;2;3;")) =
    Ret (Val (mkDataPacket 0 0 0 0 "host" "disk" "OK|used=1;2;3;")) ∧
  is_panic (Read Val (λ _, 0%Z) (nuls 512) (Val "")) = true.
Proof.
  split.
  - apply (proj1 (Read_packet Val (λ _, 0%Z) (nuls 512)
      (packet_bytes (nuls 2) (nuls 2) (nuls 4) (nuls 4) (nuls 2)
         ("host" +:+ nuls 60) ("disk" +:+ nuls 124) "OK|used=1;2;3;")
      (nuls 2) (nuls 2) (nuls 4) (nuls 4) (nuls 2) ("host" +:+ nuls 60) ("disk" +:+ nuls 124) "OK|used=1;2;3;"));
      reflexivity.
  - apply (proj2 (Read_packet Val (λ _, 0%Z) (nuls 512) "" "" "" "" "" "" "" "" "") "" eq_refl);
      [apply Nat.ltb_lt; reflexivity|apply Nat.leb_le; reflexivity|reflexivity].
Defined.

Lemma packet_check_witness :
  line_check nscaRegexp nsca_time at_zero 0
    (packet_payload (mkDataPacket 3 7 0 1 "host" "disk" "WARNING |used=91%;90;95;")) =
  Val (mkCheck "host" "disk" ServiceWarning (NewTimestamp (at_zero 0)) "WARNING").
Proof.
  apply (packet_check at_zero 3 7 0 1 "host" "disk" "WARNING" " " "" "used=91%;90;95;" ServiceWarning);
    [apply clean_of; reflexivity..| |reflexivity|reflexivity].
  split; [apply clean_of; reflexivity| |split; reflexivity|split; reflexivity|split; reflexivity|reflexivity].
  right. exists "WARNIN", "G"%char. split; reflexivity.
Defined.

#[export] Instance ScheduleTask_eq_dec : EqDecision ScheduleTask.
Proof. solve_decision. Defined.

#[export] Instance ScheduleTask_countable : Countable ScheduleTask.
Proof.
  refine (inj_countable'
    (λ t, (st_CombinedOutput t, st_Command t, st_Cron t, st_DataFormat t, st_Environment t))
    (λ '(a, b, c, d, e), mkScheduleTask a b c d e) _).
  by intros [].
Defined.

(** A checksum without collisions. *)
Definition code_sum (cfg : ExtConfig) : result error string := Val (String "#"%char (pretty (N.pos (encode cfg)))).

Definition ping_task : ScheduleTask := mkScheduleTask false ["ping"; "host"] "0 * * * * *" NSCA [].

Lemma checker_schedule_witness :
  ck_entries (foldl (configHandler (λ _, true) code_sum) init_checker
                [Val [ping_task]; Val [mkScheduleTask false [] "" NSCA []]; Fail (Opaque "bad json")]) = [ping_task].
Proof.
  apply (checker_schedule (λ _, true) code_sum
           [Val [ping_task]; Val [mkScheduleTask false [] "" NSCA []]; Fail (Opaque "bad json")]).
  - intros cfg. by eexists.
  - intros cfg1 cfg2 Heq. unfold code_sum in Heq. injection Heq as Heq. apply (inj pretty) in Heq.
    injection Heq as Heq. by apply (inj encode) in Heq.
Defined.
