(* ===== verification/Mapping.v ===== *)
(** sdk/mapping/mapping.go and its users' preparation of mappings: templates that
    are expanded with the matches of a tag.

    Compiling and matching are an interface, since the patterns come with the
    configuration; the expansion of templates is [regexp.Expand]. *)

From S2P Require Import Prelude.
From S2P Require Import GoString.
From S2P Require Import Errors.

Local Open Scope string_scope.
Local Open Scope nat_scope.

(** ** The interface of compiled patterns *)

(** [regexp.Compile], [FindAllStringSubmatchIndex(content, -1)] and [SubexpNames]. *)
Class Regexps (R : Type) := {
  re_compile : string → result error R;
  re_find_all : R → string → option (list (list Z));
  re_names : R → list string;
}.

(** A submatch is absent, or a slice of the content. *)
Definition valid_index (content : string) (m : list Z) : Prop :=
  ∀ i a b, m !! (2 * i) = Some a → m !! (2 * i + 1) = Some b →
    (a < 0)%Z ∨ (0 ≤ a ≤ b ∧ b ≤ slen content)%Z.

(** What the package documents of the matches. *)
Class RegexpsLaws (R : Type) `{Regexps R} : Prop := {
  re_find_valid : ∀ re content ms m, re_find_all re content = Some ms → m ∈ ms → valid_index content m;
}.

(** ** Expansion *)

Definition digit (c : ascii) : bool := byte_in 48 57 c.
Definition name_byte (c : ascii) : bool :=
  digit c || byte_in 65 90 c || byte_in 97 122 c || bool_decide (c = "_"%char).

Section expand.
(** The bytes of a letter or digit beyond ASCII at the head of a string, 0 for none. *)
Context (wide_letter : string → nat).

(** The length of the name at the head of a string; [skip] bytes of a rune remain. *)
Fixpoint name_length (skip : nat) (s : string) : nat :=
  match s with
  | "" => 0
  | String c s' =>
      match skip with
      | S j => S (name_length j s')
      | O =>
          if byte_in 0 127 c then if name_byte c then S (name_length 0 s') else 0
          else match wide_letter s with O => 0 | S j => S (name_length j s') end
      end
  end.

Fixpoint parse_number (num : Z) (s : string) : Z :=
  match s with
  | "" => num
  | String c s' =>
      if negb (digit c) || bool_decide (10 ^ 8 ≤ num)%Z then -1
      else parse_number (num * 10 + (Z.of_nat (nat_of_ascii c) - 48)) s'
  end.

(** The number a name stands for, -1 if it is a name. *)
Definition group_number (name : string) : Z :=
  match name with
  | String c (String _ _) => if decide (c = "0"%char) then -1 else parse_number 0 name
  | _ => parse_number 0 name
  end.

(** [extract]: the name after a dollar sign and the number of bytes it takes. *)
Definition extract (str : string) : option (string * nat) :=
  let '(brace, body) := match str with String "{" s => (true, s) | _ => (false, str) end in
  let i := name_length 0 body in
  if decide (i = 0) then None
  else
    let name := str_take i body in
    if (brace : bool) then
      match str_drop i body with
      | String "}" _ => Some (name, i + 2)
      | _ => None
      end
    else Some (name, i).

(** The text of the [i]-th submatch, if it is there and not absent. *)
Definition submatch (src : string) (m : list Z) (i : Z) : option (outcome string) :=
  if decide (2 * i + 1 < Z.of_nat (length m))%Z then
    match m !! Z.to_nat (2 * i), m !! Z.to_nat (2 * i + 1) with
    | Some a, Some b => if decide (0 ≤ a)%Z then Some (str_slice src a b) else None
    | _, _ => None
    end
  else None.

Fixpoint named_submatch (src : string) (m : list Z) (name : string) (i : nat) (names : list string) : outcome string :=
  match names with
  | [] => Ret ""
  | n :: names =>
      match (if decide (name = n) then submatch src m (Z.of_nat i) else None) with
      | Some text => text
      | None => named_submatch src m name (S i) names
      end
  end.

Definition group_text (names : list string) (src : string) (m : list Z) (name : string) : outcome string :=
  let num := group_number name in
  if decide (0 ≤ num)%Z then default (Ret "") (submatch src m num)
  else named_submatch src m name 0 names.

(** [expand]; [skip] bytes of the template were consumed with the last name. *)
Fixpoint expand (names : list string) (src : string) (m : list Z) (skip : nat) (template : string) : outcome string :=
  match template with
  | "" => Ret ""
  | String c t =>
      match skip with
      | S j => expand names src m j t
      | O =>
          if decide (c = "$"%char) then
            match t with
            | String "$" _ => r ← expand names src m 1 t; Ret (String "$" r)
            | _ =>
                match extract t with
                | None => r ← expand names src m 0 t; Ret (String "$" r)
                | Some (name, n) =>
                    text ← group_text names src m name; r ← expand names src m n t; Ret (text +:+ r)
                end
            end
          else r ← expand names src m 0 t; Ret (String c r)
      end
  end.

(** ** Mappings *)

Definition ErrMapping : error := Named "ErrMapping" "mapping error" None.
Definition ErrMappingCompile : error := Var_w "ErrMappingCompile" ErrMapping "compile".
Definition ErrMappingMissedTag : error := Var_w "ErrMappingMissedTag" ErrMapping "missed tag".
Definition ErrMappingMismatchedTag : error := Var_w "ErrMappingMismatchedTag" ErrMapping "mismatched tag".

Context {R : Type} `{Regexps R}.

Record Mapping := mkMapping {
  Tag : string;
  Matcher : string;
  Template : string;
  matcher : option R;
}.

Definition NewMapping (tag matcher template : string) : option Mapping :=
  match re_compile matcher with
  | Fail _ => None
  | Val m => Some (mkMapping tag matcher template (Some m))
  end.

(** [Mapping.Compile], which sets the matcher. *)
Definition Compile1 (p : Mapping) : Mapping * option error :=
  match re_compile (Matcher p) with
  | Fail e => (p, Some e)
  | Val m => (mkMapping (Tag p) (Matcher p) (Template p) (Some m), None)
  end.

Abbreviation Mappings := (list Mapping).

Fixpoint expand_all (re : R) (template content : string) (ms : list (list Z)) : outcome string :=
  match ms with
  | [] => Ret ""
  | m :: ms =>
      s ← expand (re_names re) content m 0 template; rest ← expand_all re template content ms; Ret (s +:+ rest)
  end.

(** The matches of a content, expanded; [None] without a match. *)
Definition match_expand (mapping : Mapping) (content : string) : outcome (option string) :=
  re ← deref (matcher mapping);
  match re_find_all re content with
  | None => Ret None
  | Some matches => s ← expand_all re (Template mapping) content matches; Ret (Some s)
  end.

(** [Mappings.Apply] *)
Fixpoint Apply (p : Mappings) (tags : gmap string string) : outcome (result error string) :=
  match p with
  | [] => Ret (Val "")
  | mapping :: p =>
      if decide (Tag mapping = "") then
        rest ← Apply p tags; Ret (r ← rest; Val (Template mapping +:+ r))
      else match tags !! Tag mapping with
      | None => Ret (Fail (Errorf_w ErrMappingMissedTag (Tag mapping)))
      | Some content =>
          expanded ← match_expand mapping content;
          match expanded with
          | None => Ret (Fail (Errorf_w ErrMappingMismatchedTag (Tag mapping)))
          | Some s => rest ← Apply p tags; Ret (r ← rest; Val (s +:+ r))
          end
      end
  end.

(** The values of the tags a mapping names, if all are there. *)
Fixpoint tag_values (tags : gmap string string) (keys : list string) : option (list string) :=
  match keys with
  | [] => Some []
  | key :: keys =>
      match tags !! TrimSpace key with
      | Some val => vals ← tag_values tags keys; Some (val :: vals)
      | None => None
      end
  end.

(** [Mappings.ApplyOR] *)
Fixpoint ApplyOR_loop (p : Mappings) (tags : gmap string string) (mismatched : bool) : outcome (bool * option string) :=
  match p with
  | [] => Ret (mismatched, None)
  | mapping :: p =>
      if decide (Tag mapping = "") then Ret (mismatched, Some (Template mapping))
      else match tag_values tags (Split (Tag mapping) ",") with
      | None => ApplyOR_loop p tags mismatched
      | Some vals =>
          expanded ← match_expand mapping (Join vals ",");
          match expanded with
          | None => ApplyOR_loop p tags true
          | Some s => Ret (mismatched, Some s)
          end
      end
  end.

Definition ApplyOR (p : Mappings) (tags : gmap string string) : outcome (result error string) :=
  '(mismatched, found) ← ApplyOR_loop p tags false;
  Ret (match found with
       | Some s => Val s
       | None =>
           if (mismatched : bool) then Fail ErrMappingMismatchedTag
           else match p with [] => Val "" | _ => Fail ErrMappingMissedTag end
       end).

(** [Mappings.Compile]: the mappings before the first that fails are compiled; [i] is
    its index. *)
Fixpoint Compile (i : nat) (p : Mappings) : Mappings * option error :=
  match p with
  | [] => ([], None)
  | m :: p =>
      match Compile1 m with
      | (m, Some e) =>
          (m :: p, Some (Wrap (Error ErrMappingCompile +:+ " [" +:+ FormatInt (Z.of_nat i) +:+ ":" +:+ Tag m +:+ "]: "
                                +:+ Error e) ErrMappingCompile))
      | (m, None) => let '(p, err) := Compile (S i) p in (m :: p, err)
      end
  end.

Fixpoint match_any (p : Mappings) (str : string) : outcome bool :=
  match p with
  | [] => Ret false
  | m :: p =>
      re ← deref (matcher m);
      match re_find_all re str with Some _ => Ret true | None => match_any p str end
  end.

Definition MatchString (p : Mappings) (str : string) : outcome bool :=
  match p with [] => Ret true | _ => match_any p str end.

(** ** Preparation *)

(** One loop of the connectors' [Prepare]: mappings that do not compile are left
    out. *)
Definition Prepare1 (p : Mappings) : Mappings :=
  omap (λ m, match Compile1 m with (m, None) => Some m | (_, Some _) => None end) p.

Record GWMapping := mkGWMapping { gm_first : Mappings; gm_second : Mappings }.

Definition Prepare (m : GWMapping) : GWMapping := mkGWMapping (Prepare1 (gm_first m)) (Prepare1 (gm_second m)).

(** [FilterDefinitions], and [FilterResources] by name. *)
Fixpoint FilterDefinitions (definitions : list string) (mappings : Mappings) : outcome (list string) :=
  match definitions with
  | [] => Ret []
  | d :: definitions =>
      ok ← MatchString mappings d; rest ← FilterDefinitions definitions mappings;
      Ret (if (ok : bool) then d :: rest else rest)
  end.

Fixpoint FilterResources {A} (name : A → option string) (resources : list A) (mappings : Mappings) : outcome (list A) :=
  match resources with
  | [] => Ret []
  | r :: resources =>
      n ← deref (name r); ok ← MatchString mappings n; rest ← FilterResources name resources mappings;
      Ret (if (ok : bool) then r :: rest else rest)
  end.
End expand.

(** ** Lemmas *)

Section lemmas.
Context (wide_letter : string → nat) {R : Type} `{RegexpsLaws R}.
#[local] Abbreviation match_expand := (match_expand wide_letter).
#[local] Abbreviation Apply := (Apply wide_letter).
#[local] Abbreviation ApplyOR := (ApplyOR wide_letter).

Lemma submatch_ret src m i t : valid_index src m → submatch src m i = Some t → (0 ≤ i)%Z → ∃ s, t = Ret s.
Proof using Type.
  intros Hv. unfold submatch. case_decide as Hl; [|done].
  destruct (m !! Z.to_nat (2 * i)) as [a|] eqn:Ha; [|done].
  destruct (m !! Z.to_nat (2 * i + 1)) as [b|] eqn:Hb; [|done]. case_decide as Hpos; [|done].
  intros [= <-] Hi. replace (Z.to_nat (2 * i)) with (2 * Z.to_nat i) in Ha by lia.
  replace (Z.to_nat (2 * i + 1)) with (2 * Z.to_nat i + 1) in Hb by lia.
  destruct (Hv _ _ _ Ha Hb) as [?|[? ?]]; [lia|]. unfold str_slice. rewrite decide_True by (unfold slen in *; lia). by eexists.
Qed.

Lemma group_text_ret names src m name : valid_index src m → ∃ s, group_text names src m name = Ret s.
Proof using Type.
  intros Hv. unfold group_text. case_decide as Hn.
  - destruct (submatch src m (group_number name)) as [t|] eqn:Ht; cbn; [|by eexists].
    by apply (submatch_ret _ _ _ _ Hv Ht).
  - generalize 0 as i. induction names as [|n names IH]; intros i; cbn [named_submatch]; [by eexists|].
    destruct (if decide (name = n) then _ else None) as [t|] eqn:Ht; [|apply IH].
    case_decide; [|done]. eapply submatch_ret; [done|done|lia].
Qed.

Lemma expand_ret names src m skip template : valid_index src m → ∃ s, expand wide_letter names src m skip template = Ret s.
Proof using Type.
  intros Hv. revert skip. induction template as [|c t IH]; intros skip; cbn [expand]; [by eexists|].
  destruct skip as [|j]; [|apply IH]. case_decide.
  - assert (∀ k pre, ∃ s, (r ← expand wide_letter names src m k t; Ret (String pre r)) = Ret s) as Hnext.
    { intros k pre. destruct (IH k) as [s ->]. by eexists. }
    assert (∃ s, match extract wide_letter t with
      | None => r ← expand wide_letter names src m 0 t; Ret (String "$" r)
      | Some (name, n) => text ← group_text names src m name; r ← expand wide_letter names src m n t; Ret (text +:+ r)
      end = Ret s) as Hex.
    { destruct (extract wide_letter t) as [[name n]|]; [|apply Hnext].
      destruct (group_text_ret names src m name Hv) as [s1 ->]. cbn. destruct (IH n) as [s2 ->]. by eexists. }
    destruct t as [|d t]; [exact Hex|]. destruct (decide (d = "$"%char)) as [->|Hd]; [apply Hnext|].
    destruct d as [[] [] [] [] [] [] [] []]; first [exact Hex|done].
  - destruct (IH 0) as [s ->]. by eexists.
Qed.

Lemma expand_all_ret re template content ms :
  (∀ m, m ∈ ms → valid_index content m) → ∃ s, expand_all wide_letter re template content ms = Ret s.
Proof using Type.
  induction ms as [|m ms IH]; intros Hv; cbn [expand_all]; [by eexists|].
  destruct (expand_ret (re_names re) content m 0 template) as [s ->]; [apply Hv; by left|]. cbn.
  destruct IH as [r ->]; [intros; apply Hv; by right|]. by eexists.
Qed.

(** A compiled mapping does not panic on any content. *)
Lemma match_expand_ret mapping content :
  is_Some (matcher mapping) → ∃ o, match_expand mapping content = Ret o.
Proof using All.
  intros [re Hre]. unfold Mapping.match_expand. rewrite Hre. cbn [deref mbind outcome_bind].
  destruct (re_find_all re content) as [ms|] eqn:Hms; [|by eexists].
  destruct (expand_all_ret re (Template mapping) content ms) as [s ->]; [|by eexists].
  intros m Hm. by eapply re_find_valid.
Qed.

Definition compiled (p : list (@Mapping R)) : Prop := Forall (λ m, is_Some (matcher m)) p.

(** *** What [ApplyOR] chooses *)

(** A mapping is passed over when a tag is missing or the values do not match. *)
Definition missing (tags : gmap string string) (m : @Mapping R) : Prop :=
  Tag m ≠ "" ∧ tag_values tags (Split (Tag m) ",") = None.
Definition mismatching (tags : gmap string string) (m : @Mapping R) : Prop :=
  ∃ vals, Tag m ≠ "" ∧ tag_values tags (Split (Tag m) ",") = Some vals ∧ match_expand m (Join vals ",") = Ret None.
Definition chosen (tags : gmap string string) (m : @Mapping R) (s : string) : Prop :=
  (Tag m = "" ∧ s = Template m) ∨
  ∃ vals, Tag m ≠ "" ∧ tag_values tags (Split (Tag m) ",") = Some vals ∧ match_expand m (Join vals ",") = Ret (Some s).

Lemma ApplyOR_loop_spec p tags b :
  compiled p →
  (∃ before m after s, p = (before ++ m :: after)%list ∧
     Forall (λ m, missing tags m ∨ mismatching tags m) before ∧ chosen tags m s ∧
     ∃ b', ApplyOR_loop wide_letter p tags b = Ret (b', Some s)) ∨
  (Forall (missing tags) p ∧ ApplyOR_loop wide_letter p tags b = Ret (b, None)) ∨
  (Forall (λ m, missing tags m ∨ mismatching tags m) p ∧ Exists (mismatching tags) p ∧
     ApplyOR_loop wide_letter p tags b = Ret (true, None)).
Proof using All.
  intros Hc. revert b. induction Hc as [|m p Hm Hc IH]; intros b; [right; left; by split|].
  cbn [ApplyOR_loop]. destruct (decide (Tag m = "")) as [Ht|Ht].
  { left. exists [], m, p, (Template m). split_and!; [done|done|by left|by eexists]. }
  assert (∀ b', (missing tags m ∧ b' = b) ∨ (mismatching tags m ∧ b' = true) →
    (∃ before m' after s, m :: p = (before ++ m' :: after)%list ∧
       Forall (λ m, missing tags m ∨ mismatching tags m) before ∧ chosen tags m' s ∧
       ∃ b'', ApplyOR_loop wide_letter p tags b' = Ret (b'', Some s)) ∨
    (Forall (missing tags) (m :: p) ∧ ApplyOR_loop wide_letter p tags b' = Ret (b, None)) ∨
    (Forall (λ m, missing tags m ∨ mismatching tags m) (m :: p) ∧ Exists (mismatching tags) (m :: p) ∧
       ApplyOR_loop wide_letter p tags b' = Ret (true, None))) as Hnext.
  { intros b' Hb'. destruct (IH b') as [(before & m' & after & s & -> & Hb & Hch & Hr)|[[Hall Hr]|(Hall & Hex & Hr)]].
    - left. exists (m :: before), m', after, s. split_and!; [done| |done|done]. constructor; [naive_solver|done].
    - destruct Hb' as [[Hb' ->]|[Hb' ->]].
      + right; left. split; [by constructor|done].
      + right; right. split_and!; [|by left|done]. constructor; [by right|]. eapply Forall_impl; [exact Hall|]. by left.
    - right; right. split_and!; [|by right|done]. constructor; [naive_solver|done]. }
  destruct (tag_values tags (Split (Tag m) ",")) as [vals|] eqn:Hv.
  - destruct (match_expand_ret m (Join vals ",") Hm) as [o Ho]. rewrite Ho. cbn [mbind outcome_bind].
    destruct o as [s|].
    + left. exists [], m, p, s. split_and!; [done|done|right; by exists vals|by eexists].
    + apply Hnext. right. split; [by exists vals|done].
  - apply Hnext. left. by split.
Qed.

Lemma Compile_spec i p :
  let '(p', err) := Compile i p in
  match err with
  | None => compiled p' ∧ Forall2 (λ m m', Tag m' = Tag m ∧ Template m' = Template m ∧
              ∃ re, re_compile (Matcher m) = Val re ∧ matcher m' = Some re) p p'
  | Some e => ∃ before m after e', p = (before ++ m :: after)%list ∧ re_compile (Matcher m) = Fail e' ∧
      Forall (λ m, is_val (re_compile (Matcher m)) = true) before ∧
      Error e = "mapping error: compile [" +:+ FormatInt (Z.of_nat (i + length before)) +:+ ":" +:+ Tag m +:+ "]: " +:+
                Error e'
  end.
Proof using Type.
  revert i. induction p as [|m p IH]; intros i; cbn [Compile]; [by split; constructor|].
  unfold Compile1. destruct (re_compile (Matcher m)) as [re|e] eqn:Hre.
  - specialize (IH (S i)). destruct (Compile (S i) p) as [p' [e|]].
    + destruct IH as (before & m' & after & e' & -> & He' & Hb & He).
      exists (m :: before), m', after, e'. split_and!; [done|done| |].
      * constructor; [by rewrite Hre|done].
      * rewrite He. cbn [length]. by replace (i + S (length before)) with (S i + length before) by lia.
    + destruct IH as [H1 H2]. split; constructor; [by eexists|done| |done]. split_and!; [done|done|by exists re].
  - exists [], m, p, e. split_and!; [done|done|by constructor|]. by rewrite Nat.add_0_r.
Qed.

Lemma Apply_ret p tags : compiled p → ∃ r, Apply p tags = Ret r.
Proof using All.
  induction 1 as [|m p Hm Hc [r IH]]; cbn [Mapping.Apply]; [by eexists|].
  case_decide; [rewrite IH; by eexists|]. destruct (tags !! Tag m) as [content|]; [|by eexists].
  destruct (match_expand_ret m content Hm) as [[s|] ->]; cbn; [rewrite IH; by eexists|by eexists].
Qed.

Lemma MatchString_ret p str : compiled p → ∃ b, MatchString p str = Ret b.
Proof using Type.
  intros Hc. assert (∃ b, match_any p str = Ret b) as Hm.
  { induction Hc as [|m p [re Hre] Hc IH]; cbn [match_any]; [by eexists|]. rewrite Hre. cbn.
    destruct (re_find_all re str); [by eexists|done]. }
  unfold MatchString. destruct p; [by eexists|done].
Qed.

(** ** Properties *)

(** [ApplyOR] gives the expansion of the first mapping that applies: one without a
    tag gives its template, one with tags is expanded with the values of all its
    tags when these match.  Mappings with a missing tag or without a match before
    it are passed over; when none applies the error says whether any of them had
    its tags, and no mappings at all give the empty name. *)
Theorem ApplyOR_first (p : list (@Mapping R)) (tags : gmap string string) :
  compiled p →
  (∃ before m after s, p = (before ++ m :: after)%list ∧
     Forall (λ m, missing tags m ∨ mismatching tags m) before ∧ chosen tags m s ∧ ApplyOR p tags = Ret (Val s)) ∨
  (p = [] ∧ ApplyOR p tags = Ret (Val "")) ∨
  (p ≠ [] ∧ Forall (missing tags) p ∧ ApplyOR p tags = Ret (Fail ErrMappingMissedTag)) ∨
  (Forall (λ m, missing tags m ∨ mismatching tags m) p ∧ Exists (mismatching tags) p ∧
   ApplyOR p tags = Ret (Fail ErrMappingMismatchedTag)).
Proof using All.
  intros Hc. unfold Mapping.ApplyOR.
  destruct (ApplyOR_loop_spec p tags false Hc) as
    [(before & m & after & s & Hp & Hb & Hch & b & ->)|[[Hall ->]|(Hall & Hex & ->)]]; cbn [mbind outcome_bind].
  - left. by exists before, m, after, s.
  - destruct p as [|m p]; [right; by left|]. right; right; left. done.
  - right; right; right. by split_and!.
Qed.

(** Compiling is what makes mappings usable: when every pattern compiles, no later
    use panics, whatever the tags; otherwise the error names the first pattern that
    does not, the ones after it stay as they were, and a mapping without its
    matcher panics as soon as its tag is there. *)
Theorem Compile_usable (p : list (@Mapping R)) :
  let '(p', err) := Compile 0 p in
  match err with
  | None => ∀ tags str, (∃ r, Apply p' tags = Ret r) ∧ (∃ r, ApplyOR p' tags = Ret r) ∧ (∃ b, MatchString p' str = Ret b)
  | Some e => ∃ before m after e', p = (before ++ m :: after)%list ∧
      Forall (λ m, is_val (re_compile (Matcher m)) = true) before ∧ re_compile (Matcher m) = Fail e' ∧
      Error e = "mapping error: compile [" +:+ FormatInt (Z.of_nat (length before)) +:+ ":" +:+ Tag m +:+ "]: " +:+
                Error e'
  end ∧
  ∀ m tags content, matcher m = None → Tag m ≠ "" → tags !! Tag m = Some content →
    is_panic (Apply [m] tags) = true.
Proof using All.
  pose proof (Compile_spec 0 p) as Hspec. destruct (Compile 0 p) as [p' err]. split.
  - destruct err as [e|].
    + destruct Hspec as (before & m & after & e' & Hp & He' & Hb & He). by exists before, m, after, e'.
    + destruct Hspec as [Hc _]. intros tags str. split_and!; [by apply Apply_ret| |by apply MatchString_ret].
      unfold Mapping.ApplyOR. destruct (ApplyOR_loop_spec p' tags false Hc) as
        [(? & ? & ? & ? & _ & _ & _ & ? & ->)|[[_ ->]|(_ & _ & ->)]]; by eexists.
  - intros m tags content Hm Ht Htags. cbn [Mapping.Apply]. rewrite decide_False, Htags by done.
    unfold Mapping.match_expand. by rewrite Hm.
Qed.
End lemmas.

(** A template whose dollar signs are doubled is expanded to itself. *)
Lemma expand_escaped wide_letter names src m s :
  expand wide_letter names src m 0 (ReplaceAll s "$" "$$") = Ret s.
Proof.
  unfold ReplaceAll. induction s as [|c s IH]; [done|]. cbn [replace_go].
  destruct (decide (c = "$"%char)) as [->|Hc].
  - rewrite (prefix_app "$" s : String.prefix "$" (String "$" s) = true).
    cbn [pred String.length]. cbn [String.append expand]. rewrite decide_True by done.
    cbn [expand]. by rewrite IH.
  - assert (String.prefix "$" (String c s) = false) as ->.
    { destruct (String.prefix "$" (String c s)) eqn:Hp; [|done].
      apply prefix_spec in Hp as [t [= -> _]]. done. }
    cbn [expand]. rewrite decide_False by done. by rewrite IH.
Qed.

(** ** Witnesses *)

(** An engine with one pattern, the whole content. *)
Definition whole : Regexps unit := {|
  re_compile := λ s, if decide (s = "(.*)") then Val tt else Fail (Opaque "unsupported");
  re_find_all := λ _ content, Some [[0%Z; slen content; 0%Z; slen content]];
  re_names := λ _, [""; ""];
|}.

Lemma whole_laws : RegexpsLaws (H := whole) unit.
Proof.
  split. intros re content ms m [= <-] ->%list_elem_of_singleton i a b Ha Hb. right.
  pose proof (lookup_lt_Some _ _ _ Ha) as Hi. cbn [length] in Hi.
  destruct i as [|[|i]]; [| |lia]; cbn in Ha, Hb; simplify_eq; unfold slen; lia.
Qed.

Definition all_of (tag template : string) : @Mapping unit := mkMapping tag "(.*)" template (Some tt).

Lemma ApplyOR_first_witness :
  ∃ before m after s,
    [all_of "cluster" "c-$1"; all_of "node" "$1-${1}$$"] = (before ++ m :: after)%list ∧
    ApplyOR (H := whole) (λ _, 0) [all_of "cluster" "c-$1"; all_of "node" "$1-${1}$$"] {["node" := "n1"]} = Ret (Val s).
Proof.
  destruct (ApplyOR_first (H := whole) (H0 := whole_laws) (λ _, 0)
    [all_of "cluster" "c-$1"; all_of "node" "$1-${1}$$"] {["node" := "n1"]})
    as [(before & m & after & s & Hp & _ & _ & Hr)|[[Hp _]|[(_ & _ & Hr)|(_ & _ & Hr)]]].
  - by repeat constructor.
  - by exists before, m, after, s.
  - discriminate.
  - exfalso. vm_compute in Hr. discriminate.
  - exfalso. vm_compute in Hr. discriminate.
Defined.

Lemma Compile_usable_witness :
  is_panic (Apply (H := whole) (λ _, 0) [mkMapping "node" "(" "$1" None] {["node" := "n1"]}) = true.
Proof.
  apply (proj2 (Compile_usable (H := whole) (H0 := whole_laws) (λ _, 0) []) (mkMapping "node" "(" "$1" None)
           {["node" := "n1"]} "n1"); [reflexivity|discriminate|reflexivity].
Defined.
