(* ===== verification/Events.v ===== *)
(** connectors/events: Prometheus alerts that are mapped to services and sent.

    The alerts are the decoded template data of the alert manager; the clock is
    read for each alert, each service and each resource. *)

From S2P Require Import Prelude.
From S2P Require Import GoString.
From S2P Require Import GoFloat.
From S2P Require Import Errors.
From S2P Require Import Timestamp.
From S2P Require Import TypedValue.
From S2P Require Import Transit.
From S2P Require Import Status.
From S2P Require Import Codec.
From S2P Require Import Batcher.
From S2P Require Import Http.
From S2P Require Import Nats.
From S2P Require Import Tracer.
From S2P Require Import TransitService.
From S2P Require Import Expr.
From S2P Require Import StatusText.
From S2P Require Import Connectors.
From S2P Require Import Mapping.

Local Open Scope string_scope.

(** ** Data *)

(** What the connector reads of an alert, and of the data around the alerts. *)
Record Alert := mkAlert {
  al_Annotations : gmap string string;
  al_Labels : gmap string string;
  al_StartsAt : Timestamp;
  al_EndsAt : Timestamp;
}.

Record Data := mkData {
  dt_Alerts : list Alert;
  dt_CommonAnnotations : gmap string string;
  dt_CommonLabels : gmap string string;
}.

Record ParseResult := mkParseResult {
  pr_HostName : string;
  pr_HostGroupName : string;
  pr_MetricBuilder : MetricBuilder;
}.

(** [time.Time.IsZero] *)
Definition IsZero (t : Timestamp) : bool := bool_decide (sec t = -62135596800 ∧ nsec t = 0)%Z.

Section events.
Context (wide_letter : string → nat) {R : Type} `{Regexps R}.

Record ExtConfig := mkExtConfig {
  MapHostgroup : list (@Mapping R);
  MapHostname : list (@Mapping R);
  MapService : list (@Mapping R);
}.

(** [ConfigHandler]: the configuration is taken over before its mappings compile, and
    stays when they do not; whether the loop was restarted. *)
Definition ConfigHandler (cfg : ExtConfig) (parsed : result error ExtConfig) : ExtConfig * bool :=
  match parsed with
  | Fail _ => (cfg, false)
  | Val tExt =>
      match Compile 0 (MapHostgroup tExt) with
      | (hg, Some _) => (mkExtConfig hg (MapHostname tExt) (MapService tExt), false)
      | (hg, None) =>
          match Compile 0 (MapHostname tExt) with
          | (hn, Some _) => (mkExtConfig hg hn (MapService tExt), false)
          | (hn, None) =>
              match Compile 0 (MapService tExt) with
              | (sv, Some _) => (mkExtConfig hg hn sv, false)
              | (sv, None) => (mkExtConfig hg hn sv, true)
              end
          end
      end
  end.

(** ** Alerts *)

(** The tags of an alert: its labels hide the common labels, these its annotations,
    and these the common annotations. *)
Definition alert_tags (data : Data) (alert : Alert) : gmap string string :=
  al_Labels alert ∪ (dt_CommonLabels data ∪ (al_Annotations alert ∪ dt_CommonAnnotations data)).

Definition alert_builder (now : Timestamp * Timestamp) (alert : Alert) (serviceName : string)
    (tags : gmap string string) : MetricBuilder :=
  let started := negb (IsZero (al_StartsAt alert)) in
  let start := if started then UTC (al_StartsAt alert) else NewTimestamp now.1 in
  let end_ := if started then UTC (al_StartsAt alert) else NewTimestamp now.2 in
  let end_ := if negb (IsZero (al_EndsAt alert)) then UTC (al_EndsAt alert) else end_ in
  mkMetricBuilder serviceName "" Informational "" (AInt KInt (-1)) (Some (ArgUnit UnitCounter)) ANil ANil
    (Some start) (Some end_) false tags.

(** One alert; [None] when it is left out. *)
Definition parse_alert (cfg : ExtConfig) (now : Timestamp * Timestamp) (data : Data) (alert : Alert)
  : outcome (option ParseResult) :=
  let tags := alert_tags data alert in
  hostGroupName ← ApplyOR wide_letter (MapHostgroup cfg) tags;
  match hostGroupName with
  | Fail _ => Ret None
  | Val hostGroupName =>
      hostName ← ApplyOR wide_letter (MapHostname cfg) tags;
      match hostName with
      | Fail _ => Ret None
      | Val hostName =>
          if decide (hostName = "") then Ret None
          else
            serviceName ← ApplyOR wide_letter (MapService cfg) tags;
            match serviceName with
            | Fail _ => Ret None
            | Val serviceName =>
                if decide (serviceName = "") then Ret None
                else Ret (Some (mkParseResult hostName hostGroupName (alert_builder now alert serviceName tags)))
            end
      end
  end.

Fixpoint parse_alerts (cfg : ExtConfig) (now : nat → Timestamp * Timestamp) (data : Data) (i : nat) (alerts : list Alert)
  : outcome (list ParseResult) :=
  match alerts with
  | [] => Ret []
  | alert :: alerts =>
      r ← parse_alert cfg (now i) data alert;
      rest ← parse_alerts cfg now data (S i) alerts;
      Ret (match r with Some r => r :: rest | None => rest end)
  end.

Definition ParsePrometheusData (now : nat → Timestamp * Timestamp) (data : Data) (cfg : ExtConfig)
  : outcome (list ParseResult) :=
  parse_alerts cfg now data 0 (dt_Alerts data).

Definition GetLastPluginOutput (tag : gmap string string) : string :=
  let result := default "" (tag !! "summary") in
  match tag !! "description" with
  | Some summary => (if decide (result = "") then "" else result +:+ " | ") +:+ summary
  | None => result
  end.
End events.

(** ** The receiver *)

Section receiver.
Context `{MapOrder} (CheckInterval : Z).

(** The service of a result, in warning with the text of the alert. *)
Definition alert_service (now : Timestamp) (r : ParseResult) : outcome (result error MonitoredService) :=
  service ← BuildServiceForMetric CheckInterval now (pr_HostName r) (pr_MetricBuilder r);
  Ret (s ← service;
       Val (mkMonitoredService (ms_BaseInfo s)
              (SetLastPluginOutput (SetStatus (ms_MonitoredInfo s) ServiceWarning)
                 (GetLastPluginOutput (mb_Tags (pr_MetricBuilder r))))
              (ms_Metrics s))).

(** The services by host and the groups of the hosts. *)
Definition append_service (m : gmap string (list MonitoredService)) (h : string) (s : MonitoredService)
  : gmap string (list MonitoredService) :=
  <[h := (default [] (m !! h) ++ [s])%list]> m.

Fixpoint collect (now : nat → Timestamp) (i : nat) (results : list ParseResult)
    (hostToServiceMap : gmap string (list MonitoredService)) (hostToHostGroupMap : gmap string string)
  : outcome (result error (gmap string (list MonitoredService) * gmap string string)) :=
  match results with
  | [] => Ret (Val (hostToServiceMap, hostToHostGroupMap))
  | r :: results =>
      service ← alert_service (now i) r;
      match service with
      | Fail e => Ret (Fail e)
      | Val s =>
          collect now (S i) results (append_service hostToServiceMap (pr_HostName r) s)
            (if decide (pr_HostGroupName r = "") then hostToHostGroupMap
             else <[pr_HostName r := pr_HostGroupName r]> hostToHostGroupMap)
      end
  end.

Fixpoint create_resources (now : nat → Timestamp) (i : nat) (hosts : list (string * list MonitoredService))
  : result error (list MonitoredResource) :=
  match hosts with
  | [] => Val []
  | (h, s) :: hosts =>
      r ← CreateResource CheckInterval (now i) h [ResServices s];
      rs ← create_resources now (S i) hosts; Val (r :: rs)
  end.

(** A group for each host that has one. *)
Definition host_groups (hostToHostGroupMap : gmap string string) : list ResourceGroup :=
  (λ '(h, hg), CreateResourceGroup hg hg HostGroup [CreateResourceRef h "" ResourceTypeHost]) <$>
  map_order hostToHostGroupMap.

(** The payload of the results. *)
Definition alert_payload (now_services now_resources : nat → Timestamp) (results : list ParseResult)
  : outcome (result error (list MonitoredResource * list ResourceGroup)) :=
  maps ← collect now_services 0 results ∅ ∅;
  Ret ('(services, groups) ← maps;
       resources ← create_resources now_resources 0 (map_order services);
       Val (resources, host_groups groups)).
End receiver.

Section receive.
Context `{MapOrder} {AC : TokenCache} (BM : BatchBuilder).
Context (FormatUUID : string → string) (GZip : string → result error string).
Context {JM : JsonCodec ResourcesWithServicesRequest}.
Context (environment : nat → call_env) (suppress : Suppress) (conn : Connector) (natsConfig : option Config).
Context (gval : string → Vars → result error gval_value) (fuel : nat) (CheckInterval : Z).
Context (wide_letter : string → nat) {R : Type} `{Regexps R}.

#[local] Abbreviation send :=
  (SendMetrics BM FormatUUID GZip environment suppress conn natsConfig gval fuel CheckInterval).

(** [receiver]: the code of the answer and the text of its body. *)
Definition receiver (now_alerts : nat → Timestamp * Timestamp) (now_services now_resources : nat → Timestamp)
    (cfg : @ExtConfig R) (s : TransitService) (ctx : context) (body : result error Data)
  : run (TransitService * (Z * option string)) :=
  match body with
  | Fail e => RRet (s, (400%Z, Some (Error e)))
  | Val data =>
      results ← lift_o (ParsePrometheusData wide_letter now_alerts data cfg);
      payload ← lift_o (alert_payload CheckInterval now_services now_resources results);
      match payload with
      | Fail e => RRet (s, (500%Z, Some (Error e)))
      | Val (resources, groups) =>
          '(s, err) ← send s ctx resources (Some groups);
          RRet (s, match err with Some e => (500%Z, Some (Error e)) | None => (200%Z, None) end)
      end
  end.

(** [initializeEntrypoints] *)
Definition initializeEntrypoints : list (string * string) := [("POST", "/receive/events")].
End receive.

(** ** Lemmas *)

Section lemmas.
Context (wide_letter : string → nat) {R : Type} `{RegexpsLaws R}.

Definition cfg_compiled (cfg : @ExtConfig R) : Prop :=
  compiled (MapHostgroup cfg) ∧ compiled (MapHostname cfg) ∧ compiled (MapService cfg).

(** A result of an alert: named, and with a builder that makes a service. *)
Record alert_like (r : ParseResult) : Prop := {
  al_host : pr_HostName r ≠ "";
  al_service : mb_Name (pr_MetricBuilder r) ≠ "";
  al_value : mb_Value (pr_MetricBuilder r) = AInt KInt (-1);
  al_unit : mb_UnitType (pr_MetricBuilder r) = Some (ArgUnit UnitCounter);
  al_thresholds : mb_Warning (pr_MetricBuilder r) = ANil ∧ mb_Critical (pr_MetricBuilder r) = ANil;
  al_times : is_Some (mb_StartTimestamp (pr_MetricBuilder r)) ∧ is_Some (mb_EndTimestamp (pr_MetricBuilder r));
}.

Lemma ApplyOR_ret p tags : compiled p → ∃ r, ApplyOR wide_letter p tags = Ret r.
Proof using All.
  intros Hc. unfold ApplyOR. destruct (ApplyOR_loop_spec wide_letter p tags false Hc) as
    [(? & ? & ? & ? & _ & _ & _ & ? & ->)|[[_ ->]|(_ & _ & ->)]]; by eexists.
Qed.

Lemma parse_alert_ret cfg now data alert :
  cfg_compiled cfg → ∃ o, parse_alert wide_letter cfg now data alert = Ret o ∧ ∀ r, o = Some r → alert_like r.
Proof using All.
  intros (Hg & Hh & Hs). unfold parse_alert.
  destruct (ApplyOR_ret (MapHostgroup cfg) (alert_tags data alert) Hg) as [g ->]. cbn [mbind outcome_bind].
  destruct g as [g|]; [|by eexists].
  destruct (ApplyOR_ret (MapHostname cfg) (alert_tags data alert) Hh) as [h ->]. cbn [mbind outcome_bind].
  destruct h as [h|]; [|by eexists]. case_decide; [by eexists|].
  destruct (ApplyOR_ret (MapService cfg) (alert_tags data alert) Hs) as [sv ->]. cbn [mbind outcome_bind].
  destruct sv as [sv|]; [|by eexists]. case_decide; [by eexists|].
  eexists. split; [done|]. intros r [= <-]. by split; [..|split; eexists].
Qed.

Lemma parse_alerts_ret cfg now data i alerts :
  cfg_compiled cfg → ∃ rs, parse_alerts wide_letter cfg now data i alerts = Ret rs ∧ Forall alert_like rs.
Proof using All.
  intros Hc. revert i. induction alerts as [|a alerts IH]; intros i; cbn [parse_alerts]; [by exists []|].
  destruct (parse_alert_ret cfg (now i) data a Hc) as (o & -> & Ho). cbn [mbind outcome_bind].
  destruct (IH (S i)) as (rs & -> & Hrs). cbn [mbind outcome_bind]. eexists. split; [done|].
  destruct o as [r|]; [constructor; [by apply Ho|done]|done].
Qed.

(** A configuration whose mappings compile is taken over compiled. *)
Lemma ConfigHandler_compiled cfg tExt :
  (ConfigHandler cfg (Val tExt)).2 = true → cfg_compiled (ConfigHandler cfg (Val tExt)).1.
Proof using Type.
  unfold ConfigHandler, cfg_compiled.
  pose proof (Compile_spec 0 (MapHostgroup tExt)) as H1. destruct (Compile 0 (MapHostgroup tExt)) as [hg [e|]]; [done|].
  pose proof (Compile_spec 0 (MapHostname tExt)) as H2. destruct (Compile 0 (MapHostname tExt)) as [hn [e|]]; [done|].
  pose proof (Compile_spec 0 (MapService tExt)) as H3. destruct (Compile 0 (MapService tExt)) as [sv [e|]]; [done|].
  intros _. cbn. by destruct H1, H2, H3.
Qed.
End lemmas.

Section payload.
Context `{MapOrder} (CheckInterval : Z).

(** The service of a result. *)
Definition result_service (r : ParseResult) : MonitoredService :=
  let b := pr_MetricBuilder r in
  let e := default (mkTimestamp 0 0 UTCLoc) (mb_EndTimestamp b) in
  mkMonitoredService (named_info (Name (mb_Name b) (mb_CustomName b)) ResourceTypeService (pr_HostName r))
    (mkMonitoredInfo ServiceWarning (Some e) (Some (Timestamp.Add e CheckInterval)) (GetLastPluginOutput (mb_Tags b)))
    [builder_metric (mkTimestamp 0 0 UTCLoc) b (tv_int (-1)) UnitCounter].

Lemma alert_service_eq now r : alert_like r → alert_service CheckInterval now r = Ret (Val (result_service r)).
Proof using Type.
  intros [_ _ Hv Hu [Hw Hc] [[st Hs] [e He]]]. unfold alert_service, result_service.
  rewrite (BuildServiceForMetric_built CheckInterval now (pr_HostName r) (pr_MetricBuilder r) (tv_int (-1)) UnitCounter).
  - rewrite Hw, Hc. unfold builder_metric, builder_interval. rewrite Hs, He. reflexivity.
  - by rewrite Hv.
  - by rewrite Hv.
  - unfold builder_unit. by rewrite Hu.
  - by left.
  - by left.
Qed.

(** The group of a host: the last that is not empty. *)
Definition host_group (results : list ParseResult) (h : string) : option string :=
  last (pr_HostGroupName <$> filter (λ r, pr_HostName r = h ∧ pr_HostGroupName r ≠ "") results).

Definition services_for (results : list ParseResult) (h : string) : list MonitoredService :=
  result_service <$> filter (λ r, pr_HostName r = h) results.

Lemma collect_eq now i results sm gm :
  Forall alert_like results →
  ∃ sm' gm', collect CheckInterval now i results sm gm = Ret (Val (sm', gm')) ∧
    (∀ h, default [] (sm' !! h) = (default [] (sm !! h) ++ services_for results h)%list ∧
          (is_Some (sm' !! h) ↔ is_Some (sm !! h) ∨ h ∈ pr_HostName <$> results)) ∧
    (∀ h, gm' !! h = match host_group results h with Some g => Some g | None => gm !! h end).
Proof using Type.
  intros Hr. revert i sm gm. induction Hr as [|r results Hlike Hr IH]; intros i sm gm; cbn [collect].
  { exists sm, gm. split_and!; [done| |done]. intros h. unfold services_for. rewrite filter_nil, app_nil_r.
    split; [done|]. cbn. rewrite elem_of_nil. naive_solver. }
  rewrite alert_service_eq by done. cbn [mbind outcome_bind].
  destruct (IH (S i) (append_service sm (pr_HostName r) (result_service r))
    (if decide (pr_HostGroupName r = "") then gm else <[pr_HostName r := pr_HostGroupName r]> gm))
    as (sm' & gm' & -> & Hs & Hg). exists sm', gm'. split; [done|]. split.
  - intros h. destruct (Hs h) as [Hs1 Hs2]. rewrite Hs1, Hs2, fmap_cons, elem_of_cons.
    unfold append_service, services_for. destruct (decide (pr_HostName r = h)) as [<-|Hn].
    + rewrite lookup_insert_eq, filter_cons_True by done. cbn. split.
      * by rewrite <-app_assoc.
      * split; [by right; left|]. intros _. left. by eexists.
    + rewrite lookup_insert_ne, filter_cons_False by done. split; [done|]. naive_solver.
  - intros h. rewrite Hg. unfold host_group.
    destruct (decide (pr_HostName r = h ∧ pr_HostGroupName r ≠ "")) as [[He Hne]|Hn].
    + rewrite filter_cons_True by done. cbn [fmap list_fmap]. rewrite last_cons.
      destruct (last _); [done|]. rewrite decide_False by done. by rewrite He, lookup_insert_eq.
    + rewrite filter_cons_False by done. destruct (last _); [done|]. case_decide as Hd; [done|].
      rewrite lookup_insert_ne; [done|]. naive_solver.
Qed.

Lemma create_resources_eq now i hosts :
  ∃ rs, create_resources CheckInterval now i hosts = Val rs ∧
    Forall2 (λ p r, bi_Name (br_BaseInfo (mr_BaseResource r)) = p.1 ∧ mr_Services r = p.2 ∧
                    mi_Status (mr_MonitoredInfo r) = HostUp) hosts rs.
Proof using Type.
  revert i. induction hosts as [|[h l] hosts IH]; intros i; cbn [create_resources]; [by exists []|].
  destruct (IH (S i)) as (rs & -> & Hrs). unfold CreateResource. cbn [resource_args mbind result_bind].
  eexists. split; [done|]. constructor; [|done]. by destruct l.
Qed.

(** ** Properties *)

(** The payload of alerts: once the mappings compile no alert panics, an alert
    without a host, a service or a matching group is left out, and there is one
    resource for each host of the others, up, with a service in warning for each of
    its alerts in their order; each host with a group gives one group, of its last
    alert with one. *)
Theorem alert_payload_spec (wide_letter : string → nat) {R : Type} `{RegexpsLaws R} (cfg : @ExtConfig R)
    (now_alerts : nat → Timestamp * Timestamp) (now_services now_resources : nat → Timestamp) (data : Data) :
  cfg_compiled cfg →
  ∃ results resources groups,
    ParsePrometheusData wide_letter now_alerts data cfg = Ret results ∧ Forall alert_like results ∧
    alert_payload CheckInterval now_services now_resources results = Ret (Val (resources, groups)) ∧
    let name r := bi_Name (br_BaseInfo (mr_BaseResource r)) in
    NoDup (name <$> resources) ∧
    (∀ h, h ∈ name <$> resources ↔ h ∈ pr_HostName <$> results) ∧
    Forall (λ r, mr_Services r = services_for results (name r) ∧ mi_Status (mr_MonitoredInfo r) = HostUp) resources ∧
    ∃ hosts, NoDup hosts.*1 ∧ (∀ h g, (h, g) ∈ hosts ↔ host_group results h = Some g) ∧
      groups = (λ '(h, g), CreateResourceGroup g g HostGroup [CreateResourceRef h "" ResourceTypeHost]) <$> hosts.
Proof using Type.
  intros Hc. destruct (parse_alerts_ret wide_letter cfg now_alerts data 0 (dt_Alerts data) Hc) as (results & Hp & Hlike).
  destruct (collect_eq now_services 0 results ∅ ∅ Hlike) as (sm & gm & Hcol & Hs & Hg).
  destruct (create_resources_eq now_resources 0 (map_order sm)) as (rs & Hrs & Hall).
  exists results, rs, (host_groups gm). split; [exact Hp|]. split; [done|]. split.
  { unfold alert_payload. rewrite Hcol. cbn [mbind outcome_bind result_bind]. by rewrite Hrs. }
  intros name.
  assert (name <$> rs = (map_order sm).*1) as Hnames.
  { clear -Hall. induction Hall as [|p r l rs [Hn _] _ IH]; [done|]. cbn. by rewrite IH, <-Hn. }
  split_and!.
  - rewrite Hnames. apply NoDup_map_order.
  - intros h. rewrite Hnames. destruct (Hs h) as [_ Hs2]. rewrite lookup_empty in Hs2. split.
    + intros ([h' l] & -> & Hin%elem_of_map_order)%list_elem_of_fmap. cbn in *.
      destruct (proj1 Hs2) as [[? ?]|]; [by eexists|done|done].
    + intros Hh. destruct (proj2 Hs2 (or_intror Hh)) as [l Hl]. apply list_elem_of_fmap. exists (h, l).
      split; [done|]. by apply elem_of_map_order.
  - apply Forall_forall. intros r Hr.
    destruct (list_elem_of_lookup_1 _ _ Hr) as [i Hi]. destruct (Forall2_lookup_r _ _ _ _ _ Hall Hi) as ([h l] & Hk & Hn & Hsv & Hst).
    split; [|done]. cbn in Hn, Hsv. rewrite Hsv. unfold name. rewrite Hn.
    apply list_elem_of_lookup_2, elem_of_map_order in Hk. destruct (Hs h) as [Hs1 _]. rewrite Hk, lookup_empty in Hs1. done.
  - exists (map_order gm). split_and!; [apply NoDup_map_order| |done].
    intros h g. rewrite elem_of_map_order, Hg, lookup_empty. by destruct (host_group results h).
Qed.
End payload.

(** ** Witnesses *)

Definition no_time : Timestamp := mkTimestamp (-62135596800) 0 UTCLoc.

Definition node_alert (severity : string) : Alert :=
  mkAlert {["summary" := "disk is full"]} {["node" := "n1"; "severity" := severity]} (mkTimestamp 100 0 LocalLoc) no_time.

Definition node_config : @ExtConfig unit :=
  mkExtConfig [all_of "cluster" "$1"; all_of "" "all"] [all_of "node" "$1"] [all_of "severity" "alert-$1"].

Lemma alert_payload_spec_witness :
  ∃ results resources groups,
    ParsePrometheusData (H := whole) (λ _, 0%nat) (λ _, (no_time, no_time))
      (mkData [node_alert "major"; node_alert "minor"] ∅ ∅) node_config = Ret results ∧
    alert_payload (H := sorted_order) DefaultCheckInterval (λ _, no_time) (λ _, no_time) results =
      Ret (Val (resources, groups)) ∧
    ∀ h, h ∈ (λ r, bi_Name (br_BaseInfo (mr_BaseResource r))) <$> resources ↔ h ∈ pr_HostName <$> results.
Proof.
  destruct (@alert_payload_spec sorted_order DefaultCheckInterval (λ _, 0%nat) unit whole whole_laws node_config
    (λ _, (no_time, no_time)) (λ _, no_time) (λ _, no_time) (mkData [node_alert "major"; node_alert "minor"] ∅ ∅))
    as (results & resources & groups & H1 & _ & H2 & _ & H3 & _).
  - by repeat constructor.
  - by exists results, resources, groups.
Defined.

(** A configuration with a pattern that does not compile is in force all the same:
    the next alert with its tag panics. *)
Lemma uncompiled_in_force :
  let bad := mkMapping "node" "(" "$1" None in
  let cfg := (ConfigHandler (H := whole) node_config (Val (mkExtConfig [] [bad] []))).1 in
  is_panic (ParsePrometheusData (H := whole) (λ _, 0%nat) (λ _, (no_time, no_time))
              (mkData [node_alert "major"] ∅ ∅) cfg) = true.
Proof. vm_compute. reflexivity. Qed.
