(* ===== verification/Nedi.v ===== *)
(** connectors/snmp, the NeDi side: the credentials of nedi.conf
    (utils/nediConfUtils.go) and the client of the NeDi server
    (clients/nediClient.go).

    The compiler of regular expressions, the JSON decoder and the network are
    arguments. *)

From S2P Require Import Prelude.
From S2P Require Import GoString.
From S2P Require Import GoFloat.
From S2P Require Import Errors.
From S2P Require Import Regexp.
From S2P Require Import Payload.
From S2P Require Import Http.
From S2P Require Import Json.

Local Open Scope string_scope.
Local Open Scope nat_scope.

(** ** Passwords *)

Definition default_key : string := "change for more security".

(** [byte(int(ch) ^ int(i))] *)
Definition xor_byte (ch i : ascii) : ascii := ascii_of_N (N.lxor (N_of_ascii ch) (N_of_ascii i)).

(** The loop of [XORpass]: the last byte of the key, which then becomes its first. *)
Fixpoint xor_loop (k s : list ascii) : outcome (list ascii) :=
  match s with
  | [] => Ret []
  | ch :: s =>
      match last k with
      | None => Panic "index out of range [-1]"
      | Some i => r ← xor_loop (i :: take (length k - 1) k) s; Ret (xor_byte ch i :: r)
      end
  end.

(** [NEDI_ENCRYPT_KEY], when it is set, even to nothing. *)
Definition XORpass (NEDI_ENCRYPT_KEY : option string) (s : list ascii) : outcome (list ascii) :=
  xor_loop (String.list_ascii_of_string (default default_key NEDI_ENCRYPT_KEY)) s.

Definition Decrypt (NEDI_ENCRYPT_KEY : option string) (s : string) : outcome (result error string) :=
  match hex_decode s with
  | Fail e => Ret (Fail e)
  | Val enc =>
      r ← XORpass NEDI_ENCRYPT_KEY (String.list_ascii_of_string enc); Ret (Val (String.string_of_list_ascii r))
  end.

Definition Encrypt (NEDI_ENCRYPT_KEY : option string) (s : string) : outcome string :=
  r ← XORpass NEDI_ENCRYPT_KEY (String.list_ascii_of_string s); Ret (hex_encode (String.string_of_list_ascii r)).

(** ** nedi.conf *)

Definition colComm : string := "comm".
Definition colName : string := "name".
Definition colAuthProtocol : string := "aprot".
Definition colAuthPassword : string := "apass".
Definition colPrivacyProtocol : string := "pprot".
Definition colPrivacyPassword : string := "ppass".

(** A column beyond the last has the empty name. *)
Definition commColIdxMap (i : nat) : string :=
  nth i [colComm; colName; colAuthProtocol; colAuthPassword; colPrivacyProtocol; colPrivacyPassword] "".

(** The pattern of a community, as it is given to the compiler. *)
Definition commLinePattern (community : string) : string :=
  "comm(sec)?\s+" +:+ community +:+ "(\z|\s+)".

Record SecurityData := mkSecurityData {
  sd_Name : string;
  sd_AuthProtocol : string;
  sd_AuthPassword : string;
  sd_PrivacyProtocol : string;
  sd_PrivacyPassword : string;
}.

(** [regexp.MatchString]: some position from which the pattern matches. *)
Fixpoint MatchString (r : regexp) (s : string) : bool :=
  bool_decide (is_Some (run r s ∅ (λ _ _, Some tt))) ||
  match s with "" => false | String _ s => MatchString r s end.

(** The columns of a line: a value without its blanks, none for an empty one. *)
Definition comm_data (line : string) : gmap string string :=
  (foldl (λ '(m, colIdx) value,
     let v := ReplaceAll value " " "" in
     if decide (v = "") then (m, colIdx) else (<[commColIdxMap colIdx := v]> m, S colIdx))
    (∅, 0) (Split line (String (ascii_of_nat 9) ""))).1.

Definition comm_column (m : gmap string string) (name : string) : string := default "" (m !! name).

Section nediConf.
Context (NEDI_ENCRYPT_KEY : option string).

(** The password of a column of a commsec line. *)
Definition clear_password (secure : bool) (pass : string) (message : string) : outcome (result error string) :=
  if secure && negb (bool_decide (pass = "")) then
    r ← Decrypt NEDI_ENCRYPT_KEY pass;
    Ret (match r with Val p => Val p | Fail _ => Fail (Opaque message) end)
  else Ret (Val pass).

(** The body of the loop for a line that matches. *)
Definition line_security (line : string) : outcome (result error SecurityData) :=
  let m := comm_data line in
  let secure := bool_decide (comm_column m colComm = "commsec") in
  aPass ← clear_password secure (comm_column m colAuthPassword) "failed to decrypt authentication password";
  match aPass with
  | Fail e => Ret (Fail e)
  | Val aPass =>
      pPass ← clear_password secure (comm_column m colPrivacyPassword) "failed to decrypt privacy password";
      Ret (pPass ← pPass;
           Val (mkSecurityData (comm_column m colName) (comm_column m colAuthProtocol) aPass
                  (comm_column m colPrivacyProtocol) pPass))
  end.

(** The loop over the lines; the pattern is compiled for every line, and a line is
    skipped when it does not compile. *)
Fixpoint scan_lines (pattern : result error regexp) (lines : list string) (scan_err : option error)
  : outcome (result error SecurityData) :=
  match lines with
  | [] =>
      Ret (Fail (Opaque (match scan_err with
                         | Some _ => "failed to read nedi.conf"
                         | None => "no info found for community"
                         end)))
  | line :: lines =>
      match pattern with
      | Fail _ => scan_lines pattern lines scan_err
      | Val r => if MatchString r line then line_security line else scan_lines pattern lines scan_err
      end
  end.

(** [retrieveConfFilepath] *)
Definition retrieveConfFilepath (NEDI_CONF_PATH : string) : string :=
  if decide (NEDI_CONF_PATH = "") then ""
  else if HasSuffix NEDI_CONF_PATH "/" then NEDI_CONF_PATH else NEDI_CONF_PATH +:+ "/".

(** [open] gives the lines of a file that the scanner delivers, and its error. *)
Context (regexp_compile : string → result error regexp).
Context (open : string → result error (list string * option error)).

Definition GetSecurityData (NEDI_CONF_PATH community : string) : outcome (result error SecurityData) :=
  match open (retrieveConfFilepath NEDI_CONF_PATH +:+ "nedi.conf") with
  | Fail _ => Ret (Fail (Opaque "failed to open nedi.conf"))
  | Val (lines, scan_err) => scan_lines (regexp_compile (commLinePattern community)) lines scan_err
  end.
End nediConf.

(** The pattern of a community that has no character special to the compiler. *)
Definition comm_regexp (community : string) : regexp :=
  literal "comm" (Seq (Maybe (literal "sec" epsilon))
    (Seq (at_least_one (in_class Space))
      (literal community (Alt EndText (at_least_one (in_class Space)))))).

(** ** The NeDi server *)

Definition colDevice : string := "device".
Definition colDevIP : string := "devip".
Definition colMonIP : string := "monip".
Definition colReadComm : string := "readcomm".
Definition colIfName : string := "ifname".
Definition colIfIndex : string := "ifidx".
Definition colLastOK : string := "lastok".
Definition colIfStat : string := "ifstat".

Record Device := mkDevice {
  dv_Name : string;
  dv_IP : string;
  dv_Community : string;
  dv_LastOK : Z;
}.

Record Monitoring := mkMonitoring {
  mn_Name : string;
  mn_IP : string;
  mn_Device : string;
  mn_LastOK : Z;
}.

Record Interface := mkInterface {
  if_Name : string;
  if_Device : string;
  if_Index : Z;
  if_Status : Z;
}.

(** [int(v)] of a float on amd64: a value out of range becomes the least integer. *)
Definition int_of_float (x : float64) : Z :=
  match f_trunc x with
  | Some z => if decide (in_int64 z) then z else (- 2 ^ 63)%Z
  | None => (- 2 ^ 63)%Z
  end.

(** [getInt] of a decoded value: the only number among them is a float64. *)
Definition getInt (v : json) : result error Z :=
  match v with
  | JNumber x => Val (int_of_float x)
  | _ => Fail (Opaque "unsupported type")
  end.

(** The field of an object; a missing one is nil. *)
Definition json_field (fields : gmap string json) (col : string) : json := default JNull (fields !! col).

(** [net.IP.String] of four big-endian bytes. *)
Definition ip_byte (v : Z) (i : Z) : Z := ((v / 2 ^ (8 * i)) `mod` 256)%Z.

Definition int2ip (val : Z) : string :=
  let v := uwrap 32 val in
  Join (FormatInt <$> [ip_byte v 3; ip_byte v 2; ip_byte v 1; ip_byte v 0]) ".".

(** [Init] of the client, whose state is the server. *)
Definition Init (Server server : string) : string * option error :=
  if decide (server = "") then (Server, Some (Opaque "missing NeDi server")) else (server, None).

Definition getConnectionString (Server table query order : string) : result error string :=
  if decide (Server = "") then Fail (Opaque "nedi client is not configured")
  else if decide (table = "") then Fail (Opaque "missing table")
  else
    let q := if decide (query = "") then "" else "&q=" +:+ QueryEscape query in
    let o := if decide (order = "") then "" else "&o=" +:+ QueryEscape order in
    Val ("http://" +:+ Server +:+ "/nedi/query.php?c=1&t=" +:+ table +:+ q +:+ o).

Section nedi_client.
(** [decode] is [json.Unmarshal] into a slice, [get url] the status, the body and
    the error of a request. *)
Context (decode : string → result error (list json)).
Context (get : string → Z * option string * option error).

Definition executeGet (url : string) : result error string :=
  match get url with
  | (s, Some r, None) => if decide (s = 200)%Z then Val r else Fail (Opaque "failed to get from NeDi")
  | _ => Fail (Opaque "failed to get from NeDi")
  end.

(** [parseResponse]: the objects after the first element, which is the system's; the
    capacity of the result is negative for an empty array. *)
Definition parseResponse (bytes : string) : outcome (list (gmap string json)) :=
  match decode bytes with
  | Fail _ => Ret []
  | Val [] => Panic "makeslice: cap out of range"
  | Val (_ :: response) => Ret (omap (λ r, match r with JObject m => Some m | _ => None end) response)
  end.

(** An unchecked type assertion. *)
Definition assert_string (v : json) : outcome string :=
  match v with JString s => Ret s | _ => Panic "interface conversion" end.
Definition assert_float (v : json) : outcome float64 :=
  match v with JNumber x => Ret x | _ => Panic "interface conversion" end.

(** The body of the loop over the monitored devices. *)
Definition add_monitoring (monitors : gmap string Monitoring) (fields : gmap string json)
  : outcome (gmap string Monitoring) :=
  name ← assert_string (json_field fields colName);
  device ← assert_string (json_field fields colDevice);
  lastOK ← assert_float (json_field fields colLastOK);
  Ret (match getInt (json_field fields colMonIP) with
       | Fail _ => monitors
       | Val ip => <[device := mkMonitoring name (int2ip ip) device (int_of_float lastOK)]> monitors
       end).

Definition getMonitoredDevices (Server : string) : outcome (result error (gmap string Monitoring)) :=
  match getConnectionString Server "monitoring" "" "" with
  | Fail _ => Ret (Fail (Opaque "could not get NeDi monitoring connection string"))
  | Val path =>
      match executeGet path with
      | Fail _ => Ret (Fail (Opaque "could not execute NeDi monitoring request"))
      | Val response => objects ← parseResponse response; Val <$> foldM add_monitoring ∅ objects
      end
  end.

(** The body of the loop of [parseDevices]. *)
Definition parse_device (monitored : gmap string Monitoring) (d : gmap string json) : option Device :=
  match json_field d colDevice with
  | JString name =>
      match monitored !! name with
      | None => None
      | Some mon =>
          match getInt (json_field d colDevIP), json_field d colReadComm with
          | Val ip, JString community => Some (mkDevice name (int2ip ip) community (mn_LastOK mon))
          | _, _ => None
          end
      end
  | _ => None
  end.

Definition parseDevices (bytes : string) (monitored : gmap string Monitoring) : outcome (list Device) :=
  objects ← parseResponse bytes; Ret (omap (M:=list) (parse_device monitored) objects).

(** The body of the loop of [parseInterfaces]: a status that is no number is only
    logged. *)
Definition parse_interface (i : gmap string json) : option Interface :=
  match json_field i colIfName, json_field i colDevice with
  | JString name, JString device =>
      let status := match getInt (json_field i colIfStat) with Val s => s | Fail _ => (-1)%Z end in
      match getInt (json_field i colIfIndex) with
      | Val index => Some (mkInterface name device index status)
      | Fail _ => None
      end
  | _, _ => None
  end.

Definition parseInterfaces (bytes : string) : outcome (list Interface) :=
  objects ← parseResponse bytes; Ret (omap (M:=list) parse_interface objects).

Definition GetDevices (Server : string) : outcome (result error (list Device)) :=
  monitored ← getMonitoredDevices Server;
  match monitored with
  | Fail e => Ret (Fail e)
  | Val monitored =>
      if decide (size monitored = 0) then Ret (Val [])
      else
        match getConnectionString Server "devices" "" "" with
        | Fail _ => Ret (Fail (Opaque "could not get NeDi connection string"))
        | Val path =>
            match executeGet path with
            | Fail _ => Ret (Fail (Opaque "could not execute NeDi request"))
            | Val r => Val <$> parseDevices r monitored
            end
        end
  end.

Definition GetDeviceInterfaces (Server device : string) : outcome (result error (list Interface)) :=
  if decide (device = "") then Ret (Fail (Opaque "missing device"))
  else
    match getConnectionString Server "interfaces" (colDevice +:+ " = " +:+ device) "" with
    | Fail _ => Ret (Fail (Opaque "could not get NeDi connection string"))
    | Val path =>
        match executeGet path with
        | Fail _ => Ret (Fail (Opaque "could not execute NeDi request"))
        | Val r => Val <$> parseInterfaces r
        end
    end.
End nedi_client.

(** ** Lemmas: passwords *)

Lemma rotate_join {A} (i : A) r n :
  concat (replicate (S n) (i :: r)) = i :: (concat (replicate n (r ++ [i])) ++ r)%list.
Proof.
  induction n as [|n IH]; [cbn; by rewrite app_nil_r|].
  change (concat (replicate (S (S n)) (i :: r))) with ((i :: r) ++ concat (replicate (S n) (i :: r)))%list.
  rewrite IH. cbn [replicate concat app]. by rewrite <-!app_assoc.
Qed.

Lemma length_join_replicate {A} (l : list A) n : length (concat (replicate n l)) = n * length l.
Proof. induction n as [|n IH]; [done|]. cbn [replicate concat]. rewrite length_app. lia. Qed.

(** The bytes of the key from the last to the first, over and over. *)
Definition keystream (k : list ascii) (n : nat) : list ascii := take n (concat (replicate n (reverse k))).

Lemma xor_loop_stream k s : k ≠ [] → xor_loop k s = Ret (zip_with xor_byte s (keystream k (length s))).
Proof.
  revert k. induction s as [|ch s IH]; intros k Hk; [done|].
  destruct (exists_last Hk) as (k' & i & ->). cbn [xor_loop]. rewrite last_snoc, length_app. cbn [length].
  rewrite Nat.add_sub, take_app_length, IH by done. cbn [mbind outcome_bind]. do 2 f_equal.
  unfold keystream. rewrite reverse_snoc, reverse_cons, rotate_join. cbn [take zip_with].
  rewrite take_app_le; [done|]. rewrite length_join_replicate, length_app. cbn [length]. nia.
Qed.

Lemma length_keystream k n : k ≠ [] → length (keystream k n) = n.
Proof.
  intros Hk. unfold keystream. rewrite length_take, length_join_replicate, length_reverse.
  assert (0 < length k) by (destruct k; [done|simpl; lia]). nia.
Qed.

Lemma xor_byte_twice a b : xor_byte (xor_byte a b) b = a.
Proof.
  unfold xor_byte. rewrite N_ascii_embedding.
  - by rewrite N.lxor_assoc, N.lxor_nilpotent, N.lxor_0_r, ascii_N_embedding.
  - pose proof (N_ascii_bounded a) as Ha. pose proof (N_ascii_bounded b) as Hb.
    destruct (decide (N.lxor (N_of_ascii a) (N_of_ascii b) = 0%N)) as [->|Hne]; [lia|].
    change 256%N with (2 ^ 8)%N. apply N.log2_lt_pow2; [lia|].
    pose proof (N.log2_lxor (N_of_ascii a) (N_of_ascii b)) as Hl.
    assert (∀ x, (x < 256)%N → (N.log2 x < 8)%N) as H8.
    { intros x Hx. destruct (decide (x = 0%N)) as [->|]; [done|]. by apply N.log2_lt_pow2; [lia|]. }
    pose proof (H8 _ Ha). pose proof (H8 _ Hb). lia.
Qed.

Lemma xor_twice s t : length s ≤ length t → zip_with xor_byte (zip_with xor_byte s t) t = s.
Proof.
  revert t. induction s as [|a s IH]; intros [|b t] Hl; cbn in *; [done|done|lia|].
  by rewrite xor_byte_twice, IH by lia.
Qed.

Lemma key_nonempty key : key ≠ Some "" → String.list_ascii_of_string (default default_key key) ≠ [].
Proof. by destruct key as [[|c k]|]. Qed.

Lemma XORpass_ret key s :
  key ≠ Some "" → XORpass key s =
  Ret (zip_with xor_byte s (keystream (String.list_ascii_of_string (default default_key key)) (length s))).
Proof. intros Hk. by apply xor_loop_stream, key_nonempty. Qed.

Lemma XORpass_twice key s : key ≠ Some "" → (r ← XORpass key s; XORpass key r) = Ret s.
Proof.
  intros Hk. rewrite XORpass_ret by done. cbn [mbind outcome_bind]. rewrite XORpass_ret by done.
  pose proof (key_nonempty key Hk) as Hne.
  rewrite length_zip_with_l_eq by (by rewrite length_keystream).
  rewrite xor_twice; [done|]. by rewrite length_keystream.
Qed.

(** ** Lemmas: lines of nedi.conf *)

Definition tab : ascii := ascii_of_nat 9.
Definition blank : ascii := " "%char.

(** A text without the characters that are special to the compiler. *)
Definition plain (s : string) : bool := str_forallb (λ c, negb (has_byte c "\.+*?()|[]{}^$")) s.

(** A value of a column: some text without blanks and tabs. *)
Definition column_ok (v : string) : bool := negb (bool_decide (v = "")) && no_byte tab v && no_byte blank v.

Lemma ReplaceAll_blank v : no_byte blank v = true → ReplaceAll v " " "" = v.
Proof. apply ReplaceAll_no_byte. Qed.

Lemma commColIdxMap_inj i j : i < 6 → j < 6 → commColIdxMap i = commColIdxMap j → i = j.
Proof. intros Hi Hj. do 6 (destruct i as [|i]; [do 6 (destruct j as [|j]; [done|]); lia|]). lia. Qed.

(** The columns of a line of at most six values, by their names. *)
Lemma comm_data_columns cols i :
  cols ≠ [] → Forall (λ v, column_ok v = true) cols → length cols ≤ 6 → i < 6 →
  comm_column (comm_data (Join cols (String tab ""))) (commColIdxMap i) = nth i cols "".
Proof.
  intros Hne Hok Hlen Hi. unfold comm_data, comm_column. fold tab. rewrite Split_Join_byte; [|done|].
  2:{ eapply Forall_impl; [exact Hok|]. by intros v [[_ ?]%andb_true_iff _]%andb_true_iff. }
  assert (∀ (m : gmap string string) c, c + length cols ≤ 6 →
    (foldl (λ '(m, colIdx) value,
       let v := ReplaceAll value " " "" in
       if decide (v = "") then (m, colIdx) else (<[commColIdxMap colIdx := v]> m, S colIdx)) (m, c) cols).1
      !! commColIdxMap i =
    if decide (c ≤ i < c + length cols) then Some (nth (i - c) cols "") else m !! commColIdxMap i) as H.
  { clear Hne Hlen. induction Hok as [|v cols Hv Hok IH]; intros m c Hc; cbn [length foldl] in *.
    { rewrite decide_False by lia. done. }
    apply andb_true_iff in Hv as [[Hv1%negb_true_iff%bool_decide_eq_false _]%andb_true_iff Hv2].
    rewrite ReplaceAll_blank by done. cbn zeta. rewrite decide_False, IH by (done || lia).
    destruct (decide (S c ≤ i < S c + length cols)) as [Hin|Hout].
    - rewrite decide_True by lia. replace (i - c) with (S (i - S c)) by lia. done.
    - destruct (decide (c = i)) as [->|Hne].
      + rewrite decide_True by lia. rewrite Nat.sub_diag. apply lookup_insert_eq.
      + rewrite decide_False by lia. apply lookup_insert_ne. intros He%commColIdxMap_inj; lia. }
  rewrite H, Nat.sub_0_r by lia. cbn [plus]. destruct (decide (0 ≤ i < length cols)) as [|Hout]; [done|].
  rewrite lookup_empty, nth_overflow by lia. done.
Qed.

Lemma matches_literal s r t m t' m' : matches r t m t' m' → matches (literal s r) (s +:+ t) m t' m'.
Proof. induction s as [|c s IH]; intros Hr; [done|]. cbn. econstructor; [constructor|by apply IH]. Qed.

Lemma matches_one_space c t m :
  in_class Space c = true → matches (at_least_one (in_class Space)) (String c t) m t m.
Proof.
  intros Hc. econstructor; [by apply match_OneOf|]. rewrite rune_size_ascii; [apply match_Repeat_stop|].
  unfold ascii7. cbn in Hc. repeat (apply orb_true_iff in Hc as [Hc|Hc]);
    apply bool_decide_eq_true in Hc; rewrite Hc; lia.
Qed.

(** A line of the community, its word followed by one white character. *)
Lemma comm_line_matches sec sp sp' name rest :
  sec = "" ∨ sec = "sec" → in_class Space sp = true → in_class Space sp' = true →
  MatchString (comm_regexp name) ("comm" +:+ (sec +:+ String sp (name +:+ String sp' rest))) = true.
Proof.
  intros Hsec Hsp Hsp'.
  assert (matches (comm_regexp name) ("comm" +:+ (sec +:+ String sp (name +:+ String sp' rest))) ∅ rest ∅) as Hm.
  { apply matches_literal. econstructor.
    - instantiate (1 := ∅). instantiate (1 := String sp (name +:+ String sp' rest)).
      destruct Hsec as [->| ->]; [apply match_Skip|]. apply match_Maybe, matches_literal, match_Repeat_stop.
    - econstructor; [by apply matches_one_space|]. apply matches_literal, match_Alt_r. by apply matches_one_space. }
  assert (is_Some (run (comm_regexp name) ("comm" +:+ (sec +:+ String sp (name +:+ String sp' rest))) ∅
    (λ _ _, Some tt))) as Hr by by eapply run_complete.
  cbn [String.append MatchString] in *. rewrite bool_decide_true by done. done.
Qed.

Lemma scan_lines_skip key r before l after err :
  Forall (λ l, MatchString r l = false) before → MatchString r l = true →
  scan_lines key (Val r) (before ++ l :: after) err = line_security key l.
Proof.
  intros Hb Hl. induction Hb as [|b before Hb _ IH]; cbn [app scan_lines]; [by rewrite Hl|by rewrite Hb].
Qed.

Lemma hex_column_ok s : s ≠ "" → column_ok (hex_encode s) = true.
Proof.
  intros Hs. unfold column_ok.
  assert (∀ c, c = tab ∨ c = blank → no_byte c (hex_encode s) = true) as Hno.
  { intros c Hc. clear Hs. induction s as [|d s IH]; [done|]. cbn [hex_encode no_byte str_forallb].
    pose proof (nat_ascii_bounded d).
    assert (∀ n, n < 16 → negb (bool_decide (c = hex_digit n)) = true) as Hd.
    { intros n Hn. apply negb_true_iff, bool_decide_false. destruct Hc as [->| ->];
        do 16 (destruct n as [|n]; [done|]); lia. }
    unfold no_byte in IH. rewrite IH.
    rewrite !Hd by first [apply Nat.Div0.div_lt_upper_bound; lia | apply Nat.mod_upper_bound; lia]. done. }
  rewrite !Hno by auto. destruct s; [done|]. cbn [hex_encode]. done.
Qed.

(** ** Properties *)

(** A password that [Encrypt] wrote is read back by [Decrypt]: each byte is combined
    with the key read backwards and repeated.  A key that is set to nothing panics. *)
Theorem nedi_password_roundtrip (key : option string) (s : string) :
  (key ≠ Some "" → ∃ e, Encrypt key s = Ret e ∧ Decrypt key e = Ret (Val s) ∧
     String.list_ascii_of_string <$> hex_decode e =
     Val (zip_with xor_byte (String.list_ascii_of_string s)
            (keystream (String.list_ascii_of_string (default default_key key)) (String.length s)))) ∧
  (s ≠ "" → is_panic (Encrypt (Some "") s) = true ∧ is_panic (Decrypt (Some "") (hex_encode s)) = true).
Proof.
  split.
  - intros Hk. unfold Encrypt, Decrypt. pose proof (XORpass_twice key (String.list_ascii_of_string s) Hk) as Ht.
    assert (length (String.list_ascii_of_string s) = String.length s) as Hl
      by (clear; induction s as [|c s IH]; [done|]; cbn; by rewrite IH).
    rewrite XORpass_ret in * by done. cbn [mbind outcome_bind] in *. eexists. split_and!; [done| |].
    + rewrite hex_decode_encode, String.list_ascii_of_string_of_list_ascii, Ht. cbn [mbind outcome_bind].
      by rewrite String.string_of_list_ascii_of_string.
    + rewrite hex_decode_encode. cbn [fmap result_fmap].
      by rewrite String.list_ascii_of_string_of_list_ascii, Hl.
  - destruct s as [|c s]; [done|]. intros _. split; [done|]. unfold Decrypt. by rewrite hex_decode_encode.
Qed.

Lemma nedi_password_roundtrip_witness :
  Encrypt None "groundworkdevelopment" = Ret "1e0606071b07121c520e160a1b451e00164d00091a" ∧
  ∃ e, Encrypt None "aaaa" = Ret e ∧ Decrypt None e = Ret (Val "aaaa").
Proof.
  split; [by vm_compute|]. destruct (proj1 (nedi_password_roundtrip None "aaaa") ltac:(done)) as (e & H1 & H2 & _).
  by exists e.
Defined.

Section commsec.
(** What the compiler does with a plain community. *)
Context (regexp_compile : string → result error regexp).
Context (compile_plain : ∀ c, plain c = true → regexp_compile (commLinePattern c) = Val (comm_regexp c)).

(** C27: The first line of a community gives its security data, when it is a complete line
    of [commsec] with its six columns and the name of the community has no character that
    a pattern reads in its own way: the columns between tabs in their order, the passwords
    as they were before [Encrypt]. *)
Theorem GetSecurityData_commsec (key : option string) open path name ap pp pass1 pass2 e1 e2 before after err :
  key ≠ Some "" → plain name = true → Forall (λ v, column_ok v = true) [name; ap; pp] →
  pass1 ≠ "" → pass2 ≠ "" → Encrypt key pass1 = Ret e1 → Encrypt key pass2 = Ret e2 →
  open (retrieveConfFilepath path +:+ "nedi.conf") =
    Val ((before ++ Join ["commsec"; name; ap; e1; pp; e2] (String tab "") :: after)%list, err) →
  Forall (λ l, MatchString (comm_regexp name) l = false) before →
  GetSecurityData key regexp_compile open path name = Ret (Val (mkSecurityData name ap pass1 pp pass2)).
Proof using Type*.
  intros Hk Hplain Hok Hp1 Hp2 He1 He2 Hopen Hbefore. unfold GetSecurityData. rewrite Hopen, compile_plain by done.
  assert (∀ p e, p ≠ "" → Encrypt key p = Ret e → column_ok e = true ∧ Decrypt key e = Ret (Val p)) as Hcol.
  { intros p e Hp He. destruct (proj1 (nedi_password_roundtrip key p) Hk) as (e' & He' & Hd & _).
    rewrite He in He'. injection He' as <-. split; [|done]. unfold Encrypt in He.
    apply bind_Ret_inv in He as (r & Hr & [= <-]). apply hex_column_ok.
    rewrite XORpass_ret in Hr by done. injection Hr as <-. destruct p as [|c p]; [done|].
    cbn [String.list_ascii_of_string length].
    pose proof (length_keystream _ (S (length (String.list_ascii_of_string p))) (key_nonempty key Hk)) as Hl.
    by destruct (keystream _ _). }
  destruct (Hcol pass1 e1 Hp1 He1) as [Hc1 Hd1]. destruct (Hcol pass2 e2 Hp2 He2) as [Hc2 Hd2].
  rewrite scan_lines_skip; [|done|].
  2:{ apply (comm_line_matches "sec" tab tab name); [by right|done..]. }
  inversion Hok as [|? ? Hn Hok1]; subst. inversion Hok1 as [|? ? Ha Hok2]; subst.
  inversion Hok2 as [|? ? Hpp _]; subst.
  set (cols := ["commsec"; name; ap; e1; pp; e2]).
  assert (∀ i, i < 6 → comm_column (comm_data (Join cols (String tab ""))) (commColIdxMap i) = nth i cols "") as Hi.
  { intros i Hi. apply comm_data_columns; [done| |done|done]. by repeat constructor. }
  assert (∀ e, column_ok e = true → bool_decide (e = "") = false) as Hne.
  { intros e. unfold column_ok. by destruct (bool_decide (e = "")). }
  unfold line_security, clear_password.
  rewrite (Hi 0 ltac:(lia) : comm_column _ colComm = _), (Hi 1 ltac:(lia) : comm_column _ colName = _),
    (Hi 2 ltac:(lia) : comm_column _ colAuthProtocol = _), (Hi 3 ltac:(lia) : comm_column _ colAuthPassword = _),
    (Hi 4 ltac:(lia) : comm_column _ colPrivacyProtocol = _), (Hi 5 ltac:(lia) : comm_column _ colPrivacyPassword = _).
  cbn [nth cols].
  rewrite bool_decide_true by done. rewrite (Hne e1), (Hne e2) by done. cbn [andb negb].
  rewrite Hd1. cbn [mbind outcome_bind]. rewrite Hd2. done.
Qed.

(** Blanks separate for the pattern and not for the columns: the line is found, and
    its data has no name. *)
Theorem blank_separated_line key open path name before after err :
  plain name = true → Forall (λ v, column_ok v = true) [name] →
  open (retrieveConfFilepath path +:+ "nedi.conf") =
    Val ((before ++ ("comm" +:+ String blank (name +:+ String blank "")) :: after)%list, err) →
  Forall (λ l, MatchString (comm_regexp name) l = false) before →
  GetSecurityData key regexp_compile open path name = Ret (Val (mkSecurityData "" "" "" "" "")).
Proof using Type*.
  intros Hplain Hok Hopen Hbefore. unfold GetSecurityData. rewrite Hopen, compile_plain by done.
  rewrite scan_lines_skip; [|done|].
  2:{ apply (comm_line_matches "" blank blank name); [by left|done..]. }
  inversion Hok as [|? ? Hn _]; subst. unfold column_ok in Hn.
  apply andb_true_iff in Hn as [[_ Hnt]%andb_true_iff Hnb].
  set (line := "comm" +:+ String blank (name +:+ String blank "")).
  assert (ReplaceAll line " " "" = "comm" +:+ name) as Hv.
  { subst line. rewrite ReplaceAll_app_no_byte by done.
    pose proof (ReplaceAll_prefix " " "" (name +:+ String blank "") ltac:(done)) as Hp.
    change (" " +:+ (name +:+ String blank "")) with (String blank (name +:+ String blank "")) in Hp.
    rewrite Hp, ReplaceAll_app_no_byte by done. cbn. by rewrite str_app_nil_r. }
  assert (comm_data line = {[colComm := "comm" +:+ name]}) as Hd.
  { unfold comm_data. fold tab.
    assert (Split line (String tab "") = [line]) as ->.
    { apply (Split_Join_byte tab [line]); [done|]. repeat constructor. subst line. cbn. unfold no_byte in Hnt.
      by rewrite str_forallb_app, Hnt. }
    cbn [foldl]. by rewrite Hv. }
  assert (∀ c, c ≠ colComm → comm_column {[colComm := "comm" +:+ name]} c = "") as Hother.
  { intros c Hc. unfold comm_column. by rewrite lookup_singleton_ne. }
  unfold line_security, clear_password. rewrite Hd, (Hother colAuthPassword), (Hother colName), (Hother colAuthProtocol),
    (Hother colPrivacyProtocol), (Hother colPrivacyPassword) by done. by rewrite andb_false_r.
Qed.
End commsec.

(** A compiler that reads back the community between the fixed parts. *)
Definition plain_compile (p : string) : result error regexp :=
  Val (comm_regexp (str_take (String.length p - 21) (str_drop 13 p))).

Lemma plain_compile_plain c : plain c = true → plain_compile (commLinePattern c) = Val (comm_regexp c).
Proof.
  intros _. unfold plain_compile, commLinePattern. do 2 f_equal.
  change 13 with (String.length "comm(sec)?\s+"). rewrite str_drop_app, !length_str_app.
  replace (_ - 21) with (String.length c) by (cbn; lia). apply str_take_app.
Qed.

Definition sample_conf : string → result error (list string * option error) := λ path,
  if decide (path = "/usr/local/nedi/nedi.conf") then
    Val (["# communities"; Join ["comm"; "public"] (String tab "");
          Join ["commsec"; "snmpuser"; "md5"; "1e0606071b07121c520e160a1b451e00164d00091a"; "des"; "02040f0f"] (String tab "")], None)
  else Fail (Opaque "no such file").

Lemma GetSecurityData_commsec_witness :
  GetSecurityData None plain_compile sample_conf "/usr/local/nedi" "snmpuser" =
  Ret (Val (mkSecurityData "snmpuser" "md5" "groundworkdevelopment" "des" (match Decrypt None "02040f0f" with Ret (Val s) => s | _ => "" end))).
Proof.
  apply (GetSecurityData_commsec plain_compile plain_compile_plain None sample_conf "/usr/local/nedi" "snmpuser" "md5" "des"
    "groundworkdevelopment" (match Decrypt None "02040f0f" with Ret (Val s) => s | _ => "" end)
    "1e0606071b07121c520e160a1b451e00164d00091a" "02040f0f"
    ["# communities"; Join ["comm"; "public"] (String tab "")] [] None).
  - discriminate.
  - reflexivity.
  - repeat constructor.
  - discriminate.
  - vm_compute. discriminate.
  - vm_compute. reflexivity.
  - vm_compute. reflexivity.
  - vm_compute. reflexivity.
  - repeat constructor.
Defined.

(** *** Addresses *)

(** An address is the four bytes of the number modulo 2^32, from the highest: two
    numbers have the same address exactly when they agree there. *)
Lemma byte_text b : (0 ≤ b < 256)%Z → no_byte "." (FormatInt b) = true ∧ ParseInt (FormatInt b) = Val b.
Proof.
  intros Hb. split; [|apply ParseInt_FormatInt; unfold in_int64; lia].
  assert (Forall (λ n, no_byte "." (FormatInt (Z.of_nat n)) = true) (seq 0 256)) as Hall
    by (apply (bool_decide_unpack _); vm_compute; exact I).
  rewrite Forall_forall in Hall. specialize (Hall (Z.to_nat b)). rewrite Z2Nat.id in Hall by lia.
  apply Hall, elem_of_seq. lia.
Qed.

Theorem int2ip_bytes (v : Z) :
  ∃ b3 b2 b1 b0, Split (int2ip v) "." = FormatInt <$> [b3; b2; b1; b0] ∧
    (0 ≤ b3 < 256)%Z ∧ (0 ≤ b2 < 256)%Z ∧ (0 ≤ b1 < 256)%Z ∧ (0 ≤ b0 < 256)%Z ∧
    (b3 * 2 ^ 24 + b2 * 2 ^ 16 + b1 * 2 ^ 8 + b0 = v `mod` 2 ^ 32)%Z ∧
    mapM (M := option) (λ s, match ParseInt s with Val b => Some b | Fail _ => None end) (Split (int2ip v) ".") =
      Some [b3; b2; b1; b0].
Proof.
  set (u := uwrap 32 v). assert (0 ≤ u < 2 ^ 32)%Z as Hu by (apply Z.mod_pos_bound; lia).
  assert (∀ i, (0 ≤ ip_byte u i < 256)%Z) as Hb by (intros i; apply Z.mod_pos_bound; lia).
  exists (ip_byte u 3), (ip_byte u 2), (ip_byte u 1), (ip_byte u 0).
  assert (Split (int2ip v) "." = FormatInt <$> [ip_byte u 3; ip_byte u 2; ip_byte u 1; ip_byte u 0]) as Hs.
  { unfold int2ip. fold u. apply (Split_Join_byte "."); [done|]. apply Forall_fmap. repeat constructor; by apply byte_text. }
  split; [done|]. do 4 (split; [apply Hb|]). split.
  - change (v `mod` 2 ^ 32)%Z with u. unfold ip_byte. change (2 ^ (8 * 0))%Z with 1%Z. rewrite Z.div_1_r.
    change (2 ^ (8 * 3))%Z with (256 * 256 * 256)%Z. change (2 ^ (8 * 2))%Z with (256 * 256)%Z.
    change (2 ^ (8 * 1))%Z with 256%Z. rewrite <-!Z.div_div by lia.
    rewrite (Z.mod_small (u / 256 / 256 / 256)) by
      (split; [repeat apply Z.div_pos; lia|rewrite !Z.div_div by lia; apply Z.div_lt_upper_bound; lia]).
    pose proof (Z.div_mod u 256). pose proof (Z.div_mod (u / 256) 256). pose proof (Z.div_mod (u / 256 / 256) 256). lia.
  - rewrite Hs. cbn [fmap list_fmap mapM mbind option_bind].
    by rewrite !(proj2 (byte_text _ (Hb _))).
Qed.
