(* ===== verification/Snmp.v ===== *)
(** connectors/snmp: the SNMP client (clients/snmpClient.go), the state of the
    monitoring with its deltas and rates (model.go), and the connector (snmp.go and
    cmd.go).

    The SNMP library is an argument: opening a session, and walking an object
    identifier.  The connector's locks protect single assignments and are left out. *)

From S2P Require Import Prelude.
From stdpp Require Import pretty.
From S2P Require Import GoString.
From S2P Require Import GoFloat.
From S2P Require Import Errors.
From S2P Require Import Timestamp.
From S2P Require Import TypedValue.
From S2P Require Import Transit.
From S2P Require Import Status.
From S2P Require Import Codec.
From S2P Require Import Batcher.
From S2P Require Import Http.
From S2P Require Import Nats.
From S2P Require Import Clients.
From S2P Require Import Tracer.
From S2P Require Import Agent.
From S2P Require Import TransitService.
From S2P Require Import Expr.
From S2P Require Import Connectors.
From S2P Require Import FloatText.
From S2P Require Import StatusText.
From S2P Require Import Regexp.
From S2P Require Import Nedi.

Local Open Scope string_scope.

(** ** The SNMP client *)

Definition IfSpeed : string := "ifSpeed".
Definition IfInErrors : string := "ifInErrors".
Definition IfOutErrors : string := "ifOutErrors".
Definition IfInDiscards : string := "ifInDiscards".
Definition IfOutDiscards : string := "ifOutDiscards".
Definition IfInOctets : string := "ifInOctets".
Definition IfOutOctets : string := "ifOutOctets".
Definition IfHCInOctets : string := "ifHCInOctets".
Definition IfHCOutOctets : string := "ifHCOutOctets".
Definition BytesPerSecondIn : string := "bytesPerSecondIn".
Definition BytesPerSecondOut : string := "bytesPerSecondOut".

(** The fields that are used; the description and the unit are not. *)
Record SnmpMetric := mkSnmpMetric {
  sm_Key : string;
  sm_Mib : string;
  sm_Oid : string;
  sm_Name : string;
}.

Definition AvailableMetrics : gmap string SnmpMetric := list_to_map [
  (IfSpeed, mkSnmpMetric "ifSpeed" "ifSpeed" "1.3.6.1.2.1.2.2.1.5" "Interface Speed");
  (IfInErrors, mkSnmpMetric "ifInErrors" "ifInErrors" "1.3.6.1.2.1.2.2.1.14" "Inbound Errors");
  (IfOutErrors, mkSnmpMetric "ifOutErrors" "ifOutErrors" "1.3.6.1.2.1.2.2.1.20" "Outbound Errors");
  (IfInDiscards, mkSnmpMetric "ifInDiscards" "ifInDiscards" "1.3.6.1.2.1.2.2.1.13" "Inbound Discards");
  (IfOutDiscards, mkSnmpMetric "ifOutDiscards" "ifOutDiscards" "1.3.6.1.2.1.2.2.1.19" "Outbound Discards");
  (IfInOctets, mkSnmpMetric "bytesIn" "ifInOctets" "1.3.6.1.2.1.2.2.1.10" "Inbound Bytes");
  (IfOutOctets, mkSnmpMetric "bytesOut" "ifOutOctets" "1.3.6.1.2.1.2.2.1.16" "Outbound Bytes");
  (IfHCInOctets, mkSnmpMetric "bytesInX64" "ifHCInOctets" "1.3.6.1.2.1.31.1.1.1.6" "Inbound Bytes 64-bit");
  (IfHCOutOctets, mkSnmpMetric "bytesOutX64" "ifHCOutOctets" "1.3.6.1.2.1.31.1.1.1.10" "Outbound Bytes 64-bit")].

Definition NonMibMetrics : gmap string SnmpMetric := list_to_map [
  (BytesPerSecondIn, mkSnmpMetric "bytesPerSecondIn" "-" "" "Inbound Bytes Per Second");
  (BytesPerSecondOut, mkSnmpMetric "bytesPerSecondOut" "-" "" "Outbound Bytes Per Second")].

Record SnmpValue := mkSnmpValue { sv_Name : string; sv_Value : Z }.
Record SnmpMetricData := mkSnmpMetricData { smd_SnmpMetric : SnmpMetric; smd_Values : list SnmpValue }.

Inductive SnmpVersion := Version2c | Version3.
Inductive MsgFlags := NoFlags | AuthNoPriv | AuthPriv.
Inductive AuthProtocol := NoAuth | MD5 | SHA.
Inductive PrivProtocol := NoPriv | DES | AES.

Record GoSNMP := mkGoSNMP {
  gs_Target : string;
  gs_Community : string;
  gs_Version : SnmpVersion;
  gs_MsgFlags : MsgFlags;
  gs_UserName : string;
  gs_Auth : AuthProtocol;
  gs_AuthPassphrase : string;
  gs_Priv : PrivProtocol;
  gs_PrivPassphrase : string;
}.

(** [fmt.Errorf(prefix + "%w", e)] *)
Definition prefixed (prefix : string) (e : error) : error := Wrap (prefix +:+ Error e) e.

Definition is_empty (s : string) : bool := bool_decide (s = "").

(** [validate] *)
Definition validate (target : string) (secData : option SecurityData) : option error :=
  let valid :=
    negb (is_empty target) &&
    match secData with
    | None => false
    | Some d =>
        negb (is_empty (sd_Name d)) &&
        (is_empty (sd_AuthProtocol d) || negb (is_empty (sd_AuthPassword d))) &&
        (is_empty (sd_PrivacyProtocol d) || negb (is_empty (sd_PrivacyPassword d)))
    end in
  if valid then None else Some (Opaque "missing required data").

Definition setupV2c (target : string) (community : SecurityData) : result error GoSNMP :=
  match validate target (Some community) with
  | Some e => Fail (prefixed "validation failed: " e)
  | None => Val (mkGoSNMP target (sd_Name community) Version2c NoFlags "" NoAuth "" NoPriv "")
  end.

Definition setupV3 (target : string) (community : SecurityData) : result error GoSNMP :=
  match validate target (Some community) with
  | Some e => Fail (prefixed "validation failed: " e)
  | None =>
      let aprot := ToLower (sd_AuthProtocol community) in
      auth ← (if decide (aprot = "md5") then Val MD5 else if decide (aprot = "sha") then Val SHA
              else Fail (Opaque "unknown authentication protocol"));
      let pprot := ToLower (sd_PrivacyProtocol community) in
      '(flags, priv) ←
        (if decide (sd_PrivacyProtocol community = "") then Val (AuthNoPriv, NoPriv)
         else if decide (pprot = "aes") then Val (AuthPriv, AES)
         else if decide (pprot = "des") then Val (AuthPriv, DES)
         else Fail (Opaque "unknown privacy protocol"));
      Val (mkGoSNMP target "" Version3 flags (sd_Name community) auth (sd_AuthPassword community)
             priv (sd_PrivacyPassword community))
  end.

(** [setup] reads the protocol before the pointer is checked. *)
Definition setup (target : string) (secData : option SecurityData) : outcome (result error GoSNMP) :=
  d ← deref secData;
  Ret (if decide (sd_AuthProtocol d ≠ "") then setupV3 target d else setupV2c target d).

(** The value of a variable, by its Go type. *)
Inductive pdu_value :=
| PUint (z : Z)
| PUint64 (z : Z)
| POther.

(** [walkHandler]: another type is only logged, and its value is 0. *)
Definition walkHandler (name : string) (value : pdu_value) : SnmpValue :=
  mkSnmpValue name (match value with PUint z | PUint64 z => int64 z | POther => 0%Z end).

Section snmp_client.
(** [connect g] is the connection and the error of the first [Connect], [reconnect
    mib] those of the one after a failed walk; [walk conn oid] the variables the
    handler is called with, and the error. *)
Context {conn : Type}.
Context (connect : GoSNMP → option conn * option error).
Context (reconnect : string → option conn).
Context (walk : conn → string → list (string * pdu_value) * option error).

Definition getSnmpData (mib : string) (c : option conn) : result error SnmpMetricData :=
  if decide (mib = "") then Fail (Opaque "missing mib")
  else
    match AvailableMetrics !! mib with
    | None => Fail (Opaque ("unsupported metric " +:+ mib))
    | Some snmpMetric =>
        match c with
        | None => Fail (Opaque "SNMP connect failed")
        | Some c =>
            match walk c (sm_Oid snmpMetric) with
            | (units, None) => Val (mkSnmpMetricData snmpMetric ((λ u, walkHandler u.1 u.2) <$> units))
            | (_, Some e) => Fail e
            end
        end
    end.

(** The loop over the objects: after an error the connection is closed, also when
    there is none, and opened again. *)
Fixpoint walk_mibs (mibs : list string) (c : option conn) : outcome (list SnmpMetricData) :=
  match mibs with
  | [] => Ret []
  | mib :: mibs =>
      match getSnmpData mib c with
      | Val d => rest ← walk_mibs mibs c; Ret (d :: rest)
      | Fail _ => _ ← deref c; walk_mibs mibs (reconnect mib)
      end
  end.

Definition GetSnmpData (mibs : list string) (target : string) (secData : option SecurityData)
  : outcome (result error (list SnmpMetricData)) :=
  match mibs with
  | [] => Ret (Fail (Opaque "no metrics (mibs) provided"))
  | _ =>
      g ← setup target secData;
      match g with
      | Fail e => Ret (Fail (prefixed "SNMP setup failed: " e))
      | Val g =>
          match connect g with
          | (_, Some e) => Ret (Fail (prefixed "SNMP connect failed: " e))
          | (c, None) => _ ← deref c; Val <$> walk_mibs mibs c
          end
      end
  end.
End snmp_client.

(** ** The state of the monitoring *)

Record InterfaceMetric := mkInterfaceMetric { im_Key : string; im_Mib : string; im_Value : Z }.

Record InterfaceExt := mkInterfaceExt {
  ie_Interface : Interface;
  ie_Metrics : gmap string InterfaceMetric;
}.

Record DeviceExt := mkDeviceExt {
  de_Device : Device;
  de_SecData : option SecurityData;
  de_Interfaces : gmap Z InterfaceExt;
}.

Record cachedMetric := mkCachedMetric { cm_Metric : InterfaceMetric; cm_ts : Z }.

(** The cache never expires its values. *)
Abbreviation value_cache := (gmap string cachedMetric).

Definition FiveMinutes : Z := 300.

Definition calculateHostStatus (now lastOk : Z) : MonitorStatus :=
  if decide (int64 (now - lastOk) < FiveMinutes)%Z then HostUp else HostUnreachable.

Definition isDelta (k : MetricKind) : bool := EqualFold k Delta.

Definition makeCK (deviceName iFaceName mib : string) : string :=
  deviceName +:+ ":" +:+ iFaceName +:+ ":" +:+ mib.

(** [makeMetricBuilder], whose value the callers set afterwards. *)
Definition makeMetricBuilder (d : MetricDefinition) (metricName : string) (timestamp : Timestamp) (value : Z)
  : MetricBuilder :=
  mkMetricBuilder metricName (mdef_CustomName d) (mdef_ComputeType d) (mdef_Expression d) (AInt KInt64 value)
    (Some (ArgUnit UnitCounter)) (AInt KInt (mdef_WarningThreshold d)) (AInt KInt (mdef_CriticalThreshold d))
    (Some timestamp) (Some timestamp) (mdef_Graphed d) ∅.

(** The order in which a range over a map with integer keys visits it. *)
Class IndexOrder := {
  index_order : ∀ {A}, gmap Z A → list (Z * A);
  index_order_perm : ∀ A (m : gmap Z A), index_order m ≡ₚ map_to_list m;
}.

(** The value of a metric of the interface, the zero value without it. *)
Definition metric_value (iFace : InterfaceExt) (mib : string) : Z :=
  match ie_Metrics iFace !! mib with Some m => im_Value m | None => 0%Z end.

Section services.
Context `{MapOrder} `{IndexOrder} (CheckInterval : Z).

(** The change since the previous value per second. *)
Definition rate (ts : Z) (iFace : InterfaceExt) (mib : string) (prev : cachedMetric) : outcome Z :=
  int64 <$> go_quot (int64 (metric_value iFace mib - im_Value (cm_Metric prev))) (int64 (ts - cm_ts prev)).

(** A rate from the 64-bit counter if it was cached, else from the other. *)
Definition rate_of (cache : value_cache) (ts : Z) (device : string) (iFace : InterfaceExt) (hc low : string)
  : outcome (option Z) :=
  let ck mib := makeCK device (if_Name (ie_Interface iFace)) mib in
  match cache !! ck hc with
  | Some prev => Some <$> rate ts iFace hc prev
  | None =>
      match cache !! ck low with
      | Some prev => Some <$> rate ts iFace low prev
      | None => Ret None
      end
  end.

(** The loop over the metrics that are no object. *)
Definition nonmib_builder (cache : value_cache) (defs : gmap string MetricDefinition) (timestamp : Timestamp)
    (device : string) (iFace : InterfaceExt) (bs : list MetricBuilder) (key : string)
  : outcome (list MetricBuilder) :=
  match defs !! key with
  | None => Ret bs
  | Some d =>
      v ← (if decide (key = BytesPerSecondIn) then
             rate_of cache (sec timestamp) device iFace IfHCInOctets IfInOctets
           else if decide (key = BytesPerSecondOut) then
             rate_of cache (sec timestamp) device iFace IfHCOutOctets IfOutOctets
           else Ret None);
      Ret (match v with
           | Some v => (bs ++ [makeMetricBuilder d key timestamp v])%list
           | None => bs
           end)
  end.

(** The body of the loop over the metrics of the interface. *)
Definition mib_builder (defs : gmap string MetricDefinition) (timestamp : Timestamp)
    (device : string) (iFace : InterfaceExt) (st : value_cache * list MetricBuilder)
    (kv : string * InterfaceMetric) : value_cache * list MetricBuilder :=
  let '(cache, bs) := st in
  let '(mib, metric) := kv in
  match defs !! im_Mib metric with
  | None => st
  | Some d =>
      let ck := makeCK device (if_Name (ie_Interface iFace)) mib in
      let add v := (bs ++ [makeMetricBuilder d (im_Key metric) timestamp v])%list in
      let bs :=
        if isDelta (mdef_MetricType d) then
          match cache !! ck with
          | Some prev => add (int64 (im_Value metric - im_Value (cm_Metric prev)))
          | None => bs
          end
        else add (im_Value metric) in
      (<[ck := mkCachedMetric metric (sec timestamp)]> cache, bs)
  end.

(** The metrics of an interface, and the cache afterwards. *)
Definition interface_builders (cache : value_cache) (defs : gmap string MetricDefinition)
    (timestamp : Timestamp) (device : string) (iFace : InterfaceExt)
  : outcome (value_cache * list MetricBuilder) :=
  bs ← foldM (nonmib_builder cache defs timestamp device iFace) [] (map_order NonMibMetrics).*1;
  Ret (foldl (mib_builder defs timestamp device iFace) (cache, bs) (map_order (ie_Metrics iFace))).

(** The state of the link: the text, and the status it leaves. *)
Definition link_state (ifstat : Z) (text : string) (status : MonitorStatus) : string * MonitorStatus :=
  let warn := if decide (status = ServiceOk) then ServiceWarning else status in
  if decide (ifstat = 0)%Z then ("Interface Operational State is DOWN, Administrative state is DOWN", warn)
  else if decide (ifstat = 1)%Z then
    ("Interface Operational State is DOWN, Administrative state is UP", ServiceUnscheduledCritical)
  else if decide (ifstat = 2)%Z then ("Administrative state is DOWN", warn)
  else if decide (ifstat = 3)%Z then ("Interface Operational State is UP, Administrative state is UP", status)
  else if decide (ifstat = -1)%Z then ("Interface Operational and Administrative states are UNKNOWN", status)
  else (text, status).

Definition apply_link_state (ifstat : Z) (s : MonitoredService) : MonitoredService :=
  let thresholdMessage := mi_LastPluginOutput (ms_MonitoredInfo s) in
  let '(text, status) := link_state ifstat thresholdMessage (mi_Status (ms_MonitoredInfo s)) in
  let text :=
    if decide (thresholdMessage = "") then text
    else if decide (text = "") then thresholdMessage
    else text +:+ " | " +:+ thresholdMessage in
  mkMonitoredService (ms_BaseInfo s) (SetLastPluginOutput (SetStatus (ms_MonitoredInfo s) status) text) (ms_Metrics s).

(** What the clock reads for a device: for its metrics, for each service by the name of its
    interface, for its resource, and for the status of the host. *)
Record readings := mkReadings {
  rd_services : Timestamp;
  rd_built : string → Timestamp;
  rd_resource : Timestamp;
  rd_status : Z;
}.

(** The body of the loop over the interfaces: an interface without a service is
    left out. *)
Definition interface_service (defs : gmap string MetricDefinition) (timestamp : Timestamp)
    (built : string → Timestamp) (device : string)
    (st : value_cache * list MonitoredService) (iFace : InterfaceExt)
  : outcome (value_cache * list MonitoredService) :=
  let '(cache, services) := st in
  '(cache, bs) ← interface_builders cache defs timestamp device iFace;
  r ← BuildServiceForMetrics CheckInterval (built (if_Name (ie_Interface iFace))) (if_Name (ie_Interface iFace)) device bs;
  Ret (cache, match r with
              | Val (Some s) => (services ++ [apply_link_state (if_Status (ie_Interface iFace)) s])%list
              | _ => services
              end).

Definition retrieveMonitoredServices (now : readings) (defs : gmap string MetricDefinition)
    (cache : value_cache) (device : DeviceExt) : outcome (value_cache * list MonitoredService) :=
  foldM (interface_service defs (NewTimestamp (rd_services now)) (rd_built now) (dv_Name (de_Device device))) (cache, [])
    (index_order (de_Interfaces device)).*2.

(** The body of the loop over the devices: the status of the services is replaced by
    the one of the host. *)
Definition device_resource (clock : string → readings) (defs : gmap string MetricDefinition)
    (st : value_cache * list MonitoredResource) (device : DeviceExt)
  : outcome (value_cache * list MonitoredResource) :=
  let '(cache, resources) := st in
  let now := clock (dv_Name (de_Device device)) in
  '(cache, services) ← retrieveMonitoredServices now defs cache device;
  Ret (cache,
       match CreateResource CheckInterval (rd_resource now) (dv_Name (de_Device device)) [ResServices services] with
       | Fail _ => resources
       | Val r =>
           (resources ++ [mkMonitoredResource (mr_BaseResource r)
              (SetStatus (mr_MonitoredInfo r) (calculateHostStatus (rd_status now) (dv_LastOK (de_Device device))))
              (mr_Services r)])%list
       end).

(** The readings of the clock are by the name of the device. *)
Definition retrieveMonitoredResources (clock : string → readings) (defs : gmap string MetricDefinition)
    (cache : value_cache) (devices : gmap string DeviceExt) : outcome (value_cache * list MonitoredResource) :=
  foldM (device_resource clock defs) (cache, []) (map_order devices).*2.
End services.

(** ** The connector *)

Definition defaultNediServer : string := "nedi:8092".
Definition hostGroup : string := "NEDI-M".
Definition Interfaces : string := "interfaces".
Definition templateMetricName : string := "$view_Template#".

Abbreviation views := (gmap string (gmap string MetricDefinition)).

Record ExtConfig := mkExtConfig {
  ec_NediServer : string;
  ec_CheckInterval : Z;
  ec_AppType : string;
  ec_AgentID : string;
  ec_GWConnections : list GWConnection;
  ec_Ownership : HostOwnershipType;
  ec_Views : views;
}.

(** [UnmarshalJSON]: the interval is in minutes when the text has one; [decoded] is
    the plain decoding over the configuration. *)
Definition ExtConfig_UnmarshalJSON (cfg : ExtConfig) (decoded : result error ExtConfig) : result error ExtConfig :=
  c ← decoded;
  Val (if decide (ec_CheckInterval c ≠ ec_CheckInterval cfg)
       then mkExtConfig (ec_NediServer c) (int64 (ec_CheckInterval c * Minute)) (ec_AppType c) (ec_AgentID c)
              (ec_GWConnections c) (ec_Ownership c) (ec_Views c)
       else c).

(** The connector, with the server of its NeDi client and the package's cache. *)
Record SnmpConnector := mkSnmpConnector {
  sc_config : ExtConfig;
  sc_nedi : string;
  sc_devices : gmap string DeviceExt;
  sc_cache : value_cache;
}.

Definition with_devices (c : SnmpConnector) (devices : gmap string DeviceExt) : SnmpConnector :=
  mkSnmpConnector (sc_config c) (sc_nedi c) devices (sc_cache c).

(** [LoadConfig]: the configuration stays also when the client is not initialized. *)
Definition LoadConfig (c : SnmpConnector) (config : ExtConfig) : SnmpConnector * option error :=
  match Nedi.Init (sc_nedi c) (ec_NediServer config) with
  | (server, Some _) =>
      (mkSnmpConnector config server (sc_devices c) (sc_cache c), Some (Opaque "could not init NeDi client"))
  | (server, None) => (mkSnmpConnector config server ∅ (sc_cache c), None)
  end.

Section collect.
Context `{MapOrder} `{IndexOrder} (CheckInterval : Z).
(** The NeDi server's answers, the credentials, and the SNMP answers of a target. *)
Context (GetDevices : string → outcome (result error (list Device))).
Context (GetDeviceInterfaces : string → string → outcome (result error (list Interface))).
Context (GetSecurityData : string → outcome (result error SecurityData)).
Context (GetSnmpData : list string → string → option SecurityData → outcome (result error (list SnmpMetricData))).

(** The loop over the devices of NeDi: each replaces the one of its name. *)
Definition add_device (devices : gmap string DeviceExt) (device : Device) : outcome (gmap string DeviceExt) :=
  secData ← GetSecurityData (dv_Community device);
  Ret (<[dv_Name device := mkDeviceExt device (match secData with Val d => Some d | Fail _ => None end) ∅]> devices).

(** The value of a variable goes to the interface of the last number of its name. *)
Definition add_value (m : SnmpMetric) (interfaces : gmap Z InterfaceExt) (v : SnmpValue) : gmap Z InterfaceExt :=
  let idxMix := default "" (last (Split (sv_Name v) ".")) in
  match ParseInt idxMix with
  | Fail _ => interfaces
  | Val idx =>
      match interfaces !! idx with
      | None => interfaces
      | Some iFace =>
          let metric := mkInterfaceMetric (sm_Key m) (sm_Mib m) (sv_Value v) in
          <[idx := mkInterfaceExt (ie_Interface iFace) (<[im_Mib metric := metric]> (ie_Metrics iFace))]> interfaces
      end
  end.

Definition add_data (interfaces : gmap Z InterfaceExt) (data : SnmpMetricData) : gmap Z InterfaceExt :=
  foldl (add_value (smd_SnmpMetric data)) interfaces (smd_Values data).

Definition interfaces_map (interfaces : list Interface) : gmap Z InterfaceExt :=
  foldl (λ m i, <[if_Index i := mkInterfaceExt i ∅]> m) ∅ interfaces.

(** The body of the loop of [collectInterfacesMetrics]. *)
Definition collect_device (nedi : string) (mibs : list string) (devices : gmap string DeviceExt)
    (kv : string * DeviceExt) : outcome (gmap string DeviceExt) :=
  let '(deviceName, device) := kv in
  interfaces ← GetDeviceInterfaces nedi deviceName;
  match interfaces with
  | Fail _ => Ret devices
  | Val [] => Ret devices
  | Val interfaces =>
      match de_SecData device with
      | None => Ret devices
      | Some _ =>
          snmpData ← GetSnmpData mibs (dv_IP (de_Device device)) (de_SecData device);
          match snmpData with
          | Fail _ => Ret devices
          | Val snmpData =>
              Ret (<[deviceName := mkDeviceExt (de_Device device) (de_SecData device)
                                     (foldl add_data (interfaces_map interfaces) snmpData)]> devices)
          end
      end
  end.

(** The range sees the devices as they were: an iteration assigns only its own. *)
Definition collectInterfacesMetrics (nedi : string) (mibs : list string) (devices : gmap string DeviceExt)
  : outcome (gmap string DeviceExt) :=
  foldM (collect_device nedi mibs) devices (map_order devices).

(** The body of the loop over the views. *)
Definition collect_view (nedi : string) (st : gmap string MetricDefinition * gmap string DeviceExt)
    (kv : string * gmap string MetricDefinition)
  : outcome (gmap string MetricDefinition * gmap string DeviceExt) :=
  let '(defs, devices) := st in
  let '(view, metrics) := kv in
  if decide (view = Interfaces) then
    let mibs := (λ kv, sm_Mib kv.2) <$> map_order AvailableMetrics in
    devices ← collectInterfacesMetrics nedi mibs devices;
    Ret (maps_Copy defs metrics, devices)
  else Ret st.

Definition collected := (list MonitoredResource * list InventoryResource * list ResourceGroup)%type.

(** [CollectMetrics] *)
Definition CollectMetrics (clock : string → readings) (c : SnmpConnector)
  : outcome (SnmpConnector * result error collected) :=
  let vs := ec_Views (sc_config c) in
  devices ← (if decide (size vs = 0%nat) then Ret (Val (sc_devices c))
             else r ← GetDevices (sc_nedi c);
                  match r with
                  | Fail _ => Ret (Fail (Opaque "could not get devices"))
                  | Val ds => Val <$> foldM add_device (sc_devices c) ds
                  end);
  match devices with
  | Fail e => Ret (c, Fail e)
  | Val devices =>
      '(defs, devices) ← foldM (collect_view (sc_nedi c)) (∅, devices) (map_order vs);
      '(cache, mrs) ← retrieveMonitoredResources CheckInterval clock defs (sc_cache c) devices;
      let irs := ToInventoryResource <$> mrs in
      let refs := (λ mr, ToResourceRef (mr_BaseResource mr)) <$> mrs in
      Ret (mkSnmpConnector (sc_config c) (sc_nedi c) devices cache,
           Val (mrs, irs, [mkResourceGroup hostGroup HostGroup "" refs]))
  end.

(** [listSuggestions]: nil is an empty list. *)
Definition listSuggestions (view name : string) : list string :=
  let suggested := filter (λ k, name = "" ∨ Contains k name = true) in
  if decide (view = Interfaces)
  then (suggested (map_order AvailableMetrics).*1 ++ suggested (map_order NonMibMetrics).*1)%list
  else [].

(** [getInventoryHashSum]: the sum of the sorted names of hosts and interfaces. *)
Definition str_le (a b : string) : Prop := String.leb a b = true.

#[local] Instance str_le_dec : RelDecision str_le.
Proof. intros a b. unfold str_le. apply _. Defined.

Definition hosts_services (devices : gmap string DeviceExt) : list string :=
  merge_sort str_le (map_order devices).*1 ≫= λ host,
    match devices !! host with
    | None => []
    | Some device =>
        (λ service, host +:+ ":" +:+ service) <$>
          merge_sort str_le ((λ kv, if_Name (ie_Interface kv.2)) <$> index_order (de_Interfaces device))
    end.
End collect.

(** *** The handlers *)

(** The variables of the package: checksums ([nil] is empty), and the interval of the
    periodic loop that runs. *)
Record snmp_vars := mkSnmpVars {
  sn_connector : SnmpConnector;
  sn_extConfig : ExtConfig;
  sn_cfgChksum : string;
  sn_invChksum : string;
  sn_period : option Z;
}.

(** The metrics of the profile that are monitored, by their service type. *)
Definition add_metric (vs : views) (m : MetricDefinition) : views :=
  if decide (templateMetricName = mdef_Name m) then vs
  else if mdef_Monitored m then
    let metrics := default ∅ (vs !! mdef_ServiceType m) in
    <[mdef_ServiceType m := <[mdef_Name m := m]> metrics]> vs
  else vs.

(** The ownership: some connection defers it, but the one that is read is the first. *)
Fixpoint deferred_ownership (first : HostOwnershipType) (conns : list GWConnection) (own : HostOwnershipType)
  : HostOwnershipType :=
  match conns with
  | [] => own
  | conn :: conns =>
      if decide (DeferOwnership conn ≠ "") then
        if decide (first ≠ "") then first else deferred_ownership first conns own
      else deferred_ownership first conns own
  end.

(** The parsed configuration: the server of the connection, the extensions, and the
    metrics of the profile. *)
Record snmp_dto := mkSnmpDto {
  sd_Server : string;
  sd_Ext : ExtConfig;
  sd_Metrics : list MetricDefinition;
}.

(** The configuration made of a parsed one. *)
Definition snmp_config (d : snmp_dto) : ExtConfig :=
  let ext := sd_Ext d in
  let conns := ec_GWConnections ext in
  mkExtConfig (if decide (sd_Server d ≠ "") then sd_Server d else ec_NediServer ext)
    (ec_CheckInterval ext) (ec_AppType ext) (ec_AgentID ext) conns
    (match conns with
     | [] => ec_Ownership ext
     | c :: _ => deferred_ownership (DeferOwnership c) conns (ec_Ownership ext)
     end)
    (foldl add_metric (ec_Views ext) (sd_Metrics d)).

Section handlers.
Context (hashsum : ExtConfig → result error string).

(** [configHandler]; a text that does not parse changes nothing. *)
Definition configHandler (v : snmp_vars) (parsed : result error snmp_dto) : snmp_vars :=
  match parsed with
  | Fail _ => v
  | Val d =>
      let ext := snmp_config d in
      let chk := hashsum ext in
      let reload := match chk with Fail _ => true | Val b => bool_decide (b ≠ sn_cfgChksum v) end in
      mkSnmpVars (if reload then (LoadConfig (sn_connector v) ext).1 else sn_connector v) ext
        (match chk with Fail _ => sn_cfgChksum v | Val b => b end) "" (Some (ec_CheckInterval ext))
  end.
End handlers.

(** Some view has metrics. *)
Definition hasMetrics (vs : views) : bool :=
  existsb (λ kv, negb (bool_decide (size kv.2 = 0%nat))) (map_to_list vs).

Section periodic.
(** [CollectMetrics] at the time of the run, the checksum of the inventory, and the
    calls of the transit service. *)
Context (CollectMetrics : SnmpConnector → outcome (SnmpConnector * result error collected)).
Context (inventory_sum : gmap string DeviceExt → result error string).
Context {S : Type} (SendInventory : S → list InventoryResource → list ResourceGroup → HostOwnershipType → outcome S).
Context (SendMetrics : S → list MonitoredResource → Expr.run S).

Definition with_connector (v : snmp_vars) (c : SnmpConnector) (invChksum : string) : snmp_vars :=
  mkSnmpVars c (sn_extConfig v) (sn_cfgChksum v) invChksum (sn_period v).

(** [periodicHandler]: the inventory goes out when its sum has changed. *)
Definition periodicHandler (v : snmp_vars) (s : S) : Expr.run (snmp_vars * S) :=
  if hasMetrics (ec_Views (sc_config (sn_connector v))) then
    '(c, r) ← lift_o (CollectMetrics (sn_connector v));
    match r with
    | Fail _ => RRet (with_connector v c (sn_invChksum v), s)
    | Val (metrics, inventory, groups) =>
        let chk := inventory_sum (sc_devices c) in
        let changed := match chk with Fail _ => true | Val b => bool_decide (b ≠ sn_invChksum v) end in
        s ← (if changed then lift_o (SendInventory s inventory groups (ec_Ownership (sc_config c))) else RRet s);
        s ← SendMetrics s metrics;
        RRet (with_connector v c (match chk with Fail _ => sn_invChksum v | Val b => b end), s)
    end
  else RRet (v, s).
End periodic.

(** ** Lemmas: deltas and rates *)

Lemma makeCK_mib d i m d' i' m' :
  no_byte ":" m = true → no_byte ":" m' = true → makeCK d i m = makeCK d' i' m' → m = m' ∧ d +:+ ":" +:+ i = d' +:+ ":" +:+ i'.
Proof.
  intros Hm Hm' He. unfold makeCK in He.
  assert (∀ d i m, d +:+ ":" +:+ i +:+ ":" +:+ m = (d +:+ ":" +:+ i) +:+ String ":" m) as Ha
    by (intros; by rewrite !str_app_assoc).
  rewrite !Ha in He. pose proof (f_equal (λ s, LastIndex s ":") He) as Hl. cbn beta in Hl.
  rewrite !LastIndex_byte in Hl by done. injection Hl as Hl.
  apply str_app_inj_len in He as [H1 H2]; [|done]. by injection H2 as ->.
Qed.

Section lemmas.
Context (defs : gmap string MetricDefinition) (timestamp : Timestamp) (device : string) (iFace : InterfaceExt).
#[local] Abbreviation ck mib := (makeCK device (if_Name (ie_Interface iFace)) mib).

(** The builder of a metric, given the value that was cached. *)
Definition expected_builder (prev : option cachedMetric) (metric : InterfaceMetric) : option MetricBuilder :=
  match defs !! im_Mib metric with
  | None => None
  | Some d =>
      let builder v := makeMetricBuilder d (im_Key metric) timestamp v in
      if isDelta (mdef_MetricType d)
      then (λ p, builder (int64 (im_Value metric - im_Value (cm_Metric p)))) <$> prev
      else Some (builder (im_Value metric))
  end.

Lemma mib_builder_eq cache bs mib metric :
  mib_builder defs timestamp device iFace (cache, bs) (mib, metric) =
  (match defs !! im_Mib metric with
   | Some _ => <[ck mib := mkCachedMetric metric (sec timestamp)]> cache
   | None => cache
   end, (bs ++ option_list (expected_builder (cache !! ck mib) metric))%list).
Proof.
  unfold mib_builder, expected_builder. destruct (defs !! im_Mib metric) as [d|]; [|by rewrite app_nil_r].
  destruct (isDelta _); [|done]. destruct (cache !! ck mib); cbn; [done|by rewrite app_nil_r].
Qed.

(** The metrics of an interface, in any order without repetition: every builder is
    made from the cache before the collection, and the cache has the new values. *)
Lemma mib_builders_spec l cache bs :
  NoDup l.*1 → Forall (λ kv, no_byte ":" kv.1 = true) l →
  let '(cache', bs') := foldl (mib_builder defs timestamp device iFace) (cache, bs) l in
  bs' = (bs ++ omap (λ kv, expected_builder (cache !! ck kv.1) kv.2) l)%list ∧
  (∀ mib metric, (mib, metric) ∈ l → is_Some (defs !! im_Mib metric) →
     cache' !! ck mib = Some (mkCachedMetric metric (sec timestamp))) ∧
  (∀ k, (∀ mib metric, (mib, metric) ∈ l → is_Some (defs !! im_Mib metric) → k ≠ ck mib) →
     cache' !! k = cache !! k).
Proof.
  revert cache bs. induction l as [|[mib metric] l IH]; intros cache bs Hnd Hall.
  { cbn. split_and!; [by rewrite app_nil_r| |done]. by intros ? ? ?%elem_of_nil. }
  cbn [foldl]. rewrite mib_builder_eq.
  inversion Hnd as [|? ? Hnin Hnd' Heq]; inversion Hall as [|? ? Hb Hall' Heq']; subst.
  set (cache1 := match defs !! im_Mib metric with Some _ => _ | None => cache end).
  set (bs1 := (bs ++ _)%list). specialize (IH cache1 bs1 Hnd' Hall').
  destruct (foldl _ (cache1, bs1) l) as [cache' bs']. destruct IH as (-> & IH2 & IH3).
  assert (∀ mib', mib' ∈ l.*1 → no_byte ":" mib' = true → ck mib' ≠ ck mib) as Hck.
  { intros mib' Hin Hb' [He _]%makeCK_mib; [|done|done]. by subst. }
  assert (Forall (λ kv, ck kv.1 ≠ ck mib) l) as Hne.
  { apply Forall_forall. intros [mib' m'] Hin. apply Hck; [by apply (list_elem_of_fmap_2 fst _ (mib', m'))|].
    by apply (proj1 (Forall_forall _ _) Hall' (mib', m')). }
  split_and!.
  - subst bs1. rewrite <-app_assoc. f_equal. cbn [omap list_omap].
    assert (omap (M:=list) (λ kv, expected_builder (cache1 !! ck kv.1) kv.2) l =
            omap (λ kv, expected_builder (cache !! ck kv.1) kv.2) l) as ->.
    { apply list_omap_ext. eapply Forall_Forall2_diag, Forall_impl; [exact Hne|]. intros kv Hkv. cbn beta.
      subst cache1. destruct (defs !! im_Mib metric); [|done]. by rewrite lookup_insert_ne by congruence. }
    by destruct (expected_builder _ _).
  - intros mib' metric' [[= -> ->]|Hin]%elem_of_cons Hd; [|by apply IH2].
    rewrite IH3.
    + subst cache1. destruct Hd as [d ->]. apply lookup_insert_eq.
    + intros mib' metric'' Hin _. rewrite Forall_forall in Hne. symmetry. by apply (Hne (mib', metric'')).
  - intros k Hk. rewrite IH3.
    + subst cache1. destruct (defs !! im_Mib metric) as [d|] eqn:Hd; [|done].
      apply lookup_insert_ne. symmetry. apply (Hk mib metric); [by left|by rewrite Hd].
    + intros mib' metric' Hin. apply Hk. by right.
Qed.
End lemmas.

(** *** Services of counters *)

(** The builders of the connector: integers against integer thresholds. *)
Definition counter (b : MetricBuilder) : Prop := ∃ d k t v, b = makeMetricBuilder d k t v.

Definition counter_metric (b : MetricBuilder) : TimeSeries :=
  let i := match mb_Value b with AInt _ z => z | _ => 0%Z end in
  builder_metric (mkTimestamp 0 0 UTCLoc) b (tv_int i) UnitCounter.

(** An integer metric between two integer thresholds. *)
Lemma counter_metric_shape b :
  counter b → ∃ z t w c lw lc,
    ts_Value (counter_metric b) = Some (tv_int z) ∧
    ts_Interval (counter_metric b) = Some (mkTimeInterval (Some t) (Some t)) ∧
    ts_Thresholds (counter_metric b) =
      [mkThresholdValue Warning lw (Some (tv_int w)); mkThresholdValue Critical lc (Some (tv_int c))].
Proof. intros (d & k & t & v & ->). by do 6 eexists. Qed.

Lemma build_metrics_counters now bs :
  Forall counter bs → build_metrics now bs = Ret (Val (counter_metric <$> bs)).
Proof.
  induction 1 as [|b bs (d & k & t & v & ->) _ IH]; [done|]. cbn [build_metrics].
  rewrite (BuildMetric_usable _ _ (tv_int v) UnitCounter); [|done..|by right; split; [|eexists]|by right; split; [|eexists]].
  cbn [mbind outcome_bind]. by rewrite IH.
Qed.

Lemma int_status_ret z w c :
  ∃ st, CalculateStatus (Some (tv_int z)) (Some (tv_int w)) (Some (tv_int c)) = Ret st.
Proof.
  rewrite (CalculateStatus_int z (Some (tv_int w)) (Some (tv_int c)) (f_of_Z w) (f_of_Z c)) by done.
  unfold integer_status. rewrite !v_ge_Ret, !v_le_Ret. cbn [given negb andb].
  repeat case_match; by eexists.
Qed.

Lemma counter_status prev bs :
  Forall counter bs → ∃ st, service_status prev (counter_metric <$> bs) = Ret (st, None).
Proof.
  intros Hb. revert prev. induction Hb as [|b bs Hb _ IH]; intros prev; [by eexists|].
  destruct (counter_metric_shape b Hb) as (z & t & w & c & lw & lc & Hv & _ & Ht).
  rewrite fmap_cons. cbn [service_status]. rewrite Ht, Hv.
  assert (pick_thresholds None None [mkThresholdValue Warning lw (Some (tv_int w)); mkThresholdValue Critical lc (Some (tv_int c))]
          = Some (Some (tv_int w), Some (tv_int c))) as -> by reflexivity.
  destruct (int_status_ret z w c) as [st ->]. apply IH.
Qed.

Lemma counter_text text bs :
  Forall counter bs → ∃ text', threshold_text text (counter_metric <$> bs) = Ret text'.
Proof.
  intros Hb. revert text. induction Hb as [|b bs Hb _ IH]; intros text; [by eexists|].
  destruct (counter_metric_shape b Hb) as (z & t & w & c & lw & lc & Hv & _ & Ht).
  rewrite fmap_cons. cbn [threshold_text]. rewrite Ht, Hv, getValueText_int. cbn [mbind outcome_bind].
  rewrite threshold_texts_two. apply IH.
Qed.

(** The service of counters is always built, with the metrics of the builders. *)
Lemma BuildServiceForMetrics_counters `{MapOrder} CheckInterval now name host bs :
  Forall counter bs → ∃ s,
    BuildServiceForMetrics CheckInterval now name host bs = Ret (Val (Some s)) ∧
    ms_BaseInfo s = named_info name ResourceTypeService host ∧ ms_Metrics s = counter_metric <$> bs.
Proof.
  intros Hb. unfold BuildServiceForMetrics. rewrite build_metrics_counters by done. cbn [mbind outcome_bind].
  unfold CreateService. cbn [service_args].
  assert (∃ e, last_end (counter_metric <$> bs) = Ret e) as [e ->].
  { unfold last_end. rewrite fmap_last. destruct (last bs) as [b|] eqn:Hl; [|by eexists].
    rewrite Forall_forall in Hb. destruct (counter_metric_shape b) as (z & t & w & c & lw & lc & _ & Hi & _).
    - apply Hb. rewrite last_lookup in Hl. by eapply list_elem_of_lookup_2.
    - cbn [fmap option_fmap option_map]. rewrite Hi. by eexists. }
  cbn [mbind outcome_bind ms_BaseInfo ms_Metrics ms_MonitoredInfo].
  assert (∃ st, CalculateServiceStatus (Some (counter_metric <$> bs)) = Ret (st, None)) as [st ->].
  { destruct bs as [|b bs]; [by eexists|]. by apply counter_status. }
  cbn [mbind outcome_bind addServiceStatusText find_patterns replace_patterns addThresholdsToStatusText ms_Metrics].
  destruct (counter_text "" bs Hb) as [text' ->]. cbn [mbind outcome_bind fmap outcome_fmap].
  by eexists.
Qed.

(** *** Collections *)

Section collections.
Context `{MapOrder} `{IndexOrder} (CheckInterval : Z) (defs : gmap string MetricDefinition) (t : Timestamp).
Context (t_range : (sec t < 2 ^ 63)%Z).

(** The values that are cached for an interface are from before now. *)
Definition stale (cache : value_cache) (device iface : string) : Prop :=
  ∀ mib c, no_byte ":" mib = true → cache !! makeCK device iface mib = Some c → (0 ≤ cm_ts c < sec t)%Z.

(** Only values of these interfaces are new, and they are from now. *)
Definition updates (device : string) (names : list string) (cache cache' : value_cache) : Prop :=
  ∀ k, cache' !! k = cache !! k ∨
    (∃ i m c, i ∈ names ∧ no_byte ":" m = true ∧ k = makeCK device i m ∧ cache' !! k = Some c ∧ cm_ts c = sec t).

Definition wf_iface (iFace : InterfaceExt) : Prop :=
  map_Forall (λ mib _, no_byte ":" mib = true) (ie_Metrics iFace).

#[local] Abbreviation ifname iFace := (if_Name (ie_Interface iFace)).

Lemma rate_ret ts iFace mib prev :
  (0 ≤ cm_ts prev < ts)%Z → (ts < 2 ^ 63)%Z →
  rate ts iFace mib prev = Ret (int64 (Z.quot (int64 (metric_value iFace mib - im_Value (cm_Metric prev))) (ts - cm_ts prev))).
Proof using Type.
  intros Hp Ht. unfold rate. rewrite (int64_id (ts - cm_ts prev)) by (unfold in_int64; lia).
  by rewrite go_quot_nonzero by lia.
Qed.

Lemma rate_of_ret cache device iFace hc low :
  stale cache device (ifname iFace) → no_byte ":" hc = true → no_byte ":" low = true →
  ∃ v, rate_of cache (sec t) device iFace hc low = Ret v.
Proof using t_range.
  intros Hc Hhc Hlow. unfold rate_of.
  destruct (cache !! makeCK _ _ hc) as [p|] eqn:Hp; [|destruct (cache !! makeCK _ _ low) as [p|] eqn:Hp'; [|by eexists]];
    (rewrite rate_ret; [by eexists|by eapply Hc; [|eassumption]|done]).
Qed.

Lemma nonmib_step cache device iFace bs key :
  stale cache device (ifname iFace) → Forall counter bs →
  ∃ bs', nonmib_builder cache defs t device iFace bs key = Ret bs' ∧ Forall counter bs'.
Proof using t_range.
  intros Hc Hbs. unfold nonmib_builder. destruct (defs !! key) as [d|]; [|by eexists].
  destruct (rate_of_ret cache device iFace IfHCInOctets IfInOctets Hc) as [vi Hvi]; [done..|].
  destruct (rate_of_ret cache device iFace IfHCOutOctets IfOutOctets Hc) as [vo Hvo]; [done..|].
  assert (∀ v : option Z, Forall counter
    (match v with Some v => bs ++ [makeMetricBuilder d key t v] | None => bs end)%list) as Hcnt.
  { intros [v|]; [|done]. apply Forall_app. split; [done|]. constructor; [by do 4 eexists|done]. }
  destruct (decide _) as [->|]; [rewrite Hvi; cbn [mbind outcome_bind]; by eexists|].
  destruct (decide _) as [->|]; [rewrite Hvo|]; cbn [mbind outcome_bind]; [by eexists|].
  by exists bs.
Qed.

Lemma nonmib_ret cache device iFace keys bs :
  stale cache device (ifname iFace) → Forall counter bs →
  ∃ bs', foldM (nonmib_builder cache defs t device iFace) bs keys = Ret bs' ∧ Forall counter bs'.
Proof using t_range.
  intros Hc. revert bs. induction keys as [|key keys IH]; intros bs Hbs; [by eexists|].
  cbn [foldM]. destruct (nonmib_step cache device iFace bs key Hc Hbs) as (bs' & -> & Hbs'). by apply IH.
Qed.

Lemma expected_counters device iFace (cache : value_cache) l :
  Forall counter (omap (M:=list) (λ kv, expected_builder defs t (cache !! makeCK device (ifname iFace) kv.1) kv.2) l).
Proof using Type.
  apply Forall_forall. intros b (kv & _ & Hb)%list_elem_of_omap. unfold expected_builder in Hb.
  destruct (defs !! _) as [d|]; [|done]. destruct (isDelta _).
  - apply fmap_Some in Hb as (p & _ & ->). by do 4 eexists.
  - injection Hb as <-. by do 4 eexists.
Qed.

Lemma wf_iface_order iFace :
  wf_iface iFace → NoDup (map_order (ie_Metrics iFace)).*1 ∧
  Forall (λ kv, no_byte ":" kv.1 = true) (map_order (ie_Metrics iFace)).
Proof using Type.
  intros Hwf. split; [apply NoDup_map_order|]. apply Forall_forall. intros [mib m] Hin%elem_of_map_order.
  by apply (map_Forall_lookup_1 _ _ _ _ Hwf Hin).
Qed.

Lemma interface_builders_ret cache device iFace :
  stale cache device (ifname iFace) → wf_iface iFace →
  ∃ cache' bs, interface_builders cache defs t device iFace = Ret (cache', bs) ∧ Forall counter bs ∧
    updates device [ifname iFace] cache cache'.
Proof using t_range.
  intros Hc Hwf. unfold interface_builders.
  destruct (nonmib_ret cache device iFace (map_order NonMibMetrics).*1 [] Hc) as (bs & -> & Hbs); [done|].
  cbn [mbind outcome_bind]. destruct (wf_iface_order iFace Hwf) as [Hnd Hall].
  pose proof (mib_builders_spec defs t device iFace (map_order (ie_Metrics iFace)) cache bs Hnd Hall) as Hspec.
  destruct (foldl _ _ _) as [cache' bs']. destruct Hspec as (-> & Hnew & Hold).
  do 2 eexists. split; [done|]. split; [apply Forall_app; split; [done|apply expected_counters]|].
  intros k. destruct (decide (Exists (λ kv, is_Some (defs !! im_Mib kv.2) ∧ k = makeCK device (ifname iFace) kv.1)
                               (map_order (ie_Metrics iFace)))) as [He|Hne].
  - right. apply Exists_exists in He as ([mib m] & Hin & Hd & ->). exists (ifname iFace), mib. eexists.
    split; [by left|]. split; [|split; [done|split; [by apply Hnew|done]]].
    by apply (proj1 (Forall_forall _ _) Hall (mib, m)).
  - left. apply Hold. intros mib m Hin Hd ->. apply Hne. apply Exists_exists. by exists (mib, m).
Qed.

Lemma updates_refl device cache : updates device [] cache cache.
Proof using Type. by left. Qed.

Lemma updates_trans device n1 n2 c1 c2 c3 :
  updates device n1 c1 c2 → updates device n2 c2 c3 → updates device (n1 ++ n2)%list c1 c3.
Proof using Type.
  intros H1 H2 k. destruct (H2 k) as [->|(i & m & c & Hi & Hm & -> & Hk)].
  - destruct (H1 k) as [->|(i & m & c & Hi & Hm & -> & Hk)]; [by left|].
    right. exists i, m, c. split; [apply elem_of_app; by left|]. done.
  - right. exists i, m, c. split; [apply elem_of_app; by right|]. done.
Qed.

Lemma makeCK_iface d i m i' m' :
  no_byte ":" m = true → no_byte ":" m' = true → makeCK d i m = makeCK d i' m' → i = i'.
Proof using Type.
  intros Hm Hm' He. destruct (makeCK_mib _ _ _ _ _ _ Hm Hm' He) as [_ Hd].
  apply str_app_inj_l in Hd. by injection Hd.
Qed.

Lemma makeCK_device d i m d' i' m' :
  no_byte ":" d = true → no_byte ":" d' = true → no_byte ":" m = true → no_byte ":" m' = true →
  makeCK d i m = makeCK d' i' m' → d = d'.
Proof using Type.
  intros Hd Hd' Hm Hm' He. destruct (makeCK_mib _ _ _ _ _ _ Hm Hm' He) as [_ Hk].
  by apply no_byte_split in Hk as [? _].
Qed.

(** The values of another interface, or of another device, stay old. *)
Lemma stale_iface cache cache' device names iface :
  updates device names cache cache' → iface ∉ names → stale cache device iface → stale cache' device iface.
Proof using Type.
  intros Hu Hnin Hs m c Hm Hk. destruct (Hu (makeCK device iface m)) as [He|(i & m' & c' & Hi & Hm' & He & _)].
  - rewrite He in Hk. by eapply Hs.
  - apply makeCK_iface in He; [by subst|done..].
Qed.

Lemma stale_device cache cache' device names d iface :
  updates device names cache cache' → no_byte ":" device = true → no_byte ":" d = true → d ≠ device →
  stale cache d iface → stale cache' d iface.
Proof using Type.
  intros Hu Hd1 Hd2 Hne Hs m c Hm Hk. destruct (Hu (makeCK d iface m)) as [He|(i & m' & c' & Hi & Hm' & He & _)].
  - rewrite He in Hk. by eapply Hs.
  - apply makeCK_device in He; [by subst|done..].
Qed.

(** The service of an interface of a device. *)
Definition service_of (device : string) (iFace : InterfaceExt) (s : MonitoredService) : Prop :=
  ms_BaseInfo s = named_info (ifname iFace) ResourceTypeService device.

Lemma interface_service_ret built cache services device iFace :
  stale cache device (ifname iFace) → wf_iface iFace →
  ∃ cache' s, interface_service CheckInterval defs t built device (cache, services) iFace = Ret (cache', services ++ [s])%list ∧
    service_of device iFace s ∧ updates device [ifname iFace] cache cache'.
Proof using t_range.
  intros Hs Hwf. unfold interface_service.
  destruct (interface_builders_ret cache device iFace Hs Hwf) as (cache' & bs & -> & Hbs & Hu). cbn [mbind outcome_bind].
  destruct (BuildServiceForMetrics_counters CheckInterval (built (ifname iFace)) (ifname iFace) device bs Hbs) as (s & -> & Hb & _).
  cbn [mbind outcome_bind]. do 2 eexists. split; [done|]. split; [|done].
  unfold service_of, apply_link_state. by destruct (link_state _ _ _).
Qed.

Lemma interface_services_ret built device l cache services :
  NoDup ((λ i, ifname i) <$> l) → Forall (λ i, stale cache device (ifname i) ∧ wf_iface i) l →
  ∃ cache' new, foldM (interface_service CheckInterval defs t built device) (cache, services) l =
      Ret (cache', services ++ new)%list ∧
    Forall2 (service_of device) l new ∧ updates device ((λ i, ifname i) <$> l) cache cache'.
Proof using t_range.
  revert cache services. induction l as [|iFace l IH]; intros cache services Hnd Hall.
  { exists cache, []. rewrite app_nil_r. split_and!; [done|constructor|apply updates_refl]. }
  inversion Hnd as [|? ? Hnin Hnd']; inversion Hall as [|? ? [Hs Hwf] Hall']; subst. cbn [foldM].
  destruct (interface_service_ret built cache services device iFace Hs Hwf) as (cache1 & s & -> & Hserv & Hu).
  cbn [mbind outcome_bind]. destruct (IH cache1 (services ++ [s])%list Hnd') as (cache' & new & -> & Hnew & Hu').
  { apply Forall_forall. intros i Hi. destruct (proj1 (Forall_forall _ _) Hall' i Hi) as [Hsi Hwi]. split; [|done].
    eapply stale_iface; [done| |done]. intros He%list_elem_of_singleton. apply Hnin. rewrite <-He.
    by apply (list_elem_of_fmap_2 (λ i, ifname i)). }
  exists cache', (s :: new). rewrite <-app_assoc. split_and!; [done|by constructor|].
  by apply (updates_trans device [ifname iFace] _ cache cache1).
Qed.
End collections.

Section devices.
Context `{MapOrder} `{IndexOrder} (CheckInterval : Z) (defs : gmap string MetricDefinition) (clock : string → readings).
(** The collection is between two times. *)
Context (t0 t1 : Z) (t0_range : (0 ≤ t0)%Z) (t1_range : (t1 ≤ 2 ^ 63)%Z).
Context (clock_range : ∀ name, (t0 ≤ sec (rd_services (clock name)) < t1)%Z).
#[local] Abbreviation name_of d := (dv_Name (de_Device d)).
#[local] Abbreviation at_ d := (rd_services (clock (name_of d))).

(** Every cached value is from before a time. *)
Definition cached_before (t : Z) (cache : value_cache) : Prop :=
  map_Forall (λ _ c, (0 ≤ cm_ts c < t)%Z) cache.

Definition iface_list (d : DeviceExt) : list InterfaceExt := (index_order (de_Interfaces d)).*2.

(** A device whose name has no separator and whose interfaces have different names. *)
Definition wf_device (d : DeviceExt) : Prop :=
  no_byte ":" (name_of d) = true ∧
  NoDup ((λ i, if_Name (ie_Interface i)) <$> iface_list d) ∧ Forall wf_iface (iface_list d).

(** The resource of a device: its name, its services, and the status of the host. *)
Definition resource_of (d : DeviceExt) (r : MonitoredResource) : Prop :=
  bi_Name (br_BaseInfo (mr_BaseResource r)) = name_of d ∧
  Forall2 (service_of (name_of d)) (iface_list d) (mr_Services r) ∧
  mi_Status (mr_MonitoredInfo r) = calculateHostStatus (rd_status (clock (name_of d))) (dv_LastOK (de_Device d)).

Lemma stale_before cache d iface : cached_before t0 cache → stale (at_ d) cache (name_of d) iface.
Proof using clock_range.
  intros Hc m c _ Hk. pose proof (map_Forall_lookup_1 _ _ _ _ Hc Hk) as Hb. cbn in Hb.
  pose proof (clock_range (name_of d)). lia.
Qed.

Lemma updates_before d names cache cache' :
  updates (at_ d) (name_of d) names cache cache' → cached_before t1 cache → cached_before t1 cache'.
Proof using t0_range clock_range.
  intros Hu Hc k c Hk. destruct (Hu k) as [He|(i & m & c' & _ & _ & _ & Hk' & Ht)].
  - rewrite He in Hk. by apply (map_Forall_lookup_1 _ _ _ _ Hc Hk).
  - rewrite Hk in Hk'. injection Hk' as <-. pose proof (clock_range (name_of d)). lia.
Qed.

Lemma stale_other t cache cache' d names d' iface :
  updates (at_ d) (name_of d) names cache cache' → no_byte ":" (name_of d) = true → no_byte ":" (name_of d') = true →
  name_of d' ≠ name_of d → stale t cache (name_of d') iface → stale t cache' (name_of d') iface.
Proof using Type.
  intros Hu Hd1 Hd2 Hne Hs m c Hm Hk.
  destruct (Hu (makeCK (name_of d') iface m)) as [He|(i & m' & c' & Hi & Hm' & He & _)].
  - rewrite He in Hk. by eapply Hs.
  - apply makeCK_device in He; [by subst|done..].
Qed.

Lemma device_resource_ret cache rs d :
  Forall (λ i, stale (at_ d) cache (name_of d) (if_Name (ie_Interface i))) (iface_list d) → wf_device d →
  ∃ cache' r, device_resource CheckInterval clock defs (cache, rs) d = Ret (cache', rs ++ [r])%list ∧
    resource_of d r ∧
    updates (at_ d) (name_of d) ((λ i, if_Name (ie_Interface i)) <$> iface_list d) cache cache'.
Proof using t0_range t1_range clock_range.
  intros Hs (_ & Hnd & Hwf). unfold device_resource, retrieveMonitoredServices.
  assert (sec (NewTimestamp (at_ d)) < 2 ^ 63)%Z as Hr by (pose proof (clock_range (name_of d)); cbn; lia).
  destruct (interface_services_ret CheckInterval defs (NewTimestamp (at_ d)) Hr (rd_built (clock (name_of d))) (name_of d)
    (iface_list d) cache [] Hnd) as (cache' & new & He & Hnew & Hu).
  { apply Forall_forall. intros i Hi. split; [by apply (proj1 (Forall_forall _ _) Hs i)|].
    by apply (proj1 (Forall_forall _ _) Hwf i). }
  unfold iface_list in He. rewrite He. cbn [mbind outcome_bind app].
  do 2 eexists. split; [done|]. split; [|exact Hu]. unfold resource_of. cbn. split_and!; [|done|done].
  by destruct new.
Qed.

Lemma device_resources_ret ds cache rs :
  NoDup ((λ d, name_of d) <$> ds) → cached_before t1 cache →
  Forall (λ d, wf_device d ∧
    Forall (λ i, stale (at_ d) cache (name_of d) (if_Name (ie_Interface i))) (iface_list d)) ds →
  ∃ cache' new, foldM (device_resource CheckInterval clock defs) (cache, rs) ds = Ret (cache', rs ++ new)%list ∧
    Forall2 resource_of ds new ∧ cached_before t1 cache'.
Proof using t0_range t1_range clock_range.
  revert cache rs. induction ds as [|d ds IH]; intros cache rs Hnd Hc Hall.
  { exists cache, []. by rewrite app_nil_r. }
  inversion Hnd as [|? ? Hnin Hnd']; inversion Hall as [|? ? [Hwf Hs] Hall']; subst. cbn [foldM].
  destruct (device_resource_ret cache rs d Hs Hwf) as (cache1 & r & -> & Hr & Hu). cbn [mbind outcome_bind].
  destruct (IH cache1 (rs ++ [r])%list Hnd') as (cache' & new & -> & Hnew & Hc').
  - exact (updates_before _ _ _ _ Hu Hc).
  - apply Forall_forall. intros d' Hd'. destruct (proj1 (Forall_forall _ _) Hall' d' Hd') as [Hwf' Hs'].
    split; [done|]. eapply Forall_impl; [exact Hs'|]. intros i Hi. cbn beta in *.
    eapply stale_other; [exact Hu|apply Hwf|apply Hwf'| |done]. intros He. apply Hnin. rewrite <-He.
    by apply (list_elem_of_fmap_2 (λ d, name_of d)).
  - exists cache', (r :: new). rewrite <-app_assoc. split_and!; [done|by constructor|done].
Qed.
End devices.

(** ** Properties *)

(** The devices of the connector are under their names. *)
Definition devices_ok `{IndexOrder} (devices : gmap string DeviceExt) : Prop :=
  map_Forall (λ name d, dv_Name (de_Device d) = name ∧ wf_device d) devices.

(** C26: A collection of devices whose names have no colon and whose interfaces have different
    names ([devices_ok]), when what is cached is from seconds before it began, returns,
    whatever the clock reads from device to device: every device has its resource, every
    interface of it its service, and all that is cached is from before the end, so that a
    collection in a later second returns as well.  Of two interfaces of one name the second
    can divide by zero and panic ([same_name_panics]). *)
Theorem collection_complete `{MapOrder} `{IndexOrder} (CheckInterval : Z) (defs : gmap string MetricDefinition)
    (clock : string → readings) (t0 t1 : Z) (cache : value_cache) (devices : gmap string DeviceExt) :
  (0 ≤ t0)%Z → (t1 ≤ 2 ^ 63)%Z → (∀ name, (t0 ≤ sec (rd_services (clock name)) < t1)%Z) →
  cached_before t0 cache → devices_ok devices →
  ∃ cache' mrs, retrieveMonitoredResources CheckInterval clock defs cache devices = Ret (cache', mrs) ∧
    Forall2 (resource_of clock) (map_order devices).*2 mrs ∧ cached_before t1 cache'.
Proof.
  intros Ht0 Ht1 Hclock Hc Hdev. unfold retrieveMonitoredResources.
  assert (Forall (λ kv, dv_Name (de_Device kv.2) = kv.1 ∧ wf_device kv.2) (map_order devices)) as Hall.
  { apply Forall_forall. intros [k d] Hin%elem_of_map_order. by apply (map_Forall_lookup_1 _ _ _ _ Hdev Hin). }
  assert (NoDup ((λ d, dv_Name (de_Device d)) <$> (map_order devices).*2)) as Hnd.
  { rewrite <-list_fmap_compose.
    assert (((λ d, dv_Name (de_Device d)) ∘ snd) <$> map_order devices = (map_order devices).*1) as ->;
      [|apply NoDup_map_order].
    clear -Hall. induction Hall as [|[k d] l [Hk _] _ IH]; [done|]. cbn. f_equal; [done|apply IH]. }
  destruct (device_resources_ret CheckInterval defs clock t0 t1 Ht0 Ht1 Hclock (map_order devices).*2 cache [] Hnd) as
    (cache' & new & He & Hnew & Hc').
  - eapply map_Forall_impl; [exact Hc|]. cbn. intros k c. pose proof (Hclock ""). lia.
  - apply Forall_fmap. eapply Forall_impl; [exact Hall|]. intros [k d] [_ Hwf]. split; [done|].
    apply Forall_forall. intros i _. by eapply stale_before.
  - by exists cache', new.
Qed.

Section two_collections.
Context `{MapOrder} `{IndexOrder} (defs : gmap string MetricDefinition) (device : string).
#[local] Abbreviation ifname iFace := (if_Name (ie_Interface iFace)).

(** The metrics of an interface are under their objects. *)
Definition metrics_keyed (iFace : InterfaceExt) : Prop := map_Forall (λ mib m, im_Mib m = mib) (ie_Metrics iFace).

Lemma nonmib_grows cache t iFace bs keys bs' :
  foldM (nonmib_builder cache defs t device iFace) bs keys = Ret bs' → ∃ new, bs' = (bs ++ new)%list.
Proof using Type.
  revert bs. induction keys as [|key keys IH]; intros bs; cbn [foldM].
  - intros [= <-]. exists []. by rewrite app_nil_r.
  - intros (bs1 & H1 & H2)%bind_Ret_inv. destruct (IH _ H2) as [new ->].
    unfold nonmib_builder in H1. destruct (defs !! key) as [d|]; [|injection H1 as <-; by eexists].
    apply bind_Ret_inv in H1 as (v & _ & [= <-]). destruct v; [rewrite <-app_assoc|]; by eexists.
Qed.

Lemma nonmib_in cache t iFace bs keys bs' d v :
  foldM (nonmib_builder cache defs t device iFace) bs keys = Ret bs' → BytesPerSecondIn ∈ keys →
  defs !! BytesPerSecondIn = Some d →
  rate_of cache (sec t) device iFace IfHCInOctets IfInOctets = Ret (Some v) →
  makeMetricBuilder d BytesPerSecondIn t v ∈ bs'.
Proof using Type.
  intros Hf Hin Hd Hr. revert bs Hf. induction keys as [|key keys IH]; intros bs; [by apply elem_of_nil in Hin|].
  cbn [foldM]. intros (bs1 & H1 & H2)%bind_Ret_inv. apply elem_of_cons in Hin as [<-|Hin]; [|by eapply IH].
  unfold nonmib_builder in H1. rewrite Hd, decide_True, Hr in H1 by done. injection H1 as <-.
  apply nonmib_grows in H2 as [new ->]. apply elem_of_app. left. apply elem_of_app. right. by left.
Qed.

Lemma interface_builders_inv cache t iFace cache' bs :
  interface_builders cache defs t device iFace = Ret (cache', bs) → wf_iface iFace →
  ∃ rates, foldM (nonmib_builder cache defs t device iFace) [] (map_order NonMibMetrics).*1 = Ret rates ∧
    bs = (rates ++ omap (λ kv, expected_builder defs t (cache !! makeCK device (ifname iFace) kv.1) kv.2)
                     (map_order (ie_Metrics iFace)))%list ∧
    ∀ mib m, ie_Metrics iFace !! mib = Some m → is_Some (defs !! im_Mib m) →
      cache' !! makeCK device (ifname iFace) mib = Some (mkCachedMetric m (sec t)).
Proof using Type.
  intros (rates & Hrates & Hf)%bind_Ret_inv Hwf. exists rates. split; [done|].
  destruct (wf_iface_order iFace Hwf) as [Hnd Hall].
  pose proof (mib_builders_spec defs t device iFace (map_order (ie_Metrics iFace)) cache rates Hnd Hall) as Hspec.
  injection Hf as Hf. rewrite Hf in Hspec. destruct Hspec as (-> & Hnew & _). split; [done|].
  intros mib m Hm. apply Hnew. by apply elem_of_map_order.
Qed.

(** Two collections in a row of an interface: the second reports every metric that is
    defined, a delta as the change since the first (as a 64-bit number), another as
    its value; and the bytes per second as the change of the counter over the time
    that has passed. *)
Theorem delta_between_collections cache c1 c2 t1 t2 i1 i2 bs1 bs2 :
  interface_builders cache defs t1 device i1 = Ret (c1, bs1) →
  interface_builders c1 defs t2 device i2 = Ret (c2, bs2) →
  ifname i1 = ifname i2 → wf_iface i1 → wf_iface i2 → metrics_keyed i1 → metrics_keyed i2 →
  (∀ mib, is_Some (ie_Metrics i2 !! mib) → is_Some (ie_Metrics i1 !! mib)) →
  (∃ rates, bs2 = (rates ++
     omap (λ kv, (λ d, makeMetricBuilder d (im_Key kv.2) t2
                   (if isDelta (mdef_MetricType d) then int64 (im_Value kv.2 - metric_value i1 kv.1)
                    else im_Value kv.2)) <$> defs !! kv.1) (map_order (ie_Metrics i2)))%list) ∧
  (∀ d, defs !! BytesPerSecondIn = Some d → is_Some (defs !! IfHCInOctets) →
     is_Some (ie_Metrics i1 !! IfHCInOctets) → (0 ≤ sec t1 < sec t2)%Z → (sec t2 < 2 ^ 63)%Z →
     makeMetricBuilder d BytesPerSecondIn t2
       (int64 (Z.quot (int64 (metric_value i2 IfHCInOctets - metric_value i1 IfHCInOctets)) (sec t2 - sec t1))) ∈ bs2).
Proof using Type.
  intros H1 H2 Hname Hwf1 Hwf2 Hk1 Hk2 Hsub.
  destruct (interface_builders_inv _ _ _ _ _ H1 Hwf1) as (r1 & _ & _ & Hc1).
  destruct (interface_builders_inv _ _ _ _ _ H2 Hwf2) as (r2 & Hr2 & -> & _). split.
  - exists r2. f_equal. apply list_omap_ext, Forall_Forall2_diag, Forall_forall.
    intros [mib m] Hm%elem_of_map_order. cbn [fst snd]. unfold expected_builder.
    rewrite (map_Forall_lookup_1 _ _ _ _ Hk2 Hm). destruct (Hsub mib) as [m1 Hm1]; [by eexists|].
    destruct (defs !! mib) as [d|] eqn:Hd; [|done]. cbn [fmap option_fmap option_map].
    destruct (isDelta _); [|done]. rewrite <-Hname, (Hc1 mib m1) by
      (done || (rewrite (map_Forall_lookup_1 _ _ _ _ Hk1 Hm1), Hd; by eexists)).
    unfold metric_value. by rewrite Hm1.
  - intros d Hd Hdo [m1 Hm1] Ht1 Ht2. apply elem_of_app. left.
    eapply nonmib_in; [exact Hr2| |done|].
    + apply (list_elem_of_fmap_2 fst _ (BytesPerSecondIn, mkSnmpMetric "bytesPerSecondIn" "-" "" "Inbound Bytes Per Second")).
      by apply elem_of_map_order.
    + unfold rate_of. rewrite <-Hname, (Hc1 IfHCInOctets m1) by
        (done || by rewrite (map_Forall_lookup_1 _ _ _ _ Hk1 Hm1)).
      assert (metric_value i1 IfHCInOctets = im_Value m1) as -> by (unfold metric_value; by rewrite Hm1).
      by rewrite rate_ret by done.
Qed.
End two_collections.

(** *** Concrete collections *)

Definition some_index_order : IndexOrder :=
  {| index_order := λ A m, map_to_list m; index_order_perm := λ A m, Permutation_refl _ |}.

Definition sample_definition (name : string) (kind : MetricKind) : MetricDefinition :=
  mkMetricDefinition name "" "" true true kind Query Interfaces "" "" (-1)%Z (-1)%Z "" "".

Definition sample_defs : gmap string MetricDefinition := list_to_map [
  (IfHCInOctets, sample_definition IfHCInOctets Delta);
  (BytesPerSecondIn, sample_definition BytesPerSecondIn Gauge)].

Definition sample_iface (octets : Z) : InterfaceExt :=
  mkInterfaceExt (mkInterface "eth0" "r1" 1 3)
    {[IfHCInOctets := mkInterfaceMetric "bytesInX64" IfHCInOctets octets]}.

Definition at_second (s : Z) : Timestamp := mkTimestamp s 0 UTCLoc.

Definition cache_of (r : outcome (value_cache * list MetricBuilder)) : value_cache :=
  match r with Ret (c, _) => c | Panic _ => ∅ end.
Definition builders_of (r : outcome (value_cache * list MetricBuilder)) : list MetricBuilder :=
  match r with Ret (_, bs) => bs | Panic _ => [] end.

Definition first_collection : outcome (value_cache * list MetricBuilder) :=
  interface_builders (H := sorted_order) ∅ sample_defs (at_second 100) "r1" (sample_iface 1000).
Definition second_collection : outcome (value_cache * list MetricBuilder) :=
  interface_builders (H := sorted_order) (cache_of first_collection) sample_defs (at_second 160) "r1" (sample_iface 7000).

Lemma sample_metric_of octets mib m :
  ie_Metrics (sample_iface octets) !! mib = Some m → mib = IfHCInOctets ∧ m = mkInterfaceMetric "bytesInX64" IfHCInOctets octets.
Proof. unfold sample_iface. cbn [ie_Metrics]. by intros [<- <-]%lookup_singleton_Some. Qed.

Lemma delta_between_collections_witness :
  makeMetricBuilder (sample_definition BytesPerSecondIn Gauge) BytesPerSecondIn (at_second 160) 100 ∈
  builders_of second_collection.
Proof.
  eapply (@delta_between_collections sorted_order sample_defs "r1" ∅ (cache_of first_collection)
    (cache_of second_collection) (at_second 100) (at_second 160) (sample_iface 1000) (sample_iface 7000)
    (builders_of first_collection)).
  - vm_compute. reflexivity.
  - vm_compute. reflexivity.
  - reflexivity.
  - by intros mib m [-> _]%sample_metric_of.
  - by intros mib m [-> _]%sample_metric_of.
  - by intros mib m [-> ->]%sample_metric_of.
  - by intros mib m [-> ->]%sample_metric_of.
  - intros mib [m [-> _]%sample_metric_of]. by eexists.
  - vm_compute. reflexivity.
  - vm_compute. by eexists.
  - by eexists.
  - cbn. lia.
  - cbn. lia.
Defined.

Definition sample_device : DeviceExt :=
  mkDeviceExt (mkDevice "r1" "10.0.0.1" "public" 90) None {[1%Z := sample_iface 1000]}.

Lemma sample_devices_ok : devices_ok (H := some_index_order) {["r1" := sample_device]}.
Proof.
  intros name d [<- <-]%lookup_singleton_Some. split; [done|].
  assert (@iface_list some_index_order sample_device = [sample_iface 1000]) as Hl by (vm_compute; reflexivity).
  split; [done|]. rewrite Hl. split; [repeat constructor; by intros ?%elem_of_nil|].
  constructor; [|constructor]. by intros mib m [-> _]%sample_metric_of.
Qed.

(** A clock that reads one second for all. *)
Definition still_clock (t : Z) (name : string) : readings := mkReadings (at_second t) (λ _, at_second t) (at_second t) t.

Lemma collection_complete_witness :
  ∃ cache mrs, retrieveMonitoredResources (H := sorted_order) (H0 := some_index_order) DefaultCheckInterval
    (still_clock 100) sample_defs ∅ {["r1" := sample_device]} = Ret (cache, mrs) ∧ length mrs = 1%nat.
Proof.
  destruct (@collection_complete sorted_order some_index_order DefaultCheckInterval sample_defs (still_clock 100) 100 101 ∅
    {["r1" := sample_device]}) as (cache & mrs & He & Hf & _).
  - lia.
  - lia.
  - intros name. cbn. lia.
  - intros k c Hk. by rewrite lookup_empty in Hk.
  - apply sample_devices_ok.
  - exists cache, mrs. split; [exact He|]. apply Forall2_length in Hf. rewrite <-Hf. vm_compute. reflexivity.
Defined.

(** A device with two interfaces of one name, and the bytes per second wanted: the first
    one's counter is cached, and the second divides by the time since then, in the same
    second. *)
Example same_name_panics :
  is_panic (retrieveMonitoredResources (H := sorted_order) (H0 := some_index_order) DefaultCheckInterval (still_clock 100)
    sample_defs ∅ {["r1" := mkDeviceExt (mkDevice "r1" "10.0.0.1" "public" 90) None
                              {[1%Z := sample_iface 1000; 2%Z := sample_iface 1000]}]}) = true.
Proof. vm_compute. reflexivity. Qed.

Lemma foldM_panic {A S} (f : S → A → outcome S) s l x :
  x ∈ l → (∀ s, is_panic (f s x) = true) → is_panic (foldM f s l) = true.
Proof.
  intros Hx Hf. revert s. induction l as [|y l IH]; intros s; [by apply elem_of_nil in Hx|].
  cbn [foldM]. apply elem_of_cons in Hx as [->|Hx].
  - specialize (Hf s). by destruct (f s y).
  - destruct (f s y) as [s'|]; [by apply IH|done].
Qed.

(** Two collections within a second: the rate divides by nothing. *)
Theorem same_second_panics `{MapOrder} `{IndexOrder} defs cache t device iFace d prev :
  defs !! BytesPerSecondIn = Some d →
  cache !! makeCK device (if_Name (ie_Interface iFace)) IfHCInOctets = Some prev → cm_ts prev = sec t →
  is_panic (interface_builders cache defs t device iFace) = true.
Proof.
  intros Hd Hp Ht. unfold interface_builders.
  assert (is_panic (foldM (nonmib_builder cache defs t device iFace) [] (map_order NonMibMetrics).*1) = true) as Hf.
  { apply (foldM_panic _ _ _ BytesPerSecondIn).
    - apply (list_elem_of_fmap_2 fst _ (BytesPerSecondIn, mkSnmpMetric "bytesPerSecondIn" "-" "" "Inbound Bytes Per Second")).
      by apply elem_of_map_order.
    - intros bs. unfold nonmib_builder. rewrite Hd, decide_True by done.
      unfold rate_of, rate. rewrite Hp, Ht, Z.sub_diag. done. }
  by destruct (foldM _ _ _).
Qed.

(** ** Lemmas: rates *)

Section rates.
Context `{MapOrder} `{IndexOrder}.

(** No value of the octets is cached. *)
Definition no_octets (cache : value_cache) : Prop :=
  ∀ device iface mib, mib ∈ [IfHCInOctets; IfInOctets] → cache !! makeCK device iface mib = None.

(** The metrics of the interface are objects that the program knows. *)
Definition known_metrics (iFace : InterfaceExt) : Prop :=
  map_Forall (λ mib m, no_byte ":" mib = true ∧ im_Mib m = mib ∧ im_Key m ≠ BytesPerSecondIn) (ie_Metrics iFace).

Lemma no_octets_rate cache ts device iFace :
  no_octets cache → rate_of cache ts device iFace IfHCInOctets IfInOctets = Ret None.
Proof using Type. intros Hc. unfold rate_of. rewrite !Hc by (repeat constructor). done. Qed.

Lemma nonmib_no_rate cache defs t device iFace keys bs bs' :
  no_octets cache → Forall (λ b, mb_Name b ≠ BytesPerSecondIn) bs →
  foldM (nonmib_builder cache defs t device iFace) bs keys = Ret bs' →
  Forall (λ b, mb_Name b ≠ BytesPerSecondIn) bs'.
Proof using Type.
  intros Hc Hbs. apply foldM_inv; [done|]. intros bs1 key bs2 _ Hbs1. unfold nonmib_builder.
  destruct (defs !! key) as [d|]; [|by intros [= <-]].
  destruct (decide (key = BytesPerSecondIn)) as [->|Hne]; [rewrite no_octets_rate by done; by intros [= <-]|].
  intros (v & _ & [= <-])%bind_Ret_inv. destruct v; [|done].
  apply Forall_app. split; [done|]. by constructor.
Qed.

Lemma no_octets_step cache defs t device iFace cache' bs :
  defs !! IfHCInOctets = None → defs !! IfInOctets = None → known_metrics iFace → no_octets cache →
  interface_builders cache defs t device iFace = Ret (cache', bs) →
  no_octets cache' ∧ Forall (λ b, mb_Name b ≠ BytesPerSecondIn) bs.
Proof using Type.
  intros Hd1 Hd2 Hk Hc (rates & Hrates & Hf)%bind_Ret_inv.
  assert (wf_iface iFace) as Hwf by (eapply map_Forall_impl; [exact Hk|]; naive_solver).
  destruct (wf_iface_order iFace Hwf) as [Hnd Hall].
  pose proof (mib_builders_spec defs t device iFace (map_order (ie_Metrics iFace)) cache rates Hnd Hall) as Hspec.
  injection Hf as Hf. rewrite Hf in Hspec. destruct Hspec as (-> & _ & Hold). split.
  - intros d i mib Hmib. rewrite Hold; [by apply Hc|].
    intros mib' m Hin%elem_of_map_order [df Hdf] [He _]%makeCK_mib.
    + destruct (map_Forall_lookup_1 _ _ _ _ Hk Hin) as (_ & Hm & _). rewrite Hm, <-He in Hdf.
      apply elem_of_cons in Hmib as [->|Hmib]; [congruence|]. apply list_elem_of_singleton in Hmib as ->. congruence.
    + apply elem_of_cons in Hmib as [->|Hmib]; [done|]. by apply list_elem_of_singleton in Hmib as ->.
    + by destruct (map_Forall_lookup_1 _ _ _ _ Hk Hin).
  - apply Forall_app. split; [by eapply nonmib_no_rate|].
    apply Forall_forall. intros b ([mib m] & Hin%elem_of_map_order & Hb)%list_elem_of_omap.
    destruct (map_Forall_lookup_1 _ _ _ _ Hk Hin) as (_ & _ & Hkey). cbn in Hb. unfold expected_builder in Hb.
    destruct (defs !! im_Mib m) as [df|]; [|done]. destruct (isDelta _).
    + by apply fmap_Some in Hb as (p & _ & ->).
    + by injection Hb as <-.
Qed.

(** A collection of one interface, whatever the interface and the time. *)
Definition collection_step (defs : gmap string MetricDefinition) (cache cache' : value_cache) : Prop :=
  ∃ t device iFace bs, known_metrics iFace ∧ interface_builders cache defs t device iFace = Ret (cache', bs).

(** A profile with the bytes per second and without the counters of bytes never
    reports the bytes per second: only metrics of the profile are cached. *)
Theorem rates_need_counters defs cache cache' t device iFace bs :
  defs !! IfHCInOctets = None → defs !! IfInOctets = None →
  rtc (collection_step defs) ∅ cache → known_metrics iFace →
  interface_builders cache defs t device iFace = Ret (cache', bs) →
  Forall (λ b, mb_Name b ≠ BytesPerSecondIn) bs.
Proof using Type.
  intros Hd1 Hd2 Hr Hk Hi.
  assert (no_octets cache) as Hc; [|by eapply no_octets_step].
  assert (∀ c c', rtc (collection_step defs) c c' → no_octets c → no_octets c') as Hpres.
  { clear -Hd1 Hd2. induction 1 as [|c1 c2 c3 (t' & d' & i' & bs' & Hk' & Hi') _ IH]; [done|].
    intros Hc. apply IH. by eapply no_octets_step. }
  eapply Hpres; [exact Hr|]. intros ? ? ? _. apply lookup_empty.
Qed.
End rates.

(** ** The devices of the connector *)

Definition keyed (devices : gmap string DeviceExt) : Prop :=
  map_Forall (λ name d, dv_Name (de_Device d) = name) devices.

Definition resource_name (r : MonitoredResource) : string := bi_Name (br_BaseInfo (mr_BaseResource r)).

(** A step that only adds or replaces devices under their names. *)
Definition extends_devices (devices devices' : gmap string DeviceExt) : Prop :=
  dom devices ⊆ dom devices' ∧ keyed devices'.

Lemma extends_insert devices0 devices name d :
  extends_devices devices0 devices → dv_Name (de_Device d) = name → extends_devices devices0 (<[name := d]> devices).
Proof.
  intros [Hs Hk] Hn. split; [rewrite dom_insert; set_solver|]. by apply map_Forall_insert_2.
Qed.

Section collect_lemmas.
Context `{MapOrder} `{IndexOrder} (CheckInterval : Z).
Context (GetDevices : string → outcome (result error (list Device))).
Context (GetDeviceInterfaces : string → string → outcome (result error (list Interface))).
Context (GetSecurityData : string → outcome (result error SecurityData)).
Context (GetSnmpData : list string → string → option SecurityData → outcome (result error (list SnmpMetricData))).

Lemma add_device_extends devices0 devices d devices' :
  extends_devices devices0 devices → add_device GetSecurityData devices d = Ret devices' →
  extends_devices devices0 devices'.
Proof using Type. intros He (sd & _ & [= <-])%bind_Ret_inv. by apply extends_insert. Qed.

Lemma collect_device_extends nedi mibs devices0 devices kv devices' :
  dv_Name (de_Device kv.2) = kv.1 → extends_devices devices0 devices →
  collect_device GetDeviceInterfaces GetSnmpData nedi mibs devices kv = Ret devices' →
  extends_devices devices0 devices'.
Proof using Type.
  destruct kv as [name d]. cbn [fst snd]. intros Hn He (r & _ & Hr)%bind_Ret_inv.
  destruct r as [[|i l]|]; [by injection Hr as <-| |by injection Hr as <-].
  destruct (de_SecData d); [|by injection Hr as <-]. apply bind_Ret_inv in Hr as ([data|] & _ & [= <-]); [|done].
  by apply extends_insert.
Qed.

Lemma collect_interfaces_extends nedi mibs devices0 devices devices' :
  extends_devices devices0 devices →
  collectInterfacesMetrics GetDeviceInterfaces GetSnmpData nedi mibs devices = Ret devices' →
  extends_devices devices0 devices'.
Proof using Type.
  intros He. pose proof (proj2 He) as Hk. apply foldM_inv; [done|]. intros ds [name d] ds' Hin%elem_of_map_order Hds.
  apply collect_device_extends; [|done]. by apply (map_Forall_lookup_1 _ _ _ _ Hk Hin).
Qed.

Lemma device_resources_names clock defs cache rs ds cache' rs' :
  foldM (device_resource CheckInterval clock defs) (cache, rs) ds = Ret (cache', rs') →
  resource_name <$> rs' = ((resource_name <$> rs) ++ ((λ d, dv_Name (de_Device d)) <$> ds))%list.
Proof using Type.
  revert cache rs. induction ds as [|d ds IH]; intros cache rs; cbn [foldM].
  - intros [= <- <-]. cbn. by rewrite app_nil_r.
  - intros ([c1 rs1] & H1 & ->%IH)%bind_Ret_inv. rewrite fmap_cons.
    apply bind_Ret_inv in H1 as ([c2 services] & _ & [= <- <-]).
    rewrite fmap_app, <-app_assoc. by destruct services.
Qed.

(** A device stays with the connector until the next configuration: every later
    collection has a resource for it, also when NeDi no longer has it. *)
Theorem devices_stay clock c c' mrs irs rgs :
  keyed (sc_devices c) →
  CollectMetrics CheckInterval GetDevices GetDeviceInterfaces GetSecurityData GetSnmpData clock c =
    Ret (c', Val (mrs, irs, rgs)) →
  dom (sc_devices c) ⊆ dom (sc_devices c') ∧ keyed (sc_devices c') ∧
  resource_name <$> mrs = (map_order (sc_devices c')).*1.
Proof using Type.
  intros Hk (devices & Hd & Hr)%bind_Ret_inv. destruct devices as [devices|e]; [|done].
  assert (extends_devices (sc_devices c) devices) as He.
  { destruct (decide _); [injection Hd as <-; by split|].
    apply bind_Ret_inv in Hd as (r & _ & Hd). destruct r as [ds|]; [|done].
    destruct (foldM _ _ ds) as [ds'|] eqn:Hf; [|done]. injection Hd as <-.
    eapply foldM_inv; [| |exact Hf]; [by split|]. intros ? ? ? _. apply add_device_extends. }
  apply bind_Ret_inv in Hr as ([defs devices1] & Hv & Hr).
  apply bind_Ret_inv in Hr as ([cache mrs1] & Hm & Hr). injection Hr as <- <- _ _. cbn [sc_devices].
  assert (extends_devices (sc_devices c) devices1) as [Hdom Hkeyed].
  { apply (foldM_inv (λ st, extends_devices (sc_devices c) st.2) _ _ _ (defs, devices1)) in Hv; [done|done|].
    intros [df ds] [view metrics] [df' ds'] _ Hds. unfold collect_view.
    destruct (decide (view = Interfaces)); [|intros Heq; by simplify_eq]. intros (ds1 & H1 & Heq)%bind_Ret_inv. simplify_eq.
    by eapply collect_interfaces_extends. }
  split_and!; [done|done|]. apply device_resources_names in Hm. rewrite Hm. cbn [fmap list_fmap app].
  rewrite <-list_fmap_compose. apply list_fmap_ext. intros i [name d] Hi.
  apply list_elem_of_lookup_2, elem_of_map_order in Hi. by apply (map_Forall_lookup_1 _ _ _ _ Hkeyed Hi).
Qed.
End collect_lemmas.

(** ** The handlers *)

(** The ownership of the configuration is the one the first connection defers, or
    the one there was: another connection that defers it is never read. *)
Theorem ownership_of_first (d : snmp_dto) :
  ec_Ownership (snmp_config d) =
  match ec_GWConnections (sd_Ext d) with
  | c :: _ => if decide (DeferOwnership c = "") then ec_Ownership (sd_Ext d) else DeferOwnership c
  | [] => ec_Ownership (sd_Ext d)
  end.
Proof.
  unfold snmp_config. cbn [ec_Ownership]. destruct (ec_GWConnections (sd_Ext d)) as [|c conns]; [done|].
  destruct (decide (DeferOwnership c = "")) as [->|Hne].
  - assert (∀ l own, deferred_ownership "" l own = own) as H; [|apply H].
    induction l as [|x l IH]; intros own; [done|]. cbn. destruct (decide _); [|apply IH].
    apply IH.
  - cbn. by rewrite !decide_True by done.
Qed.

(** The views of the configuration: a monitored metric of the profile, other than the
    template, is in the view of its type, the last of its name. *)
Theorem views_of_profile (vs : views) (ms : list MetricDefinition) (view name : string) :
  default ∅ (foldl add_metric vs ms !! view) !! name =
  match List.find (λ m, bool_decide (mdef_Name m = name ∧ mdef_ServiceType m = view) && mdef_Monitored m &&
                        negb (bool_decide (templateMetricName = mdef_Name m))) (rev ms) with
  | Some m => Some m
  | None => default ∅ (vs !! view) !! name
  end.
Proof.
  induction ms as [|m ms IH] using rev_ind; [done|].
  rewrite foldl_app, rev_app_distr. cbn [foldl rev app List.find]. unfold add_metric at 1.
  destruct (decide (templateMetricName = mdef_Name m)) as [Ht|Ht].
  { rewrite (bool_decide_true (templateMetricName = _)) by done. by rewrite andb_false_r. }
  rewrite (bool_decide_false (templateMetricName = _)) by done. cbn [negb]. rewrite andb_true_r.
  destruct (mdef_Monitored m); [|by rewrite andb_false_r]. rewrite andb_true_r.
  destruct (decide (mdef_ServiceType m = view)) as [Hv|Hv].
  - subst view. rewrite lookup_insert_eq. cbn [default from_option id]. destruct (decide (mdef_Name m = name)) as [Hn|Hn].
    + subst name. rewrite bool_decide_true by done. apply lookup_insert_eq.
    + rewrite bool_decide_false by (by intros []). rewrite lookup_insert_ne by done. exact IH.
  - rewrite lookup_insert_ne by done. rewrite bool_decide_false by (by intros []). exact IH.
Qed.

(** After a failed walk and a failed reconnection the next object of the list closes
    a connection that is not there. *)
Theorem lost_connection_panics {conn} (reconnect : string → option conn) walk mib mib' mibs c e :
  getSnmpData walk mib (Some c) = Fail e → reconnect mib = None →
  is_panic (walk_mibs reconnect walk (mib :: mib' :: mibs) (Some c)) = true.
Proof.
  intros He Hr. cbn [walk_mibs]. rewrite He. cbn [deref mbind outcome_bind]. rewrite Hr.
  assert (∃ e', getSnmpData walk mib' None = Fail e') as [e' ->]; [|done].
  unfold getSnmpData. destruct (decide _); [by eexists|]. destruct (AvailableMetrics !! mib'); by eexists.
Qed.

Lemma validate_None target d :
  validate target (Some d) = None ↔
  target ≠ "" ∧ sd_Name d ≠ "" ∧ (sd_AuthProtocol d = "" ∨ sd_AuthPassword d ≠ "") ∧
  (sd_PrivacyProtocol d = "" ∨ sd_PrivacyPassword d ≠ "").
Proof.
  unfold validate, is_empty.
  assert (∀ (b : bool) (e : error), (if b then None else Some e) = None ↔ b = true) as Hif by (by intros [] e).
  rewrite Hif, !andb_true_iff, !orb_true_iff, !negb_true_iff, !bool_decide_eq_false, !bool_decide_eq_true. tauto.
Qed.

(** What a session needs: a target, a name, a password for each protocol that is
    given, and the names of protocols that the library knows; the privacy protocol is
    only looked at with authentication. *)
Theorem setup_session (target : string) (d : SecurityData) :
  (∃ g, setup target (Some d) = Ret (Val g)) ↔
  target ≠ "" ∧ sd_Name d ≠ "" ∧ (sd_AuthProtocol d = "" ∨ sd_AuthPassword d ≠ "") ∧
  (sd_PrivacyProtocol d = "" ∨ sd_PrivacyPassword d ≠ "") ∧
  (sd_AuthProtocol d ≠ "" →
     (ToLower (sd_AuthProtocol d) = "md5" ∨ ToLower (sd_AuthProtocol d) = "sha") ∧
     (sd_PrivacyProtocol d = "" ∨ ToLower (sd_PrivacyProtocol d) = "aes" ∨ ToLower (sd_PrivacyProtocol d) = "des")).
Proof.
  pose proof (validate_None target d) as Hv. unfold setup. cbn [deref mbind outcome_bind].
  unfold setupV2c, setupV3. destruct (validate target (Some d)) as [e|].
  - split; [intros [g Hg]; by case_decide|]. intros (H1 & H2 & H3 & H4 & _). pose proof (proj2 Hv (conj H1 (conj H2 (conj H3 H4)))). done.
  - destruct (proj1 Hv eq_refl) as (H1 & H2 & H3 & H4). clear Hv.
    destruct (decide (sd_AuthProtocol d ≠ "")) as [Ha|Ha]; [|split; [tauto|by eexists]].
    destruct (decide (ToLower (sd_AuthProtocol d) = "md5")) as [Hm|Hm]; [rewrite Hm in *|];
      [|destruct (decide (ToLower (sd_AuthProtocol d) = "sha")) as [Hs|Hs]; [rewrite Hs in *|]].
    3:{ split; [by intros [g [=]]|naive_solver]. }
    all: cbn [mbind result_bind]; destruct (decide (sd_PrivacyProtocol d = "")) as [Hp|Hp]; [split; [tauto|by eexists]|].
    all: destruct (decide (ToLower (sd_PrivacyProtocol d) = "aes")) as [Hae|Hae]; [split; [tauto|by eexists]|].
    all: destruct (decide (ToLower (sd_PrivacyProtocol d) = "des")) as [Hde|Hde]; [split; [tauto|by eexists]|].
    all: split; [by intros [g [=]]|tauto].
Qed.
