(* ===== verification/ElasticClients.v ===== *)
(** connectors/elastic/clients: the objects of Kibana and Elasticsearch with their
    relative times (apiObjects.go), the translation of a stored query
    (queryTranslator.go), and the two clients (kibanaClient.go and
    elasticSearchClient.go).

    The network and the decoders of its answers, the parser of the Kibana query
    language and the calendar of package time are arguments. *)

From S2P Require Import Prelude.
From stdpp Require Import pretty.
From S2P Require Import GoString.
From S2P Require Import GoFloat.
From S2P Require Import FloatText.
From S2P Require Import Errors.
From S2P Require Import Timestamp.
From S2P Require Import Transit.
From S2P Require Import Json.
From S2P Require Import Http.

Local Open Scope string_scope.
Local Open Scope nat_scope.

(** ** Objects of Kibana *)

Record KMeta := mkKMeta {
  km_Index : option string;
  km_Negate : option bool;
  km_Disabled : option bool;
  km_Type : option string;
}.

(** The members of unknown shape; nil is [JNull]. *)
Record KFilter := mkKFilter {
  kf_Meta : option KMeta;
  kf_Query : json;
  kf_Exists : json;
  kf_Range : json;
}.

Record KTimeFilter := mkKTimeFilter {
  kt_From : string;
  kt_To : string;
  kt_Override : option bool;
}.

Record KQuery := mkKQuery { kq_Language : string; kq_Query : string }.

Record KAttributes := mkKAttributes {
  ka_Title : string;
  ka_Description : string;
  ka_Filters : list KFilter;
  ka_TimeFilter : option KTimeFilter;
  ka_Query : option KQuery;
}.

Record KSavedObject := mkKSavedObject {
  ks_Type : string;
  ks_ID : string;
  ks_Attributes : option KAttributes;
}.

(** ** Relative times *)

Definition now_word : string := "now".

(** The calendar: the time now in its location, [AddDate], and [time.Date] of the
    parts of a time. *)
Class Calendar (T : Type) := {
  time_now : T;
  time_zero : T;
  AddDate : T → Z → Z → Z → T;
  time_Add : T → Z → T;
  Date_ : Z → Z → Z → Z → Z → Z → T;
  Year : T → Z;
  Month : T → Z;
  Day : T → Z;
  Hour : T → Z;
  Minute_ : T → Z;
  Second_ : T → Z;
  (** 0 is Sunday. *)
  Weekday : T → Z;
  time_Parse : string → result error T;
  UTC_Format : T → string;
}.

Section times.
Context `{Calendar T}.
Local Open Scope Z_scope.

Definition Hour_ns : Z := (60 * Minute)%Z.

(** The last millisecond before a time. *)
Definition before_next (t : T) : T := time_Add t (- 10 ^ 6)%Z.

(** The text after "now": the operator, the number, the period, and whether the
    expression is rounded. *)
Record shift := mkShift { sh_minus : bool; sh_number : result num_error Z; sh_period : string; sh_rounded : bool }.

Definition parse_shift (expression : string) : outcome shift :=
  operator ← str_slice expression 3 4;
  relativePart ← str_slice expression 4 (slen expression);
  let rounded := Contains relativePart "/" in
  relativePart ← (if rounded then str_slice relativePart 0 (slen relativePart - 2) else Ret relativePart);
  interval ← str_slice relativePart 0 (slen relativePart - 1);
  period ← str_slice relativePart (slen relativePart - 1) (slen relativePart);
  Ret (mkShift (bool_decide (operator = "-")) (ParseInt interval) (ToLower period) rounded).

(** [strconv.Atoi]: 0 for a text that is no number, the nearest bound out of range. *)
Definition shift_number (s : shift) (interval_negative : bool) : Z :=
  let i := match sh_number s with
           | Val i => i
           | Fail ErrSyntax => 0%Z
           | Fail ErrRange => if interval_negative then (- 2 ^ 63)%Z else (2 ^ 63 - 1)%Z
           end in
  if sh_minus s then int64 (- i) else i.

(** The time of a period, rounded to its start or to its last millisecond. *)
Definition apply_shift (period : string) (i : Z) (rounded isStartTime : bool) : T :=
  if decide (period = "y") then
    let r := AddDate time_now i 0 0 in
    if rounded then if isStartTime then Date_ (Year r) 1 1 0 0 0
                    else before_next (Date_ (Year r + 1) 1 1 0 0 0)
    else r
  else if decide (period = "M") then
    let r := AddDate time_now 0 i 0 in
    if rounded then if isStartTime then Date_ (Year r) (Month r) 1 0 0 0
                    else before_next (Date_ (Year r) (Month r + 1) 1 0 0 0)
    else r
  else if decide (period = "w") then
    let r := AddDate time_now 0 0 (int64 (7 * i)) in
    if rounded then if isStartTime then Date_ (Year r) (Month r) (Day r - Weekday r) 0 0 0
                    else before_next (Date_ (Year r) (Month r) (Day r + (6 - Weekday r) + 1) 0 0 0)
    else r
  else if decide (period = "d") then
    let r := AddDate time_now 0 0 i in
    if rounded then if isStartTime then Date_ (Year r) (Month r) (Day r) 0 0 0
                    else before_next (Date_ (Year r) (Month r) (Day r + 1) 0 0 0)
    else r
  else if decide (period = "h") then
    let r := time_Add time_now (int64 (i * Hour_ns)) in
    if rounded then if isStartTime then Date_ (Year r) (Month r) (Day r) (Hour r) 0 0
                    else before_next (Date_ (Year r) (Month r) (Day r) (Hour r + 1) 0 0)
    else r
  else if decide (period = "m") then
    let r := time_Add time_now (int64 (i * Minute)) in
    if rounded then if isStartTime then Date_ (Year r) (Month r) (Day r) (Hour r) (Minute_ r) 0
                    else before_next (Date_ (Year r) (Month r) (Day r) (Hour r) (Minute_ r + 1) 0)
    else r
  else if decide (period = "s") then
    let r := time_Add time_now (int64 (i * Second)) in
    if rounded then if isStartTime then Date_ (Year r) (Month r) (Day r) (Hour r) (Minute_ r) (Second_ r)
                    else before_next (Date_ (Year r) (Month r) (Day r) (Hour r) (Minute_ r) (Second_ r + 1))
    else r
  else time_zero.

(** [toAbsoluteTime]: a number that does not parse is only logged. *)
Definition toAbsoluteTime (expression : string) (isStartTime : bool) : outcome (result error T) :=
  if Contains expression now_word then
    if decide (expression = now_word) then Ret (Val time_now)
    else
      s ← parse_shift expression;
      let negative := HasPrefix (str_drop 4 expression) "-" in
      Ret (Val (apply_shift (sh_period s) (shift_number s negative) (sh_rounded s) isStartTime))
  else Ret (time_Parse expression).

(** The time, or the zero time after an error. *)
Definition absolute (expression : string) (isStartTime : bool) : outcome T :=
  r ← toAbsoluteTime expression isStartTime;
  Ret (match r with Val t => t | Fail _ => time_zero end).

(** [ToTimeInterval]: end and start. *)
Definition ToTimeInterval (f : KTimeFilter) : outcome (T * T) :=
  startTime ← absolute (kt_From f) true;
  endTime ← absolute (kt_To f) false;
  Ret (endTime, startTime).

(** [toAbsoluteUtcTime]: the texts of the bounds. *)
Definition toAbsoluteUtcTime (From To : string) : outcome (string * string) :=
  from ← absolute From true;
  to ← absolute To false;
  Ret (UTC_Format from, UTC_Format to).
End times.

(** ** The translation of a stored query *)

(** The members of a query: a query string, a filter, or an object. *)
Inductive es_any :=
| MStr (query : string) (analyze_wildcard : bool)
| MFilter (f : KFilter)
| MAny (j : json).

Record EsQueryBool := mkEsQueryBool {
  eb_Must : list es_any;
  eb_Filter : list es_any;
  eb_Should : list es_any;
  eb_MustNot : list es_any;
}.

(** [EsQuery], whose [Bool] may be nil. *)
Definition EsQuery := option EsQueryBool.

Definition filterNegate (filter : KFilter) (reverse : bool) : bool :=
  match kf_Meta filter with
  | Some m =>
      match km_Negate m with
      | Some negate => bool_decide (negate = reverse)
      | None => negb reverse
      end
  | None => negb reverse
  end.

Definition buildMatchPhraseFilter (fieldName : string) (value : json) : json :=
  JObject {["match_phrase" := JObject {[fieldName := JObject {["query" := value]}]}]}.

Definition j_field (m : gmap string json) (k : string) : json := default JNull (m !! k).

Section translate.
Context `{MapOrder}.

Definition with_query (f : KFilter) (q : json) : KFilter := mkKFilter (kf_Meta f) q (kf_Exists f) (kf_Range f).

(** [migrateDeprecatedPhraseFilter]: the first field of the match in the order of the
    map. *)
Definition migrateDeprecatedPhraseFilter (filter : KFilter) : KFilter :=
  match kf_Query filter with
  | JObject filterQuery =>
      match filterQuery !! "match" with
      | Some (JObject queryBody) =>
          let fieldName := match map_order queryBody with (k, _) :: _ => k | [] => "" end in
          match j_field queryBody fieldName with
          | JObject field =>
              match field !! "type" with
              | Some (JString t) =>
                  if decide (t = "phrase")
                  then with_query filter (buildMatchPhraseFilter fieldName (j_field field "query"))
                  else filter
              | _ => filter
              end
          | _ => filter
          end
      | _ => filter
      end
  | _ => filter
  end.

Definition translateToQuery (filter : KFilter) : es_any :=
  match kf_Query filter with JNull => MFilter filter | q => MAny q end.

Definition cleanFilter (filter : es_any) : es_any :=
  match filter with
  | MFilter f => MFilter (mkKFilter None (kf_Query f) (kf_Exists f) (kf_Range f))
  | f => f
  end.

Definition filtersToESQueries (filters : list KFilter) (negate : bool) : list es_any :=
  let negateFilters := List.filter (λ f, filterNegate f negate) filters in
  let migratedFilters := migrateDeprecatedPhraseFilter <$> negateFilters in
  let translatedFilters := translateToQuery <$> migratedFilters in
  cleanFilter <$> translatedFilters.

Definition buildQueryFromFilters (filters : list KFilter) : EsQueryBool :=
  mkEsQueryBool [] (filtersToESQueries filters false) [] (filtersToESQueries filters true).

Section build.
Context {T} `{Calendar T}.
(** [nodes.ParseKueryString] *)
Context (ParseKueryString : string → result error json).

Definition buildRangeFilterFromTimeFilter (f : KTimeFilter) : outcome KFilter :=
  '(from, to) ← toAbsoluteUtcTime (kt_From f) (kt_To f);
  Ret (mkKFilter None JNull JNull
         (JObject {["@timestamp" := JObject (<["gte" := JString from]> {["lt" := JString to]})]})).

(** The members of the query of the stored query: of [Must], and of [Filter]. *)
Definition query_members (q : option KQuery) : list es_any * list es_any :=
  match q with
  | Some q =>
      if decide (kq_Query q = "") then ([], [])
      else if decide (kq_Language q = "kuery") then
        match ParseKueryString (kq_Query q) with Val j => ([], [MAny j]) | Fail _ => ([], []) end
      else if decide (kq_Language q = "lucene") then ([MStr (kq_Query q) true], [])
      else ([], [])
  | None => ([], [])
  end.

(** [BuildEsQuery], with the package's filter of the hosts. *)
Definition BuildEsQuery (FilterHostsWithLucene : string) (storedQuery : KSavedObject) : outcome EsQuery :=
  match ks_Attributes storedQuery with
  | None => Ret (Some (mkEsQueryBool [] [] [] []))
  | Some a =>
      let lucene := if decide (FilterHostsWithLucene = "") then [] else [MStr FilterHostsWithLucene true] in
      let '(must, filter) := query_members (ka_Query a) in
      let fromFilters := buildQueryFromFilters (ka_Filters a) in
      range ← match ka_TimeFilter a with
              | Some t => f ← buildRangeFilterFromTimeFilter t; Ret [MFilter f]
              | None => Ret []
              end;
      Ret (Some (mkEsQueryBool (lucene ++ must ++ eb_Must fromFilters)
                   (filter ++ eb_Filter fromFilters ++ range)
                   (eb_Should fromFilters) (eb_MustNot fromFilters)))
  end%list.
End build.
End translate.

(** [ExtractIndexIds]: the set of the indexes of the filters; a filter without a meta
    part is dereferenced. *)
Fixpoint index_ids (indexIdsSet : gmap string bool) (filters : list KFilter) : outcome (gmap string bool) :=
  match filters with
  | [] => Ret indexIdsSet
  | f :: filters =>
      m ← deref (kf_Meta f);
      index_ids (match km_Index m with Some i => <[i := true]> indexIdsSet | None => indexIdsSet end) filters
  end.

Definition ExtractIndexIds `{MapOrder} (storedQuery : KSavedObject) : outcome (list string) :=
  a ← deref (ks_Attributes storedQuery);
  ids ← index_ids ∅ (ka_Filters a);
  Ret (map_order ids).*1.

(** [copyQuery]: the [Bool] of the copy is nil, and so are its assignments. *)
Definition copyQuery (query : option EsQuery) : outcome (option EsQuery) :=
  match query with
  | None => Ret None
  | Some q =>
      b ← deref q;
      match eb_Must b, eb_MustNot b, eb_Should b, eb_Filter b with
      | [], [], [], [] => Ret (Some None)
      | _, _, _, _ => Panic "invalid memory address or nil pointer dereference"
      end
  end.

(** ** The client of Kibana *)

Definition StoredQuery : string := "query".
Definition IndexPattern : string := "index-pattern".
Definition Title : string := "title".

Record KibanaClient := mkKibanaClient {
  kc_APIRoot : string;
  kc_Username : string;
  kc_Password : string;
  kc_headers : gmap string string;
}.

(** [InitClient] never fails. *)
Definition Kibana_InitClient (base64 : string → string) (c : KibanaClient) : KibanaClient :=
  let headers : gmap string string :=
    <["Content-Type" := "application/json"]> {["kbn-xsrf" := "true"]} in
  mkKibanaClient (kc_APIRoot c) (kc_Username c) (kc_Password c)
    (if decide (kc_Password c = "") then headers
     else <["Authorization" := "Basic " +:+ base64 (kc_Username c +:+ ":" +:+ kc_Password c)]> headers).

(** An object of a bulk answer: its error, or itself. *)
Record KItem := mkKItem { ki_Object : KSavedObject; ki_Error : bool }.

Record KSavedObjectsResponse := mkKSavedObjectsResponse { kr_Total : Z; kr_SavedObjects : list KSavedObject }.

Section kibana.
Context `{MapOrder}.
(** [request method url body]: status, response and error; and the decoders. *)
Context (request : string → string → option string → Z * string * option error).
Context (decode_default : string → result error string).
Context (decode_found : string → result error KSavedObjectsResponse).
Context (encode_ids : string → list string → result error string).
Context (decode_got decode_resolved : string → result error (list KItem)).

Definition apiPath : string := "api/".
Definition savedObjectsPath : string := "saved_objects/".

(** The answer that is used: no error, status 200, and not empty. *)
Definition answer (r : Z * string * option error) : option string :=
  match r with
  | (200%Z, response, None) => if decide (response = "") then None else Some response
  | _ => None
  end.

Definition GetDefaultIndexID (c : KibanaClient) : string :=
  match answer (request "GET" (kc_APIRoot c +:+ apiPath +:+ "index_patterns/default") None) with
  | None => ""
  | Some response => match decode_default response with Val id => id | Fail _ => "" end
  end.

(** [buildFindSOPath] of given page, size, type and field; no titles is nil. *)
Definition buildFindSOPath (c : KibanaClient) (page perPage : Z) (savedObjectType searchField : string)
    (searchValues : option (list string)) : string :=
  let params : gmap string string :=
    <["type" := savedObjectType]> (<["page" := FormatInt page]> {["per_page" := FormatInt perPage]}) in
  let params := match searchValues with
    | Some l => <["search_fields" := searchField]> (<["search" := Join l "|"]> params)
    | None => params
    end in
  kc_APIRoot c +:+ apiPath +:+ savedObjectsPath +:+ "_find" +:+ BuildQueryParams params +:+
    "&fields=filters&fields=title&fields=typeMeta&fields=query".

(** The loop of [FindSO] at a page, with the total so far ([-1] before the first
    answer): [None] when the fuel is used up. *)
Fixpoint find_pages (fuel : nat) (url : Z → string) (perPage page total : Z) (savedObjects : list KSavedObject)
  : option (list KSavedObject) :=
  if decide (total = -1 ∨ page * perPage ≤ total)%Z then
    match fuel with
    | O => None
    | S fuel =>
        match answer (request "GET" (url page) None) with
        | None => Some []
        | Some response =>
            match decode_found response with
            | Fail _ => Some savedObjects
            | Val r =>
                find_pages fuel url perPage (page + 1)
                  (if decide (total = -1)%Z then kr_Total r else total)
                  (savedObjects ++ kr_SavedObjects r)%list
            end
        end
    end
  else Some savedObjects.

Definition FindSO (fuel : nat) (c : KibanaClient) (savedObjectType searchField : string)
    (searchValues : option (list string)) : option (list KSavedObject) :=
  find_pages fuel (λ page, buildFindSOPath c page 1000 savedObjectType searchField searchValues) 1000 1 (-1) [].

Definition RetrieveStoredQueries (fuel : nat) (c : KibanaClient) (titles : option (list string)) :=
  FindSO fuel c StoredQuery Title titles.

(** [BulkGetSO] and [BulkResolveSO]: the objects without an error. *)
Definition bulk (url : string) (decode : string → result error (list KItem)) (savedObjectType : string)
    (ids : list string) : list KSavedObject :=
  match ids with
  | [] => []
  | _ =>
      match encode_ids savedObjectType ids with
      | Fail _ => []
      | Val body =>
          match answer (request "POST" url (Some body)) with
          | None => []
          | Some response =>
              match decode response with
              | Fail _ => []
              | Val items => ki_Object <$> List.filter (λ i, negb (ki_Error i)) items
              end
          end
      end
  end.

Definition BulkGetSO (c : KibanaClient) : string → list string → list KSavedObject :=
  bulk (kc_APIRoot c +:+ apiPath +:+ savedObjectsPath +:+ "_bulk_get") decode_got.
Definition BulkResolveSO (c : KibanaClient) : string → list string → list KSavedObject :=
  bulk (kc_APIRoot c +:+ apiPath +:+ savedObjectsPath +:+ "_bulk_resolve") decode_resolved.

(** The titles of the index patterns, a set. *)
Fixpoint index_titles (indexSet : gmap string bool) (patterns : list KSavedObject) : outcome (gmap string bool) :=
  match patterns with
  | [] => Ret indexSet
  | p :: patterns =>
      a ← deref (ks_Attributes p);
      index_titles (if decide (ka_Title a = "") then indexSet else <[ka_Title a := true]> indexSet) patterns
  end.

Definition RetrieveIndexTitles (c : KibanaClient) (storedQuery : KSavedObject) : outcome (list string) :=
  ids ← ExtractIndexIds storedQuery;
  let ids := match ids with
             | [] => let defaultIndexID := GetDefaultIndexID c in
                     if decide (defaultIndexID = "") then [] else [defaultIndexID]
             | _ => ids
             end in
  match ids with
  | [] => Ret []
  | _ =>
      match BulkResolveSO c IndexPattern ids with
      | [] => Ret []
      | patterns => set ← index_titles ∅ patterns; Ret (map_order set).*1
      end
  end.
End kibana.

(** ** The client of Elasticsearch *)

Record EsAggregationKey := mkKey { ak_Host : string; ak_HostGroup : option string }.
Record EsAggregationBucket := mkBucket { bu_Key : EsAggregationKey; bu_DocsCount : Z }.

Record EsSearchResponse := mkSearchResponse {
  se_Total : Z;
  se_AfterKey : option EsAggregationKey;
  se_Buckets : list EsAggregationBucket;
}.

(** The fields of a composite aggregation, and the key to go on after. *)
Record EsAggs := mkEsAggs { ag_Fields : list string; ag_After : option EsAggregationKey }.

Record EsSearchBody := mkSearchBody { sb_Query : option EsQuery; sb_Aggs : option EsAggs }.

Definition BuildAggregationsByHostNameAndHostGroup (hostNameField : string) (hostGroupField : option string) : EsAggs :=
  mkEsAggs (hostNameField :: option_list hostGroupField) None.

(** A response of the library: an error with its decoded body, or what the body
    decodes to. *)
Inductive es_response :=
| ErrorResponse (body : result error (gmap string json))
| OkResponse (body : result error EsSearchResponse).

(** [parseSearchResponse] of a response or of nil: the description of an error is
    asserted to be an object. *)
Definition parseSearchResponse (response : option es_response) : outcome (option EsSearchResponse) :=
  match response with
  | None => Ret None
  | Some (ErrorResponse (Fail _)) => Ret None
  | Some (ErrorResponse (Val e)) =>
      match j_field e "error" with
      | JObject _ => Ret None
      | _ => Panic "interface conversion: interface {} is not map[string]interface {}"
      end
  | Some (OkResponse r) => Ret (match r with Val r => Some r | Fail _ => None end)
  end.

(** [getAfterKey]: the key of the answer, or the one of the last bucket. *)
Definition getAfterKey (r : EsSearchResponse) : option EsAggregationKey :=
  match se_AfterKey r with
  | Some k => Some k
  | None => bu_Key <$> last (se_Buckets r)
  end.

Section es_client.
(** [doSearchRequest]: the answer, or the error with a nil answer. *)
Context (doSearchRequest : EsSearchBody → list string → result error es_response).

Definition response_of (r : result error es_response) : option es_response :=
  match r with Val x => Some x | Fail _ => None end.
Definition error_of {A} (r : result error A) : option error :=
  match r with Val _ => None | Fail e => Some e end.

(** The loop over the pages after the first: [absorb] takes the buckets in; the error
    is the one of the last request.  [None] when the fuel is used up. *)
Fixpoint search_pages {A} (fuel : nat) (query : option EsQuery) (fields : list string) (indexes : list string)
    (absorb : A → list EsAggregationBucket → A) (acc : A) (err : option error) (afterKey : option EsAggregationKey)
  : outcome (option (A * option error)) :=
  match afterKey with
  | None => Ret (Some (acc, err))
  | Some k =>
      match fuel with
      | O => Ret None
      | S fuel =>
          let response := doSearchRequest (mkSearchBody query (Some (mkEsAggs fields (Some k)))) indexes in
          r ← parseSearchResponse (response_of response);
          match r with
          | None => Ret (Some (acc, error_of response))
          | Some r =>
              search_pages fuel query fields indexes absorb (absorb acc (se_Buckets r)) (error_of response) (getAfterKey r)
          end
      end
  end.

(** A search by pages: nil when the first answer has none. *)
Definition search_all {A} (fuel : nat) (query : option EsQuery) (aggs : EsAggs) (indexes : list string)
    (absorb : A → list EsAggregationBucket → A) (start nothing : A) : outcome (option (A * option error)) :=
  match doSearchRequest (mkSearchBody query (Some aggs)) indexes with
  | Fail e => Ret (Some (nothing, Some e))
  | Val response =>
      r ← parseSearchResponse (Some response);
      match r with
      | None => Ret (Some (nothing, None))
      | Some r =>
          search_pages fuel query (ag_Fields aggs) indexes absorb (absorb start (se_Buckets r)) None (getAfterKey r)
      end
  end.

(** [GetHosts], with the package's filter of the hosts. *)
Definition GetHosts (fuel : nat) (FilterHostsWithLucene hostField : string) (hostGroupField : option string)
  : outcome (option (list EsAggregationKey * option error)) :=
  let query := if decide (FilterHostsWithLucene = "") then None
               else Some (Some (mkEsQueryBool [MStr FilterHostsWithLucene true] [] [] [])) in
  search_all fuel query (BuildAggregationsByHostNameAndHostGroup hostField hostGroupField) []
    (λ keys buckets, keys ++ (bu_Key <$> buckets))%list [] [].

Definition count_buckets (result : gmap string Z) (buckets : list EsAggregationBucket) : gmap string Z :=
  foldl (λ m b, <[ak_Host (bu_Key b) := bu_DocsCount b]> m) result buckets.

Definition CountHits (fuel : nat) (hostField : string) (indexes : list string) (query : EsQuery)
  : outcome (option (gmap string Z * option error)) :=
  search_all fuel (Some query) (BuildAggregationsByHostNameAndHostGroup hostField None) indexes count_buckets ∅ ∅.

(** [CountHitsForHost] appends to the filter of the copy. *)
Definition CountHitsForHost (hostName hostNameField : string) (indexes : list string) (query : EsQuery)
  : outcome (result error Z) :=
  queryCopy ← copyQuery (Some query);
  q ← deref queryCopy;
  b ← deref q;
  let b := mkEsQueryBool (eb_Must b)
             (eb_Filter b ++ [MAny (buildMatchPhraseFilter hostNameField (JString hostName))])%list
             (eb_Should b) (eb_MustNot b) in
  match doSearchRequest (mkSearchBody (Some (Some b)) None) indexes with
  | Fail e => Ret (Fail e)
  | Val response =>
      r ← parseSearchResponse (Some response);
      Ret (Val (match r with Some r => se_Total r | None => 0%Z end))
  end.
End es_client.

(** [IsAggregatable]: a field of which some capability is aggregatable; [init] is the
    error of the client, [caps] the fields of the answer, if there is a good one. *)
Definition field_aggregatable (field : json) : bool :=
  match field with
  | JObject caps =>
      existsb (λ kv, match kv.2 with
                     | JObject cap => match cap !! "aggregatable" with Some (JBool b) => b | _ => false end
                     | _ => false
                     end) (map_to_list caps)
  | _ => false
  end.

Definition IsAggregatable (init : option error) (caps : list string → outcome (option (gmap string json)))
    (fieldNames : list string) : outcome (gmap string bool * option error) :=
  let result : gmap string bool := foldl (λ m f, <[f := false]> m) ∅ fieldNames in
  match init with
  | Some e => Ret (result, Some e)
  | None =>
      c ← caps fieldNames;
      Ret (match c with
           | None => (result, None)
           | Some fields =>
               (foldl (λ m f, match fields !! f with
                              | Some field => if field_aggregatable field then <[f := true]> m else m
                              | None => m
                              end) result fieldNames, None)
           end)
  end.

(** ** Lemmas and properties: relative times *)

Lemma lower_not_upper c : lower_byte c ≠ "M"%char.
Proof. destruct c as [[] [] [] [] [] [] [] []]; done. Qed.

(** The period is in small letters: months are never met. *)
Theorem period_not_months e s : parse_shift e = Ret s → sh_period s ≠ "M".
Proof.
  intros (op & _ & H)%bind_Ret_inv. apply bind_Ret_inv in H as (rel & _ & H).
  apply bind_Ret_inv in H as (rel' & _ & H). apply bind_Ret_inv in H as (iv & _ & H).
  apply bind_Ret_inv in H as (p & _ & [= <-]). cbn [sh_period]. destruct p as [|c [|d p]]; [done| |done].
  cbn [ToLower]. intros [= Hc]. by apply lower_not_upper in Hc.
Qed.

Section time_properties.
Context `{Calendar T}.

Lemma str_slice_mid a b c i j : i = slen a → j = (slen a + slen b)%Z → str_slice (a +:+ (b +:+ c)) i j = Ret b.
Proof using Type.
  intros -> ->. unfold str_slice, slen. rewrite !length_str_app.
  rewrite decide_True by lia. rewrite Nat2Z.id, str_drop_app.
  replace (Z.to_nat (Z.of_nat (String.length a) + Z.of_nat (String.length b) - Z.of_nat (String.length a)))
    with (String.length b) by lia. by rewrite str_take_app.
Qed.

Lemma str_slice_tail a b i j : i = slen a → j = (slen a + slen b)%Z → str_slice (a +:+ b) i j = Ret b.
Proof using Type. intros Hi Hj. rewrite <-(str_app_nil_r b) at 1. by apply str_slice_mid. Qed.

Lemma str_slice_front a b j : j = slen a → str_slice (a +:+ b) 0 j = Ret a.
Proof using Type. intros Hj. exact (str_slice_mid "" a b 0 j eq_refl Hj). Qed.

(** The text of a relative time: an operator, a number and a period. *)
Lemma parse_shift_plain op n p :
  no_byte "/" n = true → no_byte "/" (String p "") = true →
  parse_shift ("now" +:+ (String op "" +:+ (n +:+ String p ""))) =
  Ret (mkShift (bool_decide (String op "" = "-")) (ParseInt n) (ToLower (String p "")) false).
Proof using Type.
  intros Hn Hp. unfold parse_shift. rewrite (str_slice_mid "now" (String op "") _ 3 4) by done. cbn [mbind outcome_bind].
  rewrite (str_slice_tail ("now" +:+ String op "") (n +:+ String p "")); [|done|rewrite !slen_app; lia].
  cbn [mbind outcome_bind].
  assert (Contains (n +:+ String p "") "/" = false) as ->.
  { apply Contains_false. intros l r He.
    assert (no_byte "/" (n +:+ String p "") = true) as Hno by (by rewrite no_byte_app, Hn, Hp).
    rewrite He, !no_byte_app in Hno. cbn in Hno. by rewrite andb_false_r in Hno. }
  cbn [mbind outcome_bind]. rewrite slen_app. change (slen (String p "")) with 1%Z.
  rewrite (str_slice_front n) by lia. cbn [mbind outcome_bind].
  rewrite (str_slice_tail n (String p "")) by (done || change (slen (String p "")) with 1%Z; lia). done.
Qed.

Lemma parse_shift_rounded op n p u :
  no_byte "/" n = true → no_byte "/" (String p "") = true →
  parse_shift ("now" +:+ (String op "" +:+ ((n +:+ String p "") +:+ String "/" (String u "")))) =
  Ret (mkShift (bool_decide (String op "" = "-")) (ParseInt n) (ToLower (String p "")) true).
Proof using Type.
  intros Hn Hp. unfold parse_shift. rewrite (str_slice_mid "now" (String op "") _ 3 4) by done. cbn [mbind outcome_bind].
  rewrite (str_slice_tail ("now" +:+ String op "") ((n +:+ String p "") +:+ String "/" (String u "")));
    [|done|rewrite !slen_app; lia].
  cbn [mbind outcome_bind].
  assert (Contains ((n +:+ String p "") +:+ String "/" (String u "")) "/" = true) as ->.
  { apply Contains_spec. exists (n +:+ String p ""), (String u ""). done. }
  rewrite !slen_app. change (slen (String p "")) with 1%Z. change (slen (String "/" (String u ""))) with 2%Z.
  rewrite (str_slice_front (n +:+ String p "")) by (rewrite slen_app; change (slen (String p "")) with 1%Z; lia).
  cbn [mbind outcome_bind]. rewrite slen_app. change (slen (String p "")) with 1%Z.
  rewrite (str_slice_front n) by lia. cbn [mbind outcome_bind].
  rewrite (str_slice_tail n (String p "")) by (change (slen (String p "")) with 1%Z; lia). done.
Qed.

(** A relative time is read as it is written: its number of its periods before or
    after now, rounded by the period of the number and not by the one after the
    slash.  The number of months is read as one of minutes. *)
Theorem relative_time (n : Z) (op p : ascii) (isStartTime : bool) :
  (0 ≤ n < 2 ^ 63)%Z → no_byte "/" (String p "") = true →
  let i := if decide (op = "-"%char) then int64 (- n) else n in
  toAbsoluteTime ("now" +:+ (String op "" +:+ (FormatInt n +:+ String p ""))) isStartTime =
    Ret (Val (apply_shift (ToLower (String p "")) i false isStartTime)) ∧
  ∀ u, toAbsoluteTime ("now" +:+ (String op "" +:+ ((FormatInt n +:+ String p "") +:+ String "/" (String u "")))) isStartTime =
    Ret (Val (apply_shift (ToLower (String p "")) i true isStartTime)).
Proof using Type.
  intros Hn Hp i.
  assert (no_byte "/" (FormatInt n) = true) as Hs.
  { eapply str_forallb_impl, FormatInt_chars. intros c Hc. apply negb_true_iff, bool_decide_false. by intros <-. }
  assert (ParseInt (FormatInt n) = Val n) as Hpi by (apply ParseInt_FormatInt; unfold in_int64; lia).
  assert (∀ t, Contains ("now" +:+ t) now_word = true) as Hc.
  { intros t. apply Contains_spec. by exists "", t. }
  assert (∀ b, shift_number (mkShift (bool_decide (String op "" = "-")) (Val n) (ToLower (String p "")) b) = λ _, i) as Hi.
  { intros b. unfold shift_number, i. cbn [sh_number sh_minus].
    destruct (decide (op = "-"%char)) as [->|Hne]; [done|]. rewrite bool_decide_false; [done|congruence]. }
  unfold toAbsoluteTime. split; [|intros u]; rewrite Hc, decide_False by done.
  - rewrite parse_shift_plain by done. cbn [mbind outcome_bind sh_period sh_rounded]. by rewrite Hpi, Hi.
  - rewrite parse_shift_rounded by done. cbn [mbind outcome_bind sh_period sh_rounded]. by rewrite Hpi, Hi.
Qed.

Corollary months_are_minutes (n : Z) (op : ascii) (isStartTime : bool) :
  (0 ≤ n < 2 ^ 63)%Z →
  toAbsoluteTime ("now" +:+ (String op "" +:+ (FormatInt n +:+ "M"))) isStartTime =
  toAbsoluteTime ("now" +:+ (String op "" +:+ (FormatInt n +:+ "m"))) isStartTime.
Proof using Type.
  intros Hn. destruct (relative_time n op "M" isStartTime Hn) as [H1 _]; [done|].
  destruct (relative_time n op "m" isStartTime Hn) as [H2 _]; [done|]. by rewrite H1, H2.
Qed.
End time_properties.

(** ** Lemmas and properties: queries *)

(** What becomes of a filter. *)
Definition translated `{MapOrder} (f : KFilter) : es_any :=
  cleanFilter (translateToQuery (migrateDeprecatedPhraseFilter f)).

Lemma filtersToESQueries_translated `{MapOrder} filters negate :
  filtersToESQueries filters negate = translated <$> List.filter (λ f, filterNegate f negate) filters.
Proof. unfold filtersToESQueries. rewrite <-!list_fmap_compose. done. Qed.

Lemma filterNegate_negb f : filterNegate f true = negb (filterNegate f false).
Proof.
  unfold filterNegate. destruct (kf_Meta f) as [m|]; [|done]. by destruct (km_Negate m) as [[]|].
Qed.

(** Every filter of a stored query is translated into exactly one of the lists: into
    the ones that must not match when it is negated, else into those that filter,
    between the query in the language of Kibana and the range of times; also when the
    filter is disabled. *)
Theorem BuildEsQuery_filters `{MapOrder} {T} `{Calendar T} (ParseKueryString : string → result error json)
    (lucene : string) (q : KSavedObject) (a : KAttributes) (b : EsQueryBool) :
  ks_Attributes q = Some a → BuildEsQuery ParseKueryString lucene q = Ret (Some b) →
  ∃ range,
    eb_Filter b = ((query_members ParseKueryString (ka_Query a)).2 ++
                   (translated <$> List.filter (λ f, filterNegate f false) (ka_Filters a)) ++ range)%list ∧
    eb_MustNot b = translated <$> List.filter (λ f, filterNegate f true) (ka_Filters a) ∧
    length range = length (option_list (ka_TimeFilter a)) ∧
    (translated <$> ka_Filters a) ≡ₚ
      ((translated <$> List.filter (λ f, filterNegate f false) (ka_Filters a)) ++ eb_MustNot b)%list ∧
    eb_Should b = [].
Proof.
  intros Ha Hb. unfold BuildEsQuery in Hb. rewrite Ha in Hb. destruct (query_members _ _) as [must filter] eqn:Hq.
  apply bind_Ret_inv in Hb as (range & Hr & [= <-]). exists range. cbn [eb_Filter eb_MustNot eb_Should snd].
  unfold buildQueryFromFilters. cbn [eb_Filter eb_MustNot eb_Should].
  rewrite !filtersToESQueries_translated. split_and!; [done|done| | |done].
  - destruct (ka_TimeFilter a); [|by injection Hr as <-].
    by apply bind_Ret_inv in Hr as (f & _ & [= <-]).
  - rewrite <-fmap_app. apply fmap_Permutation. induction (ka_Filters a) as [|f l IH]; [done|].
    cbn [List.filter]. rewrite filterNegate_negb. destruct (filterNegate f false); cbn [negb app].
    + by constructor.
    + rewrite <-Permutation_middle. by constructor.
Qed.

(** Counting the hits of a host panics, whatever the query: the copy has no members to
    assign. *)
Theorem count_for_host_panics search hostName hostNameField indexes b :
  is_panic (CountHitsForHost search hostName hostNameField indexes (Some b)) = true.
Proof. unfold CountHitsForHost, copyQuery. cbn. by repeat case_match. Qed.

(** ** Properties: pages *)

Section pages.
Context (request : string → string → option string → Z * string * option error).
Context (decode_found : string → result error KSavedObjectsResponse).
Context (url : Z → string) (total : Z) (page_objects : Z → list KSavedObject).

(** The server answers every page, and tells the same total. *)
Context (answers : ∀ page, ∃ response, answer (request "GET" (url page) None) = Some response ∧
  decode_found response = Val (mkKSavedObjectsResponse total (page_objects page))).

(** The objects of [n] pages from a page on. *)
Fixpoint pages_from (n : nat) (page : Z) : list KSavedObject :=
  match n with O => [] | S n => (page_objects page ++ pages_from n (page + 1))%list end.

Lemma find_pages_from n fuel page acc :
  (0 ≤ total)%Z → (1 ≤ page)%Z → n = Z.to_nat (total / 1000 - page + 1) → n ≤ fuel →
  find_pages request decode_found fuel url 1000 page total acc = Some (acc ++ pages_from n page)%list.
Proof using answers.
  intros Ht. revert fuel page acc. induction n as [|n IH]; intros fuel page acc Hpage Hn Hfuel.
  - assert (find_pages request decode_found fuel url 1000 page total acc = Some acc) as ->.
    { assert (total / 1000 < page)%Z by lia.
      destruct fuel; cbn [find_pages]; rewrite decide_False; try done; intros [?|?]; try lia;
        assert (page ≤ total / 1000)%Z by (apply Z.div_le_lower_bound; lia); lia. }
    cbn [pages_from]. by rewrite app_nil_r.
  - destruct fuel as [|fuel]; [lia|]. cbn [find_pages].
    assert (page ≤ total / 1000)%Z as Hle by lia.
    assert (page * 1000 ≤ total)%Z by (pose proof (Z.mul_div_le total 1000); lia).
    rewrite decide_True by (by right). destruct (answers page) as (response & -> & ->).
    cbn [kr_Total kr_SavedObjects]. rewrite (decide_False (P := total = (-1)%Z)) by lia.
    rewrite IH by lia. cbn [pages_from]. by rewrite app_assoc.
Qed.

(** The search of saved objects ends, with the objects of the first page and of the
    other pages that are full: the objects of a last page that is not full, when it
    is not the first, are missing. *)
Theorem FindSO_pages (fuel : nat) :
  (0 ≤ total)%Z → Z.to_nat (Z.max 1 (total / 1000)) ≤ fuel →
  find_pages request decode_found fuel url 1000 1 (-1) [] =
    Some (pages_from (Z.to_nat (Z.max 1 (total / 1000))) 1).
Proof using answers.
  intros Ht Hfuel. destruct fuel as [|fuel]; [lia|]. cbn [find_pages].
  rewrite decide_True by (by left). destruct (answers 1) as (response & -> & ->).
  cbn [kr_Total kr_SavedObjects app]. rewrite decide_True by done.
  rewrite (find_pages_from (Z.to_nat (total / 1000 - 2 + 1))) by lia.
  assert (0 ≤ total / 1000)%Z by (apply Z.div_pos; lia).
  replace (Z.to_nat (Z.max 1 (total / 1000))) with (S (Z.to_nat (total / 1000 - 2 + 1))) by lia. done.
Qed.
End pages.

Section searches.
Context (doSearchRequest : EsSearchBody → list string → result error es_response).
Context (query : option EsQuery) (fields indexes : list string).

(** The answer to a key, [None] for the first search. *)
Definition answer_to (after : option EsAggregationKey) : result error es_response :=
  doSearchRequest (mkSearchBody query (Some (mkEsAggs fields after))) indexes.

(** The server hands out pages: each tells a key to go on after, until an empty one
    without a key. *)
Inductive serves : option EsAggregationKey → list (list EsAggregationBucket) → Prop :=
| serves_last after total :
    answer_to after = Val (OkResponse (Val (mkSearchResponse total None []))) → serves after []
| serves_page after total ak buckets k pages :
    answer_to after = Val (OkResponse (Val (mkSearchResponse total ak buckets))) →
    getAfterKey (mkSearchResponse total ak buckets) = Some k →
    serves (Some k) pages → serves after (buckets :: pages).

Lemma search_pages_serves {A} (absorb : A → list EsAggregationBucket → A) fuel acc k pages :
  (∀ a, absorb a [] = a) → serves (Some k) pages → length pages < fuel →
  search_pages doSearchRequest fuel query fields indexes absorb acc None (Some k) =
    Ret (Some (foldl absorb acc pages, None)).
Proof using Type.
  intros Hnil Hs. remember (Some k) as after eqn:Hk. revert fuel acc k Hk.
  induction Hs as [after total Ha|after total ak buckets k' pages Ha Hak _ IH]; intros fuel acc k -> Hfuel;
    (destruct fuel as [|fuel]; [lia|]); cbn [search_pages]; unfold answer_to in Ha; rewrite Ha;
    cbn [response_of parseSearchResponse mbind outcome_bind error_of].
  - destruct fuel; cbn [search_pages getAfterKey se_AfterKey se_Buckets last fmap option_fmap option_map foldl];
      by rewrite Hnil.
  - rewrite Hak. cbn [se_Buckets foldl]. apply (IH fuel _ k'); [done|]. cbn in Hfuel. lia.
Qed.

(** A search by pages takes in every page the server has, and ends. *)
Theorem search_all_pages {A} (absorb : A → list EsAggregationBucket → A) (start nothing : A) fuel pages :
  (∀ a, absorb a [] = a) → serves None pages → length pages < fuel →
  search_all doSearchRequest fuel query (mkEsAggs fields None) indexes absorb start nothing =
    Ret (Some (foldl absorb start pages, None)).
Proof using Type.
  intros Hnil Hs Hfuel. unfold search_all. cbn [ag_Fields].
  inversion Hs as [after total Ha|after total ak buckets k pages' Ha Hak Hs']; subst; unfold answer_to in Ha; rewrite Ha;
    cbn [parseSearchResponse mbind outcome_bind].
  - destruct fuel; cbn [search_pages getAfterKey se_AfterKey se_Buckets last fmap option_fmap option_map foldl];
      by rewrite Hnil.
  - rewrite Hak. cbn [se_Buckets foldl]. apply search_pages_serves; [done|done|]. cbn in Hfuel. lia.
Qed.
End searches.

(** The hits of a host are those of the last bucket with its name. *)
Lemma count_buckets_pages pages (result : gmap string Z) host :
  foldl count_buckets result pages !! host =
  match List.find (λ b, bool_decide (ak_Host (bu_Key b) = host)) (rev (concat pages)) with
  | Some b => Some (bu_DocsCount b)
  | None => result !! host
  end.
Proof.
  assert (∀ bs (result : gmap string Z), foldl (λ m b, <[ak_Host (bu_Key b) := bu_DocsCount b]> m) result bs !! host =
    match List.find (λ b, bool_decide (ak_Host (bu_Key b) = host)) (rev bs) with
    | Some b => Some (bu_DocsCount b)
    | None => result !! host
    end) as H.
  { clear. intros bs result. induction bs as [|b bs IH] using rev_ind; [done|].
    rewrite foldl_app, rev_app_distr. cbn [foldl rev app List.find]. case_bool_decide as Hh.
    - subst host. by rewrite lookup_insert_eq.
    - by rewrite lookup_insert_ne. }
  assert (∀ pages (result : gmap string Z), foldl count_buckets result pages =
    foldl (λ m b, <[ak_Host (bu_Key b) := bu_DocsCount b]> m) result (concat pages)) as Hc.
  { clear. induction pages as [|p pages IH]; intros result; [done|]. cbn [foldl concat]. by rewrite foldl_app, IH. }
  by rewrite Hc, H.
Qed.

(** *** Concrete pages *)

Definition sample_key (host : string) : EsAggregationKey := mkKey host None.

(** A server with two hosts on pages of one. *)
Definition sample_search (body : EsSearchBody) (indexes : list string) : result error es_response :=
  match sb_Aggs body with
  | Some (mkEsAggs _ None) => Val (OkResponse (Val (mkSearchResponse 9 (Some (sample_key "a")) [mkBucket (sample_key "a") 4])))
  | Some (mkEsAggs _ (Some (mkKey h None))) =>
      if decide (h = "a")
      then Val (OkResponse (Val (mkSearchResponse 9 None [mkBucket (sample_key "b") 5])))
      else Val (OkResponse (Val (mkSearchResponse 9 None [])))
  | _ => Fail (Opaque "unexpected")
  end.

Lemma search_all_pages_witness :
  CountHits sample_search 3 "host" ["logs"] (Some (mkEsQueryBool [] [] [] [])) =
  Ret (Some (<["b" := 5%Z]> {["a" := 4%Z]}, None)).
Proof.
  transitivity (Ret (Some (foldl count_buckets ∅ [[mkBucket (sample_key "a") 4]; [mkBucket (sample_key "b") 5]], None : option error))).
  - apply (search_all_pages sample_search (Some (Some (mkEsQueryBool [] [] [] []))) ["host"] ["logs"] count_buckets ∅ ∅ 3
      [[mkBucket (sample_key "a") 4]; [mkBucket (sample_key "b") 5]]).
    + reflexivity.
    + eapply serves_page; [reflexivity|reflexivity|]. eapply serves_page; [reflexivity|reflexivity|].
      eapply serves_last. reflexivity.
    + cbn. lia.
  - vm_compute. reflexivity.
Defined.
