(* ===== verification/Elastic.v ===== *)
(** connectors/elastic: the state of the monitoring (model.go) and the connector
    (elastic.go and cmd.go).

    The calls of the clients are arguments, with the types of [ElasticClients]; so are
    the answers of the Groundwork servers. *)

From S2P Require Import Prelude.
From stdpp Require Import pretty.
From S2P Require Import GoString.
From S2P Require Import GoFloat.
From S2P Require Import FloatText.
From S2P Require Import Errors.
From S2P Require Import Timestamp.
From S2P Require Import TypedValue.
From S2P Require Import Transit.
From S2P Require Import Status.
From S2P Require Import Codec.
From S2P Require Import Batcher.
From S2P Require Import Http.
From S2P Require Import Nats.
From S2P Require Import Clients.
From S2P Require Import Tracer.
From S2P Require Import TransitService.
From S2P Require Import Expr.
From S2P Require Import StatusText.
From S2P Require Import Connectors.
From S2P Require Import Json.
From S2P Require Import ElasticClients.

Local Open Scope string_scope.

(** ** The configuration *)

Definition StoredQueries : string := "storedQueries".
Definition defaultProtocol : string := "http".
Definition defaultElasticServer : string := "http://localhost:9200".
Definition defaultKibanaServerName : string := "http://localhost:5601/".
Definition defaultHostNameLabel : string := "container.name.keyword".
Definition defaultHostGroupLabel : string := "container.labels.com_docker_compose_project.keyword".
Definition defaultHostGroupName : string := "Elastic Search".
Definition intervalTemplate : string := "$interval".
Definition templateMetricName : string := "$view_Template#".

Record Kibana := mkKibana { ki_ServerName : string; ki_Username : string; ki_Password : string }.

Abbreviation views := (gmap string (gmap string MetricDefinition)).

Record ExtConfig := mkExtConfig {
  ec_Kibana : Kibana;
  ec_Servers : list string;
  ec_CustomTimeFilter : KTimeFilter;
  ec_OverrideTimeFilter : bool;
  ec_FilterHostsWithLucene : string;
  ec_HostNameField : string;
  ec_HostGroupField : string;
  ec_GroupNameByUser : bool;
  ec_CheckInterval : Z;
  ec_AppName : string;
  ec_AppType : string;
  ec_AgentID : string;
  ec_GWConnections : list GWConnection;
  ec_Ownership : HostOwnershipType;
  ec_Views : views;
}.

Definition with_time_filter (c : ExtConfig) (f : KTimeFilter) (override : bool) (interval : Z) : ExtConfig :=
  mkExtConfig (ec_Kibana c) (ec_Servers c) f override (ec_FilterHostsWithLucene c) (ec_HostNameField c)
    (ec_HostGroupField c) (ec_GroupNameByUser c) interval (ec_AppName c) (ec_AppType c) (ec_AgentID c)
    (ec_GWConnections c) (ec_Ownership c) (ec_Views c).

Definition with_fields (c : ExtConfig) (hostName hostGroup : string) : ExtConfig :=
  mkExtConfig (ec_Kibana c) (ec_Servers c) (ec_CustomTimeFilter c) (ec_OverrideTimeFilter c)
    (ec_FilterHostsWithLucene c) hostName hostGroup (ec_GroupNameByUser c) (ec_CheckInterval c) (ec_AppName c)
    (ec_AppType c) (ec_AgentID c) (ec_GWConnections c) (ec_Ownership c) (ec_Views c).

(** [UnmarshalJSON] over the plain decoding: minutes, and the override of the filter. *)
Definition ExtConfig_UnmarshalJSON (cfg : ExtConfig) (decoded : result error ExtConfig) : result error ExtConfig :=
  c ← decoded;
  let interval := if decide (ec_CheckInterval c ≠ ec_CheckInterval cfg)
                  then int64 (ec_CheckInterval c * Minute) else ec_CheckInterval c in
  let f := ec_CustomTimeFilter c in
  Val (match kt_Override f with
       | Some o => with_time_filter c (mkKTimeFilter (kt_From f) (kt_To f) None) o interval
       | None => with_time_filter c f (ec_OverrideTimeFilter c) interval
       end).

(** [int64(interval.Seconds())]: the seconds as a float, cut. *)
Definition interval_seconds (interval : Z) : Z := default 0%Z (f_trunc (Seconds interval)).

Definition replaceIntervalTemplate (templateString : string) (intervalValue : Z) : string :=
  let interval := FormatInt (interval_seconds intervalValue) +:+ "s" in
  if Contains templateString intervalTemplate then ReplaceAll templateString intervalTemplate interval
  else templateString.

Definition replaceIntervalTemplates (c : ExtConfig) : ExtConfig :=
  let f := ec_CustomTimeFilter c in
  with_time_filter c
    (mkKTimeFilter (replaceIntervalTemplate (kt_From f) (ec_CheckInterval c))
       (replaceIntervalTemplate (kt_To f) (ec_CheckInterval c)) (kt_Override f))
    (ec_OverrideTimeFilter c) (ec_CheckInterval c).

(** ** The state *)

Record monitoringService := mkService {
  sv_name : string;
  sv_hits : Z;
  sv_timeInterval : option TimeInterval;
}.

Record monitoringHost := mkHost {
  ho_name : string;
  ho_services : gmap string monitoringService;
  ho_hostGroups : list string;
}.

Abbreviation groups := (gmap string (gmap string unit)).

Record MonitoringState := mkState {
  st_Metrics : gmap string MetricDefinition;
  st_Hosts : gmap string monitoringHost;
  st_HostGroups : groups;
}.

Definition empty_state : MonitoringState := mkState ∅ ∅ ∅.

Definition fresh_host (name : string) (hostGroups : list string) : monitoringHost := mkHost name ∅ hostGroups.

Section groundwork_hosts.
(** The host names of the services of the agent on a server, and the host groups of
    those hosts with their hosts. *)
Context (gw_services : GWConnection → result error (list string)).
Context (gw_groups : GWConnection → list string → result error (list (string * list string))).

(** The hosts that are not known yet, and their names in order. *)
Fixpoint add_gw_hosts (hosts : gmap string monitoringHost) (names hostNames : list string)
  : gmap string monitoringHost * list string :=
  match names with
  | [] => (hosts, hostNames)
  | n :: names =>
      match hosts !! n with
      | Some _ => add_gw_hosts hosts names hostNames
      | None => add_gw_hosts (<[n := fresh_host n []]> hosts) names (hostNames ++ [n])%list
      end
  end.

Definition add_gw_group (hosts : gmap string monitoringHost) (g : string * list string) : gmap string monitoringHost :=
  foldl (λ hosts n, match hosts !! n with
                    | Some h => <[n := mkHost (ho_name h) (ho_services h) (ho_hostGroups h ++ [g.1])%list]> hosts
                    | None => hosts
                    end) hosts g.2.

(** The body of the loop of [initGwHosts]: an error leaves out the rest of the server. *)
Definition gw_connection_hosts (hosts : gmap string monitoringHost) (c : GWConnection) : gmap string monitoringHost :=
  match gw_services c with
  | Fail _ => hosts
  | Val names =>
      let '(hosts, hostNames) := add_gw_hosts hosts names [] in
      match hostNames with
      | [] => hosts
      | _ =>
          match gw_groups c hostNames with
          | Fail _ => hosts
          | Val gs => foldl add_gw_group hosts gs
          end
      end
  end.

Definition initGwHosts (conns : list GWConnection) : gmap string monitoringHost :=
  foldl gw_connection_hosts ∅ conns.
End groundwork_hosts.

Section es_hosts.
(** [IsAggregatable] of the client, and the keys of [GetHosts]. *)
Context (is_aggregatable : list string → outcome (gmap string bool * option error)).
Context (get_hosts : string → option string → outcome (list EsAggregationKey)).

Definition keyword_suffix : string := ".keyword".
Definition with_keyword (field : string) : string := field +:+ keyword_suffix.
Definition aggregatable_in (m : gmap string bool) (field : string) : bool := default false (m !! field).

(** The field, or the field with the suffix, when it has to be changed. *)
Definition field_to_use (m : gmap string bool) (field : string) : string * bool :=
  if negb (aggregatable_in m field) && negb (HasSuffix field keyword_suffix)
  then (with_keyword field, true) else (field, false).

(** A key makes a host, or adds a group to it. *)
Definition add_es_key (groupNameByUser : bool) (hostGroupField : string) (hosts : gmap string monitoringHost)
    (key : EsAggregationKey) : gmap string monitoringHost :=
  match hosts !! ak_Host key with
  | Some h =>
      if groupNameByUser then hosts
      else match ak_HostGroup key with
           | Some g => <[ak_Host key := mkHost (ho_name h) (ho_services h) (ho_hostGroups h ++ [g])%list]> hosts
           | None => hosts
           end
  | None =>
      <[ak_Host key := fresh_host (ak_Host key)
          (if groupNameByUser then [hostGroupField] else option_list (ak_HostGroup key))]> hosts
  end.

(** [initEsHosts]: the configuration keeps the fields that were found. *)
Definition initEsHosts (cfg : ExtConfig) : outcome (ExtConfig * gmap string monitoringHost) :=
  let hostGroupField := if ec_GroupNameByUser cfg then None else Some (ec_HostGroupField cfg) in
  '(isAgg, err) ← is_aggregatable (ec_HostNameField cfg :: option_list hostGroupField);
  match err with
  | Some _ => Ret (cfg, ∅)
  | None =>
      let '(hostName, c1) := field_to_use isAgg (ec_HostNameField cfg) in
      let '(groupField, c2) := match hostGroupField with
        | Some f => let '(f, c) := field_to_use isAgg f in (Some f, c)
        | None => (None, false)
        end in
      ok ← (if c1 || c2 then
              '(isAgg, _) ← is_aggregatable (hostName :: option_list groupField);
              Ret (aggregatable_in isAgg hostName &&
                   match groupField with Some f => aggregatable_in isAgg f | None => true end)
            else Ret true);
      if ok : bool then
        let cfg := with_fields cfg hostName (default (ec_HostGroupField cfg) groupField) in
        keys ← get_hosts (ec_HostNameField cfg) groupField;
        Ret (cfg, foldl (add_es_key (ec_GroupNameByUser cfg) (ec_HostGroupField cfg)) ∅ keys)
      else Ret (cfg, ∅)
  end.
End es_hosts.

Section monitoring.
Context `{MapOrder} (CheckInterval : Z).

(** The monitored metrics of the views. *)
Definition view_metrics (vs : views) : gmap string MetricDefinition :=
  foldl (λ m view, foldl (λ m kv, if mdef_Monitored kv.2 then <[kv.1 := kv.2]> m else m) m (map_order view.2))
    ∅ (map_order vs).

(** Hosts replace those of their names. *)
Definition put_hosts (hosts : gmap string monitoringHost) (more : gmap string monitoringHost) : gmap string monitoringHost :=
  foldl (λ hosts kv, <[ho_name kv.2 := kv.2]> hosts) hosts (map_order more).

(** A host with a service without hits for every metric. *)
Definition nullified (metrics : gmap string MetricDefinition) (h : monitoringHost) : monitoringHost :=
  mkHost (ho_name h)
    (foldl (λ m kv, <[kv.1 := mkService kv.1 0 None]> m) ∅ (map_order metrics)) (ho_hostGroups h).

(** [initMonitoringState]: [gw_hosts] are the hosts of the Groundwork servers the first
    time, [es] what [initEsHosts] gives. *)
Definition initMonitoringState (cfg : ExtConfig) (previous : MonitoringState)
    (gw_hosts : option (gmap string monitoringHost)) (es : gmap string monitoringHost) : MonitoringState :=
  let metrics := view_metrics (ec_Views cfg) in
  let hosts := default ∅ gw_hosts in
  let hosts := put_hosts hosts (st_Hosts previous) in
  let hosts := put_hosts hosts es in
  mkState metrics
    (foldl (λ hosts kv, <[ho_name kv.2 := nullified metrics kv.2]> hosts) hosts (map_order hosts)) ∅.

(** [updateHosts] *)
Definition update_host (serviceName : string) (timeInterval : option TimeInterval)
    (hosts : gmap string monitoringHost) (kv : string * Z) : gmap string monitoringHost :=
  match hosts !! kv.1 with
  | None => hosts
  | Some h =>
      match ho_services h !! serviceName with
      | None => hosts
      | Some s =>
          let s := mkService (sv_name s) kv.2
                     (match sv_timeInterval s with None => timeInterval | t => t end) in
          <[kv.1 := mkHost (ho_name h) (<[serviceName := s]> (ho_services h)) (ho_hostGroups h)]> hosts
      end
  end.

Definition updateHosts (st : MonitoringState) (values : gmap string Z) (serviceName : string)
    (timeInterval : option TimeInterval) : MonitoringState :=
  mkState (st_Metrics st) (foldl (update_host serviceName timeInterval) (st_Hosts st) (map_order values))
    (st_HostGroups st).

(** *** Resources *)

Definition matched : string := "Query matched {value} messages in the last {interval}.".

Definition initStatusMessages : gmap MonitorStatus string := list_to_map [
  (ServiceOk, matched); (ServiceWarning, matched); (ServiceUnscheduledCritical, matched);
  (ServiceScheduledCritical, matched); (ServicePending, "Service Pending."); (ServiceUnknown, "Service Unknown.")].

(** The text of the interval of a service; the ends are dereferenced. *)
Definition interval_text (i : option TimeInterval) : outcome string :=
  match i with
  | None => Ret ""
  | Some i =>
      e ← deref (ti_EndTime i);
      s ← deref (ti_StartTime i);
      Ret (FormatTimeForStatusMessage (int64 (UnixNano e - UnixNano s)) Minute)
  end.

Definition status_message (intervalReplacement statusMessage : string) : string :=
  if Contains statusMessage "{interval}" && negb (bool_decide (intervalReplacement = ""))
  then ReplaceAll statusMessage "{interval}" intervalReplacement else statusMessage.

Definition hits_builder (serviceName : string) (d : MetricDefinition) (s : monitoringService) : MetricBuilder :=
  mkMetricBuilder serviceName (mdef_CustomName d) (mdef_ComputeType d) (mdef_Expression d) (AInt KInt (sv_hits s))
    (Some (ArgUnit UnitCounter)) (AInt KInt (mdef_WarningThreshold d)) (AInt KInt (mdef_CriticalThreshold d))
    (i ← sv_timeInterval s; ti_StartTime i) (i ← sv_timeInterval s; ti_EndTime i) (mdef_Graphed d) ∅.

(** The body of the loop over the services of a host. *)
Definition service_resources (now : Timestamp) (defs : gmap string MetricDefinition) (host : string)
    (acc : list MonitoredService * list InventoryService) (kv : string * monitoringService)
  : outcome (list MonitoredService * list InventoryService) :=
  let '(ms, invs) := acc in
  let '(serviceName, service) := kv in
  match defs !! serviceName with
  | None => Ret acc
  | Some d =>
      let invs := (invs ++ [CreateInventoryService (Name serviceName (mdef_CustomName d)) host])%list in
      text ← interval_text (sv_timeInterval service);
      r ← BuildServiceForMetricWithStatusText CheckInterval now host (hits_builder serviceName d service)
            (status_message text <$> initStatusMessages);
      Ret (match r with Val m => ms ++ [m] | Fail _ => ms end, invs)%list
  end.

Definition host_resources (now : Timestamp) (defs : gmap string MetricDefinition) (host : monitoringHost)
  : outcome (list MonitoredService * list InventoryService) :=
  foldM (service_resources now defs (ho_name host)) ([], []) (map_order (ho_services host)).

Definition toTransitResources (now : Timestamp) (st : MonitoringState)
  : outcome (list MonitoredResource * list InventoryResource) :=
  foldM (λ '(mrs, irs) host,
    '(ms, invs) ← host_resources now (st_Metrics st) host;
    Ret (match CreateResource CheckInterval now (ho_name host) [ResServices ms] with
         | Val r => mrs ++ [r] | Fail _ => mrs end,
         irs ++ [CreateInventoryResource (ho_name host) invs])%list)
    ([], []) (map_order (st_Hosts st)).*2.

(** [buildGroups]: the hosts of every group that has a name. *)
Definition add_group (hostName : string) (gs : groups) (groupName : string) : groups :=
  if decide (groupName = "") then gs
  else <[groupName := <[hostName := tt]> (default ∅ (gs !! groupName))]> gs.

Definition buildGroups (st : MonitoringState) : groups :=
  foldl (λ gs kv, foldl (add_group kv.1) gs (ho_hostGroups kv.2)) ∅ (map_order (st_Hosts st)).

Definition toResourceGroups (st : MonitoringState) : MonitoringState * list ResourceGroup :=
  let gs := buildGroups st in
  (mkState (st_Metrics st) (st_Hosts st) gs,
   (λ kv, CreateResourceGroup kv.1 kv.1 HostGroup
            ((λ h, CreateResourceRef h.1 "" ResourceTypeHost) <$> map_order kv.2)) <$> map_order gs).
End monitoring.

(** ** The connector *)

(** The connector and the packages' variables: the filter of the hosts, whether the
    Groundwork hosts were read, and the checksum of the inventory. *)
Record ElasticConnector := mkConnector {
  el_config : ExtConfig;
  el_kibana : KibanaClient;
  el_state : MonitoringState;
  el_FilterHostsWithLucene : string;
  el_once : bool;
  el_invChksum : string;
}.

Definition with_state (c : ElasticConnector) (cfg : ExtConfig) (st : MonitoringState) : ElasticConnector :=
  mkConnector cfg (el_kibana c) st (el_FilterHostsWithLucene c) true (el_invChksum c).

Section connector.
Context `{MapOrder} (CheckInterval : Z) {T : Type} `{Calendar T}.
Context (to_timestamp : T → Timestamp) (ParseKueryString : string → result error json).
(** The Groundwork servers, and the clients of Kibana and Elasticsearch. *)
Context (gw_hosts : ExtConfig → gmap string monitoringHost).
Context (base64 : string → string) (es_init : ExtConfig → option error).
Context (retrieve_queries : KibanaClient → option (list string) → list KSavedObject).
Context (index_titles_of : KibanaClient → KSavedObject → outcome (list string)).
Context (is_aggregatable : list string → outcome (gmap string bool * option error)).
Context (get_hosts : string → string → option string → outcome (list EsAggregationKey)).
Context (count_hits : string → list string → EsQuery → outcome (gmap string Z * option error)).
Context (count_hits_for_host : string → string → list string → EsQuery → outcome (result error Z)).

(** [initMonitoringState] with its calls: the configuration and the state afterwards. *)
Definition init_state (cfg : ExtConfig) (lucene : string) (once : bool) (previous : MonitoringState)
  : outcome (ExtConfig * MonitoringState) :=
  '(cfg', es) ← initEsHosts is_aggregatable (get_hosts lucene) cfg;
  let gw := if once then None
            else match ec_GWConnections cfg with [] => None | _ => Some (gw_hosts cfg) end in
  Ret (cfg', initMonitoringState cfg' previous gw es).

(** [LoadConfig]: only the filter changes when a client fails. *)
Definition LoadConfig (c : ElasticConnector) (config : ExtConfig) : outcome (ElasticConnector * option error) :=
  let lucene := ec_FilterHostsWithLucene config in
  let kibana := Kibana_InitClient base64
    (mkKibanaClient (ki_ServerName (ec_Kibana config)) (ki_Username (ec_Kibana config))
       (ki_Password (ec_Kibana config)) ∅) in
  match es_init config with
  | Some e => Ret (mkConnector (el_config c) (el_kibana c) (el_state c) lucene (el_once c) (el_invChksum c),
                   Some (Wrap ("could not initialize ES client: " +:+ Error e) e))
  | None =>
      '(config, st) ← init_state config lucene (el_once c) empty_state;
      Ret (mkConnector config kibana st lucene true (el_invChksum c), None)
  end.

(** The time filter of a query: its own, or the one of the configuration. *)
Definition query_filter (cfg : ExtConfig) (a : KAttributes) : KTimeFilter :=
  match ka_TimeFilter a with
  | Some f => if ec_OverrideTimeFilter cfg then ec_CustomTimeFilter cfg else f
  | None => ec_CustomTimeFilter cfg
  end.

Definition with_filter (q : KSavedObject) (a : KAttributes) (f : KTimeFilter) : KSavedObject :=
  mkKSavedObject (ks_Type q) (ks_ID q)
    (Some (mkKAttributes (ka_Title a) (ka_Description a) (ka_Filters a) (Some f) (ka_Query a))).

(** The counts per host, made one by one; the map they are put into shadows the one
    that is used afterwards. *)
Fixpoint count_each (field : string) (indexes : list string) (query : EsQuery) (hosts : list string)
  : outcome (option error) :=
  match hosts with
  | [] => Ret None
  | h :: hosts =>
      r ← count_hits_for_host h field indexes query;
      match r with
      | Fail e => Ret (Some e)
      | Val _ => count_each field indexes query hosts
      end
  end.

(** The body of the loop over the stored queries. *)
Definition collect_query (c : ElasticConnector) (st : MonitoringState) (q : KSavedObject)
  : outcome (MonitoringState * option error) :=
  let cfg := el_config c in
  a ← deref (ks_Attributes q);
  let f := query_filter cfg a in
  let q := with_filter q a f in
  indexes ← index_titles_of (el_kibana c) q;
  query ← BuildEsQuery ParseKueryString (el_FilterHostsWithLucene c) q;
  '(endTime, startTime) ← ToTimeInterval f;
  '(isAgg, err) ← is_aggregatable [ec_HostNameField cfg];
  match err with
  | Some e => Ret (st, Some e)
  | None =>
      '(values, err) ←
        (if aggregatable_in isAgg (ec_HostNameField cfg) then count_hits (ec_HostNameField cfg) indexes query
         else e ← count_each (ec_HostNameField cfg) indexes query (map_order (st_Hosts st)).*1; Ret (∅, e));
      match err with
      | Some e => Ret (st, Some e)
      | None =>
          Ret (updateHosts st values (ka_Title a)
                 (Some (mkTimeInterval (Some (to_timestamp endTime)) (Some (to_timestamp startTime)))), None)
      end
  end.

Fixpoint collect_queries (c : ElasticConnector) (st : MonitoringState) (qs : list KSavedObject)
  : outcome (MonitoringState * option error) :=
  match qs with
  | [] => Ret (st, None)
  | q :: qs =>
      '(st, err) ← collect_query c st q;
      match err with Some e => Ret (st, Some e) | None => collect_queries c st qs end
  end.

Definition collectStoredQueriesMetrics (c : ElasticConnector) (st : MonitoringState) (titles : option (list string))
  : outcome (MonitoringState * option error) :=
  collect_queries c st (retrieve_queries (el_kibana c) titles).

(** [retrieveMonitoredServiceNames]: nil when there are none. *)
Definition retrieveMonitoredServiceNames (view : string) (metrics : gmap string MetricDefinition)
  : option (list string) :=
  match (λ kv, mdef_Name kv.2) <$>
          List.filter (λ kv, bool_decide (mdef_ServiceType kv.2 = view) && mdef_Monitored kv.2) (map_order metrics) with
  | [] => None
  | l => Some l
  end.

(** The loop over the views, ended by an error. *)
Fixpoint collect_views (c : ElasticConnector) (st : MonitoringState) (vs : list (string * gmap string MetricDefinition))
  : outcome MonitoringState :=
  match vs with
  | [] => Ret st
  | (view, metrics) :: vs =>
      let st := mkState (maps_Copy (st_Metrics st) metrics) (st_Hosts st) (st_HostGroups st) in
      '(st, err) ← (if decide (view = StoredQueries)
                    then collectStoredQueriesMetrics c st (retrieveMonitoredServiceNames view metrics)
                    else Ret (st, None));
      match err with Some _ => Ret st | None => collect_views c st vs end
  end.

(** [CollectMetrics]: the connector's state shares its maps of metrics and hosts with the
    local one, and not the groups, which only the local one gets. *)
Definition CollectMetrics (now : Timestamp) (c : ElasticConnector)
  : outcome (ElasticConnector * (list MonitoredResource * list InventoryResource * list ResourceGroup)) :=
  '(cfg, st) ← init_state (el_config c) (el_FilterHostsWithLucene c) (el_once c) (el_state c);
  let c := with_state c cfg st in
  st ← collect_views c st (map_order (ec_Views cfg));
  '(mrs, irs) ← toTransitResources CheckInterval now st;
  let '(_, rgs) := toResourceGroups st in
  Ret (with_state c cfg st, (mrs, irs, rgs)).

(** [ListSuggestions]: nothing before the client has a server. *)
Definition ListSuggestions (c : ElasticConnector) (view name : string) : outcome (list string) :=
  if decide (kc_APIRoot (el_kibana c) = "") then Ret []
  else if decide (view = StoredQueries) then
    foldM (λ l q, a ← deref (ks_Attributes q);
                  Ret (if decide (name = "" ∨ Contains (ka_Title a) name = true) then l ++ [ka_Title a] else l)%list)
      [] (retrieve_queries (el_kibana c) None)
  else Ret [].

(** What [getInventoryHashSum] is the sum of. *)
Definition str_le (a b : string) : Prop := String.leb a b = true.

#[local] Instance str_le_dec : RelDecision str_le.
Proof. intros a b. unfold str_le. apply _. Defined.

Definition inventory (st : MonitoringState) : list string * list string * list (string * list string) :=
  (merge_sort str_le (map_order (st_Hosts st)).*1,
   merge_sort str_le ((λ kv, Name kv.1 (mdef_CustomName kv.2)) <$> map_order (st_Metrics st)),
   (λ g, (g, merge_sort str_le (map_order (default ∅ (st_HostGroups st !! g))).*1)) <$>
     merge_sort str_le (map_order (st_HostGroups st)).*1).
End connector.

(** *** The handlers *)

Definition with_protocol (server : string) : string :=
  if HasPrefix server defaultProtocol then server else defaultProtocol +:+ ":" +:+ "//" +:+ server.

Definition with_slash (server : string) : string := if HasSuffix server "/" then server else server +:+ "/".

Fixpoint deferred_ownership (first : HostOwnershipType) (conns : list GWConnection) (own : HostOwnershipType)
  : HostOwnershipType :=
  match conns with
  | [] => own
  | conn :: conns =>
      if decide (DeferOwnership conn ≠ "") then
        if decide (first ≠ "") then first else deferred_ownership first conns own
      else deferred_ownership first conns own
  end.

Definition add_metric (vs : views) (m : MetricDefinition) : views :=
  if decide (templateMetricName = mdef_Name m) then vs
  else if mdef_Monitored m then
    <[mdef_ServiceType m := <[mdef_Name m := m]> (default ∅ (vs !! mdef_ServiceType m))]> vs
  else vs.

(** The parsed configuration: the server of the connection, the extensions, and the
    metrics of the profile. *)
Record elastic_dto := mkElasticDto { ed_Server : string; ed_Ext : ExtConfig; ed_Metrics : list MetricDefinition }.

(** The configuration made of a parsed one. *)
Definition elastic_config (d : elastic_dto) : ExtConfig :=
  let e := ed_Ext d in
  let conns := ec_GWConnections e in
  let k := ec_Kibana e in
  replaceIntervalTemplates
    (mkExtConfig (mkKibana (with_slash (with_protocol (ki_ServerName k))) (ki_Username k) (ki_Password k))
       (if decide (ed_Server d ≠ "") then with_protocol <$> Split (ed_Server d) "," else ec_Servers e)
       (ec_CustomTimeFilter e) (ec_OverrideTimeFilter e) (ec_FilterHostsWithLucene e) (ec_HostNameField e)
       (if ec_GroupNameByUser e && bool_decide (ec_HostGroupField e = defaultHostGroupLabel)
        then defaultHostGroupName else ec_HostGroupField e)
       (ec_GroupNameByUser e) (ec_CheckInterval e) (ec_AppName e) (ec_AppType e) (ec_AgentID e) conns
       (match conns with
        | [] => ec_Ownership e
        | c :: _ => deferred_ownership (DeferOwnership c) conns (ec_Ownership e)
        end)
       (foldl add_metric (ec_Views e) (ed_Metrics d))).

Section handlers.
Context (LoadConfig : ElasticConnector → ExtConfig → outcome (ElasticConnector * option error)).

(** [configHandler] *)
Definition configHandler (c : ElasticConnector) (parsed : result error elastic_dto) : outcome ElasticConnector :=
  match parsed with
  | Fail _ => Ret c
  | Val d => '(c, _) ← LoadConfig c (elastic_config d); Ret c
  end.

(** The collection at the time of the run, the sum of the inventory, and the calls of
    the transit service. *)
Context (CollectMetrics : ElasticConnector →
  outcome (ElasticConnector * (list MonitoredResource * list InventoryResource * list ResourceGroup))).
Context (inventory_sum : MonitoringState → result error string).
Context {S : Type} (SendInventory : S → list InventoryResource → list ResourceGroup → HostOwnershipType → outcome S).
Context (SendMetrics : S → list MonitoredResource → run S).

(** [periodicHandler] *)
Definition periodicHandler (c : ElasticConnector) (s : S) : run (ElasticConnector * S) :=
  if decide (size (st_Metrics (el_state c)) = 0%nat) then RRet (c, s)
  else
    '(c, (metrics, inv, groups)) ← lift_o (CollectMetrics c);
    let chk := inventory_sum (el_state c) in
    let changed := match chk with Fail _ => true | Val b => bool_decide (b ≠ el_invChksum c) end in
    s ← (if changed then lift_o (SendInventory s inv groups (ec_Ownership (el_config c))) else RRet s);
    s ← SendMetrics s metrics;
    RRet (mkConnector (el_config c) (el_kibana c) (el_state c) (el_FilterHostsWithLucene c) (el_once c)
            (match chk with Fail _ => el_invChksum c | Val b => b end), s).
End handlers.

(** ** Lemmas: hosts and hits *)

(** A loop over a map that inserts under its keys, in any order. *)
Lemma foldl_insert_order `{MapOrder} {A B} (key : string * A → string) (g : string * A → B) (m : gmap string A)
    (m0 : gmap string B) k :
  (∀ k x, m !! k = Some x → key (k, x) = k) →
  foldl (λ acc kv, <[key kv := g kv]> acc) m0 (map_order m) !! k =
  match m !! k with Some x => Some (g (k, x)) | None => m0 !! k end.
Proof.
  intros Hkey. pose proof (NoDup_map_order m) as Hnd.
  assert (Forall (λ kv, m !! kv.1 = Some kv.2) (map_order m)) as Hin.
  { apply Forall_forall. intros [k' x]. by rewrite elem_of_map_order. }
  assert (∀ l (m0 : gmap string B), NoDup l.*1 → Forall (λ kv : string * A, m !! kv.1 = Some kv.2) l →
    foldl (λ acc kv, <[key kv := g kv]> acc) m0 l !! k =
    match (list_to_map l : gmap string A) !! k with Some x => Some (g (k, x)) | None => m0 !! k end) as Hl.
  { clear Hnd Hin. induction l as [|[k' x] l IH]; intros m1 Hnd Hall; [done|].
    inversion Hnd as [|? ? Hnin Hnd']; inversion Hall as [|? ? Hx Hall']; subst. cbn [foldl list_to_map foldr uncurry fst snd] in *.
    rewrite IH by done. rewrite (Hkey _ _ Hx). destruct (decide (k' = k)) as [->|Hne].
    - rewrite lookup_insert_eq. rewrite (not_elem_of_list_to_map_1 (M := gmap string) l k Hnin). by rewrite lookup_insert_eq.
    - rewrite !lookup_insert_ne by done. done. }
  rewrite Hl by done.
  assert ((list_to_map (map_order m) : gmap string A) = m) as ->; [|done].
  rewrite <-(list_to_map_to_list m) at 2. apply list_to_map_proper; [done|apply map_order_perm].
Qed.

(** The hosts of a state are under their names. *)
Definition keyed_hosts (hosts : gmap string monitoringHost) : Prop := map_Forall (λ n h, ho_name h = n) hosts.

Definition hits_in (hosts : gmap string monitoringHost) (host service : string) : option Z :=
  h ← hosts !! host; s ← ho_services h !! service; Some (sv_hits s).

Section hosts.
Context `{MapOrder}.

Lemma put_hosts_lookup hosts more k :
  keyed_hosts more → put_hosts hosts more !! k = match more !! k with Some h => Some h | None => hosts !! k end.
Proof using Type.
  intros Hk. unfold put_hosts. rewrite (foldl_insert_order (λ kv, ho_name kv.2) (λ kv, kv.2)); [done|].
  intros n h Hn. by apply (map_Forall_lookup_1 _ _ _ _ Hk Hn).
Qed.

Lemma put_hosts_keyed hosts more : keyed_hosts hosts → keyed_hosts more → keyed_hosts (put_hosts hosts more).
Proof using Type.
  intros H1 H2 k h. rewrite put_hosts_lookup by done. destruct (more !! k) as [h'|] eqn:Hm.
  - intros [= <-]. by apply (map_Forall_lookup_1 _ _ _ _ H2 Hm).
  - apply H1.
Qed.

Lemma nullified_services metrics h s :
  ho_services (nullified metrics h) !! s = match metrics !! s with Some _ => Some (mkService s 0 None) | None => None end.
Proof using Type.
  unfold nullified. cbn [ho_services]. rewrite (foldl_insert_order (λ kv, kv.1) (λ kv, mkService kv.1 0 None)) by done.
  by destruct (metrics !! s).
Qed.

(** The state of a new collection: the hosts of Groundwork, of the last collection and
    of Elasticsearch, each with a service for every monitored metric and no hits. *)
Lemma initMonitoringState_hosts cfg previous gw es :
  keyed_hosts (default ∅ gw) → keyed_hosts (st_Hosts previous) → keyed_hosts es →
  keyed_hosts (st_Hosts (initMonitoringState cfg previous gw es)) ∧
  dom (st_Hosts (initMonitoringState cfg previous gw es)) =
    dom (default ∅ gw) ∪ dom (st_Hosts previous) ∪ dom es ∧
  ∀ h s, hits_in (st_Hosts (initMonitoringState cfg previous gw es)) h s =
    match st_Hosts (initMonitoringState cfg previous gw es) !! h, view_metrics (ec_Views cfg) !! s with
    | Some _, Some _ => Some 0%Z
    | _, _ => None
    end.
Proof using Type.
  intros Hg Hp He. unfold initMonitoringState. cbn [st_Hosts].
  set (hosts := put_hosts (put_hosts (default ∅ gw) (st_Hosts previous)) es).
  assert (keyed_hosts hosts) as Hk by (by repeat apply put_hosts_keyed).
  set (null := foldl _ hosts (map_order hosts)).
  assert (∀ k, null !! k = nullified (view_metrics (ec_Views cfg)) <$> hosts !! k) as Hnull.
  { intros k. subst null. rewrite (foldl_insert_order (λ kv, ho_name kv.2) (λ kv, nullified _ kv.2));
      [|intros n h Hn; by apply (map_Forall_lookup_1 _ _ _ _ Hk Hn)].
    by destruct (hosts !! k). }
  split_and!.
  - intros k h. rewrite Hnull. intros (h0 & Hh & ->)%fmap_Some. by apply (map_Forall_lookup_1 _ _ _ _ Hk Hh).
  - apply set_eq. intros k. rewrite elem_of_dom, Hnull, fmap_is_Some. subst hosts.
    rewrite !put_hosts_lookup by done. rewrite !elem_of_union, !elem_of_dom.
    destruct (es !! k), (st_Hosts previous !! k); rewrite ?is_Some_alt; cbn; tauto.
  - intros h s. unfold hits_in. rewrite Hnull. destruct (hosts !! h) as [x|]; [|done].
    cbn [fmap option_fmap option_map mbind option_bind]. rewrite nullified_services.
    by destruct (view_metrics _ !! s).
Qed.

Lemma update_host_hits name ti hosts k v h s :
  hits_in (update_host name ti hosts (k, v)) h s =
  old ← hits_in hosts h s; Some (if decide (h = k ∧ s = name) then v else old).
Proof using Type.
  unfold update_host, hits_in. cbn [fst snd]. destruct (hosts !! k) as [hk|] eqn:Hk.
  - destruct (ho_services hk !! name) as [sv|] eqn:Hs.
    + destruct (decide (h = k)) as [->|Hne].
      * rewrite lookup_insert_eq, Hk. cbn [mbind option_bind ho_services]. destruct (decide (s = name)) as [->|Hns].
        { rewrite lookup_insert_eq, Hs. cbn. by rewrite decide_True. }
        rewrite lookup_insert_ne by done. destruct (ho_services hk !! s); cbn; [|done]. by rewrite decide_False by (by intros []).
      * rewrite lookup_insert_ne by done. destruct (hosts !! h) as [x|]; cbn; [|done].
        destruct (ho_services x !! s); cbn; [|done]. by rewrite decide_False by (by intros []).
    + destruct (hosts !! h) as [x|] eqn:Hh; cbn; [|done]. destruct (ho_services x !! s) eqn:Hx; cbn; [|done].
      rewrite decide_False; [done|]. intros [-> ->]. rewrite Hk in Hh. by simplify_eq.
  - destruct (hosts !! h) as [x|] eqn:Hh; cbn; [|done]. destruct (ho_services x !! s); cbn; [|done].
    rewrite decide_False; [done|]. intros [-> _]. congruence.
Qed.

(** [updateHosts]: the hits of the service, for the hosts that have it. *)
Lemma updateHosts_hits st values name ti h s :
  hits_in (st_Hosts (updateHosts st values name ti)) h s =
  old ← hits_in (st_Hosts st) h s; Some (if decide (s = name) then default old (values !! h) else old).
Proof using Type.
  unfold updateHosts. cbn [st_Hosts].
  assert (∀ l hosts, NoDup l.*1 →
    hits_in (foldl (update_host name ti) hosts l) h s =
    old ← hits_in hosts h s;
    Some (if decide (s = name) then default old ((list_to_map l : gmap string Z) !! h) else old)) as Hl.
  { induction l as [|[k v] l IH]; intros hosts Hnd.
    { cbn. destruct (hits_in hosts h s); cbn; [|done]. by destruct (decide _). }
    inversion Hnd as [|? ? Hnin Hnd']; subst. cbn [foldl]. rewrite IH by done. rewrite update_host_hits.
    destruct (hits_in hosts h s) as [old|]; [|done]. cbn [mbind option_bind list_to_map foldr uncurry fst snd]. f_equal.
    destruct (decide (s = name)) as [->|]; [|by rewrite (decide_False (P := h = k ∧ s = name)) by (by intros [])].
    destruct (decide (h = k)) as [->|Hne].
    - rewrite decide_True by done. fold (list_to_map (M := gmap string Z) l).
      rewrite (not_elem_of_list_to_map_1 l k Hnin), lookup_insert_eq. done.
    - rewrite (decide_False (P := h = k ∧ name = name)) by (by intros []). by rewrite lookup_insert_ne. }
  rewrite Hl by apply NoDup_map_order.
  assert ((list_to_map (map_order values) : gmap string Z) = values) as ->; [|done].
  rewrite <-(list_to_map_to_list values) at 2. apply list_to_map_proper; [apply NoDup_map_order|apply map_order_perm].
Qed.
End hosts.

Section connector_properties.
Context `{MapOrder} (CheckInterval : Z) {T : Type} `{Calendar T}.
Context (to_timestamp : T → Timestamp) (ParseKueryString : string → result error json).
Context (gw_hosts : ExtConfig → gmap string monitoringHost).
Context (retrieve_queries : KibanaClient → option (list string) → list KSavedObject).
Context (index_titles_of : KibanaClient → KSavedObject → outcome (list string)).
Context (is_aggregatable : list string → outcome (gmap string bool * option error)).
Context (get_hosts : string → string → option string → outcome (list EsAggregationKey)).
Context (count_hits : string → list string → EsQuery → outcome (gmap string Z * option error)).
Context (count_hits_for_host : string → string → list string → EsQuery → outcome (result error Z)).

#[local] Abbreviation collect_query := (collect_query to_timestamp ParseKueryString index_titles_of is_aggregatable
  count_hits count_hits_for_host).
#[local] Abbreviation collect_queries := (collect_queries to_timestamp ParseKueryString index_titles_of is_aggregatable
  count_hits count_hits_for_host).
#[local] Abbreviation collect_views := (collect_views to_timestamp ParseKueryString retrieve_queries index_titles_of
  is_aggregatable count_hits count_hits_for_host).
#[local] Abbreviation CollectMetrics := (CollectMetrics CheckInterval to_timestamp ParseKueryString gw_hosts retrieve_queries
  index_titles_of is_aggregatable get_hosts count_hits count_hits_for_host).

(** The counts of a stored query per host, as the clients give them. *)
Definition counted (c : ElasticConnector) (q : KSavedObject) (title : string) (counts : gmap string Z) : Prop :=
  ∃ a indexes query, ks_Attributes q = Some a ∧ title = ka_Title a ∧
    let q' := with_filter q a (query_filter (el_config c) a) in
    index_titles_of (el_kibana c) q' = Ret indexes ∧
    BuildEsQuery ParseKueryString (el_FilterHostsWithLucene c) q' = Ret query ∧
    count_hits (ec_HostNameField (el_config c)) indexes query = Ret (counts, None).

(** What a host and a service have after queries with these titles and counts. *)
Definition hits_after (host service : string) (old : Z) (queries : list (string * gmap string Z)) : Z :=
  foldl (λ old q, if decide (service = q.1) then default old (q.2 !! host) else old) old queries.

(** When the field of the hosts can be aggregated, the hits of a service of a host are
    those of the last stored query of its name that counted the host; the others are
    as before. *)
Theorem collected_hits c st st' qs queries agg h s :
  is_aggregatable [ec_HostNameField (el_config c)] = Ret (agg, None) →
  aggregatable_in agg (ec_HostNameField (el_config c)) = true →
  Forall2 (λ q t, counted c q t.1 t.2) qs queries →
  collect_queries c st qs = Ret (st', None) →
  hits_in (st_Hosts st') h s = old ← hits_in (st_Hosts st) h s; Some (hits_after h s old queries).
Proof using Type.
  intros Hagg Hfield Hq. revert st. induction Hq as [|q [title counts] qs queries Hc _ IH]; intros st; cbn [Elastic.collect_queries].
  - intros [= <-]. by destruct (hits_in _ h s).
  - cbn [fst snd] in Hc. destruct Hc as (a & indexes & query & Ha & -> & Hi & Hquery & Hcount).
    intros ([st1 err] & H1 & H2)%bind_Ret_inv. unfold Elastic.collect_query in H1. rewrite Ha in H1.
    cbn [deref mbind outcome_bind] in H1. rewrite Hi in H1. cbn [mbind outcome_bind] in H1. rewrite Hquery in H1.
    cbn [mbind outcome_bind] in H1. apply bind_Ret_inv in H1 as ([e b] & _ & H1).
    rewrite Hagg in H1. cbn [mbind outcome_bind] in H1. rewrite Hfield, Hcount in H1. cbn [mbind outcome_bind] in H1.
    injection H1 as <- <-. rewrite (IH _ H2), updateHosts_hits.
    destruct (hits_in (st_Hosts st) h s) as [old|]; [|done]. done.
Qed.

(** When the field cannot be aggregated, a query changes no hits: it ends with the state
    it had, or with an error, or panics. *)
Theorem not_aggregatable_no_hits c st st' q agg err :
  is_aggregatable [ec_HostNameField (el_config c)] = Ret (agg, None) →
  aggregatable_in agg (ec_HostNameField (el_config c)) = false →
  collect_query c st q = Ret (st', err) → ∀ h s, hits_in (st_Hosts st') h s = hits_in (st_Hosts st) h s.
Proof using Type.
  intros Hagg Hfield Hc h s. unfold Elastic.collect_query in Hc.
  apply bind_Ret_inv in Hc as (a & _ & Hc). apply bind_Ret_inv in Hc as (i & _ & Hc).
  apply bind_Ret_inv in Hc as (query & _ & Hc). apply bind_Ret_inv in Hc as ([e b] & _ & Hc).
  rewrite Hagg in Hc. cbn [mbind outcome_bind] in Hc. rewrite Hfield in Hc.
  apply bind_Ret_inv in Hc as ([values err'] & Hv & Hc).
  apply bind_Ret_inv in Hv as (e' & _ & Hv). injection Hv as <- <-.
  destruct e' as [e'|]; injection Hc as <- _; [done|]. rewrite updateHosts_hits.
  destruct (hits_in (st_Hosts st) h s); [|done]. cbn. by destruct (decide _).
Qed.

Lemma collect_query_state c st q st' err :
  collect_query c st q = Ret (st', err) → st_HostGroups st' = st_HostGroups st ∧ dom (st_Hosts st') = dom (st_Hosts st).
Proof using Type.
  intros Hc. unfold Elastic.collect_query in Hc.
  apply bind_Ret_inv in Hc as (a & _ & Hc). apply bind_Ret_inv in Hc as (i & _ & Hc).
  apply bind_Ret_inv in Hc as (query & _ & Hc). apply bind_Ret_inv in Hc as ([e b] & _ & Hc).
  apply bind_Ret_inv in Hc as ([agg [e1|]] & _ & Hc); [by injection Hc as <- _|].
  apply bind_Ret_inv in Hc as ([values [e2|]] & _ & Hc); [by injection Hc as <- _|].
  injection Hc as <- _. split; [done|]. unfold updateHosts. cbn [st_Hosts].
  assert (∀ l hosts, dom (foldl (update_host (ka_Title a)
    (Some (mkTimeInterval (Some (to_timestamp e)) (Some (to_timestamp b))))) hosts l) = dom hosts) as Hl; [|apply Hl].
  induction l as [|[k v] l IH]; intros hosts; [done|]. cbn [foldl]. rewrite IH. unfold update_host. cbn [fst snd].
  destruct (hosts !! k) as [hk|] eqn:Hk; [|done]. destruct (ho_services hk !! ka_Title a); [|done].
  rewrite dom_insert_L. apply subseteq_union_1_L, singleton_subseteq_l. by apply elem_of_dom_2 in Hk.
Qed.

Lemma collect_queries_state c st qs st' err :
  collect_queries c st qs = Ret (st', err) → st_HostGroups st' = st_HostGroups st ∧ dom (st_Hosts st') = dom (st_Hosts st).
Proof using Type.
  revert st. induction qs as [|q qs IH]; intros st; cbn [Elastic.collect_queries]; [by intros [= <- <-]|].
  intros ([st1 e] & [H1 H2]%collect_query_state & Hr)%bind_Ret_inv. rewrite <-H1, <-H2.
  destruct e; [by injection Hr as <- _|]. by apply IH.
Qed.

Lemma collect_views_state c st vs st' :
  collect_views c st vs = Ret st' → st_HostGroups st' = st_HostGroups st ∧ dom (st_Hosts st') = dom (st_Hosts st).
Proof using Type.
  revert st. induction vs as [|[view metrics] vs IH]; intros st; cbn [Elastic.collect_views]; [by intros [= <-]|].
  intros ([st1 e] & H1 & Hr)%bind_Ret_inv.
  assert (st_HostGroups st1 = st_HostGroups st ∧ dom (st_Hosts st1) = dom (st_Hosts st)) as [<- <-].
  { destruct (decide _); [by apply collect_queries_state in H1|]. injection H1 as <- _. done. }
  destruct e; [by injection Hr as <-|]. by apply IH.
Qed.

Lemma initMonitoringState_groups cfg previous gw es : st_HostGroups (initMonitoringState cfg previous gw es) = ∅.
Proof using Type. done. Qed.

(** After a collection the connector knows no groups, although it has sent them: the
    sum of the inventory never depends on the groups. *)
Theorem groups_not_in_sum now c c' r :
  CollectMetrics now c = Ret (c', r) → (inventory (el_state c')).2 = [].
Proof using Type.
  unfold Elastic.CollectMetrics. intros ([cfg st] & H1 & H2)%bind_Ret_inv.
  apply bind_Ret_inv in H2 as (st1 & [Hg _]%collect_views_state & H2).
  apply bind_Ret_inv in H2 as ([mrs irs] & _ & H2). cbn [toResourceGroups] in H2. injection H2 as <- _.
  unfold inventory. cbn [el_state with_state snd].
  assert (st_HostGroups st1 = ∅) as ->.
  { rewrite Hg. apply bind_Ret_inv in H1 as ([cfg' es] & _ & [= _ <-]). apply initMonitoringState_groups. }
  assert (map_order (∅ : groups) = []) as ->; [|done].
  apply Permutation_nil_r. by rewrite map_order_perm, map_to_list_empty.
Qed.

Lemma initEsHosts_keyed hosts_of cfg cfg' es :
  initEsHosts is_aggregatable hosts_of cfg = Ret (cfg', es) → keyed_hosts es.
Proof using Type.
  assert (keyed_hosts ∅) as Hempty by apply map_Forall_empty.
  unfold initEsHosts. intros ([agg err] & _ & Hr)%bind_Ret_inv. destruct err; [by injection Hr as _ <-|].
  destruct (field_to_use agg _) as [hostName c1]. destruct (match _ with Some f => _ | None => _ end) as [groupField c2].
  apply bind_Ret_inv in Hr as (ok & _ & Hr). destruct ok; [|by injection Hr as _ <-].
  apply bind_Ret_inv in Hr as (keys & _ & Hr). injection Hr as _ <-.
  revert Hempty. generalize (∅ : gmap string monitoringHost) as hosts. induction keys as [|key keys IH]; intros hosts Hh; [done|].
  cbn [foldl]. apply IH. unfold add_es_key. destruct (hosts !! ak_Host key) as [h|] eqn:Hl.
  - pose proof (map_Forall_lookup_1 _ _ _ _ Hh Hl) as Hn. destruct (ec_GroupNameByUser cfg); [done|].
    destruct (ak_HostGroup key); [|done]. by apply map_Forall_insert_2.
  - by apply map_Forall_insert_2.
Qed.

(** A host stays until the next configuration, also when Elasticsearch no longer has
    it: it goes on being reported. *)
Theorem hosts_stay now c c' r :
  (∀ cfg, keyed_hosts (gw_hosts cfg)) → keyed_hosts (st_Hosts (el_state c)) →
  CollectMetrics now c = Ret (c', r) → dom (st_Hosts (el_state c)) ⊆ dom (st_Hosts (el_state c')).
Proof using Type.
  intros Hgw Hk. unfold Elastic.CollectMetrics. intros ([cfg st] & H1 & H2)%bind_Ret_inv.
  apply bind_Ret_inv in H2 as (st1 & [_ Hd]%collect_views_state & H2).
  apply bind_Ret_inv in H2 as ([mrs irs] & _ & H2). cbn [toResourceGroups] in H2. injection H2 as <- _.
  cbn [el_state with_state] in *. rewrite Hd. apply bind_Ret_inv in H1 as ([cfg' es] & He & Hr). injection Hr as _ <-.
  apply initEsHosts_keyed in He. set (gw := if el_once c then _ else _).
  assert (keyed_hosts (default ∅ gw)) as Hgk.
  { subst gw. destruct (el_once c); [apply map_Forall_empty|]. destruct (ec_GWConnections _); [apply map_Forall_empty|apply Hgw]. }
  destruct (initMonitoringState_hosts cfg' (el_state c) gw es Hgk Hk He) as (_ & -> & _).
  intros x Hx. by apply elem_of_union_l, elem_of_union_r.
Qed.
End connector_properties.

(** *** A concrete collection *)

(** A calendar of nanoseconds, whose days have a fixed length. *)
Definition sample_calendar : Calendar Z :=
  let same (t : Z) : Z := t in
  let later (t d : Z) : Z := (t + d)%Z in
  let add_date (t y m d : Z) : Z := (t + (365 * y + 30 * m + d) * 24 * FloatText.Hour)%Z in
  let never (s : string) : result error Z := Fail (Opaque "no time") in
  {| time_now := 0%Z; time_zero := 0%Z; AddDate := add_date; time_Add := later;
     Date_ := λ _ _ _ _ _ _, 0%Z; Year := same; Month := same; Day := same; ElasticClients.Hour := same;
     Minute_ := same; Second_ := same; Weekday := same; time_Parse := never; UTC_Format := FormatInt |}.

Definition sample_timestamp (t : Z) : Timestamp := mkTimestamp (t / 10 ^ 9)%Z 0%Z UTCLoc.

Definition sample_query (title : string) : KSavedObject :=
  mkKSavedObject "query" title (Some (mkKAttributes title "" [] None (Some (mkKQuery "lucene" "level:error")))).

Definition sample_config : ExtConfig :=
  mkExtConfig (mkKibana "" "" "") [] (mkKTimeFilter "now-300s" "now" None) false "" "host" "" true 0 "" "" "" [] "" ∅.

Definition sample_state : MonitoringState :=
  mkState ∅ {["web" := mkHost "web" (<["errors" := mkService "errors" 0 None]> {["slow" := mkService "slow" 0 None]}) []]} ∅.

Definition sample_connector : ElasticConnector :=
  mkConnector sample_config (mkKibanaClient "" "" "" ∅) sample_state "" true "".

Definition sample_counts (field : string) (indexes : list string) (q : EsQuery) : outcome (gmap string Z * option error) :=
  Ret ({["web" := 7%Z]}, None).

Definition sample_aggregatable (fields : list string) : outcome (gmap string bool * option error) :=
  Ret ({["host" := true]}, None).

Definition sample_collection : outcome (MonitoringState * option error) :=
  collect_queries (H := sorted_order) (H0 := sample_calendar) sample_timestamp
    (λ _, Fail (Opaque "")) (λ _ _, Ret ["logs"]) sample_aggregatable sample_counts (λ _ _ _ _, Ret (Val 0%Z))
    sample_connector sample_state [sample_query "errors"].

Lemma collected_hits_witness :
  ∃ st, sample_collection = Ret (st, None) ∧ hits_in (st_Hosts st) "web" "errors" = Some 7%Z ∧
    hits_in (st_Hosts st) "web" "slow" = Some 0%Z.
Proof.
  destruct sample_collection as [[st err]|] eqn:Hc; [|exfalso; vm_compute in Hc; discriminate].
  assert (err = None) as ->.
  { assert (match sample_collection with Ret (_, e) => e | Panic _ => None end = None) as He by (vm_compute; reflexivity).
    by rewrite Hc in He. }
  assert (∀ s, hits_in (st_Hosts st) "web" s =
    old ← hits_in (st_Hosts sample_state) "web" s; Some (hits_after "web" s old [("errors", {["web" := 7%Z]})])) as Hhits.
  { intros s. eapply (@collected_hits sorted_order Z sample_calendar sample_timestamp
      (λ _, Fail (Opaque "")) (λ _ _, Ret ["logs"]) sample_aggregatable sample_counts (λ _ _ _ _, Ret (Val 0%Z))
      sample_connector sample_state st [sample_query "errors"] [("errors", {["web" := 7%Z]})] {["host" := true]} "web" s).
    - reflexivity.
    - reflexivity.
    - constructor; [|constructor]. do 3 eexists. split; [reflexivity|]. split; [reflexivity|].
      split; [reflexivity|]. split; [vm_compute; reflexivity|reflexivity].
    - exact Hc. }
  exists st. split; [done|]. split.
  - rewrite (Hhits "errors"). vm_compute. reflexivity.
  - rewrite (Hhits "slow"). vm_compute. reflexivity.
Defined.
