(* ===== verification/K8s.v ===== *)
(** connectors/k8s: the connector of Kubernetes.

    The answers of the cluster are arguments, with the fields the connector reads; a
    quantity is a type of its own with the two roundings the API offers.  The library
    of clients, YAML, the clock and the compiler of patterns are arguments too. *)

From S2P Require Import Prelude.
From stdpp Require Import pretty.
From S2P Require Import GoString.
From S2P Require Import GoFloat.
From S2P Require Import FloatText.
From S2P Require Import Errors.
From S2P Require Import Timestamp.
From S2P Require Import TypedValue.
From S2P Require Import Transit.
From S2P Require Import Status.
From S2P Require Import Codec.
From S2P Require Import Batcher.
From S2P Require Import Http.
From S2P Require Import Nats.
From S2P Require Import Clients.
From S2P Require Import Tracer.
From S2P Require Import TransitService.
From S2P Require Import Expr.
From S2P Require Import StatusText.
From S2P Require Import Connectors.
From S2P Require Import Mapping.

Local Open Scope string_scope.

(** ** Objects of the API *)

(** [resource.Quantity]: its value rounded up to units and to thousandths, and the
    quantity of a resource that is not listed. *)
Class Quantities (Q : Type) := {
  q_zero : Q;
  q_Value : Q → Z;
  q_MilliValue : Q → Z;
}.

Section objects.
Context {Q : Type}.

Abbreviation ResourceList := (gmap string Q).

Record Condition := mkCondition { cd_Type : string; cd_Status : string; cd_Message : string }.

Record Node := mkNode {
  n_Name : string;
  n_Namespace : string;
  n_Labels : gmap string string;
  n_Capacity : ResourceList;
  n_Conditions : list Condition;
}.

Record Container := mkContainer { ct_Name : string; ct_Requests : ResourceList }.

Record Pod := mkPod {
  p_Name : string;
  p_Namespace : string;
  p_Labels : gmap string string;
  p_NodeName : string;
  p_Phase : string;
  p_Containers : list Container;
  p_Conditions : list Condition;
}.

Record NodeMetrics := mkNodeMetrics {
  nm_Name : string;
  nm_Namespace : string;
  nm_Labels : gmap string string;
  nm_Timestamp : Timestamp;
  nm_Usage : ResourceList;
}.

Record ContainerMetrics := mkContainerMetrics { cm_Name : string; cm_Usage : ResourceList }.

Record PodMetrics := mkPodMetrics {
  pm_Name : string;
  pm_Namespace : string;
  pm_Labels : gmap string string;
  pm_Timestamp : Timestamp;
  pm_Containers : list ContainerMetrics;
}.
End objects.
Arguments Node : clear implicits.
Arguments Container : clear implicits.
Arguments Pod : clear implicits.
Arguments NodeMetrics : clear implicits.
Arguments ContainerMetrics : clear implicits.
Arguments PodMetrics : clear implicits.

Definition PodSucceeded : string := "Succeeded".
Definition PodFailed : string := "Failed".
Definition NodeReady : string := "Ready".
Definition ConditionTrue : string := "True".

(** ** Configuration *)

Definition ViewNodes : string := "Nodes".
Definition ViewPods : string := "Pods".

Definition InCluster : string := "InCluster".
Definition Credentials : string := "UsernamePassword".
Definition BearerToken : string := "BearerToken".
Definition ConfigFile : string := "ConfigFile".

Definition ContainerPOD : string := "POD".
Definition ClusterNameLabel : string := "alpha.eksctl.io/cluster-name".

Definition cpu : string := "cpu".
Definition pods : string := "pods".
Definition memory : string := "memory".
Definition cpuTotal : string := "cpu.total".
Definition cpuReserved : string := "cpu.reserved".
Definition cpuUsed : string := "cpu.used".
Definition memoryTotal : string := "memory.total".
Definition memoryReserved : string := "memory.reserved".
Definition memoryUsed : string := "memory.used".

Abbreviation views := (gmap string (gmap string MetricDefinition)).

Record ExtConfig (R : Type) := mkExtConfig {
  ec_EndPoint : string;
  ec_Views : views;
  ec_Ownership : HostOwnershipType;
  ec_AuthType : string;
  ec_Insecure : bool;
  ec_UserName : string;
  ec_UserPassword : string;
  ec_BearerToken : string;
  ec_ConfigFile : string;
  (** The mappings of groups and of hosts. *)
  ec_HostGroup : list (@Mapping.Mapping R);
  ec_HostName : list (@Mapping.Mapping R);
}.
Arguments mkExtConfig {R}.
Arguments ec_EndPoint {R}. Arguments ec_Views {R}. Arguments ec_Ownership {R}. Arguments ec_AuthType {R}.
Arguments ec_Insecure {R}. Arguments ec_UserName {R}. Arguments ec_UserPassword {R}. Arguments ec_BearerToken {R}.
Arguments ec_ConfigFile {R}. Arguments ec_HostGroup {R}. Arguments ec_HostName {R}.

(** *** The client *)

Record Cluster := mkCluster { cl_Name : string; cl_CAData : string; cl_Server : string }.
Record User := mkUser { us_Name : string; us_CertData : string; us_KeyData : string; us_Token : string }.
Record KubernetesYaml := mkKubernetesYaml { ky_Kind : string; ky_Users : list User; ky_Clusters : list Cluster }.

(** The fields of [rest.Config] that are set. *)
Record RestConfig := mkRestConfig {
  rc_Host : string;
  rc_Username : string;
  rc_Password : string;
  rc_BearerToken : string;
  rc_KeyData : string;
  rc_CertData : string;
  rc_CAData : string;
  rc_Insecure : bool;
}.

(** The client's configuration; the flag of the HTTP client that all connections share
    is set before, and stays. *)
Definition rest_config {R} (yaml : string → result error KubernetesYaml) (cfg : ExtConfig R) (insecure : bool)
  : result error RestConfig :=
  let c := mkRestConfig (ec_EndPoint cfg) "" "" "" "" "" "" insecure in
  if decide (ec_AuthType cfg = Credentials) then
    Val (mkRestConfig (ec_EndPoint cfg) (ec_UserName cfg) (ec_UserPassword cfg) "" "" "" "" insecure)
  else if decide (ec_AuthType cfg = BearerToken) then
    Val (mkRestConfig (ec_EndPoint cfg) "" "" (ec_BearerToken cfg) "" "" "" insecure)
  else if decide (ec_AuthType cfg = ConfigFile) then
    match yaml (ec_ConfigFile cfg) with
    | Fail e => Fail e
    | Val f =>
        match ky_Clusters f, ky_Users f with
        | cl :: _, u :: _ =>
            if decide (ky_Kind f = "Config" ∧ cl_Server cl ≠ "") then
              Val (mkRestConfig (cl_Server cl) "" "" (us_Token u) (us_KeyData u) (us_CertData u) (cl_CAData cl) insecure)
            else Fail (Opaque "invalid configuration file")
        | _, _ => Fail (Opaque "invalid configuration file")
        end
    end
  else Val c.

(** ** The monitored state *)

Record KubernetesResource := mkResource {
  kr_Name : string;
  kr_Type : ResourceType;
  kr_Status : MonitorStatus;
  kr_Message : string;
  kr_Labels : gmap string string;
  kr_Services : gmap string MonitoredService;
}.

Record MonitoredState := mkState {
  st_State : gmap string KubernetesResource;
  st_Groups : gmap string ResourceGroup;
  st_Mismatched : gmap string bool;
}.

Definition empty_state : MonitoredState := mkState ∅ ∅ ∅.

Definition with_services (r : KubernetesResource) (services : gmap string MonitoredService) : KubernetesResource :=
  mkResource (kr_Name r) (kr_Type r) (kr_Status r) (kr_Message r) (kr_Labels r) services.

Definition put_resource (st : MonitoredState) (key : string) (r : KubernetesResource) : MonitoredState :=
  mkState (<[key := r]> (st_State st)) (st_Groups st) (st_Mismatched st).

Definition mismatch (st : MonitoredState) (key : string) : MonitoredState :=
  mkState (st_State st) (st_Groups st) (<[key := true]> (st_Mismatched st)).

(** The end of the group's list, or a group of its own. *)
Definition add_to_group (st : MonitoredState) (groupName resourceName : string) : MonitoredState :=
  let rf := mkResourceRef resourceName ResourceTypeHost groupName in
  let group := match st_Groups st !! groupName with
    | Some g => mkResourceGroup (rg_GroupName g) (rg_Type g) (rg_Description g) (rg_Resources g ++ [rf])%list
    | None => mkResourceGroup groupName HostGroup "" [rf]
    end in
  mkState (st_State st) (<[groupName := group]> (st_Groups st)) (st_Mismatched st).

(** *** Labels *)

Inductive labeled :=
| LContainer (name : string)
| LNode (name namespace : string) (labels : gmap string string)
| LPod (name namespace : string) (labels : gmap string string).

Definition own_labels (tag name namespace : string) (own labels : gmap string string) : gmap string string :=
  let labels := maps_Copy (<[tag := name]> labels) own in
  if decide (namespace ≠ "") then <["namespace" := namespace]> labels else labels.

Definition add_labels (labels : gmap string string) (v : labeled) : gmap string string :=
  let labels := match v with
    | LContainer name => <["container_name" := name]> labels
    | LNode name namespace own => own_labels "node_name" name namespace own labels
    | LPod name namespace own => own_labels "pod_name" name namespace own labels
    end in
  match labels !! ClusterNameLabel with
  | Some value => <["cluster" := value]> labels
  | None => labels
  end.

Definition GetLabels (a : list labeled) : gmap string string :=
  foldl add_labels (<["namespace" := "default"]> {["cluster" := "default"]}) a.

Definition namespace_of (labels : gmap string string) : string := default "" (labels !! "namespace").

(** *** Status *)

(** The message so far, and the message of the condition. *)
Definition add_message (message m : string) : string :=
  (if decide (slen message > 0)%Z then message +:+ ", " else message) +:+ m.

Definition node_condition (acc : string * string * MonitorStatus) (c : Condition) : string * string * MonitorStatus :=
  let '(message, upMessage, status) := acc in
  if decide (cd_Type c = NodeReady) then
    if decide (cd_Status c ≠ ConditionTrue) then (add_message message (cd_Message c), upMessage, HostUnscheduledDown)
    else (message, cd_Message c, status)
  else if decide (cd_Status c = ConditionTrue) then
    (add_message message (cd_Message c), upMessage, if decide (status = HostUp) then HostWarning else status)
  else acc.

Definition calculateNodeStatus (conditions : list Condition) : MonitorStatus * string :=
  let '(message, upMessage, status) := foldl node_condition ("", "", HostUp) conditions in
  (status, if decide (status = HostUp) then message +:+ upMessage else message).

Definition pod_condition (acc : string * MonitorStatus) (c : Condition) : string * MonitorStatus :=
  if decide (cd_Status c ≠ ConditionTrue) then (add_message acc.1 (cd_Message c), HostUnscheduledDown) else acc.

Definition calculatePodStatus (conditions : list Condition) : MonitorStatus * string :=
  let '(message, status) := foldl pod_condition ("", HostUp) conditions in
  (status, if decide (status = HostUp) then message +:+ "Pod is healthy" else message).

(** ** Collection *)

Definition ErrAPI : error := Named "ErrAPI" "API error" None.
Definition ErrKAPI : error := Named "ErrKAPI" ("k8s: " +:+ Error ErrAPI) (Some ErrAPI).
Definition ErrMAPI : error := Named "ErrMAPI" ("k8s metrics: " +:+ Error ErrAPI) (Some ErrAPI).

Record nodeReservation := mkReservation { nr_cpuMillis : Z; nr_memBytes : Z }.

(** The answers of the cluster during one collection; the pods are listed twice. *)
Record answers (Q : Type) := mkAnswers {
  an_nodes : result error (list (Node Q));
  an_reserving : result error (list (Pod Q));
  an_pods : result error (list (Pod Q));
  an_node_metrics : result error (list (NodeMetrics Q));
  an_pod_metrics : result error (list (PodMetrics Q));
}.
Arguments mkAnswers {Q}. Arguments an_nodes {Q}. Arguments an_reserving {Q}. Arguments an_pods {Q}.
Arguments an_node_metrics {Q}. Arguments an_pod_metrics {Q}.

(** [slices.SortFunc] by a name: sorted, and equal names in any order. *)
Definition name_le {A} (key : A → string) (a b : A) : Prop := String.leb (key a) (key b) = true.

#[export] Instance name_le_dec {A} (key : A → string) : RelDecision (name_le key).
Proof. intros a b. unfold name_le. apply _. Defined.

Class SortFuncs := {
  sort_func : ∀ {A}, (A → string) → list A → list A;
  sort_func_perm : ∀ A (key : A → string) l, sort_func key l ≡ₚ l;
  sort_func_sorted : ∀ A (key : A → string) l, StronglySorted (name_le key) (sort_func key l);
}.

Section collect.
Context `{MapOrder} `{SortFuncs} (CheckInterval : Z) (now : Timestamp).
Context {Q : Type} `{Quantities Q} (wide_letter : string → nat) {R : Type} `{Regexps R}.
(** The time of a check in the output of a service. *)
Context (format_time : Timestamp → string).
Context (cfg : ExtConfig R).

Definition quantity (l : gmap string Q) (name : string) : Q := default q_zero (l !! name).

Definition view (name : string) : list (string * MetricDefinition) := map_order (default ∅ (ec_Views cfg !! name)).

(** *** Reservations *)

Definition add_request (res : nodeReservation) (c : Container Q) : nodeReservation :=
  let res := match ct_Requests c !! cpu with
    | Some q => mkReservation (int64 (nr_cpuMillis res + q_MilliValue q)) (nr_memBytes res)
    | None => res
    end in
  match ct_Requests c !! memory with
  | Some q => mkReservation (nr_cpuMillis res) (int64 (nr_memBytes res + q_Value q))
  | None => res
  end.

Definition no_reservation : nodeReservation := mkReservation 0 0.

Definition finished (p : Pod Q) : bool := bool_decide (p_Phase p = PodSucceeded ∨ p_Phase p = PodFailed).

Definition reserve (m : gmap string nodeReservation) (p : Pod Q) : gmap string nodeReservation :=
  if finished p then m
  else <[p_NodeName p := foldl add_request (default no_reservation (m !! p_NodeName p)) (p_Containers p)]> m.

Definition buildNodeReservationMap (pods : result error (list (Pod Q))) : gmap string nodeReservation * bool :=
  match pods with
  | Fail _ => (∅, false)
  | Val pods => (foldl reserve ∅ pods, true)
  end.

(** *** Services *)

Definition value_text (v : any) : string :=
  match v with AInt _ z => FormatInt z | AFloat64 x => fmt_v x | _ => "" end.

Definition with_output (s : MonitoredService) (text : string) : MonitoredService :=
  mkMonitoredService (ms_BaseInfo s) (SetLastPluginOutput (ms_MonitoredInfo s) text) (ms_Metrics s).

Definition service_text (s : MonitoredService) (middle : string) : outcome MonitoredService :=
  t ← deref (mi_LastCheckTime (ms_MonitoredInfo s));
  Ret (with_output s ("(" +:+ bi_Name (ms_BaseInfo s) +:+ "), Status=" +:+ mi_Status (ms_MonitoredInfo s) +:+ ", "
                        +:+ middle +:+ format_time t)).

Definition value_output (comma : string) (value : any) (d : MetricDefinition) : string :=
  "(value=" +:+ value_text value +:+ ")" +:+ comma +:+ " [W/C=" +:+ FormatInt (mdef_WarningThreshold d) +:+ "/"
    +:+ FormatInt (mdef_CriticalThreshold d) +:+ "] ".

Definition builder (name customName : string) (d : MetricDefinition) (value : any) (time : option Timestamp) : MetricBuilder :=
  mkMetricBuilder name customName "" "" value (Some (ArgUnit UnitCounter))
    (AInt KInt (mdef_WarningThreshold d)) (AInt KInt (mdef_CriticalThreshold d)) time time false ∅.

(** The service of a node's metric, under the name of the metric. *)
Definition add_node_service (comma host : string) (time : option Timestamp) (services : gmap string MonitoredService)
    (key : string) (d : MetricDefinition) (value : any) : outcome (gmap string MonitoredService) :=
  r ← BuildServiceForMetric CheckInterval now host (builder key (mdef_CustomName d) d value time);
  match r with
  | Fail _ => Ret services
  | Val s => s ← service_text s (value_output comma value d); Ret (<[key := s]> services)
  end.

(** *** Names and groups *)

(** The mapped name, unless no host mapping is configured; [None] when nothing
    matches. *)
Definition host_name (labels : gmap string string) (name : string) : outcome (option string) :=
  match ec_HostName cfg with
  | [] => Ret (Some name)
  | mappings =>
      r ← ApplyOR wide_letter mappings labels;
      Ret (match r with Val s => if decide (s = "") then None else Some s | Fail _ => None end)
  end.

Definition group_name (labels : gmap string string) (prefix : string) : outcome string :=
  r ← ApplyOR wide_letter (ec_HostGroup cfg) labels;
  let other := prefix +:+ namespace_of labels in
  Ret (match r with Val s => if decide (s = "") then other else s | Fail _ => other end).

(** *** Nodes *)

Definition node_labels (n : Node Q) : gmap string string := GetLabels [LNode (n_Name n) (n_Namespace n) (n_Labels n)].

Definition node_key (labels : gmap string string) (name : string) : string :=
  "node:" +:+ namespace_of labels +:+ ":" +:+ name.

Definition inventory_value (n : Node Q) (res : nodeReservation) (listed : bool) (key : string) : option any :=
  if decide (key = cpuTotal) then Some (AInt KInt64 (q_Value (quantity (n_Capacity n) cpu)))
  else if decide (key = cpuReserved) then
    if listed then Some (AFloat64 (f_ratio (nr_cpuMillis res) 1000)) else None
  else if decide (key = memoryTotal) then Some (AInt KInt64 (q_Value (quantity (n_Capacity n) memory)))
  else if decide (key = memoryReserved) then if listed then Some (AInt KInt64 (nr_memBytes res)) else None
  else if decide (key = pods) then Some (AInt KInt64 (q_Value (quantity (n_Capacity n) pods)))
  else None.

Definition collect_node (reserved : gmap string nodeReservation * bool) (st : MonitoredState) (n : Node Q)
  : outcome MonitoredState :=
  let labels := node_labels n in
  let stateKey := node_key labels (n_Name n) in
  name ← host_name labels (n_Name n);
  match name with
  | None => Ret (mismatch st stateKey)
  | Some resourceName =>
      groupName ← group_name labels "nodes-";
      let st := add_to_group st groupName resourceName in
      let '(status, message) := calculateNodeStatus (n_Conditions n) in
      let res := default no_reservation (reserved.1 !! n_Name n) in
      services ← foldM (λ services '(key, d),
          match inventory_value n res reserved.2 key with
          | None => Ret services
          | Some value => add_node_service "" resourceName None services key d value
          end) ∅ (view ViewNodes);
      Ret (put_resource st stateKey (mkResource resourceName ResourceTypeHost status message labels services))
  end.

Definition collectNodeInventory (a : answers Q) (st : MonitoredState) : outcome (result error MonitoredState) :=
  match an_nodes a with
  | Fail e => Ret (Fail (Errorf_w ErrKAPI (Error e)))
  | Val nodes => st ← foldM (collect_node (buildNodeReservationMap (an_reserving a))) st nodes; Ret (Val st)
  end.

(** *** Pods *)

(** [addResource]: the group gets a name the first time it appears. *)
Definition addResource (acc : MonitoredState * gset string) (stateKey resourceName : string) (status : MonitorStatus)
    (message : string) (labels : gmap string string) (groupName : string) : MonitoredState * gset string :=
  let '(st, groupsMap) := acc in
  let st := put_resource st stateKey (mkResource resourceName ResourceTypeHost status message labels ∅) in
  if decide (resourceName ∈ groupsMap) then (st, groupsMap)
  else (add_to_group st groupName resourceName, {[resourceName]} ∪ groupsMap).

Definition pod_label (p : Pod Q) : labeled := LPod (p_Name p) (p_Namespace p) (p_Labels p).

Definition pod_key (labels : gmap string string) (name : string) : string :=
  "pod:" +:+ namespace_of labels +:+ ":" +:+ name.

(** A resource of the pods, or a mismatch. *)
Definition place (acc : MonitoredState * gset string) (stateKey name : string) (status : MonitorStatus)
    (message : string) (labels : gmap string string) : outcome (MonitoredState * gset string) :=
  resourceName ← host_name labels name;
  match resourceName with
  | None => Ret (mismatch acc.1 stateKey, acc.2)
  | Some resourceName =>
      groupName ← group_name labels "pods-";
      Ret (addResource acc stateKey resourceName status message labels groupName)
  end.

Definition collect_container (p : Pod Q) (acc : MonitoredState * gset string) (c : Container Q)
  : outcome (MonitoredState * gset string) :=
  if decide (TrimSuffix (ct_Name c) "-" = ContainerPOD) then Ret acc
  else
    let labels := GetLabels [pod_label p; LContainer (ct_Name c)] in
    let '(status, message) := calculatePodStatus (p_Conditions p) in
    place acc (pod_key labels (p_Name p) +:+ ":" +:+ ct_Name c) (ct_Name c) status message labels.

Definition collect_pod (metricsPerContainer : bool) (acc : MonitoredState * gset string) (p : Pod Q)
  : outcome (MonitoredState * gset string) :=
  if metricsPerContainer then foldM (collect_container p) acc (p_Containers p)
  else
    let labels := GetLabels [pod_label p] in
    let '(status, message) := calculatePodStatus (p_Conditions p) in
    place acc (pod_key labels (p_Name p)) (p_Name p) status message labels.

Definition collectPodInventory (a : answers Q) (metricsPerContainer : bool) (st : MonitoredState)
  : outcome (result error MonitoredState) :=
  match an_pods a with
  | Fail e => Ret (Fail (Errorf_w ErrKAPI (Error e)))
  | Val pods => '(st, _) ← foldM (collect_pod metricsPerContainer) (st, ∅) pods; Ret (Val st)
  end.

(** *** Metrics of nodes *)

Definition usage_value (usage : gmap string Q) (key : string) : option any :=
  if decide (key = cpu) then Some (AInt KInt64 (q_MilliValue (quantity usage cpu)))
  else if decide (key = memory) then Some (AInt KInt64 (q_MilliValue (quantity usage memory)))
  else if decide (key = cpuUsed) then Some (AFloat64 (f_ratio (q_MilliValue (quantity usage cpu)) 1000))
  else if decide (key = memoryUsed) then Some (AInt KInt64 (q_Value (quantity usage memory)))
  else None.

(** A node that is not in the state is only logged. *)
Definition collect_node_metrics (st : MonitoredState) (n : NodeMetrics Q) : outcome MonitoredState :=
  let stateKey := node_key (GetLabels [LNode (nm_Name n) (nm_Namespace n) (nm_Labels n)]) (nm_Name n) in
  match st_State st !! stateKey with
  | None => Ret st
  | Some resource =>
      services ← foldM (λ services '(key, d),
          match usage_value (nm_Usage n) key with
          | None => Ret services
          | Some value => add_node_service "," (kr_Name resource) (Some (nm_Timestamp n)) services key d value
          end) (kr_Services resource) (view ViewNodes);
      Ret (put_resource st stateKey (with_services resource services))
  end.

Definition collectNodeMetrics (a : answers Q) (st : MonitoredState) : outcome (MonitoredState * option error) :=
  match an_node_metrics a with
  | Fail e => Ret (st, Some (Errorf_w ErrMAPI (Error e)))
  | Val nodes => st ← foldM collect_node_metrics st nodes; Ret (st, None)
  end.

(** *** Metrics of pods *)

Definition metrics_label (p : PodMetrics Q) : labeled := LPod (pm_Name p) (pm_Namespace p) (pm_Labels p).

Definition container_value (usage : gmap string Q) (key : string) : option any :=
  if decide (key = cpu) then Some (AInt KInt64 (q_MilliValue (quantity usage cpu)))
  else if decide (key = memory) then Some (AInt KInt64 (q_Value (quantity usage memory)))
  else None.

(** The output of a service with one builder shows its value. *)
Definition multi_output (s : MonitoredService) (builders : list MetricBuilder) (value : any) (d : MetricDefinition)
  : outcome MonitoredService :=
  service_text s (match builders with [_] => value_output "," value d | _ => "" end).

(** The body of the loop over the metrics of one container, and the builders so far. *)
Definition replica_metric (host : string) (time : Timestamp) (usage : gmap string Q)
    (acc : gmap string MonitoredService * list MetricBuilder) (kv : string * MetricDefinition)
  : outcome (gmap string MonitoredService * list MetricBuilder) :=
  let '(services, builders) := acc in
  let '(key, d) := kv in
  match container_value usage key with
  | None => Ret acc
  | Some value =>
      let builders := (builders ++ [builder (mdef_Name d) "" d value (Some time)])%list in
      r ← BuildServiceForMultiMetric CheckInterval now host (mdef_Name d) (mdef_CustomName d) builders;
      match r with
      | Fail _ => Ret (services, builders)
      | Val s =>
          (** The thresholds in the output are those of the one builder. *)
          s ← multi_output s builders value d; Ret (<[mdef_Name d := s]> services, builders)
      end
  end.

Definition replica_container (p : PodMetrics Q) (host : string) (services : gmap string MonitoredService)
    (c : ContainerMetrics Q) : outcome (gmap string MonitoredService) :=
  if decide (cm_Name c = ContainerPOD) then Ret services
  else '(services, _) ← foldM (replica_metric host (pm_Timestamp p) (cm_Usage c)) (services, []) (view ViewPods); Ret services.

Definition collect_replica (st : MonitoredState) (p : PodMetrics Q) : outcome MonitoredState :=
  let stateKey := pod_key (GetLabels [metrics_label p]) (pm_Name p) in
  match st_State st !! stateKey with
  | None => Ret st
  | Some resource =>
      services ← foldM (replica_container p (kr_Name resource)) (kr_Services resource) (pm_Containers p);
      Ret (put_resource st stateKey (with_services resource services))
  end.

Definition collectPodMetricsPerReplica (a : answers Q) (st : MonitoredState) : outcome (MonitoredState * option error) :=
  match an_pod_metrics a with
  | Fail e => Ret (st, Some (Errorf_w ErrMAPI (Error e)))
  | Val pods => st ← foldM collect_replica st pods; Ret (st, None)
  end.

(** *** Metrics of containers *)

(** The state and the maps of the loop: the builders of a resource, and the first
    service of a metric and a resource. *)
Record container_acc := mkAcc {
  ca_state : MonitoredState;
  ca_builders : gmap string (list MetricBuilder);
  ca_services : gmap string MonitoredService;
}.

Definition pod_suffix (name : string) : string :=
  match Split name "-" with
  | _ :: (_ :: _) as splits => default "" (last splits)
  | _ => ""
  end.

(** The service of a container: built for the first container of the resource; for
    another one a copy of that service with one more metric, which is not kept. *)
Definition container_service (acc : container_acc) (smKey host : string) (builders : list MetricBuilder)
    (b : MetricBuilder) (value : any) (d : MetricDefinition) : outcome (MonitoredService * gmap string MonitoredService) :=
  match ca_services acc !! smKey with
  | Some s =>
      r ← BuildMetric now b;
      match r with
      | Fail _ => Panic "invalid memory address or nil pointer dereference"
      | Val m => Ret (mkMonitoredService (ms_BaseInfo s) (ms_MonitoredInfo s) (ms_Metrics s ++ [m])%list, ca_services acc)
      end
  | None =>
      r ← BuildServiceForMultiMetric CheckInterval now host (mdef_Name d) (mdef_CustomName d) builders;
      match r with
      | Fail _ => Panic "invalid memory address or nil pointer dereference"
      | Val s => s ← multi_output s builders value d; Ret (s, <[smKey := s]> (ca_services acc))
      end
  end.

Definition collect_container_metric (key : string) (d : MetricDefinition) (p : PodMetrics Q) (acc : container_acc)
    (c : ContainerMetrics Q) : outcome container_acc :=
  if decide (cm_Name c = ContainerPOD) then Ret acc
  else
    let stateKey := pod_key (GetLabels [metrics_label p; LContainer (cm_Name c)]) (pm_Name p) +:+ ":" +:+ cm_Name c in
    match st_State (ca_state acc) !! stateKey with
    | None => Ret acc
    | Some resource =>
        match container_value (cm_Usage c) key with
        | None => Ret acc
        | Some value =>
            let host := kr_Name resource in
            let b := builder (mdef_Name d +:+ "-" +:+ pod_suffix (pm_Name p)) "" d value (Some (pm_Timestamp p)) in
            let '(found, builderMap) := match ca_builders acc !! host with
              | Some l => (l, ca_builders acc)
              | None => ([], <[host := []]> (ca_builders acc))
              end in
            '(s, serviceMap) ← container_service acc (key +:+ "-" +:+ host) host (found ++ [b])%list b value d;
            Ret (mkAcc (put_resource (ca_state acc) stateKey
                          (with_services resource (<[mdef_Name d := s]> (kr_Services resource))))
                   builderMap serviceMap)
        end
    end.

Definition collectPodMetricsPerContainer (a : answers Q) (st : MonitoredState) : outcome (MonitoredState * option error) :=
  match an_pod_metrics a with
  | Fail e => Ret (st, Some (Errorf_w ErrMAPI (Error e)))
  | Val pods =>
      acc ← foldM (λ acc '(key, d), foldM (λ acc p, foldM (collect_container_metric key d p) acc (pm_Containers p)) acc pods)
              (mkAcc st ∅ ∅) (view ViewPods);
      Ret (ca_state acc, None)
  end.

(** *** The lists that are sent *)

Definition inventory_resource (r : KubernetesResource) : InventoryResource :=
  CreateInventoryResource (kr_Name r)
    (sort_func (λ s, bi_Name (is_BaseInfo s))
       ((λ s, CreateInventoryService (bi_Name (ms_BaseInfo s)) (bi_Owner (ms_BaseInfo s))) <$>
          (map_order (kr_Services r)).*2)).

Definition monitored_resource (r : KubernetesResource) : MonitoredResource :=
  mkMonitoredResource (mkBaseResource (named_info (kr_Name r) (kr_Type r) "") "")
    (mkMonitoredInfo (kr_Status r) (Some (NewTimestamp now)) (Some (NewTimestamp now)) (kr_Message r))
    (map_order (kr_Services r)).*2.

Definition sorted_group (g : ResourceGroup) : ResourceGroup :=
  mkResourceGroup (rg_GroupName g) (rg_Type g) (rg_Description g) (sort_func rr_Name (rg_Resources g)).

Definition inventory_list (st : MonitoredState) : list InventoryResource :=
  sort_func (λ r, bi_Name (br_BaseInfo (ir_BaseResource r))) (inventory_resource <$> (map_order (st_State st)).*2).

Definition group_list (st : MonitoredState) : list ResourceGroup :=
  sort_func rg_GroupName (sorted_group <$> (map_order (st_Groups st)).*2).

(** The metrics are per container; errors of the metrics are only logged. *)
Definition collect_state (a : answers Q) : outcome (result error MonitoredState) :=
  r ← collectNodeInventory a empty_state;
  match r with
  | Fail e => Ret (Fail e)
  | Val st =>
      r ← collectPodInventory a true st;
      match r with
      | Fail e => Ret (Fail e)
      | Val st =>
          '(st, _) ← collectNodeMetrics a st;
          '(st, _) ← collectPodMetricsPerContainer a st;
          Ret (Val st)
      end
  end.

Definition Collect (a : answers Q)
  : outcome (result error (list InventoryResource * list MonitoredResource * list ResourceGroup)) :=
  r ← collect_state a;
  Ret (st ← r; Val (inventory_list st, monitored_resource <$> (map_order (st_State st)).*2, group_list st)).
End collect.

(** ** The connector *)

(** The connector, and the flag of the shared HTTP client; [kc_ready] tells whether the
    client was made. *)
Record KubernetesConnector (R : Type) := mkConnector {
  kc_config : ExtConfig R;
  kc_iChksum : string;
  kc_ready : bool;
}.
Arguments mkConnector {R}. Arguments kc_config {R}. Arguments kc_iChksum {R}. Arguments kc_ready {R}.

Section connector.
Context {R : Type} `{Regexps R} (yaml : string → result error KubernetesYaml).
(** The three calls that make the clients and ask for the server's version. *)
Context (NewForConfig ServerVersion NewMetricsForConfig : RestConfig → option error).

(** [Initialize]: the connector, the flag of the shared client, the error. *)
Definition Initialize (c : KubernetesConnector R) (insecure : bool) : KubernetesConnector R * bool * option error :=
  let insecure := insecure || ec_Insecure (kc_config c) in
  match rest_config yaml (kc_config c) insecure with
  | Fail e => (c, insecure, Some e)
  | Val k =>
      match NewForConfig k with
      | Some e => (c, insecure, Some e)
      | None =>
          match ServerVersion k with
          | Some e => (c, insecure, Some (Errorf_w ErrAPI (Error e)))
          | None =>
              match NewMetricsForConfig k with
              | Some e => (c, insecure, Some e)
              | None => (mkConnector (kc_config c) (kc_iChksum c) true, insecure, None)
              end
          end
      end
  end.

(** [Ping] *)
Definition Ping (c : KubernetesConnector R) (version : option error) : option error :=
  if kc_ready c then match version with Some e => Some (Errorf_w ErrAPI (Error e)) | None => None end
  else Some (Opaque "kubernetes connector not initialized").

(** *** The handlers *)

Definition buildMetricsMap (view : string) (metrics : list MetricDefinition) : gmap string MetricDefinition :=
  foldl (λ m d, if decide (mdef_ServiceType d = view) then <[mdef_Name d := d]> m else m) ∅ metrics.

Definition buildNodeMetricsMap : list MetricDefinition → gmap string MetricDefinition := buildMetricsMap ViewNodes.
Definition buildPodMetricsMap : list MetricDefinition → gmap string MetricDefinition := buildMetricsMap ViewPods.

(** The path [writeDataToFile] writes to: beside the configuration. *)
Definition yaml_path (configPath : string) : string :=
  foldl (λ path part, path +:+ part +:+ "/") "" (removelast (Split configPath "/")) +:+ "kubernetes_config.yaml".

Fixpoint deferred (conns : list GWConnection) (own : HostOwnershipType) : HostOwnershipType :=
  match conns with
  | [] => own
  | conn :: conns => if decide (DeferOwnership conn ≠ "") then DeferOwnership conn else deferred conns own
  end.

(** The parsed configuration: the extensions over their defaults, the metrics of the
    profile, and the identity of the connection. *)
Record k8s_dto := mkDto { kd_Ext : ExtConfig R; kd_Metrics : list MetricDefinition; kd_ConnectorID : Z }.

Definition k8s_config (d : k8s_dto) (conns : list GWConnection) : ExtConfig R :=
  let e := kd_Ext d in
  mkExtConfig (ec_EndPoint e)
    (<[ViewPods := buildPodMetricsMap (kd_Metrics d)]> (<[ViewNodes := buildNodeMetricsMap (kd_Metrics d)]> (ec_Views e)))
    (deferred conns (ec_Ownership e)) (ec_AuthType e) (ec_Insecure e) (ec_UserName e) (ec_UserPassword e)
    (ec_BearerToken e) (ec_ConfigFile e) (Prepare1 (ec_HostGroup e)) (Prepare1 (ec_HostName e)).

(** The text of the authentication: type, server, user, password, token. *)
Context (yaml_auth : string → string → string → string → string → string).

Definition auth_file (e : ExtConfig R) : string :=
  if decide (ec_AuthType e = ConfigFile) then ec_ConfigFile e
  else yaml_auth (ec_AuthType e) (ec_EndPoint e) (ec_UserName e) (ec_UserPassword e) (ec_BearerToken e).

(** [configHandler]: the connector, the file that is written, and whether the loop
    runs; [None] when nothing changes. *)
Definition configHandler (configPath : string) (conns : list GWConnection) (parsed : result error k8s_dto)
  : option (KubernetesConnector R * (string * string) * bool) :=
  match parsed with
  | Fail _ => None
  | Val d =>
      Some (mkConnector (k8s_config d conns) "" false, (yaml_path configPath, auth_file (kd_Ext d)),
            bool_decide (kd_ConnectorID d ≠ 0%Z))
  end.

(** [periodicHandler]: the collection of a configuration, the sum of the inventory and
    the groups, and the calls of the transit service. *)
Context (Collect : ExtConfig R →
  outcome (result error (list InventoryResource * list MonitoredResource * list ResourceGroup))).
Context (inventory_sum : list InventoryResource → list ResourceGroup → result error string).
Context {S : Type} (SendInventory : S → list InventoryResource → list ResourceGroup → HostOwnershipType → outcome S).
Context (SendMetrics : S → list MonitoredResource → list ResourceGroup → Expr.run S).

Definition periodicHandler (c : KubernetesConnector R) (insecure : bool) (s : S)
  : Expr.run (KubernetesConnector R * bool * S) :=
  let '(c, insecure, err) := if kc_ready c then (c, insecure, None) else Initialize c insecure in
  match err with
  | Some _ => RRet (c, insecure, s)
  | None =>
      r ← lift_o (Collect (kc_config c));
      match r with
      | Fail _ => RRet (c, insecure, s)
      | Val (inventory, monitored, groups) =>
          let chk := inventory_sum inventory groups in
          let changed := match chk with Fail _ => true | Val b => bool_decide (b ≠ kc_iChksum c) end in
          s ← (if changed then lift_o (SendInventory s inventory groups (ec_Ownership (kc_config c))) else RRet s);
          s ← SendMetrics s monitored groups;
          RRet (mkConnector (kc_config c) (match chk with Fail _ => kc_iChksum c | Val b => b end) (kc_ready c), insecure, s)
      end
  end.
End connector.

(** ** Lemmas *)

(** *** Status *)

Definition not_ready (c : Condition) : bool := bool_decide (cd_Type c = NodeReady ∧ cd_Status c ≠ ConditionTrue).
Definition pressure (c : Condition) : bool := bool_decide (cd_Type c ≠ NodeReady ∧ cd_Status c = ConditionTrue).

(** The status of a node by its conditions, whatever their order. *)
Definition node_status (conditions : list Condition) : MonitorStatus :=
  if existsb not_ready conditions then HostUnscheduledDown
  else if existsb pressure conditions then HostWarning else HostUp.

Lemma node_condition_status message up status c :
  (node_condition (message, up, status) c).2 =
  if not_ready c then HostUnscheduledDown
  else if pressure c then (if decide (status = HostUp) then HostWarning else status) else status.
Proof.
  unfold node_condition, not_ready, pressure.
  destruct (decide (cd_Type c = NodeReady)) as [Ht|Ht].
  - destruct (decide (cd_Status c ≠ ConditionTrue)) as [Hs|Hs].
    + by rewrite bool_decide_true.
    + rewrite bool_decide_false by tauto. by rewrite bool_decide_false by tauto.
  - rewrite (bool_decide_false (_ ∧ _)) by tauto. destruct (decide (cd_Status c = ConditionTrue)) as [Hs|Hs].
    + by rewrite bool_decide_true.
    + by rewrite bool_decide_false by tauto.
Qed.

Lemma node_conditions_status conditions message up status :
  status ∈ [HostUp; HostWarning; HostUnscheduledDown] →
  (foldl node_condition (message, up, status) conditions).2 =
  if existsb not_ready conditions then HostUnscheduledDown
  else if decide (status = HostUp) then if existsb pressure conditions then HostWarning else HostUp else status.
Proof.
  revert message up status. induction conditions as [|c conditions IH]; intros message up status Hs; cbn [foldl existsb].
  { by destruct (decide (status = HostUp)). }
  pose proof (node_condition_status message up status c) as Hc.
  destruct (node_condition (message, up, status) c) as [[message' up'] status']. cbn [snd] in Hc. subst status'.
  rewrite IH.
  - repeat (apply elem_of_cons in Hs as [->|Hs]); [| | |by apply elem_of_nil in Hs];
      destruct (not_ready c); cbn; destruct (existsb not_ready conditions); try done; by destruct (pressure c).
  - destruct (not_ready c); [set_solver|]. destruct (pressure c); [|done]. destruct (decide _); [set_solver|done].
Qed.

(** A node is down when its readiness is not true, has a warning when another
    condition is true, and is up otherwise; the order of the conditions does not
    matter.  A node without conditions is up. *)
Theorem calculateNodeStatus_spec conditions : (calculateNodeStatus conditions).1 = node_status conditions.
Proof.
  unfold calculateNodeStatus, node_status.
  pose proof (node_conditions_status conditions "" "" HostUp ltac:(set_solver)) as Hs.
  destruct (foldl node_condition _ conditions) as [[message up] status]. cbn [snd fst] in *. by rewrite Hs, decide_True.
Qed.

Lemma pod_conditions_status conditions message status :
  (foldl pod_condition (message, status) conditions).2 =
  if forallb (λ c, bool_decide (cd_Status c = ConditionTrue)) conditions then status else HostUnscheduledDown.
Proof.
  revert message status. induction conditions as [|c conditions IH]; intros message status; [done|].
  cbn [foldl forallb]. unfold pod_condition at 2. destruct (decide (cd_Status c ≠ ConditionTrue)) as [Hs|Hs].
  - rewrite IH, bool_decide_false by tauto. cbn. by destruct (forallb _ _).
  - rewrite IH, bool_decide_true; [done|]. destruct (decide (cd_Status c = ConditionTrue)); tauto.
Qed.

(** A pod is up when all of its conditions are true.  So a pod that has finished its
    work, whose readiness is false, is reported down. *)
Theorem calculatePodStatus_spec conditions :
  (calculatePodStatus conditions).1 =
  if forallb (λ c, bool_decide (cd_Status c = ConditionTrue)) conditions then HostUp else HostUnscheduledDown.
Proof.
  unfold calculatePodStatus. pose proof (pod_conditions_status conditions "" HostUp) as Hs.
  destruct (foldl pod_condition _ conditions) as [message status]. done.
Qed.

(** *** Groups *)

Definition in_some_group (st : MonitoredState) (name : string) : Prop :=
  ∃ g group, st_Groups st !! g = Some group ∧ name ∈ rr_Name <$> rg_Resources group.

(** Every resource is in a group. *)
Definition grouped (st : MonitoredState) : Prop :=
  ∀ key r, st_State st !! key = Some r → in_some_group st (kr_Name r).

Lemma add_to_group_in st groupName resourceName name :
  in_some_group (add_to_group st groupName resourceName) name ↔ in_some_group st name ∨ name = resourceName.
Proof.
  unfold in_some_group, add_to_group. cbn [st_Groups]. split.
  - intros (g & group & Hg & Hn). destruct (decide (g = groupName)) as [->|Hne].
    + rewrite lookup_insert_eq in Hg. injection Hg as <-. destruct (st_Groups st !! groupName) as [group|] eqn:Hl; cbn in Hn.
      * rewrite fmap_app in Hn. apply elem_of_app in Hn as [Hn|Hn]; [left; eauto|]. right. by apply list_elem_of_singleton in Hn.
      * right. by apply list_elem_of_singleton in Hn.
    + rewrite lookup_insert_ne in Hg by done. left. eauto.
  - intros [(g & group & Hg & Hn)| ->].
    + destruct (decide (g = groupName)) as [->|Hne].
      * eexists groupName, _. rewrite lookup_insert_eq. split; [done|]. rewrite Hg. cbn.
        rewrite fmap_app. by apply elem_of_app; left.
      * exists g, group. by rewrite lookup_insert_ne.
    + eexists groupName, _. rewrite lookup_insert_eq. split; [done|]. destruct (st_Groups st !! groupName); cbn.
      * rewrite fmap_app. apply elem_of_app. right. by apply list_elem_of_singleton.
      * by apply list_elem_of_singleton.
Qed.

Lemma put_resource_grouped st key r :
  grouped st → in_some_group st (kr_Name r) → grouped (put_resource st key r).
Proof.
  intros Hg Hr k r'. cbn [put_resource st_State]. destruct (decide (key = k)) as [->|Hne].
  - rewrite lookup_insert_eq. by intros [= <-].
  - rewrite lookup_insert_ne by done. apply Hg.
Qed.

Lemma add_to_group_grouped st g name : grouped st → grouped (add_to_group st g name).
Proof. intros Hg key r Hr. apply add_to_group_in. left. by apply (Hg key). Qed.

(** *** Keys *)

(** The key belongs to a resource, or to something the mappings do not match. *)
Definition known (st : MonitoredState) (key : string) : Prop :=
  is_Some (st_State st !! key) ∨ is_Some (st_Mismatched st !! key).

Lemma is_Some_insert {A} (m : gmap string A) i x k : is_Some (<[i := x]> m !! k) ↔ is_Some (m !! k) ∨ k = i.
Proof.
  destruct (decide (i = k)) as [->|Hne]; [rewrite lookup_insert_eq|rewrite lookup_insert_ne by done].
  - split; [by right|by eexists].
  - split; [by left|]. intros [?| ->]; done.
Qed.

Lemma known_put st key r k : known (put_resource st key r) k ↔ known st k ∨ k = key.
Proof. unfold known, put_resource. cbn. rewrite is_Some_insert. tauto. Qed.

Lemma known_mismatch st key k : known (mismatch st key) k ↔ known st k ∨ k = key.
Proof. unfold known, mismatch. cbn. rewrite is_Some_insert. tauto. Qed.

Lemma known_group st g name k : known (add_to_group st g name) k ↔ known st k.
Proof. done. Qed.

Section collect_lemmas.
Context {HO : MapOrder} {HS : SortFuncs} (CheckInterval : Z) (now : Timestamp).
Context {Q : Type} {HQ : Quantities Q} (wide_letter : string → nat) {R : Type} {HR : Regexps R}.
Context (format_time : Timestamp → string) (cfg : ExtConfig R).

#[local] Abbreviation collect_node := (collect_node CheckInterval now wide_letter format_time cfg).
#[local] Abbreviation place := (place wide_letter cfg).
#[local] Abbreviation collect_container := (collect_container wide_letter cfg).
#[local] Abbreviation collect_pod := (collect_pod wide_letter cfg).

(** The key of a node, and of a container that is not the pod's own. *)
Definition node_state_key (n : Node Q) : string := node_key (node_labels n) (n_Name n).

Definition container_key (p : Pod Q) (c : Container Q) : string :=
  pod_key (GetLabels [pod_label p; LContainer (ct_Name c)]) (p_Name p) +:+ ":" +:+ ct_Name c.

Definition container_of (p : Pod Q) (key : string) : Prop :=
  ∃ c, c ∈ p_Containers p ∧ TrimSuffix (ct_Name c) "-" ≠ ContainerPOD ∧ key = container_key p c.

Lemma collect_node_known reserved st n st' key :
  collect_node reserved st n = Ret st' → known st' key ↔ known st key ∨ key = node_state_key n.
Proof using Type.
  unfold K8s.collect_node. intros ([name|] & _ & Hr)%bind_Ret_inv; [|injection Hr as <-; apply known_mismatch].
  apply bind_Ret_inv in Hr as (g & _ & Hr). destruct (calculateNodeStatus _) as [status message].
  apply bind_Ret_inv in Hr as (services & _ & Hr). injection Hr as <-. by rewrite known_put, known_group.
Qed.

Lemma collect_node_grouped reserved st n st' :
  collect_node reserved st n = Ret st' → grouped st → grouped st'.
Proof using Type.
  unfold K8s.collect_node. intros ([name|] & _ & Hr)%bind_Ret_inv Hg; [|by injection Hr as <-].
  apply bind_Ret_inv in Hr as (g & _ & Hr). destruct (calculateNodeStatus _) as [status message].
  apply bind_Ret_inv in Hr as (services & _ & Hr). injection Hr as <-.
  apply put_resource_grouped; [by apply add_to_group_grouped|]. cbn. apply add_to_group_in. by right.
Qed.

(** The names the pods' resources had so far are in groups. *)
Definition placed (acc : MonitoredState * gset string) : Prop :=
  grouped acc.1 ∧ ∀ name, name ∈ acc.2 → in_some_group acc.1 name.

Lemma place_known acc key name status message labels acc' k :
  place acc key name status message labels = Ret acc' → known acc'.1 k ↔ known acc.1 k ∨ k = key.
Proof using Type.
  unfold K8s.place. intros ([resourceName|] & _ & Hr)%bind_Ret_inv; [|injection Hr as <-; apply known_mismatch].
  apply bind_Ret_inv in Hr as (g & _ & Hr). injection Hr as <-. destruct acc as [st groupsMap]. unfold addResource.
  destruct (decide (resourceName ∈ groupsMap)); cbn [fst]; rewrite ?known_group; apply known_put.
Qed.

Lemma place_placed acc key name status message labels acc' :
  place acc key name status message labels = Ret acc' → placed acc → placed acc'.
Proof using Type.
  unfold K8s.place. intros ([resourceName|] & _ & Hr)%bind_Ret_inv Hp; [|by injection Hr as <-].
  apply bind_Ret_inv in Hr as (g & _ & Hr). injection Hr as <-. destruct acc as [st groupsMap], Hp as [Hg Hm].
  cbn [fst snd] in *. unfold addResource. destruct (decide (resourceName ∈ groupsMap)) as [Hin|Hin].
  - split; [|exact Hm]. apply put_resource_grouped; [done|]. by apply Hm.
  - split; cbn [fst snd].
    + intros k r Hr. apply add_to_group_in. cbn [add_to_group put_resource st_State] in Hr.
      destruct (decide (key = k)) as [->|Hne].
      * rewrite lookup_insert_eq in Hr. injection Hr as <-. by right.
      * rewrite lookup_insert_ne in Hr by done. left. by apply (Hg k).
    + intros n Hn. apply add_to_group_in. apply elem_of_union in Hn as [Hn|Hn]; [right; by apply elem_of_singleton in Hn|].
      left. by apply (Hm n).
Qed.

Lemma collect_container_known p acc c acc' k :
  collect_container p acc c = Ret acc' →
  known acc'.1 k ↔ known acc.1 k ∨ (TrimSuffix (ct_Name c) "-" ≠ ContainerPOD ∧ k = container_key p c).
Proof using Type.
  unfold K8s.collect_container. destruct (decide (TrimSuffix (ct_Name c) "-" = ContainerPOD)) as [He|He].
  { intros [= <-]. split; [by left|]. by intros [?|[? _]]. }
  destruct (calculatePodStatus _) as [status message]. intros Hr%(place_known _ _ _ _ _ _ _ k).
  rewrite Hr. split; (intros [?|Hk]; [by left|right]); [by split|by destruct Hk].
Qed.

Lemma collect_pod_known p acc acc' k :
  collect_pod true acc p = Ret acc' → known acc'.1 k ↔ known acc.1 k ∨ container_of p k.
Proof using Type.
  intros Hr. apply (foldM_collects (λ acc k, known acc.1 k)
    (λ c k, TrimSuffix (ct_Name c) "-" ≠ ContainerPOD ∧ k = container_key p c) _ _ _ _ k) in Hr; [exact Hr|].
  intros acc1 c acc2 _. apply collect_container_known.
Qed.

Lemma collect_pod_placed (p : Pod Q) acc acc' : collect_pod true acc p = Ret acc' → placed acc → placed acc'.
Proof using Type.
  intros Hr Hp. revert Hr. unfold K8s.collect_pod. apply foldM_inv; [done|].
  intros acc1 c acc2 _ Hp1. unfold K8s.collect_container.
  destruct (decide (TrimSuffix (ct_Name c) "-" = ContainerPOD)); [by intros [= <-]|].
  destruct (calculatePodStatus _) as [status message]. intros Hr. by eapply place_placed.
Qed.

(** *** Metrics keep the resources *)

Definition same_resources (st st' : MonitoredState) : Prop :=
  st_Groups st' = st_Groups st ∧ st_Mismatched st' = st_Mismatched st ∧
  ∀ key, kr_Name <$> st_State st' !! key = kr_Name <$> st_State st !! key.

#[local] Instance same_resources_preorder : PreOrder same_resources.
Proof using Type.
  split; [by intros st|]. intros st1 st2 st3 (A1 & A2 & A3) (B1 & B2 & B3).
  split; [by rewrite B1|]. split; [by rewrite B2|]. intros key. by rewrite B3.
Qed.

Lemma same_resources_put st key r services :
  st_State st !! key = Some r → same_resources st (put_resource st key (with_services r services)).
Proof using Type.
  intros Hr. split; [done|]. split; [done|]. intros k. cbn [put_resource st_State].
  destruct (decide (key = k)) as [->|Hne]; [by rewrite lookup_insert_eq, Hr|by rewrite lookup_insert_ne].
Qed.

Lemma same_resources_known st st' k : same_resources st st' → known st' k ↔ known st k.
Proof using Type.
  intros (_ & Hm & Hs). unfold known. rewrite Hm. specialize (Hs k).
  assert (is_Some (st_State st' !! k) ↔ is_Some (st_State st !! k)) as ->; [|done].
  destruct (st_State st' !! k), (st_State st !! k); done.
Qed.

Lemma same_resources_grouped st st' : same_resources st st' → grouped st → grouped st'.
Proof using Type.
  intros (Hg & _ & Hs) Hgr k r Hr. specialize (Hs k). rewrite Hr in Hs.
  destruct (st_State st !! k) as [r0|] eqn:Hr0; [|done]. injection Hs as ->.
  destruct (Hgr k r0 Hr0) as (g & group & Hl & Hn). exists g, group. by rewrite Hg.
Qed.

Lemma collectNodeMetrics_same a st st' err :
  collectNodeMetrics CheckInterval now format_time cfg a st = Ret (st', err) → same_resources st st'.
Proof using Type.
  unfold collectNodeMetrics. destruct (an_node_metrics a) as [nodes|e]; [|by intros [= <- _]].
  intros (st1 & H1 & Hr)%bind_Ret_inv. injection Hr as <- _. revert H1.
  apply (foldM_inv (same_resources st)); [done|]. intros s n s' _ Hs. unfold collect_node_metrics.
  destruct (st_State s !! _) as [r|] eqn:Hl; [|by intros [= <-]].
  intros (services & _ & Hr)%bind_Ret_inv. injection Hr as <-. etrans; [exact Hs|]. by apply same_resources_put.
Qed.

Lemma collect_container_metric_same key d p acc c acc' :
  collect_container_metric CheckInterval now format_time key d p acc c = Ret acc' →
  same_resources (ca_state acc) (ca_state acc').
Proof using Type.
  unfold collect_container_metric. destruct (decide _); [by intros [= <-]|]. cbv zeta.
  destruct (st_State _ !! _) as [r|] eqn:Hl; [|by intros [= <-]].
  destruct (container_value _ _) as [value|]; [|by intros [= <-]].
  destruct (match ca_builders acc !! _ with Some _ => _ | None => _ end) as [found bm].
  intros ([s sm] & _ & Hr)%bind_Ret_inv. injection Hr as <-. by apply same_resources_put.
Qed.

Lemma collectPodMetricsPerContainer_same a st st' err :
  collectPodMetricsPerContainer CheckInterval now format_time cfg a st = Ret (st', err) → same_resources st st'.
Proof using Type.
  unfold collectPodMetricsPerContainer. destruct (an_pod_metrics a) as [pods|e]; [|by intros [= <- _]].
  intros (acc & Ha & Hr)%bind_Ret_inv. injection Hr as <- _. revert Ha.
  apply (foldM_inv (λ acc, same_resources st (ca_state acc))); [done|]. intros acc1 [key d] acc2 _ Hs.
  apply (foldM_inv (λ acc, same_resources st (ca_state acc))); [done|]. intros acc3 p acc4 _ Hs3.
  apply (foldM_inv (λ acc, same_resources st (ca_state acc))); [done|]. intros acc5 c acc6 _ Hs5 Hr.
  etrans; [exact Hs5|]. by eapply collect_container_metric_same.
Qed.

(** ** Properties *)

(** C28: A collection accounts for the cluster: the keys of its resources and of its
    mismatches are those of the listed nodes and of the containers of the listed pods,
    no more and no fewer; and every resource is in a group, whatever the mappings do.
    The metrics, or their failure, change neither. *)
Theorem cluster_collected a st :
  collect_state CheckInterval now wide_letter format_time cfg a = Ret (Val st) →
  grouped st ∧ ∃ nodes pods, an_nodes a = Val nodes ∧ an_pods a = Val pods ∧
  ∀ key, known st key ↔
    (∃ n, n ∈ nodes ∧ key = node_state_key n) ∨ (∃ p, p ∈ pods ∧ container_of p key).
Proof using Type.
  unfold collect_state, collectNodeInventory, collectPodInventory. intros (r & Hr & Hc)%bind_Ret_inv.
  destruct (an_nodes a) as [nodes|e]; [|by injection Hr as <-].
  apply bind_Ret_inv in Hr as (st1 & H1 & Hr). injection Hr as <-.
  apply bind_Ret_inv in Hc as (r & Hr & Hc). destruct (an_pods a) as [pods|e]; [|by injection Hr as <-].
  apply bind_Ret_inv in Hr as ([st2 groupsMap] & H2 & Hr). injection Hr as <-.
  apply bind_Ret_inv in Hc as ([st3 e3] & H3%collectNodeMetrics_same & Hc).
  apply bind_Ret_inv in Hc as ([st4 e4] & H4%collectPodMetricsPerContainer_same & Hc). injection Hc as <-.
  assert (same_resources st2 st4) as Hs by by etrans.
  assert (grouped st1) as Hg1.
  { revert H1. apply (foldM_inv grouped); [by intros ???|]. intros s n s' _ Hs0 Hn. by eapply collect_node_grouped. }
  split.
  - apply (same_resources_grouped _ _ Hs).
    assert (placed (st2, groupsMap)) as [? _]; [|done]. revert H2. apply (foldM_inv placed); [by split|].
    intros s p s' _ Hs0 Hp. by eapply collect_pod_placed.
  - exists nodes, pods. split; [done|]. split; [done|]. intros key.
    rewrite (same_resources_known _ _ _ Hs).
    apply (foldM_collects (λ acc k, known acc.1 k) container_of _ _ _ _ key) in H2;
      [|intros; by apply collect_pod_known]. cbn [fst] in H2. rewrite H2.
    apply (foldM_collects known (λ n k, k = node_state_key n) _ _ _ _ key) in H1;
      [|intros; by eapply collect_node_known].
    rewrite H1. assert (known empty_state key ↔ False) as -> by (split; [|done]; intros [[? ?]|[? ?]]; done). tauto.
Qed.
End collect_lemmas.

(** *** Reservations *)

Section reservations.
Context {Q : Type} {HQ : Quantities Q}.

Definition request (name : string) (value : Q → Z) (c : Container Q) : Z :=
  match ct_Requests c !! name with Some q => value q | None => 0%Z end.

(** The requests of a list of containers, as integers without bound. *)
Definition total (name : string) (value : Q → Z) (cs : list (Container Q)) : Z :=
  foldr (λ c z, (request name value c + z)%Z) 0%Z cs.

(** The containers of the pods of a node that have not finished. *)
Definition running (pods : list (Pod Q)) (node : string) : list (Container Q) :=
  pods ≫= λ p, if finished p || negb (bool_decide (p_NodeName p = node)) then [] else p_Containers p.

Lemma int64_add_l a b : int64 (int64 a + b) = int64 (a + b).
Proof using Type.
  unfold int64, swrap. f_equal.
  replace ((a + 2 ^ (64 - 1)) `mod` 2 ^ 64 - 2 ^ (64 - 1) + b + 2 ^ (64 - 1))%Z
    with ((a + 2 ^ (64 - 1)) `mod` 2 ^ 64 + b)%Z by lia.
  rewrite Zplus_mod_idemp_l. f_equal. lia.
Qed.

Lemma total_requests_app name value cs cs' : total name value (cs ++ cs') = (total name value cs + total name value cs')%Z.
Proof using Type. unfold total. induction cs as [|c cs IH]; [done|]. cbn [app foldr]. rewrite IH. lia. Qed.

Lemma add_requests cs a b :
  foldl add_request (mkReservation (int64 a) (int64 b)) cs =
  mkReservation (int64 (a + total cpu q_MilliValue cs)) (int64 (b + total memory q_Value cs)).
Proof using Type.
  revert a b. induction cs as [|c cs IH]; intros a b; cbn [foldl total foldr]; [by rewrite !Z.add_0_r|].
  fold (total cpu q_MilliValue cs) (total memory q_Value cs).
  assert (add_request (mkReservation (int64 a) (int64 b)) c =
          mkReservation (int64 (a + request cpu q_MilliValue c)) (int64 (b + request memory q_Value c))) as ->.
  { unfold add_request, request. destruct (ct_Requests c !! cpu), (ct_Requests c !! memory); cbn;
      by rewrite ?int64_add_l, ?Z.add_0_r. }
  rewrite IH. by rewrite !Z.add_assoc.
Qed.

(** What a node has reserved is the sum of the requests of the containers of its pods
    that are not finished, within 64 bits. *)
Theorem reservations_sum (pods : list (Pod Q)) (node : string) :
  default no_reservation ((buildNodeReservationMap (Val pods)).1 !! node) =
  mkReservation (int64 (total cpu q_MilliValue (running pods node))) (int64 (total memory q_Value (running pods node))).
Proof using Type.
  unfold buildNodeReservationMap. cbn [fst]. induction pods as [|p pods IH] using rev_ind; [done|].
  rewrite foldl_app. unfold running. rewrite !bind_app, !total_requests_app. fold (running pods node).
  cbn [foldl mbind list_bind]. rewrite app_nil_r. unfold reserve at 1. destruct (finished p); cbn [orb].
  - cbn. by rewrite !Z.add_0_r.
  - destruct (decide (p_NodeName p = node)) as [->|Hne].
    + rewrite bool_decide_true by done. cbn [negb]. rewrite lookup_insert_eq. cbn [default from_option].
      by rewrite IH, add_requests.
    + rewrite bool_decide_false by done. cbn. by rewrite lookup_insert_ne, !Z.add_0_r.
Qed.
End reservations.

(** *** The inventory does not depend on the order of maps *)

#[export] Instance name_le_trans {A} (key : A → string) : Transitive (name_le key).
Proof. intros a b c. apply string_leb_trans. Qed.

#[export] Instance name_le_total {A} (key : A → string) : Total (name_le key).
Proof. intros a b. apply String.leb_total. Qed.

(** A sort that keeps equal names in their order. *)
Definition merge_sort_funcs : SortFuncs.
Proof.
  refine {| sort_func := λ A key l, merge_sort (name_le key) l |}.
  - intros A key l. apply merge_sort_Permutation.
  - intros A key l. apply (StronglySorted_merge_sort _).
Defined.

(** Sorting gives the same list where the names identify the elements. *)
Lemma sort_func_unique (S1 S2 : SortFuncs) {A} (key : A → string) l1 l2 :
  (∀ x y, x ∈ l1 → y ∈ l1 → key x = key y → x = y) → l1 ≡ₚ l2 →
  @sort_func S1 A key l1 = @sort_func S2 A key l2.
Proof.
  intros Hk Hp. apply (StronglySorted_unique_strong (name_le key)).
  - intros x y Hx Hy Hxy Hyx. rewrite (@sort_func_perm S1) in Hx. rewrite (@sort_func_perm S2), <-Hp in Hy.
    apply Hk; [done|done|]. by apply String.leb_antisym.
  - apply (@sort_func_sorted S1).
  - apply (@sort_func_sorted S2).
  - by rewrite (@sort_func_perm S1), (@sort_func_perm S2).
Qed.

(** A group has the name it is kept under, and its members name it as their owner. *)
Definition group_ok (g : string) (group : ResourceGroup) : Prop :=
  rg_GroupName group = g ∧ Forall (λ rf, rf = mkResourceRef (rr_Name rf) ResourceTypeHost g) (rg_Resources group).

Definition groups_ok (st : MonitoredState) : Prop := map_Forall group_ok (st_Groups st).

Lemma add_to_group_ok st g name : groups_ok st → groups_ok (add_to_group st g name).
Proof.
  intros Hg. unfold groups_ok, add_to_group. cbn [st_Groups]. apply map_Forall_insert_2; [|done].
  destruct (st_Groups st !! g) as [group|] eqn:Hl; (split; [|cbn; apply Forall_app || idtac]); cbn; try done.
  - apply (Hg g group Hl).
  - split; [apply (Hg g group Hl)|by repeat constructor].
  - by repeat constructor.
Qed.

Definition values {A} (m : gmap string A) : list A := (map_to_list m).*2.

Definition service_names (r : KubernetesResource) : list (string * string) :=
  (λ s, (bi_Name (ms_BaseInfo s), bi_Owner (ms_BaseInfo s))) <$> values (kr_Services r).

(** Resources of the same name have the same services; services of a resource that
    have the same name have the same owner. *)
Definition consistent (st : MonitoredState) : Prop :=
  (∀ r r', r ∈ values (st_State st) → r' ∈ values (st_State st) → kr_Name r = kr_Name r' →
    service_names r ≡ₚ service_names r') ∧
  (∀ r x y, r ∈ values (st_State st) → x ∈ service_names r → y ∈ service_names r → x.1 = y.1 → x = y).

Lemma map_order_values (O : MapOrder) {A} (m : gmap string A) : (@map_order O _ m).*2 ≡ₚ values m.
Proof. unfold values. by rewrite (@map_order_perm O). Qed.

Lemma inventory_resource_same (O1 O2 : MapOrder) (S1 S2 : SortFuncs) r1 r2 :
  kr_Name r1 = kr_Name r2 → service_names r1 ≡ₚ service_names r2 →
  (∀ x y, x ∈ service_names r1 → y ∈ service_names r1 → x.1 = y.1 → x = y) →
  @inventory_resource O1 S1 r1 = @inventory_resource O2 S2 r2.
Proof.
  intros Hn Hp Hk. unfold inventory_resource. rewrite Hn. f_equal.
  assert (∀ (O : MapOrder) r,
    ((λ s, CreateInventoryService (bi_Name (ms_BaseInfo s)) (bi_Owner (ms_BaseInfo s))) <$> (@map_order O _ (kr_Services r)).*2) ≡ₚ
    ((λ p, CreateInventoryService p.1 p.2) <$> service_names r)) as He.
  { intros O r. rewrite map_order_values. unfold service_names. by rewrite <-list_fmap_compose. }
  apply sort_func_unique; [|by rewrite !He, Hp].
  intros x y. rewrite !He. intros (p & -> & Hx)%list_elem_of_fmap (q & -> & Hy)%list_elem_of_fmap Hxy.
  by rewrite (Hk p q Hx Hy Hxy).
Qed.

(** C29: The inventory and the groups that are sent, and so their checksum, are the same
    for every order of the maps and every sort that is not stable, as long as
    resources that share a name have the same services. *)
Theorem inventory_any_order (O1 O2 : MapOrder) (S1 S2 : SortFuncs) (st : MonitoredState) :
  groups_ok st → consistent st →
  @inventory_list O1 S1 st = @inventory_list O2 S2 st ∧ @group_list O1 S1 st = @group_list O2 S2 st.
Proof.
  intros Hg [Hc Hk]. split.
  - unfold inventory_list. apply sort_func_unique.
    + intros x y. rewrite !map_order_values.
      intros (r & -> & Hr)%list_elem_of_fmap (r' & -> & Hr')%list_elem_of_fmap Hn.
      apply inventory_resource_same; [done|by apply Hc|]. intros p q. by apply Hk.
    + rewrite !map_order_values. apply Permutation_refl'. apply list_fmap_ext. intros i r Hr%list_elem_of_lookup_2.
      apply inventory_resource_same; [done|done|]. intros p q. by apply Hk.
  - unfold group_list. apply sort_func_unique.
    + intros x y. rewrite !map_order_values.
      intros (gr & -> & Hr)%list_elem_of_fmap (gr' & -> & Hr')%list_elem_of_fmap Hn. cbn in Hn.
      f_equal. apply list_elem_of_fmap in Hr as ([g ?] & -> & Hr%elem_of_map_to_list).
      apply list_elem_of_fmap in Hr' as ([g' ?] & -> & Hr'%elem_of_map_to_list). cbn in *.
      destruct (Hg _ _ Hr) as [E _], (Hg _ _ Hr') as [E' _]. cbn in E, E'. subst. rewrite Hn in Hr. congruence.
    + rewrite !map_order_values. apply Permutation_refl'. apply list_fmap_ext. intros i gr Hr%list_elem_of_lookup_2.
      unfold sorted_group. f_equal. apply sort_func_unique; [|done].
      apply list_elem_of_fmap in Hr as ([g ?] & -> & Hr%elem_of_map_to_list). cbn.
      destruct (Hg _ _ Hr) as [_ Hf]. rewrite Forall_forall in Hf. intros x y Hx Hy Hn.
      by rewrite (Hf x Hx), (Hf y Hy), Hn.
Qed.

(** *** Metrics of a service *)

Lemma CreateService_metrics `{MapOrder} CheckInterval now name owner metrics args s :
  args = [] ∨ (∃ p, args = [SvcProperties p]) →
  CreateService CheckInterval now name owner (SvcMetrics metrics :: args) = Ret (Val s) → ms_Metrics s = metrics.
Proof.
  intros Hargs. unfold CreateService. cbn [service_args]. intros (r & Hr & Hs)%bind_Ret_inv.
  apply bind_Ret_inv in Hr as (t & _ & Hr).
  assert (∀ s', r = Val s' → ms_Metrics s' = metrics) as Hm.
  { destruct Hargs as [->|[p ->]]; cbn [service_args] in Hr.
    - by injection Hr as <-; intros s' [= <-].
    - apply bind_Ret_inv in Hr as (b & _ & Hr). by injection Hr as <-; intros s' [= <-]. }
  destruct r as [s'|e]; [|by injection Hs]. apply bind_Ret_inv in Hs as ([status err] & _ & Hs).
  injection Hs as <-. by apply (Hm s').
Qed.

Lemma BuildServiceForMetric_metrics `{MapOrder} CheckInterval now host b s :
  BuildServiceForMetric CheckInterval now host b = Ret (Val s) → length (ms_Metrics s) = 1%nat.
Proof.
  unfold BuildServiceForMetric. intros ([m|e] & _ & Hr)%bind_Ret_inv; [|done].
  apply CreateService_metrics in Hr as ->; [done|right; by eexists].
Qed.

Lemma build_metrics_length now bs ms : build_metrics now bs = Ret (Val ms) → length ms = length bs.
Proof.
  revert ms. induction bs as [|b bs IH]; intros ms; cbn [build_metrics]; [by intros [= <-]|].
  intros ([m|e] & _ & Hr)%bind_Ret_inv; [|done]. apply bind_Ret_inv in Hr as ([l|e] & Hl & Hr); [|done].
  injection Hr as <-. cbn. by rewrite (IH l).
Qed.

Lemma BuildServiceForMultiMetric_metrics `{MapOrder} CheckInterval now host name custom bs s :
  BuildServiceForMultiMetric CheckInterval now host name custom bs = Ret (Val s) → length (ms_Metrics s) = length bs.
Proof.
  unfold BuildServiceForMultiMetric. intros ([ms|e] & Hm & Hr)%bind_Ret_inv; [|done].
  apply CreateService_metrics in Hr as ->; [|by left]. by eapply build_metrics_length.
Qed.

Lemma service_text_metrics format_time s middle s' :
  service_text format_time s middle = Ret s' → ms_Metrics s' = ms_Metrics s.
Proof. unfold service_text. intros (t & _ & Hr)%bind_Ret_inv. by injection Hr as <-. Qed.

Definition short (n : nat) (services : gmap string MonitoredService) : Prop :=
  map_Forall (λ _ s, (1 ≤ length (ms_Metrics s) ≤ n)%nat) services.

Definition short_state (n : nat) (st : MonitoredState) : Prop := map_Forall (λ _ r, short n (kr_Services r)) (st_State st).

Section metrics_lemmas.
Context {HO : MapOrder} {HS : SortFuncs} (CheckInterval : Z) (now : Timestamp).
Context {Q : Type} {HQ : Quantities Q} (wide_letter : string → nat) {R : Type} {HR : Regexps R}.
Context (format_time : Timestamp → string) (cfg : ExtConfig R).

Lemma add_node_service_short comma host time services key d value services' :
  add_node_service CheckInterval now format_time comma host time services key d value = Ret services' →
  short 1 services → short 1 services'.
Proof using Type.
  unfold add_node_service. intros (r & Hr & Hs)%bind_Ret_inv Hp. destruct r as [s|e]; [|by injection Hs as <-].
  apply BuildServiceForMetric_metrics in Hr. apply bind_Ret_inv in Hs as (s' & Ht & Hs). injection Hs as <-.
  apply map_Forall_insert_2; [|done]. apply service_text_metrics in Ht. by rewrite Ht, Hr.
Qed.

Lemma put_resource_short n st key r : short_state n st → short n (kr_Services r) → short_state n (put_resource st key r).
Proof using Type. intros Hs Hr. by apply map_Forall_insert_2. Qed.

Lemma node_inventory_short (a : answers Q) st st' :
  collectNodeInventory CheckInterval now wide_letter format_time cfg a st = Ret (Val st') →
  short_state 1 st → groups_ok st → short_state 1 st' ∧ groups_ok st'.
Proof using Type.
  unfold collectNodeInventory. destruct (an_nodes a) as [nodes|e]; [|done].
  intros (st1 & Hf & Hr)%bind_Ret_inv Hs Hg. injection Hr as <-. revert Hf.
  apply (foldM_inv (λ st, short_state 1 st ∧ groups_ok st)); [done|]. clear Hs Hg st.
  intros st n st' _ [Hs Hg]. unfold collect_node.
  intros ([name|] & _ & Hr)%bind_Ret_inv; [|by injection Hr as <-].
  apply bind_Ret_inv in Hr as (g & _ & Hr). destruct (calculateNodeStatus _) as [status message].
  apply bind_Ret_inv in Hr as (services & Hf & Hr). injection Hr as <-. split; [|by apply add_to_group_ok].
  apply put_resource_short; [done|]. cbn [kr_Services]. revert Hf.
  apply (foldM_inv (short 1)); [apply map_Forall_empty|]. intros services' [key d] services'' _ Hp.
  destruct (inventory_value _ _ _ _); [|by intros [= <-]]. intros Hr. by eapply add_node_service_short.
Qed.

Lemma pod_inventory_short (a : answers Q) st st' :
  collectPodInventory wide_letter cfg a true st = Ret (Val st') →
  short_state 1 st → groups_ok st → short_state 1 st' ∧ groups_ok st'.
Proof using Type.
  unfold collectPodInventory. destruct (an_pods a) as [pods|e]; [|done].
  intros ([st1 m1] & Hf & Hr)%bind_Ret_inv Hs Hg. injection Hr as <-.
  change (short_state 1 (st1, m1).1 ∧ groups_ok (st1, m1).1). revert Hf.
  apply (foldM_inv (λ acc, short_state 1 acc.1 ∧ groups_ok acc.1)); [done|]. clear Hs Hg st.
  intros acc p acc' _ Ha. unfold collect_pod. apply (foldM_inv (λ acc, short_state 1 acc.1 ∧ groups_ok acc.1)); [done|].
  clear Ha. intros [st m] c acc1 _ [Hs Hg]. unfold collect_container. destruct (decide _); [by intros [= <-]|].
  destruct (calculatePodStatus _) as [status message]. unfold place.
  intros ([name|] & _ & Hr)%bind_Ret_inv; [|by injection Hr as <-].
  apply bind_Ret_inv in Hr as (g & _ & Hr). injection Hr as <-. unfold addResource. cbn [fst].
  assert (short_state 1 (put_resource st (pod_key (GetLabels [pod_label p; LContainer (ct_Name c)]) (p_Name p) +:+ ":" +:+ ct_Name c)
    (mkResource name ResourceTypeHost status message (GetLabels [pod_label p; LContainer (ct_Name c)]) ∅))) as Hput
    by (apply put_resource_short; [done|apply map_Forall_empty]).
  destruct (decide _); cbn [fst]; (split; [exact Hput|]); [done|by apply add_to_group_ok].
Qed.

Lemma node_metrics_short (a : answers Q) st st' err :
  collectNodeMetrics CheckInterval now format_time cfg a st = Ret (st', err) → short_state 1 st → short_state 1 st'.
Proof using Type.
  unfold collectNodeMetrics. destruct (an_node_metrics a) as [nodes|e]; [|by intros [= <- _]].
  intros (st1 & Hf & Hr)%bind_Ret_inv Hs. injection Hr as <- _. revert Hf.
  apply (foldM_inv (short_state 1)); [done|]. clear Hs st. intros st n st' _ Hs. unfold collect_node_metrics.
  destruct (st_State st !! _) as [r|] eqn:Hl; [|by intros [= <-]].
  intros (services & Hf & Hr)%bind_Ret_inv. injection Hr as <-. apply put_resource_short; [done|]. cbn [kr_Services with_services].
  revert Hf. apply (foldM_inv (short 1)); [by apply (Hs _ _ Hl)|]. intros services' [key d] services'' _ Hp.
  destruct (usage_value _ _); [|by intros [= <-]]. intros Hr. by eapply add_node_service_short.
Qed.

(** No builder is ever kept, and a kept service has its first metric only. *)
Definition acc_ok (acc : container_acc) : Prop :=
  map_Forall (λ _ l, l = []) (ca_builders acc) ∧ short 1 (ca_services acc) ∧ short_state 2 (ca_state acc).

Lemma container_service_short acc smKey host b value d s sm :
  container_service CheckInterval now format_time acc smKey host [b] b value d = Ret (s, sm) →
  short 1 (ca_services acc) → short 1 sm ∧ (1 ≤ length (ms_Metrics s) ≤ 2)%nat.
Proof using Type.
  unfold container_service. destruct (ca_services acc !! smKey) as [s0|] eqn:Hl; intros (r & Hr & Hs)%bind_Ret_inv Hp.
  - destruct r as [m|e]; [|done]. injection Hs as <- <-. split; [done|]. cbn [ms_Metrics]. rewrite length_app. cbn.
    pose proof (map_Forall_lookup_1 _ _ _ _ Hp Hl) as Hn. cbn in Hn. lia.
  - destruct r as [s1|e]; [|done]. apply BuildServiceForMultiMetric_metrics in Hr.
    apply bind_Ret_inv in Hs as (s2 & Ht & Hs). injection Hs as <- <-. unfold multi_output in Ht.
    apply service_text_metrics in Ht. split; [apply map_Forall_insert_2; [|done]|]; rewrite Ht, Hr; cbn; lia.
Qed.

Lemma collect_container_metric_ok key d (p : PodMetrics Q) acc c acc' :
  collect_container_metric CheckInterval now format_time key d p acc c = Ret acc' → acc_ok acc → acc_ok acc'.
Proof using Type.
  unfold collect_container_metric. destruct (decide _); [by intros [= <-]|]. cbv zeta.
  destruct (st_State _ !! _) as [r|] eqn:Hl; [|by intros [= <-]].
  destruct (container_value _ _) as [value|]; [|by intros [= <-]]. intros Hr (Hb & Hs & Hst).
  assert (∃ bm, match ca_builders acc !! kr_Name r with
                | Some l => (l, ca_builders acc) | None => ([], <[kr_Name r := []]> (ca_builders acc)) end = ([], bm) ∧
                map_Forall (λ _ l, l = []) bm) as (bm & Hm & Hbm).
  { destruct (ca_builders acc !! kr_Name r) as [l|] eqn:Hk; [|eexists; split; [done|by apply map_Forall_insert_2]].
    rewrite (map_Forall_lookup_1 _ _ _ _ Hb Hk). by eexists. }
  rewrite Hm in Hr. cbn [app] in Hr. apply bind_Ret_inv in Hr as ([s sm] & Hc & Hr). injection Hr as <-.
  apply container_service_short in Hc as [Hsm Hlen]; [|done]. split; [done|]. split; [done|].
  cbn [ca_state]. apply put_resource_short; [done|]. cbn [kr_Services with_services]. apply map_Forall_insert_2; [done|].
  apply (Hst _ _ Hl).
Qed.

(** The replicas of a container do not add up: a service has the metric of the first
    container of its resource's name, and at most one more.  (The builders that were
    to collect them are stored before the new one is appended, and the stored service
    is never replaced.) *)
Theorem at_most_two_metrics (a : answers Q) st :
  collect_state CheckInterval now wide_letter format_time cfg a = Ret (Val st) → short_state 2 st ∧ groups_ok st.
Proof using Type.
  unfold collect_state. intros ([st1|e] & H1 & Hc)%bind_Ret_inv; [|done].
  apply node_inventory_short in H1 as [S1 G1]; [|apply map_Forall_empty..].
  apply bind_Ret_inv in Hc as ([st2|e] & H2 & Hc); [|done]. apply pod_inventory_short in H2 as [S2 G2]; [|done..].
  apply bind_Ret_inv in Hc as ([st3 e3] & H3 & Hc). pose proof (collectNodeMetrics_same _ _ _ _ _ _ _ _ H3) as (G3 & _).
  apply node_metrics_short in H3; [|done].
  apply bind_Ret_inv in Hc as ([st4 e4] & H4 & Hc). injection Hc as <-.
  pose proof (collectPodMetricsPerContainer_same _ _ _ _ _ _ _ _ H4) as (G4 & _).
  split; [|unfold groups_ok; by rewrite G4, G3].
  assert (short_state 2 st3) as Hs3.
  { intros k r Hr. eapply map_Forall_impl; [apply (H3 k r Hr)|]. cbn. lia. }
  revert H4. unfold collectPodMetricsPerContainer. destruct (an_pod_metrics a) as [pods|e]; [|by intros [= <- _]].
  intros (acc & Ha & Hr)%bind_Ret_inv. injection Hr as <- _.
  assert (acc_ok acc) as (_ & _ & ?); [|done]. revert Ha.
  apply (foldM_inv acc_ok); [split; [apply map_Forall_empty|split; [apply map_Forall_empty|done]]|].
  intros acc1 [key d] acc2 _ Hs. apply (foldM_inv acc_ok); [done|]. intros acc3 p acc4 _ Hs4.
  apply (foldM_inv acc_ok); [done|]. intros acc5 c acc6 _ Hs5 Hr. by eapply collect_container_metric_ok.
Qed.
End metrics_lemmas.

(** *** Rounds *)

Section rounds.
Context {R : Type} (yaml : string → result error KubernetesYaml).
Context (NewForConfig ServerVersion NewMetricsForConfig : RestConfig → option error).
Context (inventory_sum : list InventoryResource → list ResourceGroup → result error string).
Context {S : Type} (SendInventory : S → list InventoryResource → list ResourceGroup → HostOwnershipType → outcome S).
Context (SendMetrics : S → list MonitoredResource → list ResourceGroup → Expr.run S).

#[local] Abbreviation round collect :=
  (periodicHandler yaml NewForConfig ServerVersion NewMetricsForConfig (λ _ : ExtConfig R, Ret collect)
     inventory_sum SendInventory SendMetrics).

Lemma Initialize_ready (c : KubernetesConnector R) insecure c' insecure' err :
  Initialize yaml NewForConfig ServerVersion NewMetricsForConfig c insecure = (c', insecure', err) →
  match err with Some _ => c' = c | None => kc_ready c' = true end.
Proof using Type.
  unfold Initialize. destruct (rest_config _ _ _) as [k|e]; [|by intros [= <- _ <-]].
  destruct (NewForConfig k); [by intros [= <- _ <-]|]. destruct (ServerVersion k); [by intros [= <- _ <-]|].
  destruct (NewMetricsForConfig k); [by intros [= <- _ <-]|]. by intros [= <- _ <-].
Qed.

(** A round that has sent its metrics remembers its inventory: the next round sends the
    metrics alone when inventory and groups have the same sum, whatever the metrics
    are. *)
Theorem inventory_sent_once (c c' : KubernetesConnector R) insecure insecure' s s' inv groups metrics chk inv' groups' metrics' :
  inventory_sum inv groups = Val chk → inventory_sum inv' groups' = Val chk →
  round (Val (inv, metrics, groups)) c insecure s = RRet (c', insecure', s') → kc_ready c' = true →
  round (Val (inv', metrics', groups')) c' insecure' s' =
  (s'' ← SendMetrics s' metrics' groups'; RRet (c', insecure', s'')).
Proof using Type.
  intros H1 H2 Hr Hready. unfold periodicHandler at 1 in Hr.
  destruct (if kc_ready c then (c, insecure, None) else _) as [[c1 i1] err] eqn:Hi. destruct err as [e|].
  { destruct (kc_ready c) eqn:Hk; [done|]. apply Initialize_ready in Hi as ->. injection Hr as <- _ _. congruence. }
  cbn [lift_o mbind run_bind] in Hr. rewrite H1 in Hr.
  destruct (if bool_decide _ then _ else _) as [s1|w|]; [|done..]. cbn [mbind run_bind] in Hr.
  destruct (SendMetrics s1 metrics groups) as [s2|w|]; [|done..]. injection Hr as <- <- <-. cbn [kc_ready] in Hready.
  unfold periodicHandler. cbn [kc_ready lift_o mbind run_bind kc_config kc_iChksum]. rewrite Hready, H2.
  by rewrite bool_decide_false by tauto.
Qed.
End rounds.

(** ** A concrete cluster *)

(** Quantities as thousandths, rounded up. *)
Definition milli_quantities : Quantities Z :=
  {| q_zero := 0%Z; q_Value z := (- (- z / 1000))%Z; q_MilliValue z := z |}.

Definition reverse_order : MapOrder.
Proof.
  refine {| map_order := λ A m, reverse (map_to_list m) |}. intros A m. apply reverse_Permutation.
Defined.

Definition sample_definition : MetricDefinition :=
  mkMetricDefinition "cpu" "" "" true false "" "" ViewPods "" "" 200 500 "" "".

Definition sample_config : ExtConfig unit :=
  mkExtConfig "" {[ViewPods := {[cpu := sample_definition]}]} Yield InCluster false "" "" "" "" [] [].

Definition sample_condition : Condition := mkCondition NodeReady ConditionTrue "ready".

Definition sample_node : Node Z := mkNode "n1" "" ∅ {[cpu := 2000%Z]} [sample_condition].

Definition sample_pod (name : string) : Pod Z :=
  mkPod name "shop" ∅ "n1" "Running" [mkContainer "web" {[cpu := 250%Z]}] [sample_condition].

Definition sample_metrics (name : string) (used : Z) : PodMetrics Z :=
  mkPodMetrics name "shop" ∅ (mkTimestamp 100 0 UTCLoc) [mkContainerMetrics "web" {[cpu := used]}].

(** Two replicas, of which the second uses more than the critical threshold. *)
Definition sample_answers : answers Z :=
  mkAnswers (Val [sample_node]) (Val [sample_pod "web-1"; sample_pod "web-2"]) (Val [sample_pod "web-1"; sample_pod "web-2"])
    (Fail (Opaque "no metrics")) (Val [sample_metrics "web-1" 100; sample_metrics "web-2" 900]).

Definition sample_state : outcome (result error MonitoredState) :=
  @collect_state sorted_order DefaultCheckInterval (mkTimestamp 100 0 LocalLoc) Z milli_quantities (λ _, 0%nat)
    unit whole (λ _, "") sample_config sample_answers.

(** What is sent for a key: the name of the resource, and for its service of CPU the
    status and the values. *)
Definition sent (key : string) : option (string * MonitorStatus * list (option Z)) :=
  match sample_state with
  | Ret (Val st) =>
      r ← st_State st !! key; s ← kr_Services r !! "cpu";
      Some (kr_Name r, mi_Status (ms_MonitoredInfo s), (λ m, v ← ts_Value m; tv_IntegerValue v) <$> ms_Metrics s)
  | _ => None
  end.

(** The replica over its threshold is reported with the status of the first one. *)
Example replica_status_ignored :
  sent "pod:shop:web-1:web" = Some ("web", ServiceOk, [Some 100%Z]) ∧
  sent "pod:shop:web-2:web" = Some ("web", ServiceOk, [Some 100%Z; Some 900%Z]).
Proof. by vm_compute. Qed.

Lemma cluster_collected_witness :
  ∃ st, sample_state = Ret (Val st) ∧ grouped st ∧ known st "node:default:n1" ∧ ¬ known st "pod:shop:web-3:web".
Proof.
  destruct sample_state as [[st|e]|w] eqn:Hs; [|exfalso; vm_compute in Hs; discriminate..].
  exists st. split; [done|].
  destruct (@cluster_collected sorted_order DefaultCheckInterval (mkTimestamp 100 0 LocalLoc) Z milli_quantities
    (λ _, 0%nat) unit whole (λ _, "") sample_config sample_answers st Hs) as (Hg & nodes & pods & [= <-] & [= <-] & Hk).
  split; [exact Hg|]. split.
  - apply Hk. left. exists sample_node. split; [apply list_elem_of_singleton; reflexivity|vm_compute; reflexivity].
  - rewrite Hk. intros [(n & ->%list_elem_of_singleton & He)|(p & Hp & c & Hc & _ & He)]; [vm_compute in He; discriminate|].
    apply elem_of_cons in Hp as [Hp|Hp%list_elem_of_singleton]; subst p;
      apply list_elem_of_singleton in Hc; subst c; vm_compute in He; discriminate.
Defined.

(** Two resources of one name: the second replica has no metrics yet. *)
Definition young_state : MonitoredState :=
  let r services := mkResource "web" ResourceTypeHost HostUp "" ∅ services in
  let s := mkMonitoredService (named_info "cpu" ResourceTypeService "web") (mkMonitoredInfo ServiceOk None None "") [] in
  mkState (<["pod:shop:web-1:web" := r {["cpu" := s]}]> {["pod:shop:web-2:web" := r ∅]}) ∅ ∅.

(** Then the inventory depends on the order of the map, although it is sorted for the
    sake of its checksum. *)
Example inventory_of_replicas :
  @inventory_list sorted_order merge_sort_funcs young_state ≠ @inventory_list reverse_order merge_sort_funcs young_state.
Proof. intros He%(f_equal (fmap (λ r, length (ir_Services r)))). vm_compute in He. discriminate. Qed.

Lemma inventory_any_order_witness :
  ∃ st, sample_state = Ret (Val st) ∧
  @inventory_list sorted_order merge_sort_funcs st = @inventory_list reverse_order merge_sort_funcs st ∧
  length (@inventory_list reverse_order merge_sort_funcs st) = 3%nat.
Proof.
  destruct sample_state as [[st|e]|w] eqn:Hs; [|exfalso; vm_compute in Hs; discriminate..].
  exists st. split; [done|].
  assert (match sample_state with
          | Ret (Val st) =>
              bool_decide (Forall (λ r, Forall (λ r', kr_Name r = kr_Name r' → service_names r = service_names r')
                                         (values (st_State st))) (values (st_State st))) &&
              bool_decide (Forall (λ r, Forall (λ x, Forall (λ y, x.1 = y.1 → x = y) (service_names r)) (service_names r))
                             (values (st_State st))) &&
              bool_decide (length (@inventory_list reverse_order merge_sort_funcs st) = 3%nat)
          | _ => false
          end = true) as Hv by (vm_compute; reflexivity).
  rewrite Hs in Hv. apply andb_prop in Hv as [[H1%bool_decide_eq_true H2%bool_decide_eq_true]%andb_prop H3%bool_decide_eq_true].
  split; [|exact H3].
  apply (inventory_any_order sorted_order reverse_order merge_sort_funcs merge_sort_funcs).
  - apply (@at_most_two_metrics sorted_order DefaultCheckInterval (mkTimestamp 100 0 LocalLoc) Z milli_quantities
      (λ _, 0%nat) unit whole (λ _, "") sample_config sample_answers _ Hs).
  - split.
    + intros r r' Hr Hr' Hn. rewrite Forall_forall in H1. specialize (H1 r Hr). rewrite Forall_forall in H1.
      rewrite (H1 r' Hr' Hn). reflexivity.
    + intros r x y Hr Hx Hy. rewrite Forall_forall in H2. specialize (H2 r Hr). rewrite Forall_forall in H2.
      specialize (H2 x Hx). rewrite Forall_forall in H2. exact (H2 y Hy).
Defined.
