(* ===== verification/Apm.v ===== *)
(** connectors/apm: metrics in the formats of Prometheus.

    The text parser, the decoders of Snappy and Protobuf and the requests are
    arguments; what they produce has the fields the connector reads.  The patterns of
    the label mappings are those of [Mapping.Regexps]. *)

From S2P Require Import Prelude.
From stdpp Require Import pretty.
From S2P Require Import GoString.
From S2P Require Import GoFloat.
From S2P Require Import FloatText.
From S2P Require Import Errors.
From S2P Require Import Timestamp.
From S2P Require Import TypedValue.
From S2P Require Import Transit.
From S2P Require Import Status.
From S2P Require Import Codec.
From S2P Require Import Batcher.
From S2P Require Import Http.
From S2P Require Import Nats.
From S2P Require Import Clients.
From S2P Require Import Tracer.
From S2P Require Import TransitService.
From S2P Require Import Expr.
From S2P Require Import StatusText.
From S2P Require Import Connectors.
From S2P Require Import Mapping.

Local Open Scope string_scope.

(** ** Families of metrics *)

Inductive MetricType := COUNTER | GAUGE | SUMMARY | UNTYPED | HISTOGRAM | GAUGE_HISTOGRAM.

Record Histogram := mkHistogram {
  hg_SampleSum : option float64;
  hg_SampleCount : option Z;
  (** The cumulative counts of the buckets. *)
  hg_Bucket : list Z;
}.

Record Metric := mkMetric {
  mt_Label : list (string * string);
  mt_Counter : option float64;
  mt_Untyped : option float64;
  mt_Gauge : option float64;
  mt_Histogram : option Histogram;
  mt_TimestampMs : option Z;
}.

Record MetricFamily := mkFamily {
  mf_Name : option string;
  mf_Type : option MetricType;
  mf_Metric : list Metric;
}.

(** A series of a write request: labels, and samples with their time stamps. *)
Record TimeSeries_ := mkSeries { sr_Labels : list (string * string); sr_Samples : list (float64 * Z) }.

(** ** Configuration *)

Record Resource := mkResource {
  rs_Headers : gmap string string;
  rs_URL : string;
  rs_DefaultHost : string;
  rs_DefaultHostGroup : string;
}.

(** [Resource.UnmarshalJSON] of the decoded text: the headers become a map. *)
Record resource_dto := mkResourceDto {
  rd_Headers : list (string * string);
  rd_URL : string;
  rd_DefaultHost : string;
  rd_DefaultHostGroup : string;
}.

Definition Resource_UnmarshalJSON (r : Resource) (decoded : result error resource_dto) : result error Resource :=
  d ← decoded;
  Val (mkResource (foldl (λ m h, <[h.1 := h.2]> m) (rs_Headers r) (rd_Headers d)) (rd_URL d) (rd_DefaultHost d)
         (rd_DefaultHostGroup d)).

Record ExtConfig := mkExtConfig {
  ec_Resources : list Resource;
  ec_CheckInterval : Z;
  ec_Ownership : HostOwnershipType;
}.

(** [ExtConfig.UnmarshalJSON]: a new interval is a number of minutes. *)
Definition ExtConfig_UnmarshalJSON (cfg : ExtConfig) (decoded : result error ExtConfig) : result error ExtConfig :=
  c ← decoded;
  Val (mkExtConfig (ec_Resources c)
         (if decide (ec_CheckInterval c ≠ ec_CheckInterval cfg) then int64 (ec_CheckInterval c * Minute)
          else ec_CheckInterval c)
         (ec_Ownership c)).

Definition defaultHostName : string := "APM-Host".
Definition defaultHostGroupName : string := "Servers".

(** *** Mappings *)

Record LabelMapping (R : Type) := mkLabelMapping { lm_Mapping : Transit.Mapping; lm_Regexp : option R }.
Arguments mkLabelMapping {R}. Arguments lm_Mapping {R}. Arguments lm_Regexp {R}.

(** The mappings of the configuration; the patterns of the resources are not compiled. *)
Record Mappings (R : Type) := mkMappings {
  mp_Resource : list Transit.Mapping;
  mp_HostLabel : list (LabelMapping R);
  mp_ServiceLabel : list (LabelMapping R);
}.
Arguments mkMappings {R}. Arguments mp_Resource {R}. Arguments mp_HostLabel {R}. Arguments mp_ServiceLabel {R}.

Section mappings.
Context `{MapOrder} {R : Type} `{Regexps R}.
(** [url.Parse(resource)] and its host without the port. *)
Context (url_host : string → result error string).

Definition MustCompile (m : Transit.Mapping) : outcome (LabelMapping R) :=
  match re_compile (map_Source m) with
  | Val r => Ret (mkLabelMapping m (Some r))
  | Fail _ => Panic "regexp: Compile"
  end.

(** [unmarshalMappings] of the decoded mappings. *)
Definition unmarshalMappings (decoded : result error Transit.Mappings) : outcome (result error (Mappings R)) :=
  match decoded with
  | Fail e => Ret (Fail e)
  | Val m =>
      hosts ← mapM_o MustCompile (maps_HostLabel m);
      svcs ← mapM_o MustCompile (maps_ServiceLabel m);
      Ret (Val (mkMappings (maps_Resource m) hosts svcs))
  end.

(** The first enabled mapping of the resource; an address without a host ends the
    search. *)
Fixpoint applyResourceMapping (mappings : list Transit.Mapping) (resource : string) : option string :=
  match mappings with
  | [] => None
  | m :: mappings =>
      if decide (map_Source m = resource ∧ map_Enabled m = true) then
        if Contains (map_Destination m) "$1" then
          match url_host resource with
          | Fail _ => None
          | Val host => Some (ReplaceAll (map_Destination m) "$1" host)
          end
        else Some (map_Destination m)
      else applyResourceMapping mappings resource
  end.

(** The labels that match one mapping, in the order of the map. *)
Fixpoint match_label (m : LabelMapping R) (labels : list (string * string)) : outcome (option string) :=
  match labels with
  | [] => Ret None
  | (key, value) :: labels =>
      re ← deref (lm_Regexp m);
      match re_find_all re key with
      | Some _ =>
          if map_Enabled (lm_Mapping m) then Ret (Some (ReplaceAll (map_Destination (lm_Mapping m)) "$1" value))
          else match_label m labels
      | None => match_label m labels
      end
  end.

Fixpoint match_labels (mappings : list (LabelMapping R)) (labels : gmap string string) : outcome (option string) :=
  match mappings with
  | [] => Ret None
  | m :: mappings =>
      r ← match_label m (map_order labels);
      match r with Some s => Ret (Some s) | None => match_labels mappings labels end
  end.

(** [applyLabelMapping]: the last mapping first. *)
Definition applyLabelMapping (mappings : list (LabelMapping R)) (labels : gmap string string) : outcome (option string) :=
  match_labels (rev mappings) labels.
End mappings.

(** ** Values *)

Definition bucket_name (serviceName : string) (i : nat) : string :=
  serviceName +:+ "_bucket_" +:+ FormatInt (Z.of_nat i).

Definition histogram_values (serviceName : string) (h : Histogram) : gmap string float64 :=
  let m := match hg_SampleSum h with Some x => {[serviceName +:+ "_sample_sum" := x]} | None => ∅ end in
  let m := match hg_SampleCount h with
    | Some n => <[serviceName +:+ "_sample_count" := f_of_Z n]> m
    | None => m
    end in
  foldl (λ m ib, <[bucket_name serviceName ib.1 := f_of_Z ib.2]> m) m (imap pair (hg_Bucket h)).

Definition makeValue (serviceName : string) (type : option MetricType) (m : Metric) : outcome (gmap string float64) :=
  type ← deref type;
  match type with
  | COUNTER => Ret {[serviceName := default f_zero (mt_Counter m)]}
  | UNTYPED => Ret {[serviceName := default f_zero (mt_Untyped m)]}
  | GAUGE => Ret {[serviceName := default f_zero (mt_Gauge m)]}
  | HISTOGRAM => h ← deref (mt_Histogram m); Ret (histogram_values serviceName h)
  | SUMMARY | GAUGE_HISTOGRAM => Ret ∅
  end.

(** [time.Unix(0, ms * int64(time.Millisecond))] *)
Definition from_ms (ms : Z) : Timestamp :=
  let ns := int64 (ms * 10 ^ 6) in mkTimestamp (ns / 10 ^ 9) (ns `mod` 10 ^ 9) LocalLoc.

(** *** One metric *)

(** The variables of the loop over the values of a metric: they keep their contents
    from one value to the next. *)
Record names := mkNames { nm_group : string; nm_host : string; nm_service : string; nm_device : string }.

Definition threshold (value : string) : any :=
  match ParseFloat value with Val x => AFloat64 x | Fail _ => AInt KInt (-1) end.

(** The fields of the builder that labels and overrides set. *)
Definition set_unit (b : MetricBuilder) (u : string) : MetricBuilder :=
  mkMetricBuilder (mb_Name b) (mb_CustomName b) (mb_ComputeType b) (mb_Expression b) (mb_Value b) (Some (ArgString u))
    (mb_Warning b) (mb_Critical b) (mb_StartTimestamp b) (mb_EndTimestamp b) (mb_Graphed b) (mb_Tags b).

Definition set_thresholds (b : MetricBuilder) (warning critical : any) : MetricBuilder :=
  mkMetricBuilder (mb_Name b) (mb_CustomName b) (mb_ComputeType b) (mb_Expression b) (mb_Value b) (mb_UnitType b)
    warning critical (mb_StartTimestamp b) (mb_EndTimestamp b) (mb_Graphed b) (mb_Tags b).

Definition set_tags (b : MetricBuilder) (tags : gmap string string) : MetricBuilder :=
  mkMetricBuilder (mb_Name b) (mb_CustomName b) (mb_ComputeType b) (mb_Expression b) (mb_Value b) (mb_UnitType b)
    (mb_Warning b) (mb_Critical b) (mb_StartTimestamp b) (mb_EndTimestamp b) (mb_Graphed b) tags.

Definition set_name (b : MetricBuilder) (name : string) (graphed : bool) : MetricBuilder :=
  mkMetricBuilder name (mb_CustomName b) (mb_ComputeType b) (mb_Expression b) (mb_Value b) (mb_UnitType b)
    (mb_Warning b) (mb_Critical b) (mb_StartTimestamp b) (mb_EndTimestamp b) graphed (mb_Tags b).

Definition apply_label (acc : names * MetricBuilder) (label : string * string) : names * MetricBuilder :=
  let '(n, b) := acc in
  let '(name, value) := label in
  if decide (name = "unitType") then (n, set_unit b value)
  else if decide (name = "resource") then (mkNames (nm_group n) value (nm_service n) (nm_device n), b)
  else if decide (name = "warning") then (n, set_thresholds b (threshold value) (mb_Critical b))
  else if decide (name = "critical") then (n, set_thresholds b (mb_Warning b) (threshold value))
  else if decide (name = "service") then (mkNames (nm_group n) (nm_host n) value (nm_device n), b)
  else if decide (name = "group") then (mkNames value (nm_host n) (nm_service n) (nm_device n), b)
  else if decide (name = "device") then (mkNames (nm_group n) (nm_host n) (nm_service n) value, b)
  else (n, set_tags b (<[name := value]> (mb_Tags b))).

(** [getOverrides]: the first metric of the profile with the name. *)
Definition getOverrides (profile : list MetricDefinition) (metricName : string) : option MetricDefinition :=
  List.find (λ d, bool_decide (mdef_Name d = metricName)) profile.

Definition apply_overrides (profile : list MetricDefinition) (name : string) (b : MetricBuilder) : MetricBuilder :=
  match getOverrides profile name with
  | None => b
  | Some d =>
      let b := if decide (mdef_CustomName d ≠ "") then set_name b (mdef_CustomName d) (mdef_Graphed d)
               else set_name b (mb_Name b) (mdef_Graphed d) in
      set_thresholds b
        (if decide (mdef_WarningThreshold d ≠ -1)%Z then AInt KInt (mdef_WarningThreshold d) else mb_Warning b)
        (if decide (mdef_CriticalThreshold d ≠ -1)%Z then AInt KInt (mdef_CriticalThreshold d) else mb_Critical b)
  end.

(** The trees that a request builds: groups, hosts with their services, devices. *)
Record trees := mkTrees {
  tr_groups : gmap string (list ResourceRef);
  tr_hosts : gmap string (gmap string (list MetricBuilder));
  tr_devices : gmap string string;
}.

Definition containsRef (refs : list ResourceRef) (hostName : string) : bool :=
  existsb (λ r, bool_decide (rr_Name r = hostName)) refs.

Definition add_to_trees (t : trees) (groupName hostName serviceName : string) (b : MetricBuilder) : trees :=
  let host := default ∅ (tr_hosts t !! hostName) in
  let refs := default [] (tr_groups t !! groupName) in
  mkTrees
    (<[groupName := if containsRef refs hostName then refs
                    else (refs ++ [mkResourceRef hostName ResourceTypeHost ""])%list]> (tr_groups t))
    (<[hostName := <[serviceName := (default [] (host !! serviceName) ++ [b])%list]> host]> (tr_hosts t))
    (tr_devices t).

Definition or_default (s d : string) : string := if decide (s = "") then d else s.

(** ** Extraction *)

(** The variables of the package; the mappings are a pointer that a configuration
    without mappings leaves nil. *)
Record apm_vars (R : Type) := mkVars {
  av_config : ExtConfig;
  av_profile : list MetricDefinition;
  av_mappings : option (Mappings R);
  av_available : gmap string (list string);
  av_inventoryGroups : gmap string (gmap string (list ResourceRef));
}.
Arguments mkVars {R}. Arguments av_config {R}. Arguments av_profile {R}. Arguments av_mappings {R}.
Arguments av_available {R}. Arguments av_inventoryGroups {R}.

Section extract.
Context `{MapOrder} (CheckInterval : Z) (now : Timestamp) {R : Type} `{Regexps R}.
Context (url_host : string → result error string).
Context (profile : list MetricDefinition) (mappings : option (Mappings R)).
(** The address a pull has asked and its place in the configuration; a push has none.
    The place is looked up for every value. *)
Context (resource : string) (source : outcome (option Resource)).

Definition map_names (n : names) (tags : gmap string string) : outcome names :=
  m ← deref mappings;
  let host := default (nm_host n) (applyResourceMapping url_host (mp_Resource m) resource) in
  h ← applyLabelMapping (mp_HostLabel m) tags;
  s ← applyLabelMapping (mp_ServiceLabel m) tags;
  Ret (mkNames (nm_group n) (default host h) (default (nm_service n) s) (nm_device n)).

Definition default_names (source : option Resource) (name : string) (n : names) : names :=
  mkNames
    (or_default (nm_group n) (from_option (λ r, or_default (rs_DefaultHostGroup r) defaultHostGroupName) defaultHostGroupName source))
    (or_default (nm_host n) (from_option (λ r, or_default (rs_DefaultHost r) defaultHostName) defaultHostName source))
    (or_default (nm_service n) name) (nm_device n).

(** The body of the loop over the values of a metric: the names are those the value
    before has left. *)
Definition extract_value (labels : list (string * string)) (timestamp : Timestamp) (acc : names * trees)
    (kv : string * float64) : outcome (names * trees) :=
  let '(n, t) := acc in
  let '(name, value) := kv in
  let b := mkMetricBuilder name "" "" "" (AFloat64 value) None ANil ANil (Some timestamp) (Some timestamp) true ∅ in
  let '(n, b) := foldl apply_label (n, b) labels in
  let b := apply_overrides profile name b in
  n ← map_names n (mb_Tags b);
  source ← source;
  let n := default_names source name n in
  let t := mkTrees (tr_groups t) (tr_hosts t) (<[nm_host n := nm_device n]> (tr_devices t)) in
  host ← SanitizeString (nm_host n);
  service ← SanitizeString (nm_service n);
  Ret (mkNames (nm_group n) host service (nm_device n), add_to_trees t (nm_group n) host service b).

Definition extract_metric (serviceName : string) (type : option MetricType) (t : trees) (m : Metric) : outcome trees :=
  let timestamp := match mt_TimestampMs m with Some ms => from_ms ms | None => NewTimestamp now end in
  vals ← makeValue serviceName type m;
  '(_, t) ← foldM (extract_value (mt_Label m) timestamp) (mkNames "" "" "" "", t) (map_order vals);
  Ret t.

(** [extractIntoMetricBuilders] *)
Definition extractIntoMetricBuilders (t : trees) (f : MetricFamily) : outcome trees :=
  foldM (λ t m, name ← deref (mf_Name f); extract_metric name (mf_Type f) t m) t (mf_Metric f).

(** A family without metrics or without a name is left out. *)
Definition extract_family (t : trees) (f : MetricFamily) : outcome trees :=
  match mf_Metric f, mf_Name f with
  | [], _ => Ret t
  | _, None => Ret t
  | _, Some _ => extractIntoMetricBuilders t f
  end.

(** ** Services *)

Definition parseStatus (str : string) : option MonitorStatus :=
  let s := upper str in
  if decide (s ∈ ["OK"; "SERVICE_OK"]) then Some ServiceOk
  else if decide (s ∈ ["WARNING"; "SERVICE_WARNING"]) then Some ServiceWarning
  else if decide (s ∈ ["CRITICAL"; "UNSCHEDULED_CRITICAL"; "SERVICE_UNSCHEDULED_CRITICAL"]) then Some ServiceUnscheduledCritical
  else if decide (s ∈ ["PENDING"; "SERVICE_PENDING"]) then Some ServicePending
  else if decide (s ∈ ["SCHEDULED_CRITICAL"; "SERVICE_SCHEDULED_CRITICAL"]) then Some ServiceScheduledCritical
  else if decide (s ∈ ["UNKNOWN"; "SERVICE_UNKNOWN"]) then Some ServiceUnknown
  else None.

(** The status a builder's tags ask for. *)
Definition tagged_status (b : MetricBuilder) : option MonitorStatus := status ← mb_Tags b !! "status"; parseStatus status.

Definition worse (mStatus : option MonitorStatus) (b : MetricBuilder) : option MonitorStatus :=
  match tagged_status b with
  | None => mStatus
  | Some s =>
      match mStatus with
      | Some s0 => if decide (weight s0 < weight s)%Z then Some s else Some s0
      | None => Some s
      end
  end.

Definition tagged_output (output : string) (b : MetricBuilder) : string := default output (mb_Tags b !! "message").

(** The tags that are used are deleted, also from the metric, which shares them. *)
Definition used_tags (b : MetricBuilder) (m : TimeSeries) : TimeSeries :=
  let tags := match tagged_status b with Some _ => delete "status" (ts_Tags m) | None => ts_Tags m end in
  with_tags m (delete "message" tags).

Definition tagged_service (s : MonitoredService) (metrics : list MetricBuilder) : MonitoredService :=
  let info := SetLastPluginOutput (ms_MonitoredInfo s) (foldl tagged_output (mi_LastPluginOutput (ms_MonitoredInfo s)) metrics) in
  let info := match foldl worse None metrics with Some status => SetStatus info status | None => info end in
  mkMonitoredService (ms_BaseInfo s) info (zip_with used_tags metrics (ms_Metrics s)).

(** The services of a host, by name; a service that cannot be built is left out. *)
Definition host_service (hostName : string) (host : gmap string (list MetricBuilder)) (ss : list MonitoredService)
    (serviceName : string) : outcome (list MonitoredService) :=
  let metrics := default [] (host !! serviceName) in
  r ← BuildServiceForMetrics CheckInterval now serviceName hostName metrics;
  match r with
  | Fail _ => Ret ss
  | Val s => s ← deref s; Ret (ss ++ [tagged_service s metrics])%list
  end.

Definition name_order (a b : string) : Prop := String.leb a b = true.

#[local] Instance name_order_dec : RelDecision name_order.
Proof using Type. intros a b. unfold name_order. apply _. Defined.

Definition host_resource (t : trees) (rs : list MonitoredResource) (kv : string * gmap string (list MetricBuilder))
  : outcome (result error (list MonitoredResource)) :=
  let '(hostName, host) := kv in
  ss ← foldM (host_service hostName host) [] (merge_sort name_order (map_order host).*1);
  match CreateResource CheckInterval now hostName [ResDevice (default "" (tr_devices t !! hostName)); ResServices ss] with
  | Fail e => Ret (Fail e)
  | Val r => Ret (Val (rs ++ [r])%list)
  end.

Fixpoint host_resources (t : trees) (rs : list MonitoredResource) (hosts : list (string * gmap string (list MetricBuilder)))
  : outcome (result error (list MonitoredResource)) :=
  match hosts with
  | [] => Ret (Val rs)
  | kv :: hosts =>
      r ← host_resource t rs kv;
      match r with Fail e => Ret (Fail e) | Val rs => host_resources t rs hosts end
  end.

Definition empty_trees : trees := mkTrees ∅ ∅ ∅.

(** [parsePrometheusServices]: the resources, and the groups. *)
Definition parsePrometheusServices (families : gmap string MetricFamily)
  : outcome (result error (list MonitoredResource) * gmap string (list ResourceRef)) :=
  t ← foldM extract_family empty_trees (map_order families).*2;
  r ← host_resources t [] (map_order (tr_hosts t));
  Ret (r, tr_groups t).

Definition constructResourceGroups (groups : gmap string (list ResourceRef)) : list ResourceGroup :=
  (λ kv, mkResourceGroup kv.1 HostGroup "" kv.2) <$> map_order groups.
End extract.

(** ** Write requests *)

Definition profileContainsMetric (profile : list MetricDefinition) (metric : string) : bool :=
  existsb (λ d, bool_decide (mdef_Name d = metric)) profile.

Definition MetricNameLabel : string := "__name__".

Section parser.
Context (now : Z) (profile : list MetricDefinition) (withFilters : bool).

(** The value a repeated label has last. *)
Definition tag_of (labels : list (string * string)) (name : string) : string :=
  default "" (foldl (λ m l, <[l.1 := l.2]> m) (∅ : gmap string string) labels !! name).

(** A sample as a metric; one that is not a number is left out. *)
Definition sample_metric (labels : list (string * string)) (s : float64 * Z) : option Metric :=
  if is_nan s.1 then None
  else Some (mkMetric labels (Some s.1) None None None (Some (if decide (s.2 > 0)%Z then s.2 else now))).

(** The samples of a series; a family that the filters have not made is nil. *)
Definition add_samples (families : gmap string MetricFamily) (name : string) (labels : list (string * string))
    (samples : list (float64 * Z)) : outcome (gmap string MetricFamily) :=
  match omap (sample_metric labels) samples with
  | [] => Ret families
  | metrics =>
      f ← deref (families !! name);
      Ret (<[name := mkFamily (mf_Name f) (mf_Type f) (mf_Metric f ++ metrics)%list]> families)
  end.

Definition wanted (name : string) : bool := negb withFilters || profileContainsMetric profile name.

Fixpoint parse_series (families : gmap string MetricFamily) (available : list string) (series : list TimeSeries_)
  : outcome (result error (gmap string MetricFamily) * list string) :=
  match series with
  | [] => Ret (Val families, available)
  | ts :: series =>
      let name := tag_of (sr_Labels ts) MetricNameLabel in
      if decide (name = "") then Ret (Fail (Opaque ("metric name " +:+ quote +:+ MetricNameLabel +:+ quote +:+ " not found in tag-set or empty")), available)
      else
        let families := match families !! name with
          | Some _ => families
          | None => if wanted name then <[name := mkFamily (Some name) (Some COUNTER) []]> families else families
          end in
        families ← add_samples families name (sr_Labels ts) (sr_Samples ts);
        parse_series families (available ++ [name])%list series
  end.
End parser.

(** ** Requests *)

Section process.
Context `{MapOrder} (CheckInterval : Z) (now : Timestamp) {R : Type} `{Regexps R}.
Context (url_host : string → result error string).
(** The decoders: Snappy, the write request, and the text with what was read before an
    error. *)
Context (snappy : string → result error string) (write_request : string → result error (list TimeSeries_)).
Context (text_families : string → gmap string MetricFamily * option error).

Record promMetricsData := mkData {
  md_resource : string;
  md_resourceIndex : Z;
  md_data : string;
  md_isStatusDown : bool;
  md_isProtobuf : bool;
  md_withFilters : bool;
}.

(** [PromParser.Parse], which forgets the names that were available. *)
Definition PromParser_Parse (v : apm_vars R) (buf : string) (withFilters : bool) (resource : string)
  : outcome (apm_vars R * result error (gmap string MetricFamily)) :=
  match write_request buf with
  | Fail e => Ret (v, Fail (Opaque ("unable to unmarshal request body: " +:+ Error e)))
  | Val series =>
      '(r, available) ← parse_series (sec now) (av_profile v) withFilters ∅ [] series;
      Ret (mkVars (av_config v) (av_profile v) (av_mappings v) (<[resource := available]> (av_available v))
             (av_inventoryGroups v), r)
  end.

(** The families of a text that the filters keep. *)
Definition text_parse (v : apm_vars R) (d : promMetricsData) : outcome (apm_vars R * result error (gmap string MetricFamily)) :=
  let '(ps, err) := text_families (md_data d) in
  let step acc kv :=
    name ← deref (mf_Name kv.2);
    Ret (acc.1 ++ [name],
         if md_withFilters d && negb (profileContainsMetric (av_profile v) name) then acc.2
         else <[kv.1 := kv.2]> acc.2)%list in
  '(available, families) ← foldM step ([], ∅) (map_order ps);
  Ret (mkVars (av_config v) (av_profile v) (av_mappings v) (<[md_resource d := available]> (av_available v))
         (av_inventoryGroups v),
       match err with Some e => Fail e | None => Val families end).

(** The configured resource of an index; a push has the index -1. *)
Definition source_of (v : apm_vars R) (index : Z) : outcome (option Resource) :=
  if decide (index = -1)%Z then Ret None
  else match ec_Resources (av_config v) !! Z.to_nat index with
  | Some r => Ret (Some r)
  | None => Panic "index out of range"
  end.

(** [promMetricsData.parse] *)
Definition parse (v : apm_vars R) (d : promMetricsData)
  : outcome (apm_vars R * result error (list MonitoredResource * list ResourceGroup)) :=
  '(v, families) ← (if md_isProtobuf d then
      match snappy (md_data d) with
      | Fail e => Ret (v, Fail e)
      | Val dst => PromParser_Parse v dst (md_withFilters d) (md_resource d)
      end
    else text_parse v d);
  match families with
  | Fail e => Ret (v, Fail e)
  | Val families =>
      let source := source_of v (md_resourceIndex d) in
      '(r, groups) ← parsePrometheusServices CheckInterval now url_host (av_profile v) (av_mappings v) (md_resource d)
                       source families;
      let v := match source with
        | Ret (Some r) => if decide (groups = ∅) then v
                          else mkVars (av_config v) (av_profile v) (av_mappings v) (av_available v)
                                 (<[rs_URL r := groups]> (av_inventoryGroups v))
        | _ => v
        end in
      Ret (v, rs ← r; Val (rs, constructResourceGroups groups))
  end.

Definition down (r : MonitoredResource) : MonitoredResource :=
  mkMonitoredResource (mr_BaseResource r) (SetStatus (mr_MonitoredInfo r) HostUnscheduledDown) (mr_Services r).

Context {S : Type} (SendMetrics : S → list MonitoredResource → list ResourceGroup → Expr.run (S * option error)).

(** [promMetricsData.process] *)
Definition process (v : apm_vars R) (s : S) (d : promMetricsData) : Expr.run (apm_vars R * S * option error) :=
  '(v, r) ← lift_o (parse v d);
  match r with
  | Fail e => RRet (v, s, Some e)
  | Val (rs, groups) =>
      '(s, err) ← SendMetrics s (if md_isStatusDown d then down <$> rs else rs) groups;
      RRet (v, s, err)
  end.

(** [receiverHandler]: the status and the text of an answer that is an error; a body
    of less than two bytes is a heartbeat. *)
Definition receiverHandler (v : apm_vars R) (s : S) (contentType : string) (body : result error string)
  : Expr.run (apm_vars R * S * option (Z * string)) :=
  match body with
  | Fail e => RRet (v, s, Some (400%Z, Error e))
  | Val data =>
      if decide (slen data < 2)%Z then RRet (v, s, None)
      else
        '(v, s, err) ← process v s (mkData "" (-1)%Z data false (bool_decide (contentType = "application/x-protobuf")) false);
        RRet (v, s, match err with Some e => Some (400%Z, Error e) | None => None end)
  end.

(** [pull]: the answer of each resource; the status 220 is that of a host that is down. *)
Fixpoint pull (get : Resource → result error (Z * string)) (v : apm_vars R) (s : S) (index : Z) (resources : list Resource)
  : Expr.run (apm_vars R * S) :=
  match resources with
  | [] => RRet (v, s)
  | r :: resources =>
      match get r with
      | Fail _ => pull get v s (index + 1)%Z resources
      | Val (status, response) =>
          if decide (status ∈ [200; 201; 220]%Z) then
            '(v, s, _) ← process v s (mkData (rs_URL r) index response (bool_decide (status = 220)%Z) false true);
            pull get v s (index + 1)%Z resources
          else pull get v s (index + 1)%Z resources
      end
  end.

(** The names that [/metrics/available] lists. *)
Definition available_names (v : apm_vars R) : list string := concat (map_order (av_available v)).*2.

(** [configHandler]: the parsed extensions and profile, the mappings, and whether the
    loop is started again.  The ownership is that of the first connection, also when it
    is empty; mappings that do not parse leave none. *)
Definition configHandler (v : apm_vars R) (conns : list GWConnection)
    (parsed : result error (ExtConfig * list MetricDefinition)) (decoded : result error Transit.Mappings)
  : outcome (apm_vars R * bool) :=
  match parsed with
  | Fail _ => Ret (v, false)
  | Val (ext, profile) =>
      let ext := match conns with
        | [] => ext
        | c :: _ => mkExtConfig (ec_Resources ext) (ec_CheckInterval ext) (DeferOwnership c)
        end in
      m ← unmarshalMappings decoded;
      match m with
      | Fail _ => Ret (mkVars ext profile None (av_available v) (av_inventoryGroups v), false)
      | Val m => Ret (mkVars ext profile (Some m) (av_available v) (av_inventoryGroups v), true)
      end
  end.

Definition periodicHandler (get : Resource → result error (Z * string)) (v : apm_vars R) (s : S) : Expr.run (apm_vars R * S) :=
  pull get v s 0 (ec_Resources (av_config v)).
End process.

(** ** Lemmas *)

(** *** Maps of lists *)

Definition flat {V A} (f : V → list A) (m : gmap string V) : list A := concat (f <$> (map_to_list m).*2).

Lemma flat_insert {V A} (f : V → list A) (m : gmap string V) k v more :
  f v ≡ₚ (from_option f [] (m !! k) ++ more)%list → flat f (<[k := v]> m) ≡ₚ (flat f m ++ more)%list.
Proof.
  intros Hv. unfold flat. destruct (m !! k) as [v0|] eqn:Hk; cbn in Hv.
  - rewrite <-insert_delete_eq, map_to_list_insert by apply lookup_delete_eq. cbn. rewrite Hv.
    rewrite <-(insert_delete_id m k v0 Hk) at 2. rewrite map_to_list_insert by apply lookup_delete_eq. cbn.
    rewrite <-!(assoc_L (++)). f_equiv. apply Permutation_app_comm.
  - rewrite map_to_list_insert by done. cbn. rewrite Hv. apply Permutation_app_comm.
Qed.

(** The builders of the tree, and the hosts that are in groups. *)
Definition builders (t : trees) : list MetricBuilder := flat (flat id) (tr_hosts t).

Definition hosts_grouped (t : trees) : Prop :=
  ∀ h, is_Some (tr_hosts t !! h) → ∃ g refs, tr_groups t !! g = Some refs ∧ containsRef refs h = true.

Lemma builders_add t g h s b : builders (add_to_trees t g h s b) ≡ₚ (builders t ++ [b])%list.
Proof.
  unfold builders, add_to_trees. cbn [tr_hosts]. apply flat_insert.
  destruct (tr_hosts t !! h) as [host|]; cbn [default from_option].
  - apply flat_insert. unfold id. destruct (host !! s); reflexivity.
  - unfold flat. rewrite lookup_empty, insert_empty, map_to_list_singleton. reflexivity.
Qed.

Lemma containsRef_app refs refs' h : containsRef (refs ++ refs') h = containsRef refs h || containsRef refs' h.
Proof. apply existsb_app. Qed.

Lemma hosts_grouped_add t g h s b : hosts_grouped t → hosts_grouped (add_to_trees t g h s b).
Proof.
  intros Hg h' Hh. unfold add_to_trees in *. cbn [tr_hosts tr_groups] in *.
  set (refs := default [] (tr_groups t !! g)). 
  assert (∀ x, x = h ∨ containsRef refs x = true →
    containsRef (if containsRef refs h then refs else refs ++ [mkResourceRef h ResourceTypeHost ""])%list x = true) as Hin.
  { intros x Hx. destruct (containsRef refs h) eqn:Hc; [destruct Hx as [->|]; done|].
    rewrite containsRef_app. apply orb_true_iff. destruct Hx as [->|]; [right|by left].
    cbn. by rewrite bool_decide_true. }
  destruct (decide (h = h')) as [->|Hne].
  - exists g. eexists. rewrite lookup_insert_eq. split; [done|]. apply Hin. by left.
  - rewrite lookup_insert_ne in Hh by done. destruct (Hg h' Hh) as (g' & refs' & Hl & Hc).
    destruct (decide (g = g')) as [<-|Hneg].
    + exists g. eexists. rewrite lookup_insert_eq. split; [done|]. apply Hin. right. unfold refs. by rewrite Hl.
    + exists g', refs'. by rewrite lookup_insert_ne.
Qed.

(** *** Extraction *)

Section extract_lemmas.
Context {HO : MapOrder} (now : Timestamp) {R : Type} {HR : Regexps R}.
Context (url_host : string → result error string) (profile : list MetricDefinition) (mappings : option (Mappings R)).
Context (resource : string) (source : outcome (option Resource)).

#[local] Abbreviation extract_value := (extract_value url_host profile mappings resource source).
#[local] Abbreviation extract_metric := (extract_metric now url_host profile mappings resource source).
#[local] Abbreviation extract_family := (extract_family now url_host profile mappings resource source).

(** What a metric reports, and how a reading is shown: the name the profile gives it, or
    its own. *)
Definition reported (b : MetricBuilder) : string * any := (mb_Name b, mb_Value b).

Definition shown_name (name : string) : string :=
  match getOverrides profile name with
  | Some d => or_default (mdef_CustomName d) name
  | None => name
  end.

Definition reading_shown (r : string * float64) : string * any := (shown_name r.1, AFloat64 r.2).

Lemma apply_label_reported n b labels : reported (foldl apply_label (n, b) labels).2 = reported b.
Proof using Type.
  revert n b. induction labels as [|[name value] labels IH]; intros n b; [done|]. cbn [foldl].
  destruct (apply_label (n, b) (name, value)) as [n' b'] eqn:Ha. rewrite IH.
  unfold apply_label in Ha. repeat case_decide; by injection Ha as <- <-.
Qed.

Lemma apply_overrides_reported name b value :
  reported b = (name, AFloat64 value) → reported (apply_overrides profile name b) = reading_shown (name, value).
Proof using Type.
  unfold reported, reading_shown, shown_name, apply_overrides, or_default. intros [= Hn Hv]. cbn [fst snd].
  destruct (getOverrides profile name) as [d|]; [|by rewrite Hn, Hv].
  destruct (decide (mdef_CustomName d = "")) as [He|He]; [rewrite decide_False by (by intros ?)|rewrite decide_True by done];
    cbn; by rewrite ?Hn, Hv.
Qed.

(** What a list of readings adds to the tree. *)
Definition adds (t t' : trees) (rs : list (string * float64)) : Prop :=
  (∃ bs, builders t' ≡ₚ (builders t ++ bs)%list ∧ reported <$> bs ≡ₚ reading_shown <$> rs) ∧
  (hosts_grouped t → hosts_grouped t').

Lemma adds_nil t : adds t t [].
Proof using Type. split; [exists []; by rewrite app_nil_r|done]. Qed.

Lemma adds_trans t1 t2 t3 l l' : adds t1 t2 l → adds t2 t3 l' → adds t1 t3 (l ++ l').
Proof using Type.
  intros [(b1 & P1 & V1) G1] [(b2 & P2 & V2) G2]. split; [|intros Hg; by apply G2, G1]. exists (b1 ++ b2)%list.
  rewrite !fmap_app, P2, P1, V1, V2. by rewrite (assoc_L (++)).
Qed.

Lemma adds_perm t t' l l' : l ≡ₚ l' → adds t t' l → adds t t' l'.
Proof using Type. intros Hp [(bs & P & V) G]. split; [|done]. exists bs. by rewrite <-Hp. Qed.

Lemma extract_value_adds labels timestamp n t kv n' t' :
  extract_value labels timestamp (n, t) kv = Ret (n', t') → adds t t' [kv].
Proof using Type.
  destruct kv as [name value]. unfold Apm.extract_value. cbv zeta.
  match goal with |- context [foldl apply_label ?a labels] => pose proof (apply_label_reported a.1 a.2 labels) as Hv;
    destruct (foldl apply_label a labels) as [n1 b1] eqn:Hl end. cbn [fst snd] in Hv. rewrite Hl in Hv. cbn in Hv.
  intros (n2 & _ & Hr)%bind_Ret_inv. apply bind_Ret_inv in Hr as (src & _ & Hr).
  apply bind_Ret_inv in Hr as (host & _ & Hr). apply bind_Ret_inv in Hr as (service & _ & Hr). injection Hr as _ <-.
  split.
  - exists [apply_overrides profile name b1]. split; [apply (builders_add (mkTrees (tr_groups t) (tr_hosts t) _))|]. cbn [fmap list_fmap].
    by rewrite (apply_overrides_reported name b1 value Hv).
  - intros Hg. apply hosts_grouped_add. exact Hg.
Qed.

Lemma extract_values_adds labels timestamp kvs n t n' t' :
  foldM (extract_value labels timestamp) (n, t) kvs = Ret (n', t') → adds t t' kvs.
Proof using Type.
  revert n t. induction kvs as [|kv kvs IH]; intros n t; cbn [foldM].
  - intros [= _ <-]. apply adds_nil.
  - intros ([n1 t1] & H1%extract_value_adds & H2%IH)%bind_Ret_inv. cbn. by apply (adds_trans t t1 t' [kv]).
Qed.

(** *** What a metric is worth

    The readings of a metric, by its type: the value of a counter, a gauge or an untyped
    metric; the sum, the count and every bucket of a histogram, as far as they are there;
    nothing of a summary or of a gauge histogram. *)
Definition histogram_readings (name : string) (h : Histogram) : list (string * float64) :=
  option_list ((λ x, (name +:+ "_sample_sum", x)) <$> hg_SampleSum h) ++
  option_list ((λ n, (name +:+ "_sample_count", f_of_Z n)) <$> hg_SampleCount h) ++
  imap (λ i n, (name +:+ "_bucket_" +:+ FormatInt (Z.of_nat i), f_of_Z n)) (hg_Bucket h).

Definition metric_readings (name : string) (type : option MetricType) (m : Metric) : list (string * float64) :=
  match type with
  | Some COUNTER => [(name, default f_zero (mt_Counter m))]
  | Some GAUGE => [(name, default f_zero (mt_Gauge m))]
  | Some UNTYPED => [(name, default f_zero (mt_Untyped m))]
  | Some HISTOGRAM => option_list (mt_Histogram m) ≫= histogram_readings name
  | Some SUMMARY | Some GAUGE_HISTOGRAM | None => []
  end.

Definition family_readings (f : MetricFamily) : list (string * float64) :=
  option_list (mf_Name f) ≫= λ name, mf_Metric f ≫= metric_readings name (mf_Type f).

Lemma insert_fresh (l : list (string * float64)) (m : gmap string float64) :
  NoDup l.*1 → Forall (λ k, m !! k = None) l.*1 →
  map_to_list (foldl (λ m kv, <[kv.1 := kv.2]> m) m l) ≡ₚ (map_to_list m ++ l)%list.
Proof using Type.
  revert m. induction l as [|[k x] l IH]; intros m; cbn [foldl fmap list_fmap fst snd]; [by rewrite app_nil_r|].
  intros [Hk Hd]%NoDup_cons [Hn Hf]%Forall_cons. rewrite IH; [|done|].
  - rewrite map_to_list_insert by done. by rewrite <-Permutation_middle.
  - rewrite Forall_forall in *. intros k' Hk'. rewrite lookup_insert_ne by (intros ->; done). by apply Hf.
Qed.

Lemma buckets_fold name bs n (m : gmap string float64) :
  foldl (λ m ib, <[bucket_name name ib.1 := f_of_Z ib.2]> m) m (imap (λ i, pair (n + i)%nat) bs) =
  foldl (λ m kv, <[kv.1 := kv.2]> m) m (imap (λ i z, (bucket_name name (n + i), f_of_Z z)) bs).
Proof using Type.
  revert n m. induction bs as [|b bs IH]; intros n m; [done|]. rewrite !imap_cons. cbn [foldl fst snd].
  specialize (IH (S n) (<[bucket_name name (n + 0) := f_of_Z b]> m)).
  rewrite (imap_ext _ (λ i, pair (n + S i)%nat)), (imap_ext _ (λ i z, (bucket_name name (n + S i), f_of_Z z)) bs) in IH;
    [exact IH|by intros; cbn; rewrite Nat.add_succ_r..].
Qed.

Lemma histogram_values_fold name h :
  histogram_values name h = foldl (λ m kv, <[kv.1 := kv.2]> m) ∅ (histogram_readings name h).
Proof using Type.
  unfold histogram_values, histogram_readings. rewrite !foldl_app. etrans; [apply (buckets_fold name _ 0)|].
  by destruct (hg_SampleSum h), (hg_SampleCount h).
Qed.

Lemma histogram_names_distinct name h : NoDup (histogram_readings name h).*1.
Proof using Type.
  unfold histogram_readings. rewrite !fmap_app, fmap_imap. apply NoDup_app. split; [destruct (hg_SampleSum h); by repeat constructor; intros ?%elem_of_nil|].
  split.
  { intros k Hk [Hc|(i & z & -> & _)%elem_of_lookup_imap]%elem_of_app; destruct (hg_SampleSum h);
      cbn in Hk; try by apply elem_of_nil in Hk.
    - apply list_elem_of_singleton in Hk as ->. destruct (hg_SampleCount h); [|by apply elem_of_nil in Hc].
      cbn in Hc. apply list_elem_of_singleton, str_app_inj_l in Hc. done.
    - apply list_elem_of_singleton, str_app_inj_l in Hk. done. }
  apply NoDup_app. split; [destruct (hg_SampleCount h); by repeat constructor; intros ?%elem_of_nil|]. split.
  - intros k Hk (i & z & -> & _)%elem_of_lookup_imap. destruct (hg_SampleCount h); [|by apply elem_of_nil in Hk].
    cbn in Hk. apply list_elem_of_singleton, str_app_inj_l in Hk. done.
  - apply NoDup_alt. intros i j k. rewrite !list_lookup_imap. intros (z & _ & ->)%fmap_Some (z' & _ & Hk)%fmap_Some.
    cbn in Hk. apply str_app_inj_l in Hk. injection Hk as Hk%FormatInt_inj. lia.
Qed.

Lemma makeValue_readings name type m vals :
  makeValue name type m = Ret vals → map_to_list vals ≡ₚ metric_readings name type m.
Proof using Type.
  unfold makeValue. intros (ty & Hty & Hr)%bind_Ret_inv. destruct type as [ty'|]; [|done]. injection Hty as ->.
  destruct ty; cbn [metric_readings] in *;
    [injection Hr as <-; by rewrite ?map_to_list_singleton, ?map_to_list_empty..| |injection Hr as <-; by rewrite map_to_list_empty].
  apply bind_Ret_inv in Hr as (h & Hh & Hr). injection Hr as <-. destruct (mt_Histogram m) as [h'|]; [|done].
  injection Hh as ->. cbn. rewrite app_nil_r, histogram_values_fold, insert_fresh.
  - by rewrite map_to_list_empty.
  - apply histogram_names_distinct.
  - apply Forall_true. intros k. apply lookup_empty.
Qed.

Lemma extract_metric_adds name type t m t' :
  extract_metric name type t m = Ret t' → adds t t' (metric_readings name type m).
Proof using Type.
  unfold Apm.extract_metric. intros (vals & Hv%makeValue_readings & Hr)%bind_Ret_inv.
  apply bind_Ret_inv in Hr as ([n1 t1] & Hf%extract_values_adds & Hr). injection Hr as <-.
  eapply adds_perm; [|exact Hf]. by rewrite map_order_perm.
Qed.

Lemma extract_family_adds t f t' : extract_family t f = Ret t' → adds t t' (family_readings f).
Proof using Type.
  unfold Apm.extract_family, family_readings, extractIntoMetricBuilders.
  destruct (mf_Name f) as [name|]; [|destruct (mf_Metric f); intros [= <-]; apply adds_nil].
  assert (∀ ms t, foldM (λ t m, name ← deref (Some name); extract_metric name (mf_Type f) t m) t ms = Ret t' →
    adds t t' (ms ≫= metric_readings name (mf_Type f))) as Hms.
  { induction ms as [|m ms IH]; intros t0; cbn [foldM]; [intros [= <-]; apply adds_nil|].
    intros (t1 & H1%extract_metric_adds & H2%IH)%bind_Ret_inv. cbn. by eapply adds_trans. }
  cbn [option_list option_rect mbind list_bind]. rewrite app_nil_r.
  destruct (mf_Metric f) as [|m ms]; [intros [= <-]; apply adds_nil|]. apply (Hms (m :: ms) t).
Qed.

(** C30: What the services are made of is what the families say: the pairs of a name and a
    value of all builders are, as a multiset, the readings of all metrics, each under the
    name the profile gives it or its own, whatever labels and mappings say; and every
    host is a member of a group.  A counter, a gauge and an untyped metric have one
    reading (0 when the value is not there), a histogram has its sum, its count and one
    reading for each bucket; a summary and a gauge histogram have none and are lost. *)
Theorem extraction_complete (families : list MetricFamily) (t : trees) :
  foldM extract_family empty_trees families = Ret t →
  reported <$> builders t ≡ₚ reading_shown <$> (families ≫= family_readings) ∧ hosts_grouped t.
Proof using Type.
  assert (∀ fs t0, foldM extract_family t0 fs = Ret t → adds t0 t (fs ≫= family_readings)) as Hfs.
  { induction fs as [|f fs IH]; intros t0; cbn [foldM]; [intros [= <-]; apply adds_nil|].
    intros (t1 & H1%extract_family_adds & H2%IH)%bind_Ret_inv. cbn. by eapply adds_trans. }
  intros [(bs & P & V) G]%Hfs. split.
  - by rewrite P.
  - apply G. intros h [x Hx]. done.
Qed.
End extract_lemmas.

(** *** Statuses of tags *)

(** The status of a service is the worst of those its metrics' tags ask for, when one of
    them does; only then are the thresholds set aside. *)
Theorem tagged_status_worst (metrics : list MetricBuilder) :
  match foldl worse None metrics with
  | None => ∀ b, b ∈ metrics → tagged_status b = None
  | Some s => (∃ b, b ∈ metrics ∧ tagged_status b = Some s) ∧
      ∀ b s', b ∈ metrics → tagged_status b = Some s' → (weight s' ≤ weight s)%Z
  end.
Proof.
  induction metrics as [|b metrics IH] using rev_ind; [by intros ? ?%elem_of_nil|].
  rewrite foldl_app. cbn [foldl]. unfold worse at 1. destruct (tagged_status b) as [s|] eqn:Hb.
  - destruct (foldl worse None metrics) as [s0|].
    + destruct IH as [(b0 & Hb0 & Hs0) Hw]. destruct (decide (weight s0 < weight s)%Z) as [Hlt|Hge].
      * split; [exists b; split; [apply elem_of_app; right; by apply list_elem_of_singleton|done]|].
        intros b' s' [Hin| ->%list_elem_of_singleton]%elem_of_app Hs'; [|simplify_eq; lia].
        specialize (Hw b' s' Hin Hs'). lia.
      * split; [exists b0; split; [apply elem_of_app; by left|done]|].
        intros b' s' [Hin| ->%list_elem_of_singleton]%elem_of_app Hs'; [by apply (Hw b')|]. simplify_eq. lia.
    + split; [exists b; split; [apply elem_of_app; right; by apply list_elem_of_singleton|done]|].
      intros b' s' [Hin| ->%list_elem_of_singleton]%elem_of_app Hs'; [by rewrite IH in Hs'|simplify_eq; lia].
  - destruct (foldl worse None metrics) as [s0|].
    + destruct IH as [(b0 & Hb0 & Hs0) Hw]. split; [exists b0; split; [apply elem_of_app; by left|done]|].
      intros b' s' [Hin| ->%list_elem_of_singleton]%elem_of_app Hs'; [by apply (Hw b')|by rewrite Hb in Hs'].
    + intros b' [Hin| ->%list_elem_of_singleton]%elem_of_app; [by apply IH|done].
Qed.

(** *** Write requests *)

Section parser_lemmas.
Context (now : Z) (profile : list MetricDefinition).

Definition family_metrics (f : MetricFamily) : list Metric := mf_Metric f.

(** The samples of the series that are numbers. *)
Definition numbers (series : list TimeSeries_) : list Metric :=
  series ≫= λ ts, omap (M:=list) (sample_metric now (sr_Labels ts)) (sr_Samples ts).

Lemma add_samples_metrics families name labels samples families' :
  add_samples now families name labels samples = Ret families' →
  flat family_metrics families' ≡ₚ (flat family_metrics families ++ omap (M:=list) (sample_metric now labels) samples)%list.
Proof using Type.
  unfold add_samples. destruct (omap _ samples) as [|m ms] eqn:Ho; [intros [= <-]; by rewrite app_nil_r|].
  intros (f & Hf & Hr)%bind_Ret_inv. injection Hr as <-. apply flat_insert.
  destruct (families !! name) as [f0|]; [|done]. by injection Hf as ->.
Qed.

(** A write request that parses without filters gives one metric for every sample that
    is a number, and lists the names of all series. *)
Theorem write_request_complete (series : list TimeSeries_) families available :
  parse_series now profile false ∅ [] series = Ret (Val families, available) →
  flat family_metrics families ≡ₚ numbers series ∧
  available = (λ ts, tag_of (sr_Labels ts) MetricNameLabel) <$> series.
Proof using Type.
  assert (∀ series f0 a0, parse_series now profile false f0 a0 series = Ret (Val families, available) →
    flat family_metrics families ≡ₚ (flat family_metrics f0 ++ numbers series)%list ∧
    available = (a0 ++ ((λ ts, tag_of (sr_Labels ts) MetricNameLabel) <$> series))%list) as Hs;
    [|intros Hp; exact (Hs series ∅ [] Hp)].
  clear series. induction series as [|ts series IH]; intros f0 a0; cbn [parse_series].
  { intros [= -> ->]. by rewrite !app_nil_r. }
  destruct (decide (tag_of (sr_Labels ts) MetricNameLabel = "")); [done|]. unfold wanted. cbn [negb orb].
  set (f1 := match f0 !! _ with Some _ => f0 | None => _ end).
  assert (flat family_metrics f1 ≡ₚ flat family_metrics f0) as Hf1.
  { unfold f1. destruct (f0 !! _) as [f|] eqn:Hl; [done|].
    rewrite (flat_insert _ _ _ _ []); [by rewrite app_nil_r|]. by rewrite Hl. }
  intros (f2 & Ha%add_samples_metrics & Hr)%bind_Ret_inv. destruct (IH f2 _ Hr) as [Hp ->]. split.
  - rewrite Hp, Ha, Hf1. unfold numbers. cbn. by rewrite (assoc_L (++)).
  - by rewrite <-(assoc_L (++)).
Qed.

(** A series that the filters leave out has no family: its first number is a nil
    dereference. *)
Theorem filtered_series_panics ts x t :
  profileContainsMetric profile (tag_of (sr_Labels ts) MetricNameLabel) = false →
  tag_of (sr_Labels ts) MetricNameLabel ≠ "" → sr_Samples ts = [(x, t)] → is_nan x = false →
  is_panic (parse_series now profile true ∅ [] [ts]) = true.
Proof using Type.
  intros Hc Hn Hs Hx. cbn [parse_series]. rewrite decide_False by done. unfold wanted, add_samples. cbn [negb orb].
  rewrite Hc, Hs. cbn [omap list_omap]. unfold sample_metric at 1. cbn [fst]. by rewrite Hx.
Qed.
End parser_lemmas.

(** ** Concrete requests *)

Definition reversed_order : MapOrder.
Proof.
  refine {| map_order := λ A m, reverse (map_to_list m) |}. intros A m. apply reverse_Permutation.
Defined.

Definition no_mappings : Mappings unit := mkMappings [] [] [].

Definition sample_metric_of (labels : list (string * string)) (h : option Histogram) (gauge : option float64) : Metric :=
  mkMetric labels None None gauge h (Some 1000%Z).

Definition latency : MetricFamily :=
  mkFamily (Some "latency") (Some HISTOGRAM)
    [sample_metric_of [("resource", "web")] (Some (mkHistogram (Some (f_of_Z 3)) (Some 2%Z) [1%Z; 2%Z])) None].

(** A summary beside it. *)
Definition overall : MetricFamily := mkFamily (Some "overall") (Some SUMMARY) [sample_metric_of [("resource", "web")] None None].

Definition parsed (O : MapOrder) (fs : list MetricFamily) : outcome trees :=
  foldM (@extract_family O (mkTimestamp 100 0 LocalLoc) unit whole (λ _, Fail (Opaque "no address")) [] (Some no_mappings) ""
           (Ret None)) empty_trees fs.

Definition service_names (t : outcome trees) : list (string * list string) :=
  match t with Ret t => (λ kv, (kv.1, (map_to_list kv.2).*1)) <$> map_to_list (tr_hosts t) | Panic _ => [] end.

(** The values of a histogram without a service label go to one service, which has the
    name of the value that comes first: it depends on the order of a map. *)
Example histogram_service_by_order :
  service_names (parsed sorted_order [latency]) ≠ service_names (parsed reversed_order [latency]) ∧
  length (service_names (parsed sorted_order [latency])) = 1%nat.
Proof. split; [intros He; vm_compute in He; discriminate|by vm_compute]. Qed.

(** The device of a host is stored under the host's label and looked up under its clean
    name. *)
Definition device_of (t : outcome trees) (host : string) : bool * string :=
  match t with
  | Ret t => (bool_decide (is_Some (tr_hosts t !! host)), default "" (tr_devices t !! host))
  | Panic _ => (false, "")
  end.

Example device_of_unclean_host :
  device_of (parsed sorted_order [mkFamily (Some "load") (Some GAUGE)
    [sample_metric_of [("resource", "web server"); ("device", "10.0.0.1")] None (Some f_zero)]]) "web_server" = (true, "").
Proof. by vm_compute. Qed.

(** A sample without a time stamp gets the seconds of the clock as milliseconds. *)
Example unstamped_sample_is_old :
  from_ms (default 0%Z (m ← sample_metric 1700000000 [] (f_zero, 0%Z); mt_TimestampMs m)) = mkTimestamp 1700000 0 LocalLoc.
Proof. by vm_compute. Qed.

Lemma extraction_complete_witness :
  ∃ t, parsed sorted_order [latency; overall] = Ret t ∧
    reported <$> builders t ≡ₚ [("latency_sample_sum", AFloat64 (f_of_Z 3)); ("latency_sample_count", AFloat64 (f_of_Z 2));
      ("latency_bucket_0", AFloat64 (f_of_Z 1)); ("latency_bucket_1", AFloat64 (f_of_Z 2))] ∧ hosts_grouped t.
Proof.
  destruct (parsed sorted_order [latency; overall]) as [t|w] eqn:Hp; [|exfalso; vm_compute in Hp; discriminate].
  exists t. split; [done|].
  destruct (@extraction_complete sorted_order (mkTimestamp 100 0 LocalLoc) unit whole (λ _, Fail (Opaque "no address")) []
    (Some no_mappings) "" (Ret None) [latency; overall] t Hp) as [Hv Hg].
  split; [|exact Hg]. exact Hv.
Defined.

Lemma write_request_complete_witness :
  ∃ families available,
    parse_series 5 [] false ∅ [] [mkSeries [(MetricNameLabel, "up")] [(f_zero, 7%Z); (f_nan, 8%Z)]] = Ret (Val families, available) ∧
    length (flat family_metrics families) = 1%nat.
Proof.
  destruct (parse_series 5 [] false ∅ [] [mkSeries [(MetricNameLabel, "up")] [(f_zero, 7%Z); (f_nan, 8%Z)]]) as [[[f|e] a]|w] eqn:Hp;
    [|exfalso; vm_compute in Hp; discriminate..].
  exists f, a. split; [done|]. destruct (write_request_complete _ _ _ _ _ Hp) as [Hf _].
  apply Permutation_length in Hf. rewrite Hf. vm_compute. reflexivity.
Defined.
