(* ===== verification/Server.v ===== *)
(** connectors/server: the connector of the server the agent runs on.

    What the host answers (the package gopsutil) is an argument: the readings while one
    service is built, and the list of the processes.  The cache of the processes is
    what it holds now. *)

From S2P Require Import Prelude.
From S2P Require Import GoString.
From S2P Require Import GoFloat.
From S2P Require Import FloatText.
From S2P Require Import Errors.
From S2P Require Import Timestamp.
From S2P Require Import TypedValue.
From S2P Require Import Transit.
From S2P Require Import Status.
From S2P Require Import Codec.
From S2P Require Import Batcher.
From S2P Require Import Http.
From S2P Require Import Nats.
From S2P Require Import Clients.
From S2P Require Import Tracer.
From S2P Require Import TransitService.
From S2P Require Import Expr.
From S2P Require Import StatusText.
From S2P Require Import Connectors.

Local Open Scope string_scope.

(** ** Configuration *)

Record ExtConfig := mkExtConfig {
  ec_Groups : list ResourceGroup;
  ec_Processes : list string;
  ec_CheckInterval : Z;
  ec_Ownership : HostOwnershipType;
}.

(** [ExtConfig.UnmarshalJSON]: a new interval is a number of minutes. *)
Definition ExtConfig_UnmarshalJSON (cfg : ExtConfig) (decoded : result error ExtConfig) : result error ExtConfig :=
  c ← decoded;
  Val (mkExtConfig (ec_Groups c) (ec_Processes c)
         (if decide (ec_CheckInterval c ≠ ec_CheckInterval cfg) then int64 (ec_CheckInterval c * Minute)
          else ec_CheckInterval c)
         (ec_Ownership c)).

Definition defaultHostGroupName : string := "Servers".

Definition TotalDiskAllocatedServiceName : string := "total.disk.allocated".
Definition TotalMemoryUsageAllocatedName : string := "total.memory.allocated".
Definition TotalCPUUsageServiceName : string := "total.cpu.usage".
Definition DiskUsedServiceName : string := "disk.used".
Definition MemoryUsedServiceName : string := "memory.used".
Definition DiskFreeServiceName : string := "disk.free".
Definition MemoryFreeServiceName : string := "memory.free".
Definition ProcessesNumberServiceName : string := "processes.number".

(** The divisor of the conversion, and not the unit. *)
Definition MB : Z := 1048576.

Definition templateMetricName : string := "$view_Template#".

(** ** Readings *)

Record UsageStat := mkUsage { us_Total : Z; us_Used : Z; us_Free : Z }.
Record InfoStat := mkInfo { hi_Hostname : string; hi_Procs : Z }.

(** The answers while one service is built; the error of the processor is dropped, and
    the list is empty then. *)
Record readings := mkReadings {
  rd_info : result error InfoStat;
  rd_disk : result error UsageStat;
  rd_memory : result error UsageStat;
  rd_cpu : list float64;
}.

(** A process: its name and its share of the processor; errors are logged or dropped. *)
Record localProcess := mkProcess { lp_name : string; lp_cpu : float64 }.

(** The answers during one collection: the host, the readings while the definition of
    an index is handled, the processes, and the same once more for the cache, by the
    name of the service. *)
Record host_answers := mkAnswers {
  ha_info : result error InfoStat;
  ha_readings : nat → readings;
  ha_processes : list localProcess;
  ha_cache_readings : string → readings;
  ha_cache_processes : list localProcess;
}.

(** [hostName]: the environment's name, or the host's. *)
Definition host_name (env : string) (info : InfoStat) : string :=
  if decide (env = "") then hi_Hostname info else env.

Section server.
Context `{MapOrder} (CheckInterval : Z) (now : Timestamp).

(** ** Services of the host *)

Definition metric_service (hostName name : string) (value : Z) (unit : UnitType) (warning critical : Z)
    (customName : string) (graphed : bool) : outcome (option MonitoredService) :=
  let timestamp := Some (NewTimestamp now) in
  r ← BuildServiceForMetric CheckInterval now hostName
        (mkMetricBuilder name customName Query "" (AInt KInt64 value) (Some (ArgUnit unit)) (AInt KInt64 warning)
           (AInt KInt64 critical) timestamp timestamp graphed ∅);
  Ret (match r with Val s => Some s | Fail _ => None end).

Abbreviation getter := (readings → string → Z → Z → string → bool → outcome (option MonitoredService)).

Definition usage_service (usage : readings → result error UsageStat) (field : UsageStat → Z) (name : string) : getter :=
  λ y hostName warning critical customName graphed,
    match usage y with
    | Fail _ => Ret None
    | Val u => metric_service hostName name (int64 (field u / MB)) Transit.MB warning critical customName graphed
    end.

Definition getTotalDiskUsageService : getter := usage_service rd_disk us_Total TotalDiskAllocatedServiceName.
Definition getDiskUsedService : getter := usage_service rd_disk us_Used DiskUsedServiceName.
Definition getDiskFreeService : getter := usage_service rd_disk us_Free DiskFreeServiceName.
Definition getTotalMemoryUsageService : getter := usage_service rd_memory us_Total TotalMemoryUsageAllocatedName.
Definition getMemoryUsedService : getter := usage_service rd_memory us_Used MemoryUsedServiceName.
Definition getMemoryFreeService : getter := usage_service rd_memory us_Free MemoryFreeServiceName.

Definition getNumberOfProcessesService : getter := λ y hostName warning critical customName graphed,
  match rd_info y with
  | Fail _ => Ret None
  | Val i => metric_service hostName ProcessesNumberServiceName (int64 (hi_Procs i)) UnitCounter warning critical
               customName graphed
  end.

(** [getCPUUsage]; the conversion of a number that does not fit is the processor's. *)
Definition getCPUUsage (y : readings) : outcome Z :=
  match rd_cpu y with
  | [] => Panic "index out of range"
  | p :: _ => Ret (default (- 2 ^ 63)%Z (f_trunc p))
  end.

Definition getTotalCPUUsage : getter := λ y hostName warning critical customName graphed,
  value ← getCPUUsage y;
  metric_service hostName TotalCPUUsageServiceName value PercentCPU warning critical customName graphed.

Definition processToFuncMap : gmap string getter := list_to_map [
  (TotalDiskAllocatedServiceName, getTotalDiskUsageService);
  (TotalMemoryUsageAllocatedName, getTotalMemoryUsageService);
  (TotalCPUUsageServiceName, getTotalCPUUsage);
  (DiskUsedServiceName, getDiskUsedService);
  (MemoryUsedServiceName, getMemoryUsedService);
  (DiskFreeServiceName, getDiskFreeService);
  (MemoryFreeServiceName, getMemoryFreeService);
  (ProcessesNumberServiceName, getNumberOfProcessesService)].

(** ** Processes *)

Record values := mkValues {
  vl_value : float64;
  vl_computeType : ComputeType;
  vl_expression : string;
  vl_criticalValue : Z;
  vl_warningValue : Z;
  vl_graphed : bool;
}.

(** The shares of the processes of a name, summed. *)
Definition add_process (m : gmap string float64) (p : localProcess) : gmap string float64 :=
  match m !! lp_name p with
  | Some x => <[lp_name p := f_add x (lp_cpu p)]> m
  | None => <[lp_name p := lp_cpu p]> m
  end.

Definition process_value (m : gmap string float64) (pr : MetricDefinition) : values :=
  match m !! mdef_Name pr with
  | Some x =>
      if decide (mdef_ComputeType pr ≠ Synthetic) then
        mkValues x (mdef_ComputeType pr) "" (mdef_CriticalThreshold pr) (mdef_WarningThreshold pr) (mdef_Graphed pr)
      else mkValues minus_one Synthetic (mdef_Expression pr) (mdef_CriticalThreshold pr) (mdef_WarningThreshold pr)
             (mdef_Graphed pr)
  | None => mkValues minus_one Synthetic (mdef_Expression pr) (mdef_CriticalThreshold pr) (mdef_WarningThreshold pr)
              (mdef_Graphed pr)
  end.

Definition put_process (m : gmap string float64) (vs : gmap string values) (pr : MetricDefinition) : gmap string values :=
  if mdef_Monitored pr then <[Name (mdef_Name pr) (mdef_CustomName pr) := process_value m pr]> vs else vs.

Definition collectMonitoredProcesses (processes : list localProcess) (monitored : list MetricDefinition) : gmap string values :=
  match monitored with
  | [] => ∅
  | _ => foldl (put_process (foldl add_process ∅ processes)) ∅ monitored
  end.

(** ** Inventory and metrics *)

(** The definitions the connector looks at. *)
Definition wanted (pr : MetricDefinition) : bool := mdef_Monitored pr && bool_decide (mdef_Name pr ≠ templateMetricName).

Definition Synchronize (env : string) (info : result error InfoStat) (processes : list MetricDefinition)
  : option InventoryResource :=
  match info with
  | Fail _ => None
  | Val info =>
      let hostName := host_name env info in
      Some (CreateInventoryResource hostName
        ((λ pr, CreateInventoryService (Name (mdef_Name pr) (mdef_CustomName pr)) hostName) <$>
           List.filter wanted processes))
  end.

(** The services of the host, and the definitions that are left; [sys] has the readings
    while the definition of an index is handled. *)
Definition collect_definition (sys : nat → readings) (hostName : string)
    (acc : list MonitoredService * list MetricDefinition) (ipr : nat * MetricDefinition)
  : outcome (list MonitoredService * list MetricDefinition) :=
  let '(services, rest) := acc in
  let '(i, pr) := ipr in
  if wanted pr then
    match processToFuncMap !! mdef_Name pr with
    | Some function =>
        s ← function (sys i) hostName (mdef_WarningThreshold pr) (mdef_CriticalThreshold pr) (mdef_CustomName pr)
              (mdef_Graphed pr);
        Ret ((services ++ match s with Some s => [s] | None => [] end)%list, rest)
    | None => Ret (services, (rest ++ [pr])%list)
    end
  else Ret acc.

Definition process_builder (name : string) (v : values) : MetricBuilder :=
  let timestamp := Some (NewTimestamp now) in
  mkMetricBuilder name "" (vl_computeType v) (vl_expression v) (AFloat64 (vl_value v)) (Some (ArgUnit PercentCPU))
    (AFloat64 (f_of_Z (vl_warningValue v))) (AFloat64 (f_of_Z (vl_criticalValue v))) timestamp timestamp
    (vl_graphed v) ∅.

Definition with_status (s : MonitoredService) (status : MonitorStatus) : MonitoredService :=
  mkMonitoredService (ms_BaseInfo s) (SetStatus (ms_MonitoredInfo s) status) (ms_Metrics s).

(** A process that is not there has the value -1 and is pending. *)
Definition collect_process (hostName : string) (services : list MonitoredService) (kv : string * values)
  : outcome (list MonitoredService) :=
  let '(name, v) := kv in
  r ← BuildServiceForMetric CheckInterval now hostName (process_builder name v);
  match r with
  | Fail _ => Ret services
  | Val s => Ret (services ++ [if f_eq (vl_value v) minus_one then with_status s ServicePending else s])%list
  end.

(** *** The cache of processes *)

Definition cache_key (name : string) : string := ReplaceAll name "." "_".

Definition metric_number (metric : TimeSeries) : outcome (option float64) :=
  value ← deref (ts_Value metric);
  if decide (tv_ValueType value = DoubleType) then x ← deref (tv_DoubleValue value); Ret (Some x)
  else if decide (tv_ValueType value = IntegerType) then z ← deref (tv_IntegerValue value); Ret (Some (f_of_Z z))
  else Ret None.

Definition cache_service (sys : string → readings) (hostName : string) (m : gmap string float64)
    (kv : string * getter) : outcome (gmap string float64) :=
  let '(name, function) := kv in
  s ← function (sys name) hostName (-1)%Z (-1)%Z "" true;
  match s with
  | None => Ret m
  | Some s =>
      match ms_Metrics s with
      | [] => Panic "index out of range"
      | metric :: _ =>
          x ← metric_number metric;
          Ret (match x with Some x => <[cache_key name := x]> m | None => m end)
      end
  end.

(** [collectProcesses], which [updateCache] and [handleCache] store for five minutes;
    [sys] has the readings for a service. *)
Definition collectProcesses (sys : string → readings) (hostName : string) (running : list localProcess)
  : outcome (gmap string float64) :=
  foldM (cache_service sys hostName)
    (foldl (λ m p, <[cache_key (lp_name p) := lp_cpu p]> m) ∅ running) (map_order processToFuncMap).

(** *** The collection: the resource, and the new content of the cache. *)

Definition CollectMetrics (env : string) (a : host_answers) (processes : list MetricDefinition)
  : outcome (option (MonitoredResource * gmap string float64)) :=
  match ha_info a with
  | Fail _ => Ret None
  | Val info =>
      let hostName := host_name env info in
      match CreateResource CheckInterval now hostName [] with
      | Fail _ => Panic "invalid memory address or nil pointer dereference"
      | Val r =>
          '(services, rest) ← foldM (collect_definition (ha_readings a) hostName) ([], []) (imap pair processes);
          services ← foldM (collect_process hostName) services
                       (map_order (collectMonitoredProcesses (ha_processes a) rest));
          cache ← collectProcesses (ha_cache_readings a) hostName (ha_cache_processes a);
          Ret (Some (mkMonitoredResource (mr_BaseResource r) (mr_MonitoredInfo r) services, cache))
      end
  end.

(** ** Suggestions *)

(** [listSuggestions]: a list that stays nil when no name contains the text; the cache
    is empty before it is filled and when it has expired. *)
Definition listSuggestions (cache : option (gmap string float64)) (name : string) : outcome (list string) :=
  match cache with
  | None => Panic "interface conversion: interface {} is nil, not map[string]float64"
  | Some m => Ret (List.filter (λ n, bool_decide (name = "") || Contains n name) (map_order m).*1)
  end.

(** The entry points of the suggestions: the names, or an empty list of another view. *)
Definition suggest (cache : option (gmap string float64)) (viewName name : string) : outcome (list string) :=
  if decide (viewName = ServiceTypeProcess) then listSuggestions cache name else Ret [].

(** ** The handlers *)

(** The variables of the package: the configuration, the metrics of the profile, and
    the sum of what was last sent. *)
Record server_vars := mkVars {
  sv_config : ExtConfig;
  sv_metrics : list MetricDefinition;
  sv_chksum : string;
}.

Definition default_config : ExtConfig :=
  mkExtConfig [mkResourceGroup defaultHostGroupName HostGroup "" []] [] DefaultCheckInterval Yield.

(** The sum of the identity, the connections, the profile and the extensions. *)
Context (hashsum : list MetricDefinition → ExtConfig → result error string).
Context (env : string) {S : Type}.
Context (SendInventory : S → list InventoryResource → list ResourceGroup → HostOwnershipType → outcome S).

(** [configHandler]: the groups are filled in place; the error of the inventory is
    dropped, and its sum kept.  The flag tells whether the loop is started again. *)
Definition configHandler (v : server_vars) (s : S) (conns : list GWConnection) (info : result error InfoStat)
    (parsed : result error (ExtConfig * list MetricDefinition)) : outcome (server_vars * S * bool) :=
  match parsed with
  | Fail _ => Ret (v, s, false)
  | Val (ext, metrics) =>
      let ext := match conns with
        | [] => ext
        | c :: _ => mkExtConfig (ec_Groups ext) (ec_Processes ext) (ec_CheckInterval ext) (DeferOwnership c)
        end in
      let chk := hashsum metrics ext in
      let changed := match chk with Fail _ => true | Val b => bool_decide (b ≠ sv_chksum v) end in
      '(ext, s) ← (if changed then
          r ← deref (Synchronize env info metrics);
          let groups := (λ g, FillGroupWithResources g [r]) <$> ec_Groups ext in
          s ← SendInventory s [r] groups (ec_Ownership ext);
          Ret (mkExtConfig groups (ec_Processes ext) (ec_CheckInterval ext) (ec_Ownership ext), s)
        else Ret (ext, s));
      Ret (mkVars ext metrics (match chk with Fail _ => sv_chksum v | Val b => b end), s, true)
  end.

Context (SendMetrics : S → list MonitoredResource → Expr.run S).

(** [periodicHandler]: the cache stays when nothing is collected. *)
Definition periodicHandler (v : server_vars) (cache : option (gmap string float64)) (s : S) (a : host_answers)
  : Expr.run (S * option (gmap string float64)) :=
  match sv_metrics v with
  | [] => RRet (s, cache)
  | metrics =>
      r ← lift_o (CollectMetrics env a metrics);
      '(r, cache) ← lift_o (deref r);
      s ← SendMetrics s [r];
      RRet (s, Some cache)
  end.
End server.

(** ** Lemmas *)

(** *** Services *)

Definition service_name (s : MonitoredService) : string := bi_Name (ms_BaseInfo s).

(** Numbers against numbers have a status. *)
Lemma CalculateStatus_numbers v w c :
  is_Some (number v) → is_Some (number w) → is_Some (number c) →
  ∃ s, CalculateStatus (Some v) (Some w) (Some c) = Ret s.
Proof.
  intros [x Hv] [y Hw] [z Hc]. unfold CalculateStatus. cbn [given negb andb].
  rewrite (threshold_value_number _ _ Hw), (threshold_value_number _ _ Hc). cbn [mbind outcome_bind deref].
  unfold number in Hv. case_decide; [|case_decide; [|done]].
  - apply fmap_Some in Hv as (n & -> & ->). unfold integer_status. cbn [fmap outcome_fmap deref].
    rewrite !v_ge_Ret, !v_le_Ret. repeat case_match; by eexists.
  - rewrite Hv. unfold double_status. cbn [deref]. rewrite !v_ge_Ret, !v_le_Ret. repeat case_match; by eexists.
Qed.

Section lemmas.
Context {HO : MapOrder} (CheckInterval : Z) (now : Timestamp).

(** A builder of numbers gives a service with its name, its host, and its metric. *)
Lemma built_service host b v w c u :
  nil_pointer (mb_Value b) = false → nil_pointer (mb_Warning b) = false → nil_pointer (mb_Critical b) = false →
  typed (mb_Value b) = Some v → typed (mb_Warning b) = Some w → typed (mb_Critical b) = Some c →
  builder_unit b = Some u → is_Some (number v) → is_Some (number w) → is_Some (number c) →
  ∃ s, BuildServiceForMetric CheckInterval now host b = Ret (Val s) ∧
    ms_BaseInfo s = named_info (Name (mb_Name b) (mb_CustomName b)) ResourceTypeService host ∧
    ms_Metrics s = [builder_metric now b v u].
Proof using Type.
  intros N1 N2 N3 T1 T2 T3 Hu Hv Hw Hc.
  rewrite (BuildServiceForMetric_built _ _ _ _ v u); [|done|done|done|right; by eauto|right; by eauto]. rewrite T2, T3.
  destruct (CalculateStatus_numbers v w c) as [s ->]; [done..|]. eexists. split; [done|]. by split.
Qed.

(** What a reading gives: a service under the name, with an integer. *)
Definition host_service (host n custom : string) (s : MonitoredService) : Prop :=
  ms_BaseInfo s = named_info (Name n custom) ResourceTypeService host ∧
  ∃ m z, ms_Metrics s = [m] ∧ ts_Value m = Some (tv_int z).

Lemma metric_service_built host n value u w c custom g :
  ∃ s, metric_service CheckInterval now host n value u w c custom g = Ret (Some s) ∧ host_service host n custom s.
Proof using Type.
  unfold metric_service. cbv zeta.
  match goal with |- context [BuildServiceForMetric _ _ _ ?b] =>
    destruct (built_service host b (tv_int value) (tv_int w) (tv_int c) u) as (s & -> & Hb & Hm) end; try done; try by eexists.
  exists s. split; [done|]. split; [done|]. rewrite Hm. unfold builder_metric. cbn. eauto.
Qed.

(** The readings all succeed. *)
Definition answering (y : readings) : Prop :=
  is_val (rd_info y) = true ∧ is_val (rd_disk y) = true ∧ is_val (rd_memory y) = true.

Lemma getter_built n f y host w c custom g :
  processToFuncMap CheckInterval now !! n = Some f → rd_cpu y ≠ [] →
  ∃ r, f y host w c custom g = Ret r ∧
    match r with Some s => host_service host n custom s | None => ¬ answering y end.
Proof using Type.
  intros Hf%elem_of_list_to_map_2 Hc. unfold answering.
  assert (∀ name value u, ∃ r, metric_service CheckInterval now host name value u w c custom g = Ret r ∧
    match r with Some s => host_service host name custom s
    | None => ¬ (is_val (rd_info y) = true ∧ is_val (rd_disk y) = true ∧ is_val (rd_memory y) = true) end) as Hs.
  { intros name value u. destruct (metric_service_built host name value u w c custom g) as (s & -> & Hs). by eexists. }
  assert (∀ usage field name, (usage = rd_disk ∨ usage = rd_memory) →
    ∃ r, usage_service CheckInterval now usage field name y host w c custom g = Ret r ∧
    match r with Some s => host_service host name custom s
    | None => ¬ (is_val (rd_info y) = true ∧ is_val (rd_disk y) = true ∧ is_val (rd_memory y) = true) end) as Hu.
  { intros usage field name Hor. unfold usage_service. destruct (usage y) eqn:E; [apply Hs|].
    eexists. split; [done|]. intros (_ & H1 & H2). destruct Hor as [->| ->]; by rewrite E in *. }
  repeat (apply elem_of_cons in Hf as [[= -> ->]|Hf]); [..|by apply elem_of_nil in Hf]; try (apply Hu; by auto).
  - unfold getTotalCPUUsage, getCPUUsage. destruct (rd_cpu y); [done|]. apply Hs.
  - unfold getNumberOfProcessesService. destruct (rd_info y) eqn:E; [apply Hs|].
    eexists. split; [done|]. by intros (? & _).
Qed.

(** *** Processes *)

Lemma collect_process_built host services kv :
  ∃ s, collect_process CheckInterval now host services kv = Ret (services ++ [s])%list ∧
    ms_BaseInfo s = named_info kv.1 ResourceTypeService host ∧
    (f_eq (vl_value kv.2) minus_one = true → mi_Status (ms_MonitoredInfo s) = ServicePending) ∧
    ∃ m, ms_Metrics s = [m] ∧ ts_Value m = Some (tv_double (vl_value kv.2)) ∧
      ts_MetricComputeType m = vl_computeType kv.2 ∧ ts_MetricExpression m = vl_expression kv.2.
Proof using Type.
  destruct kv as [name v]. unfold collect_process.
  destruct (built_service host (process_builder now name v) (tv_double (vl_value v))
    (tv_double (f_of_Z (vl_warningValue v))) (tv_double (f_of_Z (vl_criticalValue v))) PercentCPU)
    as (s & -> & Hb & Hm); try done; try by eexists.
  cbn [mbind outcome_bind]. eexists. split; [done|]. destruct (f_eq _ _); cbn [ms_BaseInfo with_status ms_Metrics fst snd].
  - split; [by rewrite Hb|]. split; [done|]. rewrite Hm. unfold builder_metric. cbn. eauto 10.
  - split; [by rewrite Hb|]. split; [done|]. rewrite Hm. unfold builder_metric. cbn. eauto 10.
Qed.

Lemma collect_processes_built host kvs services :
  ∃ new, foldM (collect_process CheckInterval now host) services kvs = Ret (services ++ new)%list ∧
    service_name <$> new = kvs.*1.
Proof using Type.
  revert services. induction kvs as [|kv kvs IH]; intros services; cbn [foldM].
  { exists []. by rewrite app_nil_r. }
  destruct (collect_process_built host services kv) as (s & -> & Hb & _). cbn [mbind outcome_bind].
  destruct (IH (services ++ [s])%list) as (new & -> & Hn). exists (s :: new). rewrite <-(assoc_L (++)). split; [done|].
  cbn. unfold service_name at 1. by rewrite Hb, Hn.
Qed.

Definition effective (pr : MetricDefinition) : string := Name (mdef_Name pr) (mdef_CustomName pr).

Lemma monitored_insert m (vs : gmap string values) ms k :
  is_Some (foldl (put_process m) vs ms !! k) ↔ is_Some (vs !! k) ∨ k ∈ effective <$> List.filter mdef_Monitored ms.
Proof using Type.
  revert vs. induction ms as [|pr ms IH]; intros vs; cbn [foldl List.filter].
  { cbn. split; [by left|]. by intros [?|?%elem_of_nil]. }
  rewrite IH. unfold put_process. destruct (mdef_Monitored pr); [|done]. cbn [fmap list_fmap]. rewrite elem_of_cons, lookup_insert_is_Some.
  unfold effective at 2 3. destruct (decide (Name (mdef_Name pr) (mdef_CustomName pr) = k)); naive_solver.
Qed.

Lemma monitored_keys running ms k :
  is_Some (collectMonitoredProcesses running ms !! k) ↔ k ∈ effective <$> List.filter mdef_Monitored ms.
Proof using Type.
  unfold collectMonitoredProcesses. destruct ms as [|pr ms]; [split; [intros [? ?]|intros ?%elem_of_nil]; done|].
  rewrite monitored_insert. split; [intros [[? ?]|?]; done|by right].
Qed.

(** *** The collection *)

Definition builtin (pr : MetricDefinition) : bool :=
  match processToFuncMap CheckInterval now !! mdef_Name pr with Some _ => true | None => false end.

Lemma collect_definitions_built sys host ps k services rest :
  (∀ i, rd_cpu (sys i) ≠ []) →
  ∃ new, foldM (collect_definition CheckInterval now sys host) (services, rest) (imap (λ i pr, ((k + i)%nat, pr)) ps) =
    Ret (services ++ new, rest ++ List.filter (λ pr, wanted pr && negb (builtin pr)) ps)%list ∧
  sublist (service_name <$> new) (effective <$> List.filter (λ pr, wanted pr && builtin pr) ps) ∧
  ((∀ i, answering (sys i)) → service_name <$> new = effective <$> List.filter (λ pr, wanted pr && builtin pr) ps).
Proof using Type.
  intros Hc. revert k services rest. induction ps as [|pr ps IH]; intros k services rest; cbn [imap foldM].
  { exists []. rewrite !app_nil_r. by split_and!. }
  rewrite (imap_ext _ (λ i pr, ((S k + i)%nat, pr))) by (intros i x _; unfold compose; f_equal; lia). cbn [collect_definition List.filter].
  destruct (wanted pr); cbn [andb]; [|apply IH].
  assert (builtin pr = match processToFuncMap CheckInterval now !! mdef_Name pr with Some _ => true | None => false end)
    as -> by done.
  destruct (processToFuncMap CheckInterval now !! mdef_Name pr) as [f|] eqn:Hf; cbn [negb mbind outcome_bind].
  - destruct (getter_built _ f (sys (k + 0)%nat) host (mdef_WarningThreshold pr) (mdef_CriticalThreshold pr)
      (mdef_CustomName pr) (mdef_Graphed pr) Hf (Hc _)) as (r & -> & Hr). cbn [mbind outcome_bind].
    destruct r as [s|].
    + destruct (IH (S k) (services ++ [s])%list rest) as (new & -> & Hs & He). exists (s :: new).
      rewrite <-(assoc_L (++)). destruct Hr as [Hb _]. split; [done|]. cbn. unfold service_name at 1 3. rewrite Hb.
      split; [by apply sublist_skip|]. intros Ha. by rewrite He.
    + destruct (IH (S k) (services ++ [])%list rest) as (new & -> & Hs & He). exists new. rewrite app_nil_r.
      split; [done|]. cbn. split; [by apply sublist_cons|]. intros Ha. destruct (Hr (Ha _)).
  - destruct (IH (S k) services (rest ++ [pr])%list) as (new & -> & Hs & He). exists new.
    by rewrite <-(assoc_L (++)).
Qed.

Lemma metric_number_int m z : ts_Value m = Some (tv_int z) → metric_number m = Ret (Some (f_of_Z z)).
Proof using Type. intros Hv. unfold metric_number. by rewrite Hv. Qed.

Lemma collectProcesses_total sys host running :
  (∀ n, rd_cpu (sys n) ≠ []) → ∃ m, collectProcesses CheckInterval now sys host running = Ret m.
Proof using Type.
  intros Hc. unfold collectProcesses. apply foldM_total. intros m [name f] Hf%elem_of_map_order. unfold cache_service.
  destruct (getter_built _ f (sys name) host (-1)%Z (-1)%Z "" true Hf (Hc _)) as (r & -> & Hr). cbn [mbind outcome_bind].
  destruct r as [s|]; [|by eexists]. destruct Hr as (_ & metric & z & -> & Hv).
  rewrite (metric_number_int _ z Hv). by eexists.
Qed.

Lemma filter_split (f g : MetricDefinition → bool) l :
  List.filter f l ≡ₚ (List.filter (λ x, f x && g x) l ++ List.filter (λ x, f x && negb (g x)) l)%list.
Proof using Type.
  induction l as [|x l IH]; [done|]. cbn. destruct (f x), (g x); cbn; rewrite ?IH; try done. apply Permutation_middle.
Qed.

Lemma wanted_monitored (g : MetricDefinition → bool) l :
  List.filter mdef_Monitored (List.filter (λ pr, wanted pr && g pr) l) = List.filter (λ pr, wanted pr && g pr) l.
Proof using Type.
  induction l as [|x l IH]; [done|]. cbn [List.filter]. destruct (wanted x && g x) eqn:Hw; [|done].
  apply andb_true_iff in Hw as [Hw _]. unfold wanted in Hw. apply andb_true_iff in Hw as [Hm _].
  cbn [List.filter]. by rewrite Hm, IH.
Qed.

Definition announced (inv : InventoryResource) : list string := (λ s, bi_Name (is_BaseInfo s)) <$> ir_Services inv.

Lemma announced_wanted host ps :
  announced (CreateInventoryResource host
    ((λ pr, CreateInventoryService (Name (mdef_Name pr) (mdef_CustomName pr)) host) <$> List.filter wanted ps)) =
  effective <$> List.filter wanted ps.
Proof using Type. unfold announced. cbn [ir_Services CreateInventoryResource]. by rewrite <-list_fmap_compose. Qed.

(** C31: What is sent was announced: while the host tells its name and the share of the
    processor, the collection returns a resource with the name of the inventory, all of
    whose services are in the inventory; and when all readings succeed and the names of
    the profile differ, the services are exactly those of the inventory. *)
Theorem every_service_announced (env : string) (a : host_answers) (info : InfoStat) (ps : list MetricDefinition) :
  ha_info a = Val info → (∀ i, rd_cpu (ha_readings a i) ≠ []) → (∀ n, rd_cpu (ha_cache_readings a n) ≠ []) →
  ∃ r cache inv, CollectMetrics CheckInterval now env a ps = Ret (Some (r, cache)) ∧
    Synchronize env (ha_info a) ps = Some inv ∧
    bi_Name (br_BaseInfo (mr_BaseResource r)) = bi_Name (br_BaseInfo (ir_BaseResource inv)) ∧
    (∀ n, n ∈ service_name <$> mr_Services r → n ∈ announced inv) ∧
    (NoDup (announced inv) → (∀ i, answering (ha_readings a i)) → service_name <$> mr_Services r ≡ₚ announced inv).
Proof using Type.
  intros Hi Hc Hc'. unfold CollectMetrics. rewrite Hi. cbn [CreateResource resource_args mbind result_bind mr_Services].
  set (host := host_name env info).
  destruct (collect_definitions_built (ha_readings a) host ps 0 [] [] Hc) as (new & Hd & Hsub & Heq).
  change (imap (λ i pr, ((0 + i)%nat, pr)) ps) with (imap pair ps) in Hd. rewrite Hd. cbn [mbind outcome_bind app].
  set (rest := List.filter (λ pr, wanted pr && negb (builtin pr)) ps).
  destruct (collect_processes_built host (map_order (collectMonitoredProcesses (ha_processes a) rest)) new) as (new' & -> & Hn').
  cbn [mbind outcome_bind].
  destruct (collectProcesses_total (ha_cache_readings a) host (ha_cache_processes a) Hc') as [cache ->].
  eexists _, cache, _. split; [done|]. split; [done|]. split; [done|].
  rewrite announced_wanted.
  cbn [mr_Services]. rewrite fmap_app, Hn'.
  pose proof (filter_split wanted builtin ps) as Hp. fold rest in Hp.
  assert (∀ k, k ∈ (map_order (collectMonitoredProcesses (ha_processes a) rest)).*1 ↔ k ∈ effective <$> rest) as Hk.
  { intros k. pose proof (monitored_keys (ha_processes a) rest k) as Hk.
    assert (List.filter mdef_Monitored rest = rest) as Hr by apply (wanted_monitored (λ pr, negb (builtin pr))).
    rewrite Hr in Hk. rewrite <-Hk, list_elem_of_fmap. split.
    - intros ([k' v] & -> & Hkv%elem_of_map_order). by exists v.
    - intros [v Hv]. exists (k, v). split; [done|]. by apply elem_of_map_order. }
  split.
  - intros n Hn. rewrite Hp, fmap_app. apply elem_of_app in Hn as [Hn|Hn]; apply elem_of_app.
    + left. by eapply elem_of_sublist; [exact Hn|exact Hsub].
    + right. by apply Hk.
  - intros Hnd Ha. rewrite (Heq Ha), Hp, fmap_app in *. apply NoDup_app in Hnd as (_ & _ & Hnd).
    f_equiv. apply NoDup_Permutation; [apply NoDup_map_order|done|exact Hk].
Qed.

(** *** Values of processes *)

(** The shares of the processes of a name, in the order they are listed. *)
Definition shares (name : string) (running : list localProcess) : list float64 :=
  lp_cpu <$> List.filter (λ p, bool_decide (lp_name p = name)) running.

Definition total_share (name : string) (running : list localProcess) : option float64 :=
  match shares name running with [] => None | x :: xs => Some (foldl f_add x xs) end.

Lemma add_processes_lookup running name m :
  foldl add_process m running !! name =
  match m !! name with Some x => Some (foldl f_add x (shares name running)) | None => total_share name running end.
Proof using Type.
  unfold total_share. revert m. induction running as [|p running IH]; intros m; cbn [foldl].
  { cbn. by destruct (m !! name). }
  rewrite IH. unfold add_process, shares. cbn [List.filter]. case_bool_decide as Hp.
  - subst name. destruct (m !! lp_name p); by rewrite lookup_insert_eq.
  - destruct (m !! lp_name p); by rewrite lookup_insert_ne.
Qed.

Lemma monitored_lookup m ms vs pr :
  NoDup (effective <$> ms) → pr ∈ ms → mdef_Monitored pr = true →
  foldl (put_process m) vs ms !! effective pr = Some (process_value m pr).
Proof using Type.
  revert vs. induction ms as [|x ms IH]; intros vs; [by intros _ ?%elem_of_nil|]. cbn [fmap list_fmap foldl].
  intros [Hx Hnd]%NoDup_cons Hin Hm. apply elem_of_cons in Hin as [->|Hin]; [|by apply IH].
  assert (∀ vs0, vs0 !! effective x = Some (process_value m x) →
    foldl (put_process m) vs0 ms !! effective x = Some (process_value m x)) as Hk.
  2: { apply Hk. unfold put_process. rewrite Hm. apply lookup_insert_eq. }
  clear IH Hm Hnd vs. induction ms as [|y ms IH]; intros vs0 Hv; [done|]. cbn [foldl]. cbn [fmap list_fmap] in Hx.
  apply not_elem_of_cons in Hx as [Hxy Hx]. apply IH; [done|]. unfold put_process. destruct (mdef_Monitored y); [|done].
  rewrite lookup_insert_ne; [done|]. intros He. by apply Hxy.
Qed.

(** The value of a monitored process, of names that differ: the sum of the shares of the
    processes of its name; a process that does not run, or is computed, has -1 and its
    expression, as a synthetic metric.  Its service carries that value, and is pending
    when the value is -1. *)
Theorem process_service (running : list localProcess) (ms : list MetricDefinition) (pr : MetricDefinition) (host : string)
    (services : list MonitoredService) :
  NoDup (effective <$> ms) → pr ∈ ms → mdef_Monitored pr = true →
  ∃ v s m, collectMonitoredProcesses running ms !! effective pr = Some v ∧
    collect_process CheckInterval now host services (effective pr, v) = Ret (services ++ [s])%list ∧
    service_name s = effective pr ∧ ms_Metrics s = [m] ∧ ts_Value m = Some (tv_double (vl_value v)) ∧
    (f_eq (vl_value v) minus_one = true → mi_Status (ms_MonitoredInfo s) = ServicePending) ∧
    match (if decide (mdef_ComputeType pr = Synthetic) then None else total_share (mdef_Name pr) running) with
    | Some x => vl_value v = x ∧ ts_MetricComputeType m = mdef_ComputeType pr ∧ ts_MetricExpression m = ""
    | None => vl_value v = minus_one ∧ ts_MetricComputeType m = Synthetic ∧ ts_MetricExpression m = mdef_Expression pr
    end.
Proof using Type.
  intros Hnd Hin Hm.
  pose proof (monitored_lookup (foldl add_process ∅ running) ms ∅ pr Hnd Hin Hm) as Hv.
  destruct (collect_process_built host services (effective pr, process_value (foldl add_process ∅ running) pr))
    as (s & Hs & Hb & Hp & m & Hms & Hval & Hct & Hex).
  exists (process_value (foldl add_process ∅ running) pr), s, m. cbn [fst snd] in *.
  split; [by unfold collectMonitoredProcesses; destruct ms|]. split; [done|].
  split; [unfold service_name; by rewrite Hb|]. do 3 (split; [done|]).
  rewrite Hct, Hex. clear -HO. unfold process_value. rewrite add_processes_lookup, lookup_empty.
  destruct (total_share _ _) as [x|]; repeat case_decide; done.
Qed.

(** *** What an error of the processor costs *)

(** A share of the processor that cannot be read while the cache is filled loses the
    whole collection: the first element of an empty list is taken, whatever the profile
    asks for and whatever else was read. *)
Theorem unread_processor_loses_all (env : string) (a : host_answers) (info : InfoStat) (ps : list MetricDefinition) :
  ha_info a = Val info → rd_cpu (ha_cache_readings a TotalCPUUsageServiceName) = [] →
  is_panic (CollectMetrics CheckInterval now env a ps) = true.
Proof using Type.
  intros Hi Hc. unfold CollectMetrics. rewrite Hi. cbn [CreateResource resource_args mbind result_bind mr_Services].
  destruct (foldM (collect_definition _ _ _ _) _ _) as [[services rest]|]; [|done]. cbn [mbind outcome_bind].
  destruct (foldM (collect_process _ _ _) _ _) as [services'|]; [|done]. cbn [mbind outcome_bind].
  assert (is_panic (collectProcesses CheckInterval now (ha_cache_readings a) (host_name env info) (ha_cache_processes a)) = true) as Hp.
  { unfold collectProcesses.
    apply (foldM_panics (λ kv, kv = (TotalCPUUsageServiceName, getTotalCPUUsage CheckInterval now))).
    - intros m kv ->. unfold cache_service, getTotalCPUUsage, getCPUUsage. by rewrite Hc.
    - apply Exists_exists. eexists. split; [|done]. apply elem_of_map_order. apply elem_of_list_to_map_1.
      + cbn [fmap list_fmap fst]. apply (bool_decide_unpack _). by vm_compute.
      + do 2 right. left. }
  by destruct (collectProcesses _ _ _ _ _).
Qed.
End lemmas.

(** *** The inventory *)

(** A configuration whose sum is that of the one before sends no inventory, whatever has
    become of the inventory before: its error is not looked at. *)
Theorem configuration_sent_once (hashsum : list MetricDefinition → ExtConfig → result error string) (env : string) {T : Type}
    (SendInventory : T → list InventoryResource → list ResourceGroup → HostOwnershipType → outcome T)
    (v v' : server_vars) (t t' : T) (conns : list GWConnection) (info info' : result error InfoStat)
    (ext : ExtConfig) (metrics : list MetricDefinition) (b : string) (restart : bool) :
  (∀ o, hashsum metrics (mkExtConfig (ec_Groups ext) (ec_Processes ext) (ec_CheckInterval ext) o) = Val b) →
  configHandler hashsum env SendInventory v t conns info (Val (ext, metrics)) = Ret (v', t', restart) →
  ∃ v'', configHandler hashsum env SendInventory v' t' conns info' (Val (ext, metrics)) = Ret (v'', t', true) ∧
    sv_metrics v'' = metrics ∧ sv_chksum v'' = b.
Proof.
  intros Hb. unfold configHandler.
  assert (hashsum metrics (match conns with
    | [] => ext | c :: _ => mkExtConfig (ec_Groups ext) (ec_Processes ext) (ec_CheckInterval ext) (DeferOwnership c) end) = Val b) as ->.
  { destruct conns; [|done]. specialize (Hb (ec_Ownership ext)). by destruct ext. }
  intros ([ext1 t1] & _ & Hr)%bind_Ret_inv. injection Hr as <- <- _. cbn [sv_chksum].
  rewrite bool_decide_false by auto. cbn [mbind outcome_bind]. by eexists.
Qed.

(** ** A concrete host *)

Definition sample_definition (name custom : string) : MetricDefinition :=
  mkMetricDefinition name custom "" true true "" Query "Process" "" "" 10 20 "" "".

Definition sample_profile : list MetricDefinition :=
  [sample_definition "disk.free" ""; sample_definition "nginx" "web"; sample_definition templateMetricName "";
   sample_definition "gone" ""].

Definition sample_readings : readings :=
  mkReadings (Val (mkInfo "box" 212)) (Val (mkUsage (2 ^ 30) (2 ^ 29) (2 ^ 29))) (Val (mkUsage (2 ^ 34) (2 ^ 33) (2 ^ 33)))
    [f_of_Z 7].

Definition sample_processes : list localProcess := [mkProcess "nginx" (f_of_Z 9); mkProcess "nginx" (f_of_Z 8)].

Definition sample_answers : host_answers :=
  mkAnswers (rd_info sample_readings) (λ _, sample_readings) sample_processes (λ _, sample_readings) sample_processes.

#[local] Abbreviation sample_collection :=
  (@CollectMetrics sorted_order DefaultCheckInterval (mkTimestamp 100 0 LocalLoc) "" sample_answers sample_profile).

Definition sample_sent : list (string * MonitorStatus) :=
  match sample_collection with
  | Ret (Some (r, _)) => (λ s, (service_name s, mi_Status (ms_MonitoredInfo s))) <$> mr_Services r
  | _ => []
  end.

(** The two workers are summed for their service; a process that is gone is pending. *)
Example sample_services :
  sample_sent = [("disk.free", ServiceUnscheduledCritical); ("web", ServiceWarning); ("gone", ServicePending)].
Proof. by vm_compute. Qed.

(** The cache has the share of the last worker alone: an expression over the processes
    computes with another value than the service of the same process shows. *)
Example cache_of_last_worker :
  match sample_collection with Ret (Some (_, cache)) => cache !! "nginx" | _ => None end = Some (f_of_Z 8) ∧
  total_share "nginx" sample_processes = Some (f_of_Z 17).
Proof. by vm_compute. Qed.

(** Two definitions of one name, by its own name and by a custom one, have one service,
    although the inventory announces two. *)
Example custom_name_collides :
  (map_to_list (collectMonitoredProcesses sample_processes [sample_definition "nginx" "web"; sample_definition "web" ""])).*1
    = ["web"] ∧
  (announced <$> Synchronize "" (Val (mkInfo "box" 1)) [sample_definition "nginx" "web"; sample_definition "web" ""]) =
    Some ["web"; "web"].
Proof. by vm_compute. Qed.

Lemma every_service_announced_witness :
  ∃ r cache inv, sample_collection = Ret (Some (r, cache)) ∧
    Synchronize "" (ha_info sample_answers) sample_profile = Some inv ∧
    service_name <$> mr_Services r ≡ₚ ["disk.free"; "web"; "gone"].
Proof.
  destruct (@every_service_announced sorted_order DefaultCheckInterval (mkTimestamp 100 0 LocalLoc) "" sample_answers
    (mkInfo "box" 212) sample_profile) as (r & cache & inv & Hr & Hi & _ & _ & Hp).
  - reflexivity.
  - intros i. discriminate.
  - intros n. discriminate.
  - exists r, cache, inv. split; [exact Hr|]. split; [exact Hi|]. vm_compute in Hi. injection Hi as <-.
    apply Hp.
    + apply (bool_decide_unpack _). vm_compute. reflexivity.
    + intros i. split; [reflexivity|split; reflexivity].
Defined.
