(* ===== verification/Oracle.v ===== *)
(** connectors/oracle: the connector of Oracle's cloud.

    The calls of the vendor's SDK are a record of functions; a listing is asked for page
    by page.  The loops over pages and everything that calls them return a [run], which
    is [RDeep] when the fuel ends before the pages do. *)

From S2P Require Import Prelude.
From S2P Require Import GoString.
From S2P Require Import GoFloat.
From S2P Require Import FloatText.
From S2P Require Import Errors.
From S2P Require Import Timestamp.
From S2P Require Import TypedValue.
From S2P Require Import Transit.
From S2P Require Import Status.
From S2P Require Import Codec.
From S2P Require Import Batcher.
From S2P Require Import Http.
From S2P Require Import Nats.
From S2P Require Import Clients.
From S2P Require Import Tracer.
From S2P Require Import TransitService.
From S2P Require Import Expr.
From S2P Require Import StatusText.
From S2P Require Import Connectors.
From S2P Require Import Mapping.

Local Open Scope string_scope.

(** ** Data *)

Record compartment := mkCompartment { cp_ID : string; cp_Name : string }.

#[export] Instance compartment_eq_dec : EqDecision compartment.
Proof. solve_decision. Defined.

Record definition := mkDefinition { df_Namespace : string; df_Name : string; df_Dimensions : gmap string string }.

Record Resource := mkResource {
  rs_OCID : string;
  rs_DisplayName : string;
  rs_LifecycleState : string;
  rs_CompartmentID : string;
  rs_ResourceType : string;
}.

Record sample := mkSample {
  sa_HostName : string;
  sa_ResourceID : string;
  sa_ServiceName : string;
  sa_Dimensions : gmap string string;
  sa_Value : float64;
  sa_StartTime : Timestamp;
  sa_EndTime : Timestamp;
  sa_NoData : bool;
}.

(** What the SDK answers with: pointers are options. *)
Record compartment_item := mkCompartmentItem { ci_Id : option string; ci_Name : option string; ci_LifecycleState : string }.

Record metric_item := mkMetricItem { mi_Namespace : option string; mi_Name : option string; mi_Dimensions : gmap string string }.

Record resource_item := mkResourceItem {
  ri_Identifier : option string;
  ri_ResourceType : option string;
  ri_DisplayName : option string;
  ri_LifecycleState : option string;
  ri_CompartmentId : option string;
}.

Record datapoint := mkDatapoint { dp_Timestamp : option Timestamp; dp_Value : option float64 }.

Record metric_data := mkMetricData { md_Name : option string; md_Dimensions : gmap string string; md_Points : list datapoint }.

Record summarize_request := mkSummarize {
  sq_CompartmentId : string;
  sq_Namespace : string;
  sq_Query : string;
  sq_Resolution : string;
  sq_StartTime : Timestamp;
  sq_EndTime : Timestamp;
}.

(** A page and the mark of the next one. *)
Abbreviation page_of A := (result error (list A * option string)).

Record oci_client := mkClient {
  oc_GetCompartment : string → result error (option string * option string);
  oc_ListCompartments : string → option string → page_of compartment_item;
  oc_ListMetrics : string → option string → page_of metric_item;
  oc_SearchResources : option string → page_of resource_item;
  oc_Summarize : summarize_request → result error (list metric_data);
}.

(** ** Listings *)

(** The loop over pages, which the three listings have in common. *)
Fixpoint pages {A S} (get : option string → page_of A) (absorb : S → A → S) (fuel : nat) (s : S) (page : option string)
  : run (result error S) :=
  match fuel with
  | O => RDeep
  | S fuel =>
      match get page with
      | Fail e => RRet (Fail e)
      | Val (items, next) =>
          let s := foldl absorb s items in
          if decide (default "" next = "") then RRet (Val s) else pages get absorb fuel s next
      end
  end.

(** [sort.Slice] by two names, the second where the first are equal. *)
Definition names_le {A} (first second : A → string) (a b : A) : Prop :=
  if decide (first a = first b) then String.leb (second a) (second b) = true else String.leb (first a) (first b) = true.

#[export] Instance names_le_dec {A} (first second : A → string) : RelDecision (names_le first second).
Proof. intros a b. unfold names_le. destruct (decide (first a = first b)); apply _. Defined.

Definition str_le (a b : string) : Prop := String.leb a b = true.

#[export] Instance str_le_dec : RelDecision str_le.
Proof. intros a b. unfold str_le. apply _. Defined.

Definition ref_le (a b : ResourceRef) : Prop := String.leb (rr_Name a) (rr_Name b) = true.

#[export] Instance ref_le_dec : RelDecision ref_le.
Proof. intros a b. unfold ref_le. apply _. Defined.

(** *** Dimensions *)

Definition first_dimension (keys : list string) (dimensions : gmap string string) : option string :=
  head (omap (λ key, value ← dimensions !! key; if decide (TrimSpace value ≠ "") then Some (TrimSpace value) else None) keys).

Definition getHostName : gmap string string → option string :=
  first_dimension ["resourceDisplayName"; "resourceName"; "hostName"; "host"; "nodeName"; "instanceId"; "resourceID"; "resourceId"].

Definition getResourceID : gmap string string → option string := first_dimension ["resourceId"; "resourceID"; "instanceId"].

Section oracle.
Context `{MapOrder} (client : oci_client) (fuel : nat).

(** *** Compartments *)

Definition add_compartment (seen : gmap string compartment) (item : compartment_item) : gmap string compartment :=
  match ci_Id item, ci_Name item with
  | Some id, Some name => if decide (ci_LifecycleState item = "ACTIVE") then <[id := mkCompartment id name]> seen else seen
  | _, _ => seen
  end.

Definition sorted_compartments (seen : gmap string compartment) : list compartment :=
  merge_sort (names_le cp_Name cp_ID) (map_order seen).*2.

Definition ListCompartments (tenancyOCID : string) : run (result error (list compartment)) :=
  match oc_GetCompartment client tenancyOCID with
  | Fail e => RRet (Fail (Wrap ("failed to get root compartment: " +:+ Error e) e))
  | Val (Some id, Some name) =>
      r ← pages (oc_ListCompartments client tenancyOCID) add_compartment fuel {[tenancyOCID := mkCompartment id name]} None;
      RRet (seen ← r; Val (sorted_compartments seen))
  | Val _ => RRet (Fail (Opaque "failed to get root compartment ID and Name"))
  end.

(** *** Definitions *)

Definition excludedServiceDefinitions : list string :=
  ["maintenance_status"; "instance_status"; "instanceaccessibilitystatus"; "instancefilesystemstatus"; "backupfailure";
   "backupsize"; "backuptime"].

Definition isExcludedServiceDefinition (name : string) : bool :=
  bool_decide (GoString.lower (TrimSpace name) ∈ excludedServiceDefinitions).

Definition zero_byte : string := String (ascii_of_nat 0) "".

(** The first definition of a name stays. *)
Definition add_definition (unique : gmap string definition) (item : metric_item) : gmap string definition :=
  match mi_Namespace item, mi_Name item with
  | Some namespace, Some name =>
      let namespace := TrimSpace namespace in
      let name := TrimSpace name in
      if bool_decide (namespace = "") || bool_decide (name = "") || isExcludedServiceDefinition name then unique
      else
        let key := namespace +:+ zero_byte +:+ name in
        match unique !! key with
        | Some _ => unique
        | None => <[key := mkDefinition namespace name (mi_Dimensions item)]> unique
        end
  | _, _ => unique
  end.

Definition ListDefinitions (compartmentID : string) : run (result error (list definition)) :=
  r ← pages (oc_ListMetrics client compartmentID) add_definition fuel ∅ None;
  RRet (unique ← r; Val (merge_sort (names_le df_Namespace df_Name) (map_order unique).*2)).

(** *** Resources *)

Definition monitoredResourceTypes : list string :=
  ["instance"; "loadbalancer"; "networkloadbalancer"; "vcn"; "volume"; "bootvolume"; "bucket"; "autonomousdatabase"; "dbsystem";
   "apigateway"].

Definition isMonitoredResourceType (resourceType : string) : bool :=
  bool_decide (GoString.lower (TrimSpace resourceType) ∈ monitoredResourceTypes).

Definition trimmed (s : option string) : string := TrimSpace (default "" s).

Definition add_resource (inventory : gmap string Resource) (item : resource_item) : gmap string Resource :=
  match ri_Identifier item, ri_ResourceType item with
  | Some identifier, Some resourceType =>
      let ocid := TrimSpace identifier in
      if negb (isMonitoredResourceType resourceType) || bool_decide (ocid = "") then inventory
      else
        let displayName := if decide (trimmed (ri_DisplayName item) ≠ "") then trimmed (ri_DisplayName item) else ocid in
        <[ocid := mkResource ocid displayName (trimmed (ri_LifecycleState item)) (trimmed (ri_CompartmentId item))
                    (TrimSpace resourceType)]> inventory
  | _, _ => inventory
  end.

Definition ListResources : run (result error (gmap string Resource)) :=
  pages (oc_SearchResources client) add_resource fuel ∅ None.

Definition SortedResources (inventory : gmap string Resource) : list Resource :=
  merge_sort (names_le rs_DisplayName rs_OCID) (map_order inventory).*2.

(** *** Samples *)

(** [Time.After], and [Time.Equal]. *)
Definition after (a b : Timestamp) : bool :=
  bool_decide (sec b < sec a ∨ sec a = sec b ∧ nsec b < nsec a)%Z.
Definition same_time (a b : Timestamp) : bool := bool_decide (sec a = sec b ∧ nsec a = nsec b).

(** [getValue]: the latest point, the first of those at one time. *)
Definition newer (best : option (float64 * Timestamp)) (p : datapoint) : option (float64 * Timestamp) :=
  match dp_Timestamp p, dp_Value p with
  | Some t, Some v =>
      match best with
      | Some (_, maxTime) => if after t maxTime then Some (v, t) else best
      | None => Some (v, t)
      end
  | _, _ => best
  end.

Definition getValue (datapoints : list datapoint) : option (float64 * Timestamp) := foldl newer None datapoints.

(** [time.Now().UTC().Truncate(time.Minute)] *)
Definition this_minute (now : Timestamp) : Timestamp := mkTimestamp (sec now - sec now `mod` 60)%Z 0 UTCLoc.

Definition minutes (interval : Z) : Z := default 0%Z (f_trunc (Minutes interval)).

Definition summarize (now : Timestamp) (c : compartment) (d : definition) (interval : Z) (aggregation : string)
  : summarize_request :=
  let aggregation := if decide (TrimSpace aggregation = "") then "sum" else TrimSpace aggregation in
  let endTime := this_minute now in
  let startTime := Timestamp.Add (Timestamp.Add endTime (- interval)) (-1 * Minute) in
  mkSummarize (cp_ID c) (df_Namespace d)
    (df_Name d +:+ "[" +:+ FormatInt (minutes interval) +:+ "m]." +:+ aggregation +:+ "()")
    (FormatInt (minutes interval) +:+ "m") startTime endTime.

(** The sample of a series; one without a host and an identity has none. *)
Definition item_sample (now : Timestamp) (d : definition) (item : metric_data) : option sample :=
  let serviceName := if decide (trimmed (md_Name item) ≠ "") then trimmed (md_Name item) else df_Name d in
  let tags := if decide (md_Dimensions item = ∅) then df_Dimensions d else md_Dimensions item in
  match getHostName tags, getResourceID tags with
  | None, None => None
  | host, id =>
      let '(value, pointTime, noData) :=
        match getValue (md_Points item) with
        | Some (value, pointTime) => (value, pointTime, false)
        | None => (f_zero, this_minute now, true)
        end in
      Some (mkSample (default "" host) (default "" id) serviceName tags value pointTime pointTime noData)
  end.

(** The sample that stands for a definition without any series. *)
Definition no_data_sample (now : Timestamp) (d : definition) : option sample :=
  let tags := df_Dimensions d in
  match getHostName tags, getResourceID tags with
  | None, None => None
  | host, id =>
      Some (mkSample (default "" host) (default "" id) (df_Name d) tags f_zero (this_minute now) (this_minute now) true)
  end.

Definition ListSamples (now : Timestamp) (c : compartment) (d : definition) (interval : Z) (aggregation : string)
  : result error (list sample) :=
  items ← oc_Summarize client (summarize now c d interval aggregation);
  Val (match items with
       | [] => match no_data_sample now d with Some s => [s] | None => [] end
       | _ => omap (item_sample now d) items
       end).
End oracle.

(** ** Names of series *)

Definition hostDimensionKeys : list string :=
  ["resourcedisplayname"; "resourcename"; "hostname"; "host"; "nodename"; "instanceid"; "resourceid"].

Definition dimension_key (kv : string * string) : option string :=
  let key := TrimSpace kv.1 in
  if bool_decide (key = "") || bool_decide (TrimSpace kv.2 = "") || bool_decide (GoString.lower key ∈ hostDimensionKeys) then None
  else Some key.

(** A trimmed key is looked up among the keys as they came. *)
Definition dimension_part (dimensions : gmap string string) (key : string) : option string :=
  let value := TrimSpace (default "" (dimensions !! key)) in
  if decide (value = "") then None else Some (key +:+ "_" +:+ value).

Section names.
Context `{MapOrder}.

Definition buildDimensionParts (dimensions : gmap string string) : list string :=
  omap (dimension_part dimensions) (merge_sort str_le (omap dimension_key (map_order dimensions))).

Definition buildDimensionSeriesKey (dimensions : gmap string string) : string :=
  match buildDimensionParts dimensions with [] => "__default__" | parts => Join parts "__" end.

Definition buildDimensionMetricName (baseName : string) (dimensions : gmap string string) : outcome string :=
  let baseName := TrimSpace baseName in
  if decide (baseName = "") then Ret baseName
  else match buildDimensionParts dimensions with
  | [] => Ret baseName
  | parts => SanitizeString (baseName +:+ "__" +:+ Join parts "__")
  end.
End names.

(** ** Services *)

Record serviceMetricState := mkMetricState {
  sm_metricBuilder : MetricBuilder;
  sm_dimensions : gmap string string;
  sm_noData : bool;
  sm_endTime : Timestamp;
}.

Definition defaultAggregationType : string := "sum".

Definition mapLifecycleStateToHostStatus (state : string) : MonitorStatus :=
  let s := upper (TrimSpace state) in
  if decide (s ∈ ["RUNNING"; "AVAILABLE"; "ACTIVE"]) then HostUp
  else if decide (s ∈ ["STOPPING"; "STARTING"; "PROVISIONING"; "CREATING"; "UPDATING"; "TERMINATING"; "DELETING"; "PENDING"])
  then HostPending
  else if decide (s ∈ ["STOPPED"; "TERMINATED"; "DELETED"; "FAILED"; "INACTIVE"]) then HostUnscheduledDown
  else HostUp.

Section services.
(** The text of values that are neither [float64] nor integers. *)
Context (format_other : any → string).

Definition formatMetricBuilderValue (value : any) : string :=
  match value with AFloat64 x => fmt_plain x | AInt _ z => FormatInt z | v => format_other v end.

Definition buildServiceLastPluginOutput (serviceName : string) (interval : Z) (aggregation : string)
    (metricBuilders : list MetricBuilder) (noDataCount : Z) : string :=
  let aggregation := if decide (TrimSpace aggregation = "") then defaultAggregationType else TrimSpace aggregation in
  let m := FormatInt (minutes interval) in
  let one := serviceName +:+ " " +:+ aggregation +:+ "(" +:+ m +:+ "m)=" in
  let n := Z.of_nat (length metricBuilders) in
  let many := serviceName +:+ " series(" +:+ m +:+ "m)=" +:+ FormatInt n in
  match metricBuilders with
  | [] => one +:+ "0 (no metric series)"
  | [b] =>
      let valueText := formatMetricBuilderValue (mb_Value b) in
      if decide (noDataCount = 1)%Z then
        one +:+ valueText +:+ " (no metrics found for the selected period; defaulting to " +:+ valueText +:+ ")"
      else one +:+ valueText
  | _ =>
      if decide (noDataCount = n) then many +:+ " (all series have no data; defaulting to 0)"
      else if decide (0 < noDataCount)%Z then many +:+ " (" +:+ FormatInt noDataCount +:+ " no-data series defaulted to 0)"
      else many
  end.

Definition renamed (b : MetricBuilder) (name : string) : MetricBuilder :=
  mkMetricBuilder name name (mb_ComputeType b) (mb_Expression b) (mb_Value b) (mb_UnitType b) (mb_Warning b)
    (mb_Critical b) (mb_StartTimestamp b) (mb_EndTimestamp b) (mb_Graphed b) (mb_Tags b).

Context `{MapOrder} (CheckInterval : Z) (now : Timestamp).

(** The builders of a service's series, with the names that were used so far and the
    number of series without data. *)
Definition name_series (serviceName : string) (multiSeries : bool)
    (acc : gmap string Z * list MetricBuilder * Z) (state : serviceMetricState)
  : outcome (gmap string Z * list MetricBuilder * Z) :=
  let '(used, builders, noData) := acc in
  name ← (if multiSeries then
      name ← buildDimensionMetricName serviceName (sm_dimensions state);
      Ret (if decide (name = "") then serviceName else name)
    else Ret serviceName);
  let count := default 0%Z (used !! name) in
  let '(name', used) :=
    if decide (0 < count)%Z then (name +:+ "_" +:+ FormatInt (count + 1), <[name := (count + 1)%Z]> used)
    else (name, <[name := 1%Z]> used) in
  Ret (used, (builders ++ [renamed (sm_metricBuilder state) name'])%list,
       if sm_noData state then (noData + 1)%Z else noData).

(** The states of a service, by the sorted keys of their series. *)
Definition sorted_series {A} (m : gmap string A) : list A :=
  omap (λ key, m !! key) (merge_sort str_le (map_order m).*1).

Definition build_service (resourceName : string) (interval : Z) (aggregation : string)
    (hostServices : gmap string (gmap string serviceMetricState)) (services : list MonitoredService) (serviceName : string)
  : outcome (list MonitoredService) :=
  match sorted_series (default ∅ (hostServices !! serviceName)) with
  | [] => Ret services
  | states =>
      '(_, builders, noData) ← foldM (name_series serviceName (bool_decide (1 < length states)%nat)) (∅, [], 0%Z) states;
      r ← BuildServiceForMetrics CheckInterval now serviceName resourceName builders;
      match r with
      | Fail _ => Ret services
      | Val s =>
          s ← deref s;
          Ret (services ++ [with_plugin_output s
                 (buildServiceLastPluginOutput serviceName interval aggregation builders noData)])%list
      end
  end.

Definition buildServices (resourceName : string) (hostServices : gmap string (gmap string serviceMetricState))
    (interval : Z) (aggregation : string) : outcome (list MonitoredService) :=
  foldM (build_service resourceName interval aggregation hostServices) [] (merge_sort str_le (map_order hostServices).*1).
End services.

(** ** Collection *)

Record ExtConfig (R : Type) := mkExtConfig {
  ec_Ownership : HostOwnershipType;
  ec_CheckInterval : Z;
  ec_HostGroup : string;
  ec_HostPrefix : string;
  ec_OracleTenancyOCID : string;
  ec_OracleUserOCID : string;
  ec_OraclePrivateKey : string;
  ec_OracleFingerprint : string;
  ec_OracleRegion : string;
  ec_OracleAggregationType : string;
  (** The mappings of hosts and of services. *)
  ec_Host : list (@Mapping.Mapping R);
  ec_Service : list (@Mapping.Mapping R);
}.
Arguments mkExtConfig {R}.
Arguments ec_Ownership {R}. Arguments ec_CheckInterval {R}. Arguments ec_HostGroup {R}. Arguments ec_HostPrefix {R}.
Arguments ec_OracleTenancyOCID {R}. Arguments ec_OracleUserOCID {R}. Arguments ec_OraclePrivateKey {R}.
Arguments ec_OracleFingerprint {R}. Arguments ec_OracleRegion {R}. Arguments ec_OracleAggregationType {R}.
Arguments ec_Host {R}. Arguments ec_Service {R}.

Definition with_interval {R} (c : ExtConfig R) (interval : Z) (aggregation : string) : ExtConfig R :=
  mkExtConfig (ec_Ownership c) interval (ec_HostGroup c) (ec_HostPrefix c) (ec_OracleTenancyOCID c) (ec_OracleUserOCID c)
    (ec_OraclePrivateKey c) (ec_OracleFingerprint c) (ec_OracleRegion c) aggregation (ec_Host c) (ec_Service c).

(** [ExtConfig.UnmarshalJSON]: a new interval is a number of minutes. *)
Definition ExtConfig_UnmarshalJSON {R} (cfg : ExtConfig R) (decoded : result error (ExtConfig R)) : result error (ExtConfig R) :=
  c ← decoded;
  Val (with_interval c
    (if decide (ec_CheckInterval c ≠ ec_CheckInterval cfg) then int64 (ec_CheckInterval c * Minute) else ec_CheckInterval c)
    (ec_OracleAggregationType c)).

(** The series of a service, by their keys; the services of a host; the hosts by their
    identity. *)
Abbreviation service_states := (gmap string serviceMetricState).
Abbreviation host_states := (gmap string service_states).
Abbreviation states := (gmap string host_states).

Definition canceled (e : error) : bool := Is e (tgt Canceled).

Section collect.
Context `{MapOrder} {R : Type} `{Regexps R} (CheckInterval : Z) (now : Timestamp) (format_other : any → string).
Context (client : oci_client) (fuel : nat) (cfg : ExtConfig R).

Definition configured : bool :=
  negb (bool_decide (ec_OracleTenancyOCID cfg = "") || bool_decide (ec_OracleUserOCID cfg = "") ||
        bool_decide (ec_OraclePrivateKey cfg = "") || bool_decide (ec_OracleFingerprint cfg = "") ||
        bool_decide (ec_OracleRegion cfg = "")).

Definition sample_state (s : sample) : serviceMetricState :=
  mkMetricState
    (mkMetricBuilder (sa_ServiceName s) (sa_ServiceName s) "" "" (AFloat64 (sa_Value s)) (Some (ArgUnit UnitCounter)) ANil ANil
       (Some (sa_StartTime s)) (Some (sa_EndTime s)) false ∅)
    (sa_Dimensions s) (sa_NoData s) (sa_EndTime s).

(** A sample replaces the state of its series when it is later, or has data where that
    has none. *)
Definition replaces (s : sample) (old : option serviceMetricState) : bool :=
  match old with
  | None => true
  | Some st => after (sa_EndTime s) (sm_endTime st) || (same_time (sa_EndTime s) (sm_endTime st) && sm_noData st && negb (sa_NoData s))
  end.

Definition add_sample (inventory : gmap string Resource) (m : states) (s : sample) : states :=
  if bool_decide (sa_ResourceID s = "") then m
  else match inventory !! sa_ResourceID s with
  | None => m
  | Some _ =>
      let services := default ∅ (m !! sa_ResourceID s) in
      let series := default ∅ (services !! sa_ServiceName s) in
      let key := buildDimensionSeriesKey (sa_Dimensions s) in
      let series := if replaces s (series !! key) then <[key := sample_state s]> series else series in
      <[sa_ResourceID s := <[sa_ServiceName s := series]> services]> m
  end.

(** The samples of a compartment's definitions; [None] when the context is cancelled. *)
Fixpoint collect_definitions (inventory : gmap string Resource) (c : compartment) (m : states) (ds : list definition)
  : outcome (option states) :=
  match ds with
  | [] => Ret (Some m)
  | d :: ds =>
      ok ← MatchString (ec_Service cfg) (df_Name d);
      if negb ok then collect_definitions inventory c m ds
      else match ListSamples client now c d (ec_CheckInterval cfg) (ec_OracleAggregationType cfg) with
      | Fail e => if canceled e then Ret None else collect_definitions inventory c m ds
      | Val samples => collect_definitions inventory c (foldl (add_sample inventory) m samples) ds
      end
  end.

Fixpoint collect_compartments (inventory : gmap string Resource) (m : states) (cs : list compartment) : run (option states) :=
  match cs with
  | [] => RRet (Some m)
  | c :: cs =>
      r ← ListDefinitions client fuel (cp_ID c);
      match r with
      | Fail e => if canceled e then RRet None else collect_compartments inventory m cs
      | Val ds =>
          r ← lift_o (collect_definitions inventory c m ds);
          match r with None => RRet None | Some m => collect_compartments inventory m cs end
      end
  end.

(** *** Resources and groups *)

Definition group_name (compartmentNames : gmap string string) (r : Resource) : string :=
  let name := default "" (compartmentNames !! rs_CompartmentID r) in
  if decide (name = "") then TrimSpace (rs_CompartmentID r) else name.

Definition add_ref (groups : gmap string (list ResourceRef)) (groupName displayName : string) : gmap string (list ResourceRef) :=
  if decide (groupName = "") then groups
  else <[groupName := (default [] (groups !! groupName) ++ [CreateResourceRef displayName "" ResourceTypeHost])%list]> groups.

Definition collect_resource (compartmentNames : gmap string string) (m : states)
    (acc : list MonitoredResource * gmap string (list ResourceRef)) (r : Resource)
  : outcome (list MonitoredResource * gmap string (list ResourceRef)) :=
  let '(resources, groups) := acc in
  ok ← MatchString (ec_Host cfg) (rs_DisplayName r);
  if negb ok then Ret acc
  else
    services ← buildServices format_other CheckInterval now (rs_DisplayName r) (default ∅ (m !! rs_OCID r))
                 (ec_CheckInterval cfg) (ec_OracleAggregationType cfg);
    match CreateResource CheckInterval now (rs_DisplayName r) [ResServices services] with
    | Fail _ => Ret acc
    | Val mr =>
        let mr := mkMonitoredResource (mr_BaseResource mr)
                    (SetStatus (mr_MonitoredInfo mr) (mapLifecycleStateToHostStatus (rs_LifecycleState r))) (mr_Services mr) in
        Ret ((resources ++ [mr])%list, add_ref groups (group_name compartmentNames r) (rs_DisplayName r))
    end.

Definition resource_groups (groups : gmap string (list ResourceRef)) : list ResourceGroup :=
  omap (λ groupName,
    match default [] (groups !! groupName) with
    | [] => None
    | refs => Some (CreateResourceGroup groupName "" HostGroup (merge_sort ref_le refs))
    end) (merge_sort str_le (map_order groups).*1).

Definition compartment_names (cs : list compartment) : gmap string string :=
  foldl (λ m c, <[cp_ID c := TrimSpace (cp_Name c)]> m) ∅ cs.

(** What is found, from the compartments and the inventory. *)
Definition collect_from (compartments : list compartment) (inventory : gmap string Resource)
  : run (option (list MonitoredResource * gmap string (list ResourceRef))) :=
  r ← collect_compartments inventory ∅ compartments;
  match r with
  | None => RRet None
  | Some m =>
      found ← lift_o (foldM (collect_resource (compartment_names compartments) m) ([], ∅) (SortedResources inventory));
      RRet (Some found)
  end.

(** The versions of the configuration when the collection starts and ends, the errors of
    the three clients, and the transit service. *)
Context (version_start version_end : Z) (client_errors : list (option error)) {S : Type}.
Context (SendMetrics : S → list MonitoredResource → list ResourceGroup → run S).

Definition collectMetrics (s : S) : run S :=
  if negb configured then RRet s
  else if bool_decide (ec_Host cfg = []) || bool_decide (ec_Service cfg = []) then RRet s
  else if existsb (λ e, match e with Some _ => true | None => false end) client_errors then RRet s
  else
    r ← ListCompartments client fuel (ec_OracleTenancyOCID cfg);
    match r with
    | Fail _ => RRet s
    | Val compartments =>
        r ← ListResources client fuel;
        match (match r with Fail e => if canceled e then None else Some ∅ | Val inventory => Some inventory end) with
        | None => RRet s
        | Some inventory =>
            r ← collect_from compartments inventory;
            match r with
            | None => RRet s
            | Some ([], _) => RRet s
            | Some (resources, groups) =>
                if decide (version_start ≠ version_end) then RRet s
                else SendMetrics s resources (resource_groups groups)
            end
        end
    end.
End collect.

(** ** The configuration *)

Section config.
Context {R : Type} `{Regexps R}.

Definition defaultCheckInterval : Z := Minute.

(** [configHandler]: the configuration, its version, and whether the loop is started. *)
Definition configHandler (version : Z) (conns : list GWConnection) (enabled : bool) (parsed : result error (ExtConfig R))
  : option (ExtConfig R * Z * bool) :=
  match parsed with
  | Fail _ => None
  | Val e =>
      let e := with_interval e
        (if decide (ec_CheckInterval e ≤ 0)%Z then defaultCheckInterval else ec_CheckInterval e)
        (if decide (TrimSpace (ec_OracleAggregationType e) = "") then defaultAggregationType else ec_OracleAggregationType e) in
      let ownership := match conns with [] => ec_Ownership e | c :: _ => DeferOwnership c end in
      Some (mkExtConfig ownership (ec_CheckInterval e) (ec_HostGroup e) (ec_HostPrefix e) (ec_OracleTenancyOCID e)
              (ec_OracleUserOCID e) (ec_OraclePrivateKey e) (ec_OracleFingerprint e) (ec_OracleRegion e)
              (ec_OracleAggregationType e) (Prepare1 (ec_Host e)) (Prepare1 (ec_Service e)),
            uwrap 64 (version + 1), enabled)
  end.
End config.

(** ** Lemmas *)

(** *** Pages *)

Section pages_lemmas.
Context {A S : Type} (get : option string → page_of A) (absorb : S → A → S).

(** The pages the service hands out, from a mark on. *)
Inductive hands_out : option string → list (list A) → Prop :=
| hands_last page items next :
    get page = Val (items, next) → default "" next = "" → hands_out page [items]
| hands_page page items next rest :
    get page = Val (items, next) → default "" next ≠ "" → hands_out next rest → hands_out page (items :: rest).

(** A listing takes in every item of every page, in their order, and ends when the pages
    do. *)
Lemma pages_all fuel s page ps :
  hands_out page ps → (length ps ≤ fuel)%nat → pages get absorb fuel s page = RRet (Val (foldl absorb s (concat ps))).
Proof using Type.
  intros Hp. revert fuel s. induction Hp as [page items next Hg Hn|page items next rest Hg Hn _ IH];
    intros [|fuel] s Hf; cbn [length] in Hf; try lia; cbn [pages concat]; rewrite Hg.
  - by rewrite decide_True, app_nil_r.
  - rewrite decide_False, foldl_app by done. apply IH. lia.
Qed.
End pages_lemmas.

(** *** The latest sample *)

Lemma after_trans a b c : after a b = true → after b c = true → after a c = true.
Proof. unfold after. rewrite !bool_decide_eq_true. lia. Qed.

Lemma after_same a b c : after a b = true → same_time b c = true → after a c = true.
Proof. unfold after, same_time. rewrite !bool_decide_eq_true. lia. Qed.

Lemma after_cases a b : after a b = true ∨ same_time a b = true ∨ after b a = true.
Proof. unfold after, same_time. rewrite !bool_decide_eq_true. lia. Qed.

Lemma after_irrefl a b : after a b = true → same_time a b = false ∧ after b a = false.
Proof. unfold after, same_time. rewrite bool_decide_eq_true, !bool_decide_eq_false. lia. Qed.

Definition state_of (m : states) (ocid service key : string) : option serviceMetricState :=
  services ← m !! ocid; series ← services !! service; series !! key.

Section samples.
Context {HO : MapOrder} (inventory : gmap string Resource).

(** The samples of a series of a resource that is known. *)
Definition relevant (ocid service key : string) (s : sample) : bool :=
  bool_decide (sa_ResourceID s = ocid) && bool_decide (sa_ServiceName s = service) &&
  bool_decide (buildDimensionSeriesKey (sa_Dimensions s) = key) && negb (bool_decide (sa_ResourceID s = "")) &&
  bool_decide (is_Some (inventory !! sa_ResourceID s)).

Lemma add_sample_state m s ocid service key :
  state_of (add_sample inventory m s) ocid service key =
  if relevant ocid service key s && replaces s (state_of m ocid service key) then Some (sample_state s)
  else state_of m ocid service key.
Proof using Type.
  unfold add_sample, relevant. destruct (bool_decide (sa_ResourceID s = "")); [by rewrite andb_false_r|].
  destruct (inventory !! sa_ResourceID s) as [r|]; [rewrite (bool_decide_true (is_Some _)) by by eexists
    |rewrite (bool_decide_false (is_Some _)) by (by intros [? ?]); by rewrite andb_false_r].
  rewrite !andb_true_r. unfold state_of.
  case_bool_decide as Ho; [subst ocid|by rewrite lookup_insert_ne by done]. rewrite lookup_insert_eq. cbn [mbind option_bind andb].
  case_bool_decide as Hv; [subst service|].
  2: { rewrite lookup_insert_ne by done. destruct (m !! sa_ResourceID s) as [services|]; [done|]. cbn. by rewrite lookup_empty. }
  rewrite lookup_insert_eq. cbn [mbind option_bind andb].
  assert (∀ k, default ∅ (default ∅ (m !! sa_ResourceID s) !! sa_ServiceName s) !! k =
    (services ← m !! sa_ResourceID s; series ← services !! sa_ServiceName s; series !! k)) as Hk.
  { intros k. destruct (m !! sa_ResourceID s) as [services|]; cbn; [|by rewrite !lookup_empty].
    destruct (services !! sa_ServiceName s); cbn; [done|by rewrite lookup_empty]. }
  rewrite <-!Hk. case_bool_decide as Hkey; [subst key|].
  - destruct (replaces s _); [by rewrite lookup_insert_eq|done].
  - destruct (replaces s _); [by rewrite lookup_insert_ne|done].
Qed.

(** A sample is as good as another: not earlier, and with data if the other of that time
    has. *)
Definition as_good (s s' : sample) : Prop :=
  after (sa_EndTime s') (sa_EndTime s) = false ∧
  (same_time (sa_EndTime s') (sa_EndTime s) = true → sa_NoData s = true → sa_NoData s' = true).

Lemma replaces_good s s0 : replaces s (Some (sample_state s0)) = true → as_good s s0.
Proof using Type.
  unfold replaces, as_good. cbn [sample_state sm_endTime sm_noData]. intros [Ha|Hs]%orb_true_iff.
  - pose proof (after_irrefl _ _ Ha) as [H1 H2]. split; [done|]. intros Hst.
    unfold same_time in *. rewrite bool_decide_eq_true in Hst. rewrite bool_decide_eq_false in H1. destruct H1. lia.
  - apply andb_true_iff in Hs as [[Hs Hn]%andb_true_iff Hd%negb_true_iff]. split; [|congruence].
    unfold same_time, after in *. rewrite bool_decide_eq_true in Hs. rewrite bool_decide_eq_false. lia.
Qed.

Lemma keeps_good s s0 : replaces s (Some (sample_state s0)) = false → as_good s0 s.
Proof using Type.
  unfold replaces, as_good. cbn [sample_state sm_endTime sm_noData]. intros [Ha Hs]%orb_false_iff. split; [done|].
  intros Hst Hn. rewrite Hst, Hn in Hs. cbn in Hs. by apply negb_false_iff in Hs.
Qed.

Lemma as_good_trans a b c : as_good a b → as_good b c → as_good a c.
Proof using Type.
  unfold as_good, after, same_time. rewrite !bool_decide_eq_false, !bool_decide_eq_true. intros [H1 H2] [H3 H4].
  split; [lia|]. intros Hac Hn. apply H4; [lia|]. apply H2; [lia|done].
Qed.

Lemma as_good_refl a : as_good a a.
Proof using Type. split; [|done]. unfold after. rewrite bool_decide_eq_false. lia. Qed.

(** Of all samples of a series of a resource that is known, in whatever order they come,
    a latest one is kept, and one with data if a sample of that time has data. *)
Theorem latest_sample_kept (samples : list sample) (ocid service key : string) :
  match state_of (foldl (add_sample inventory) ∅ samples) ocid service key with
  | None => ∀ s, s ∈ samples → relevant ocid service key s = false
  | Some st => ∃ s, s ∈ samples ∧ relevant ocid service key s = true ∧ st = sample_state s ∧
      ∀ s', s' ∈ samples → relevant ocid service key s' = true → as_good s s'
  end.
Proof using Type.
  induction samples as [|x samples IH] using rev_ind.
  { unfold state_of. cbn [foldl]. rewrite lookup_empty. by intros s ?%elem_of_nil. }
  rewrite foldl_app. cbn [foldl]. rewrite add_sample_state.
  destruct (relevant ocid service key x) eqn:Hx; cbn [andb].
  - destruct (state_of _ ocid service key) as [st|].
    + destruct IH as (s & Hs & Hrel & -> & Hgood). destruct (replaces x (Some (sample_state s))) eqn:Hr.
      * apply replaces_good in Hr. exists x. split; [apply elem_of_app; right; by left|]. do 2 (split; [done|]).
        intros s' [Hs'|Hs'%list_elem_of_singleton]%elem_of_app Hrel'.
        -- eapply as_good_trans; [exact Hr|]. by apply Hgood.
        -- subst s'. apply as_good_refl.
      * apply keeps_good in Hr. exists s. split; [apply elem_of_app; by left|]. do 2 (split; [done|]).
        intros s' [Hs'|Hs'%list_elem_of_singleton]%elem_of_app Hrel'; [by apply Hgood|by subst s'].
    + cbn [replaces]. exists x. split; [apply elem_of_app; right; by left|]. do 2 (split; [done|]).
      intros s' [Hs'|Hs'%list_elem_of_singleton]%elem_of_app Hrel'; [by rewrite IH in Hrel'|].
      subst s'. apply as_good_refl.
  - destruct (state_of _ ocid service key) as [st|].
    + destruct IH as (s & Hs & Hrel & -> & Hgood). exists s. split; [apply elem_of_app; by left|]. do 2 (split; [done|]).
      intros s' [Hs'|Hs'%list_elem_of_singleton]%elem_of_app Hrel'; [by apply Hgood|]. subst s'. congruence.
    + intros s [Hs|Hs%list_elem_of_singleton]%elem_of_app; [by apply IH|by subst s].
Qed.
End samples.

(** *** What is sent *)

Section sent.
Context {HO : MapOrder} {R : Type} {HR : Regexps R} (CheckInterval : Z) (now : Timestamp) (format_other : any → string).
Context (client : oci_client) (fuel : nat) (cfg : ExtConfig R).

Definition resource_name (r : MonitoredResource) : string := bi_Name (br_BaseInfo (mr_BaseResource r)).

(** The resources whose names the mappings match. *)
Definition matched (r : Resource) : bool :=
  match MatchString (ec_Host cfg) (rs_DisplayName r) with Ret ok => ok | Panic _ => false end.

Definition host_ref (r : Resource) : ResourceRef := CreateResourceRef (rs_DisplayName r) "" ResourceTypeHost.

Definition in_group (names : gmap string string) (g : string) (r : Resource) : bool :=
  matched r && bool_decide (group_name names r = g).

Lemma CreateResource_services name services :
  ∃ mr, CreateResource CheckInterval now name [ResServices services] = Val mr ∧ resource_name mr = name ∧ mr_Services mr = services.
Proof using Type. unfold CreateResource. cbn [resource_args mbind result_bind]. by eexists. Qed.

Lemma collect_resources_found names m rs out groups out' groups' :
  foldM (collect_resource CheckInterval now format_other cfg names m) (out, groups) rs = Ret (out', groups') →
  resource_name <$> out' = ((resource_name <$> out) ++ (rs_DisplayName <$> List.filter matched rs))%list ∧
  (∀ g, g ≠ "" → default [] (groups' !! g) = default [] (groups !! g) ++ (host_ref <$> List.filter (in_group names g) rs))%list ∧
  groups' !! "" = groups !! "".
Proof using Type.
  revert out groups. induction rs as [|r rs IH]; intros out groups; cbn [foldM].
  { intros [= <- <-]. cbn. rewrite app_nil_r. split; [done|]. split; [|done]. intros g _. by rewrite app_nil_r. }
  intros ([out1 groups1] & Hr & Hrs)%bind_Ret_inv. unfold collect_resource in Hr. cbn [List.filter].
  apply bind_Ret_inv in Hr as (ok & Hok & Hr).
  assert (matched r = ok) as Hm by (unfold matched; by rewrite Hok).
  assert (∀ g, in_group names g r = ok && bool_decide (group_name names r = g)) as Hg by (intros; unfold in_group; by rewrite Hm).
  setoid_rewrite Hg. rewrite Hm. destruct ok; cbn [negb andb] in *.
  2: { injection Hr as <- <-. by apply IH. }
  apply bind_Ret_inv in Hr as (services & _ & Hr).
  destruct (CreateResource_services (rs_DisplayName r) services) as (mr & Hmr & Hname & _). rewrite Hmr in Hr. injection Hr as <- <-.
  apply IH in Hrs as (Ho & Hgr & He). split; [|split].
  - rewrite Ho, fmap_app. cbn. unfold resource_name at 2. cbn [mr_BaseResource]. fold (resource_name mr). rewrite Hname.
    by rewrite <-(assoc_L (++)).
  - intros g Hne. rewrite (Hgr g Hne). unfold add_ref. case_bool_decide as Hgn.
    + rewrite decide_False, Hgn, lookup_insert_eq by congruence. cbn. by rewrite <-(assoc_L (++)).
    + case_decide; [done|]. by rewrite lookup_insert_ne.
  - rewrite He. unfold add_ref. case_decide; [done|]. by rewrite lookup_insert_ne.
Qed.

Lemma resource_groups_elem (groups : gmap string (list ResourceRef)) rg :
  rg ∈ resource_groups groups ↔
  ∃ g refs, groups !! g = Some refs ∧ refs ≠ [] ∧ rg = CreateResourceGroup g "" HostGroup (merge_sort ref_le refs).
Proof using Type.
  unfold resource_groups. rewrite list_elem_of_omap. split.
  - intros (g & Hg & Hrg). destruct (groups !! g) as [[|x refs]|] eqn:Hl; cbn in Hrg; [done| |done].
    injection Hrg as <-. by exists g, (x :: refs).
  - intros (g & refs & Hg & Hne & ->). exists g. rewrite Hg. cbn. split; [|by destruct refs].
    rewrite merge_sort_Permutation. apply list_elem_of_fmap. exists (g, refs). split; [done|]. by apply elem_of_map_order.
Qed.

Lemma resource_groups_names (groups : gmap string (list ResourceRef)) : NoDup (rg_GroupName <$> resource_groups groups).
Proof using Type.
  unfold resource_groups.
  assert (NoDup (merge_sort str_le (map_order groups).*1)) as Hnd by (rewrite merge_sort_Permutation; apply NoDup_map_order).
  induction Hnd as [|g l Hg _ IH]; [constructor|]. cbn [omap list_omap].
  destruct (default [] (groups !! g)) as [|x refs]; [exact IH|]. cbn [fmap list_fmap rg_GroupName CreateResourceGroup].
  constructor; [|exact IH]. intros (rg & Hn & (g' & Hg' & Hrg)%list_elem_of_omap)%list_elem_of_fmap. apply Hg.
  destruct (default [] (groups !! g')); [done|]. injection Hrg as <-. cbn in Hn. by subst g'.
Qed.

(** C32: A round sends nothing, or exactly this: for each resource of the inventory whose name
    the mappings match, in the order of their names, one host; and groups of distinct
    names, each with the hosts of its compartment, such that every host whose group has a
    name is in the group.  It sends nothing when the configuration has changed since. *)
Theorem collection_sent (version_start version_end : Z) (client_errors : list (option error)) {S : Type}
    (SendMetrics : S → list MonitoredResource → list ResourceGroup → run S) (s s' : S) :
  collectMetrics CheckInterval now format_other client fuel cfg version_start version_end client_errors SendMetrics s = RRet s' →
  s' = s ∨
  version_start = version_end ∧ ∃ cs inventory resources gs,
    ListCompartments client fuel (ec_OracleTenancyOCID cfg) = RRet (Val cs) ∧
    ListResources client fuel = RRet (Val inventory) ∧
    SendMetrics s resources gs = RRet s' ∧
    resource_name <$> resources = rs_DisplayName <$> List.filter matched (SortedResources inventory) ∧
    NoDup (rg_GroupName <$> gs) ∧
    (∀ g, g ∈ gs → rg_Resources g ≡ₚ host_ref <$> List.filter (in_group (compartment_names cs) (rg_GroupName g)) (SortedResources inventory)) ∧
    (∀ r, r ∈ SortedResources inventory → matched r = true → group_name (compartment_names cs) r ≠ "" →
      ∃ g, g ∈ gs ∧ rg_GroupName g = group_name (compartment_names cs) r ∧ host_ref r ∈ rg_Resources g).
Proof using Type.
  unfold collectMetrics. destruct (negb _); [by intros [= ->]; left|]. destruct (_ || _); [by intros [= ->]; left|].
  destruct (existsb _ _); [by intros [= ->]; left|].
  destruct (ListCompartments client fuel _) as [[cs|e]|w|]; cbn [mbind run_bind]; [|by intros [= ->]; left|done..].
  destruct (ListResources client fuel) as [r|w|]; cbn [mbind run_bind]; [|done..].
  destruct r as [inventory|e].
  2: { destruct (canceled e); [by intros [= ->]; left|]. unfold collect_from.
    destruct (collect_compartments _ _ _ _ _ _ _) as [[m|]|w|]; cbn [mbind run_bind]; [|by intros [= ->]; left|done..].
    assert (SortedResources ∅ = []) as ->.
    { unfold SortedResources. assert (map_order (∅ : gmap string Resource) = []) as ->; [|done].
      apply Permutation_nil_r. by rewrite map_order_perm, map_to_list_empty. }
    cbn [foldM lift_o mbind run_bind]. by intros [= ->]; left. }
  unfold collect_from. destruct (collect_compartments _ _ _ _ _ _ _) as [[m|]|w|]; cbn [mbind run_bind]; [|by intros [= ->]; left|done..].
  destruct (foldM _ _ _) as [[resources groups]|w] eqn:Hf; cbn [lift_o mbind run_bind]; [|done].
  apply collect_resources_found in Hf as (Hn & Hg & He). cbn [fmap list_fmap app] in Hn.
  destruct resources as [|mr resources]; [by intros [= ->]; left|].
  destruct (decide _) as [_|Hv]; [by intros [= ->]; left|]. intros Hs. right.
  assert (version_start = version_end) as Hver by lia. split; [done|].
  exists cs, inventory, (mr :: resources), (resource_groups groups). do 3 (split; [done|]). split; [exact Hn|].
  split; [apply resource_groups_names|]. rewrite lookup_empty in He.
  assert (∀ g refs, groups !! g = Some refs → refs = host_ref <$> List.filter (in_group (compartment_names cs) g) (SortedResources inventory)) as Hrefs.
  { intros g refs Hl. destruct (decide (g = "")) as [->|Hne]; [congruence|]. specialize (Hg g Hne).
    rewrite Hl, lookup_empty in Hg. exact Hg. }
  split.
  - intros g (n & refs & Hl & _ & ->)%resource_groups_elem. cbn [rg_Resources rg_GroupName CreateResourceGroup].
    rewrite merge_sort_Permutation. by rewrite (Hrefs n refs Hl).
  - intros r Hr Hm Hne. set (n := group_name (compartment_names cs) r) in *.
    assert (host_ref r ∈ default [] (groups !! n)) as Hin.
    { rewrite (Hg n Hne), lookup_empty. apply list_elem_of_fmap. exists r. split; [done|].
      apply list_elem_of_In, filter_In. split; [by apply list_elem_of_In|]. unfold in_group. rewrite Hm. by rewrite bool_decide_true. }
    destruct (groups !! n) as [refs|] eqn:Hl; cbn in Hin; [|by apply elem_of_nil in Hin].
    exists (CreateResourceGroup n "" HostGroup (merge_sort ref_le refs)). split; [|split; [done|]].
    + apply resource_groups_elem. exists n, refs. split; [done|]. split; [|done]. intros ->. by apply elem_of_nil in Hin.
    + cbn. by rewrite merge_sort_Permutation.
Qed.
End sent.

(** *** The inventory *)

(** An item that is monitored, under an identity. *)
Definition monitored_item (ocid : string) (item : resource_item) : Prop :=
  ∃ identifier type, ri_Identifier item = Some identifier ∧ ri_ResourceType item = Some type ∧
    isMonitoredResourceType type = true ∧ TrimSpace identifier = ocid ∧ ocid ≠ "".

Lemma add_resource_known inventory item ocid :
  is_Some (add_resource inventory item !! ocid) ↔ is_Some (inventory !! ocid) ∨ monitored_item ocid item.
Proof.
  unfold add_resource.
  destruct (ri_Identifier item) as [identifier|] eqn:Hi;
    [|split; [by left|]; intros [?|(i & t & H1 & _)]; [done|congruence]].
  destruct (ri_ResourceType item) as [type|] eqn:Ht;
    [|split; [by left|]; intros [?|(i & t & _ & H1 & _)]; [done|congruence]].
  assert (monitored_item ocid item ↔ isMonitoredResourceType type = true ∧ TrimSpace identifier = ocid ∧ ocid ≠ "") as ->.
  { unfold monitored_item. rewrite Hi, Ht. split.
    - intros (i & t & H1 & H2 & H3). by injection H1 as <-; injection H2 as <-.
    - intros H3. by exists identifier, type. }
  destruct (isMonitoredResourceType type); cbn [negb orb]; [|split; [by left|]; intros [?|[? _]]; done].
  case_bool_decide as He.
  - split; [by left|]. intros [?|(_ & <- & ?)]; done.
  - rewrite lookup_insert_is_Some. destruct (decide (TrimSpace identifier = ocid)) as [<-|]; [|naive_solver].
    split; intros _; [by right|by left].
Qed.

(** The inventory ends with the pages of the search, and has every monitored resource that
    is on one of them, and no other. *)
Theorem inventory_complete (client : oci_client) (fuel : nat) (ps : list (list resource_item)) :
  hands_out (oc_SearchResources client) None ps → (length ps ≤ fuel)%nat →
  ∃ inventory, ListResources client fuel = RRet (Val inventory) ∧
    ∀ ocid, is_Some (inventory !! ocid) ↔ ∃ item, item ∈ concat ps ∧ monitored_item ocid item.
Proof.
  intros Hp Hf. eexists. split; [unfold ListResources; by apply pages_all|]. intros ocid.
  assert (∀ items inv, is_Some (foldl add_resource inv items !! ocid) ↔
    is_Some (inv !! ocid) ∨ ∃ item, item ∈ items ∧ monitored_item ocid item) as H.
  { induction items as [|x items IH]; intros inv; cbn [foldl].
    - split; [by left|]. intros [?|(x & ?%elem_of_nil & _)]; done.
    - rewrite IH, add_resource_known. setoid_rewrite elem_of_cons. naive_solver. }
  rewrite H, lookup_empty. split; [intros [[? ?]|?]; done|by right].
Qed.

(** ** A concrete cloud *)

Definition sample_item (id name compartment : string) : resource_item :=
  mkResourceItem (Some id) (Some "Instance") (Some name) (Some "Running") (Some compartment).

(** Two pages of resources; one definition, and its points for the first instance. *)
Definition sample_client : oci_client := {|
  oc_GetCompartment _ := Val (Some "root", Some "Tenancy");
  oc_ListCompartments _ _ := Val ([mkCompartmentItem (Some "c1") (Some "Shop") "ACTIVE"], None);
  oc_ListMetrics c _ :=
    if decide (c = "c1") then Val ([mkMetricItem (Some "oci") (Some "CpuUtilization") ∅], None) else Val ([], None);
  oc_SearchResources page :=
    match page with
    | None => Val ([sample_item "i2" "web-2" "c1"; sample_item "i1" "web-1" "c1"], Some "p2")
    | Some _ => Val ([sample_item "i3" "db" ""; mkResourceItem (Some "k") (Some "Key") None None None], None)
    end;
  oc_Summarize _ :=
    Val [mkMetricData None {["resourceId" := "i1"]}
           [mkDatapoint (Some (mkTimestamp 60 0 UTCLoc)) (Some (f_of_Z 7)); mkDatapoint (Some (mkTimestamp 120 0 UTCLoc)) (Some (f_of_Z 9))]];
|}.

Definition sample_config : ExtConfig unit :=
  mkExtConfig Yield Minute "" "" "t" "u" "k" "f" "r" "sum" [all_of "" ""] [all_of "" ""].

Definition sample_round (version_end : Z) : run (list (list MonitoredResource * list ResourceGroup)) :=
  @collectMetrics sorted_order unit whole DefaultCheckInterval (mkTimestamp 150 0 LocalLoc) (λ _, "") sample_client 5 sample_config
    1 version_end [] _ (λ s resources groups, RRet (s ++ [(resources, groups)])%list) [].

Definition sent_names (s : list (list MonitoredResource * list ResourceGroup)) : list (list string * list (string * list string)) :=
  (λ rg : list MonitoredResource * list ResourceGroup,
     (resource_name <$> rg.1, (λ g, (rg_GroupName g, rr_Name <$> rg_Resources g)) <$> rg.2)) <$> s.

(** The hosts in the order of their names, the group of their compartment, and a host
    without a compartment in none. *)
Example sample_sent :
  match sample_round 1 with RRet s => sent_names s | _ => [] end = [(["db"; "web-1"; "web-2"], [("Shop", ["web-1"; "web-2"])])] ∧
  sample_round 2 = RRet [].
Proof. by vm_compute. Qed.

Example sample_output :
  match sample_round 1 with
  | RRet [(rs, _)] => (λ s, (bi_Name (ms_BaseInfo s), mi_LastPluginOutput (ms_MonitoredInfo s))) <$> (rs ≫= mr_Services)
  | _ => []
  end = [("CpuUtilization", "CpuUtilization sum(1m)=9")].
Proof. by vm_compute. Qed.

(** Different dimensions can have one key, and then one of the series is lost. *)
Example series_key_ambiguous :
  @buildDimensionSeriesKey sorted_order (<["a" := "1"]> {["b" := "2"]}) = @buildDimensionSeriesKey sorted_order {["a" := "1__b_2"]}.
Proof. by vm_compute. Qed.

(** A key with a space is looked up without it: the dimension is lost. *)
Example spaced_key_lost : @buildDimensionSeriesKey sorted_order {["disk " := "sda"]} = "__default__".
Proof. by vm_compute. Qed.

(** The number that tells two series apart can be the name of a third. *)
Example numbered_name_taken :
  let state v := mkMetricState (mkMetricBuilder "" "" "" "" ANil None ANil ANil None None false ∅) {["d" := v]} false (mkTimestamp 0 0 UTCLoc) in
  match foldM (@name_series sorted_order "cpu" true) (∅, [], 0%Z) [state "x y"; state "x y_2"; state "x_y"] with
  | Ret (_, builders, _) => mb_Name <$> builders
  | Panic _ => []
  end = ["cpu_d_x_y"; "cpu_d_x_y_2"; "cpu_d_x_y_2"].
Proof. by vm_compute. Qed.

Lemma collection_sent_witness :
  ∃ s, sample_round 1 = RRet s ∧
    (s = [] ∨ (1 = 1)%Z ∧ ∃ cs inventory resources gs,
      ListCompartments (H := sorted_order) sample_client 5 "t" = RRet (Val cs) ∧
      ListResources sample_client 5 = RRet (Val inventory) ∧ s = [(resources, gs)] ∧ NoDup (rg_GroupName <$> gs)).
Proof.
  destruct (sample_round 1) as [s|w|] eqn:Hs; [|exfalso; vm_compute in Hs; discriminate..].
  exists s. split; [reflexivity|].
  destruct (@collection_sent sorted_order unit whole DefaultCheckInterval (mkTimestamp 150 0 LocalLoc) (λ _, "") sample_client 5
    sample_config 1 1 [] _ (λ s resources groups, RRet (s ++ [(resources, groups)])%list) [] s Hs)
    as [->|(Hv & cs & inventory & resources & gs & H1 & H2 & H3 & _ & H4 & _)]; [by left|].
  right. split; [exact Hv|]. exists cs, inventory, resources, gs. split; [exact H1|]. split; [exact H2|].
  split; [|exact H4]. cbn in H3. injection H3 as <-. reflexivity.
Defined.

Lemma inventory_complete_witness :
  ∃ inventory, ListResources sample_client 2 = RRet (Val inventory) ∧ is_Some (inventory !! "i3") ∧ ¬ is_Some (inventory !! "k").
Proof.
  destruct (inventory_complete sample_client 2
    [[sample_item "i2" "web-2" "c1"; sample_item "i1" "web-1" "c1"];
     [sample_item "i3" "db" ""; mkResourceItem (Some "k") (Some "Key") None None None]]) as (inv & Hl & Hk).
  - eapply hands_page; [reflexivity|discriminate|]. eapply hands_last; reflexivity.
  - cbn. lia.
  - exists inv. split; [exact Hl|]. rewrite !Hk. split.
    + exists (sample_item "i3" "db" ""). split; [do 2 right; left|]. exists "i3", "Instance".
      split_and!; [reflexivity|reflexivity|reflexivity|reflexivity|discriminate].
    + intros (item & Hi & id & ty & H1 & H2 & H3 & H4 & _). cbn in Hi.
      repeat (apply elem_of_cons in Hi as [->|Hi]; [cbn in H1, H2; injection H1 as <-; injection H2 as <-; vm_compute in H3, H4; discriminate|]).
      by apply elem_of_nil in Hi.
Defined.
