(* ===== verification/Azure.v ===== *)
(** connectors/azure: the connector of Microsoft Azure.

    The vendor's clients are arguments; a pager is the list of its pages.  The filters of
    resources and definitions are those of [Mapping]. *)

From S2P Require Import Prelude.
From S2P Require Import GoString.
From S2P Require Import GoFloat.
From S2P Require Import FloatText.
From S2P Require Import Errors.
From S2P Require Import Timestamp.
From S2P Require Import TypedValue.
From S2P Require Import Transit.
From S2P Require Import Status.
From S2P Require Import Codec.
From S2P Require Import Batcher.
From S2P Require Import Http.
From S2P Require Import Nats.
From S2P Require Import Clients.
From S2P Require Import Tracer.
From S2P Require Import TransitService.
From S2P Require Import Expr.
From S2P Require Import StatusText.
From S2P Require Import Connectors.
From S2P Require Import Mapping.

Local Open Scope string_scope.

(** ** Data of the SDK *)

Record Resource := mkResource { az_ID : option string; az_Name : option string }.

Record MetricValue := mkMetricValue {
  mv_Maximum : option float64;
  mv_Total : option float64;
  mv_Average : option float64;
  mv_Count : option float64;
}.

(** A metric: its name, and the points of its series. *)
Record Metric := mkMetric { mt_Name : option string; mt_Timeseries : list (list MetricValue) }.

(** ** Configuration *)

Record ExtConfig (R : Type) := mkExtConfig {
  ec_Ownership : HostOwnershipType;
  ec_CheckInterval : Z;
  ec_HostGroup : string;
  ec_HostPrefix : string;
  ec_AzureTenantID : string;
  ec_AzureClientID : string;
  ec_AzureClientSecret : string;
  ec_AzureSubscriptionID : string;
  (** The mappings of hosts and of services. *)
  ec_Host : list (@Mapping.Mapping R);
  ec_Service : list (@Mapping.Mapping R);
}.
Arguments mkExtConfig {R}.
Arguments ec_Ownership {R}. Arguments ec_CheckInterval {R}. Arguments ec_HostGroup {R}. Arguments ec_HostPrefix {R}.
Arguments ec_AzureTenantID {R}. Arguments ec_AzureClientID {R}. Arguments ec_AzureClientSecret {R}.
Arguments ec_AzureSubscriptionID {R}. Arguments ec_Host {R}. Arguments ec_Service {R}.

Definition with_ {R} (c : ExtConfig R) (ownership : HostOwnershipType) (interval : Z) (hostGroup : string)
    (hosts services : list (@Mapping.Mapping R)) : ExtConfig R :=
  mkExtConfig ownership interval hostGroup (ec_HostPrefix c) (ec_AzureTenantID c) (ec_AzureClientID c)
    (ec_AzureClientSecret c) (ec_AzureSubscriptionID c) hosts services.

(** [ExtConfig.UnmarshalJSON]: a new interval is a number of minutes. *)
Definition ExtConfig_UnmarshalJSON {R} (cfg : ExtConfig R) (decoded : result error (ExtConfig R)) : result error (ExtConfig R) :=
  c ← decoded;
  Val (with_ c (ec_Ownership c)
    (if decide (ec_CheckInterval c ≠ ec_CheckInterval cfg) then int64 (ec_CheckInterval c * Minute) else ec_CheckInterval c)
    (ec_HostGroup c) (ec_Host c) (ec_Service c)).

(** [configHandler] of a parsed configuration. *)
Definition configHandler {R} `{Regexps R} (conns : list GWConnection) (parsed : result error (ExtConfig R)) : option (ExtConfig R) :=
  match parsed with
  | Fail _ => None
  | Val e =>
      Some (with_ e (match conns with [] => ec_Ownership e | c :: _ => DeferOwnership c end) (ec_CheckInterval e)
              (ec_HostGroup e) (Prepare1 (ec_Host e)) (Prepare1 (ec_Service e)))
  end.

(** ** Metrics *)

(** The value that is there, of the last point: the count, the average, the total, the
    maximum. *)
Definition point_value (p : MetricValue) : float64 :=
  let value := default f_zero (mv_Maximum p) in
  let value := default value (mv_Total p) in
  let value := default value (mv_Average p) in
  default value (mv_Count p).

Definition CreateMetricBuilder (metric : list Metric) : outcome MetricBuilder :=
  match metric with
  | [] => Panic "index out of range"
  | m :: _ =>
      let value := match mt_Timeseries m with
        | [] => f_zero
        | data :: _ => match last data with None => f_zero | Some p => point_value p end
        end in
      name ← deref (mt_Name m);
      Ret (mkMetricBuilder name name "" "" (AFloat64 value) (Some (ArgUnit UnitCounter)) ANil ANil None None false ∅)
  end.

Section azure.
Context {R : Type} `{MapOrder} `{Regexps R} (CheckInterval : Z) (now : Timestamp).

(** The pages of the resources: an error ends the listing. *)
Fixpoint ResourcesList (pages : list (result error (list Resource))) : result error (list Resource) :=
  match pages with
  | [] => Val []
  | Fail e :: _ => Fail (Wrap ("failed to retrieve next page: " +:+ Error e) e)
  | Val rs :: pages => rest ← ResourcesList pages; Val (rs ++ rest)%list
  end.

(** The pages of the definitions: an error ends the listing with what was read. *)
Fixpoint MetricsDefinitionsList (pages : list (result error (list (option string)))) : outcome (list string) :=
  match pages with
  | [] => Ret []
  | Fail _ :: _ => Ret []
  | Val ds :: pages => ds ← mapM_o deref ds; rest ← MetricsDefinitionsList pages; Ret (ds ++ rest)%list
  end.

(** The metrics of the definitions, [list_metric] the client's answer to one; without a
    value it is left out. *)
Fixpoint MetricsList (list_metric : string → result error (list Metric)) (definitions : list string)
  : result error (list (list Metric)) :=
  match definitions with
  | [] => Val []
  | d :: definitions =>
      match list_metric d with
      | Fail e => Fail (Wrap ("failed to list metrics: " +:+ Error e) e)
      | Val metric =>
          rest ← MetricsList list_metric definitions;
          Val (match metric with [] => rest | _ => metric :: rest end)
      end
  end.

(** ** Collection *)

(** What the clients answer: the pages of resources and definitions, or the error of the
    client, and the metrics of a resource; both take the identity of the resource. *)
Record azure_client := mkClient {
  ac_credential : option error;
  ac_resources : result error (list (result error (list Resource)));
  ac_definitions : string → result error (list (result error (list (option string))));
  ac_metrics : string → result error (string → result error (list Metric));
}.

Definition build_service (host : string) (services : list MonitoredService) (metric : list Metric)
  : outcome (list MonitoredService) :=
  b ← CreateMetricBuilder metric;
  r ← BuildServiceForMetric CheckInterval now host b;
  Ret (match r with Fail _ => services | Val s => (services ++ [s])%list end).

Definition collect_resource (cfg : ExtConfig R) (client : azure_client)
    (acc : list MonitoredResource * list ResourceRef) (r : Resource) : outcome (list MonitoredResource * list ResourceRef) :=
  id ← deref (az_ID r);
  match ac_definitions client id with
  | Fail _ => _ ← deref (az_Name r); Ret acc
  | Val pages =>
      all ← MetricsDefinitionsList pages;
      targets ← FilterDefinitions all (ec_Service cfg);
      match (list_metric ← ac_metrics client id; MetricsList list_metric targets) with
      | Fail _ => Ret acc
      | Val metrics =>
          name ← (match metrics with [] => Ret "" | _ => deref (az_Name r) end);
          services ← foldM (build_service name) [] metrics;
          match services with
          | [] => Ret acc
          | _ =>
              match CreateResource CheckInterval now name [ResServices services] with
              | Fail _ => Ret acc
              | Val m => Ret (acc.1 ++ [m], acc.2 ++ [CreateResourceRef name "" ResourceTypeHost])%list
              end
          end
      end
  end.

Definition defaultHostGroupName : string := "TCG-AZURE".

(** [collectMetrics]: the configuration, whose group gets a name, and what is sent with
    the header of the prefix; an empty list is sent too. *)
Definition collectMetrics (cfg : ExtConfig R) (client : azure_client) {S : Type}
    (SendMetrics : S → option (string * string) → list MonitoredResource → list ResourceGroup → run S) (s : S)
  : run (ExtConfig R * S) :=
  if bool_decide (ec_AzureTenantID cfg = "") || bool_decide (ec_AzureClientID cfg = "") ||
     bool_decide (ec_AzureClientSecret cfg = "") || bool_decide (ec_AzureSubscriptionID cfg = "") then RRet (cfg, s)
  else match ac_credential client with
  | Some _ => RRet (cfg, s)
  | None =>
      match (pages ← ac_resources client; ResourcesList pages) with
      | Fail _ => RRet (cfg, s)
      | Val all =>
          targets ← lift_o (FilterResources az_Name all (ec_Host cfg));
          '(resources, refs) ← lift_o (foldM (collect_resource cfg client) ([], []) targets);
          let group := if decide (ec_HostGroup cfg = "") then defaultHostGroupName else ec_HostGroup cfg in
          let cfg := with_ cfg (ec_Ownership cfg) (ec_CheckInterval cfg) group (ec_Host cfg) (ec_Service cfg) in
          s ← SendMetrics s (if decide (ec_HostPrefix cfg = "") then None else Some ("HostNamePrefix", ec_HostPrefix cfg))
                resources [CreateResourceGroup group "" HostGroup refs];
          RRet (cfg, s)
      end
  end.
End azure.

(** ** Properties *)

(** What a round collects: the group has the hosts that are sent, in their order, and
    each host has a service. *)
Theorem azure_group_of_hosts {HO : MapOrder} {R : Type} {HR : Regexps R} (CheckInterval : Z) (now : Timestamp) (cfg : ExtConfig R)
    (client : azure_client) (rs : list Resource) (out : list MonitoredResource) (refs : list ResourceRef) :
  foldM (collect_resource CheckInterval now cfg client) ([], []) rs = Ret (out, refs) →
  rr_Name <$> refs = (λ m, bi_Name (br_BaseInfo (mr_BaseResource m))) <$> out ∧ Forall (λ m, mr_Services m ≠ []) out.
Proof.
  apply (foldM_inv (λ acc, rr_Name <$> acc.2 = (λ m, bi_Name (br_BaseInfo (mr_BaseResource m))) <$> acc.1 ∧
    Forall (λ m, mr_Services m ≠ []) acc.1)); [by split|].
  clear out refs. intros [out refs] r acc' _ [Hn Hs]. cbn [fst snd] in *. unfold collect_resource.
  intros (id & _ & Hr)%bind_Ret_inv. destruct (ac_definitions client id) as [pages|e].
  2: { apply bind_Ret_inv in Hr as (? & _ & Hr). by injection Hr as <-. }
  apply bind_Ret_inv in Hr as (all & _ & Hr). apply bind_Ret_inv in Hr as (targets & _ & Hr).
  destruct (_ ≫= _) as [metrics|e]; [|by injection Hr as <-].
  apply bind_Ret_inv in Hr as (name & _ & Hr). apply bind_Ret_inv in Hr as (services & _ & Hr).
  destruct services as [|s services]; [by injection Hr as <-|]. cbn [CreateResource resource_args mbind result_bind] in Hr.
  injection Hr as <-. cbn [fst snd]. rewrite !fmap_app, Hn. split; [done|]. apply Forall_app. split; [done|].
  by apply Forall_singleton.
Qed.

(** The last point that has several values is read as its count. *)
Example count_first : point_value (mkMetricValue (Some (f_of_Z 9)) None (Some (f_of_Z 3)) (Some (f_of_Z 1))) = f_of_Z 1.
Proof. reflexivity. Qed.
