(* ===== verification/Office.v ===== *)
(** connectors/office: the connector of Office 365, by Microsoft's management and graph
    APIs.

    The HTTP client and the world it talks to are arguments, and so is the query of a
    JSON text by a path.  A resource is a struct that is copied when it is stored, with
    a reference to the map of its services, which is shared: the maps are in a heap. *)

From S2P Require Import Prelude.
From S2P Require Import GoString.
From S2P Require Import GoFloat.
From S2P Require Import FloatText.
From S2P Require Import Errors.
From S2P Require Import Timestamp.
From S2P Require Import TypedValue.
From S2P Require Import Transit.
From S2P Require Import Status.
From S2P Require Import Codec.
From S2P Require Import Batcher.
From S2P Require Import Http.
From S2P Require Import Nats.
From S2P Require Import Clients.
From S2P Require Import Tracer.
From S2P Require Import TransitService.
From S2P Require Import Expr.
From S2P Require Import StatusText.
From S2P Require Import Connectors.

Local Open Scope string_scope.

(** ** Data *)

Definition ViewOneDrive : string := "OneDrive".
Definition ViewLicensing : string := "Licensing".
Definition ViewSharePoint : string := "SharePoint".
Definition ViewEmail : string := "Email".
Definition ViewSecurity : string := "Security".

Definition officeResource : string := "https://manage.office.com".
Definition graphResource : string := "https://graph.microsoft.com".
Definition officeEndPoint : string := "https://manage.office.com/api/v1.0/".
Definition servicesPath : string := "/ServiceComms/Services".
Definition currentStatusPath : string := "/ServiceComms/CurrentStatus".
Definition microsoftGroup : string := "Office Apps".
Definition office365App : string := "Office365Services".
Definition interacApp : string := "Office365Graph".

(** What a path of a JSON text leads to. *)
Inductive json_value := JNull | JString (s : string) | JNumber (x : float64) | JArray (n : nat) | JOther.

(** The payloads of the management API; a text that does not decode is an empty one. *)
Record ServiceStatus := mkServiceStatus {
  ss_WorkloadDisplayName : string;
  ss_Status : string;
  ss_FeatureStatus : list string;  (** [FeatureServiceStatus] of each feature *)
}.

(** The variables of the package that a configuration sets. *)
Record settings := mkSettings {
  se_tenantID : string;
  se_clientID : string;
  se_clientSecret : string;
  se_sharePointSite : string;
  se_sharePointSubSite : string;
  se_outlookEmailAddress : string;
  se_viewStateMap : gmap string bool;
  se_metrics : list MetricDefinition;
}.

Definition initial_settings : settings :=
  mkSettings "" "" "" "site.sharepoint.com" "GWOS" "outlook@site.microsoft.com"
    (list_to_map ((λ v, (v, false)) <$> [ViewOneDrive; ViewLicensing; ViewSharePoint; ViewEmail; ViewSecurity])) [].

(** [SetCredentials], and [SetOptions], which keeps what is not given. *)
Definition SetCredentials (s : settings) (tenant client secret : string) : settings :=
  mkSettings tenant client secret (se_sharePointSite s) (se_sharePointSubSite s) (se_outlookEmailAddress s)
    (se_viewStateMap s) (se_metrics s).

Definition or_keep (new old : string) : string := if decide (new ≠ "") then new else old.

Definition SetOptions (s : settings) (site subSite email : string) : settings :=
  mkSettings (se_tenantID s) (se_clientID s) (se_clientSecret s) (or_keep site (se_sharePointSite s))
    (or_keep subSite (se_sharePointSubSite s)) (or_keep email (se_outlookEmailAddress s)) (se_viewStateMap s) (se_metrics s).

(** ** Configuration *)

Abbreviation views := (gmap string (gmap string MetricDefinition)).

(** The decoded extensions and the metrics of the profile; [null] gives no map of views. *)
Record office_dto := mkOfficeDto {
  od_TenantID : string;
  od_ClientID : string;
  od_ClientSecret : string;
  od_SharePointSite : string;
  od_SharePointSubsite : string;
  od_OutlookEmail : string;
  od_Ownership : HostOwnershipType;
  od_Views : option views;
  od_Metrics : list MetricDefinition;
}.

Definition containsView (metrics : list MetricDefinition) (view : string) : bool :=
  existsb (λ d, bool_decide (mdef_ServiceType d = view) && bool_decide (mdef_Name d ≠ "$view_Template#")) metrics.

Definition add_view (vs : option views) (m : MetricDefinition) : option views :=
  match vs with
  | None => None
  | Some vs => Some (<[mdef_ServiceType m := <[mdef_Name m := m]> (default ∅ (vs !! mdef_ServiceType m))]> vs)
  end.

Fixpoint deferred (conns : list GWConnection) (own : HostOwnershipType) : HostOwnershipType :=
  match conns with
  | [] => own
  | conn :: conns => if decide (DeferOwnership conn ≠ "") then DeferOwnership conn else deferred conns own
  end.

(** [configHandler]: the settings, the ownership and the views; the tokens of a session
    stay. *)
Definition configHandler (s : settings) (conns : list GWConnection) (parsed : result error office_dto)
  : option (settings * HostOwnershipType * option views) :=
  match parsed with
  | Fail _ => None
  | Val d =>
      let states := map_imap (λ view _, Some (containsView (od_Metrics d) view)) (se_viewStateMap s) in
      let s := mkSettings (se_tenantID s) (se_clientID s) (se_clientSecret s) (se_sharePointSite s) (se_sharePointSubSite s)
                 (se_outlookEmailAddress s) states (od_Metrics d) in
      let s := SetCredentials s (od_TenantID d) (od_ClientID d) (od_ClientSecret d) in
      Some (SetOptions s (od_SharePointSite d) (od_SharePointSubsite d) (od_OutlookEmail d),
            deferred conns (od_Ownership d), foldl add_view (od_Views d) (od_Metrics d))
  end.

Definition availableMetrics : gmap string (list string) := list_to_map [
  ("OneDrive", ["onedrive.total"; "onedrive.remaining"; "onedrive.free"]);
  ("SharePoint", ["sharepoint.total"; "sharepoint.remaining"]);
  ("Licensing", ["subscriptions.prepaid"; "subscriptions.consumed"]);
  ("Email", ["unread.emails"])].

Definition listSuggestions (viewName name : string) : list string :=
  List.filter (λ m, Contains m name) (default [] (availableMetrics !! viewName)).

(** ** The client *)

(** A request; the body of one that is sent again was read the first time. *)
Record request := mkRequest { rq_Method : string; rq_URL : string; rq_Token : option string; rq_Form : list (string * string);
                              rq_Read : bool }.

(** A status and the body, which may not be readable. *)
Record response := mkResponse { rp_StatusCode : Z; rp_Body : result error string }.

Record session (W : Type) := mkSession { os_world : W; os_officeToken : string; os_graphToken : string }.
Arguments mkSession {W}. Arguments os_world {W}. Arguments os_officeToken {W}. Arguments os_graphToken {W}.

Section office.
Context {W : Type} (http : W → request → W * result error response).
(** [json.Unmarshal] followed by [jsonpath.Get], and whether the text decodes to nil. *)
Context (json_get : string → string → result error json_value) (json_nil : string → bool).

Definition send (s : session W) (r : request) : session W * result error response :=
  let '(w, a) := http (os_world s) r in (mkSession w (os_officeToken s) (os_graphToken s), a).

Definition again (r : request) : request := mkRequest (rq_Method r) (rq_URL r) (rq_Token r) (rq_Form r) true.

Definition maxRetries : nat := 5.

(** The loop of [Do], with the retries that are left: the status of a response that is
    not there is a nil dereference, but after the last retry it is not looked at. *)
Fixpoint do_loop (retries : nat) (s : session W) (r : request) (a : result error response)
  : outcome (session W * result error response) :=
  match a with
  | Fail _ => Panic "invalid memory address or nil pointer dereference"
  | Val response =>
      if decide (rp_StatusCode response = 200 ∨ rp_StatusCode response = 401)%Z then Ret (s, a)
      else match retries with
      | O => Ret (s, a)
      | S retries =>
          let '(s, a) := send s (again r) in
          match retries with O => Ret (s, a) | _ => do_loop retries s r a end
      end
  end.

Definition Do (s : session W) (r : request) : outcome (session W * result error response) :=
  let '(s, a) := send s r in do_loop maxRetries s r a.

Definition login (cfg : settings) (s : session W) (resource : string) : outcome (session W * result error string) :=
  let r := mkRequest "POST" ("https://login.microsoftonline.com/" +:+ se_tenantID cfg +:+ "/oauth2/token") None
    [("grant_type", "client_credentials"); ("client_secret", se_clientSecret cfg); ("client_id", se_clientID cfg);
     ("resource", resource)] false in
  '(s, a) ← Do s r;
  match a with
  | Fail e => Ret (s, Fail e)
  | Val response =>
      match rp_Body response with
      | Fail e => Ret (s, Fail e)
      | Val body =>
          match json_get "$.access_token" body with
          | Fail e => Ret (s, Fail e)
          | Val (JString token) => Ret (s, Val token)
          | Val _ => Panic "interface conversion: interface {} is not string"
          end
      end
  end.

(** [Initialize]: a second token is asked for only while there is no first one. *)
Definition Initialize (cfg : settings) (s : session W) : outcome (session W) :=
  if decide (os_officeToken s ≠ "") then Ret s
  else
    '(s, r) ← login cfg s officeResource;
    match r with
    | Fail _ => Ret s
    | Val token =>
        let s := mkSession (os_world s) token (os_graphToken s) in
        '(s, r) ← login cfg s graphResource;
        match r with
        | Fail _ => Ret s
        | Val token => Ret (mkSession (os_world s) (os_officeToken s) token)
        end
    end.

Definition ExecuteRequest (cfg : settings) (s : session W) (graphURI token : string)
  : outcome (session W * result error string) :=
  let get token := mkRequest "GET" graphURI (Some token) [] false in
  let '(s, a) := send s (get token) in
  match a with
  | Fail e => Ret (s, Fail e)
  | Val response =>
      if decide (rp_StatusCode response ≠ 200)%Z then
        let isOfficeToken := bool_decide (token = os_officeToken s) in
        s ← Initialize cfg (mkSession (os_world s) "" "");
        let '(s, a) := send s (get (if isOfficeToken then os_officeToken s else os_graphToken s)) in
        match a with
        | Fail e => Ret (s, Fail e)
        | Val response =>
            if decide (rp_StatusCode response ≠ 200)%Z then
              Ret (s, Fail (Opaque ("error to get data. url: " +:+ graphURI +:+ ", status code: " +:+ FormatInt (rp_StatusCode response))))
            else Ret (s, rp_Body response)
        end
      else Ret (s, rp_Body response)
  end.

(** *** Values of a text *)

Definition get (path body : string) : option json_value :=
  match json_get path body with Val v => Some v | Fail _ => None end.

(** A type assertion; a path that fails leaves nil. *)
Definition as_number (v : option json_value) : outcome float64 :=
  match v with Some (JNumber x) => Ret x | _ => Panic "interface conversion: interface {} is not float64" end.
Definition as_string (v : option json_value) : outcome string :=
  match v with Some (JString x) => Ret x | _ => Panic "interface conversion: interface {} is not string" end.

(** [parseError] *)
Definition parseError (body : string) : outcome (option error) :=
  match json_get "$.error.message" body with
  | Fail e => Ret (Some e)
  | Val JNull => Ret None
  | Val (JString msg) => Ret (Some (Opaque msg))
  | Val _ => Panic "interface conversion: interface {} is not string"
  end.

(** [getCount]: the error of the service is parsed, and dropped. *)
Definition getCount (body : string) : outcome (result error nat) :=
  if json_nil body then Ret (Val O)
  else match json_get "$.value[*]" body with
  | Fail e => Ret (Fail e)
  | Val JNull => Ret (Val O)
  | Val (JArray n) => _ ← (match n with O => parseError body | _ => Ret None end); Ret (Val n)
  | Val _ => Panic "interface conversion: interface {} is not []interface {}"
  end.

(** ** Built-in services *)

Context `{MapOrder} (CheckInterval : Z) (now : Timestamp).

Definition createMetricWithThresholds (name suffix : string) (value warning critical : float64) : outcome (option TimeSeries) :=
  r ← BuildMetric now (mkMetricBuilder (name +:+ suffix) "" "" "" (AFloat64 value) (Some (ArgUnit UnitCounter))
        (AFloat64 warning) (AFloat64 critical) None None true ∅);
  Ret (match r with Val m => Some m | Fail _ => None end).

Definition containsMetric (metrics : list MetricDefinition) (name : string) : option MetricDefinition :=
  List.find (λ d, bool_decide (mdef_Name d = name)) metrics.

Definition with_metrics (s : MonitoredService) (metrics : list TimeSeries) : MonitoredService :=
  mkMonitoredService (ms_BaseInfo s) (ms_MonitoredInfo s) metrics.

(** A metric of the profile, with its thresholds; the value is asked for only when the
    profile has it. *)
Definition profile_metric (cfg : settings) (wanted name suffix : string) (value : outcome float64) (s : MonitoredService)
  : outcome MonitoredService :=
  match containsMetric (se_metrics cfg) wanted with
  | None => Ret s
  | Some d =>
      value ← value;
      m ← createMetricWithThresholds name suffix value (f_of_Z (mdef_WarningThreshold d)) (f_of_Z (mdef_CriticalThreshold d));
      m ← deref m;
      Ret (with_metrics s (ms_Metrics s ++ [m])%list)
  end.

(** The status of the metrics; the error is dropped. *)
Definition with_status (s : MonitoredService) : outcome MonitoredService :=
  '(status, _) ← CalculateServiceStatus (Some (ms_Metrics s));
  Ret (mkMonitoredService (ms_BaseInfo s) (SetStatus (ms_MonitoredInfo s) status) (ms_Metrics s)).

Definition hundred_minus (total remaining : float64) : float64 := f_sub (f_of_Z 100) (f_div total remaining).

Definition OneDrive (body : string) (cfg : settings) (s : MonitoredService) : outcome (MonitoredService * option error) :=
  let total := get "$.quota.total" body in
  let remaining := get "$.quota.remaining" body in
  s ← profile_metric cfg "onedrive.total" "onedrive" ".total" (as_number total) s;
  s ← profile_metric cfg "onedrive.remaining" "onedrive" ".remaining" (as_number remaining) s;
  s ← profile_metric cfg "onedrive" "onedrive" ".free" (t ← as_number total; r ← as_number remaining; Ret (hundred_minus t r)) s;
  s ← with_status s;
  Ret (s, None).

(** The path of the element of an index. *)
Definition at_index (i : nat) (field : string) : string := "$.value[" +:+ FormatInt (Z.of_nat i) +:+ "]." +:+ field.

Definition license (body : string) (cfg : settings) (s : MonitoredService) (i : nat) : outcome MonitoredService :=
  let sku := get (at_index i "skuPartNumber") body in
  let metric wanted suffix field s :=
    match containsMetric (se_metrics cfg) wanted with
    | None => Ret s
    | Some _ => name ← as_string sku; profile_metric cfg wanted name suffix (as_number (get (at_index i field) body)) s
    end in
  s ← metric "subscriptions.prepaid" ".subscriptions.prepaid" "prepaidUnits.enabled" s;
  s ← metric "subscriptions.consumed" ".subscriptions.consumed" "consumedUnits" s;
  with_status s.

Definition counted (body : string) (f : nat → outcome MonitoredService) (s : MonitoredService)
  : outcome (MonitoredService * option error) :=
  c ← getCount body;
  match c with Fail e => Ret (s, Some e) | Val n => s ← f n; Ret (s, None) end.

Definition AddonLicenseMetrics (body : string) (cfg : settings) (s : MonitoredService) : outcome (MonitoredService * option error) :=
  counted body (λ n, foldM (license body cfg) s (seq 0 n)) s.

(** The free part is computed whether or not it is asked for. *)
Definition drive (lower_name : string → string) (body : string) (cfg : settings) (s : MonitoredService) (i : nat)
  : outcome MonitoredService :=
  let sku := get (at_index i "name") body in
  t ← as_number (get (at_index i "quota.total") body);
  r ← as_number (get (at_index i "quota.remaining") body);
  let metric wanted suffix value s :=
    match containsMetric (se_metrics cfg) wanted with
    | None => Ret s
    | Some _ => name ← as_string sku; profile_metric cfg wanted (lower_name (ReplaceAll name " " ".")) suffix (Ret value) s
    end in
  s ← metric "sharepoint.total" ".total" t s;
  s ← metric "sharepoint.remaining" ".remaining" r s;
  s ← metric "sharepoint.free" ".free" (hundred_minus t r) s;
  with_status s.

(** [strings.ToLower] *)
Context (lower_name : string → string).

Definition SharePoint (body : string) (cfg : settings) (s : MonitoredService) : outcome (MonitoredService * option error) :=
  counted body (λ n, foldM (drive lower_name body cfg) s (seq 0 n)) s.

Definition Emails (body : string) (cfg : settings) (s : MonitoredService) : outcome (MonitoredService * option error) :=
  counted body (λ n,
    match containsMetric (se_metrics cfg) "unread.emails" with
    | None => Ret s
    | Some _ => s ← profile_metric cfg "unread.emails" "unread" ".emails" (Ret (f_of_Z (Z.of_nat n))) s; with_status s
    end) s.

Definition SecurityAssessments (body : string) (cfg : settings) (s : MonitoredService) : outcome (MonitoredService * option error) :=
  counted body (λ n,
    match containsMetric (se_metrics cfg) "security.indicators" with
    | None => Ret s
    | Some _ => s ← profile_metric cfg "security.indicators" "security" ".indicators" (Ret (f_of_Z (Z.of_nat n))) s; with_status s
    end) s.

(** ** Collection *)

Abbreviation services := (gmap string MonitoredService).

Record GraphResource := mkResource {
  gr_Name : string;
  gr_Type : ResourceType;
  gr_Status : MonitorStatus;
  gr_Message : string;
  gr_Services : nat;  (** the map in the heap *)
}.

(** The heap of the maps of services, the resources by name, and the references of the
    group. *)
Record collection := mkCollection {
  co_heap : gmap nat services;
  co_state : gmap string GraphResource;
  co_refs : list ResourceRef;
}.

Definition up_resource (name : string) (map : nat) : GraphResource :=
  mkResource name ResourceTypeHost HostUp "UP - Healthy" map.

(** A new map, and the copy of the resource that is stored. *)
Definition store_resource (c : collection) (name : string) : collection * GraphResource :=
  let map := fresh (dom (co_heap c)) in
  let r := up_resource name map in
  (mkCollection (<[map := ∅]> (co_heap c)) (<[name := r]> (co_state c))
     (co_refs c ++ [mkResourceRef name ResourceTypeHost microsoftGroup])%list, r).

Definition services_of (c : collection) (map : nat) : services := default ∅ (co_heap c !! map).

Definition put_service (c : collection) (map : nat) (name : string) (s : MonitoredService) : collection :=
  mkCollection (<[map := <[name := s]> (services_of c map)]> (co_heap c)) (co_state c) (co_refs c).

(** The names of the services that the text has, [None] when it does not decode. *)
Context (service_names : string → list string) (service_statuses : string → list ServiceStatus).

Definition add_service (map : nat) (c : collection) (name : string) : outcome collection :=
  r ← CreateService CheckInterval now name office365App [];
  Ret (match r with Val s => put_service c map name s | Fail _ => c end).

(** [collectInventory]: the resource with the status it has at the end is a local copy,
    and what is stored stays as it was. *)
Definition collectInventory (cfg : settings) (s : session W) (c : collection)
  : outcome (session W * collection * option GraphResource) :=
  '(s, r) ← ExecuteRequest cfg s (officeEndPoint +:+ se_tenantID cfg +:+ servicesPath) (os_officeToken s);
  match r with
  | Fail _ => Ret (s, c, None)
  | Val body =>
      let '(c, hostResource) := store_resource c office365App in
      c ← foldM (add_service (gr_Services hostResource)) c (service_names body);
      Ret (s, c, Some (match service_names body with
        | [] => mkResource office365App ResourceTypeHost HostUnreachable "Zero services found. Services are" (gr_Services hostResource)
        | _ => hostResource
        end))
  end.

Definition translateServiceStatus (odStatus : string) : MonitorStatus * string :=
  if decide (odStatus = "ServiceRestored" ∨ odStatus = "ServiceOperational") then (ServiceOk, "OK - Healthy")
  else if decide (odStatus = "ServiceInterruption") then
    (ServiceUnscheduledCritical, "An issue occurred that affects the ability for users to access the service")
  else if decide (odStatus = "Investigating" ∨ odStatus = "VerifyingService") then
    (ServiceWarning, "We're aware of a potential issue and are gathering more information about what's going on and the scope of impact")
  else if decide (odStatus = "ServiceDegradation") then
    (ServiceUnscheduledCritical, "We've confirmed that there is an issue that may affect use of this service")
  else if decide (odStatus = "RestoringService") then
    (ServiceWarning, "The cause of the issue has been identified, we know what corrective action to take and are in the process of bringing the service back to a healthy state.")
  else if decide (odStatus = "ExtendedRecovery") then
    (ServiceWarning, "A corrective action is in progress to restore service to most users but will take some time to reach all the affected systems")
  else (ServiceUnknown, "Service Status is Unknown").

(** The share of the features that are up, in percent. *)
Definition up_percent (features : list string) : float64 :=
  let up := length (List.filter (λ f, bool_decide (f = "ServiceRestored" ∨ f = "ServiceOperational")) features) in
  match features with
  | [] => f_zero
  | _ => f_mul (f_div (f_of_Z (Z.of_nat up)) (f_of_Z (Z.of_nat (length features)))) (f_of_Z 100)
  end.

Definition service_state (map : nat) (c : collection) (ods : ServiceStatus) : outcome collection :=
  match services_of c map !! ss_WorkloadDisplayName ods with
  | None => Ret c
  | Some s =>
      let '(status, message) := translateServiceStatus (ss_Status ods) in
      let info := SetLastPluginOutput (SetStatus (ms_MonitoredInfo s) status) message in
      m ← createMetricWithThresholds "features.up.percent" "" (up_percent (ss_FeatureStatus ods)) (f_of_Z 80) (f_of_Z 60);
      m ← deref m;
      Ret (put_service c map (ss_WorkloadDisplayName ods)
             (mkMonitoredService (ms_BaseInfo s) info (ms_Metrics s ++ [m])%list))
  end.

(** [collectStatus]; a resource that was not stored has a nil map, in which nothing is
    found. *)
Definition collectStatus (cfg : settings) (s : session W) (c : collection) (map : option nat)
  : outcome (session W * collection) :=
  '(s, r) ← ExecuteRequest cfg s (officeEndPoint +:+ se_tenantID cfg +:+ currentStatusPath) (os_officeToken s);
  match r, map with
  | Fail _, _ | _, None => Ret (s, c)
  | Val body, Some map => c ← foldM (service_state map) c (service_statuses body); Ret (s, c)
  end.

(** *** Built-in services *)

(** A view: its service, the address, the function that adds the metrics, and whether an
    error makes the service unknown. *)
Record builtin := mkBuiltin {
  bn_view : string;
  bn_service : string;
  bn_uri : settings → string;
  bn_metrics : string → settings → MonitoredService → outcome (MonitoredService * option error);
  bn_unknown : bool;
}.

(** [url.Values.Encode] of the filter of unread mails. *)
Definition email_params : string := "%24filter=isRead+ne+true&%24select=receivedDateTime".

Definition sharepoint_uri (cfg : settings) : string :=
  let site := "https://graph.microsoft.com/v1.0/sites/" +:+ se_sharePointSite cfg in
  if decide (se_sharePointSubSite cfg = "") then site +:+ ":/drives%!(EXTRA string=)"
  else site +:+ ":/sites/" +:+ se_sharePointSubSite cfg +:+ ":/drives".

Definition builtins : list builtin := [
  mkBuiltin ViewOneDrive "OneDrive for Business" (λ _, "https://graph.microsoft.com/v1.0/drive") OneDrive true;
  mkBuiltin ViewLicensing "License Activities" (λ _, "https://graph.microsoft.com/v1.0/subscribedSkus") AddonLicenseMetrics false;
  mkBuiltin ViewSharePoint "SharePoint Online" sharepoint_uri SharePoint true;
  mkBuiltin ViewEmail "Emails"
    (λ cfg, "https://graph.microsoft.com/v1.0/users/" +:+ se_outlookEmailAddress cfg +:+ "/messages?" +:+ email_params) Emails true;
  mkBuiltin ViewSecurity "SecurityIndicators" (λ _, "https://graph.microsoft.com/beta/security/tiIndicators") SecurityAssessments false].

Definition failed_service (unknown : bool) (s : MonitoredService) (e : error) : MonitoredService :=
  let info := if unknown then SetStatus (ms_MonitoredInfo s) ServiceUnknown else ms_MonitoredInfo s in
  mkMonitoredService (ms_BaseInfo s) (SetLastPluginOutput info (Error e)) (ms_Metrics s).

Definition collect_builtin (cfg : settings) (map : nat) (acc : session W * collection) (b : builtin)
  : outcome (session W * collection) :=
  let '(s, c) := acc in
  if default false (se_viewStateMap cfg !! bn_view b) then
    r ← CreateService CheckInterval now (bn_service b) interacApp [SvcMetrics []; SvcProperties {["isGraphed" := ABool true]}];
    '(s, body) ← ExecuteRequest cfg s (bn_uri b cfg) (os_graphToken s);
    service ← deref (match r with Val s => Some s | Fail _ => None end);
    '(service, err) ← (match body with Fail e => Ret (service, Some e) | Val body => bn_metrics b body cfg service end);
    let service := match err with Some e => failed_service (bn_unknown b) service e | None => service end in
    Ret (s, put_service c map (bi_Name (ms_BaseInfo service)) service)
  else Ret acc.

(** [collectBuiltins], with the local copy of the resource at the end. *)
Definition collectBuiltins (cfg : settings) (s : session W) (c : collection) : outcome (session W * collection * GraphResource) :=
  let '(c, hostResource) := store_resource c interacApp in
  '(s, c) ← foldM (collect_builtin cfg (gr_Services hostResource)) (s, c) builtins;
  let all := (map_to_list (services_of c (gr_Services hostResource))).*2 in
  let unknown := List.filter (λ s, bool_decide (mi_Status (ms_MonitoredInfo s) = ServiceUnknown)) all in
  Ret (s, c,
       if decide (length unknown = length all) then
         mkResource interacApp ResourceTypeHost HostUnreachable "All services for this host are in unknown status" (gr_Services hostResource)
       else hostResource).

(** *** What is sent *)

Definition inventory_resource (c : collection) (r : GraphResource) : InventoryResource :=
  CreateInventoryResource (gr_Name r)
    ((λ kv, CreateInventoryService (bi_Name (ms_BaseInfo kv.2)) (bi_Owner (ms_BaseInfo kv.2))) <$>
       map_order (services_of c (gr_Services r))).

Definition monitored_resource (c : collection) (r : GraphResource) : MonitoredResource :=
  mkMonitoredResource (mkBaseResource (named_info (gr_Name r) (gr_Type r) "") "")
    (mkMonitoredInfo (gr_Status r) (Some (NewTimestamp now)) (Some (Timestamp.Add (NewTimestamp now) CheckInterval)) (gr_Message r))
    (map_order (services_of c (gr_Services r))).*2.

(** [Collect]; its errors are dropped. *)
Definition Collect (cfg : settings) (s : session W)
  : outcome (session W * (list InventoryResource * list MonitoredResource * list ResourceGroup)) :=
  s ← Initialize cfg s;
  '(s, c, _) ← collectInventory cfg s (mkCollection ∅ ∅ []);
  '(s, c) ← collectStatus cfg s c (gr_Services <$> (co_state c !! office365App));
  '(s, c, _) ← collectBuiltins cfg s c;
  let resources := (map_order (co_state c)).*2 in
  Ret (s, (inventory_resource c <$> resources, monitored_resource c <$> resources,
           [mkResourceGroup microsoftGroup HostGroup "" (co_refs c)])).

(** [periodicHandler]; the inventory is sent in every round. *)
Context {S : Type} (SendInventory : S → list InventoryResource → list ResourceGroup → HostOwnershipType → outcome S).
Context (SendMetrics : S → list MonitoredResource → list ResourceGroup → run S).

Definition periodicHandler (cfg : settings) (ownership : HostOwnershipType) (s : session W) (t : S) : run (session W * S) :=
  '(s, (inventory, monitored, groups)) ← lift_o (Collect cfg s);
  t ← lift_o (SendInventory t inventory groups ownership);
  t ← SendMetrics t monitored groups;
  RRet (s, t).
End office.

(** ** Lemmas *)

(** *** The client *)

Section client.
Context {W : Type} (http : W → request → W * result error response).

(** So many requests lead from a world to another. *)
Inductive requests : nat → W → W → Prop :=
| requests_none w : requests 0 w w
| requests_more n w r w' : requests n (http w r).1 w' → requests (S n) w w'.

Lemma do_loop_requests n s r a s' a' :
  do_loop http n s r a = Ret (s', a') →
  ∃ k, (k ≤ n)%nat ∧ requests k (os_world s) (os_world s') ∧ os_officeToken s' = os_officeToken s ∧ os_graphToken s' = os_graphToken s.
Proof using Type.
  revert s a. induction n as [|n IH]; intros s a; cbn [do_loop].
  - destruct a as [response|e]; [|done]. case_decide; intros [= <- <-]; exists 0%nat; split_and!; done || constructor.
  - destruct a as [response|e]; [|done]. case_decide; [intros [= <- <-]; exists 0%nat; split_and!; [lia|constructor|done..]|].
    unfold send. destruct (http (os_world s) (again r)) as [w a2] eqn:Hh.
    assert (∀ k w', requests k w w' → requests (S k) (os_world s) w') as Hmore.
    { intros k w' Hk. apply (requests_more _ _ (again r)). by rewrite Hh. }
    destruct n as [|n].
    + intros [= <- <-]. exists 1%nat. split_and!; [lia|apply Hmore; constructor|done..].
    + intros (k & Hle & Hk & H1 & H2)%IH. exists (S k). split_and!; [lia|by apply Hmore|done..].
Qed.

(** A login sends at most six requests, however the service answers, and changes no
    token. *)
Theorem Do_at_most_six (s s' : session W) (r : request) (a : result error response) :
  Do http s r = Ret (s', a) →
  ∃ n, (1 ≤ n ≤ 6)%nat ∧ requests n (os_world s) (os_world s') ∧ os_officeToken s' = os_officeToken s ∧ os_graphToken s' = os_graphToken s.
Proof using Type.
  unfold Do, send. destruct (http (os_world s) r) as [w a0] eqn:Hh.
  intros (k & Hk & Hr & H1 & H2)%do_loop_requests. unfold maxRetries in Hk. exists (S k). split_and!; [lia|lia| |done..].
  apply (requests_more _ _ r). by rewrite Hh.
Qed.
End client.

(** *** The collection *)

Section collection.
Context {W : Type} (http : W → request → W * result error response).
Context (json_get : string → string → result error json_value) (json_nil : string → bool).
Context {HO : MapOrder} (CheckInterval : Z) (now : Timestamp) (lower_name : string → string).
Context (service_names : string → list string) (service_statuses : string → list ServiceStatus).

#[local] Abbreviation Collect := (Collect http json_get json_nil CheckInterval now lower_name service_names service_statuses).
#[local] Abbreviation collect_builtin := (collect_builtin http json_get CheckInterval now).

(** The resources that are stored are up, under their names, and are those of the group. *)
Definition stored (c : collection) : Prop :=
  (∀ k r, co_state c !! k = Some r → r = up_resource k (gr_Services r)) ∧
  rr_Name <$> co_refs c ≡ₚ (map_to_list (co_state c)).*1.

Definition same_resources (c c' : collection) : Prop := co_state c' = co_state c ∧ co_refs c' = co_refs c.

Lemma same_stored c c' : same_resources c c' → stored c → stored c'.
Proof using Type. intros [Hs Hr]. unfold stored. by rewrite Hs, Hr. Qed.

Lemma store_resource_stored c name c' r :
  store_resource c name = (c', r) → co_state c !! name = None → stored c → stored c'.
Proof using Type.
  unfold store_resource. intros [= <- _] Hn [Hup Hrefs]. split; cbn [co_state co_refs].
  - intros k r0. destruct (decide (name = k)) as [<-|].
    + rewrite lookup_insert_eq. intros [= <-]. reflexivity.
    + rewrite lookup_insert_ne by done. apply Hup.
  - rewrite fmap_app, map_to_list_insert by done. cbn. rewrite Hrefs. apply Permutation_app_comm.
Qed.

Lemma add_services_same map names c c' :
  foldM (add_service CheckInterval now map) c names = Ret c' → same_resources c c'.
Proof using Type.
  apply (foldM_inv (same_resources c)); [by split|]. intros c1 name c2 _ Hs. unfold add_service.
  intros (r & _ & Hr)%bind_Ret_inv. injection Hr as <-. by destruct r.
Qed.

Lemma service_states_same map odata c c' :
  foldM (service_state now map) c odata = Ret c' → same_resources c c'.
Proof using Type.
  apply (foldM_inv (same_resources c)); [by split|]. intros c1 ods c2 _ Hs. unfold service_state.
  destruct (services_of _ _ !! _) as [s|]; [|by intros [= <-]]. destruct (translateServiceStatus _) as [status message].
  intros (m & _ & Hr)%bind_Ret_inv. apply bind_Ret_inv in Hr as (m' & _ & Hr). by injection Hr as <-.
Qed.

Lemma builtins_same cfg map bs s c s' c' :
  foldM (collect_builtin cfg map) (s, c) bs = Ret (s', c') → same_resources c c'.
Proof using Type.
  change (foldM (collect_builtin cfg map) (s, c) bs = Ret (s', c') → same_resources c (s', c').2).
  apply (foldM_inv (λ acc, same_resources c acc.2)); [by split|]. intros [s1 c1] b acc _ Hs. unfold Office.collect_builtin.
  destruct (default _ _); [|by intros [= <-]].
  intros (r & _ & Hr)%bind_Ret_inv. apply bind_Ret_inv in Hr as ([s2 body] & _ & Hr).
  apply bind_Ret_inv in Hr as (service & _ & Hr). apply bind_Ret_inv in Hr as ([service' err] & _ & Hr). by injection Hr as <-.
Qed.

(** A name and the names of its services, as the inventory and the metrics tell them. *)
Definition inventory_names (r : InventoryResource) : string * list string :=
  (bi_Name (br_BaseInfo (ir_BaseResource r)), (λ s, bi_Name (is_BaseInfo s)) <$> ir_Services r).
Definition monitored_names (r : MonitoredResource) : string * list string :=
  (bi_Name (br_BaseInfo (mr_BaseResource r)), (λ s, bi_Name (ms_BaseInfo s)) <$> mr_Services r).

(** A collection that returns announces exactly what it measures, in one group of all
    its hosts.  And every host is up: the status of a host without services, or whose
    services are all unknown, is set on a copy that is not stored. *)
Theorem hosts_always_up (cfg : settings) (s s' : session W) inventory monitored groups :
  Collect cfg s = Ret (s', (inventory, monitored, groups)) →
  inventory_names <$> inventory = monitored_names <$> monitored ∧
  (∃ g, groups = [g] ∧ rr_Name <$> rg_Resources g ≡ₚ (monitored_names <$> monitored).*1) ∧
  Forall (λ m, mi_Status (mr_MonitoredInfo m) = HostUp ∧ mi_LastPluginOutput (mr_MonitoredInfo m) = "UP - Healthy") monitored.
Proof using Type.
  unfold Office.Collect. intros (s1 & _ & Hc)%bind_Ret_inv. apply bind_Ret_inv in Hc as ([[s2 c2] h2] & H2 & Hc).
  apply bind_Ret_inv in Hc as ([s3 c3] & H3 & Hc). apply bind_Ret_inv in Hc as ([[s4 c4] h4] & H4 & Hc).
  injection Hc as _ <- <- <-.
  assert (stored c2 ∧ co_state c2 !! interacApp = None) as [S2 N2].
  { assert (stored (mkCollection ∅ ∅ [])) as S0 by by split.
    unfold collectInventory in H2. apply bind_Ret_inv in H2 as ([s5 [body|e]] & _ & H2); [|by injection H2 as _ <- _].
    destruct (store_resource _ _) as [c5 h5] eqn:Hst. apply bind_Ret_inv in H2 as (c6 & Hsame%add_services_same & H2).
    injection H2 as _ <- _. split; [eapply same_stored; [exact Hsame|]; by eapply store_resource_stored|].
    destruct Hsame as [-> _]. unfold store_resource in Hst. injection Hst as <- _. cbn [co_state].
    by rewrite lookup_insert_ne, lookup_empty. }
  assert (stored c3 ∧ co_state c3 !! interacApp = None) as [S3 N3].
  { unfold collectStatus in H3. apply bind_Ret_inv in H3 as ([s5 [body|e]] & _ & H3); [|by injection H3 as _ <-].
    destruct (gr_Services <$> _) as [map|]; [|by injection H3 as _ <-].
    apply bind_Ret_inv in H3 as (c6 & Hsame%service_states_same & H3). injection H3 as _ <-.
    split; [by eapply same_stored|]. by destruct Hsame as [-> _]. }
  assert (stored c4) as [Hup Hrefs].
  { unfold collectBuiltins in H4. destruct (store_resource c3 interacApp) as [c5 h5] eqn:Hst.
    apply bind_Ret_inv in H4 as ([s6 c6] & Hsame%builtins_same & H4). injection H4 as _ <- _.
    eapply same_stored; [exact Hsame|]. by eapply store_resource_stored. }
  assert (∀ r, r ∈ (map_order (co_state c4)).*2 → r = up_resource (gr_Name r) (gr_Services r)) as Hr.
  { intros r ([k r'] & -> & Hk%elem_of_map_order)%list_elem_of_fmap. cbn [snd].
    pose proof (Hup k r' Hk) as He. rewrite He at 2. cbn. exact He. }
  split; [|split].
  - rewrite <-!list_fmap_compose. apply list_fmap_ext. intros _ r _. unfold compose, inventory_names, monitored_names.
    cbn. f_equal. by rewrite <-!list_fmap_compose.
  - eexists. split; [done|]. cbn [rg_Resources]. rewrite Hrefs.
    transitivity (map_order (co_state c4)).*1; [by rewrite map_order_perm|].
    rewrite <-!list_fmap_compose. apply reflexive_eq, list_fmap_ext. intros i [k r] Hi. unfold compose. cbn.
    apply list_elem_of_lookup_2 in Hi. apply elem_of_map_order in Hi. by rewrite (Hup k r Hi).
  - apply Forall_fmap, Forall_forall. intros r Hin. rewrite (Hr r Hin). by split.
Qed.
End collection.

(** ** A concrete service *)

(** A world that counts its requests: the office gives tokens, the graph does not, and
    no data comes. *)
Definition sample_http (w : nat) (r : request) : nat * result error response :=
  (S w,
   if decide (rq_Method r = "GET") then Val (mkResponse 503 (Val ""))
   else if decide (("resource", officeResource) ∈ rq_Form r) then Val (mkResponse 200 (Val "tok"))
   else Val (mkResponse 401 (Val "{}"))).

Definition sample_get (path body : string) : result error json_value :=
  if decide (body = "tok") then Val (JString "tok") else Fail (Opaque "unknown key").

Definition sample_settings : settings :=
  match configHandler initial_settings [] (Val (mkOfficeDto "t" "c" "s" "" "" "" Yield None
    [mkMetricDefinition "unread.emails" "" "" true true "" "" ViewEmail "" "" 10 20 "" ""])) with
  | Some (s, _, _) => s
  | None => initial_settings
  end.

Definition start : session nat := mkSession 0%nat "" "".

(** The second login fails once, and is not tried again: the token of the office is
    there. *)
Example graph_token_stuck :
  let s := mkSession 2%nat "tok" "" in
  Initialize sample_http sample_get sample_settings start = Ret s ∧ Initialize sample_http sample_get sample_settings s = Ret s.
Proof. by vm_compute. Qed.

#[local] Abbreviation sample_collect :=
  (@Collect nat sample_http sample_get (λ _, false) sorted_order DefaultCheckInterval (mkTimestamp 100 0 LocalLoc) id
     (λ _, []) (λ _, []) sample_settings start).

Definition sample_sent : option (list (string * MonitorStatus * list MonitorStatus)) :=
  match sample_collect with
  | Ret (_, (_, monitored, _)) =>
      Some ((λ m, (bi_Name (br_BaseInfo (mr_BaseResource m)), mi_Status (mr_MonitoredInfo m),
                   (λ s, mi_Status (ms_MonitoredInfo s)) <$> mr_Services m)) <$> monitored)
  | Panic _ => None
  end.

(** All services are unknown, and the host is sent as up. *)
Example unknown_host_is_up : sample_sent = Some [(interacApp, HostUp, [ServiceUnknown])].
Proof. by vm_compute. Qed.

(** A status that calls for another try is answered by a request whose body was read; a
    transport that refuses it panics the loop. *)
Example login_retry_panics :
  login (λ (w : nat) r, (S w, if rq_Read r then Fail (Opaque "http: ContentLength=9 with Body length 0") else Val (mkResponse 503 (Val ""))))
    sample_get sample_settings start officeResource = Panic "invalid memory address or nil pointer dereference".
Proof. by vm_compute. Qed.

(** The free space is asked for under one name, and suggested under another. *)
Example free_space_not_asked :
  listSuggestions ViewOneDrive "free" = ["onedrive.free"] ∧ containsMetric
    [mkMetricDefinition "onedrive.free" "" "" true true "" "" ViewOneDrive "" "" 10 20 "" ""] "onedrive" = None.
Proof. by vm_compute. Qed.

Lemma hosts_always_up_witness :
  ∃ s' inventory monitored groups, sample_collect = Ret (s', (inventory, monitored, groups)) ∧ length monitored = 1%nat ∧
    inventory_names <$> inventory = monitored_names <$> monitored ∧
    Forall (λ m, mi_Status (mr_MonitoredInfo m) = HostUp) monitored.
Proof.
  destruct sample_collect as [[s' [[inventory monitored] groups]]|w] eqn:Hs; [|exfalso; vm_compute in Hs; discriminate].
  exists s', inventory, monitored, groups. split; [reflexivity|]. split.
  { assert (match sample_collect with Ret (_, (_, m, _)) => length m | Panic _ => O end = 1%nat) as H by (vm_compute; reflexivity).
    rewrite Hs in H. exact H. }
  destruct (@hosts_always_up nat sample_http sample_get (λ _, false) sorted_order DefaultCheckInterval (mkTimestamp 100 0 LocalLoc)
    id (λ _, []) (λ _, []) sample_settings start s' inventory monitored groups Hs) as (H1 & _ & H2).
  split; [exact H1|]. eapply Forall_impl; [exact H2|]. intros m [Hm _]. exact Hm.
Defined.
