(* ===== verification/Libtransit.v ===== *)
(** libtransit: the library for programs in C.

    A buffer of the caller is the list of its bytes; the length the caller tells is a
    number of its own.  The calls of the transit service, the JSON encoder and the
    values behind the handles that are not used here are arguments.  The functions
    that build payloads field by field are not modelled: payloads share the maps and
    slices of the objects that are added to them. *)

From S2P Require Import Prelude.
From S2P Require Import GoString.
From S2P Require Import Errors.
From S2P Require Import Transit.

Local Open Scope string_scope.

(** ** Buffers *)

Definition NUL : ascii := ascii_of_nat 0.

(** The size the buffer is cast to. *)
Definition max_buffer : Z := 4096.

(** [bufStr]: the text, as far as it fits, and a null byte; the number of bytes is
    converted to [int]. *)
Definition bufStr (buf : list ascii) (bufLen : Z) (str : string) : outcome (list ascii) :=
  if decide (0 < bufLen)%Z then
    let m := Z.min (Z.min (max_buffer - 1) (int64 (int64 bufLen - 1))) (slen str) in
    text ← str_slice str 0 m;
    let b := String.list_ascii_of_string text in
    Ret (b ++ [NUL] ++ drop (S (length b)) buf)%list
  else Ret buf.

(** What a caller reads: the bytes before the first null. *)
Fixpoint c_string (b : list ascii) : string :=
  match b with
  | [] => ""
  | c :: b => if decide (c = NUL) then "" else String c (c_string b)
  end.

Definition msgfBufTooSmall (n : Z) : string := "Buffer too small, need at least " +:+ FormatInt n +:+ " bytes".

(** The buffers of a call: for the result, for the error. *)
Record buffers := mkBuffers { bu_buf : list ascii; bu_len : Z; bu_err : list ascii; bu_errLen : Z }.

Definition put_error (b : buffers) (msg : string) : outcome (bool * buffers) :=
  e ← bufStr (bu_err b) (bu_errLen b) msg;
  Ret (false, mkBuffers (bu_buf b) (bu_len b) e (bu_errLen b)).

(** The result of a call that only tells its error: [StartController] and its like. *)
Definition c_result (err : option error) (b : buffers) : outcome (bool * buffers) :=
  match err with
  | Some e => put_error b (Error e)
  | None => Ret (true, b)
  end.

(** A text that must fit: [GetAgentIdentity], [MarshallIndentJSON]. *)
Definition put_text (text : result error string) (b : buffers) : outcome (bool * buffers) :=
  match text with
  | Fail e => put_error b (Error e)
  | Val s =>
      let cStrLen := (slen s + 1)%Z in
      if decide (int64 (bu_len b) < cStrLen)%Z then put_error b (msgfBufTooSmall cStrLen)
      else
        buf ← bufStr (bu_buf b) (bu_len b) s;
        Ret (true, mkBuffers buf (bu_len b) (bu_err b) (bu_errLen b))
  end.

(** ** Handles *)

(** The values behind the handles that are in use, and the number of the last handle:
    a handle is never given twice. *)
Record handles (V : Type) := mkHandles { hs_last : Z; hs_values : gmap Z V }.
Arguments mkHandles {V}. Arguments hs_last {V}. Arguments hs_values {V}.

Definition invalid_handle : string := "runtime/cgo: misuse of an invalid Handle".

Definition NewHandle {V} (h : handles V) (v : V) : handles V * Z :=
  (mkHandles (hs_last h + 1) (<[(hs_last h + 1)%Z := v]> (hs_values h)), (hs_last h + 1)%Z).

Definition Value {V} (h : handles V) (i : Z) : outcome V :=
  match hs_values h !! i with Some v => Ret v | None => Panic invalid_handle end.

Definition DeleteHandle {V} (h : handles V) (i : Z) : outcome (handles V) :=
  _ ← Value h i; Ret (mkHandles (hs_last h) (delete i (hs_values h))).

(** ** Sending *)

(** What is behind a handle: the payloads, by the call that sends them, and what is sent
    in none.  The last has the text of its value. *)
Inductive operation :=
| OpClearInDowntime | OpSetInDowntime | OpSendEvents | OpSendEventsAck | OpSendEventsUnack | OpSynchronizeInventory
| OpSendResourceWithMetrics | OpSynchronizeInventoryExt.

Inductive object :=
| ODowntimes (json : result error string)
| ODowntimesRequest (json : result error string)
| OEvents (json : result error string)
| OEventsAck (json : result error string)
| OEventsUnack (json : result error string)
| OInventory (q : InventoryRequest)
| OMetrics (q : ResourcesWithServicesRequest)
| OResource (r : MonitoredResource)
| OOther.

Section send.
Context (marshal_inventory : InventoryRequest → result error string).
Context (marshal_metrics : ResourcesWithServicesRequest → result error string).
(** [%+v] of a value. *)
Context (show : object → string).
Context {S : Type} (call : operation → S → string → outcome (S * option error)).
Context (SendStates_ : S → ResourcesWithServicesRequest → outcome (S * option error)).
Context (SyncExt_ : S → InventoryRequest → outcome (S * option error)).

(** The call and the text of what is behind a handle. *)
Definition sender (o : object) : option (operation * result error string) :=
  match o with
  | ODowntimes j => Some (OpClearInDowntime, j)
  | ODowntimesRequest j => Some (OpSetInDowntime, j)
  | OEvents j => Some (OpSendEvents, j)
  | OEventsAck j => Some (OpSendEventsAck, j)
  | OEventsUnack j => Some (OpSendEventsUnack, j)
  | OInventory q => Some (OpSynchronizeInventory, marshal_inventory q)
  | OMetrics q => Some (OpSendResourceWithMetrics, marshal_metrics q)
  | OResource _ | OOther => None
  end.

(** The end of a call: its error in the buffer. *)
Definition finish (r : S * option error) (b : buffers) : outcome (S * (bool * buffers)) :=
  r' ← c_result r.2 b; Ret (r.1, r').

(** A payload in JSON: [SendEvents] and the other calls of transitjson.go. *)
Definition send_json (op : operation) (s : S) (payload : string) (b : buffers) : outcome (S * (bool * buffers)) :=
  r ← call op s payload; finish r b.

Definition send_payload (op : operation) (s : S) (text : result error string) (b : buffers) : outcome (S * (bool * buffers)) :=
  match text with
  | Fail e => r ← put_error b (Error e); Ret (s, r)
  | Val payload => send_json op s payload b
  end.

Definition refused (kind : string) (s : S) (o : object) (b : buffers) : outcome (S * (bool * buffers)) :=
  r ← put_error b (kind +:+ " type: " +:+ show o); Ret (s, r).

Definition Send (h : handles object) (req : Z) (s : S) (b : buffers) : outcome (S * (bool * buffers)) :=
  o ← Value h req;
  match sender o with
  | Some (op, text) => send_payload op s text b
  | None => refused "unknown" s o b
  end.

(** A resource is sent as the only one of a request without a context. *)
Definition SendChecks (h : handles object) (req : Z) (s : S) (b : buffers) : outcome (S * (bool * buffers)) :=
  o ← Value h req;
  match o with
  | OResource r => send_payload OpSendResourceWithMetrics s (marshal_metrics (mkRequest zero_Context [r] [])) b
  | OMetrics q => send_payload OpSendResourceWithMetrics s (marshal_metrics q) b
  | _ => refused "unknown" s o b
  end.

Definition SendStates (h : handles object) (p : Z) (s : S) (b : buffers) : outcome (S * (bool * buffers)) :=
  o ← Value h p;
  match o with
  | OMetrics q => r ← SendStates_ s q; finish r b
  | _ => refused "unexpected" s o b
  end.

Definition SyncExt (h : handles object) (p : Z) (s : S) (b : buffers) : outcome (S * (bool * buffers)) :=
  o ← Value h p;
  match o with
  | OInventory q => r ← SyncExt_ s q; finish r b
  | _ => refused "unexpected" s o b
  end.
End send.

(** ** Lemmas *)

Lemma str_slice_take str m : (0 ≤ m ≤ slen str)%Z → str_slice str 0 m = Ret (str_take (Z.to_nat m) str).
Proof.
  unfold slen. intros Hm. unfold str_slice. rewrite decide_True by lia. rewrite Z.sub_0_r. by destruct str.
Qed.

Lemma length_bytes s : length (String.list_ascii_of_string s) = String.length s.
Proof. induction s as [|c s IH]; cbn; [done|by rewrite IH]. Qed.

(** The bytes of a text without null, and a null. *)
Lemma c_string_text s rest : no_byte NUL s = true → c_string (String.list_ascii_of_string s ++ NUL :: rest) = s.
Proof.
  induction s as [|c s IH]; cbn; [done|]. unfold no_byte. cbn. intros [Hc Hs]%andb_true_iff.
  rewrite decide_False; [by rewrite IH|]. by apply negb_true_iff, bool_decide_eq_false in Hc.
Qed.

Lemma no_byte_take c n s : no_byte c s = true → no_byte c (str_take n s) = true.
Proof.
  revert s. induction n as [|n IH]; intros [|d s]; try done. unfold no_byte. cbn.
  intros [Hd Hs]%andb_true_iff. apply andb_true_iff. split; [done|]. by apply IH.
Qed.

(** The bytes of a text that a buffer of a length takes. *)
Definition taken (bufLen : Z) (str : string) : Z := Z.min (Z.min (max_buffer - 1) (bufLen - 1)) (slen str).

Lemma bufStr_Ret buf bufLen str :
  (0 < bufLen < 2 ^ 63)%Z →
  bufStr buf bufLen str =
  Ret (String.list_ascii_of_string (str_take (Z.to_nat (taken bufLen str)) str) ++ NUL ::
       drop (S (Z.to_nat (taken bufLen str))) buf)%list.
Proof.
  intros Hb. unfold bufStr. rewrite decide_True by lia. rewrite (int64_id bufLen), int64_id by (unfold in_int64; lia). fold (taken bufLen str).
  assert (0 ≤ taken bufLen str ≤ slen str)%Z as Ht by (unfold taken, max_buffer, slen; lia).
  rewrite str_slice_take by done. cbn [mbind outcome_bind]. rewrite length_bytes, length_str_take by (unfold slen in Ht; lia).
  done.
Qed.

(** ** Properties *)

(** C34: A call writes inside the caller's buffer, of the length the caller tells, and leaves
    a terminated text there: the beginning of the message, cut where the buffer or the
    bound of 4096 bytes ends; the bytes behind it stay.  The message has no byte 0, and
    the bound is that of the array that the source casts the buffer to. *)
Theorem bufStr_inside (buf : list ascii) (str : string) :
  (0 < length buf)%nat → (Z.of_nat (length buf) < 2 ^ 63)%Z → no_byte NUL str = true →
  let n := Z.to_nat (taken (Z.of_nat (length buf)) str) in
  ∃ buf', bufStr buf (Z.of_nat (length buf)) str = Ret buf' ∧ length buf' = length buf ∧
    c_string buf' = str_take n str ∧ (n < length buf)%nat ∧ drop (S n) buf' = drop (S n) buf.
Proof.
  intros H0 Hb Hnul n. rewrite bufStr_Ret by lia. fold n.
  assert (n ≤ String.length str ∧ n < length buf)%nat as [Hs Hl] by (unfold n, taken, max_buffer, slen; lia).
  eexists. split; [done|]. split; [|split; [|split; [done|]]].
  - rewrite length_app, length_bytes, length_str_take by done. cbn. rewrite length_drop. lia.
  - apply c_string_text. by apply no_byte_take.
  - rewrite drop_app_ge; rewrite length_bytes, length_str_take by done; [|lia].
    replace (S n - n)%nat with 1%nat by lia. by cbn.
Qed.

Lemma bufStr_inside_witness :
  ∃ buf', bufStr (replicate 4 "x"%char) 4 "hello" = Ret buf' ∧ length buf' = 4%nat ∧ c_string buf' = "hel".
Proof.
  destruct (bufStr_inside (replicate 4 "x"%char) "hello") as (buf' & Hb & Hl & Hc & _).
  - cbn. lia.
  - reflexivity.
  - reflexivity.
  - exists buf'. split; [exact Hb|]. split; [exact Hl|exact Hc].
Defined.

(** A text is put into the buffer when the buffer is long enough, and is whole there up to
    4095 bytes; a longer one is cut, and the call still succeeds. *)
Theorem put_text_cut (s : string) (b : buffers) :
  bu_len b = Z.of_nat (length (bu_buf b)) → (bu_len b < 2 ^ 63)%Z → no_byte NUL s = true → (slen s < bu_len b)%Z →
  ∃ b', put_text (Val s) b = Ret (true, b') ∧ c_string (bu_buf b') = str_take 4095 s ∧ bu_err b' = bu_err b.
Proof.
  intros Hl Hb Hnul Hs. unfold put_text. assert (0 ≤ slen s)%Z as H0 by (unfold slen; lia).
  rewrite int64_id by (unfold in_int64; lia). rewrite decide_False by lia.
  rewrite bufStr_Ret by lia. cbn [mbind outcome_bind]. eexists. split; [done|]. split; [|done]. cbn [bu_buf].
  rewrite c_string_text by by apply no_byte_take.
  unfold taken, max_buffer. destruct (Z.le_gt_cases (slen s) 4095) as [Hle|Hgt].
  - replace (Z.to_nat _) with (String.length s) by (unfold slen in *; lia).
    rewrite <-(str_app_nil_r s) at 2. rewrite str_take_app. symmetry.
    replace 4095%nat with (String.length s + (4095 - String.length s))%nat by (unfold slen in Hle; lia).
    generalize (4095 - String.length s)%nat. clear. induction s as [|c s IH]; intros n; [by destruct n|]. cbn. by rewrite IH.
  - f_equal. unfold slen in *. lia.
Qed.

(** A handle that is deleted is misused by the next call; a new handle is no other. *)
Theorem handle_life {V} (h h' : handles V) (i : Z) (v : V) :
  (∀ k, is_Some (hs_values h !! k) → (k ≤ hs_last h)%Z) →
  let '(h1, j) := NewHandle h v in
  Value h1 j = Ret v ∧ hs_values h !! j = None ∧ (∀ k, k ≠ j → Value h1 k = Value h k) ∧
  (DeleteHandle h1 i = Ret h' → Value h' i = Panic invalid_handle ∧ DeleteHandle h' i = Panic invalid_handle).
Proof.
  intros Hw. cbn [NewHandle]. unfold Value. cbn [hs_values]. rewrite lookup_insert_eq. split; [done|]. split; [|split].
  - destruct (hs_values h !! _) eqn:E; [|done]. assert (hs_last h + 1 ≤ hs_last h)%Z; [|lia]. apply Hw. by eexists.
  - intros k Hk. by rewrite lookup_insert_ne.
  - unfold DeleteHandle. intros (v' & _ & Hd)%bind_Ret_inv. injection Hd as <-. unfold Value. cbn [hs_values].
    by rewrite lookup_delete_eq.
Qed.

(** A length beyond [int] is negative, and the slice panics. *)
Example huge_length : bufStr [] (2 ^ 64 - 1) "x" = Panic "slice bounds out of range".
Proof. by vm_compute. Qed.

(** Of a text of 5000 bytes in a buffer of 8192 the call tells success, and 4095 arrive. *)
Example long_text_cut :
  let s := String.string_of_list_ascii (replicate 5000 "a"%char) in
  match put_text (Val s) (mkBuffers (replicate 8192 NUL) 8192 [] 0) with
  | Ret (ok, b) => (ok, String.length (c_string (bu_buf b)))
  | Panic _ => (false, O)
  end = (true, 4095%nat).
Proof. by vm_compute. Qed.
