(* ===== verification/Builders.v ===== *)
(** libtransit: the objects behind the handles, from which a program in C builds its
    payloads field by field (libtransit.go, events.go, downtimes.go).

    A handle is a pointer to a Go struct, and an object that is added to another is
    copied as a struct: the copy shares the maps of properties and tags, the interval
    of a sample, and the array of the services of a resource.  These are cells of a
    heap.  The other slices only grow at their end, by their one owner, so their copies
    are lists; values and time stamps behind a pointer are never changed in place.

    A struct is kept flat: the fields whose values are cells are empty in the record of
    [Transit], and the number of the cell is beside it. *)

From S2P Require Import Prelude.
From S2P Require Import GoString.
From S2P Require Import GoFloat.
From S2P Require Import Errors.
From S2P Require Import Timestamp.
From S2P Require Import TypedValue.
From S2P Require Import Transit.
From S2P Require Import Status.
From S2P Require Import TransitService.
From S2P Require Import Libtransit.

Local Open Scope string_scope.

(** ** Structs and their cells *)

(** A sample; a service; an inventory service. *)
Record series := mkSeries { se_flat : TimeSeries; se_interval : option nat; se_tags : option nat }.

Record service := mkService {
  sv_info : BaseInfo;
  sv_props : option nat;
  sv_state : MonitoredInfo;
  sv_metrics : list series;
}.

Record iservice := mkIService { is_info : BaseInfo; is_props : option nat }.

(** The header of a slice: its array, its length and its capacity. *)
Record slice := mkSlice { sl_array : nat; sl_len : nat; sl_cap : nat }.

(** A resource; an inventory resource. *)
Record resource := mkResource {
  re_base : BaseResource;
  re_props : option nat;
  re_state : MonitoredInfo;
  re_services : slice;
}.

Record iresource := mkIResource { ie_base : BaseResource; ie_props : option nat; ie_services : list iservice }.

(** What is behind a handle. *)
Inductive object :=
| CInventoryRequest (c : TracerContext) (own : HostOwnershipType) (rs : list iresource) (gs : list ResourceGroup)
| CInventoryResource (r : iresource)
| CInventoryService (s : iservice)
| CRequest (c : TracerContext) (rs : list resource) (gs : list ResourceGroup)
| CResource (r : resource)
| CService (s : service)
| CGroup (g : ResourceGroup)
| CThreshold (t : ThresholdValue)
| CSeries (s : series)
| CEvent (e : GroundworkEvent)
| CEvents (q : GroundworkEventsRequest)
| CAcks (q : GroundworkEventsAckRequest)
| CUnacks (q : GroundworkEventsUnackRequest)
| CDowntimes (q : Downtimes)
| CDowntimesRequest (q : DowntimesRequest).

(** The cells, under references of their kinds. *)
Inductive ref := RProps (n : nat) | RTags (n : nat) | RInterval (n : nat) | RArray (n : nat).

#[export] Instance ref_eq_dec : EqDecision ref.
Proof. solve_decision. Defined.

Definition ref_no (r : ref) : nat := match r with RProps n | RTags n | RInterval n | RArray n => n end.
Definition ref_kind (r : ref) : nat := match r with RProps _ => 0 | RTags _ => 1 | RInterval _ => 2 | RArray _ => 3 end.

#[export] Instance ref_countable : Countable ref.
Proof.
  refine (inj_countable' (λ r, (ref_kind r, ref_no r))
    (λ p, match p.1 with 0 => RProps p.2 | 1 => RTags p.2 | 2 => RInterval p.2 | _ => RArray p.2 end) _).
  by intros [].
Defined.

Inductive cell :=
| CellProps (m : gmap string TypedValue)
| CellTags (m : gmap string string)
| CellInterval (i : TimeInterval)
| CellServices (l : list service).

Record heap := mkHeap { hp_next : nat; hp_cells : gmap ref cell }.

Definition store (h : heap) (r : ref) (c : cell) : heap := mkHeap (hp_next h) (<[r := c]> (hp_cells h)).
Definition alloc (h : heap) (kind : nat → ref) (c : cell) : heap * nat :=
  (mkHeap (S (hp_next h)) (<[kind (hp_next h) := c]> (hp_cells h)), hp_next h).

Definition props_at (h : heap) (n : nat) : gmap string TypedValue :=
  match hp_cells h !! RProps n with Some (CellProps m) => m | _ => ∅ end.
Definition tags_at (h : heap) (n : nat) : gmap string string :=
  match hp_cells h !! RTags n with Some (CellTags m) => m | _ => ∅ end.
Definition interval_at (h : heap) (n : nat) : TimeInterval :=
  match hp_cells h !! RInterval n with Some (CellInterval i) => i | _ => mkTimeInterval None None end.
Definition array_at (h : heap) (n : nat) : list service :=
  match hp_cells h !! RArray n with Some (CellServices l) => l | _ => [] end.

Definition services_in (h : heap) (s : slice) : list service := take (sl_len s) (array_at h (sl_array s)).

(** ** What is read: the values the encoder sees *)

Inductive payload :=
| PInventoryRequest (q : InventoryRequest)
| PInventoryResource (r : InventoryResource)
| PInventoryService (s : InventoryService)
| PRequest (q : ResourcesWithServicesRequest)
| PResource (r : MonitoredResource)
| PService (s : MonitoredService)
| PGroup (g : ResourceGroup)
| PThreshold (t : ThresholdValue)
| PSeries (s : TimeSeries)
| PEvent (e : GroundworkEvent)
| PEvents (q : GroundworkEventsRequest)
| PAcks (q : GroundworkEventsAckRequest)
| PUnacks (q : GroundworkEventsUnackRequest)
| PDowntimes (q : Downtimes)
| PDowntimesRequest (q : DowntimesRequest).

Section view.
Context (h : heap).

Definition view_info (i : BaseInfo) (props : option nat) : BaseInfo := with_Properties i (from_option (props_at h) ∅ props).

Definition view_series (s : series) : TimeSeries :=
  let p := se_flat s in
  mkTimeSeries (ts_MetricName p) (ts_SampleType p) (interval_at h <$> se_interval s) (ts_Value p)
    (from_option (tags_at h) ∅ (se_tags s)) (ts_Unit p) (ts_Thresholds p) (ts_MetricComputeType p) (ts_MetricExpression p).

Definition view_service (s : service) : MonitoredService :=
  mkMonitoredService (view_info (sv_info s) (sv_props s)) (sv_state s) (view_series <$> sv_metrics s).

Definition view_base (b : BaseResource) (props : option nat) : BaseResource :=
  mkBaseResource (view_info (br_BaseInfo b) props) (br_Device b).

Definition view_resource (r : resource) : MonitoredResource :=
  mkMonitoredResource (view_base (re_base r) (re_props r)) (re_state r) (view_service <$> services_in h (re_services r)).

Definition view_iservice (s : iservice) : InventoryService := mkInventoryService (view_info (is_info s) (is_props s)).

Definition view_iresource (r : iresource) : InventoryResource :=
  mkInventoryResource (view_base (ie_base r) (ie_props r)) (view_iservice <$> ie_services r).

Definition view (o : object) : payload :=
  match o with
  | CInventoryRequest c own rs gs => PInventoryRequest (mkInventoryRequest c own (view_iresource <$> rs) gs)
  | CInventoryResource r => PInventoryResource (view_iresource r)
  | CInventoryService s => PInventoryService (view_iservice s)
  | CRequest c rs gs => PRequest (mkRequest c (view_resource <$> rs) gs)
  | CResource r => PResource (view_resource r)
  | CService s => PService (view_service s)
  | CGroup g => PGroup g
  | CThreshold t => PThreshold t
  | CSeries s => PSeries (view_series s)
  | CEvent e => PEvent e
  | CEvents q => PEvents q
  | CAcks q => PAcks q
  | CUnacks q => PUnacks q
  | CDowntimes q => PDowntimes q
  | CDowntimesRequest q => PDowntimesRequest q
  end.
End view.

(** ** Setters

    A setter of a struct finds the method it needs on some of the types and does nothing
    on the others. *)

Abbreviation setter := (heap → object → outcome (heap * object)).

(** A function on an object that touches no cell. *)
Definition plain (f : object → object) : setter := λ h o, Ret (h, f o).

(** The methods of [BaseInfo], on the types that embed it. *)
Definition on_info (f : BaseInfo → BaseInfo) (o : object) : object :=
  match o with
  | CInventoryResource r =>
      CInventoryResource (mkIResource (mkBaseResource (f (br_BaseInfo (ie_base r))) (br_Device (ie_base r))) (ie_props r) (ie_services r))
  | CInventoryService s => CInventoryService (mkIService (f (is_info s)) (is_props s))
  | CResource r =>
      CResource (mkResource (mkBaseResource (f (br_BaseInfo (re_base r))) (br_Device (re_base r))) (re_props r) (re_state r) (re_services r))
  | CService s => CService (mkService (f (sv_info s)) (sv_props s) (sv_state s) (sv_metrics s))
  | _ => o
  end.

(** The methods of [MonitoredInfo], of [TimeSeries], of [ResourceGroup]. *)
Definition on_state (f : MonitoredInfo → MonitoredInfo) (o : object) : object :=
  match o with
  | CResource r => CResource (mkResource (re_base r) (re_props r) (f (re_state r)) (re_services r))
  | CService s => CService (mkService (sv_info s) (sv_props s) (f (sv_state s)) (sv_metrics s))
  | _ => o
  end.

Definition on_series (f : TimeSeries → TimeSeries) (o : object) : object :=
  match o with CSeries s => CSeries (mkSeries (f (se_flat s)) (se_interval s) (se_tags s)) | _ => o end.

Definition on_group (f : ResourceGroup → ResourceGroup) (o : object) : object :=
  match o with CGroup g => CGroup (f g) | _ => o end.

Definition on_event (f : GroundworkEvent → GroundworkEvent) (o : object) : object :=
  match o with CEvent e => CEvent (f e) | _ => o end.

Definition SetName (value : string) : setter := plain (λ o,
  on_info (λ i, BaseInfo_SetName i value) (on_series (λ s, TimeSeries_SetName s value) (on_group (λ g, ResourceGroup_SetName g value) o))).

Definition SetType (value : string) : setter := plain (λ o,
  on_info (λ i, BaseInfo_SetType i value) (on_group (λ g, ResourceGroup_SetType g value) o)).

Definition SetDescription (value : string) : setter := plain (λ o,
  on_info (λ i, Transit.SetDescription i value) (on_group (λ g, ResourceGroup_SetDescription g value) o)).

Definition SetCategory (value : string) : setter := plain (on_info (λ i, Transit.SetCategory i value)).
Definition SetOwner (value : string) : setter := plain (on_info (λ i, Transit.SetOwner i value)).

Definition SetDevice (value : string) : setter := plain (λ o,
  match o with
  | CInventoryResource r => CInventoryResource (mkIResource (Transit.SetDevice (ie_base r) value) (ie_props r) (ie_services r))
  | CResource r => CResource (mkResource (Transit.SetDevice (re_base r) value) (re_props r) (re_state r) (re_services r))
  | _ => o
  end).

Definition SetStatus (value : string) : setter := plain (on_state (λ i, Transit.SetStatus i value)).
Definition SetLastPluginOutput (value : string) : setter := plain (on_state (λ i, Transit.SetLastPluginOutput i value)).

(** [time.Unix(sec, nsec).UTC()]: the nanoseconds are brought below a second. *)
Definition unix_time (s ns : Z) : Timestamp := mkTimestamp (int64 (s + ns / 10 ^ 9)) (ns `mod` 10 ^ 9) UTCLoc.

Definition SetLastCheckTime (s ns : Z) : setter := plain (on_state (λ i, Transit.SetLastCheckTime i (Some (unix_time s ns)))).
Definition SetNextCheckTime (s ns : Z) : setter := plain (on_state (λ i, Transit.SetNextCheckTime i (Some (unix_time s ns)))).

Definition SetSampleType (value : string) : setter := plain (on_series (λ s, Transit.SetSampleType s value)).
Definition SetUnit (value : string) : setter := plain (on_series (λ s, Transit.SetUnit s value)).

(** *** Contexts *)

Definition set_context (c : TracerContext) : setter := plain (λ o,
  match o with
  | CInventoryRequest d own rs gs => CInventoryRequest (SetContext d c) own rs gs
  | CRequest d rs gs => CRequest (SetContext d c) rs gs
  | _ => o
  end).

Definition SetContextTimestamp (s ns : Z) : setter := set_context (mkTracerContext "" "" "" (Some (unix_time s ns)) "").
Definition SetContextToken (value : string) : setter := set_context (mkTracerContext "" "" value None "").

(** *** Properties and tags *)

(** A map that is nil is made; one that is there is changed for all who share it. *)
Definition put_property (h : heap) (props : option nat) (k : string) (t : TypedValue) : heap * nat :=
  match props with
  | Some n => (store h (RProps n) (CellProps (<[k := t]> (props_at h n))), n)
  | None => alloc h RProps (CellProps {[k := t]})
  end.

Definition props_of (o : object) : option (option nat) :=
  match o with
  | CInventoryResource r => Some (ie_props r)
  | CInventoryService s => Some (is_props s)
  | CResource r => Some (re_props r)
  | CService s => Some (sv_props s)
  | _ => None
  end.

Definition with_props (o : object) (n : nat) : object :=
  match o with
  | CInventoryResource r => CInventoryResource (mkIResource (ie_base r) (Some n) (ie_services r))
  | CInventoryService s => CInventoryService (mkIService (is_info s) (Some n))
  | CResource r => CResource (mkResource (re_base r) (Some n) (re_state r) (re_services r))
  | CService s => CService (mkService (sv_info s) (Some n) (sv_state s) (sv_metrics s))
  | _ => o
  end.

Definition SetProperty (k : string) (v : any) : setter := λ h o,
  match props_of o with
  | None => Ret (h, o)
  | Some props =>
      t ← NewTypedValue v;
      match t with
      | None => Ret (h, o)
      | Some t => let '(h, n) := put_property h props k t in Ret (h, with_props o n)
      end
  end.

Definition SetPropertyBool (k : string) (value : bool) : setter := SetProperty k (ABool value).
Definition SetPropertyDouble (k : string) (value : float64) : setter := SetProperty k (AFloat64 value).
Definition SetPropertyInt (k : string) (value : Z) : setter := SetProperty k (AInt KInt64 value).
Definition SetPropertyStr (k value : string) : setter := SetProperty k (AString value).
Definition SetPropertyTime (k : string) (s ns : Z) : setter := SetProperty k (ATimestamp (unix_time s ns)).

Definition SetTag (k v : string) : setter := λ h o,
  match o with
  | CSeries s =>
      match se_tags s with
      | Some n => Ret (store h (RTags n) (CellTags (<[k := v]> (tags_at h n))), o)
      | None => let '(h, n) := alloc h RTags (CellTags {[k := v]}) in Ret (h, CSeries (mkSeries (se_flat s) (se_interval s) (Some n)))
      end
  | _ => Ret (h, o)
  end.

(** *** Intervals *)

(** The interval is made when there is none, and changed in place. *)
Definition on_interval (f : TimeInterval → TimeInterval) : setter := λ h o,
  match o with
  | CSeries s =>
      match se_interval s with
      | Some n => Ret (store h (RInterval n) (CellInterval (f (interval_at h n))), o)
      | None =>
          let '(h, n) := alloc h RInterval (CellInterval (f (mkTimeInterval None None))) in
          Ret (h, CSeries (mkSeries (se_flat s) (Some n) (se_tags s)))
      end
  | _ => Ret (h, o)
  end.

Definition SetIntervalEnd (s ns : Z) : setter := on_interval (λ i, mkTimeInterval (Some (unix_time s ns)) (ti_StartTime i)).
Definition SetIntervalStart (s ns : Z) : setter := on_interval (λ i, mkTimeInterval (ti_EndTime i) (Some (unix_time s ns))).

(** *** Values and thresholds *)

Definition SetValue (v : any) : setter := λ h o,
  match o with
  | CSeries s => p ← TimeSeries_SetValue (se_flat s) v; Ret (h, CSeries (mkSeries p (se_interval s) (se_tags s)))
  | CThreshold t => t ← ThresholdValue_SetValue t v; Ret (h, CThreshold t)
  | _ => Ret (h, o)
  end.

Definition SetValueBool (value : bool) : setter := SetValue (ABool value).
Definition SetValueDouble (value : float64) : setter := SetValue (AFloat64 value).
Definition SetValueInt (value : Z) : setter := SetValue (AInt KInt64 value).
Definition SetValueStr (value : string) : setter := SetValue (AString value).
Definition SetValueTime (s ns : Z) : setter := SetValue (ATimestamp (unix_time s ns)).

Definition add_threshold (lbl sType : string) (v : any) : setter := λ h o,
  match o with
  | CSeries _ => t ← NewTypedValue v; Ret (h, on_series (λ s, Transit.AddThreshold s (mkThresholdValue sType lbl t)) o)
  | _ => Ret (h, o)
  end.

Definition AddThresholdDouble (lbl sType : string) (value : float64) : setter := add_threshold lbl sType (AFloat64 value).
Definition AddThresholdInt (lbl sType : string) (value : Z) : setter := add_threshold lbl sType (AInt KInt64 value).

(** *** Status *)

Definition service_with_status (s : service) (status : MonitorStatus) : service :=
  mkService (sv_info s) (sv_props s) (Transit.SetStatus (sv_state s) status) (sv_metrics s).

(** The status of the metrics; an error leaves the old one. *)
Definition calc_service (h : heap) (s : service) : outcome service :=
  '(status, err) ← CalculateServiceStatus (Some (view_series h <$> sv_metrics s));
  Ret (match err with None => service_with_status s status | Some _ => s end).

(** Of a resource, and of its services where they are in the array. *)
Definition CalcStatus : setter := λ h o,
  match o with
  | CResource r =>
      let services := services_in h (re_services r) in
      let status := CalculateResourceStatus (view_service h <$> services) in
      services ← mapM_o (calc_service h) services;
      let a := sl_array (re_services r) in
      Ret (store h (RArray a) (CellServices (services ++ drop (sl_len (re_services r)) (array_at h a))%list),
           CResource (mkResource (re_base r) (re_props r) (Transit.SetStatus (re_state r) status) (re_services r)))
  | CService s => s ← calc_service h s; Ret (h, CService s)
  | _ => Ret (h, o)
  end.

(** *** Events *)

(** The attributes of [SetEventAttrs]; [None] is a NULL that is skipped. *)
Record event_attrs := mkAttrs {
  at_appType : option string;
  at_host : option string;
  at_monStatus : option string;
  at_device : option string;
  at_service : option string;
  at_opStatus : option string;
  at_severity : option string;
  at_appSeverity : option string;
  at_component : option string;
  at_subComponent : option string;
  at_priority : option string;
  at_typeRule : option string;
  at_textMessage : option string;
  at_appName : option string;
  at_consolidationName : option string;
  at_errorType : option string;
  at_loggerName : option string;
  at_logType : option string;
  at_monServer : option string;
}.

Definition SetEventAttrs (a : event_attrs) : setter := plain (on_event (λ e,
  mkGroundworkEvent
    (default (ev_AppType e) (at_appType a)) (default (ev_Device e) (at_device a)) (default (ev_Host e) (at_host a))
    (default (ev_Service e) (at_service a)) (default (ev_OperationStatus e) (at_opStatus a))
    (default (ev_MonitorStatus e) (at_monStatus a)) (default (ev_Severity e) (at_severity a))
    (default (ev_ApplicationSeverity e) (at_appSeverity a)) (default (ev_Component e) (at_component a))
    (default (ev_SubComponent e) (at_subComponent a)) (default (ev_Priority e) (at_priority a))
    (default (ev_TypeRule e) (at_typeRule a)) (default (ev_TextMessage e) (at_textMessage a))
    (ev_LastInsertDate e) (ev_ReportDate e)
    (default (ev_ApplicationName e) (at_appName a)) (default (ev_ConsolidationName e) (at_consolidationName a))
    (default (ev_ErrorType e) (at_errorType a)) (default (ev_LoggerName e) (at_loggerName a))
    (default (ev_LogType e) (at_logType a)) (default (ev_MonitorServer e) (at_monServer a)))).

(** A date of two pointers: skipped when both are NULL, zero for one that is. *)
Definition event_date (old : option Timestamp) (s ns : option Z) : option Timestamp :=
  match s, ns with
  | None, None => old
  | _, _ => Some (unix_time (default 0%Z s) (default 0%Z ns))
  end.

Definition SetEventDates (reportSec reportNsec insertSec insertNsec : option Z) : setter := plain (on_event (λ e,
  mkGroundworkEvent (ev_AppType e) (ev_Device e) (ev_Host e) (ev_Service e) (ev_OperationStatus e) (ev_MonitorStatus e)
    (ev_Severity e) (ev_ApplicationSeverity e) (ev_Component e) (ev_SubComponent e) (ev_Priority e) (ev_TypeRule e)
    (ev_TextMessage e) (event_date (ev_LastInsertDate e) insertSec insertNsec)
    (event_date (ev_ReportDate e) reportSec reportNsec) (ev_ApplicationName e) (ev_ConsolidationName e) (ev_ErrorType e)
    (ev_LoggerName e) (ev_LogType e) (ev_MonitorServer e))).

Definition AddEventAck (appType host service ackBy ackComment : string) : setter := plain (λ o,
  match o with
  | CAcks q => CAcks (mkEventsAckRequest (acks_Acks q ++ [mkEventAck appType host service ackBy ackComment])%list)
  | _ => o
  end).

Definition AddEventUnack (appType host service : string) : setter := plain (λ o,
  match o with
  | CUnacks q => CUnacks (mkEventsUnackRequest (unacks_Unacks q ++ [mkEventUnack appType host service])%list)
  | _ => o
  end).

(** *** Downtimes *)

Definition AddDowntime (entityType entityName hostName serviceDesc : string) (scheduledDepth : Z) : setter := plain (λ o,
  match o with
  | CDowntimes q =>
      CDowntimes (mkDowntimes (dts_BizHostServiceInDowntimes q ++
        [mkDowntime entityType entityName hostName serviceDesc scheduledDepth])%list)
  | _ => o
  end).

Definition given {A} (p : option A) : bool := match p with Some _ => true | None => false end.

(** The names that are not NULL, and the flags of their kinds. *)
Definition ExtendDowntimesRequest (hostName hostGroup serviceDesc serviceGroup : option string) : setter := plain (λ o,
  match o with
  | CDowntimesRequest q =>
      CDowntimesRequest (mkDowntimesRequest (dtr_HostNames q ++ option_list hostName)%list
        (dtr_HostGroupNames q ++ option_list hostGroup)%list (dtr_ServiceDescriptions q ++ option_list serviceDesc)%list
        (dtr_ServiceGroupCategoryNames q ++ option_list serviceGroup)%list
        (dtr_SetHosts q || given hostName || given hostGroup) (dtr_SetServices q || given serviceDesc || given serviceGroup))
  | _ => o
  end).

(** ** Objects that are added

    [None] when the target has no such method: the other handle is not looked at then. *)

Abbreviation adder := (heap → object → option (object → heap * object)).

Definition AddMetric : adder := λ h o,
  match o with
  | CService s => Some (λ v,
      match v with
      | CSeries m => (h, CService (mkService (sv_info s) (sv_props s) (sv_state s) (sv_metrics s ++ [m])%list))
      | _ => (h, o)
      end)
  | _ => None
  end.

Definition AddThreshold : adder := λ h o,
  match o with
  | CSeries _ => Some (λ v,
      match v with CThreshold t => (h, on_series (λ s, Transit.AddThreshold s t) o) | _ => (h, o) end)
  | _ => None
  end.

(** [ToResourceRef] of the two kinds of resources. *)
Definition to_ref (v : object) : option ResourceRef :=
  match v with
  | CInventoryResource r => Some (ToResourceRef (ie_base r))
  | CResource r => Some (ToResourceRef (re_base r))
  | _ => None
  end.

Definition AddResource : adder := λ h o,
  match o with
  | CInventoryRequest c own rs gs => Some (λ v,
      match v with CInventoryResource r => (h, CInventoryRequest c own (rs ++ [r])%list gs) | _ => (h, o) end)
  | CRequest c rs gs => Some (λ v, match v with CResource r => (h, CRequest c (rs ++ [r])%list gs) | _ => (h, o) end)
  | CGroup g => Some (λ v, match to_ref v with Some r => (h, CGroup (ResourceGroup_AddResource g r)) | None => (h, o) end)
  | _ => None
  end.

Definition AddResourceGroup : adder := λ h o,
  match o with
  | CInventoryRequest c own rs gs => Some (λ v,
      match v with CGroup g => (h, CInventoryRequest c own rs (gs ++ [g])%list) | _ => (h, o) end)
  | CRequest c rs gs => Some (λ v, match v with CGroup g => (h, CRequest c rs (gs ++ [g])%list) | _ => (h, o) end)
  | _ => None
  end.

Definition AddEvent : adder := λ h o,
  match o with
  | CEvents q => Some (λ v, match v with CEvent e => (h, CEvents (mkEventsRequest (evs_Events q ++ [e])%list)) | _ => (h, o) end)
  | _ => None
  end.

Section append.
(** The capacity of a new array, which the runtime chooses. *)
Context (grow : nat → nat).

(** [append]: in the array, while its capacity lasts; then in a new one. *)
Definition append_service (h : heap) (s : slice) (x : service) : heap * slice :=
  let a := array_at h (sl_array s) in
  if decide (sl_len s < sl_cap s)%nat then
    (store h (RArray (sl_array s)) (CellServices (take (sl_len s) a ++ [x] ++ drop (S (sl_len s)) a)%list),
     mkSlice (sl_array s) (S (sl_len s)) (sl_cap s))
  else
    let '(h, n) := alloc h RArray (CellServices (take (sl_len s) a ++ [x])%list) in
    (h, mkSlice n (S (sl_len s)) (S (sl_len s) `max` grow (S (sl_len s)))).

Definition AddService : adder := λ h o,
  match o with
  | CInventoryResource r => Some (λ v,
      match v with
      | CInventoryService s => (h, CInventoryResource (mkIResource (ie_base r) (ie_props r) (ie_services r ++ [s])%list))
      | _ => (h, o)
      end)
  | CResource r => Some (λ v,
      match v with
      | CService s =>
          let '(h, services) := append_service h (re_services r) s in
          (h, CResource (mkResource (re_base r) (re_props r) (re_state r) services))
      | _ => (h, o)
      end)
  | _ => None
  end.
End append.

(** ** Creation *)

Definition named (name : string) (type : ResourceType) : BaseInfo := mkBaseInfo name type "" "" "" ∅.

Abbreviation maker := (heap → heap * object).
Definition fixed (o : object) : maker := λ h, (h, o).

(** The requests get the context that the agent makes. *)
Definition CreateInventoryRequest (ctx : TracerContext) : maker := fixed (CInventoryRequest ctx "" [] []).
Definition CreateInventoryResource (name : string) : maker :=
  fixed (CInventoryResource (mkIResource (mkBaseResource (named name ResourceTypeHost) "") None [])).
Definition CreateInventoryService (name : string) : maker :=
  fixed (CInventoryService (mkIService (named name ResourceTypeService) None)).
Definition CreateMonitoredResource (name : string) : maker := λ h,
  let '(h, n) := alloc h RArray (CellServices []) in
  (h, CResource (mkResource (mkBaseResource (named name ResourceTypeHost) "") None zero_MonitoredInfo (mkSlice n 0 0))).
Definition CreateMonitoredService (name : string) : maker :=
  fixed (CService (mkService (named name ResourceTypeService) None zero_MonitoredInfo [])).
Definition CreateResourceGroup (name grType : string) : maker := fixed (CGroup (mkResourceGroup name grType "" [])).
Definition CreateResourcesWithServicesRequest (ctx : TracerContext) : maker := fixed (CRequest ctx [] []).
Definition CreateThresholdValue (lbl sType : string) : maker := fixed (CThreshold (mkThresholdValue sType lbl None)).
Definition CreateTimeSeries (name : string) : maker :=
  fixed (CSeries (mkSeries (TimeSeries_SetName zero_TimeSeries name) None None)).
Definition CreateEvent (appType host monStatus : string) (s ns : Z) : maker :=
  fixed (CEvent (mkGroundworkEvent appType "" host "" "" monStatus "" "" "" "" "" "" "" None (Some (unix_time s ns)) "" "" "" "" "" "")).
Definition CreateEventsRequest : maker := fixed (CEvents (mkEventsRequest [])).
Definition CreateEventsAckRequest : maker := fixed (CAcks (mkEventsAckRequest [])).
Definition CreateEventsUnackRequest : maker := fixed (CUnacks (mkEventsUnackRequest [])).
Definition CreateDowntimes : maker := fixed (CDowntimes (mkDowntimes [])).
Definition CreateDowntimesRequest : maker := fixed (CDowntimesRequest (mkDowntimesRequest [] [] [] [] false false)).

(** ** The calls of a program *)

Inductive creation :=
| NInventoryRequest (ctx : TracerContext) | NInventoryResource (name : string) | NInventoryService (name : string)
| NMonitoredResource (name : string) | NMonitoredService (name : string) | NResourceGroup (name grType : string)
| NResourcesWithServicesRequest (ctx : TracerContext) | NThresholdValue (lbl sType : string) | NTimeSeries (name : string)
| NEvent (appType host monStatus : string) (s ns : Z) | NEventsRequest | NEventsAckRequest | NEventsUnackRequest
| NDowntimes | NDowntimesRequest.

Definition create (c : creation) : maker :=
  match c with
  | NInventoryRequest ctx => CreateInventoryRequest ctx
  | NInventoryResource name => CreateInventoryResource name
  | NInventoryService name => CreateInventoryService name
  | NMonitoredResource name => CreateMonitoredResource name
  | NMonitoredService name => CreateMonitoredService name
  | NResourceGroup name grType => CreateResourceGroup name grType
  | NResourcesWithServicesRequest ctx => CreateResourcesWithServicesRequest ctx
  | NThresholdValue lbl sType => CreateThresholdValue lbl sType
  | NTimeSeries name => CreateTimeSeries name
  | NEvent appType host monStatus s ns => CreateEvent appType host monStatus s ns
  | NEventsRequest => CreateEventsRequest
  | NEventsAckRequest => CreateEventsAckRequest
  | NEventsUnackRequest => CreateEventsUnackRequest
  | NDowntimes => CreateDowntimes
  | NDowntimesRequest => CreateDowntimesRequest
  end.

(** The setters of properties, values and thresholds of the five types are one each. *)
Inductive setting :=
| SName (s : string) | SType (s : string) | SDescription (s : string) | SCategory (s : string) | SOwner (s : string)
| SDevice (s : string) | SStatus (s : string) | SLastPluginOutput (s : string)
| SLastCheckTime (s ns : Z) | SNextCheckTime (s ns : Z) | SSampleType (s : string) | SUnit (s : string)
| SContextTimestamp (s ns : Z) | SContextToken (s : string) | SProperty (k : string) (v : any) | STag (k v : string)
| SIntervalEnd (s ns : Z) | SIntervalStart (s ns : Z) | SValue (v : any) | SThreshold (lbl sType : string) (v : any)
| SCalcStatus | SEventAttrs (a : event_attrs) | SEventDates (rs rn ls ln : option Z)
| SEventAck (appType host service ackBy ackComment : string) | SEventUnack (appType host service : string)
| SDowntime (entityType entityName hostName serviceDesc : string) (depth : Z)
| SExtendDowntimes (hostName hostGroup serviceDesc serviceGroup : option string).

Definition set (s : setting) : setter :=
  match s with
  | SName v => SetName v
  | SType v => SetType v
  | SDescription v => SetDescription v
  | SCategory v => SetCategory v
  | SOwner v => SetOwner v
  | SDevice v => SetDevice v
  | SStatus v => SetStatus v
  | SLastPluginOutput v => SetLastPluginOutput v
  | SLastCheckTime s ns => SetLastCheckTime s ns
  | SNextCheckTime s ns => SetNextCheckTime s ns
  | SSampleType v => SetSampleType v
  | SUnit v => SetUnit v
  | SContextTimestamp s ns => SetContextTimestamp s ns
  | SContextToken v => SetContextToken v
  | SProperty k v => SetProperty k v
  | STag k v => SetTag k v
  | SIntervalEnd s ns => SetIntervalEnd s ns
  | SIntervalStart s ns => SetIntervalStart s ns
  | SValue v => SetValue v
  | SThreshold lbl sType v => add_threshold lbl sType v
  | SCalcStatus => CalcStatus
  | SEventAttrs a => SetEventAttrs a
  | SEventDates rs rn ls ln => SetEventDates rs rn ls ln
  | SEventAck a h s b c => AddEventAck a h s b c
  | SEventUnack a h s => AddEventUnack a h s
  | SDowntime t n h s d => AddDowntime t n h s d
  | SExtendDowntimes h g s sg => ExtendDowntimesRequest h g s sg
  end.

Inductive addition := AMetric | AThreshold | AResource | AResourceGroup | AEvent | AService.

Inductive call :=
| CallCreate (c : creation)
| CallSet (target : Z) (s : setting)
| CallAdd (a : addition) (target value : Z)
| CallDelete (target : Z).

(** The objects behind the handles, and the heap. *)
Record world := mkWorld { w_handles : handles object; w_heap : heap }.

Definition put_object {V} (hs : handles V) (target : Z) (o : V) : handles V :=
  mkHandles (hs_last hs) (<[target := o]> (hs_values hs)).

Section exec.
Context (grow : nat → nat).

Definition add (a : addition) : adder :=
  match a with
  | AMetric => AddMetric
  | AThreshold => AddThreshold
  | AResource => AddResource
  | AResourceGroup => AddResourceGroup
  | AEvent => AddEvent
  | AService => AddService grow
  end.

(** A new handle; a setter; an adder, which asks for the other handle only when the
    target has the method; [DeleteHandle]. *)
Definition exec (w : world) (c : call) : outcome world :=
  match c with
  | CallCreate c => let '(h, o) := create c (w_heap w) in Ret (mkWorld (NewHandle (w_handles w) o).1 h)
  | CallSet target s =>
      o ← Value (w_handles w) target;
      '(h, o) ← set s (w_heap w) o;
      Ret (mkWorld (put_object (w_handles w) target o) h)
  | CallAdd a target value =>
      o ← Value (w_handles w) target;
      match add a (w_heap w) o with
      | None => Ret w
      | Some f =>
          v ← Value (w_handles w) value;
          let '(h, o) := f v in
          Ret (mkWorld (put_object (w_handles w) target o) h)
      end
  | CallDelete target => hs ← DeleteHandle (w_handles w) target; Ret (mkWorld hs (w_heap w))
  end.
End exec.

Definition empty_world : world := mkWorld (mkHandles 0 ∅) (mkHeap 0 ∅).

(** ** The same calls on values

    What a program means that leaves an object alone once it is added: every handle has
    a value of its own, and nothing is shared. *)

(** A function on the part of a value that has it. *)
Definition at_info (f : BaseInfo → outcome BaseInfo) (p : payload) : outcome payload :=
  let base b := i ← f (br_BaseInfo b); Ret (mkBaseResource i (br_Device b)) in
  match p with
  | PInventoryResource r => b ← base (ir_BaseResource r); Ret (PInventoryResource (mkInventoryResource b (ir_Services r)))
  | PInventoryService s => i ← f (is_BaseInfo s); Ret (PInventoryService (mkInventoryService i))
  | PResource r => b ← base (mr_BaseResource r); Ret (PResource (mkMonitoredResource b (mr_MonitoredInfo r) (mr_Services r)))
  | PService s => i ← f (ms_BaseInfo s); Ret (PService (mkMonitoredService i (ms_MonitoredInfo s) (ms_Metrics s)))
  | _ => Ret p
  end.

Definition at_state (f : MonitoredInfo → MonitoredInfo) (p : payload) : payload :=
  match p with
  | PResource r => PResource (mkMonitoredResource (mr_BaseResource r) (f (mr_MonitoredInfo r)) (mr_Services r))
  | PService s => PService (mkMonitoredService (ms_BaseInfo s) (f (ms_MonitoredInfo s)) (ms_Metrics s))
  | _ => p
  end.

Definition at_series (f : TimeSeries → outcome TimeSeries) (p : payload) : outcome payload :=
  match p with PSeries s => s ← f s; Ret (PSeries s) | _ => Ret p end.

Definition at_group (f : ResourceGroup → ResourceGroup) (p : payload) : payload :=
  match p with PGroup g => PGroup (f g) | _ => p end.

Definition at_context (c : TracerContext) (p : payload) : payload :=
  match p with
  | PInventoryRequest q => PInventoryRequest (InventoryRequest_SetContext q c)
  | PRequest q => PRequest (Request_SetContext q c)
  | _ => p
  end.

(** The setters of what has no cells are taken as they are. *)
Definition at_flat (f : setter) (p : payload) : outcome payload :=
  let run o := '(_, o) ← f (mkHeap 0 ∅) o; Ret o in
  match p with
  | PEvent e => o ← run (CEvent e); match o with CEvent e => Ret (PEvent e) | _ => Ret p end
  | PAcks q => o ← run (CAcks q); match o with CAcks q => Ret (PAcks q) | _ => Ret p end
  | PUnacks q => o ← run (CUnacks q); match o with CUnacks q => Ret (PUnacks q) | _ => Ret p end
  | PDowntimes q => o ← run (CDowntimes q); match o with CDowntimes q => Ret (PDowntimes q) | _ => Ret p end
  | PDowntimesRequest q => o ← run (CDowntimesRequest q); match o with CDowntimesRequest q => Ret (PDowntimesRequest q) | _ => Ret p end
  | _ => Ret p
  end.

Definition calc (s : MonitoredService) : outcome MonitoredService :=
  '(status, err) ← CalculateServiceStatus (Some (ms_Metrics s));
  Ret (match err with
       | None => mkMonitoredService (ms_BaseInfo s) (Transit.SetStatus (ms_MonitoredInfo s) status) (ms_Metrics s)
       | Some _ => s
       end).

Definition set_value (s : setting) (p : payload) : outcome payload :=
  match s with
  | SName v => p ← at_info (λ i, Ret (BaseInfo_SetName i v)) p; p ← at_series (λ t, Ret (TimeSeries_SetName t v)) p;
      Ret (at_group (λ g, ResourceGroup_SetName g v) p)
  | SType v => p ← at_info (λ i, Ret (BaseInfo_SetType i v)) p; Ret (at_group (λ g, ResourceGroup_SetType g v) p)
  | SDescription v => p ← at_info (λ i, Ret (Transit.SetDescription i v)) p; Ret (at_group (λ g, ResourceGroup_SetDescription g v) p)
  | SCategory v => at_info (λ i, Ret (Transit.SetCategory i v)) p
  | SOwner v => at_info (λ i, Ret (Transit.SetOwner i v)) p
  | SDevice v =>
      Ret (match p with
        | PInventoryResource r => PInventoryResource (mkInventoryResource (Transit.SetDevice (ir_BaseResource r) v) (ir_Services r))
        | PResource r => PResource (mkMonitoredResource (Transit.SetDevice (mr_BaseResource r) v) (mr_MonitoredInfo r) (mr_Services r))
        | _ => p
        end)
  | SStatus v => Ret (at_state (λ i, Transit.SetStatus i v) p)
  | SLastPluginOutput v => Ret (at_state (λ i, Transit.SetLastPluginOutput i v) p)
  | SLastCheckTime s ns => Ret (at_state (λ i, Transit.SetLastCheckTime i (Some (unix_time s ns))) p)
  | SNextCheckTime s ns => Ret (at_state (λ i, Transit.SetNextCheckTime i (Some (unix_time s ns))) p)
  | SSampleType v => at_series (λ t, Ret (Transit.SetSampleType t v)) p
  | SUnit v => at_series (λ t, Ret (Transit.SetUnit t v)) p
  | SContextTimestamp s ns => Ret (at_context (mkTracerContext "" "" "" (Some (unix_time s ns)) "") p)
  | SContextToken v => Ret (at_context (mkTracerContext "" "" v None "") p)
  | SProperty k v => at_info (λ i, Transit.SetProperty i k v) p
  | STag k v => at_series (λ t, Ret (Transit.SetTag t k v)) p
  | SIntervalEnd s ns => at_series (λ t, Ret (Transit.SetIntervalEnd t (Some (unix_time s ns)))) p
  | SIntervalStart s ns => at_series (λ t, Ret (Transit.SetIntervalStart t (Some (unix_time s ns)))) p
  | SValue v =>
      match p with
      | PThreshold t => t ← ThresholdValue_SetValue t v; Ret (PThreshold t)
      | _ => at_series (λ t, TimeSeries_SetValue t v) p
      end
  | SThreshold lbl sType v => at_series (λ t, x ← NewTypedValue v; Ret (Transit.AddThreshold t (mkThresholdValue sType lbl x))) p
  | SCalcStatus =>
      match p with
      | PResource r =>
          services ← mapM_o calc (mr_Services r);
          Ret (PResource (mkMonitoredResource (mr_BaseResource r)
            (Transit.SetStatus (mr_MonitoredInfo r) (CalculateResourceStatus (mr_Services r))) services))
      | PService s => s ← calc s; Ret (PService s)
      | _ => Ret p
      end
  | s => at_flat (set s) p
  end.

(** The value with another added to it; [None] when it has no such method. *)
Definition add_value (a : addition) (p : payload) : option (payload → payload) :=
  match a, p with
  | AMetric, PService s => Some (λ v, match v with PSeries t => PService (Transit.AddMetric s t) | _ => p end)
  | AThreshold, PSeries s => Some (λ v, match v with PThreshold t => PSeries (Transit.AddThreshold s t) | _ => p end)
  | AResource, PInventoryRequest q => Some (λ v,
      match v with PInventoryResource r => PInventoryRequest (InventoryRequest_AddResource q r) | _ => p end)
  | AResource, PRequest q => Some (λ v, match v with PResource r => PRequest (Transit.AddResource q r) | _ => p end)
  | AResource, PGroup g => Some (λ v,
      match v with
      | PInventoryResource r => PGroup (ResourceGroup_AddResource g (ToResourceRef (ir_BaseResource r)))
      | PResource r => PGroup (ResourceGroup_AddResource g (ToResourceRef (mr_BaseResource r)))
      | _ => p
      end)
  | AResourceGroup, PInventoryRequest q => Some (λ v,
      match v with PGroup g => PInventoryRequest (InventoryRequest_AddResourceGroup q g) | _ => p end)
  | AResourceGroup, PRequest q => Some (λ v, match v with PGroup g => PRequest (Transit.AddResourceGroup q g) | _ => p end)
  | AEvent, PEvents q => Some (λ v, match v with PEvent e => PEvents (mkEventsRequest (evs_Events q ++ [e])%list) | _ => p end)
  | AService, PInventoryResource r => Some (λ v,
      match v with PInventoryService s => PInventoryResource (InventoryResource_AddService r s) | _ => p end)
  | AService, PResource r => Some (λ v, match v with PService s => PResource (MonitoredResource_AddService r s) | _ => p end)
  | _, _ => None
  end.

Definition new_value (c : creation) : payload := let '(h, o) := create c (mkHeap 0 ∅) in view h o.

Definition exec_values (hs : handles payload) (c : call) : outcome (handles payload) :=
  match c with
  | CallCreate c => Ret (NewHandle hs (new_value c)).1
  | CallSet target s => p ← Value hs target; p ← set_value s p; Ret (put_object hs target p)
  | CallAdd a target value =>
      p ← Value hs target;
      match add_value a p with
      | None => Ret hs
      | Some f => v ← Value hs value; Ret (put_object hs target (f v))
      end
  | CallDelete target => DeleteHandle hs target
  end.

(** What the handles of a world are read as. *)
Definition values (w : world) : handles payload := mkHandles (hs_last (w_handles w)) (view (w_heap w) <$> hs_values (w_handles w)).

(** *** What is sent

    The calls of [Libtransit] see the values; [marshal] is the encoder. *)
Definition sendable (marshal : payload → result error string) (p : payload) : Libtransit.object :=
  match p with
  | PDowntimes _ => ODowntimes (marshal p)
  | PDowntimesRequest _ => ODowntimesRequest (marshal p)
  | PEvents _ => OEvents (marshal p)
  | PAcks _ => OEventsAck (marshal p)
  | PUnacks _ => OEventsUnack (marshal p)
  | PInventoryRequest q => OInventory q
  | PRequest q => OMetrics q
  | PResource r => Libtransit.OResource r
  | _ => OOther
  end.

Definition sent_handles (marshal : payload → result error string) (hs : handles payload) : handles Libtransit.object :=
  mkHandles (hs_last hs) (sendable marshal <$> hs_values hs).

(** [MarshallIndentJSON]: the object's value, with the encoder's prefix and indent. *)
Definition MarshallIndentJSON (marshal_indent : payload → result error string) (w : world) (target : Z) (b : buffers)
  : outcome (bool * buffers) :=
  p ← Value (values w) target; put_text (marshal_indent p) b.

(** ** Lemmas *)

(** *** What an object reaches

    The roots are the cells that a setter of the object changes; inside are those of the
    objects that were added. *)

Definition at_ref (kind : nat → ref) (n : option nat) : list ref := option_list (kind <$> n).

Definition roots_series (s : series) : list ref := at_ref RInterval (se_interval s) ++ at_ref RTags (se_tags s).
Definition reach_service (s : service) : list ref := at_ref RProps (sv_props s) ++ (sv_metrics s ≫= roots_series).
Definition roots_resource (r : resource) : list ref := RArray (sl_array (re_services r)) :: at_ref RProps (re_props r).
Definition inner_resource (h : heap) (r : resource) : list ref := services_in h (re_services r) ≫= reach_service.
Definition reach_resource (h : heap) (r : resource) : list ref := roots_resource r ++ inner_resource h r.
Definition reach_iservice (s : iservice) : list ref := at_ref RProps (is_props s).
Definition reach_iresource (r : iresource) : list ref := at_ref RProps (ie_props r) ++ (ie_services r ≫= reach_iservice).

Definition roots (o : object) : list ref :=
  match o with
  | CInventoryResource r => at_ref RProps (ie_props r)
  | CInventoryService s => at_ref RProps (is_props s)
  | CResource r => roots_resource r
  | CService s => at_ref RProps (sv_props s)
  | CSeries s => roots_series s
  | _ => []
  end.

Definition inner (h : heap) (o : object) : list ref :=
  match o with
  | CInventoryRequest _ _ rs _ => rs ≫= reach_iresource
  | CInventoryResource r => ie_services r ≫= reach_iservice
  | CRequest _ rs _ => rs ≫= reach_resource h
  | CResource r => inner_resource h r
  | CService s => sv_metrics s ≫= roots_series
  | _ => []
  end.

Definition reach (h : heap) (o : object) : list ref := roots o ++ inner h o.

(** *** Heaps that agree on what is reached *)

Definition agree (h h' : heap) (rs : list ref) : Prop := ∀ r, r ∈ rs → hp_cells h' !! r = hp_cells h !! r.

Lemma agree_app h h' rs rs' : agree h h' (rs ++ rs') ↔ agree h h' rs ∧ agree h h' rs'.
Proof. unfold agree. setoid_rewrite elem_of_app. naive_solver. Qed.

Lemma agree_bind {A} h h' (f : A → list ref) l x : agree h h' (l ≫= f) → x ∈ l → agree h h' (f x).
Proof. intros Ha Hx r Hr. apply Ha. apply list_elem_of_bind. by exists x. Qed.

Lemma fmap_agree {A B} h h' (f : A → list ref) (v v' : A → B) l :
  (∀ x, agree h h' (f x) → v' x = v x) → agree h h' (l ≫= f) → v' <$> l = v <$> l.
Proof. intros Hv Ha. apply list_fmap_ext. intros i x Hx. apply Hv. eapply agree_bind; [done|]. by eapply list_elem_of_lookup_2. Qed.

Section agree.
Context {h h' : heap}.

Lemma at_ref_agree (kind : nat → ref) n : agree h h' (at_ref kind (Some n)) → hp_cells h' !! kind n = hp_cells h !! kind n.
Proof. intros Ha. apply Ha. by left. Qed.

Lemma view_info_agree i props : agree h h' (at_ref RProps props) → view_info h' i props = view_info h i props.
Proof. intros Ha. unfold view_info. destruct props as [n|]; [|done]. cbn [from_option]. unfold props_at. by rewrite (at_ref_agree RProps n). Qed.

Lemma view_base_agree b props : agree h h' (at_ref RProps props) → view_base h' b props = view_base h b props.
Proof. intros Ha. unfold view_base. by rewrite view_info_agree. Qed.

Lemma view_series_agree s : agree h h' (roots_series s) → view_series h' s = view_series h s.
Proof.
  unfold roots_series. intros [Hi Ht]%agree_app. unfold view_series. f_equal.
  - destruct (se_interval s) as [n|]; [|done]. cbn. unfold interval_at. by rewrite (at_ref_agree RInterval n).
  - destruct (se_tags s) as [n|]; [|done]. cbn. unfold tags_at. by rewrite (at_ref_agree RTags n).
Qed.

Lemma view_service_agree s : agree h h' (reach_service s) → view_service h' s = view_service h s.
Proof.
  intros [Hp Hm]%agree_app. unfold view_service. rewrite view_info_agree by done. f_equal.
  eapply fmap_agree; [exact view_series_agree|done].
Qed.

Lemma services_in_agree s : agree h h' [RArray (sl_array s)] → services_in h' s = services_in h s.
Proof. intros Ha. unfold services_in, array_at. by rewrite Ha by by left. Qed.

Lemma inner_resource_agree r : agree h h' (roots_resource r) → inner_resource h' r = inner_resource h r.
Proof. intros Ha. unfold inner_resource. rewrite services_in_agree; [done|]. intros x ->%list_elem_of_singleton. apply Ha. by left. Qed.

Lemma view_resource_agree r : agree h h' (reach_resource h r) → view_resource h' r = view_resource h r.
Proof.
  intros [Hr Hi]%agree_app. unfold view_resource. rewrite services_in_agree, view_base_agree; [f_equal| |].
  - eapply fmap_agree; [exact view_service_agree|done].
  - intros x Hx. apply Hr. by right.
  - intros x ->%list_elem_of_singleton. apply Hr. by left.
Qed.

Lemma reach_resource_agree r : agree h h' (reach_resource h r) → reach_resource h' r = reach_resource h r.
Proof. intros [Hr _]%agree_app. unfold reach_resource. by rewrite inner_resource_agree. Qed.

Lemma view_iservice_agree s : agree h h' (reach_iservice s) → view_iservice h' s = view_iservice h s.
Proof. intros Ha. unfold view_iservice. by rewrite view_info_agree. Qed.

Lemma view_iresource_agree r : agree h h' (reach_iresource r) → view_iresource h' r = view_iresource h r.
Proof.
  intros [Hp Hs]%agree_app. unfold view_iresource. rewrite view_base_agree by done. f_equal.
  eapply fmap_agree; [exact view_iservice_agree|done].
Qed.

(** Heaps that agree on what an object reaches show the same value of it. *)
Lemma view_agree o : agree h h' (reach h o) → view h' o = view h o.
Proof.
  intros [Hr Hi]%agree_app. destruct o; cbn [view]; try done; f_equal.
  - rewrite (fmap_agree h h' reach_iresource (view_iresource h) (view_iresource h')); [done|exact view_iresource_agree|done].
  - apply view_iresource_agree. by apply agree_app.
  - by apply view_iservice_agree.
  - rewrite (fmap_agree h h' (reach_resource h) (view_resource h) (view_resource h')); [done|exact view_resource_agree|done].
  - apply view_resource_agree. by apply agree_app.
  - apply view_service_agree. by apply agree_app.
  - by apply view_series_agree.
Qed.

Lemma inner_agree o : agree h h' (reach h o) → inner h' o = inner h o.
Proof.
  intros [Hr Hi]%agree_app. destruct o; cbn [inner]; try done.
  - cbn [inner] in Hi. clear Hr. induction rs as [|r rs IH]; [done|]. rewrite bind_cons in Hi |- *.
    apply agree_app in Hi as [H1 H2]. rewrite bind_cons. by rewrite reach_resource_agree, IH.
  - by apply inner_resource_agree.
Qed.
End agree.

(** *** A step of one object *)

Definition slice_ok (h : heap) (o : object) : Prop :=
  match o with
  | CResource r => (sl_len (re_services r) ≤ length (array_at h (sl_array (re_services r))))%nat
  | _ => True
  end.

(** The cells of an object that only it changes. *)
Record own (h : heap) (o : object) : Prop := mkOwn {
  own_sep : ∀ r, r ∈ roots o → r ∉ inner h o;
  own_old : ∀ r, r ∈ reach h o → (ref_no r < hp_next h)%nat;
  own_slice : slice_ok h o;
}.

(** A step changes the roots of its object and new cells; what comes inside is [extra]. *)
Record step_ok (h : heap) (o : object) (extra : list ref) (h' : heap) (o' : object) : Prop := mkStep {
  st_next : (hp_next h ≤ hp_next h')%nat;
  st_frame : ∀ r, r ∉ roots o → (ref_no r < hp_next h)%nat → hp_cells h' !! r = hp_cells h !! r;
  st_roots : ∀ r, r ∈ roots o' → r ∈ roots o ∨ (hp_next h ≤ ref_no r < hp_next h')%nat;
  st_inner : ∀ r, r ∈ inner h' o' → r ∈ inner h o ∨ r ∈ extra;
  st_slice : slice_ok h' o';
}.

Lemma step_refl h o extra : own h o → step_ok h o extra h o.
Proof. intros Ho. split; [lia|done|by left|by left|apply Ho]. Qed.

(** A setter means a function on values. *)
Definition means (f : setter) (p : payload → outcome payload) : Prop :=
  ∀ h o, own h o →
    match f h o with
    | Ret (h', o') => p (view h o) = Ret (view h' o') ∧ step_ok h o [] h' o'
    | Panic m => p (view h o) = Panic m
    end.

Lemma plain_means f p :
  (∀ h o, p (view h o) = Ret (view h (f o))) → (∀ o, roots (f o) = roots o) → (∀ h o, inner h (f o) = inner h o) →
  (∀ h o, slice_ok h o → slice_ok h (f o)) → means (plain f) p.
Proof.
  intros Hp Hr Hi Hs h o Ho. cbn. split; [apply Hp|]. split; [done|done|..].
  - rewrite Hr. by left.
  - rewrite Hi. by left.
  - apply Hs, Ho.
Qed.

Ltac solve_plain := apply plain_means; [by intros ? []|by intros []|by intros ? []|by intros ? []].

(** *** Cells *)

Lemma store_lookup_ne h r r' c : r' ≠ r → hp_cells (store h r c) !! r' = hp_cells h !! r'.
Proof. intros Hne. cbn. by rewrite lookup_insert_ne. Qed.

Lemma props_at_store h n m : props_at (store h (RProps n) (CellProps m)) n = m.
Proof. unfold props_at. cbn. by rewrite lookup_insert_eq. Qed.

Lemma put_property_spec h props k t h' n :
  put_property h props k t = (h', n) →
  props_at h' n = <[k := t]> (from_option (props_at h) ∅ props) ∧ (hp_next h ≤ hp_next h')%nat ∧
  (∀ r, r ≠ RProps n → hp_cells h' !! r = hp_cells h !! r) ∧
  (props = Some n ∨ props = None ∧ (hp_next h ≤ n < hp_next h')%nat).
Proof.
  destruct props as [m|]; cbn [put_property from_option].
  - intros [= <- <-]. rewrite props_at_store. split; [done|]. split; [done|]. split; [|by left]. intros r Hr. by apply store_lookup_ne.
  - unfold alloc. intros [= <- <-]. split; [unfold props_at; cbn; by rewrite lookup_insert_eq|]. cbn.
    split; [lia|]. split; [|right; split; [done|lia]]. intros r Hr. by rewrite lookup_insert_ne.
Qed.

(** *** Properties *)

Lemma props_root o n : props_of o = Some (Some n) → RProps n ∈ roots o.
Proof.
  destruct o; try done; intros [= Hp]; cbn; unfold roots_resource; rewrite Hp; unfold at_ref; cbn; set_solver.
Qed.

Lemma with_props_roots o n r : r ∈ roots (with_props o n) → r = RProps n ∨ r ∈ roots o.
Proof. destruct o; cbn; unfold roots_resource, at_ref; cbn; set_solver. Qed.

Lemma property_agree h o props n h' :
  own h o → props_of o = Some props → (props = Some n ∨ props = None ∧ (hp_next h ≤ n)%nat) →
  (∀ r, r ≠ RProps n → hp_cells h' !! r = hp_cells h !! r) → agree h h' (inner h o).
Proof.
  intros Ho Hp Hn Hf r Hr. apply Hf. intros ->. destruct Hn as [->|[_ Hn]].
  - apply (own_sep _ _ Ho (RProps n)); [|done]. by apply props_root.
  - assert (ref_no (RProps n) < hp_next h)%nat; [|cbn in *; lia]. apply (own_old _ _ Ho). apply elem_of_app. by right.
Qed.

Lemma view_with_props h h' o props n k t :
  props_of o = Some props → props_at h' n = <[k := t]> (from_option (props_at h) ∅ props) →
  agree h h' (inner h o) → (∀ a, hp_cells h' !! RArray a = hp_cells h !! RArray a) →
  at_info (λ i, Ret (with_Properties i (<[k := t]> (bi_Properties i)))) (view h o) = Ret (view h' (with_props o n)).
Proof.
  intros Hp Hn Ha Harr. destruct o; try done; injection Hp as Hp; cbn [view at_info with_props mbind outcome_bind].
  - unfold view_iresource, view_base, view_info. cbn. rewrite Hn, <-Hp. do 2 f_equal.
    rewrite (fmap_agree h h' reach_iservice (view_iservice h) (view_iservice h')); [done|exact view_iservice_agree|done].
  - unfold view_iservice, view_info. cbn. by rewrite Hn, <-Hp.
  - unfold view_resource, view_base, view_info. cbn. rewrite Hn, <-Hp. do 2 f_equal.
    rewrite (services_in_agree (h := h) (h' := h')) by (intros x ->%list_elem_of_singleton; apply Harr).
    rewrite (fmap_agree h h' reach_service (view_service h) (view_service h')); [done|exact view_service_agree|done].
  - unfold view_service, view_info. cbn. rewrite Hn, <-Hp. do 2 f_equal.
    rewrite (fmap_agree h h' roots_series (view_series h) (view_series h')); [done|exact view_series_agree|done].
Qed.

Lemma SetProperty_means k v : means (SetProperty k v) (at_info (λ i, Transit.SetProperty i k v)).
Proof.
  intros h o Ho. unfold SetProperty. destruct (props_of o) as [props|] eqn:Hp.
  2: { split; [by destruct o|by apply step_refl]. }
  destruct (NewTypedValue v) as [[t|]|m] eqn:Ht; cbn [mbind outcome_bind].
  - destruct (put_property h props k t) as [h' n] eqn:Hput. apply put_property_spec in Hput as (Hn & Hnext & Hf & Hprops).
    assert (agree h h' (inner h o)) as Ha by (eapply property_agree; [done..|destruct Hprops as [|[? ?]]; [by left|right; split; [done|lia]]|done]).
    split.
    + rewrite <-(view_with_props h h' o props n k t Hp Hn Ha) by (intros a; by apply Hf).
      unfold Transit.SetProperty. rewrite Ht. by destruct o.
    + split; [done| | | |].
      * intros r Hr Hlt. apply Hf. intros ->. destruct Hprops as [->|[_ Hle]]; [|cbn in *; lia].
        apply Hr. by apply props_root.
      * intros r [->|Hr]%with_props_roots; [|by left]. destruct Hprops as [->|[_ Hle]]; [left; by apply props_root|by right].
      * intros r Hr. left. assert (inner h' (with_props o n) = inner h o) as <-; [|done].
        destruct o; try done. cbn. unfold inner_resource. cbn. rewrite (services_in_agree (h := h) (h' := h')); [done|].
        intros x ->%list_elem_of_singleton. by apply Hf.
      * destruct Ho as [_ _ Hs]. destruct o; try done. cbn in Hs |- *. unfold array_at in *. rewrite Hf by done. done.
  - split; [|by apply step_refl]. unfold Transit.SetProperty. rewrite Ht. by destruct o as [|[[]]| | |[[]]| | | | | | | | | |].
  - unfold Transit.SetProperty. rewrite Ht. by destruct o.
Qed.

(** *** Tags and intervals *)

Lemma series_step h s h' s' r :
  (hp_next h ≤ hp_next h')%nat → (∀ r', r' ≠ r → hp_cells h' !! r' = hp_cells h !! r') →
  (r ∈ roots_series s ∨ (hp_next h ≤ ref_no r < hp_next h')%nat) → (∀ r', r' ∈ roots_series s' → r' ∈ roots_series s ∨ r' = r) →
  step_ok h (CSeries s) [] h' (CSeries s').
Proof.
  intros Hn Hf Hr Hs. split; [done| | |by left|done].
  - intros x Hx Hlt. apply Hf. intros ->. destruct Hr; [done|lia].
  - intros x [?| ->]%Hs; [by left|done].
Qed.

Lemma tag_view h s n (k v : string) h' :
  tags_at h' n = <[k := v]> (from_option (tags_at h) ∅ (se_tags s)) → (∀ m, hp_cells h' !! RInterval m = hp_cells h !! RInterval m) →
  view_series h' (mkSeries (se_flat s) (se_interval s) (Some n)) = Transit.SetTag (view_series h s) k v.
Proof.
  intros Ht Hi. unfold view_series, Transit.SetTag. cbn. rewrite Ht. f_equal. destruct (se_interval s); [|done]. cbn. unfold interval_at. by rewrite Hi.
Qed.

Lemma SetTag_means k v : means (SetTag k v) (at_series (λ t, Ret (Transit.SetTag t k v))).
Proof.
  intros h o Ho. destruct o as [| | | | | | | |s| | | | | |]; try (split; [done|by apply step_refl]). destruct s as [p i [n|]]; cbn.
  - set (h' := store _ _ _). assert (tags_at h' n = <[k := v]> (tags_at h n)) as Ht by (unfold tags_at at 1; cbn; by rewrite lookup_insert_eq).
    split.
    + do 2 f_equal. symmetry. apply (tag_view h (mkSeries p i (Some n))); [done|]. intros m. by apply store_lookup_ne.
    + apply (series_step _ _ _ _ (RTags n)); [done|intros r Hr; by apply store_lookup_ne| |by left].
      left. apply elem_of_app. right. by left.
  - set (h' := mkHeap _ _). assert (tags_at h' (hp_next h) = <[k := v]> ∅) as Ht by (unfold tags_at; cbn; by rewrite lookup_insert_eq).
    split.
    + do 2 f_equal. symmetry. apply (tag_view h (mkSeries p i None)); [done|]. intros m. cbn. by rewrite lookup_insert_ne.
    + apply (series_step _ _ _ _ (RTags (hp_next h))); [cbn; lia|intros r Hr; cbn; by rewrite lookup_insert_ne|right; cbn; lia|].
      unfold roots_series. cbn. set_solver.
Qed.

Lemma interval_view h s n f h' :
  interval_at h' n = f (from_option (interval_at h) (mkTimeInterval None None) (se_interval s)) →
  (∀ m, hp_cells h' !! RTags m = hp_cells h !! RTags m) →
  view_series h' (mkSeries (se_flat s) (Some n) (se_tags s)) =
  with_Interval (view_series h s) (f (default (mkTimeInterval None None) (ts_Interval (view_series h s)))).
Proof.
  intros Ht Hi. unfold view_series, with_Interval. cbn. rewrite Ht. f_equal; [by destruct (se_interval s)|].
  destruct (se_tags s); [|done]. cbn. unfold tags_at. by rewrite Hi.
Qed.

Lemma on_interval_means f :
  means (on_interval f) (at_series (λ t, Ret (with_Interval t (f (default (mkTimeInterval None None) (ts_Interval t)))))).
Proof.
  intros h o Ho. destruct o as [| | | | | | | |s| | | | | |]; try (split; [done|by apply step_refl]). destruct s as [p [n|] i]; cbn.
  - set (h' := store _ _ _). assert (interval_at h' n = f (interval_at h n)) as Ht by (unfold interval_at at 1; cbn; by rewrite lookup_insert_eq).
    split.
    + do 2 f_equal. symmetry. apply (interval_view h (mkSeries p (Some n) i)); [done|]. intros m. by apply store_lookup_ne.
    + apply (series_step _ _ _ _ (RInterval n)); [done|intros r Hr; by apply store_lookup_ne| |by left].
      left. by left.
  - set (h' := mkHeap _ _). assert (interval_at h' (hp_next h) = f (mkTimeInterval None None)) as Ht by (unfold interval_at; cbn; by rewrite lookup_insert_eq).
    split.
    + do 2 f_equal. symmetry. apply (interval_view h (mkSeries p None i)); [done|]. intros m. cbn. by rewrite lookup_insert_ne.
    + apply (series_step _ _ _ _ (RInterval (hp_next h))); [cbn; lia|intros r Hr; cbn; by rewrite lookup_insert_ne|right; cbn; lia|].
      unfold roots_series. cbn. set_solver.
Qed.

(** *** Values and thresholds *)

Lemma SetValue_means v : means (SetValue v) (set_value (SValue v)).
Proof.
  intros h o Ho. destruct o as [| | | | | | |t|s| | | | | |]; try (split; [done|by apply step_refl]); cbn.
  - unfold ThresholdValue_SetValue. destruct (NewTypedValue v); cbn; [|done]. split; [done|]. by split; [lia|done|left|left|].
  - unfold TimeSeries_SetValue. cbn. destruct (NewTypedValue v); cbn; [|done]. split; [done|]. by split; [lia|done|left|left|].
Qed.

Lemma add_threshold_means lbl sType v : means (add_threshold lbl sType v) (set_value (SThreshold lbl sType v)).
Proof.
  intros h o Ho. destruct o as [| | | | | | | |s| | | | | |]; try (split; [done|by apply step_refl]); cbn.
  destruct (NewTypedValue v); cbn; [|done]. split; [done|]. by split; [lia|done|left|left|].
Qed.

(** *** Status *)

Lemma calc_service_view h s : (view_service h <$> calc_service h s) = calc (view_service h s).
Proof.
  unfold calc_service, calc. cbn [ms_Metrics view_service]. destruct (CalculateServiceStatus _) as [[status [e|]]|]; done.
Qed.

Lemma calc_service_reach h s s' : calc_service h s = Ret s' → reach_service s' = reach_service s.
Proof. unfold calc_service. destruct (CalculateServiceStatus _) as [[status [e|]]|]; [..|done]; cbn; by intros [= <-]. Qed.

Lemma calc_services h l :
  match mapM_o (calc_service h) l with
  | Ret l' => mapM_o calc (view_service h <$> l) = Ret (view_service h <$> l') ∧ length l' = length l ∧
      (l' ≫= reach_service) = (l ≫= reach_service)
  | Panic m => mapM_o calc (view_service h <$> l) = Panic m
  end.
Proof.
  induction l as [|s l IH]; cbn [mapM_o]; [done|]. rewrite fmap_cons. cbn [mapM_o]. rewrite <-calc_service_view.
  destruct (calc_service h s) as [s'|m] eqn:Hs; cbn [mbind outcome_bind fmap outcome_fmap]; [|done].
  destruct (mapM_o (calc_service h) l) as [l'|m]; cbn [mbind outcome_bind]; [|by rewrite IH].
  destruct IH as (-> & Hl & Hr). apply calc_service_reach in Hs. split; [done|]. split; [cbn; by rewrite Hl|].
  rewrite !bind_cons. by rewrite Hs, Hr.
Qed.

(** A service reaches no array. *)
Lemma view_services_arrays h h' n (l : list service) :
  (∀ x, x ≠ RArray n → hp_cells h' !! x = hp_cells h !! x) → view_service h' <$> l = view_service h <$> l.
Proof.
  intros Hf. apply list_fmap_ext. intros i s _. apply view_service_agree. intros x Hx. apply Hf. intros ->.
  unfold reach_service, at_ref in Hx. apply elem_of_app in Hx as [Hx|(y & Hx & _)%list_elem_of_bind].
  - destruct (sv_props s); set_solver.
  - unfold roots_series, at_ref in Hx. destruct (se_interval y), (se_tags y); set_solver.
Qed.

Lemma CalcStatus_means : means CalcStatus (set_value SCalcStatus).
Proof.
  intros h o Ho. destruct o as [| | | |r|s| | | | | | | | |]; try (split; [done|by apply step_refl]).
  - cbn [CalcStatus set_value view mr_Services view_resource]. pose proof (calc_services h (services_in h (re_services r))) as Hc.
    destruct (mapM_o (calc_service h) _) as [l'|m]; cbn [mbind outcome_bind]; [|by rewrite Hc].
    destruct Hc as (-> & Hl & Hr). cbn [mbind outcome_bind]. destruct Ho as [Hsep Hold Hslice]. cbn [slice_ok] in Hslice.
    set (a := sl_array (re_services r)) in *. set (n := sl_len (re_services r)) in *.
    assert (length l' = n) as Hn.
    { rewrite Hl. unfold services_in. rewrite length_take. unfold n, a in *. lia. }
    set (h' := store _ _ _). set (r' := mkResource _ _ _ _).
    assert (array_at h' a = (l' ++ drop n (array_at h a))%list) as Ha by (unfold array_at at 1; cbn; by rewrite lookup_insert_eq).
    assert (services_in h' (re_services r) = l') as Hin by (unfold services_in; fold a n; by rewrite Ha, <-Hn, take_app_length).
    assert (∀ x, x ≠ RArray a → hp_cells h' !! x = hp_cells h !! x) as Hf by (intros x Hx; by apply store_lookup_ne).
    assert (∀ l : list service, view_service h' <$> l = view_service h <$> l) as Hv by (intros l; by eapply view_services_arrays).
    split.
    + unfold r'. cbn. unfold view_resource. cbn. rewrite Hin, Hv. do 2 f_equal. unfold view_base, view_info. do 2 f_equal.
      destruct (re_props r) as [m|]; [|done]. cbn. unfold props_at. by rewrite Hf.
    + split; [done| |by left| |].
      * intros x Hx _. apply Hf. intros ->. apply Hx. by left.
      * intros x Hx. left. unfold r' in Hx. cbn in Hx |- *. unfold inner_resource in *. cbn in Hx. rewrite Hin in Hx. by rewrite <-Hr.
      * unfold r'. cbn. fold a n. rewrite Ha, length_app. lia.
  - cbn [CalcStatus set_value view]. rewrite <-calc_service_view. destruct (calc_service h s) as [s'|m] eqn:Hs; [|done]. split; [done|].
    apply calc_service_reach in Hs as Hr. unfold calc_service in Hs. destruct (CalculateServiceStatus _) as [[status [e|]]|]; [..|done]; cbn in Hs.
    all: injection Hs as <-; by split; [lia|done|left|left|].
Qed.

(** *** Every setter, adder and maker *)

Lemma flat_means f p : (∀ o, roots (f o) = roots o) → (∀ h o, inner h (f o) = inner h o) →
  (∀ h o, slice_ok h o → slice_ok h (f o)) → (∀ h o, at_flat (plain f) (view h o) = Ret (view h (f o))) →
  p = at_flat (plain f) → means (plain f) p.
Proof. intros H1 H2 H3 H4 ->. by apply plain_means. Qed.

Lemma set_means s : means (set s) (set_value s).
Proof.
  destruct s; cbn [set]; try solve_plain.
  - apply SetProperty_means.
  - apply SetTag_means.
  - apply on_interval_means.
  - apply on_interval_means.
  - apply SetValue_means.
  - apply add_threshold_means.
  - apply CalcStatus_means.
Qed.

Lemma in_bind_snoc {A} (f : A → list ref) l x r : r ∈ ((l ++ [x])%list ≫= f) → r ∈ (l ≫= f) ∨ r ∈ f x.
Proof. rewrite bind_app, bind_cons, elem_of_app. cbn. rewrite app_nil_r. done. Qed.

(** What [append] does to the slice and the heap. *)
Lemma append_service_spec grow h r x h' s' :
  own h (CResource r) → append_service grow h (re_services r) x = (h', s') →
  services_in h' s' = (services_in h (re_services r) ++ [x])%list ∧ (hp_next h ≤ hp_next h')%nat ∧
  (sl_array s' = sl_array (re_services r) ∨ (hp_next h ≤ sl_array s' < hp_next h')%nat) ∧
  (∀ y, y ≠ RArray (sl_array s') → hp_cells h' !! y = hp_cells h !! y) ∧
  (sl_len s' ≤ length (array_at h' (sl_array s')))%nat.
Proof.
  intros [_ _ Hs]. cbn in Hs. unfold append_service.
  set (a := array_at h (sl_array (re_services r))) in *. set (n := sl_len (re_services r)) in *.
  assert (length (take n a) = n) as Ht by (rewrite length_take; lia).
  case_decide as Hcap; cbn [alloc].
  - intros [= <- <-]. set (h' := store _ _ _). cbn [sl_array sl_len].
    assert (array_at h' (sl_array (re_services r)) = take n a ++ [x] ++ drop (S n) a)%list as Ha
      by (unfold array_at; cbn; by rewrite lookup_insert_eq).
    unfold services_in. cbn [sl_array sl_len]. rewrite Ha. split; [|split; [done|split; [by left|split]]].
    + fold a n. rewrite app_assoc, take_app_le by (rewrite length_app; cbn; lia). apply take_ge. rewrite length_app. cbn. lia.
    + intros y Hy. by apply store_lookup_ne.
    + rewrite !length_app, Ht. cbn. lia.
  - intros [= <- <-]. set (h' := mkHeap _ _). cbn [sl_array sl_len].
    assert (array_at h' (hp_next h) = take n a ++ [x])%list as Ha by (unfold array_at; cbn; by rewrite lookup_insert_eq).
    unfold services_in. cbn [sl_array sl_len]. rewrite Ha. split; [|split; [cbn; lia|split; [right; cbn; lia|split]]].
    + fold a n. apply take_ge. rewrite length_app. cbn. lia.
    + intros y Hy. cbn. by rewrite lookup_insert_ne.
    + rewrite length_app. cbn. lia.
Qed.

(** An adder means the function on values, and brings what the other object reaches. *)
Lemma add_means grow a h o :
  own h o →
  match add grow a h o with
  | None => add_value a (view h o) = None
  | Some f => ∃ g, add_value a (view h o) = Some g ∧
      ∀ v, (let '(h', o') := f v in g (view h v) = view h' o' ∧ step_ok h o (reach h v) h' o')
  end.
Proof.
  intros Ho. destruct a, o as [c own rs gs|r|s|c rs gs|r|s|g|t|s|e|q|q|q|q|q]; cbn [add AddMetric AddThreshold AddResource AddResourceGroup AddEvent AddService]; try done.
  all: eexists; split; [done|]; intros v; destruct v as [c' own' rs' gs'|r'|s'|c' rs' gs'|r'|s'|g'|t'|s'|e'|q'|q'|q'|q'|q'].
  all: try (split; [done|by apply step_refl]).
  all: try by (split; [|split; [lia|done|left|left|]]).
  - split; [cbn; unfold Transit.AddMetric, view_service; cbn; by rewrite fmap_app|].
    split; [lia|done|by left| |done]. intros x [?|?]%in_bind_snoc; [by left|right]. apply elem_of_app. by left.
  - split; [cbn; unfold InventoryRequest_AddResource; cbn; by rewrite fmap_app|].
    split; [lia|done|by left| |done]. by intros x [?|?]%in_bind_snoc; [left|right].
  - split; [cbn; unfold Transit.AddResource; cbn; by rewrite fmap_app|].
    split; [lia|done|by left| |done]. by intros x [?|?]%in_bind_snoc; [left|right].
  - split; [cbn; unfold InventoryResource_AddService, view_iresource; cbn; by rewrite fmap_app|].
    split; [lia|done|by left| |done]. intros x [?|?]%in_bind_snoc; [by left|right]. apply elem_of_app. by left.
  - destruct (append_service grow h (re_services r) s') as [h' sl] eqn:Happ.
    destruct (append_service_spec _ _ _ _ _ _ Ho Happ) as (Hin & Hn & Harr & Hf & Hlen). split.
    + cbn. unfold MonitoredResource_AddService, view_resource. cbn. rewrite Hin, (view_services_arrays h h' (sl_array sl)) by done.
      rewrite fmap_app. do 2 f_equal. unfold view_base, view_info. do 2 f_equal.
      destruct (re_props r) as [m|]; [|done]. cbn. unfold props_at. by rewrite Hf.
    + split; [done| | | |done].
      * intros x Hx Hlt. apply Hf. intros ->. destruct Harr as [Heq|Hle]; [|cbn in Hlt; lia]. apply Hx. rewrite Heq. by left.
      * intros x Hx. cbn [roots] in Hx. unfold roots_resource in Hx. cbn [re_services re_props] in Hx.
        apply elem_of_cons in Hx as [->|Hx]; [|left; by right]. destruct Harr as [->|Hle]; [left; by left|by right].
      * intros x. cbn [inner]. unfold inner_resource. cbn [re_services]. rewrite Hin. intros [?|?]%in_bind_snoc; [by left|right].
        done.
Qed.

Lemma create_means c h :
  let '(h', o) := create c h in
  view h' o = new_value c ∧ inner h' o = [] ∧ slice_ok h' o ∧ (hp_next h ≤ hp_next h')%nat ∧
  (∀ r, r ∈ roots o → (hp_next h ≤ ref_no r < hp_next h')%nat) ∧
  (∀ r, (ref_no r < hp_next h)%nat → hp_cells h' !! r = hp_cells h !! r).
Proof.
  destruct c; try (cbn; split_and!; [done|done|done|lia|by intros ? ?%elem_of_nil|done]).
  cbn. unfold inner_resource, view_resource, services_in. cbn. split_and!; [done|done|lia|lia| |].
  - intros r ->%list_elem_of_singleton. cbn. lia.
  - intros r Hr. apply lookup_insert_ne. intros <-. cbn in Hr. lia.
Qed.

(** *** Programs that leave alone what they have added *)

(** The objects that may still be changed own their cells; [A] are those that were added. *)
Record alone (A : gset Z) (w : world) : Prop := mkAlone {
  al_last : ∀ t, is_Some (hs_values (w_handles w) !! t) → (t ≤ hs_last (w_handles w))%Z;
  al_old : ∀ t o, hs_values (w_handles w) !! t = Some o →
    slice_ok (w_heap w) o ∧ ∀ r, r ∈ reach (w_heap w) o → (ref_no r < hp_next (w_heap w))%nat;
  al_sep : ∀ t o r, t ∉ A → hs_values (w_handles w) !! t = Some o → r ∈ roots o →
    (r ∉ inner (w_heap w) o) ∧ (∀ t' o', t' ≠ t → hs_values (w_handles w) !! t' = Some o' → r ∉ reach (w_heap w) o');
}.

Lemma alone_own A w t o : alone A w → t ∉ A → hs_values (w_handles w) !! t = Some o → own (w_heap w) o.
Proof.
  intros Hw Ht Ho. split; [|by apply (al_old _ _ Hw t)|by apply (al_old _ _ Hw t)].
  intros r Hr. by apply (al_sep _ _ Hw t o r).
Qed.

(** A step of an object leaves what the others reach. *)
Lemma others_agree A w t o extra h' o' t' x :
  alone A w → t ∉ A → hs_values (w_handles w) !! t = Some o → step_ok (w_heap w) o extra h' o' →
  t' ≠ t → hs_values (w_handles w) !! t' = Some x → agree (w_heap w) h' (reach (w_heap w) x).
Proof.
  intros Hw Ht Ho Hs Hne Hx r Hr. apply (st_frame _ _ _ _ _ Hs).
  - intros Hroot. by destruct (al_sep _ _ Hw t o r Ht Ho Hroot) as [_ Hsep]; destruct (Hsep t' x Hne Hx).
  - by apply (al_old _ _ Hw t' x Hx).
Qed.

Lemma reach_agree {h h'} o : agree h h' (reach h o) → reach h' o = reach h o.
Proof. intros Ha. unfold reach. by rewrite (inner_agree o Ha). Qed.

Lemma slice_agree {h h'} o : agree h h' (reach h o) → slice_ok h o → slice_ok h' o.
Proof. destruct o; try done. cbn. unfold array_at. intros Ha. rewrite Ha; [done|]. by left. Qed.

Section step.
Context (A A' : gset Z) (w : world) (t : Z) (o : object) (extra : list ref) (h' : heap) (o' : object).
Hypothesis Hw : alone A w.
Hypothesis Ht : t ∉ A.
Hypothesis Ho : hs_values (w_handles w) !! t = Some o.
Hypothesis Hs : step_ok (w_heap w) o extra h' o'.
Hypothesis Hsub : A ⊆ A'.
Hypothesis Hextra : ∀ r, r ∈ extra → ∃ t2 v, t2 ∈ A' ∧ hs_values (w_handles w) !! t2 = Some v ∧ r ∈ reach (w_heap w) v.

Local Abbreviation w' := (mkWorld (put_object (w_handles w) t o') h').

Lemma values_step : values w' = put_object (values w) t (view h' o').
Proof using A Hw Ht Ho Hs.
  unfold values, put_object. cbn. f_equal. apply map_eq. intros t'. rewrite lookup_fmap.
  destruct (decide (t' = t)) as [->|Hne]; [by rewrite !lookup_insert_eq|].
  rewrite !lookup_insert_ne, lookup_fmap by done. destruct (hs_values (w_handles w) !! t') as [x|] eqn:Hx; [|done].
  cbn. f_equal. apply view_agree. by eapply others_agree.
Qed.

(** A root of the object, after the step, is no cell that another object reaches. *)
Lemma root_not_reached r x t' :
  t' ≠ t → hs_values (w_handles w) !! t' = Some x → r ∈ roots o' → r ∉ reach (w_heap w) x.
Proof using A Hw Ht Ho Hs.
  intros Hne Hx [Hr|Hr]%(st_roots _ _ _ _ _ Hs) Hin.
  - by destruct (al_sep _ _ Hw t o r Ht Ho Hr) as [_ Hsep]; destruct (Hsep t' x Hne Hx).
  - pose proof (proj2 (al_old _ _ Hw t' x Hx) r Hin). lia.
Qed.

Lemma new_reach r : r ∈ reach h' o' → (ref_no r < hp_next h')%nat ∧ (r ∈ roots o' ∨ r ∈ inner (w_heap w) o ∨ r ∈ extra).
Proof using A A' Hw Ht Ho Hs Hextra.
  intros Hr. assert (r ∈ roots o' ∨ r ∈ inner (w_heap w) o ∨ r ∈ extra) as Hc.
  { apply elem_of_app in Hr as [Hr|Hr]; [by left|right]. by apply (st_inner _ _ _ _ _ Hs). }
  split; [|done]. pose proof (st_next _ _ _ _ _ Hs).
  assert (∀ t' x, hs_values (w_handles w) !! t' = Some x → r ∈ reach (w_heap w) x → ref_no r < hp_next h')%nat as Hold.
  { intros t' x Hx Hin. pose proof (proj2 (al_old _ _ Hw t' x Hx) r Hin). lia. }
  destruct Hc as [[Hc|Hc]%(st_roots _ _ _ _ _ Hs)|[Hc|(t2 & v & _ & Hv & Hc)%Hextra]]; [|lia|..].
  - apply (Hold t o Ho). apply elem_of_app. by left.
  - apply (Hold t o Ho). apply elem_of_app. by right.
  - by apply (Hold t2 v).
Qed.

Lemma alone_step : alone A' w'.
Proof using All.
  assert (∀ t' x, t' ≠ t → hs_values (w_handles w) !! t' = Some x → agree (w_heap w) h' (reach (w_heap w) x)) as Hag
    by (intros; by eapply others_agree).
  split; cbn.
  - intros t' Hx. apply (al_last _ _ Hw). rewrite lookup_insert_is_Some in Hx. destruct Hx as [<-|[_ ?]]; [by eexists|done].
  - intros t' x Hx. destruct (decide (t' = t)) as [->|Hne].
    + rewrite lookup_insert_eq in Hx. injection Hx as <-. split; [apply Hs|]. intros r Hr. by apply new_reach.
    + rewrite lookup_insert_ne in Hx by done. destruct (al_old _ _ Hw t' x Hx) as [Hsl Hold]. specialize (Hag t' x Hne Hx).
      split; [by apply (slice_agree x Hag)|]. intros r. rewrite (reach_agree x Hag). intros Hr%Hold. pose proof (st_next _ _ _ _ _ Hs). lia.
  - intros t' x r Ht' Hx Hr. assert (t' ∉ A) as HtA by set_solver. destruct (decide (t' = t)) as [->|Hne].
    + rewrite lookup_insert_eq in Hx. injection Hx as <-. split.
      * intros [Hin|(t2 & v & H2 & Hv & Hin)%Hextra]%(st_inner _ _ _ _ _ Hs).
        -- destruct (st_roots _ _ _ _ _ Hs r Hr) as [Hro|Hge]; [by apply (al_sep _ _ Hw t o r Ht Ho Hro)|].
           assert (ref_no r < hp_next (w_heap w))%nat; [|lia]. apply (al_old _ _ Hw t o Ho). apply elem_of_app. by right.
        -- destruct (decide (t2 = t)) as [->|Hne]; [done|]. by apply (root_not_reached r v t2).
      * intros t2 v Hne Hv. rewrite lookup_insert_ne in Hv by done. rewrite (reach_agree v) by eauto. by apply (root_not_reached r v t2).
    + rewrite lookup_insert_ne in Hx by done. destruct (al_sep _ _ Hw t' x r HtA Hx Hr) as [Hin Hsep].
      rewrite (inner_agree x) by eauto. split; [done|]. intros t2 v Hne2 Hv. destruct (decide (t2 = t)) as [->|Hne3].
      * rewrite lookup_insert_eq in Hv. injection Hv as <-. intros [_ [Hro|[Hi|(t3 & v & H3 & Hv & Hr3)%Hextra]]]%new_reach.
        -- apply (root_not_reached r x t' Hne Hx Hro). apply elem_of_app. by left.
        -- apply (Hsep t o Hne2 Ho). apply elem_of_app. by right.
        -- destruct (decide (t3 = t')) as [->|]; [done|]. by apply (Hsep t3 v).
      * rewrite lookup_insert_ne in Hv by done. rewrite (reach_agree v) by eauto. by apply (Hsep t2 v).
Qed.
End step.

Lemma Value_values w t : Value (values w) t = view (w_heap w) <$> Value (w_handles w) t.
Proof. unfold Value, values. cbn. rewrite lookup_fmap. by destruct (hs_values (w_handles w) !! t). Qed.

(** The call changes nothing that was added before; what it adds is added from then on. *)
Definition leaves (A : gset Z) (c : call) : bool :=
  match c with CallSet t _ | CallAdd _ t _ => bool_decide (t ∉ A) | _ => true end.

Definition added (A : gset Z) (c : call) : gset Z := match c with CallAdd _ _ value => {[value]} ∪ A | _ => A end.

Lemma alone_create A w c :
  alone A w → let '(h', o) := create c (w_heap w) in
  values (mkWorld (NewHandle (w_handles w) o).1 h') = (NewHandle (values w) (new_value c)).1 ∧
  alone A (mkWorld (NewHandle (w_handles w) o).1 h').
Proof.
  intros Hw. pose proof (create_means c (w_heap w)) as Hc. destruct (create c (w_heap w)) as [h' o].
  destruct Hc as (Hv & Hi & Hsl & Hn & Hr & Hf). set (n := (hs_last (w_handles w) + 1)%Z).
  assert (∀ t x, hs_values (w_handles w) !! t = Some x → t ≠ n ∧ agree (w_heap w) h' (reach (w_heap w) x)) as Hold.
  { intros t x Hx. split.
    - assert (t ≤ hs_last (w_handles w))%Z; [|lia]. apply (al_last _ _ Hw). by eexists.
    - intros r Hin. apply Hf. by apply (al_old _ _ Hw t x Hx). }
  assert (∀ t x, hs_values (w_handles w) !! t = Some x → agree (w_heap w) h' (reach (w_heap w) x)) as Hag by (intros t x Hx; by destruct (Hold t x Hx)).
  split.
  - unfold values, NewHandle. cbn. f_equal. fold n. apply map_eq. intros t. rewrite lookup_fmap.
    destruct (decide (t = n)) as [->|Hne]; [by rewrite !lookup_insert_eq, <-Hv|].
    rewrite !lookup_insert_ne, lookup_fmap by done. destruct (hs_values (w_handles w) !! t) as [x|] eqn:Hx; [|done].
    cbn. f_equal. apply view_agree. by apply (Hag t x).
  - unfold NewHandle. split; cbn; fold n.
    + intros t. rewrite lookup_insert_is_Some. intros [<-|[_ Ht%(al_last _ _ Hw)]]; lia.
    + intros t x Hx. destruct (decide (t = n)) as [->|Hne].
      * rewrite lookup_insert_eq in Hx. injection Hx as <-. split; [done|]. unfold reach. rewrite Hi, app_nil_r. intros r Hin. by apply Hr.
      * rewrite lookup_insert_ne in Hx by done. destruct (Hold t x Hx) as [_ Ha]. destruct (al_old _ _ Hw t x Hx) as [Hs Hlt].
        split; [by apply (slice_agree x Ha)|]. intros r. rewrite (reach_agree x Ha). intros Hin%Hlt. lia.
    + assert (∀ r t x, r ∈ roots o → hs_values (w_handles w) !! t = Some x → r ∉ reach (w_heap w) x) as Hnew.
      { intros r t x Hro Hx Hin. pose proof (Hr r Hro). pose proof (proj2 (al_old _ _ Hw t x Hx) r Hin). lia. }
      intros t x r Ht Hx Hin. destruct (decide (t = n)) as [->|Hne].
      * rewrite lookup_insert_eq in Hx. injection Hx as <-. split; [rewrite Hi; by apply not_elem_of_nil|].
        intros t2 v Hne Hv2. rewrite lookup_insert_ne in Hv2 by done. rewrite (reach_agree v) by eauto. by eapply Hnew.
      * rewrite lookup_insert_ne in Hx by done. destruct (al_sep _ _ Hw t x r Ht Hx Hin) as [Hni Hsep].
        rewrite (inner_agree x) by eauto. split; [done|]. intros t2 v Hne2 Hv2. destruct (decide (t2 = n)) as [->|Hne3].
        -- rewrite lookup_insert_eq in Hv2. injection Hv2 as <-. unfold reach. rewrite Hi, app_nil_r. intros Hro.
           apply (Hnew r t x Hro Hx). apply elem_of_app. by left.
        -- rewrite lookup_insert_ne in Hv2 by done. rewrite (reach_agree v) by eauto. by apply (Hsep t2).
Qed.

Lemma alone_delete A w t : alone A w → alone A (mkWorld (mkHandles (hs_last (w_handles w)) (delete t (hs_values (w_handles w)))) (w_heap w)).
Proof.
  intros [Hl Ho Hs]. split; cbn.
  - intros t' [_ ?]%lookup_delete_is_Some. by apply Hl.
  - intros t' x [_ Hx]%lookup_delete_Some. by apply (Ho t').
  - intros t' x r Ht' [_ Hx]%lookup_delete_Some Hr. destruct (Hs t' x r Ht' Hx Hr) as [? Hsep]. split; [done|].
    intros t2 v Hne [_ Hv]%lookup_delete_Some. by apply (Hsep t2).
Qed.

Lemma alone_weaken A A' w : A ⊆ A' → alone A w → alone A' w.
Proof. intros Hsub [Hl Ho Hs]. split; [done|done|]. intros t o r Ht. apply Hs. set_solver. Qed.

(** A call means the call on values. *)
Lemma exec_means grow A w c :
  alone A w → leaves A c = true →
  match exec grow w c with
  | Ret w' => exec_values (values w) c = Ret (values w') ∧ alone (added A c) w'
  | Panic m => exec_values (values w) c = Panic m
  end.
Proof.
  intros Hw Hc. destruct c as [c|t s|a t v|t]; cbn [exec exec_values added].
  - pose proof (alone_create A w c Hw) as Hn. destruct (create c (w_heap w)) as [h' o]. destruct Hn as [-> Hn]. by split.
  - apply bool_decide_eq_true in Hc. rewrite (Value_values w t). unfold Value.
    destruct (hs_values (w_handles w) !! t) as [o|] eqn:Ho; [|done]. cbn [fmap outcome_fmap mbind outcome_bind].
    pose proof (set_means s (w_heap w) o (alone_own _ _ _ _ Hw Hc Ho)) as Hm. destruct (set s (w_heap w) o) as [[h' o']|m]; cbn.
    + destruct Hm as [-> Hs]. cbn. split.
      * f_equal. symmetry. by eapply values_step.
      * eapply alone_step; [done..|]. by intros r ?%elem_of_nil.
    + by rewrite Hm.
  - apply bool_decide_eq_true in Hc. rewrite (Value_values w t). unfold Value.
    destruct (hs_values (w_handles w) !! t) as [o|] eqn:Ho; [|done]. cbn [fmap outcome_fmap mbind outcome_bind].
    pose proof (add_means grow a (w_heap w) o (alone_own _ _ _ _ Hw Hc Ho)) as Hm. destruct (add grow a (w_heap w) o) as [f|].
    + destruct Hm as (g & -> & Hg). change (hs_values (values w)) with (view (w_heap w) <$> hs_values (w_handles w)). rewrite lookup_fmap.
      destruct (hs_values (w_handles w) !! v) as [x|] eqn:Hx; [|done]. cbn [fmap option_fmap option_map mbind outcome_bind].
      specialize (Hg x). destruct (f x) as [h' o']. destruct Hg as [-> Hs]. split.
      * f_equal. symmetry. by eapply values_step.
      * eapply alone_step; [done..|set_solver|]. intros r Hr. exists v, x. split; [set_solver|]. by split.
    + rewrite Hm. split; [done|]. eapply alone_weaken; [|done]. set_solver.
  - unfold DeleteHandle. rewrite Value_values. unfold Value. destruct (hs_values (w_handles w) !! t) as [o|]; [|done].
    cbn. split; [|by apply alone_delete]. unfold values. cbn. by rewrite fmap_delete.
Qed.

Fixpoint tidy (A : gset Z) (cs : list call) : bool :=
  match cs with
  | [] => true
  | c :: cs => leaves A c && tidy (added A c) cs
  end.

Lemma execs_means grow A w cs :
  alone A w → tidy A cs = true → values <$> foldM (exec grow) w cs = foldM exec_values (values w) cs.
Proof.
  revert A w. induction cs as [|c cs IH]; intros A w Hw; cbn [tidy foldM]; [done|]. intros [Hc Hcs]%andb_true_iff.
  pose proof (exec_means grow A w c Hw Hc) as Hm. destruct (exec grow w c) as [w'|m].
  - destruct Hm as [-> Hw']. cbn [mbind outcome_bind]. by eapply IH.
  - by rewrite Hm.
Qed.

Lemma alone_empty : alone ∅ empty_world.
Proof. split; cbn; [intros t [? [=]]|done|done]. Qed.

(** ** Properties *)

(** C35: A program in C that leaves an object alone once it has added it to another gets what
    it means: its calls panic or not, and every handle reads, as if each object were a
    value of its own, though structs are copied that share maps, intervals and arrays,
    and whatever capacity the runtime gives to an array. *)
Theorem tidy_program_means (grow : nat → nat) (cs : list call) :
  tidy ∅ cs = true → values <$> foldM (exec grow) empty_world cs = foldM exec_values (mkHandles 0 ∅) cs.
Proof.
  intros Hc. rewrite (execs_means grow ∅ empty_world cs alone_empty Hc). f_equal.
Qed.

(** A payload of a host with a service and a sample, sent with its status. *)
Definition sample_program : list call := [
  CallCreate (NResourcesWithServicesRequest zero_Context);
  CallCreate (NMonitoredResource "web-1"); CallSet 2 (SDevice "10.0.0.1"); CallSet 2 (SProperty "os" (AString "linux"));
  CallCreate (NMonitoredService "cpu"); CallSet 3 (SProperty "unit" (AString "percent"));
  CallCreate (NTimeSeries "load"); CallSet 4 (SIntervalEnd 60 0); CallSet 4 (STag "core" "0");
  CallSet 4 (SValue (AInt KInt64 97)); CallSet 4 (SThreshold "warn" Warning (AInt KInt64 80));
  CallSet 4 (SThreshold "crit" Critical (AInt KInt64 99));
  CallAdd AMetric 3 4; CallDelete 4; CallAdd AService 2 3; CallSet 2 SCalcStatus; CallDelete 3;
  CallAdd AResource 1 2; CallDelete 2].

Definition sample_value : outcome payload := hs ← foldM exec_values (mkHandles 0 ∅) sample_program; Value hs 1.

Definition statuses (p : payload) : list (MonitorStatus * list MonitorStatus) :=
  match p with
  | PRequest q =>
      (λ r, (mi_Status (mr_MonitoredInfo r), (λ s, mi_Status (ms_MonitoredInfo s)) <$> mr_Services r)) <$> rq_Resources q
  | _ => []
  end.

Example sample_statuses : statuses <$> sample_value = Ret [(HostUp, [ServiceWarning])].
Proof. by vm_compute. Qed.

Lemma tidy_program_means_witness :
  tidy ∅ sample_program = true ∧ values <$> foldM (exec id) empty_world sample_program = foldM exec_values (mkHandles 0 ∅) sample_program.
Proof. split; [vm_compute; reflexivity|]. apply (tidy_program_means id sample_program). vm_compute. reflexivity. Defined.

(** *** Programs that do not leave an object alone *)

Definition read (grow : nat → nat) (cs : list call) (target : Z) : outcome payload :=
  w ← foldM (exec grow) empty_world cs; Value (values w) target.

Definition property_names (p : payload) : list string :=
  match p with
  | PResource r => (mr_Services r) ≫= λ s, (map_to_list (bi_Properties (ms_BaseInfo s))).*1
  | _ => []
  end.

(** A property that is set after a service was added shows in the resource if the service
    had another one when it was added. *)
Example property_seen_or_not :
  property_names <$> read id [CallCreate (NMonitoredResource "h"); CallCreate (NMonitoredService "s"); CallAdd AService 1 2;
    CallSet 2 (SProperty "late" (ABool true))] 1 = Ret [] ∧
  property_names <$> read id [CallCreate (NMonitoredResource "h"); CallCreate (NMonitoredService "s");
    CallSet 2 (SProperty "early" (ABool true)); CallAdd AService 1 2; CallSet 2 (SProperty "late" (ABool true))] 1
  = Ret ["early"; "late"].
Proof. by vm_compute. Qed.

(** The status of a service in a request depends on the capacity of an array: the
    resource is added, gets another service, and then its status. *)
Definition late_status : list call := [
  CallCreate (NMonitoredResource "h"); CallCreate (NMonitoredService "s"); CallAdd AService 1 2;
  CallCreate (NResourcesWithServicesRequest zero_Context); CallAdd AResource 3 1; CallAdd AService 1 2; CallSet 1 SCalcStatus].

Example status_depends_on_capacity :
  statuses <$> read id late_status 3 = Ret [("", [""])] ∧
  statuses <$> read (λ n, 4 * n)%nat late_status 3 = Ret [("", [ServiceUnknown])].
Proof. by vm_compute. Qed.

(** *** An inventory that is sent again

    [SyncExt] takes the monitored properties out of the object behind the handle. *)

Lemma kept_props (ks : list string) (m : gmap string TypedValue) k : k ∉ ks → keep_props ks m !! k = None.
Proof. intros Hk. unfold keep_props. apply map_lookup_filter_None. right. by intros v _. Qed.

Lemma kept_info now (ks : list string) m :
  (∀ k, k ∈ ks → k ∉ ext_keys) →
  ext_typed (keep_props ks m) ∧ mi_Status (ext_monitored now (keep_props ks m)) = "" ∧ prop_depth (keep_props ks m) = None.
Proof.
  intros Hks. assert (∀ k, k ∈ ext_keys → keep_props ks m !! k = None) as Hn by (intros k Hk; apply kept_props; by intros ?%Hks).
  unfold ext_typed, ext_monitored, prop_depth, ext_keys in *.
  rewrite !Hn by (rewrite !elem_of_cons; tauto). done.
Qed.

Lemma kept_service now sv :
  let s := inventory_service sv in
  ext_typed (bi_Properties (is_BaseInfo s)) ∧ mi_Status (ms_MonitoredInfo (monitored_service now s)) = "" ∧
  prop_depth (bi_Properties (is_BaseInfo s)) = None.
Proof. apply kept_info. intros k Hk. unfold iPropsSvc in Hk. apply list_elem_of_singleton in Hk as ->. by apply (bool_decide_unpack _). Qed.

Lemma kept_resource now r :
  let m := res_props (ir_BaseResource (inventory_part r)) in
  ext_typed m ∧ mi_Status (ext_monitored now m) = "" ∧ prop_depth m = None.
Proof.
  apply kept_info. intros k Hk. unfold iPropsRes in Hk.
  by apply elem_of_cons in Hk as [->|Hk]; [|apply list_elem_of_singleton in Hk as ->]; apply (bool_decide_unpack _).
Qed.

Lemma kept_downtimes r : downtime_part (inventory_part r) = [].
Proof.
  unfold downtime_part. rewrite (proj2 (proj2 (kept_resource (mkTimestamp 0 0 UTCLoc) r))). cbn.
  induction (ir_Services r) as [|s l IH]; [done|]. rewrite !fmap_cons. cbn [concat].
  rewrite (proj2 (proj2 (kept_service (mkTimestamp 0 0 UTCLoc) s))). apply IH.
Qed.

(** A program in C that sends the same inventory again sends it without the statuses and
    the downtimes: the object behind its handle has lost them. *)
Theorem second_sync_forgets (now now' : Timestamp) (p p' : InventoryRequest) mon dt :
  filterExtInfo now p = Ret (p', mon, dt) →
  ∃ p'' mon', filterExtInfo now' p' = Ret (p'', mon', mkDowntimes []) ∧
    Forall (λ r, mi_Status (mr_MonitoredInfo r) = "" ∧ Forall (λ s, mi_Status (ms_MonitoredInfo s) = "") (mr_Services r))
      (rq_Resources mon').
Proof.
  intros Hp. destruct (filterExtInfo_splits now p) as (_ & Hs & _). destruct (Hs p' mon dt Hp) as (Hr & _). clear Hs.
  destruct (filterExtInfo_splits now' p') as (Hret & Hs & _). rewrite Hr in Hret, Hs.
  assert (is_ret (filterExtInfo now' p') = true) as Hf.
  { apply Hret. apply Forall_fmap, Forall_forall. intros r _. split; [apply (kept_resource now')|].
    apply Forall_fmap, Forall_forall. intros s _. apply (kept_service now'). }
  destruct (filterExtInfo now' p') as [[[p'' mon'] [dt']]|m]; [|done].
  destruct (Hs p'' mon' (mkDowntimes dt') eq_refl) as (_ & _ & _ & Hm & Hd). cbn in Hd.
  exists p'', mon'. split.
  - do 2 f_equal. rewrite Hd. f_equal. clear. induction (irq_Resources p) as [|r l IH]; [done|]. rewrite !fmap_cons. cbn [concat].
    rewrite kept_downtimes. apply IH.
  - rewrite Hm. apply Forall_fmap, Forall_fmap, Forall_forall. intros r _. split; [apply kept_resource|].
    apply Forall_fmap, Forall_fmap, Forall_forall. intros s _. apply kept_service.
Qed.

Lemma second_sync_forgets_witness :
  ∃ p' mon dt p'' mon', filterExtInfo (mkTimestamp 0 0 UTCLoc) sample_inventory = Ret (p', mon, dt) ∧
    length (dts_BizHostServiceInDowntimes dt) = 1%nat ∧ filterExtInfo (mkTimestamp 0 0 UTCLoc) p' = Ret (p'', mon', mkDowntimes []).
Proof.
  destruct (filterExtInfo (mkTimestamp 0 0 UTCLoc) sample_inventory) as [[[p' mon] dt]|w] eqn:E.
  - destruct (second_sync_forgets (mkTimestamp 0 0 UTCLoc) (mkTimestamp 0 0 UTCLoc) sample_inventory p' mon dt E) as (p'' & mon' & H & _).
    exists p', mon, dt, p'', mon'. split; [reflexivity|]. split; [|exact H].
    vm_compute in E. injection E as _ _ <-. reflexivity.
  - exfalso. vm_compute in E. discriminate.
Defined.
