(* ===== verification/LogMask.v ===== *)
(** logzer/logzer.go: the masking of secrets in log records by two regular
    expressions, the first for keys and values of JSON, the second for prose. *)

From S2P Require Import Prelude.
From S2P Require Import GoString.
From S2P Require Import Regexp.

Local Open Scope string_scope.
Local Open Scope nat_scope.

(** ** Masking of secrets *)

(** A letter without regard to case, with the letters beyond ASCII that fold to it. *)
Definition byte (n : nat) : regexp := Lit (ascii_of_nat n).
Definition letter (c : ascii) : regexp :=
  let either := OneOf (λ d, bool_decide (d = c) || bool_decide (d = ascii_of_nat (nat_of_ascii c - 32))) in
  if decide (c = "s"%char) then Alt either (Seq (byte 197) (byte 191))
  else if decide (c = "k"%char) then Alt either (Seq (byte 226) (Seq (byte 132) (byte 170)))
  else either.

Fixpoint word (s : string) (r : regexp) : regexp :=
  match s with "" => r | String c s => Seq (letter c) (word s r) end.

Definition quote_byte : ascii := ascii_of_nat 34.
Definition backslash : ascii := ascii_of_nat 92.

Definition white : list ascii := ascii_of_nat <$> [9; 10; 12; 13; 32].

(** [(?i:password|token)] followed by a pattern. *)
Definition secret_word (r : regexp) : regexp := Alt (word "password" r) (word "token" r).

(** The value of a key: a string, an array, a constant or a number. *)
Definition json_value : regexp :=
  Alt (Seq (Lit quote_byte) (Seq (Repeat (Alt (OneOf (λ c, negb (member [quote_byte; backslash] c)))
                                            (Seq (Lit backslash) (OneOf (in_class Any))))) (Lit quote_byte)))
  (Alt (Seq (Lit "["%char) (Seq (some_of (λ c, negb (member ["]"%char] c))) (Lit "]"%char)))
  (Alt (literal "true" epsilon) (Alt (literal "false" epsilon) (Alt (literal "null" epsilon)
    (Seq (Maybe (Lit "-"%char)) (Seq (OneOf is_digit) (some_of (λ c, is_digit c || member [".";"e";"E";"+";"-"]%char c)))))))).

(** The first pattern: a key that ends in a secret word, and its value. *)
Definition json_secret : regexp :=
  Seq (Group "1" (Seq (Lit quote_byte) (Seq (some_of (λ c, negb (member [quote_byte] c)))
         (secret_word (Seq (Lit quote_byte) (Seq (Star true Space) (Seq (Lit ":"%char) (Star true Space))))))))
      json_value.

(** The second: a secret word, separators, and a run of other characters. *)
Definition text_secret : regexp :=
  Seq (Group "1" (secret_word epsilon))
    (Seq (Group "2" (at_least_one (member (":"%char :: "="%char :: white))))
         (at_least_one (λ c, negb (member (quote_byte :: "'"%char :: ","%char :: ":"%char :: "{"%char :: "}"%char ::
                                            "["%char :: "]"%char :: white) c)))).

(** [ReplaceAll] of a pattern that matches no empty text. *)
Fixpoint replace_all (r : regexp) (template : captures → string) (skip : nat) (p : string) : string :=
  match p with
  | "" => ""
  | String c p' =>
      match skip with
      | S j => replace_all r template j p'
      | O =>
          match run r p ∅ (λ s' m, Some (String.length p - String.length s', m)) with
          | Some (S j, m) => template m +:+ replace_all r template j p'
          | _ => String c (replace_all r template 0 p')
          end
      end
  end.

Definition mask_json (p : string) : string :=
  replace_all json_secret (λ m, capture m "1" +:+ String quote_byte ("***" +:+ String quote_byte "")) 0 p.
Definition mask_text (p : string) : string :=
  replace_all text_secret (λ m, capture m "1" +:+ capture m "2" +:+ "***") 0 p.

(** ** Lemmas *)

Lemma ascii7_quote : ascii7 quote_byte.
Proof. by apply Nat.ltb_lt. Qed.

(** *** Words *)

(** A text is a word without regard to case. *)
Fixpoint same_letters (s w : string) : bool :=
  match s, w with
  | "", "" => true
  | String c s, String d w =>
      (bool_decide (d = c) || bool_decide (d = ascii_of_nat (nat_of_ascii c - 32))) && same_letters s w
  | _, _ => false
  end.

Definition lower (s : string) : bool := str_forallb (byte_in 97 122) s.

Lemma letter_matches c d t m :
  byte_in 97 122 c = true → d = c ∨ d = ascii_of_nat (nat_of_ascii c - 32) → matches (letter c) (String d t) m t m.
Proof.
  intros Hc Hd. assert (ascii7 d) as H7.
  { unfold byte_in in Hc. case_bool_decide; [|done]. unfold ascii7. destruct Hd as [->| ->]; [lia|].
    rewrite nat_ascii_embedding; lia. }
  assert (matches (OneOf (λ d, bool_decide (d = c) || bool_decide (d = ascii_of_nat (nat_of_ascii c - 32))))
            (String d t) m t m) as Hone.
  { pose proof (match_OneOf (λ d, bool_decide (d = c) || bool_decide (d = ascii_of_nat (nat_of_ascii c - 32))) d t m) as H.
    cbn beta in H. rewrite rune_size_ascii in H by done. apply H.
    destruct Hd as [->| ->]; [by rewrite bool_decide_true|]. rewrite (bool_decide_true _ eq_refl). by rewrite orb_true_r. }
  unfold letter. repeat case_decide; auto with tcg.
Qed.

Lemma word_matches s w r t m s' m' :
  lower s = true → same_letters s w = true → matches r t m s' m' → matches (word s r) (w +:+ t) m s' m'.
Proof.
  revert w. induction s as [|c s IH]; intros [|d w] Hs Hw Hr; try done. cbn in Hs, Hw |- *.
  apply andb_true_iff in Hs as [Hc Hs]. apply andb_true_iff in Hw as [Hd Hw].
  eapply match_Seq; [|by apply IH]. apply letter_matches; [done|].
  apply orb_true_iff in Hd as [?%bool_decide_eq_true|?%bool_decide_eq_true]; auto.
Qed.

(** The bytes that a letter of a pattern can take. *)
Definition is_ascii (c : ascii) : bool := byte_in 0 127 c.
Definition wordy (c : ascii) : bool := byte_in 65 90 c || byte_in 97 122 c || negb (is_ascii c).

Lemma is_ascii_true c : is_ascii c = true ↔ ascii7 c.
Proof. unfold is_ascii, byte_in, ascii7. rewrite bool_decide_eq_true. lia. Qed.

Lemma letter_one c s m s' m' :
  byte_in 97 122 c = true →
  matches (OneOf (λ d, bool_decide (d = c) || bool_decide (d = ascii_of_nat (nat_of_ascii c - 32)))) s m s' m' →
  m' = m ∧ ∃ d, s = String d s' ∧ wordy d = true ∧
    bool_decide (d = c) || bool_decide (d = ascii_of_nat (nat_of_ascii c - 32)) = true.
Proof.
  intros Hc (d & s0 & -> & Hd & -> & ->)%matches_OneOf. split; [done|]. exists d.
  unfold byte_in in Hc. apply bool_decide_eq_true in Hc.
  assert (wordy d = true ∧ ascii7 d) as [Hw H7].
  { apply orb_true_iff in Hd as [->%bool_decide_eq_true| ->%bool_decide_eq_true]; unfold wordy, byte_in, ascii7.
    - split; [|lia]. rewrite (bool_decide_true (97 ≤ nat_of_ascii c ≤ 122)) by lia. by rewrite orb_true_r.
    - rewrite nat_ascii_embedding by lia. split; [|lia]. by rewrite (bool_decide_true (65 ≤ _ ≤ 90)) by lia. }
  split; [|done]. by rewrite rune_size_ascii by done.
Qed.

(** A letter takes itself in either case, or a rune beyond ASCII. *)
Lemma letter_text c s m s' m' :
  byte_in 97 122 c = true → matches (letter c) s m s' m' →
  m' = m ∧ ∃ a, s = a +:+ s' ∧ a ≠ "" ∧ str_forallb wordy a = true ∧
    (str_forallb is_ascii a = true → same_letters (String c "") a = true).
Proof.
  intros Hc Hm.
  assert (∀ s0 s1 m1, matches (OneOf (λ d, bool_decide (d = c) || bool_decide (d = ascii_of_nat (nat_of_ascii c - 32)))) s0 m s1 m1 →
    m1 = m ∧ ∃ a, s0 = a +:+ s1 ∧ a ≠ "" ∧ str_forallb wordy a = true ∧
      (str_forallb is_ascii a = true → same_letters (String c "") a = true)) as Hone.
  { intros s0 s1 m1 (-> & d & -> & Hw & Hd)%letter_one; [|done]. split; [done|]. exists (String d "").
    cbn [str_forallb String.append same_letters]. by rewrite Hw, Hd. }
  unfold letter in Hm. repeat case_decide; [| |by apply Hone].
  - inversion Hm as [| | |? ? ? ? ? ? HA|? ? ? ? ? ? HA| | | | | | |]; subst; [by apply Hone|].
    apply matches_Seq in HA as (s1 & m1 & [-> ->]%matches_Lit & [-> ->]%matches_Lit). split; [done|].
    exists (String (ascii_of_nat 197) (String (ascii_of_nat 191) "")). split_and!; by vm_compute.
  - inversion Hm as [| | |? ? ? ? ? ? HA|? ? ? ? ? ? HA| | | | | | |]; subst; [by apply Hone|].
    apply matches_Seq in HA as (s1 & m1 & [-> ->]%matches_Lit & (s2 & m2 & [-> ->]%matches_Lit & [-> ->]%matches_Lit)%matches_Seq).
    split; [done|]. exists (String (ascii_of_nat 226) (String (ascii_of_nat 132) (String (ascii_of_nat 170) ""))).
    split_and!; by vm_compute.
Qed.

Lemma same_letters_app c w a b :
  same_letters (String c "") a = true → same_letters w b = true → same_letters (String c w) (a +:+ b) = true.
Proof.
  destruct a as [|d a]; [done|]. intros [Hd Ha]%andb_true_iff Hb. destruct a; [|done].
  cbn [String.append same_letters]. by rewrite Hd, Hb.
Qed.

Lemma word_text w r s m s' m' :
  w ≠ "" → lower w = true → matches (word w r) s m s' m' →
  ∃ a s1, s = a +:+ s1 ∧ matches r s1 m s' m' ∧ a ≠ "" ∧ str_forallb wordy a = true ∧
    (str_forallb is_ascii a = true → same_letters w a = true).
Proof.
  intros Hne. destruct w as [|c w]; [done|]. clear Hne. revert c s m. induction w as [|c' w IH]; intros c s m Hw Hm;
    unfold lower in *; cbn [str_forallb word] in *; apply andb_true_iff in Hw as [Hc Hw];
    apply matches_Seq in Hm as (s1 & m1 & Hl & Hr); apply letter_text in Hl as (-> & a & -> & Hne & Ha & Hs); try done.
  - by exists a, s1.
  - destruct (IH _ _ _ Hw Hr) as (b & s2 & -> & Hr2 & _ & Hb & Hsb). exists (a +:+ b), s2.
    rewrite str_app_assoc, !str_forallb_app, Ha, Hb. split_and!; [done..|by destruct a|done|].
    intros [? ?]%andb_true_iff. apply same_letters_app; [by apply Hs|by apply Hsb].
Qed.

(** *** The strings of a record *)

(** The body of a JSON string: no byte is a quote that a backslash does not escape; what a
    backslash escapes is in ASCII and no new line. *)
Fixpoint body_ok (s : string) : bool :=
  match s with
  | "" => true
  | String c s' =>
      if decide (c = backslash) then
        match s' with
        | "" => false
        | String d s'' => is_ascii d && in_class Any d && body_ok s''
        end
      else negb (bool_decide (c = quote_byte)) && body_ok s'
  end.

Lemma body_ok_drop n s :
  body_ok s = true → n ≤ String.length s → (∀ j c, j < n → String.get j s = Some c → ¬ ascii7 c) →
  body_ok (str_drop n s) = true.
Proof.
  revert s. induction n as [|n IH]; intros [|c s] Hs Hn Hj; cbn [str_drop String.length] in *; try done; try lia.
  assert (¬ ascii7 c) as Hc by (apply (Hj 0 c); [lia|done]).
  apply IH; [|lia|intros j d Hjn Hd; apply (Hj (S j) d); [lia|done]].
  cbn [body_ok] in Hs. rewrite decide_False in Hs by (intros ->; apply Hc; by apply Nat.ltb_lt).
  by apply andb_true_iff in Hs as [_ Hs].
Qed.

(** The rune that begins a body, when it is not a backslash. *)
Lemma body_ok_rune c s t :
  c ≠ backslash → body_ok (String c s) = true →
  let n := Nat.max 1 (rune_size (String c s +:+ String quote_byte t)) in
  n ≤ String.length (String c s) ∧ body_ok (str_drop n (String c s)) = true.
Proof.
  intros Hc Hb. cbv zeta. remember (Nat.max 1 _) as n eqn:Hdef.
  assert (n ≤ String.length (String c s)) as Hle.
  { rewrite Hdef. apply rune_cut; [done|]. right. left. exists quote_byte, t. split; [done|apply ascii7_quote]. }
  split; [done|]. cbn [body_ok] in Hb. rewrite decide_False in Hb by done. apply andb_true_iff in Hb as [_ Hb].
  destruct n as [|n]; [lia|]. cbn [str_drop]. apply body_ok_drop; [done|simpl in Hle; lia|].
  intros j d Hj Hd. apply (rune_size_inner (String c s +:+ String quote_byte t) (S j) d); [lia|lia|].
  cbn [String.append String.get]. revert Hd. clear. revert j. induction s as [|a s IH]; intros [|j]; cbn; try done. apply IH.
Qed.

(** One unit of a body. *)
Definition body_unit : regexp :=
  Alt (OneOf (λ c, negb (member [quote_byte; backslash] c))) (Seq (Lit backslash) (OneOf (in_class Any))).

(** The rest after the body of a string is within the string. *)
Lemma json_body_text v post m s' m' :
  body_ok v = true → matches (Repeat body_unit) (v +:+ String quote_byte post) m s' m' →
  ∃ v', body_ok v' = true ∧ s' = v' +:+ String quote_byte post ∧ m' = m.
Proof.
  intros Hv Hm. eapply (Repeat_ind _ (λ s' m', ∃ v', body_ok v' = true ∧ s' = v' +:+ String quote_byte post ∧ m' = m));
    [exact Hm|by exists v|]. clear. intros s1 m1 s2 m2 Hm (v' & Hv & -> & ->).
  inversion Hm as [| | |? ? ? ? ? ? HA|? ? ? ? ? ? HA| | | | | | |]; subst.
  - apply matches_OneOf in HA as (c & s0 & Heq & Hc & -> & ->).
    destruct v' as [|d v']; [by injection Heq as <- <-|]. injection Heq as -> <-.
    assert (c ≠ backslash) as Hbs by (intros ->; done).
    destruct (body_ok_rune c v' post Hbs Hv) as [Hle Hok]. eexists. split; [exact Hok|].
    split; [|done]. by rewrite <-str_drop_cons_app.
  - apply matches_Seq in HA as (s0 & m0 & [Heq ->]%matches_Lit & (c & s3 & -> & Hc & -> & ->)%matches_OneOf).
    destruct v' as [|d v']; [done|]. injection Heq as -> Heq. cbn [body_ok] in Hv. rewrite decide_True in Hv by done.
    destruct v' as [|d v']; [done|]. injection Heq as -> <-. apply andb_true_iff in Hv as [[Hd%is_ascii_true _]%andb_true_iff Hv].
    exists v'. split; [done|]. by rewrite rune_size_ascii by done.
Qed.

(** A body is taken whole. *)
Lemma json_body_matches v post m :
  body_ok v = true → matches (Repeat body_unit) (v +:+ String quote_byte post) m (String quote_byte post) m.
Proof.
  remember (String.length v) as n eqn:Hn. revert v Hn. induction (Nat.lt_wf_0 n) as [n _ IH]. intros v -> Hv.
  destruct v as [|c v]; [apply match_Repeat_stop|]. destruct (decide (c = backslash)) as [->|Hc].
  - cbn [body_ok] in Hv. rewrite decide_True in Hv by done. destruct v as [|d v]; [done|].
    apply andb_true_iff in Hv as [[Hd%is_ascii_true Ha]%andb_true_iff Hv].
    eapply (match_Repeat_step _ _ _ (v +:+ String quote_byte post)); [|simpl; lia|eapply IH; [|reflexivity|done]; simpl; lia].
    apply match_Alt_r. eapply match_Seq; [apply match_Lit|]. cbn [String.append].
    pose proof (match_OneOf (in_class Any) d (v +:+ String quote_byte post) m Ha) as Hone.
    by rewrite rune_size_ascii in Hone.
  - destruct (body_ok_rune c v post Hc Hv) as [Hle Hok].
    assert (member [quote_byte; backslash] c = false) as Hmem.
    { cbn [body_ok] in Hv. rewrite decide_False in Hv by done. apply andb_true_iff in Hv as [Hq _].
      apply negb_true_iff, bool_decide_eq_false in Hq. apply bool_decide_false. rewrite !elem_of_cons, elem_of_nil. naive_solver. }
    pose proof (match_OneOf (λ c, negb (member [quote_byte; backslash] c)) c (v +:+ String quote_byte post) m) as Hone.
    cbn beta in Hone. rewrite Hmem in Hone. specialize (Hone eq_refl).
    change (String c (v +:+ String quote_byte post)) with (String c v +:+ String quote_byte post) in Hone.
    rewrite str_drop_cons_app in Hone by exact Hle.
    eapply match_Repeat_step; [apply match_Alt_l; exact Hone| |eapply IH; [|reflexivity|exact Hok]].
    + rewrite !length_str_app, length_str_drop. simpl String.length in *. lia.
    + rewrite length_str_drop. simpl String.length in *. lia.
Qed.

(** A value that begins with a quote is the string. *)
Lemma json_value_text v post m s' m' :
  body_ok v = true → matches json_value (String quote_byte (v +:+ String quote_byte post)) m s' m' → s' = post ∧ m' = m.
Proof.
  intros Hv Hm. unfold json_value in Hm.
  inversion Hm as [| | |? ? ? ? ? ? HA|? ? ? ? ? ? HA| | | | | | |]; subst; clear Hm.
  - apply matches_Seq in HA as (s1 & m1 & [[= <-] ->]%matches_Lit & (s2 & m2 & Hb & [-> ->]%matches_Lit)%matches_Seq).
    destruct (json_body_text v post m _ _ Hv Hb) as (v' & Hv' & Heq & ->).
    destruct v' as [|d v']; [by injection Heq as ->|]. injection Heq as <- _. by vm_compute in Hv'.
  - exfalso. repeat match goal with
      | H : matches (Alt _ _) _ _ _ _ |- _ => inversion H; subst; clear H
      | H : matches (Maybe _) _ _ _ _ |- _ => inversion H; subst; clear H
      | H : matches (Seq _ _) _ _ _ _ |- _ => apply matches_Seq in H as (? & ? & ? & ?)
      | H : matches (literal _ _) _ _ _ _ |- _ => cbn [literal] in H
      | H : matches (Lit _) _ _ _ _ |- _ => apply matches_Lit in H as [? ->]; try discriminate; simplify_eq
      | H : matches (OneOf _) _ _ _ _ |- _ => inversion H; subst; clear H
      | H : is_digit quote_byte = true |- _ => by vm_compute in H
      end.
Qed.

(** The secret words, in any case. *)
Definition is_secret (w : string) : bool := same_letters "password" w || same_letters "token" w.

(** A key that ends in one. *)
Definition secret_key (k : string) : bool := existsb (λ n, is_secret (str_drop n k)) (seq 0 (S (String.length k))).

Lemma secret_key_app a w : is_secret w = true → secret_key (a +:+ w) = true.
Proof.
  intros Hw. apply existsb_exists. exists (String.length a). split.
  - apply in_seq. rewrite length_str_app. lia.
  - by rewrite str_drop_app.
Qed.

Lemma secret_key_split k : secret_key k = true → ∃ a w, k = a +:+ w ∧ is_secret w = true.
Proof.
  intros (n & _ & Hn)%existsb_exists. exists (str_take n k), (str_drop n k). by rewrite str_take_drop.
Qed.

Lemma is_secret_ascii d w : is_secret (String d w) = true → ascii7 d.
Proof.
  assert (∀ c s w, byte_in 97 122 c = true → same_letters (String c s) (String d w) = true → ascii7 d) as Hs.
  { intros c s w' Hc [Hd _]%andb_true_iff. apply bool_decide_eq_true in Hc. unfold ascii7.
    apply orb_true_iff in Hd as [->%bool_decide_eq_true| ->%bool_decide_eq_true]; [lia|].
    rewrite nat_ascii_embedding; lia. }
  intros [H|H]%orb_true_iff; by eapply Hs; [|exact H].
Qed.

Lemma secret_word_matches w r t m s' m' :
  is_secret w = true → matches r t m s' m' → matches (secret_word r) (w +:+ t) m s' m'.
Proof. intros [Hw|Hw]%orb_true_iff Hr; [apply match_Alt_l|apply match_Alt_r]; by apply word_matches. Qed.

Lemma matches_Alt r1 r2 s m s' m' : matches (Alt r1 r2) s m s' m' → matches r1 s m s' m' ∨ matches r2 s m s' m'.
Proof. inversion 1; auto. Qed.

Lemma secret_word_text r s m s' m' :
  matches (secret_word r) s m s' m' →
  ∃ a s1, s = a +:+ s1 ∧ matches r s1 m s' m' ∧ a ≠ "" ∧ str_forallb wordy a = true ∧
    (str_forallb is_ascii a = true → is_secret a = true).
Proof.
  unfold is_secret. intros [HA|HA]%matches_Alt;
    apply word_text in HA as (a & s1 & -> & Hr & Hne & Ha & Hs); try done; exists a, s1; split_and!; try done;
    intros Hi; by rewrite (Hs Hi), ?orb_true_r.
Qed.

Lemma wordy_no_byte q a : wordy q = false → str_forallb wordy a = true → no_byte q a = true.
Proof.
  intros Hq Ha. eapply str_forallb_impl; [|exact Ha]. intros c Hc. apply negb_true_iff, bool_decide_false. congruence.
Qed.

(** *** Where the first pattern can match *)

(** A match begins with a quote; the text up to the next one ends in a secret word, and
    a colon follows, after blanks. *)
Lemma json_secret_text s s' m' :
  matches json_secret s ∅ s' m' →
  ∃ b a t, s = String quote_byte ((b +:+ a) +:+ String quote_byte t) ∧ no_byte quote_byte (b +:+ a) = true ∧
    a ≠ "" ∧ str_forallb wordy a = true ∧ (str_forallb is_ascii a = true → is_secret a = true) ∧
    ∃ sp t', t = sp +:+ String ":" t' ∧ all_class Space sp = true.
Proof.
  intros (s1 & m1 & (m2 & Hkey & _)%matches_Group & _)%matches_Seq.
  apply matches_Seq in Hkey as (s2 & m3 & [-> ->]%matches_Lit & Hkey).
  apply matches_Seq in Hkey as (s3 & m3 & Hsome & Hword).
  apply (some_of_text _ quote_byte) in Hsome as (b & -> & Hnb & ->); [|apply ascii7_quote|by vm_compute].
  apply secret_word_text in Hword as (a & s4 & -> & Hword & Hne & Ha & Hs).
  apply matches_Seq in Hword as (s5 & m4 & [-> ->]%matches_Lit & Hword).
  apply matches_Seq in Hword as (s6 & m5 & [(sp & -> & Hsp)%star_reach_text ->]%matches_Star & Hword).
  apply matches_Seq in Hword as (s7 & m6 & [-> ->]%matches_Lit & _).
  exists b, a, (sp +:+ String ":" s7). split_and!; try done.
  - by rewrite str_app_assoc.
  - rewrite no_byte_app, Hnb. by apply wordy_no_byte; [vm_compute|].
  - by exists sp, s7.
Qed.

(** No match begins here. *)
Definition quiet (s : string) : Prop := ∀ s' m', ¬ matches json_secret s ∅ s' m'.

Lemma quiet_other c t : c ≠ quote_byte → quiet (String c t).
Proof. intros Hc s' m' (b & a & t' & [= -> _] & _)%json_secret_text. done. Qed.

Lemma quiet_last t : no_byte quote_byte t = true → quiet (String quote_byte t).
Proof.
  intros Ht s' m' (b & a & t' & [= ->] & _)%json_secret_text. rewrite no_byte_app in Ht.
  apply andb_true_iff in Ht as [_ Ht]. by vm_compute in Ht.
Qed.

Lemma quiet_between y q t :
  no_byte quote_byte (y +:+ String q "") = true → wordy q = false →
  quiet (String quote_byte (y +:+ String q (String quote_byte t))).
Proof.
  intros Hy Hq s' m' (b & a & t' & Heq & Hn & Hne & Ha & _)%json_secret_text.
  assert ((y +:+ String q "") +:+ String quote_byte t = (b +:+ a) +:+ String quote_byte t') as Hs.
  { injection Heq as <-. by rewrite str_app_assoc. }
  apply no_byte_split in Hs as [Hs _]; [|done..].
  assert (wordy q = true) as Hw; [|congruence].
  clear -Hs Ha Hne. revert b Hs. induction y as [|c y IH]; intros [|d b] Hs; cbn in Hs.
  - subst a. cbn in Ha. by apply andb_true_iff in Ha as [? _].
  - injection Hs as _ Hs. destruct b, a; done.
  - subst a. cbn in Ha. apply andb_true_iff in Ha as [_ Ha]. rewrite str_forallb_app in Ha.
    apply andb_true_iff in Ha as [_ Ha]. cbn in Ha. by apply andb_true_iff in Ha as [? _].
  - injection Hs as _ Hs. by apply (IH b).
Qed.

Lemma quiet_after k t :
  no_byte quote_byte k = true → (∀ sp t', t = sp +:+ String ":" t' → all_class Space sp = true → False) →
  quiet (String quote_byte (k +:+ String quote_byte t)).
Proof.
  intros Hk Ht s' m' (b & a & t' & [= Heq] & Hn & _ & _ & _ & sp & t2 & -> & Hsp)%json_secret_text.
  apply no_byte_split in Heq as [_ ->]; [|done..]. by eapply Ht.
Qed.

Lemma quiet_key k t :
  no_byte quote_byte k = true → str_forallb is_ascii k = true → secret_key k = false →
  quiet (String quote_byte (k +:+ String quote_byte t)).
Proof.
  intros Hk Hi Hs s' m' (b & a & t' & [= Heq] & Hn & _ & _ & Ha & _)%json_secret_text.
  apply no_byte_split in Heq as [-> _]; [|done..]. rewrite str_forallb_app in Hi. apply andb_true_iff in Hi as [_ Hi].
  by rewrite (secret_key_app b a (Ha Hi)) in Hs.
Qed.

Lemma mask_quiet c t : quiet (String c t) → mask_json (String c t) = String c (mask_json t).
Proof.
  intros Hq. unfold mask_json. cbn [replace_all]. rewrite run_None; [done|].
  intros s' m' Hm. by destruct (Hq s' m').
Qed.

Lemma mask_text_before a t : no_byte quote_byte a = true → mask_json (a +:+ t) = a +:+ mask_json t.
Proof.
  induction a as [|c a IH]; [done|]. intros [Hc Ha]%andb_true_iff. cbn [String.append].
  rewrite mask_quiet; [by rewrite IH|]. apply quiet_other. intros ->. by vm_compute in Hc.
Qed.

(** *** The strings of values *)

(** What follows a value: a comma, or the end. *)
Definition after_value (t : string) : Prop := ∃ c t', t = String c t' ∧ (c = ","%char ∨ c = "}"%char).

Lemma after_value_no_colon t sp t' :
  after_value t → t = sp +:+ String ":" t' → all_class Space sp = true → False.
Proof.
  intros (c & t0 & -> & Hc) Heq Hsp. destruct sp as [|d sp]; cbn in Heq; injection Heq as -> _; [by destruct Hc as [Hc|Hc]; discriminate Hc|].
  apply andb_true_iff in Hsp as [Hsp _]. by destruct Hc as [Hc|Hc]; rewrite Hc in Hsp; vm_compute in Hsp.
Qed.

Lemma body_first_quote v :
  body_ok v = true → no_byte quote_byte v = true ∨
  ∃ y z, v = y +:+ String backslash (String quote_byte z) ∧ no_byte quote_byte y = true.
Proof.
  remember (String.length v) as n eqn:Hn. revert v Hn. induction (Nat.lt_wf_0 n) as [n _ IH]. intros v -> Hv.
  destruct v as [|c v]; [by left|]. cbn [body_ok] in Hv. destruct (decide (c = backslash)) as [->|Hc].
  - destruct v as [|d v]; [done|]. apply andb_true_iff in Hv as [_ Hv].
    destruct (decide (d = quote_byte)) as [->|Hd]; [right; by exists "", v|].
    assert (bool_decide (quote_byte = d) = false) as Hbd by (apply bool_decide_false; congruence).
    destruct (IH (String.length v) ltac:(simpl; lia) v eq_refl Hv) as [Hn|(y & z & -> & Hy)].
    + left. unfold no_byte in *. cbn [str_forallb]. by rewrite Hn, Hbd.
    + right. exists (String backslash (String d y)), z. split; [done|]. unfold no_byte in *. cbn [str_forallb]. by rewrite Hy, Hbd.
  - apply andb_true_iff in Hv as [Hq Hv]. apply negb_true_iff, bool_decide_eq_false in Hq.
    assert (bool_decide (quote_byte = c) = false) as Hbd by (apply bool_decide_false; congruence).
    destruct (IH (String.length v) ltac:(simpl; lia) v eq_refl Hv) as [Hn|(y & z & -> & Hy)].
    + left. unfold no_byte in *. cbn [str_forallb]. by rewrite Hn, Hbd.
    + right. exists (String c y), z. split; [done|]. unfold no_byte in *. cbn [str_forallb]. by rewrite Hy, Hbd.
Qed.

Lemma quiet_body v t : body_ok v = true → after_value t → quiet (String quote_byte (v +:+ String quote_byte t)).
Proof.
  intros Hv Ht. destruct (body_first_quote v Hv) as [Hn|(y & z & -> & Hy)].
  - apply quiet_after; [done|]. intros sp t'. by apply after_value_no_colon.
  - rewrite str_app_assoc. cbn [String.append]. apply quiet_between; [|by vm_compute].
    rewrite no_byte_app, Hy. by vm_compute.
Qed.

Lemma mask_body v t :
  body_ok v = true → after_value t →
  mask_json (v +:+ String quote_byte t) = v +:+ mask_json (String quote_byte t).
Proof.
  intros Hv Ht. remember (String.length v) as n eqn:Hn. revert v Hn Hv. induction (Nat.lt_wf_0 n) as [n _ IH]. intros v -> Hv.
  destruct v as [|c v]; [done|]. cbn [body_ok] in Hv. destruct (decide (c = backslash)) as [->|Hc].
  - destruct v as [|d v]; [done|]. apply andb_true_iff in Hv as [_ Hv]. cbn [String.append].
    rewrite mask_quiet by (by apply quiet_other). rewrite mask_quiet.
    + f_equal. f_equal. eapply IH; [|reflexivity|done]. simpl. lia.
    + destruct (decide (d = quote_byte)) as [->|Hd]; [by apply quiet_body|by apply quiet_other].
  - apply andb_true_iff in Hv as [Hq Hv]. apply negb_true_iff, bool_decide_eq_false in Hq. cbn [String.append].
    rewrite mask_quiet by (by apply quiet_other). f_equal. eapply IH; [|reflexivity|done]. simpl. lia.
Qed.

(** *** A key and its string *)

(** A key with its colon, and a string, as they stand in a record. *)
Definition json_key (k : string) : string := String quote_byte (k +:+ String quote_byte ":").
Definition json_string (v : string) : string := String quote_byte (v +:+ String quote_byte "").

Lemma json_string_app v t : json_string v +:+ t = String quote_byte (v +:+ String quote_byte t).
Proof. unfold json_string. cbn [String.append]. by rewrite str_app_assoc. Qed.

Lemma json_key_app k t : json_key k +:+ t = String quote_byte (k +:+ String quote_byte (String ":" t)).
Proof. unfold json_key. cbn [String.append]. by rewrite str_app_assoc. Qed.

Lemma Space_stop c s s' : in_class Space c = false → star_reach Space (String c s) s' → s' = String c s.
Proof. intros Hc Hr. inversion Hr as [|? ? Hpos]; subst; [done|]. cbn [class_size] in Hpos. rewrite Hc in Hpos. lia. Qed.

(** Where a key and a string begin, the first pattern matches exactly these. *)
Lemma json_secret_at k v post s' m' :
  no_byte quote_byte k = true → body_ok v = true →
  matches json_secret (json_key k +:+ json_string v +:+ post) ∅ s' m' →
  s' = post ∧ capture m' "1" = json_key k.
Proof.
  intros Hk Hv Hm. pose proof Hm as (b0 & a0 & t0 & Heq & Hn & _)%json_secret_text.
  unfold json_secret in Hm.
  apply matches_Seq in Hm as (s1 & m1 & (m2 & Hkey & ->)%matches_Group & Hval).
  apply matches_Seq in Hkey as (s2 & m3 & [Hs2 ->]%matches_Lit & Hkey). injection Hs2 as <-.
  apply matches_Seq in Hkey as (s3 & m3 & Hsome & Hword).
  apply (some_of_text _ quote_byte) in Hsome as (a & Ha & Hna & ->); [|apply ascii7_quote|by vm_compute].
  apply secret_word_text in Hword as (b & s4 & -> & Hword & _ & Hwb & _).
  apply matches_Seq in Hword as (s5 & m4 & [-> ->]%matches_Lit & Hword).
  assert (no_byte quote_byte b = true) as Hnb by (apply wordy_no_byte; [by vm_compute|done]).
  assert (s5 = String ":" (json_string v +:+ post)) as ->.
  { assert (k +:+ String quote_byte (String ":" (json_string v +:+ post)) = (a +:+ b) +:+ String quote_byte s5) as Hsplit.
    { rewrite str_app_assoc, <-Ha. by rewrite str_app_assoc. }
    apply no_byte_split in Hsplit as [_ <-]; [done..|]. by rewrite no_byte_app, Hna, Hnb. }
  apply matches_Seq in Hword as (s6 & m5 & [Hsp ->]%matches_Star & Hword).
  apply Space_stop in Hsp as ->; [|done].
  apply matches_Seq in Hword as (s7 & m6 & [[= <-] ->]%matches_Lit & [Hsp ->]%matches_Star).
  apply Space_stop in Hsp as ->; [|done]. cbn [json_string String.append] in Hval. rewrite str_app_assoc in Hval.
  apply (json_value_text v post) in Hval as [-> ->]; [|done]. split; [done|].
  unfold capture. rewrite lookup_insert_eq. cbn [default]. apply between_app.
Qed.

(** With a secret key they are a match. *)
Lemma json_secret_matches k v post :
  no_byte quote_byte k = true → secret_key k = true → body_ok v = true →
  ∃ m', matches json_secret (json_key k +:+ json_string v +:+ post) ∅ post m'.
Proof.
  intros Hk (k' & w & -> & Hw)%secret_key_split Hv. rewrite no_byte_app in Hk. apply andb_true_iff in Hk as [Hk _].
  rewrite json_key_app, str_app_assoc, json_string_app.
  eexists. eapply match_Seq; [apply match_Group; eapply match_Seq; [apply match_Lit|eapply match_Seq]|].
  - apply (repeat_matches _ _ k' _ ∅ ltac:(done)); [|].
    + destruct w as [|d w]; [done|]. right. left. eexists d, _. split; [reflexivity|]. by eapply is_secret_ascii.
    + eapply str_forallb_impl; [|exact Hk]. intros c Hc. apply negb_true_iff, bool_decide_eq_false in Hc.
      apply negb_true_iff, bool_decide_false. rewrite list_elem_of_singleton. congruence.
  - apply secret_word_matches; [done|]. eapply match_Seq; [apply match_Lit|].
    eapply match_Seq; [apply match_Star, star_stop|]. eapply match_Seq; [apply match_Lit|apply match_Star, star_stop].
  - apply match_Alt_l. eapply match_Seq; [apply match_Lit|]. eapply match_Seq; [by apply json_body_matches|apply match_Lit].
Qed.

Lemma replace_all_skip r template a t : replace_all r template (String.length a) (a +:+ t) = replace_all r template 0 t.
Proof. induction a as [|c a IH]; [by destruct t|exact IH]. Qed.

Lemma mask_secret k v post :
  no_byte quote_byte k = true → secret_key k = true → body_ok v = true →
  mask_json (json_key k +:+ json_string v +:+ post) = json_key k +:+ json_string "***" +:+ mask_json post.
Proof.
  intros Hk Hw Hv. set (p := json_key k +:+ json_string v +:+ post).
  destruct (json_secret_matches k v post Hk Hw Hv) as [m' Hm]. fold p in Hm.
  destruct (run_complete json_secret p ∅ post m' (λ s' m, Some (String.length p - String.length s', m)) Hm) as [[n m] Hrun];
    [by eexists|].
  pose proof Hrun as (s' & m1 & Hm1 & [= Hn Hmm])%run_sound.
  destruct (json_secret_at k v post _ _ Hk Hv Hm1) as [-> Hcap]. subst m1.
  set (a := k +:+ String quote_byte ":" +:+ json_string v).
  assert (p = String quote_byte (a +:+ post)) as Hp.
  { unfold p, a, json_key. cbn [String.append]. by rewrite !str_app_assoc. }
  change (String.length p - String.length post = n) in Hn. clearbody p. subst p.
  unfold mask_json at 1. cbn [replace_all]. rewrite Hrun.
  assert (n = S (String.length a)) as ->.
  { rewrite <-Hn. cbn [String.length]. rewrite length_str_app. lia. }
  rewrite replace_all_skip, Hcap. fold (mask_json post). unfold json_string. cbn [String.append]. by rewrite !str_app_assoc.
Qed.

(** ** Records *)

(** The value of a member of a record: a string, by the bytes between its quotes, or
    another text without quotes, as a number or a list of numbers. *)
Inductive value := VString (body : string) | VText (text : string).

Definition value_text (v : value) : string := match v with VString b => json_string b | VText t => t end.

Definition member_text (m : string * value) : string := json_key m.1 +:+ value_text m.2.

Fixpoint members_text (ms : list (string * value)) : string :=
  match ms with
  | [] => ""
  | [m] => member_text m
  | m :: ms => member_text m +:+ "," +:+ members_text ms
  end.

(** A record is one line, without blanks around colons and commas. *)
Definition record_text (ms : list (string * value)) : string := "{" +:+ members_text ms +:+ "}".

(** A key is ASCII without quotes; one with a secret word has a string. *)
Definition member_ok (m : string * value) : bool :=
  no_byte quote_byte m.1 && str_forallb is_ascii m.1 &&
  match m.2 with VString b => body_ok b | VText t => no_byte quote_byte t && negb (secret_key m.1) end.

Definition masked (m : string * value) : string * value := if secret_key m.1 then (m.1, VString "***") else m.

(** What follows a member: the next one, or the end without another quote. *)
Definition after_member (t : string) : Prop :=
  (∃ t', t = String "," (String quote_byte t')) ∨ (∃ t', t = String "}" t' ∧ no_byte quote_byte t = true).

Lemma after_member_value t : after_member t → after_value t.
Proof. intros [[t' ->]|(t' & -> & _)]; eexists _, _; eauto. Qed.

(** After a quote and a text without quotes, no match begins before the next member. *)
Lemma quiet_to_next u t :
  no_byte quote_byte u = true → after_member t → quiet (String quote_byte (u +:+ t)).
Proof.
  intros Hu [[t' ->]|(t' & -> & Ht)].
  - apply quiet_between; [|by vm_compute]. rewrite no_byte_app, Hu. by vm_compute.
  - apply quiet_last. by rewrite no_byte_app, Hu.
Qed.

Lemma mask_member m t :
  member_ok m = true → after_member t → mask_json (member_text m +:+ t) = member_text (masked m) +:+ mask_json t.
Proof.
  destruct m as [k v]. unfold member_ok, member_text, masked. cbn [fst snd].
  intros [[Hk Hi]%andb_true_iff Hv]%andb_true_iff Ht. rewrite !str_app_assoc.
  destruct (secret_key k) eqn:Hs; cbn [fst snd].
  - destruct v as [b|x]; [|by rewrite andb_false_r in Hv]. by apply mask_secret.
  - rewrite !json_key_app, mask_quiet, mask_text_before by (done || by apply quiet_key). f_equal. f_equal.
    destruct v as [b|x]; cbn [value_text].
    + rewrite !json_string_app, mask_quiet by (by apply (quiet_between "")). f_equal.
      rewrite mask_quiet by (by apply quiet_other). f_equal.
      rewrite mask_quiet by (apply quiet_body; [done|by apply after_member_value]). f_equal.
      rewrite mask_body by (done || by apply after_member_value). f_equal.
      by rewrite mask_quiet by (by apply (quiet_to_next "")).
    + apply andb_true_iff in Hv as [Hx _].
      assert (no_byte quote_byte (String ":" x) = true) as Hcx by (unfold no_byte in *; cbn [str_forallb]; by rewrite Hx).
      change (String ":" (x +:+ t)) with (String ":" x +:+ t). rewrite mask_quiet by (by apply quiet_to_next).
      f_equal. rewrite mask_text_before by done. done.
Qed.

Lemma members_next ms t :
  Forall (λ m, member_ok m = true) ms → ms ≠ [] → ∃ t', members_text ms +:+ t = String quote_byte t'.
Proof.
  destruct ms as [|m ms]; [done|]. intros _ _. destruct ms; cbn [members_text]; unfold member_text;
    rewrite !str_app_assoc, json_key_app; by eexists.
Qed.

Lemma mask_members ms t :
  Forall (λ m, member_ok m = true) ms → (∃ t', t = String "}" t') → no_byte quote_byte t = true →
  mask_json (members_text ms +:+ t) = members_text (masked <$> ms) +:+ t.
Proof.
  intros Hms [t' Ht] Hn.
  assert (mask_json t = t) as Hid by (rewrite <-(str_app_nil_r t) at 1; rewrite mask_text_before by done; apply str_app_nil_r).
  induction Hms as [|m ms Hm Hms IH]; [done|]. destruct ms as [|m' ms].
  - cbn [members_text fmap list_fmap]. rewrite mask_member, Hid; [done|done|]. right. by exists t'.
  - change (members_text (masked <$> m :: m' :: ms)) with (member_text (masked m) +:+ "," +:+ members_text (masked <$> m' :: ms)).
    change (members_text (m :: m' :: ms)) with (member_text m +:+ "," +:+ members_text (m' :: ms)).
    rewrite !str_app_assoc, mask_member; [|done|].
    + rewrite mask_text_before, IH by done. done.
    + left. destruct (members_next (m' :: ms) t Hms ltac:(done)) as [t2 Ht2]. exists t2. by rewrite <-Ht2.
Qed.

(** ** Properties *)

(** C36: The first pattern masks a record member by member: of an object on one line, as
    the logger writes it, without blanks around colons and commas, every string under a
    key that ends in password or token, in any case, becomes three stars, whatever it
    holds, escaped quotes and bytes beyond ASCII included; and every other member stays
    as it is, also when its value speaks of passwords or tokens.  The members are strings
    and texts without quotes (numbers, constants, lists of them; no nested strings), a
    secret key has a string, and keys are ASCII.  What follows the object has no quotes. *)
Theorem mask_json_hides (ms : list (string * value)) (rest : string) :
  Forall (λ m, member_ok m = true) ms → no_byte quote_byte rest = true →
  mask_json (record_text ms +:+ rest) = record_text (masked <$> ms) +:+ rest.
Proof.
  intros Hms Hr. unfold record_text. rewrite !str_app_assoc, mask_text_before by done. f_equal.
  apply mask_members; [done|by eexists|]. unfold no_byte in *. cbn [String.append str_forallb]. by rewrite Hr.
Qed.

(** ** Witnesses *)

(** A record of a failed login: the password has an escaped quote and a comma. *)
Definition login_record : list (string * value) :=
  [("level", VString "error"); ("user", VString "bob"); ("gwosPassWord", VString ("se" +:+ String backslash (String quote_byte ",cret")));
   ("status", VText "401"); ("message", VString "no token")].

Lemma mask_json_hides_witness :
  Forall (λ m, member_ok m = true) login_record ∧
  mask_json (record_text login_record +:+ String (ascii_of_nat 10) "") =
  record_text [("level", VString "error"); ("user", VString "bob"); ("gwosPassWord", VString "***");
    ("status", VText "401"); ("message", VString "no token")] +:+ String (ascii_of_nat 10) "".
Proof.
  assert (Forall (λ m, member_ok m = true) login_record) as Hok by (repeat constructor).
  split; [exact Hok|]. rewrite (mask_json_hides login_record (String (ascii_of_nat 10) "") Hok eq_refl). reflexivity.
Defined.

(** Blanks after the colon do not keep a string from being masked, and a number is masked
    as well. *)
Example mask_json_others :
  mask_json ("{" +:+ String quote_byte ("token" +:+ String quote_byte (" : " +:+ json_string "abc")) +:+ "," +:+
    json_key "password" +:+ "-1.5e3}") =
  "{" +:+ String quote_byte ("token" +:+ String quote_byte (" : " +:+ json_string "***")) +:+ "," +:+
    json_key "password" +:+ json_string "***" +:+ "}".
Proof. vm_compute. reflexivity. Qed.

(** Prose is masked by the second pattern, up to the next white space or bracket. *)
Lemma mask_text_prose : mask_text "bad token: abc=1, sent" = "bad token: ***, sent".
Proof. vm_compute. reflexivity. Qed.

(** A secret in JSON that is itself a string of the record is not masked, in either
    order of the patterns: its quotes are escaped. *)
Definition escaped_record : string :=
  let q := String backslash (String quote_byte "") in
  "{" +:+ json_string "message" +:+ ":" +:+
  String quote_byte ("{" +:+ q +:+ "password" +:+ q +:+ ":" +:+ q +:+ "secret" +:+ q +:+ "}" +:+ String quote_byte "}").

Lemma escaped_not_masked :
  mask_text (mask_json escaped_record) = escaped_record ∧ mask_json (mask_text escaped_record) = escaped_record.
Proof. split; vm_compute; reflexivity. Qed.
