(* ===== verification/Logger.v ===== *)
(** logzer (logzer.go, slog.go, zlog.go): the writers behind the logger: condensing
    of similar records, masking of secrets, the buffer of the last errors, and the
    translation of slog records.

    The cache of the condenser is an interface whose operations read the clock each for
    themselves; a writer's output is the list of what it writes downstream.  The names of the fields of zerolog, its level names
    and the layout of dates are arguments. *)

From S2P Require Import Prelude.
From S2P Require Import GoString.
From S2P Require Import GoFloat.
From S2P Require Import FloatText.
From S2P Require Import Timestamp.
From S2P Require Import LogMask.

Local Open Scope string_scope.
Local Open Scope nat_scope.

(** ** Levels *)

(** [zerolog.Level], an [int8]. *)
Definition Level := Z.
Definition TraceLevel : Level := (-1)%Z.
Definition DebugLevel : Level := 0%Z.
Definition InfoLevel : Level := 1%Z.
Definition WarnLevel : Level := 2%Z.
Definition ErrorLevel : Level := 3%Z.
Definition NoLevel : Level := 6%Z.

Definition IsDebugEnabled (GlobalLevel : Level) : bool := bool_decide (GlobalLevel ≤ DebugLevel)%Z.

(** A record written downstream. *)
Definition written : Type := Level * string.

(** ** The filter *)

(** [FilterWriter.WriteLevel]: the patterns are applied in the order of a map. *)
Definition FilterWriter_WriteLevel (order : list (string → string)) (w : written) : written :=
  (w.1, foldl (λ p mask, mask p) w.2 order).

(** The two orders of the patterns of the package. *)
Definition filter_orders : list (list (string → string)) := [[mask_json; mask_text]; [mask_text; mask_json]].

(** ** The condenser *)

(** go-cache with 16-bit counters: [hc_view] is the expiration and the count of a
    key, also after it expired.  Every operation reads the clock, which is its argument.
    [Increment] fails for a key that is not there or expired, [Add] for one that is there
    and did not expire; [Add] replaces an expired key without a report.  [DeleteExpired]
    hands the expired items to [OnEvicted] in some order. *)
Class HitCache := {
  hcache : Type;
  hc_new : hcache;
  hc_view : hcache → string → option (Z * Z);
  hc_get : hcache → Z → string → bool;
  hc_increment : hcache → Z → string → option hcache;
  hc_add : hcache → Z → string → Z → Z → option hcache;
  hc_delete_expired : hcache → Z → hcache * list (string * Z);
}.

Definition expired_at (now : Z) (v : option (Z * Z)) : bool :=
  match v with Some (e, _) => bool_decide (e < now)%Z | None => false end.

Class HitCacheLaws (C : HitCache) : Prop := {
  hc_view_new k : hc_view hc_new k = None;
  hc_get_view c t k : hc_get c t k = match hc_view c k with Some _ => negb (expired_at t (hc_view c k)) | None => false end;
  hc_increment_None c t k : hc_get c t k = false → hc_increment c t k = None;
  hc_view_increment c t k e n : hc_view c k = Some (e, n) → hc_get c t k = true →
    ∃ c', hc_increment c t k = Some c' ∧
      ∀ k', hc_view c' k' = if decide (k' = k) then Some (e, (n + 1) `mod` 2 ^ 16)%Z else hc_view c k';
  hc_add_None c t k v d : hc_get c t k = true → hc_add c t k v d = None;
  hc_view_add c t k v d : hc_get c t k = false →
    ∃ c', hc_add c t k v d = Some c' ∧ ∀ k', hc_view c' k' = if decide (k' = k) then Some (t + d, v)%Z else hc_view c k';
  hc_view_delete c t k : hc_view (hc_delete_expired c t).1 k =
    if expired_at t (hc_view c k) then None else hc_view c k;
  hc_evicted c t k n : (k, n) ∈ (hc_delete_expired c t).2 ↔ ∃ e, hc_view c k = Some (e, n) ∧ (e < t)%Z;
  hc_evicted_once c t : NoDup (hc_delete_expired c t).2.*1;
}.

Section condenser.
Context (LevelFieldName TimestampFieldName CallerFieldName MessageFieldName TimeFieldFormat : string).
Context (level_string : Level → string) (AppendFormat : Timestamp → string → string).

(** The caller field of a record, its name and its quoted value: empty when there is
    none. *)
Definition find_caller (p : string) : string :=
  let start := String quote_byte (CallerFieldName +:+ String quote_byte (":" +:+ String quote_byte "")) in
  match Index p start with
  | None => ""
  | Some i =>
      let rest := str_drop (i + String.length start) p in
      match Index rest (String quote_byte "") with
      | None => ""
      | Some j => start +:+ str_take (S j) rest
      end
  end.

(** The key of a record: its level as a byte, a colon and its caller. *)
Definition condense_key (lvl : Level) (p : string) : string :=
  String (ascii_of_N (Z.to_N (uwrap 8 lvl))) (":" +:+ find_caller p).

(** [appendTS] *)
Definition timestamp_text (ts : Timestamp) : string :=
  let UnixNano := int64 (sec ts * 10 ^ 9 + nsec ts) in
  String quote_byte (TimestampFieldName +:+ String quote_byte ":" +:+
    (if decide (TimeFieldFormat = "") then FormatInt (sec ts)
     else if decide (TimeFieldFormat = "UNIXMS") then FormatInt (UnixMilli ts)
     else if decide (TimeFieldFormat = "UNIXMICRO") then FormatInt (Z.quot UnixNano 1000)
     else String quote_byte (AppendFormat ts TimeFieldFormat +:+ String quote_byte ""))).

(** [onEvicted]: the record of a key with hits. *)
Definition condensed_record (condense : Z) (now : Timestamp) (ck : string) (v : Z) : option written :=
  if decide (0 < v)%Z then
    match ck with
    | String l (String _ caller) =>
        let lvl := swrap 8 (Z.of_N (N_of_ascii l)) in
        Some (lvl, "{" +:+ String quote_byte (LevelFieldName +:+ String quote_byte (":" +:+
          String quote_byte (level_string lvl +:+ String quote_byte ","))) +:+
          timestamp_text now +:+ "," +:+ caller +:+ "," +:+
          String quote_byte (MessageFieldName +:+ String quote_byte (":" +:+ String quote_byte
            ("[condensed " +:+ FormatInt v +:+ " more entries last " +:+
             FormatInt (default 0%Z (f_trunc (Seconds condense))) +:+ " seconds]" +:+ String quote_byte "}"))))
    | _ => None
    end
  else None.

(** What the condenser writes: a record as it came, or the evicted key and count of
    condensed ones. *)
Inductive output := Passed (lvl : Level) (p : string) | Evicted (ck : string) (hits : Z).

Context {C : HitCache}.

(** Where the writer that has the lock stands: a record is at [Deleted] when the expired
    keys have gone, and at [Found] when the cache was asked for its key.  The time is
    that of [DeleteExpired]. *)
Inductive phase :=
| Idle
| Deleted (lvl : Level) (p : string) (t0 : Z)
| Found (hit : bool) (lvl : Level) (p : string) (t0 : Z).

(** A record that is not counted: its key, the number of hits that go, and the times of
    [DeleteExpired] and of the operation that drops them. *)
Record loss := mkLoss { ls_key : string; ls_hits : Z; ls_t0 : Z; ls_t : Z }.

(** The condenser, with what it has written downstream, each at the time of the
    operation on the cache before.  [cd_lost] is a history variable, which no operation
    reads. *)
Record condenser := mkCondenser {
  cd_cache : hcache;
  cd_phase : phase;
  cd_out : list (Z * output);
  cd_lost : list loss;
}.

Definition new_condenser : condenser := mkCondenser hc_new Idle [] [].

(** A writer begins, with the lock; the writer goes on; or the janitor cleans the cache,
    which it does beside the writer. *)
Inductive event := Write (lvl : Level) (p : string) | Go | Janitor.

(** [DeleteExpired], which reports what it deletes. *)
Definition delete_expired (now : Z) (d : condenser) (ph : phase) : condenser :=
  let '(c, evicted) := hc_delete_expired (cd_cache d) now in
  mkCondenser c ph (cd_out d ++ ((λ kv, (now, Evicted kv.1 kv.2)) <$> evicted))%list (cd_lost d).

Definition hits_of (c : hcache) (ck : string) : Z := match hc_view c ck with Some (_, n) => n | None => 0%Z end.

(** [WriteLevel] by its operations on the cache, with the clock at each; the errors of
    [Increment] and [Add] are dropped.  [None] is an event that cannot happen: a second
    writer waits for the lock. *)
Definition condense_step (condense now : Z) (d : condenser) (e : event) : option condenser :=
  if decide (condense ≤ 0)%Z then
    match e with
    | Write lvl p => Some (mkCondenser (cd_cache d) (cd_phase d) (cd_out d ++ [(now, Passed lvl p)])%list (cd_lost d))
    | _ => None
    end
  else
    match e, cd_phase d with
    | Janitor, ph => Some (delete_expired now d ph)
    | Write lvl p, Idle => Some (delete_expired now d (Deleted lvl p now))
    | Go, Deleted lvl p t0 =>
        Some (mkCondenser (cd_cache d) (Found (hc_get (cd_cache d) now (condense_key lvl p)) lvl p t0) (cd_out d) (cd_lost d))
    | Go, Found true lvl p t0 =>
        let ck := condense_key lvl p in
        let r := hc_increment (cd_cache d) now ck in
        Some (mkCondenser (default (cd_cache d) r) Idle (cd_out d)
                (cd_lost d ++ match r with Some _ => [] | None => [mkLoss ck 1 t0 now] end)%list)
    | Go, Found false lvl p t0 =>
        let ck := condense_key lvl p in
        let r := hc_add (cd_cache d) now ck 0 condense in
        Some (mkCondenser (default (cd_cache d) r) Idle (cd_out d ++ [(now, Passed lvl p)])%list
                (cd_lost d ++ match r, hc_view (cd_cache d) ck with
                              | Some _, Some (_, n) => [mkLoss ck n t0 now]
                              | _, _ => []
                              end)%list)
    | _, _ => None
    end.

(** A run of events with the clock at each. *)
Fixpoint condense_run (condense : Z) (d : condenser) (events : list (Z * event)) : option condenser :=
  match events with
  | [] => Some d
  | (now, e) :: events => d' ← condense_step condense now d e; condense_run condense d' events
  end.

(** The records downstream; [now] is the clock at each. *)
Definition output_record (condense : Z) (now : Timestamp) (o : output) : option written :=
  match o with
  | Passed lvl p => Some (lvl, p)
  | Evicted ck v => condensed_record condense now ck v
  end.
End condenser.

(** ** The buffer of records *)

(** A ring of [Size] places, from the next one to write; [None] before its first use,
    and the empty ring of a size that is not positive is nil. *)
Record LogBuffer := mkLogBuffer { lb_ring : option (list (option written)); lb_Level : Level; lb_Size : Z }.

Definition new_ring (n : Z) : list (option written) := replicate (Z.to_nat n) None.
Definition ring_once (lb : LogBuffer) : list (option written) := default (new_ring (lb_Size lb)) (lb_ring lb).

(** [Records] reserves as many places as the size, which is not negative. *)
Definition Clear (lb : LogBuffer) : LogBuffer := mkLogBuffer (Some (new_ring (lb_Size lb))) (lb_Level lb) (lb_Size lb).
Definition Resize (lb : LogBuffer) (n : Z) : LogBuffer := mkLogBuffer (Some (new_ring n)) (lb_Level lb) n.
Definition Records (lb : LogBuffer) : LogBuffer * list written :=
  let r := ring_once lb in (mkLogBuffer (Some r) (lb_Level lb) (lb_Size lb), omap id r).

Definition LogBuffer_WriteLevel (lb : LogBuffer) (w : written) : outcome LogBuffer :=
  let r := ring_once lb in
  if decide (lb_Level lb ≤ w.1)%Z then
    match r with
    | [] => Panic "invalid memory address or nil pointer dereference"
    | _ :: rest => Ret (mkLogBuffer (Some (rest ++ [Some w])%list) (lb_Level lb) (lb_Size lb))
    end
  else Ret (mkLogBuffer (Some r) (lb_Level lb) (lb_Size lb)).

(** [WriteLogBuffer]: what the global level lets through. *)
Definition WriteLogBuffer (order : list (string → string)) (GlobalLevel : Level) (lb : LogBuffer) : list written :=
  FilterWriter_WriteLevel order <$> filter (λ w, (GlobalLevel ≤ w.1)%Z) (Records lb).2.

(** ** Options *)

(** The variables of the package that options set; a log file is known by its
    path. *)
Record logger := mkLogger {
  lg_errBuffer : LogBuffer;
  lg_level : Level;
  lg_file : option string;
  lg_condense : Z;
  lg_NoColor : bool;
  lg_TimeFormat : string;
  lg_out_file : option string;
}.

Inductive Option :=
| WithLastErrors (n : Z)
| WithLevel (lvl : Level)
| WithLogFile (path : string)
| WithCondense (d : Z)
| WithColors (b : bool)
| WithTimeFormat (s : string).

Definition apply_option (l : logger) (o : Option) : logger :=
  match o with
  | WithLastErrors n => mkLogger (Resize (lg_errBuffer l) n) (lg_level l) (lg_file l) (lg_condense l)
                          (lg_NoColor l) (lg_TimeFormat l) (lg_out_file l)
  | WithLevel lvl => mkLogger (lg_errBuffer l) lvl (lg_file l) (lg_condense l) (lg_NoColor l) (lg_TimeFormat l) (lg_out_file l)
  | WithLogFile path => mkLogger (lg_errBuffer l) (lg_level l) (Some path) (lg_condense l)
                          (lg_NoColor l) (lg_TimeFormat l) (lg_out_file l)
  | WithCondense d => mkLogger (lg_errBuffer l) (lg_level l) (lg_file l) d (lg_NoColor l) (lg_TimeFormat l) (lg_out_file l)
  | WithColors b => mkLogger (lg_errBuffer l) (lg_level l) (lg_file l) (lg_condense l) (negb b) (lg_TimeFormat l) (lg_out_file l)
  | WithTimeFormat s => mkLogger (lg_errBuffer l) (lg_level l) (lg_file l) (lg_condense l) (lg_NoColor l) s (lg_out_file l)
  end.

Fixpoint write_all (lb : LogBuffer) (ws : list written) : outcome LogBuffer :=
  match ws with [] => Ret lb | w :: ws => lb ← LogBuffer_WriteLevel lb w; write_all lb ws end.

Definition with_buffer (l : logger) (lb : LogBuffer) : logger :=
  mkLogger lb (lg_level l) (lg_file l) (lg_condense l) (lg_NoColor l) (lg_TimeFormat l) (lg_out_file l).

(** [NewLoggerWriter]: the options, the last errors written again, and the log file
    as an output of the formatter, which stays when a later call has none. *)
Definition NewLoggerWriter (l : logger) (opts : list Option) : outcome logger :=
  let l := mkLogger (lg_errBuffer l) (lg_level l) None (lg_condense l) (lg_NoColor l) (lg_TimeFormat l) (lg_out_file l) in
  let '(lb, lastErrors) := Records (lg_errBuffer l) in
  let l := foldl apply_option (with_buffer l lb) opts in
  lb ← write_all (lg_errBuffer l) lastErrors;
  let l := with_buffer l lb in
  Ret (match lg_file l with
       | Some path => mkLogger (lg_errBuffer l) (lg_level l) (lg_file l) (lg_condense l) (lg_NoColor l)
                        (lg_TimeFormat l) (Some path)
       | None => l
       end).

(** ** slog *)

Definition slog_Debug : Z := (-4)%Z.
Definition slog_Info : Z := 0%Z.
Definition slog_Warn : Z := 4%Z.
Definition slog_Error : Z := 8%Z.

Definition Enabled (GlobalLevel : Level) (level : Z) : bool :=
  let l := GlobalLevel in
  if decide (level = slog_Debug) then bool_decide (l ≤ DebugLevel)%Z
  else if decide (level = slog_Info) then bool_decide (l ≤ InfoLevel)%Z
  else if decide (level = slog_Warn) then bool_decide (l ≤ WarnLevel)%Z
  else if decide (level = slog_Error) then bool_decide (l ≤ ErrorLevel)%Z
  else bool_decide (l ≤ InfoLevel)%Z.

Definition slog_level (level : Z) : Level :=
  if decide (level = slog_Debug) then DebugLevel
  else if decide (level = slog_Info) then InfoLevel
  else if decide (level = slog_Warn) then WarnLevel
  else if decide (level = slog_Error) then ErrorLevel
  else InfoLevel.

(** A value of an attribute by its kind; durations are in nanoseconds. *)
Inductive Value :=
| KindAny (text : string) | KindBool (b : bool) | KindDuration (d : Z) | KindFloat64 (x : float64)
| KindInt64 (z : Z) | KindString (s : string) | KindTime (t : Timestamp) | KindUint64 (z : Z)
| KindGroup (text : string) | KindLogValuer (text : string).

(** A field of a zerolog event. *)
Inductive field_value :=
| FAny (text : string) | FBool (b : bool) | FDuration (d : Z) | FFloat64 (x : float64)
| FInt64 (z : Z) | FStr (s : string) | FStrs (l : list string) | FTime (t : Timestamp) | FUint64 (z : Z).

(** [attr2e]; a duration is cut to milliseconds, which [time.Duration.Truncate] does
    towards zero. *)
Definition attr2e (v : Value) : field_value :=
  match v with
  | KindAny text => FAny text
  | KindBool b => FBool b
  | KindDuration d => FDuration (d - Z.rem d Millisecond)
  | KindFloat64 x => FFloat64 x
  | KindInt64 z => FInt64 z
  | KindString s => FStr s
  | KindTime t => FTime t
  | KindUint64 z => FUint64 z
  | KindGroup text => FStr text
  | KindLogValuer text => FAny text
  end.

Record SLogHandler := mkSLogHandler {
  sh_attrs : list (string * Value);
  sh_groups : list string;
  sh_once : bool;
  sh_CallerSkipFrame : Z;
  sh_GroupsFieldName : string;
}.

Record slog_event := mkSlogEvent { se_level : Level; se_fields : list (string * field_value); se_message : string }.

(** [Handle] of a record with a level, attributes and a message. *)
Definition Handle (h : SLogHandler) (level : Z) (attrs : list (string * Value)) (message : string)
  : SLogHandler * slog_event :=
  let h := if sh_once h then h
           else mkSLogHandler (sh_attrs h) (sh_groups h) true (sh_CallerSkipFrame h)
                  (if decide (sh_GroupsFieldName h = "") then "logger" else sh_GroupsFieldName h) in
  let groups := match sh_groups h with [] => [] | l => [(sh_GroupsFieldName h, FStrs l)] end in
  (h, mkSlogEvent (slog_level level)
        (groups ++ ((λ a, (a.1, attr2e a.2)) <$> (sh_attrs h ++ attrs)))%list message).

Definition WithAttrs (h : SLogHandler) (attrs : list (string * Value)) : SLogHandler :=
  mkSLogHandler (sh_attrs h ++ attrs)%list (sh_groups h) false (sh_CallerSkipFrame h) (sh_GroupsFieldName h).
Definition WithGroup (h : SLogHandler) (name : string) : SLogHandler :=
  mkSLogHandler (sh_attrs h) (sh_groups h ++ [name])%list false (sh_CallerSkipFrame h) (sh_GroupsFieldName h).

(** ** JSON or text *)

Fixpoint last_byte (d : ascii) (s : string) : ascii :=
  match s with "" => d | String c s => last_byte c s end.

(** [IsJSON]: an object or an array by its first and last byte. *)
Definition IsJSON (s : string) : bool :=
  match s with
  | String a (String b rest) =>
      let z := last_byte b rest in
      (bool_decide (a = "{"%char) && bool_decide (z = "}"%char)) ||
      (bool_decide (a = "["%char) && bool_decide (z = "]"%char))
  | _ => false
  end.

(** [StrOrJSON] and [MarshalZerologObject]: raw JSON, or a string field. *)
Definition StrOrJSON (k : string) (s : string) : string * (bool * string) :=
  let b := TrimSpace s in (k, (IsJSON b, b)).

(** ** Lemmas *)

Section condenser_lemmas.
Context (CallerFieldName : string) {C : HitCache} {L : HitCacheLaws C}.
#[local] Abbreviation key := (condense_key CallerFieldName).
#[local] Abbreviation step := (condense_step CallerFieldName).
#[local] Abbreviation crun := (condense_run CallerFieldName).

(** Records of a key that came, that passed, that were reported as condensed, that are
    still counted, being written, or lost. *)
Definition came1 (ck : string) (e : event) : Z :=
  match e with Write lvl p => if decide (key lvl p = ck) then 1 else 0 | _ => 0 end.
Definition came (ck : string) (events : list (Z * event)) : Z := foldr (λ te z, came1 ck te.2 + z)%Z 0%Z events.
Definition passed1 (ck : string) (o : output) : Z :=
  match o with Passed lvl p => if decide (key lvl p = ck) then 1 else 0 | Evicted _ _ => 0 end.
Definition reported1 (ck : string) (o : output) : Z :=
  match o with Evicted k n => if decide (k = ck) then n else 0 | Passed _ _ => 0 end.
Definition total (f : output → Z) (out : list (Z * output)) : Z := foldr (λ o z, f o.2 + z)%Z 0%Z out.
Definition pending (ck : string) (d : condenser) : Z := hits_of (cd_cache d) ck.
Definition unfinished (ck : string) (ph : phase) : Z :=
  match ph with
  | Idle => 0
  | Deleted lvl p _ | Found _ lvl p _ => if decide (key lvl p = ck) then 1 else 0
  end.
Definition lost (ck : string) (l : list loss) : Z := foldr (λ x z, (if decide (ls_key x = ck) then ls_hits x else 0) + z)%Z 0%Z l.

Lemma total_app f out1 out2 : total f (out1 ++ out2) = (total f out1 + total f out2)%Z.
Proof using Type. unfold total. induction out1 as [|o out1 IH]; cbn; [done|]. lia. Qed.

Lemma lost_app ck l1 l2 : lost ck (l1 ++ l2) = (lost ck l1 + lost ck l2)%Z.
Proof using Type. unfold lost. induction l1 as [|o l1 IH]; cbn; [done|]. lia. Qed.

Definition evictions (now : Z) (l : list (string * Z)) : list (Z * output) := (λ kv : string * Z, (now, Evicted kv.1 kv.2)) <$> l.

Lemma total_evicted_passed now ck l : total (passed1 ck) (evictions now l) = 0%Z.
Proof using Type. unfold evictions, total. by induction l as [|[k n] l IH]. Qed.

Lemma evictions_passed now l t lvl p : (t, Passed lvl p) ∉ evictions now l.
Proof using Type. unfold evictions. rewrite list_elem_of_fmap. by intros ([k n] & ? & _). Qed.

(** What an eviction reports of a key is its count. *)
Lemma total_evicted now ck l :
  NoDup l.*1 →
  (∀ n, (ck, n) ∈ l → total (reported1 ck) (evictions now l) = n) ∧
  ((∀ n, (ck, n) ∉ l) → total (reported1 ck) (evictions now l) = 0%Z).
Proof using Type.
  unfold evictions, total. induction l as [|[k m] l IH]; intros Hnd; [split; [by intros n ?%elem_of_nil|done]|].
  rewrite fmap_cons in Hnd. apply NoDup_cons in Hnd as [Hk Hnd]. destruct (IH Hnd) as [IH1 IH2].
  cbn [fmap list_fmap foldr reported1 fst snd] in *. split.
  - intros n [[= <- <-]|Hin]%elem_of_cons.
    + rewrite decide_True, IH2 by done || (intros n' Hin; apply Hk, list_elem_of_fmap; by exists (ck, n')). lia.
    + rewrite decide_False; [by apply IH1|]. intros Heq. subst k. apply Hk, list_elem_of_fmap. by exists (ck, n).
  - intros Hn. rewrite decide_False by (intros ->; by apply (Hn m); left).
    apply IH2. intros n Hin. apply (Hn n). by right.
Qed.

(** *** The invariant

    [tl] is the time of the last event and [N ck] the number of records of a key that
    came. *)

(** The sum of a key. *)
Definition counted (ck : string) (d : condenser) : Z :=
  (total (passed1 ck) (cd_out d) + total (reported1 ck) (cd_out d) + pending ck d + unfinished ck (cd_phase d) +
   lost ck (cd_lost d))%Z.

(** A key was entered when a record of it passed. *)
Definition entered (condense : Z) (d : condenser) (ck : string) (e : Z) : Prop :=
  ∃ lvl p, (e - condense, Passed lvl p)%Z ∈ cd_out d ∧ key lvl p = ck.

(** What the writer knows of its key: at [Deleted] and [Found] it does not expire before
    [DeleteExpired] was called; a key that was found is there, or has expired since; one
    that was not found is not there, or has expired. *)
Definition phase_ok (condense tl : Z) (d : condenser) : Prop :=
  match cd_phase d with
  | Idle => True
  | Deleted lvl p t0 => ∀ e n, hc_view (cd_cache d) (key lvl p) = Some (e, n) → (t0 ≤ e)%Z
  | Found true lvl p t0 => ∃ e, (t0 ≤ e)%Z ∧ entered condense d (key lvl p) e ∧
      match hc_view (cd_cache d) (key lvl p) with Some (e', _) => e' = e | None => (e < tl)%Z end
  | Found false lvl p t0 => ∀ e n, hc_view (cd_cache d) (key lvl p) = Some (e, n) → (t0 ≤ e < tl)%Z
  end.

Record condenser_inv (condense tl : Z) (d : condenser) : Prop := {
  ci_nonneg ck : (0 ≤ pending ck d)%Z;
  ci_out_nonneg ck : (0 ≤ total (passed1 ck) (cd_out d) + total (reported1 ck) (cd_out d))%Z;
  ci_lost_nonneg ck : (0 ≤ lost ck (cd_lost d))%Z;
  ci_phase : phase_ok condense tl d;
  ci_entered ck e n : hc_view (cd_cache d) ck = Some (e, n) → entered condense d ck e;
  ci_alive t lvl p : (t, Passed lvl p) ∈ cd_out d →
    (t + condense < tl)%Z ∨ ∃ n, hc_view (cd_cache d) (key lvl p) = Some (t + condense, n)%Z;
  ci_apart i j t1 t2 l1 l2 p1 p2 : i < j → cd_out d !! i = Some (t1, Passed l1 p1) → cd_out d !! j = Some (t2, Passed l2 p2) →
    key l1 p1 = key l2 p2 → (t1 + condense < t2)%Z;
  ci_lost x : x ∈ cd_lost d → ∃ e, entered condense d (ls_key x) e ∧ (ls_t0 x ≤ e < ls_t x)%Z;
}.

Lemma entered_mono (condense : Z) (d : condenser) (d' : condenser) (ck : string) (e : Z) :
  (∀ o, o ∈ cd_out d → o ∈ cd_out d') → entered condense d ck e → entered condense d' ck e.
Proof using Type. intros Ho (lvl & p & Hin & Hk). exists lvl, p. split; [by apply Ho|done]. Qed.

Lemma unfinished_nonneg ck ph : (0 ≤ unfinished ck ph)%Z.
Proof using Type. destruct ph; cbn; repeat case_decide; lia. Qed.

(** *** The deletion of expired keys *)

Lemma delete_view now d ph ck :
  hc_view (cd_cache (delete_expired now d ph)) ck = if expired_at now (hc_view (cd_cache d) ck) then None else hc_view (cd_cache d) ck.
Proof using L.
  unfold delete_expired. pose proof (hc_view_delete (cd_cache d) now ck). by destruct (hc_delete_expired (cd_cache d) now).
Qed.

Lemma delete_view_Some now d ph ck e n :
  hc_view (cd_cache (delete_expired now d ph)) ck = Some (e, n) → hc_view (cd_cache d) ck = Some (e, n) ∧ (now ≤ e)%Z.
Proof using L.
  rewrite delete_view. destruct (hc_view (cd_cache d) ck) as [[e' n']|]; cbn; [|done]. case_bool_decide; [done|].
  intros [= -> ->]. split; [done|lia].
Qed.

Lemma delete_view_keeps now d ph ck e n :
  hc_view (cd_cache d) ck = Some (e, n) → (e < now)%Z ∨ hc_view (cd_cache (delete_expired now d ph)) ck = Some (e, n).
Proof using L. intros Hv. rewrite delete_view, Hv. cbn. case_bool_decide; auto. Qed.

Lemma delete_out now d ph :
  ∃ l, cd_out (delete_expired now d ph) = (cd_out d ++ evictions now l)%list ∧
    ∀ ck, (total (reported1 ck) (evictions now l) + pending ck (delete_expired now d ph) = pending ck d ∧
           (total (reported1 ck) (evictions now l) = 0 ∨ total (reported1 ck) (evictions now l) = pending ck d))%Z.
Proof using L.
  exists (hc_delete_expired (cd_cache d) now).2. split; [unfold delete_expired; by destruct (hc_delete_expired _ _)|].
  intros ck. unfold pending, hits_of. rewrite delete_view.
  destruct (total_evicted now ck _ (hc_evicted_once (cd_cache d) now)) as [Hev Hno].
  pose proof (hc_evicted (cd_cache d) now ck) as He.
  destruct (hc_view (cd_cache d) ck) as [[e n]|]; cbn [expired_at].
  - case_bool_decide as Hx.
    + rewrite (Hev n); [lia|]. apply He. by exists e.
    + rewrite Hno; [lia|]. intros n' (e' & [= <- <-] & Hlt)%He. done.
  - rewrite Hno; [lia|]. by intros n' (e' & ? & _)%He.
Qed.

Lemma delete_apart now d ph l :
  cd_out (delete_expired now d ph) = (cd_out d ++ evictions now l)%list →
  ∀ i t lvl p, cd_out (delete_expired now d ph) !! i = Some (t, Passed lvl p) → cd_out d !! i = Some (t, Passed lvl p).
Proof using Type.
  intros -> i t lvl p [Hi|[_ Hi]]%lookup_app_Some; [done|]. apply list_elem_of_lookup_2 in Hi. by apply evictions_passed in Hi.
Qed.

Lemma delete_inv condense tl now d ph :
  condenser_inv condense tl d → (tl ≤ now)%Z → phase_ok condense now (delete_expired now d ph) →
  condenser_inv condense now (delete_expired now d ph).
Proof using L.
  intros [Hn Ho Hl _ He Ha Hs Hx] Hle Hp. destruct (delete_out now d ph) as (l & Hout & Hsum).
  pose proof (delete_apart now d ph l Hout) as Hin.
  assert (cd_lost (delete_expired now d ph) = cd_lost d) as Hlost
    by (unfold delete_expired; by destruct (hc_delete_expired _ _)).
  assert (∀ o, o ∈ cd_out d → o ∈ cd_out (delete_expired now d ph)) as Hmono.
  { intros o Hin'. rewrite Hout. apply elem_of_app. by left. }
  split.
  - intros ck. specialize (Hn ck). destruct (Hsum ck). lia.
  - intros ck. rewrite Hout, !total_app, total_evicted_passed. specialize (Ho ck). specialize (Hn ck). destruct (Hsum ck). lia.
  - intros ck. rewrite Hlost. apply Hl.
  - done.
  - intros ck e n [Hv _]%delete_view_Some. eapply entered_mono; [done|by eapply He].
  - intros t lvl p [i Hi%Hin]%list_elem_of_lookup. apply list_elem_of_lookup_2 in Hi.
    destruct (Ha t lvl p Hi) as [?|[n Hv]]; [left; lia|]. destruct (delete_view_keeps now d ph _ _ _ Hv); eauto.
  - intros i j t1 t2 l1 l2 p1 p2 Hij Hi%Hin Hj%Hin. by eapply Hs.
  - intros x. rewrite Hlost. intros (e & Hent & Hlt)%Hx. exists e. split; [by eapply entered_mono|done].
Qed.

Lemma delete_counted now d ph ck :
  counted ck (delete_expired now d ph) = (counted ck d - unfinished ck (cd_phase d) + unfinished ck ph)%Z.
Proof using L.
  destruct (delete_out now d ph) as (l & Hout & Hsum). unfold counted. rewrite Hout, !total_app, total_evicted_passed.
  destruct (Hsum ck) as [Hs _].
  assert (cd_lost (delete_expired now d ph) = cd_lost d ∧ cd_phase (delete_expired now d ph) = ph) as [-> ->]
    by (unfold delete_expired; by destruct (hc_delete_expired _ _)).
  lia.
Qed.

(** The writer's knowledge outlives the janitor. *)
Lemma janitor_phase condense tl now d :
  condenser_inv condense tl d → (tl ≤ now)%Z → phase_ok condense now (delete_expired now d (cd_phase d)).
Proof using L.
  intros Hinv Hle. pose proof (ci_phase _ _ _ Hinv) as Hp. destruct (delete_out now d (cd_phase d)) as (l & Hout & _).
  unfold phase_ok in *. assert (cd_phase (delete_expired now d (cd_phase d)) = cd_phase d) as ->
    by (unfold delete_expired; by destruct (hc_delete_expired _ _)).
  destruct (cd_phase d) as [|lvl p t0|[|] lvl p t0]; [done| | |].
  - intros e n [Hv _]%delete_view_Some. by eapply Hp.
  - destruct Hp as (e & He & Hent & Hv). exists e. split; [done|]. split.
    { eapply entered_mono; [|exact Hent]. intros o Ho. rewrite Hout. apply elem_of_app. by left. }
    rewrite delete_view. destruct (hc_view (cd_cache d) (key lvl p)) as [[e' n]|]; cbn; [|lia].
    subst e'. case_bool_decide; [lia|done].
  - intros e n [Hv ?]%delete_view_Some. apply Hp in Hv. lia.
Qed.

(** *** The steps of the writer *)

(** A step that leaves the cache and what was written. *)
Lemma quiet_inv condense tl now d ph l :
  condenser_inv condense tl d → (tl ≤ now)%Z → phase_ok condense now (mkCondenser (cd_cache d) ph (cd_out d) (cd_lost d)) →
  (∀ x, x ∈ l → (0 ≤ ls_hits x)%Z ∧ ∃ e, entered condense d (ls_key x) e ∧ (ls_t0 x ≤ e < ls_t x)%Z) →
  condenser_inv condense now (mkCondenser (cd_cache d) ph (cd_out d) (cd_lost d ++ l)%list).
Proof using Type.
  intros [Hn Ho Hl _ He Ha Hs Hx] Hle Hp Hnew. split; cbn [cd_cache cd_out cd_lost cd_phase]; try done.
  - intros ck. rewrite lost_app. specialize (Hl ck). assert (0 ≤ lost ck l)%Z; [|lia].
    clear -Hnew. induction l as [|x l IH]; [done|]. cbn. destruct (Hnew x (list_elem_of_here _ _)) as [H0 _].
    assert (0 ≤ lost ck l)%Z by (apply IH; intros y Hy; apply Hnew; by right). unfold lost in *. case_decide; lia.
  - intros t lvl p [?|?]%Ha; [left; lia|by right].
  - intros x [Hin|Hin]%elem_of_app; [by apply Hx|]. by apply Hnew.
Qed.

Lemma get_inv condense tl now d lvl p t0 :
  condenser_inv condense tl d → (tl ≤ now)%Z → cd_phase d = Deleted lvl p t0 →
  condenser_inv condense now (mkCondenser (cd_cache d) (Found (hc_get (cd_cache d) now (key lvl p)) lvl p t0) (cd_out d) (cd_lost d)).
Proof using L.
  intros Hinv Hle Hph. pose proof (ci_phase _ _ _ Hinv) as Hp. unfold phase_ok in Hp. rewrite Hph in Hp.
  rewrite <-(app_nil_r (cd_lost d)). apply (quiet_inv condense tl); [done..| |by intros x ?%elem_of_nil].
  unfold phase_ok. cbn [cd_phase cd_cache]. rewrite hc_get_view.
  destruct (hc_view (cd_cache d) (key lvl p)) as [[e n]|] eqn:Hv; [|done]. cbn [expired_at].
  specialize (Hp e n eq_refl). case_bool_decide as Hx; cbn [negb].
  - intros e' n' [= <- <-]. lia.
  - exists e. split; [done|]. split; [|done]. by apply (ci_entered _ _ _ Hinv _ e n).
Qed.

Lemma increment_step condense tl now d lvl p t0 :
  (0 < condense)%Z → condenser_inv condense tl d → (tl ≤ now)%Z → cd_phase d = Found true lvl p t0 →
  ∃ d', step condense now d Go = Some d' ∧ condenser_inv condense now d' ∧
    ∀ ck, (counted ck d < 2 ^ 16)%Z → counted ck d' = counted ck d.
Proof using L.
  intros Hc Hinv Hle Hph. unfold condense_step. rewrite decide_False, Hph by lia. cbv zeta.
  eexists. split; [reflexivity|].
  pose proof (ci_phase _ _ _ Hinv) as Hp. unfold phase_ok in Hp. rewrite Hph in Hp. destruct Hp as (e & He & Hent & Hv).
  destruct (hc_get (cd_cache d) now (key lvl p)) eqn:Hg.
  - pose proof Hg as Hg'. rewrite hc_get_view in Hg'. destruct (hc_view (cd_cache d) (key lvl p)) as [[e' n]|] eqn:Hview; [|done].
    subst e'. destruct (hc_view_increment _ _ _ e n Hview Hg) as (c' & -> & Hc'). cbn [default]. unfold id.
    assert (∀ ck e' n', hc_view (cd_cache d) ck = Some (e', n') → ∃ n2, hc_view c' ck = Some (e', n2)) as Hkeep.
    { intros ck e' n' Hk. rewrite Hc'. case_decide; [subst ck; rewrite Hview in Hk; injection Hk as <- _; by eexists|by eexists]. }
    destruct Hinv as [Hn Ho Hl _ Hentd Ha Hs Hx]. rewrite app_nil_r. split.
    + split; cbn [cd_cache cd_out cd_lost cd_phase]; try done.
      * intros ck. specialize (Hn ck). unfold pending, hits_of in *. cbn [cd_cache]. rewrite Hc'. case_decide; [|done].
        apply Z.mod_pos_bound. lia.
      * intros ck e' n' Hk. rewrite Hc' in Hk. case_decide; [|by eapply Hentd]. subst ck. by injection Hk as <- _.
      * intros t lvl' p' [?|[n' Hn']]%Ha; [left; lia|right; by eapply Hkeep].
    + intros ck Hlt. unfold counted in *. rewrite Hph in *. cbn [cd_cache cd_out cd_lost cd_phase unfinished] in *.
      specialize (Hn ck). specialize (Ho ck). specialize (Hl ck). unfold pending, hits_of in *. cbn [cd_cache] in *. rewrite Hc'.
      destruct (decide (key lvl p = ck)) as [<-|Hk].
      * rewrite decide_True by done. rewrite Hview in Hn, Hlt |- *. rewrite Z.mod_small by lia. lia.
      * rewrite !decide_False by congruence. lia.
  - rewrite (hc_increment_None _ _ _ Hg). cbn [default]. unfold id. split.
    + apply (quiet_inv condense tl); [done..|]. intros x ->%list_elem_of_singleton. cbn [ls_hits ls_key ls_t0 ls_t].
      split; [done|]. exists e. split; [done|]. split; [done|].
      rewrite hc_get_view in Hg. destruct (hc_view _ _) as [[e' n]|]; [|lia]. subst e'. cbn [expired_at] in Hg.
      case_bool_decide; [done|by cbn in Hg].
    + intros ck _. unfold counted. rewrite Hph. unfold pending. cbn [cd_cache cd_out cd_lost cd_phase unfinished].
      rewrite lost_app. cbn [lost foldr ls_key ls_hits]. case_decide; lia.
Qed.

Lemma add_step condense tl now d lvl p t0 :
  (0 < condense)%Z → condenser_inv condense tl d → (tl ≤ now)%Z → cd_phase d = Found false lvl p t0 →
  ∃ d', step condense now d Go = Some d' ∧ condenser_inv condense now d' ∧ ∀ ck, counted ck d' = counted ck d.
Proof using L.
  intros Hc Hinv Hle Hph. unfold condense_step. rewrite decide_False, Hph by lia. cbv zeta.
  eexists. split; [reflexivity|].
  pose proof (ci_phase _ _ _ Hinv) as Hp. unfold phase_ok in Hp. rewrite Hph in Hp.
  assert (hc_get (cd_cache d) now (key lvl p) = false) as Hg.
  { rewrite hc_get_view. destruct (hc_view _ _) as [[e n]|]; [|done]. specialize (Hp e n eq_refl). cbn.
    by rewrite bool_decide_true by lia. }
  destruct (hc_view_add _ _ _ 0 condense Hg) as (c' & -> & Hc'). cbn [default]. unfold id.
  set (l := match hc_view _ _ with Some (_, n) => _ | None => _ end).
  destruct Hinv as [Hn Ho Hl _ Hentd Ha Hs Hx].
  assert (∀ t lvl' p', (t, Passed lvl' p') ∈ cd_out d → key lvl' p' = key lvl p → (t + condense < now)%Z) as Hold.
  { intros t lvl' p' [?|[n Hv]]%Ha Hk; [lia|]. rewrite Hk in Hv. apply Hp in Hv. lia. }
  assert (∀ o, o ∈ cd_out d → o ∈ (cd_out d ++ [(now, Passed lvl p)])%list) as Hmono.
  { intros o Hin. apply elem_of_app. by left. }
  assert (∀ ck, 0 ≤ lost ck l)%Z as Hlost.
  { intros ck. specialize (Hn (key lvl p)). unfold l, pending, hits_of in *. destruct (hc_view _ _) as [[e n]|]; cbn; [|done].
    case_decide; lia. }
  split.
  - split; cbn [cd_cache cd_out cd_lost cd_phase]; try done.
    + intros ck. specialize (Hn ck). unfold pending, hits_of in *. cbn [cd_cache]. rewrite Hc'. by case_decide.
    + intros ck. rewrite !total_app. specialize (Ho ck). cbn. case_decide; lia.
    + intros ck. rewrite lost_app. specialize (Hl ck). specialize (Hlost ck). lia.
    + intros ck e n Hk. rewrite Hc' in Hk. case_decide as Heq; [|by eapply entered_mono; [exact Hmono|eapply Hentd]].
      subst ck. injection Hk as <- _. exists lvl, p. split; [|done]. cbn [cd_out].
      replace (now + condense - condense)%Z with now by lia. apply elem_of_app. right. by apply list_elem_of_singleton.
    + intros t lvl' p' [Hin|[= -> -> ->]%list_elem_of_singleton]%elem_of_app.
      * destruct (decide (key lvl' p' = key lvl p)) as [Hk|Hk]; [left; by eapply Hold|].
        destruct (Ha _ _ _ Hin) as [?|[n Hv]]; [left; lia|right]. exists n. by rewrite Hc', decide_False.
      * right. exists 0%Z. by rewrite Hc', decide_True.
    + intros i j t1 t2 l1 l2 p1 p2 Hij Hi Hj Hk. apply lookup_app_Some in Hi as [Hi|[Hge Hi]].
      * apply lookup_app_Some in Hj as [Hj|[_ Hj]]; [by eapply Hs|].
        apply list_elem_of_lookup_2, list_elem_of_singleton in Hj as [= -> -> ->].
        apply list_elem_of_lookup_2 in Hi. by eapply Hold.
      * apply lookup_lt_Some in Hj. rewrite length_app in Hj. simpl in Hj. lia.
    + intros x [Hin|Hin]%elem_of_app.
      * destruct (Hx x Hin) as (e & Hent & Hlt). exists e. split; [by eapply entered_mono|done].
      * unfold l in Hin. destruct (hc_view (cd_cache d) (key lvl p)) as [[e n]|] eqn:Hv; [|by apply elem_of_nil in Hin].
        apply list_elem_of_singleton in Hin as ->. cbn [ls_key ls_t0 ls_t]. exists e. specialize (Hp e n eq_refl).
        split; [by eapply entered_mono; [exact Hmono|eapply Hentd]|lia].
  - intros ck. unfold counted. rewrite Hph. unfold pending, hits_of. cbn [cd_cache cd_out cd_lost cd_phase unfinished].
    rewrite lost_app, !total_app, Hc'. unfold l. destruct (decide (key lvl p = ck)) as [<-|Hk].
    + rewrite decide_True by done. cbn. rewrite decide_True by done.
      destruct (hc_view (cd_cache d) (key lvl p)) as [[e n]|]; cbn; rewrite ?decide_True by done; lia.
    + rewrite decide_False by done. cbn. rewrite decide_False by done.
      destruct (hc_view (cd_cache d) (key lvl p)) as [[e n]|]; cbn; rewrite ?decide_False by done; lia.
Qed.

(** *** Runs *)

Lemma new_inv condense tl : condenser_inv condense tl new_condenser.
Proof using L.
  split; cbn; try done.
  - intros ck. unfold pending, hits_of. cbn. by rewrite hc_view_new.
  - intros ck e n. by rewrite hc_view_new.
  - by intros t lvl p ?%elem_of_nil.
  - by intros x ?%elem_of_nil.
Qed.

Lemma condense_step_inv condense tl now d e d' :
  (0 < condense)%Z → condenser_inv condense tl d → (tl ≤ now)%Z → step condense now d e = Some d' →
  condenser_inv condense now d' ∧ ∀ ck, (counted ck d < 2 ^ 16)%Z → counted ck d' = (counted ck d + came1 ck e)%Z.
Proof using L.
  intros Hc Hinv Hle. destruct e as [lvl p| |].
  - unfold condense_step. rewrite decide_False by lia. destruct (cd_phase d) eqn:Hph; [|done..]. intros [= <-]. split.
    + apply (delete_inv condense tl); [done..|]. unfold phase_ok.
      assert (cd_phase (delete_expired now d (Deleted lvl p now)) = Deleted lvl p now) as ->
        by (unfold delete_expired; by destruct (hc_delete_expired _ _)).
      by intros e n [_ ?]%delete_view_Some.
    + intros ck _. rewrite delete_counted, Hph. cbn. lia.
  - destruct (cd_phase d) as [|lvl p t0|[|] lvl p t0] eqn:Hph.
    + unfold condense_step. rewrite decide_False, Hph by lia. done.
    + unfold condense_step. rewrite decide_False, Hph by lia. intros [= <-]. split; [by apply (get_inv condense tl)|].
      intros ck _. unfold counted, pending. rewrite Hph. cbn [cd_cache cd_out cd_lost cd_phase unfinished came1]. lia.
    + destruct (increment_step condense tl now d lvl p t0 Hc Hinv Hle Hph) as (d1 & -> & Hi & Hs). intros [= <-].
      split; [done|]. intros ck Hlt. rewrite Hs by done. cbn. lia.
    + destruct (add_step condense tl now d lvl p t0 Hc Hinv Hle Hph) as (d1 & -> & Hi & Hs). intros [= <-].
      split; [done|]. intros ck Hlt. rewrite Hs. cbn. lia.
  - unfold condense_step. rewrite decide_False by lia. intros [= <-]. split.
    + apply (delete_inv condense tl); [done..|]. by apply (janitor_phase condense tl).
    + intros ck _. rewrite delete_counted. cbn. lia.
Qed.

Lemma came1_bound ck e : (0 ≤ came1 ck e ≤ 1)%Z.
Proof using Type. unfold came1. destruct e; [case_decide|..]; lia. Qed.

Lemma condenser_run_inv condense tl d events d' :
  (0 < condense)%Z → condenser_inv condense tl d → StronglySorted Z.le (tl :: events.*1) →
  crun condense d events = Some d' →
  (∃ tl', condenser_inv condense tl' d') ∧
  ∀ ck, (counted ck d + Z.of_nat (length events) ≤ 2 ^ 16)%Z → counted ck d' = (counted ck d + came ck events)%Z.
Proof using L.
  intros Hc. revert tl d. induction events as [|[now e] events IH]; intros tl d Hinv Hs; cbn [condense_run].
  - intros [= <-]. split; [by exists tl|]. intros ck _. cbn. lia.
  - rewrite fmap_cons in Hs. cbn [fst] in Hs. apply StronglySorted_inv in Hs as [Hs Hall].
    apply Forall_cons in Hall as [Hle _]. destruct (step condense now d e) as [d1|] eqn:Hst; [|done]. cbn [mbind option_bind].
    destruct (condense_step_inv condense tl now d e d1 Hc Hinv Hle Hst) as [Hinv1 Hsum]. intros Hr.
    destruct (IH now d1 Hinv1 Hs Hr) as [Htl Hcame]. split; [done|]. intros ck Hlt. cbn [length] in Hlt.
    pose proof (came1_bound ck e). rewrite Hcame; rewrite (Hsum ck) by lia; [|lia]. cbn. unfold came. lia.
Qed.

(** The last of 2^16 hits of a key sets its counter back to 0, and nothing is reported. *)
Lemma hits_wrap condense now d lvl p t0 e :
  (0 < condense)%Z → (now ≤ e)%Z → cd_phase d = Found true lvl p t0 →
  hc_view (cd_cache d) (key lvl p) = Some (e, 2 ^ 16 - 1)%Z →
  ∃ d', step condense now d Go = Some d' ∧ pending (key lvl p) d' = 0%Z ∧ cd_out d' = cd_out d ∧ cd_lost d' = cd_lost d.
Proof using L.
  intros Hc Hnow Hph Hview. unfold condense_step. rewrite decide_False, Hph by lia. cbv zeta. eexists. split; [reflexivity|].
  assert (hc_get (cd_cache d) now (key lvl p) = true) as Hg.
  { rewrite hc_get_view, Hview. cbn [expired_at]. by rewrite bool_decide_false by lia. }
  destruct (hc_view_increment _ _ _ _ _ Hview Hg) as (c' & -> & Hc'). unfold pending, hits_of. cbn.
  rewrite Hc', decide_True, app_nil_r by done. done.
Qed.
End condenser_lemmas.

(** *** The ring *)

Definition kept (lb : LogBuffer) (ws : list written) : list written := filter (λ w, (lb_Level lb ≤ w.1)%Z) ws.

(** The ring holds the last records at its end. *)
Definition holds (lb : LogBuffer) (l : list written) : Prop :=
  ring_once lb = (replicate (Z.to_nat (lb_Size lb) - length l) None ++ (Some <$> drop (length l - Z.to_nat (lb_Size lb)) l))%list.

Lemma holds_length lb l : holds lb l → length (ring_once lb) = Z.to_nat (lb_Size lb).
Proof. intros ->. rewrite length_app, length_replicate, length_fmap, length_drop. lia. Qed.

Lemma LogBuffer_WriteLevel_holds lb l w :
  (0 < lb_Size lb)%Z → holds lb l →
  ∃ lb', LogBuffer_WriteLevel lb w = Ret lb' ∧ lb_Size lb' = lb_Size lb ∧ lb_Level lb' = lb_Level lb ∧
         holds lb' (l ++ kept lb [w]).
Proof.
  intros Hpos Hl. unfold LogBuffer_WriteLevel.
  pose proof (holds_length _ _ Hl) as Hlen. case_decide as Hw.
  - assert (kept lb [w] = [w]) as -> by (unfold kept; by rewrite filter_cons_True).
    destruct (ring_once lb) as [|x rest] eqn:Hr; [simpl in Hlen; lia|]. eexists. split; [reflexivity|].
    split; [done|]. split; [done|]. unfold holds in *. cbn [ring_once lb_ring lb_Size default]. unfold id.
    rewrite Hr in Hl. rewrite length_app. cbn [length].
    destruct (decide (length l < Z.to_nat (lb_Size lb))) as [Hlt|Hge].
    + replace (Z.to_nat (lb_Size lb) - length l) with (S (Z.to_nat (lb_Size lb) - (length l + 1))) in Hl by lia.
      cbn [replicate app] in Hl. injection Hl as _ ->.
      replace (length l - Z.to_nat (lb_Size lb)) with 0 by lia.
      replace (length l + 1 - Z.to_nat (lb_Size lb)) with 0 by lia.
      rewrite !drop_0, fmap_app, app_assoc. done.
    + replace (Z.to_nat (lb_Size lb) - length l) with 0 in Hl by lia.
      replace (Z.to_nat (lb_Size lb) - (length l + 1)) with 0 by lia. cbn [replicate app] in *.
      replace (length l + 1 - Z.to_nat (lb_Size lb)) with (S (length l - Z.to_nat (lb_Size lb))) by lia.
      set (d := length l - Z.to_nat (lb_Size lb)) in *. rewrite drop_app_le, fmap_app by lia. f_equal.
      destruct (lookup_lt_is_Some_2 l d) as [y Hy]; [lia|]. rewrite (drop_S _ _ _ Hy) in Hl. by injection Hl.
  - assert (kept lb [w] = []) as -> by (unfold kept; by rewrite filter_cons_False).
    eexists. split; [reflexivity|]. split; [done|]. split; [done|]. unfold holds in *. by rewrite app_nil_r.
Qed.

Lemma write_all_holds lb l ws :
  (0 < lb_Size lb)%Z → holds lb l →
  ∃ lb', write_all lb ws = Ret lb' ∧ lb_Size lb' = lb_Size lb ∧ lb_Level lb' = lb_Level lb ∧
         holds lb' (l ++ kept lb ws).
Proof.
  revert lb l. induction ws as [|w ws IH]; intros lb l Hpos Hl.
  - exists lb. unfold kept. rewrite filter_nil, app_nil_r. done.
  - destruct (LogBuffer_WriteLevel_holds lb l w Hpos Hl) as (lb1 & H1 & Hs1 & Hl1 & Hh1).
    destruct (IH lb1 (l ++ kept lb [w])%list) as (lb2 & H2 & Hs2 & Hl2 & Hh2); [by rewrite Hs1|done|].
    exists lb2. cbn [write_all]. rewrite H1. cbn [mbind outcome_bind]. split_and!; [done|congruence|congruence|].
    unfold kept in *. rewrite Hl1 in Hh2. rewrite <-app_assoc in Hh2.
    rewrite <-filter_app in Hh2. done.
Qed.

Lemma Records_holds lb l : holds lb l → (Records lb).2 = drop (length l - Z.to_nat (lb_Size lb)) l.
Proof.
  intros Hl. cbn. rewrite Hl, omap_app.
  assert (∀ n, omap id (replicate n (None : option written)) = []) as -> by (induction n; done).
  cbn [app]. generalize (drop (length l - Z.to_nat (lb_Size lb)) l) as k. intros k. induction k as [|x k IH]; [done|].
  cbn. by f_equal.
Qed.

Lemma holds_new lb n : lb_ring lb = Some (new_ring n) → lb_Size lb = n → holds lb [].
Proof. intros Hr <-. unfold holds, ring_once. rewrite Hr. cbn. by rewrite Nat.sub_0_r, app_nil_r. Qed.

(** ** Properties *)

(** The writer that has the lock finishes, whatever the cache answers and whenever its
    operations come. *)
Lemma writer_finishes (CallerFieldName : string) {C : HitCache} (condense t0 t1 t2 : Z) (d : condenser) lvl p :
  (0 < condense)%Z → cd_phase d = Idle →
  ∃ d', condense_run CallerFieldName condense d [(t0, Write lvl p); (t1, Go); (t2, Go)] = Some d' ∧ cd_phase d' = Idle.
Proof.
  intros Hc Hph. cbn [condense_run]. unfold condense_step. destruct (decide (condense ≤ 0)%Z); [lia|]. rewrite Hph. cbn [mbind option_bind].
  unfold delete_expired. destruct (hc_delete_expired _ _) as [c evicted]. cbn [cd_phase cd_cache mbind option_bind].
  destruct (hc_get c t1 _); by eexists.
Qed.

(** C37: Every record that came is accounted for, in any interleaving of the writers with
    the cache's janitor, with the clock read anew at each operation on the cache: as long
    as fewer than 2^16 events come, the records of a key that came are those that passed,
    those a report of an eviction counts, those still pending in the cache, the one being
    written, and those lost.  Records are lost, uncounted, in one case only: the key, which
    was entered when a record of it passed, expires after the [DeleteExpired] of a write
    and before the [Increment] or [Add] of the same write.  Of one key, which is the level
    and the caller, two records pass only when more than the condensing time is between
    their entries into the cache, however many came. *)
Theorem condenser_accounts (CallerFieldName : string) {C : HitCache} {L : HitCacheLaws C}
    (condense : Z) (events : list (Z * event)) (d : condenser) :
  (0 < condense)%Z → StronglySorted Z.le events.*1 →
  condense_run CallerFieldName condense new_condenser events = Some d →
  (∀ ck, (Z.of_nat (length events) < 2 ^ 16)%Z →
     came CallerFieldName ck events =
     total (passed1 CallerFieldName ck) (cd_out d) + total (reported1 ck) (cd_out d) + pending ck d +
     unfinished CallerFieldName ck (cd_phase d) + lost ck (cd_lost d))%Z ∧
  (∀ x, x ∈ cd_lost d →
     ∃ t lvl p, (t, Passed lvl p) ∈ cd_out d ∧ condense_key CallerFieldName lvl p = ls_key x ∧
       (ls_t0 x ≤ t + condense < ls_t x)%Z) ∧
  (∀ i j t1 t2 l1 l2 p1 p2, i < j → cd_out d !! i = Some (t1, Passed l1 p1) → cd_out d !! j = Some (t2, Passed l2 p2) →
     condense_key CallerFieldName l1 p1 = condense_key CallerFieldName l2 p2 → (t1 + condense < t2)%Z).
Proof.
  intros Hc Hs Hr. set (tl := default 0%Z (head events.*1)).
  assert (StronglySorted Z.le (tl :: events.*1)) as Htl.
  { unfold tl. destruct events.*1 as [|t ts]; [by repeat constructor|]. cbn. constructor; [done|].
    apply StronglySorted_inv in Hs as [_ Hall]. constructor; [done|exact Hall]. }
  destruct (condenser_run_inv CallerFieldName condense tl _ _ _ Hc (new_inv _ condense tl) Htl Hr) as [[tl' Hinv] Hcame]. split_and!.
  - intros ck Hlen. specialize (Hcame ck). unfold counted at 1 3, pending at 1 2, hits_of in Hcame.
    cbn in Hcame. rewrite hc_view_new in Hcame. unfold counted in Hcame. lia.
  - intros x (e & (lvl & p & Hin & Hk) & Hle)%(ci_lost _ _ _ _ Hinv). exists (e - condense)%Z, lvl, p. split; [done|]. split; [done|lia].
  - apply (ci_apart _ _ _ _ Hinv).
Qed.

(** The ring of a buffer of a size: a new one holds nothing. *)
Lemma Resize_holds lb n : holds (Resize lb n) [].
Proof. by apply (holds_new _ n). Qed.

Lemma kept_kept lb ws : kept lb (kept lb ws) = kept lb ws.
Proof. unfold kept. rewrite list_filter_filter. apply list_filter_iff. intros w. naive_solver. Qed.

Lemma kept_drop lb d ws : kept lb (drop d (kept lb ws)) = drop d (kept lb ws).
Proof.
  assert (∀ l : list written, Forall (λ w, (lb_Level lb ≤ w.1)%Z) l → kept lb l = l) as Hall.
  { induction 1 as [|w l Hw _ IH]; [done|]. unfold kept. rewrite filter_cons_True by done. f_equal. exact IH. }
  apply Hall, Forall_drop, Forall_forall. intros w [? _]%list_elem_of_filter. done.
Qed.

(** An option that is not [WithLastErrors] leaves the buffer alone. *)
Definition resizes (o : Option) : bool := match o with WithLastErrors _ => true | _ => false end.

Lemma apply_options_buffer opts l :
  Forall (λ o, resizes o = false) opts → lg_errBuffer (foldl apply_option l opts) = lg_errBuffer l.
Proof. intros Ho. revert l. induction Ho as [|o opts Ho _ IH]; intros l; [done|]. cbn. rewrite IH. by destruct o. Qed.

(** The last errors survive a reconfiguration: a buffer that took records, was set to
    a size by [NewLoggerWriter] and took more holds the last of those that were left
    and of the new ones, none lost or doubled and in their order. *)
Theorem last_errors_kept (l : logger) (lb : LogBuffer) (ws1 ws2 : list written) (n : Z) (opts : list Option) :
  holds lb [] → (0 < lb_Size lb)%Z → (0 < n)%Z → Forall (λ o, resizes o = false) opts →
  ∃ lb1 l' lb2, write_all lb ws1 = Ret lb1 ∧
    NewLoggerWriter (with_buffer l lb1) (WithLastErrors n :: opts) = Ret l' ∧
    write_all (lg_errBuffer l') ws2 = Ret lb2 ∧
    let left_ := drop (length (kept lb ws1) - Z.to_nat (lb_Size lb)) (kept lb ws1) in
    (Records lb2).2 = drop (length (left_ ++ kept lb ws2) - Z.to_nat n) (left_ ++ kept lb ws2)%list.
Proof.
  intros Hh Hpos Hn Hopts.
  destruct (write_all_holds lb [] ws1 Hpos Hh) as (lb1 & H1 & Hs1 & Hl1 & Hh1). cbn [app] in Hh1.
  set (old := drop (length (kept lb ws1) - Z.to_nat (lb_Size lb)) (kept lb ws1)).
  assert ((Records lb1).2 = old) as Hold by (rewrite (Records_holds lb1 _ Hh1), Hs1; done).
  set (lb0 := Resize (mkLogBuffer (Some (ring_once lb1)) (lb_Level lb1) (lb_Size lb1)) n).
  assert (∀ ws, kept lb0 ws = kept lb ws) as Hkept by (intros ws; unfold kept, lb0; cbn; by rewrite Hl1).
  destruct (write_all_holds lb0 [] old Hn (Resize_holds _ _)) as (lb2 & H2 & Hs2 & Hl2 & Hh2).
  cbn [app] in Hh2. rewrite Hkept in Hh2. unfold old in Hh2. rewrite kept_drop in Hh2. fold old in Hh2.
  assert (∃ l', NewLoggerWriter (with_buffer l lb1) (WithLastErrors n :: opts) = Ret l' ∧ lg_errBuffer l' = lb2)
    as (l' & Hl' & Hbuf).
  { unfold NewLoggerWriter. destruct (Records _) as [lb' rs] eqn:Hr.
    assert (rs = old ∧ lb' = mkLogBuffer (Some (ring_once lb1)) (lb_Level lb1) (lb_Size lb1)) as [-> ->].
    { cbn in Hr. unfold Records in Hr, Hold. cbn [snd] in Hold. by injection Hr as <- <-. }
    cbn [foldl]. rewrite (apply_options_buffer opts _ Hopts). cbn [apply_option lg_errBuffer with_buffer].
    fold lb0. rewrite H2. cbn [mbind outcome_bind]. destruct (lg_file _); eexists; done. }
  destruct (write_all_holds lb2 old ws2) as (lb3 & H3 & Hs3 & Hl3 & Hh3); [by rewrite Hs2|done|].
  exists lb1, l', lb3. rewrite Hbuf. split_and!; [done|done|done|]. cbn zeta. fold old.
  rewrite (Records_holds lb3 _ Hh3), Hs3, Hs2. cbn [lb0 lb_Size Resize].
  assert (kept lb2 ws2 = kept lb ws2) as ->; [|done]. unfold kept. rewrite Hl2. cbn. by rewrite Hl1.
Qed.

(** The handler lets a record through exactly when the level it gives it passes. *)
Lemma Enabled_slog_level GlobalLevel level : Enabled GlobalLevel level = bool_decide (GlobalLevel ≤ slog_level level)%Z.
Proof. unfold Enabled, slog_level. by repeat case_decide. Qed.

(** ** Witnesses *)

(** The cache as a map of all keys. *)
#[local] Instance map_hit_cache : HitCache := {|
  hcache := gmap string (Z * Z);
  hc_new := ∅;
  hc_view c k := c !! k;
  hc_get c t k := match c !! k with Some (e, _) => negb (bool_decide (e < t)%Z) | None => false end;
  hc_increment c t k :=
    match c !! k with
    | Some (e, n) => if decide (e < t)%Z then None else Some (<[k := (e, (n + 1) `mod` 2 ^ 16)%Z]> c)
    | None => None
    end;
  hc_add c t k v d :=
    match c !! k with
    | Some (e, _) => if decide (e < t)%Z then Some (<[k := (t + d, v)%Z]> c) else None
    | None => Some (<[k := (t + d, v)%Z]> c)
    end;
  hc_delete_expired c t :=
    (filter (λ kv : string * (Z * Z), ¬ (kv.2.1 < t)%Z) c,
     (λ kv : string * (Z * Z), (kv.1, kv.2.2)) <$> map_to_list (filter (λ kv : string * (Z * Z), (kv.2.1 < t)%Z) c));
|}.

Lemma lookup_insert_if (c : gmap string (Z * Z)) k x k' : <[k := x]> c !! k' = if decide (k' = k) then Some x else c !! k'.
Proof. case_decide; [subst; apply lookup_insert_eq|by apply lookup_insert_ne]. Qed.

#[local] Instance map_hit_cache_laws : HitCacheLaws map_hit_cache.
Proof.
  split; cbn.
  - intros k. apply lookup_empty.
  - intros c t k. by destruct (c !! k) as [[e n]|].
  - intros c t k. destruct (c !! k) as [[e n]|]; [|done]. case_bool_decide; [by rewrite decide_True|done].
  - intros c t k e n -> Hg. case_bool_decide; [done|]. rewrite decide_False by done. eexists. split; [done|].
    intros k'. apply lookup_insert_if.
  - intros c t k v d. destruct (c !! k) as [[e n]|]; [|done]. case_bool_decide; [done|by rewrite decide_False].
  - intros c t k v d Hg. eexists. split; [|intros k'; apply lookup_insert_if].
    destruct (c !! k) as [[e n]|]; [|done]. case_bool_decide; [by rewrite decide_True|done].
  - intros c t k. rewrite map_lookup_filter. destruct (c !! k) as [[e n]|]; [|done]. cbn.
    case_bool_decide as He; [by rewrite option_guard_False by auto|by rewrite option_guard_True].
  - intros c t k n. rewrite list_elem_of_fmap. split.
    + intros ([k' [e n']] & [= -> ->] & Hin%elem_of_map_to_list). apply map_lookup_filter_Some in Hin as [? ?]. by exists e.
    + intros (e & Hv & He). exists (k, (e, n)). split; [done|]. apply elem_of_map_to_list, map_lookup_filter_Some. done.
  - intros c t. rewrite <-list_fmap_compose. apply NoDup_fst_map_to_list.
Qed.

Definition call_line (line : string) : string :=
  String quote_byte ("caller" +:+ String quote_byte (":" +:+ String quote_byte (line +:+ String quote_byte ""))).

(** The events of one record whose operations are at three times. *)
Definition writes (t0 t1 t2 : Z) (line : string) : list (Z * event) :=
  [(t0, Write ErrorLevel (call_line line)); (t1, Go); (t2, Go)].

(** A record passes, another of its key is counted; a third is found at the last moment of
    the key, which expires before the count is increased; the janitor reports one. *)
Definition some_writes : list (Z * event) :=
  (writes 0 0 0 "a.go:1" ++ writes 3 3 3 "a.go:1" ++ writes 4 4 5 "b.go:7" ++ writes 9 10 11 "a.go:1" ++ [(20%Z, Janitor)])%list.

Definition a_key : string := condense_key "caller" ErrorLevel (call_line "a.go:1").

(** What a run has written, what it has lost, and what is still counted of a key. *)
Definition summary (r : option condenser) (ck : string) : option (list (Z * output) * list loss * Z) :=
  (λ d, (cd_out d, cd_lost d, pending ck d)) <$> r.

Lemma some_writes_run :
  summary (condense_run "caller" 10 new_condenser some_writes) a_key =
  Some ([(0, Passed ErrorLevel (call_line "a.go:1")); (5, Passed ErrorLevel (call_line "b.go:7"));
         (20, Evicted a_key 1); (20, Evicted (condense_key "caller" ErrorLevel (call_line "b.go:7")) 0)],
        [mkLoss a_key 1 9 11], 0)%Z.
Proof. vm_compute. reflexivity. Qed.

Lemma condenser_accounts_witness :
  ∃ d, condense_run "caller" 10 new_condenser some_writes = Some d ∧
  came "caller" a_key some_writes = 3%Z ∧
  (total (passed1 "caller" a_key) (cd_out d) + total (reported1 a_key) (cd_out d) + pending a_key d +
   unfinished "caller" a_key (cd_phase d) + lost a_key (cd_lost d) = 3)%Z.
Proof.
  destruct (proj1 (fmap_Some _ _ _) some_writes_run) as (d & Hr & _).
  exists d. split; [exact Hr|]. assert (came "caller" a_key some_writes = 3%Z) as H3 by (vm_compute; reflexivity).
  split; [exact H3|]. rewrite <-H3. symmetry.
  refine (proj1 (condenser_accounts "caller" 10 some_writes d eq_refl _ Hr) a_key _); [|vm_compute; reflexivity].
  unfold some_writes, writes. cbn. repeat constructor; lia.
Defined.

Definition error_buffer (n : Z) : LogBuffer := mkLogBuffer None ErrorLevel n.

Lemma last_errors_kept_witness :
  ∃ lb1 l' lb2, write_all (error_buffer 2) [(ErrorLevel, "a"); (InfoLevel, "b"); (ErrorLevel, "c"); (ErrorLevel, "d")] = Ret lb1 ∧
    NewLoggerWriter (with_buffer (mkLogger (error_buffer 2) InfoLevel None 0 true "" None) lb1)
      [WithLastErrors 3; WithLevel WarnLevel] = Ret l' ∧
    write_all (lg_errBuffer l') [(ErrorLevel, "e"); (ErrorLevel, "f")] = Ret lb2 ∧
    (Records lb2).2 = [(ErrorLevel, "d"); (ErrorLevel, "e"); (ErrorLevel, "f")].
Proof.
  destruct (last_errors_kept (mkLogger (error_buffer 2) InfoLevel None 0 true "" None) (error_buffer 2)
    [(ErrorLevel, "a"); (InfoLevel, "b"); (ErrorLevel, "c"); (ErrorLevel, "d")]
    [(ErrorLevel, "e"); (ErrorLevel, "f")] 3 [WithLevel WarnLevel]) as (lb1 & l' & lb2 & H1 & H2 & H3 & H4);
    [reflexivity|done|done|by repeat constructor|].
  exists lb1, l', lb2. split; [exact H1|]. split; [exact H2|]. split; [exact H3|]. rewrite H4. vm_compute. reflexivity.
Defined.

(** Without [WithLastErrors] a reconfiguration doubles the buffered errors. *)
Lemma errors_doubled :
  ∃ lb1 l', write_all (error_buffer 10) [(ErrorLevel, "a")] = Ret lb1 ∧
    NewLoggerWriter (mkLogger lb1 InfoLevel None 0 true "" None) [] = Ret l' ∧
    (Records (lg_errBuffer l')).2 = [(ErrorLevel, "a"); (ErrorLevel, "a")].
Proof. do 2 eexists. split; [vm_compute; reflexivity|]. split; vm_compute; reflexivity. Qed.

(** A buffer of no place panics on its first error. *)
Lemma no_place_panics w : (ErrorLevel ≤ w.1)%Z → is_panic (LogBuffer_WriteLevel (Resize (error_buffer 10) 0) w) = true.
Proof. intros Hw. unfold LogBuffer_WriteLevel. cbn. by rewrite decide_True. Qed.

(** A log file of an earlier configuration stays an output. *)
Lemma log_file_stays :
  ∃ l1 l2, NewLoggerWriter (mkLogger (error_buffer 10) InfoLevel None 0 true "" None) [WithLastErrors 10; WithLogFile "tcg.log"] = Ret l1 ∧
    NewLoggerWriter l1 [WithLastErrors 10] = Ret l2 ∧ lg_file l2 = None ∧ lg_out_file l2 = Some "tcg.log".
Proof. do 2 eexists. split; [vm_compute; reflexivity|]. split; [vm_compute; reflexivity|done]. Qed.
