(* ===== verification/LogFile.v ===== *)
(** logzer/logfile.go: the log file with its rotation.

    A file system is a map of paths to contents; an environment says which calls of
    the system succeed.  Other programs that move or remove the files while they are
    open are not modelled. *)

From Stdlib Require Import DecimalString.
From S2P Require Import Prelude.
From S2P Require Import GoString.

Local Open Scope string_scope.
Local Open Scope nat_scope.

Abbreviation files := (gmap string string).

(** ** The file *)

(** [lf_file] is nil, or a handle on the file at the path: open, or closed. *)
Record LogFile := mkLogFile {
  lf_file : option bool;
  lf_fileSize : Z;
  lf_FilePath : string;
  lf_MaxSize : Z;
  lf_Rotate : Z;
}.

(** The answers of the system to the calls of one [Write], by their number: whether
    a file opens, whether it has a size, and how many bytes are written before a
    failure, if it fails. *)
Record file_env := mkFileEnv {
  fe_open : nat → bool;
  fe_stat : nat → bool;
  fe_write : nat → option nat;
}.

Definition with_file (f : LogFile) (file : option bool) (size : Z) : LogFile :=
  mkLogFile file size (lf_FilePath f) (lf_MaxSize f) (lf_Rotate f).

(** [os.Rename] of two different paths, whose error is ignored. *)
Definition rename (a b : string) (fs : files) : files :=
  match fs !! a with Some c => <[b := c]> (delete a fs) | None => fs end.

Definition rotated (filename : string) (i : Z) : string := filename +:+ "." +:+ FormatInt i.

(** [open] *)
Definition open (e : file_env) (i : nat) (fs : files) (f : LogFile) : files * LogFile :=
  if fe_open e i then
    let content := default "" (fs !! lf_FilePath f) in
    (<[lf_FilePath f := content]> fs,
     with_file f (Some true) (if fe_stat e i then slen content else lf_fileSize f))
  else (fs, with_file f (match lf_file f with Some _ => Some false | None => None end) (lf_fileSize f)).

(** The renaming loop of [rotate], from the number [n] down. *)
Fixpoint shift (filename : string) (n : nat) (fs : files) : files :=
  match n with
  | O => fs
  | S i => shift filename i (rename (rotated filename (Z.of_nat i)) (rotated filename (Z.of_nat (S i))) fs)
  end.

(** [rotate] *)
Definition rotate (e : file_env) (fs : files) (f : LogFile) : files * LogFile :=
  let filename := lf_FilePath f in
  let fs := if decide (lf_Rotate f = 0)%Z then delete filename fs
            else rename filename (rotated filename 1) (shift filename (Z.to_nat (lf_Rotate f)) fs) in
  open e 1 fs (with_file f (Some false) (lf_fileSize f)).

(** [file.Write] of a handle, which fails when it is nil or closed. *)
Definition file_write (e : file_env) (i : nat) (fs : files) (f : LogFile) (p : string) : files * bool :=
  match lf_file f with
  | Some true =>
      let content := default "" (fs !! lf_FilePath f) in
      match fe_write e i with
      | None => (<[lf_FilePath f := content +:+ p]> fs, true)
      | Some n => (<[lf_FilePath f := content +:+ str_take n p]> fs, false)
      end
  | _ => (fs, false)
  end.

(** [Write]: whether the record was written. *)
Definition Write (e : file_env) (fs : files) (f : LogFile) (p : string) : files * LogFile * bool :=
  let '(fs, f) := match lf_file f with None => open e 0 fs f | Some _ => (fs, f) end in
  let '(fs, f) :=
    match lf_file f with
    | Some _ =>
        if decide (0 < lf_MaxSize f ∧ lf_MaxSize f < int64 (lf_fileSize f + slen p))%Z then rotate e fs f else (fs, f)
    | None => (fs, f)
    end in
  let '(fs, ok) := file_write e 0 fs f p in
  let '(fs, f, ok) :=
    if (ok : bool) then (fs, f, true)
    else let '(fs, f) := open e 2 fs f in let '(fs, ok) := file_write e 1 fs f p in (fs, f, ok) in
  (fs, if (ok : bool) then with_file f (lf_file f) (int64 (lf_fileSize f + slen p)) else f, ok).

(** [Close], which leaves the handle closed. *)
Definition Close (f : LogFile) : LogFile :=
  match lf_file f with None => f | Some _ => with_file f (Some false) (lf_fileSize f) end.

(** Writes one after another. *)
Fixpoint Writes (es : nat → file_env) (i : nat) (fs : files) (f : LogFile) (ps : list string) : files * LogFile * list bool :=
  match ps with
  | [] => (fs, f, [])
  | p :: ps =>
      let '(fs, f, ok) := Write (es i) fs f p in let '(fs, f, oks) := Writes es (S i) fs f ps in (fs, f, ok :: oks)
  end.

(** ** Lemmas *)

(** *** Names *)

(** The places of a log: the file, and its rotations. *)
Definition slot (path : string) (k : nat) : string := match k with O => path | S _ => rotated path (Z.of_nat k) end.

Lemma rotated_ne path i : rotated path i ≠ path.
Proof.
  intros Heq. apply (f_equal String.length) in Heq. unfold rotated in Heq. rewrite length_str_app in Heq. simpl in Heq. lia.
Qed.

Lemma rotated_inj path i j : rotated path i = rotated path j → i = j.
Proof. intros Heq. apply str_app_inj_l in Heq. injection Heq as Heq. by apply FormatInt_inj. Qed.

Lemma slot_inj path j k : slot path j = slot path k → j = k.
Proof.
  destruct j as [|j], k as [|k]; cbn [slot]; [done| | |].
  - intros Heq. symmetry in Heq. by apply rotated_ne in Heq.
  - intros Heq. by apply rotated_ne in Heq.
  - intros ?%rotated_inj; lia.
Qed.

(** *** The shift of the places *)

Fixpoint shift_slots (path : string) (n : nat) (fs : files) : files :=
  match n with O => fs | S i => shift_slots path i (rename (slot path i) (slot path (S i)) fs) end.

Lemma rename_ne a b c fs : a ≠ c → b ≠ c → rename a b fs !! c = fs !! c.
Proof. intros Ha Hb. unfold rename. destruct (fs !! a); [|done]. by rewrite lookup_insert_ne, lookup_delete_ne. Qed.

Lemma rename_src a b fs : a ≠ b → rename a b fs !! a = None.
Proof. intros Hab. unfold rename. destruct (fs !! a) eqn:Ha; [|done]. by rewrite lookup_insert_ne, lookup_delete_eq. Qed.

Lemma rename_dst a b fs : rename a b fs !! b = match fs !! a with Some c => Some c | None => fs !! b end.
Proof. unfold rename. destruct (fs !! a); [|done]. by rewrite lookup_insert_eq. Qed.

Lemma rename_missing a b fs : fs !! a = None → rename a b fs = fs.
Proof. unfold rename. by intros ->. Qed.

(** What the loop and the last renaming do, when there is no rotation of number 0. *)
Lemma shift_as_slots path n fs :
  0 < n → fs !! rotated path 0 = None → rename path (rotated path 1) (shift path n fs) = shift_slots path n fs.
Proof.
  induction n as [|n IH] in fs |- *; [lia|]. intros _ H0. cbn [shift shift_slots].
  destruct (decide (n = 0)) as [->|Hn].
  - cbn [shift shift_slots]. by rewrite (rename_missing _ _ _ H0).
  - destruct n as [|n]; [done|]. apply IH; [lia|]. rewrite rename_ne; [done| |]; intros Heq; apply rotated_inj in Heq; lia.
Qed.

Lemma shift_slots_lookup path n fs k :
  shift_slots path n fs !! slot path k =
  if decide (n < k) then fs !! slot path k
  else match k with
       | O => if decide (n = 0) then fs !! slot path 0 else None
       | S j => match fs !! slot path j with
                | Some c => Some c
                | None => if decide (n = k) then fs !! slot path k else None
                end
       end.
Proof.
  revert fs k. induction n as [|n IH]; intros fs k; cbn [shift_slots].
  { destruct k as [|k]; [done|]. by rewrite decide_True by lia. }
  assert (∀ i j, i ≠ j → slot path i ≠ slot path j) as Hne by (intros i j Hij Heq; by apply slot_inj in Heq).
  rewrite IH. destruct (decide (n < k)) as [Hlt|Hge].
  - destruct (decide (S n < k)) as [Hlt'|Hge'].
    + rewrite rename_ne by (apply Hne; lia). done.
    + assert (k = S n) as -> by lia. rewrite rename_dst. destruct (fs !! slot path n); [done|].
      by rewrite decide_True.
  - rewrite (decide_False (P := S n < k)) by lia. destruct k as [|k].
    + rewrite (decide_False (P := S n = 0)) by lia. case_decide as Hn; [|done]. subst n. apply rename_src, Hne. lia.
    + rewrite (rename_ne _ _ (slot path k)) by (apply Hne; lia).
      destruct (fs !! slot path k); [done|]. rewrite (decide_False (P := S n = S k)) by lia.
      destruct (decide (n = S k)) as [->|]; [|done]. apply rename_src, Hne. lia.
Qed.

Lemma shift_slots_other path n fs q : (∀ k, slot path k ≠ q) → shift_slots path n fs !! q = fs !! q.
Proof. revert fs. induction n as [|n IH]; intros fs Hq; [done|]. cbn. rewrite IH by done. apply rename_ne; [apply (Hq n)|apply (Hq (S n))]. Qed.

(** *** The sequence of files *)

Definition text_of (l : list string) : string := foldr String.append "" l.

Lemma text_of_app l k : text_of (l ++ k) = text_of l +:+ text_of k.
Proof. induction l as [|p l IH]; [done|]. unfold text_of in *. cbn [app foldr]. by rewrite IH, str_app_assoc. Qed.

(** A log that keeps every file it ever began, the newest first, each a list of records:
    a file is begun when the next record would make the newest one too large. *)
Definition log_write (MaxSize : Z) (segs : list (list string)) (p : string) : list (list string) :=
  match segs with
  | [] => [[p]]
  | cur :: old =>
      if decide (0 < MaxSize ∧ MaxSize < slen (text_of cur) + slen p)%Z then [p] :: cur :: old
      else (cur ++ [p])%list :: old
  end.

(** Its records, the oldest first. *)
Definition records (segs : list (list string)) : list string := concat (rev segs).

Lemma records_cons cur old : records (cur :: old) = (records old ++ cur)%list.
Proof. unfold records. cbn [rev]. by rewrite concat_app; cbn; rewrite app_nil_r. Qed.

Lemma log_write_records M segs p : records (log_write M segs p) = (records segs ++ [p])%list.
Proof.
  destruct segs as [|cur old]; [done|]. cbn [log_write]. case_decide; rewrite !records_cons; [done|].
  by rewrite app_assoc.
Qed.

Definition content (path : string) (fs : files) (k : nat) : string := default "" (fs !! slot path k).

(** A file of a log is not too large, or a single record. *)
Definition small_file (MaxSize : Z) (l : list string) : Prop :=
  (0 < MaxSize)%Z → (slen (text_of l) ≤ MaxSize)%Z ∨ ∃ p, l = [p].

(** The files of a log of at most [R] rotations are the newest of a sequence. *)
Record log_files (fs : files) (f : LogFile) (R : nat) (cur : list string) (old : list (list string)) : Prop := {
  lg_rotate : lf_Rotate f = Z.of_nat R;
  lg_no_zero : fs !! rotated (lf_FilePath f) 0 = None;
  lg_text : content (lf_FilePath f) fs 0 = text_of cur;
  lg_rotated k : k < R → fs !! slot (lf_FilePath f) (S k) = text_of <$> old !! k;
  lg_size : lf_file f = Some true → lf_fileSize f = slen (content (lf_FilePath f) fs 0) ∧ is_Some (fs !! lf_FilePath f);
  lg_handle : lf_file f ≠ Some false;
}.

(** An environment without failures. *)
Definition all_well : file_env := mkFileEnv (λ _, true) (λ _, true) (λ _, None).

Lemma slen_nonneg s : (0 ≤ slen s)%Z.
Proof. unfold slen. lia. Qed.

Lemma open_well fs f i :
  open all_well i fs f =
  (<[lf_FilePath f := content (lf_FilePath f) fs 0]> fs,
   with_file f (Some true) (slen (content (lf_FilePath f) fs 0))).
Proof. done. Qed.

Lemma slot_S_ne path k : path ≠ slot path (S k).
Proof. intros Heq. symmetry in Heq. by apply rotated_ne in Heq. Qed.

Lemma rotated_0_ne path : path ≠ rotated path 0.
Proof. intros Heq. symmetry in Heq. by apply rotated_ne in Heq. Qed.

Lemma content_0_insert path fs c : content path (<[path := c]> fs) 0 = c.
Proof. unfold content. cbn [slot]. by rewrite lookup_insert_eq. Qed.

(** The log is open after [open], whatever it was. *)
Lemma opened_log fs f f0 R cur old :
  lf_FilePath f = lf_FilePath f0 → lf_Rotate f = lf_Rotate f0 → lf_MaxSize f = lf_MaxSize f0 →
  lf_Rotate f0 = Z.of_nat R → fs !! rotated (lf_FilePath f0) 0 = None → content (lf_FilePath f0) fs 0 = text_of cur →
  (∀ k, k < R → fs !! slot (lf_FilePath f0) (S k) = text_of <$> old !! k) → ∀ i,
  ∃ fs' f', open all_well i fs f = (fs', f') ∧ lf_file f' = Some true ∧ lf_FilePath f' = lf_FilePath f0 ∧
    lf_MaxSize f' = lf_MaxSize f0 ∧ log_files fs' f' R cur old.
Proof.
  intros Hp HR HM H1 H2 H3 H4 i. eexists _, _. split; [apply open_well|]. cbn [with_file lf_file lf_FilePath lf_MaxSize].
  rewrite Hp. split_and!; [done..|]. split; cbn [with_file lf_file lf_FilePath lf_MaxSize lf_Rotate lf_fileSize].
  - congruence.
  - rewrite Hp, lookup_insert_ne by apply rotated_0_ne. done.
  - rewrite Hp. by rewrite content_0_insert.
  - intros k Hk. rewrite Hp, lookup_insert_ne by apply slot_S_ne. by apply H4.
  - intros _. rewrite Hp, content_0_insert, lookup_insert_eq. split; [done|by eexists].
  - done.
Qed.

(** Opening the log changes nothing of it. *)
Lemma open_log fs f R cur old :
  log_files fs f R cur old →
  ∃ fs' f', (match lf_file f with None => open all_well 0 fs f | Some _ => (fs, f) end) = (fs', f') ∧
    lf_file f' = Some true ∧ lf_FilePath f' = lf_FilePath f ∧ lf_MaxSize f' = lf_MaxSize f ∧ log_files fs' f' R cur old.
Proof.
  intros H. destruct (lf_file f) as [[]|] eqn:Hf.
  - by exists fs, f.
  - by destruct (lg_handle _ _ _ _ _ H).
  - destruct H as [H1 H2 H3 H4 _ _]. by apply opened_log.
Qed.

(** A rotation moves every file to the next place; only the one at the last place goes. *)
Lemma rotate_log fs f R cur old :
  log_files fs f R cur old → lf_file f = Some true →
  ∃ fs' f', rotate all_well fs f = (fs', f') ∧ lf_file f' = Some true ∧ lf_FilePath f' = lf_FilePath f ∧
    lf_MaxSize f' = lf_MaxSize f ∧ log_files fs' f' R [] (cur :: old).
Proof.
  intros [H1 H2 H3 H4 H5 _] Hf. destruct (H5 Hf) as [_ Hp]. unfold rotate. rewrite H1. cbv zeta.
  assert (fs !! slot (lf_FilePath f) 0 = Some (text_of cur)) as Hcur.
  { destruct Hp as [c Hc]. unfold content in H3. cbn [slot] in *. rewrite Hc in *. cbn in H3. by subst c. }
  destruct (decide (Z.of_nat R = 0)%Z) as [HR|HR].
  - apply (opened_log _ _ f); try done.
    + by rewrite lookup_delete_ne by apply rotated_0_ne.
    + unfold content. cbn [slot]. by rewrite lookup_delete_eq.
    + intros k Hk. lia.
  - rewrite Nat2Z.id, shift_as_slots by (done || lia).
    apply (opened_log _ _ f); try done.
    + rewrite shift_slots_other; [done|]. intros [|k] Heq; [by apply rotated_0_ne in Heq|].
      cbn [slot] in Heq. apply rotated_inj in Heq. lia.
    + unfold content. rewrite shift_slots_lookup. rewrite !decide_False by lia. done.
    + intros k Hk. rewrite shift_slots_lookup, decide_False by lia. destruct k as [|k]; [by rewrite Hcur|].
      rewrite H4 by lia. cbn [lookup list_lookup]. destruct (old !! k) as [l|] eqn:Hl; [done|]. cbn [fmap option_fmap option_map].
      case_decide; [|done]. rewrite lookup_ge_None in Hl. subst R. destruct (decide (S k < S (S k))); [|lia].
      pose proof (H4 (S k) ltac:(lia)) as Hk'. rewrite Hk'. by rewrite (proj2 (lookup_ge_None old (S k))) by lia.
Qed.

Lemma append_log fs f R cur old p :
  log_files fs f R cur old → lf_file f = Some true → (slen (text_of cur) + slen p < 2 ^ 63)%Z →
  ∃ fs', file_write all_well 0 fs f p = (fs', true) ∧
    log_files fs' (with_file f (lf_file f) (int64 (lf_fileSize f + slen p))) R (cur ++ [p]) old.
Proof.
  intros [H1 H2 H3 H4 H5 _] Hf Hlt. destruct (H5 Hf) as [Hsz Hp]. rewrite H3 in Hsz.
  unfold file_write. rewrite Hf. cbn [fe_write all_well]. eexists. split; [reflexivity|].
  change (default "" (fs !! lf_FilePath f)) with (content (lf_FilePath f) fs 0). rewrite H3.
  assert (text_of cur +:+ p = text_of (cur ++ [p])) as Ht.
  { rewrite text_of_app. cbn. by rewrite str_app_nil_r. }
  split; cbn [lf_file lf_FilePath lf_MaxSize with_file lf_Rotate lf_fileSize].
  - done.
  - by rewrite lookup_insert_ne by apply rotated_0_ne.
  - by rewrite content_0_insert.
  - intros k Hk. rewrite lookup_insert_ne by apply slot_S_ne. by apply H4.
  - intros _. rewrite content_0_insert, lookup_insert_eq, Hsz, slen_app. split; [|by eexists].
    apply int64_id. unfold in_int64. pose proof (slen_nonneg (text_of cur)). pose proof (slen_nonneg p). lia.
  - done.
Qed.

(** A write in an environment without failures. *)
Lemma Write_log fs f R cur old p :
  log_files fs f R cur old → (slen (text_of cur) + slen p < 2 ^ 63)%Z →
  ∃ fs' f' cur' old', Write all_well fs f p = (fs', f', true) ∧ lf_FilePath f' = lf_FilePath f ∧
    lf_MaxSize f' = lf_MaxSize f ∧ log_write (lf_MaxSize f) (cur :: old) p = cur' :: old' ∧ log_files fs' f' R cur' old'.
Proof.
  intros Hlog Hlt. unfold Write. destruct (open_log fs f R cur old Hlog) as (fs1 & f1 & -> & Hf1 & Hp1 & HM1 & Hlog1).
  rewrite Hf1. pose proof (lg_size _ _ _ _ _ Hlog1 Hf1) as [Hsz _]. rewrite (lg_text _ _ _ _ _ Hlog1) in Hsz.
  pose proof (slen_nonneg (text_of cur)). pose proof (slen_nonneg p).
  rewrite Hsz, int64_id, HM1 by (unfold in_int64; lia). cbn [log_write]. case_decide as Hrot.
  - destruct (rotate_log fs1 f1 R cur old Hlog1 Hf1) as (fs2 & f2 & -> & Hf2 & Hp2 & HM2 & Hlog2).
    destruct (append_log fs2 f2 R [] (cur :: old) p Hlog2 Hf2) as (fs3 & Hw & Hlog3); [cbn; unfold slen at 1; simpl; lia|].
    rewrite Hw. eexists _, _, [p], (cur :: old). split; [done|]. cbn [lf_FilePath lf_MaxSize with_file].
    split_and!; [congruence|congruence|done|done].
  - destruct (append_log fs1 f1 R cur old p Hlog1 Hf1 Hlt) as (fs3 & Hw & Hlog3).
    rewrite Hw. eexists _, _, (cur ++ [p])%list, old. split; [done|]. cbn [lf_FilePath lf_MaxSize with_file].
    split_and!; [congruence|congruence|done|done].
Qed.

Lemma log_write_small M cur old p :
  Forall (small_file M) (cur :: old) → Forall (small_file M) (log_write M (cur :: old) p).
Proof.
  intros [Hc Ho]%Forall_cons. cbn [log_write]. destruct (decide _) as [Hd|Hd]; repeat (apply Forall_cons; split); try done.
  - intros _. right. by exists p.
  - intros HM. left. rewrite text_of_app, slen_app. cbn. rewrite str_app_nil_r. lia.
Qed.

Lemma log_write_all_small M segs ps :
  Forall (small_file M) segs → Forall (small_file M) (foldl (log_write M) segs ps).
Proof.
  revert segs. induction ps as [|p ps IH]; intros segs Hs; [done|]. cbn [foldl]. apply IH.
  destruct segs; [|by apply log_write_small]. cbn. apply Forall_cons. split; [|done]. intros _. right. by exists p.
Qed.

Lemma log_write_all_records M segs ps : records (foldl (log_write M) segs ps) = (records segs ++ ps)%list.
Proof.
  revert segs. induction ps as [|p ps IH]; intros segs; cbn [foldl]; [by rewrite app_nil_r|].
  by rewrite IH, log_write_records, <-app_assoc.
Qed.

Lemma text_of_log_write M cur old p cur' old' :
  log_write M (cur :: old) p = cur' :: old' → (slen (text_of cur') ≤ slen (text_of cur) + slen p)%Z.
Proof.
  pose proof (slen_nonneg (text_of cur)). cbn [log_write]. case_decide; intros [= <- _].
  - cbn. rewrite str_app_nil_r. lia.
  - rewrite text_of_app, slen_app. cbn. rewrite str_app_nil_r. lia.
Qed.

Lemma Writes_log fs f R cur old ps i :
  log_files fs f R cur old → (slen (text_of cur) + slen (text_of ps) < 2 ^ 63)%Z →
  ∃ fs' f' cur' old', Writes (λ _, all_well) i fs f ps = (fs', f', replicate (length ps) true) ∧
    lf_FilePath f' = lf_FilePath f ∧ foldl (log_write (lf_MaxSize f)) (cur :: old) ps = cur' :: old' ∧
    log_files fs' f' R cur' old'.
Proof.
  revert fs f cur old i. induction ps as [|p ps IH]; intros fs f cur old i Hlog Hlt; [by exists fs, f, cur, old|].
  cbn [text_of foldr] in Hlt. fold (text_of ps) in Hlt. rewrite slen_app in Hlt. pose proof (slen_nonneg (text_of ps)).
  destruct (Write_log fs f R cur old p Hlog) as (fs1 & f1 & cur1 & old1 & Hw & Hp1 & HM1 & Hl1 & Hlog1); [lia|].
  pose proof (text_of_log_write _ _ _ _ _ _ Hl1).
  destruct (IH fs1 f1 cur1 old1 (S i) Hlog1) as (fs2 & f2 & cur2 & old2 & Hws & Hp2 & Hl2 & Hlog2); [lia|].
  exists fs2, f2, cur2, old2. cbn [Writes length replicate foldl]. rewrite Hw, Hws, Hl1, <-HM1. split_and!; [done|congruence|done|done].
Qed.

(** ** Properties *)

(** C38: The log keeps the newest files of what is written.  Against a log that keeps every
    file it ever began, beginning one exactly when the next record would make the newest
    file larger than the maximal size: while no call of the system fails, every record is
    written, and the log and its [R] rotations are, file by file and byte by byte, the
    newest [R] + 1 files of that log, so that only its whole oldest files are lost.  No
    file is larger than the maximal size unless it is a single record.  The rotations there
    were before have no gap. *)
Theorem Writes_keep (fs : files) (f : LogFile) (R : nat) (cur : list string) (old : list (list string)) (ps : list string) (i : nat) :
  log_files fs f R cur old → (slen (text_of cur) + slen (text_of ps) < 2 ^ 63)%Z →
  let all := foldl (log_write (lf_MaxSize f)) (cur :: old) ps in
  records all = (records (cur :: old) ++ ps)%list ∧
  (Forall (small_file (lf_MaxSize f)) (cur :: old) → Forall (small_file (lf_MaxSize f)) all) ∧
  ∃ fs' f', Writes (λ _, all_well) i fs f ps = (fs', f', replicate (length ps) true) ∧
    ∀ k, k ≤ R → content (lf_FilePath f) fs' k = text_of (default [] (all !! k)).
Proof.
  intros Hlog Hlt all. split; [apply log_write_all_records|]. split; [apply log_write_all_small|].
  destruct (Writes_log fs f R cur old ps i Hlog Hlt) as (fs' & f' & cur' & old' & Hw & Hp & Hall & Hlog').
  exists fs', f'. split; [done|]. intros k Hk. unfold all. rewrite Hall, <-Hp. destruct k as [|k].
  - apply (lg_text _ _ _ _ _ Hlog').
  - unfold content. rewrite (lg_rotated _ _ _ _ _ Hlog') by lia. cbn [lookup list_lookup]. by destruct (old' !! k).
Qed.

(** ** Witnesses *)

Definition small_log : LogFile := mkLogFile None 0 "tcg.log" 8 2.

Lemma Writes_keep_witness :
  log_files ∅ small_log 2 [] [] ∧
  ∃ fs' f', Writes (λ _, all_well) 0 ∅ small_log ["one,"; "two,"; "three,"; "four,"; "five,"; "six,"] =
      (fs', f', replicate 6 true) ∧
    map (content "tcg.log" fs') [2; 1; 0] = ["four,"; "five,"; "six,"].
Proof.
  assert (log_files ∅ small_log 2 [] []) as H by (by split).
  split; [exact H|].
  destruct (Writes_keep ∅ small_log 2 [] [] ["one,"; "two,"; "three,"; "four,"; "five,"; "six,"] 0 H)
    as (_ & _ & fs' & f' & H1 & H2); [vm_compute; reflexivity|].
  exists fs', f'. split; [exact H1|]. change "tcg.log" with (lf_FilePath small_log). cbn [map]. rewrite (H2 2), (H2 1), (H2 0) by lia. vm_compute. reflexivity.
Defined.

(** While the log cannot be opened again every write rotates once more: old records
    go although nothing new is written. *)
Definition no_open : file_env := mkFileEnv (λ _, false) (λ _, false) (λ _, None).

Lemma failing_open_loses :
  let fs : files := {["tcg.log" := "new,new,"; "tcg.log.1" := "old,"; "tcg.log.2" := "older,"]} in
  let '(fs', _, oks) := Writes (λ _, no_open) 0 fs (mkLogFile (Some true) 8 "tcg.log" 8 2) ["a"; "b"] in
  oks = [false; false] ∧ map (content "tcg.log" fs') [2; 1; 0] = ["new,new,"; ""; ""].
Proof. vm_compute. done. Qed.
