(* ===== verification/Gotocjson.v ===== *)
(** gotocjson/gotocjson.go: the command line, and the constants of a Go file: the
    evaluation of numeric expressions and of const blocks.

    The syntax tree is what the parser of Go's library hands over; an identifier is
    resolved by name among the objects of the file.  The recursion through
    identifiers has fuel, and running out of it stands for an overflow of the
    stack. *)

From S2P Require Import Prelude.
From S2P Require Import GoString.
From S2P Require Import GoFloat.
From S2P Require Import FloatText.

Local Open Scope string_scope.
Local Open Scope Z_scope.

(** ** The command line *)

Record flags := mkFlags {
  bad_args : bool;
  exit_early : bool;
  print_help : bool;
  print_version : bool;
  print_diagnostics : bool;
  generate_generic_datatypes : bool;
  input_filepath : string;
  output_directory : string;
}.

Definition no_flags : flags := mkFlags false false false false false false "" "".

Definition usage_error (f : flags) : flags :=
  mkFlags true true true (print_version f) (print_diagnostics f) (generate_generic_datatypes f)
    (input_filepath f) (output_directory f).

Section parse_args.
(** [filepath.Dir] *)
Context (Dir : string → string).

(** The loop of [parse_args]. *)
Fixpoint parse_args (f : flags) (cmd_args : list string) : flags :=
  let help := mkFlags (bad_args f) true true (print_version f) (print_diagnostics f) (generate_generic_datatypes f)
                (input_filepath f) (output_directory f) in
  match cmd_args with
  | [] => help
  | a :: rest =>
      if decide (a = "-h" ∨ a = "--help") then help
      else if decide (a = "--version") then
        mkFlags (bad_args f) true (print_help f) true (print_diagnostics f) (generate_generic_datatypes f)
          (input_filepath f) (output_directory f)
      else if decide (a = "-d") then
        parse_args (mkFlags (bad_args f) (exit_early f) (print_help f) (print_version f) true
                      (generate_generic_datatypes f) (input_filepath f) (output_directory f)) rest
      else if decide (a = "-g") then
        parse_args (mkFlags (bad_args f) (exit_early f) (print_help f) (print_version f) (print_diagnostics f)
                      true (input_filepath f) (output_directory f)) rest
      else if decide (a = "-o") then
        match rest with
        | d :: rest =>
            let f := mkFlags (bad_args f) (exit_early f) (print_help f) (print_version f) (print_diagnostics f)
                       (generate_generic_datatypes f) (input_filepath f) d in
            if decide (d = "") then usage_error f else parse_args f rest
        | [] => usage_error f
        end
      else match rest with
      | [] =>
          let f' := mkFlags (bad_args f) (exit_early f) (print_help f) (print_version f) (print_diagnostics f)
                      (generate_generic_datatypes f) a (output_directory f) in
          if decide (a = "") then usage_error f'
          else mkFlags (bad_args f) (exit_early f) (print_help f) (print_version f) (print_diagnostics f)
                 (generate_generic_datatypes f) a (if decide (output_directory f = "") then Dir a else output_directory f)
      | _ :: _ => usage_error f
      end
  end.

(** The exit code of [main] before any file is read, if it exits there. *)
Definition early_exit (f : flags) : option Z :=
  if exit_early f then Some (if bad_args f then 1 else 0) else None.
End parse_args.

(** ** Numbers *)

Definition digit_of (c : ascii) : option Z :=
  let n := Z.of_nat (nat_of_ascii c) in
  let l := Z.of_nat (nat_of_ascii (lower c)) in
  if decide (48 ≤ n ≤ 57) then Some (n - 48)
  else if decide (97 ≤ l ≤ 122) then Some (l - 97 + 10) else None.

(** The digits of [strconv.ParseUint(s, 0, 64)]: the number and whether there were
    underscores; a number too large is [2^64 - 1] with a range error. *)
Fixpoint parse_digits (base n : Z) (underscores : bool) (s : string) : Z * bool * option num_error :=
  match s with
  | "" => (n, underscores, None)
  | String c s =>
      if decide (c = "_"%char) then parse_digits base n true s
      else match digit_of c with
      | None => (0, underscores, Some ErrSyntax)
      | Some d =>
          if decide (base ≤ d) then (0, underscores, Some ErrSyntax)
          else if decide (2 ^ 64 ≤ n * base + d) then (2 ^ 64 - 1, underscores, Some ErrRange)
          else parse_digits base (n * base + d) underscores s
      end
  end.

(** The base of a literal and its digits. *)
Definition split_base (s : string) : Z * string :=
  match s with
  | String z rest =>
      if decide (z = "0"%char) then
        match rest with
        | String c (String _ _ as digits) =>
            if decide (lower c = "b"%char) then (2, digits)
            else if decide (lower c = "o"%char) then (8, digits)
            else if decide (lower c = "x"%char) then (16, digits)
            else (8, rest)
        | _ => (8, rest)
        end
      else (10, s)
  | "" => (10, s)
  end.

Definition ParseUint0 (s : string) : Z * option num_error :=
  match s with
  | "" => (0, Some ErrSyntax)
  | _ =>
      let '(base, digits) := split_base s in
      let '(n, underscores, err) := parse_digits base 0 false digits in
      match err with
      | Some e => (n, Some e)
      | None => if (underscores : bool) && negb (underscoreOK s) then (0, Some ErrSyntax) else (n, None)
      end
  end.

(** [strconv.ParseInt(s, 0, 64)]: its value and its error. *)
Definition ParseInt0 (s : string) : Z * option num_error :=
  match s with
  | "" => (0, Some ErrSyntax)
  | _ =>
      let '(neg, body) := split_sign s in
      match ParseUint0 body with
      | (_, Some ErrSyntax) => (0, Some ErrSyntax)
      | (un, err) =>
          if negb neg && bool_decide (2 ^ 63 ≤ un) then (2 ^ 63 - 1, Some ErrRange)
          else if (neg : bool) && bool_decide (2 ^ 63 < un) then (- 2 ^ 63, Some ErrRange)
          else ((if neg then - un else un), err)
      end
  end.

(** ** The syntax tree *)

Inductive lit_kind := INT | FLOAT | IMAG | CHAR | STRING.

Inductive token := ADD | SUB | MUL | QUO | REM | AND | OR | XOR | SHL | SHR | AND_NOT | OtherToken (text : string).

Inductive expr :=
| Ident (Name : string)
| BasicLit (Kind : lit_kind) (Value : string)
| BinaryExpr (X : expr) (Op : token) (Y : expr)
| UnaryExpr (Op : token) (X : expr)
| ParenExpr (X : expr)
| StarExpr (X : expr)
| ArrayType (Len : option expr) (Elt : expr)
| MapType (Key Value : expr)
| SelectorExpr (X : expr) (Sel : option string)
| InterfaceType
| OtherExpr (type : string).

(** The object of an identifier: the specification that declares it, with its
    values, or something else. *)
Inductive object := ValueSpecObj (Values : list expr) | OtherObj.

Record ValueSpec := mkValueSpec {
  vs_Type : option expr;
  vs_Names : list string;
  vs_Values : list expr;
}.

(** ** Evaluation *)

(** [*iota] and [precomputed_const_values]. *)
Record eval_state := mkEvalState { es_iota : Z; es_values : gmap string Z }.

Definition token_text (op : token) : string :=
  match op with
  | ADD => "+" | SUB => "-" | MUL => "*" | QUO => "/" | REM => "%" | AND => "&" | OR => "|" | XOR => "^"
  | SHL => "<<" | SHR => ">>" | AND_NOT => "&^" | OtherToken t => t
  end.
Definition kind_text (k : lit_kind) : string :=
  match k with INT => "INT" | FLOAT => "FLOAT" | IMAG => "IMAG" | CHAR => "CHAR" | STRING => "STRING" end.
Definition type_text (e : expr) : string :=
  match e with
  | Ident _ => "*ast.Ident" | BasicLit _ _ => "*ast.BasicLit" | BinaryExpr _ _ _ => "*ast.BinaryExpr"
  | UnaryExpr _ _ => "*ast.UnaryExpr" | ParenExpr _ => "*ast.ParenExpr" | StarExpr _ => "*ast.StarExpr"
  | ArrayType _ _ => "*ast.ArrayType" | MapType _ _ => "*ast.MapType" | SelectorExpr _ _ => "*ast.SelectorExpr"
  | InterfaceType => "*ast.InterfaceType" | OtherExpr t => t
  end.

(** [unsupported] *)
Definition unsupported (what : string) : result string Z := Fail (what +:+ " is unsupported").

Definition negative_shift : string := "negative shift amount".

(** The operators on int64. *)
Definition binary_op (op : token) (x y : Z) : outcome (result string Z) :=
  match op with
  | ADD => Ret (Val (int64 (x + y)))
  | SUB => Ret (Val (int64 (x - y)))
  | MUL => Ret (Val (int64 (x * y)))
  | QUO => q ← go_quot x y; Ret (Val (int64 q))
  | REM => if decide (y = 0) then Panic "integer divide by zero" else Ret (Val (Z.rem x y))
  | AND => Ret (Val (Z.land x y))
  | OR => Ret (Val (Z.lor x y))
  | XOR => Ret (Val (Z.lxor x y))
  | SHL => if decide (y < 0) then Panic negative_shift
           else Ret (Val (if decide (64 ≤ y) then 0 else int64 (Z.shiftl x y)))
  | SHR => if decide (y < 0) then Panic negative_shift else Ret (Val (Z.shiftr x (Z.min y 64)))
  | AND_NOT => Ret (Val (Z.land x (Z.lnot y)))
  | OtherToken t => Ret (unsupported t)
  end.

Definition unary_op (op : token) (x : Z) : result string Z :=
  match op with
  | ADD => Val x
  | SUB => Val (int64 (- x))
  | XOR => Val (Z.lnot x)
  | _ => unsupported (token_text op)
  end.

Section eval.
(** What the conversion of a float that does not fit gives, and the objects. *)
Context (float_overflow : float64 → Z) (objects : gmap string object).

(** [int64(f)] of a float. *)
Definition float_int64 (x : float64) : Z :=
  match f_trunc x with
  | Some z => if decide (- 2 ^ 63 ≤ z < 2 ^ 63) then z else float_overflow x
  | None => float_overflow x
  end.

(** A literal: errors of the conversion are ignored. *)
Definition eval_literal (k : lit_kind) (value : string) : result string Z :=
  match k with
  | INT => Val (ParseInt0 value).1
  | FLOAT =>
      Val (float_int64 (match ParseFloat value with Val x => x | Fail ErrSyntax => f_of_Z 0 | Fail ErrRange => S754_infinity false end))
  | _ => unsupported (kind_text k)
  end.

(** The first value of the specification that declares an identifier. *)
Definition declared (name : string) : outcome expr :=
  match objects !! name with
  | None => Panic "invalid memory address or nil pointer dereference"
  | Some OtherObj => Panic "interface conversion"
  | Some (ValueSpecObj []) => Panic "index out of range"
  | Some (ValueSpecObj (e :: _)) => Ret e
  end.

(** The value of an identifier is kept, or checked against the one kept. *)
Definition keep (name : string) (r : Z) (s : eval_state) : outcome (eval_state * result string Z) :=
  match es_values s !! name with
  | Some cvalue =>
      if decide (r = cvalue) then Ret (s, Val r)
      else Panic "recalculation of a numeric expression does not yield an identical result"
  | None => Ret (mkEvalState (es_iota s) (<[name := r]> (es_values s)), Val r)
  end.

(** [eval_numeric_expr] *)
Fixpoint eval_numeric_expr (fuel : nat) : expr → eval_state → outcome (eval_state * result string Z) :=
  fix go (tree : expr) (s : eval_state) : outcome (eval_state * result string Z) :=
    match tree with
    | Ident name =>
        if decide (name = "iota") then
          let i := int64 (es_iota s + 1) in Ret (mkEvalState i (es_values s), Val i)
        else
          e ← declared name;
          match fuel with
          | O => Panic "stack overflow"
          | S fuel =>
              '(s, r) ← eval_numeric_expr fuel e s;
              match r with Fail err => Ret (s, Fail err) | Val r => keep name r s end
          end
    | BasicLit k value => Ret (s, eval_literal k value)
    | BinaryExpr X op Y =>
        '(s, x) ← go X s;
        match x with
        | Fail err => Ret (s, Fail err)
        | Val x =>
            '(s, y) ← go Y s;
            match y with
            | Fail err => Ret (s, Fail err)
            | Val y => r ← binary_op op x y; Ret (s, r)
            end
        end
    | UnaryExpr op X =>
        '(s, x) ← go X s;
        Ret (s, match x with Fail err => Fail err | Val x => unary_op op x end)
    | ParenExpr X => go X s
    | _ => Ret (s, unsupported (type_text tree))
    end.

(** ** Const blocks *)

(** Where the value of a name without one of its own comes from. *)
Inductive value_source := NoSource | FromIota | FromConstant | FromExpression.

Record block_state := mkBlockState {
  bs_spec_type : string;
  bs_source : value_source;
  bs_previous_constant : string;
  bs_previous_expression : option expr;
  bs_eval : eval_state;
  bs_group : option string;
}.

Definition set_value (name : string) (v : Z) (s : eval_state) : eval_state :=
  mkEvalState (es_iota s) (<[name := v]> (es_values s)).

(** The next value of [iota], and the name that takes it. *)
Definition next_iota (name : string) (s : eval_state) : eval_state :=
  let i := int64 (es_iota s + 1) in mkEvalState i (<[name := i]> (es_values s)).

Definition default_type (t : string) (s : string) : string := if decide (s = "") then t else s.

(** An expression that is evaluated, with the message of its failure. *)
Definition block_expr (fuel : nat) (name : string) (e : expr) (failure : string) (s : eval_state) : outcome eval_state :=
  '(s, r) ← eval_numeric_expr fuel e s;
  match r with Fail _ => Panic failure | Val r => Ret (set_value name r s) end.

(** A name with a value of its own. *)
Definition name_value (fuel : nat) (name : string) (value : expr) (b : block_state) : outcome block_state :=
  match value with
  | Ident ref =>
      if decide (ref = "iota") then
        Ret (mkBlockState (bs_spec_type b) FromIota (bs_previous_constant b) (bs_previous_expression b)
               (next_iota name (bs_eval b)) (bs_group b))
      else match es_values (bs_eval b) !! ref with
      | Some cvalue =>
          Ret (mkBlockState (bs_spec_type b) FromConstant (FormatInt cvalue) (bs_previous_expression b)
                 (set_value name cvalue (bs_eval b)) (bs_group b))
      | None => Panic "unexpected reference to const name with no precomputed value"
      end
  | BasicLit INT text =>
      Ret (mkBlockState (default_type "const" (bs_spec_type b)) FromConstant text (bs_previous_expression b)
             (set_value name (ParseInt0 text).1 (bs_eval b)) (bs_group b))
  | BasicLit STRING text =>
      Ret (mkBlockState (default_type "string" (bs_spec_type b)) FromConstant text (bs_previous_expression b)
             (bs_eval b) (bs_group b))
  | BasicLit _ _ => Panic "unexpected const value BasicLit Kind"
  | BinaryExpr _ _ _ =>
      s ← block_expr fuel name value "cannot evaluate binary expression" (bs_eval b);
      Ret (mkBlockState (default_type "int64" (bs_spec_type b)) FromExpression (bs_previous_constant b) (Some value) s (bs_group b))
  | UnaryExpr _ _ =>
      s ← block_expr fuel name value "cannot evaluate unary expression" (bs_eval b);
      Ret (mkBlockState (default_type "int64" (bs_spec_type b)) FromExpression (bs_previous_constant b) (Some value) s (bs_group b))
  | _ => Panic "unexpected const value type"
  end.

Definition with_eval (b : block_state) (s : eval_state) : block_state :=
  mkBlockState (bs_spec_type b) (bs_source b) (bs_previous_constant b) (bs_previous_expression b) s (bs_group b).

(** A name without one. *)
Definition name_repeated (fuel : nat) (name : string) (b : block_state) : outcome block_state :=
  match bs_source b with
  | FromIota => Ret (with_eval b (next_iota name (bs_eval b)))
  | FromConstant => Ret (with_eval b (set_value name (ParseInt0 (bs_previous_constant b)).1 (bs_eval b)))
  | FromExpression =>
      e ← deref (bs_previous_expression b);
      s ← block_expr fuel name e "cannot evaluate previous expression" (bs_eval b); Ret (with_eval b s)
  | NoSource => Panic "found const element with no preceding value or expression"
  end.

(** The type of the block must stay the same once it is known. *)
Definition check_group (b : block_state) : outcome block_state :=
  let known := default "" (bs_group b) in
  if decide (known = "") then
    Ret (mkBlockState (bs_spec_type b) (bs_source b) (bs_previous_constant b) (bs_previous_expression b) (bs_eval b)
           (Some (bs_spec_type b)))
  else if decide (known = bs_spec_type b) then Ret b
  else Panic "found conflicting const types in a single const block".

Fixpoint spec_names (fuel : nat) (names : list string) (values : list expr) (b : block_state) : outcome block_state :=
  match names with
  | [] => Ret b
  | name :: names =>
      b ← match values with v :: _ => name_value fuel name v b | [] => name_repeated fuel name b end;
      b ← check_group b;
      spec_names fuel names (match values with _ :: vs => vs | [] => [] end) b
  end.

Definition const_spec (fuel : nat) (b : block_state) (spec : ValueSpec) : outcome block_state :=
  t ← match vs_Type spec with
      | None => Ret (bs_spec_type b)
      | Some (Ident t) => Ret t
      | Some _ => Panic "aborting due to previous errors"
      end;
  spec_names fuel (vs_Names spec) (vs_Values spec)
    (mkBlockState t (bs_source b) (bs_previous_constant b) (bs_previous_expression b) (bs_eval b) (bs_group b)).

Definition block_start (values : gmap string Z) : block_state :=
  mkBlockState "" NoSource "" None (mkEvalState (-1) values) None.

(** A const block: the values of the constants, and the type of the group, if it has
    names. *)
Definition const_block (fuel : nat) (values : gmap string Z) (specs : list ValueSpec)
  : outcome (gmap string Z * option string) :=
  b ← foldM (const_spec fuel) (block_start values) specs; Ret (es_values (bs_eval b), bs_group b).
End eval.

(** ** The meaning of constants *)

(** The operators of Go's constants, which are exact. *)
Definition exact_binary (op : token) (x y : Z) : option Z :=
  match op with
  | ADD => Some (x + y) | SUB => Some (x - y) | MUL => Some (x * y)
  | QUO => if decide (y = 0) then None else Some (Z.quot x y)
  | REM => if decide (y = 0) then None else Some (Z.rem x y)
  | AND => Some (Z.land x y) | OR => Some (Z.lor x y) | XOR => Some (Z.lxor x y)
  | SHL => if decide (0 ≤ y) then Some (Z.shiftl x y) else None
  | SHR => if decide (0 ≤ y) then Some (Z.shiftr x y) else None
  | AND_NOT => Some (Z.land x (Z.lnot y))
  | OtherToken _ => None
  end.

Definition exact_unary (op : token) (x : Z) : option Z :=
  match op with ADD => Some x | SUB => Some (- x) | XOR => Some (- x - 1) | _ => None end.

Definition fits (r : Z) : option Z := if decide (- 2 ^ 63 ≤ r < 2 ^ 63) then Some r else None.

(** The occurrences of [iota] in an expression. *)
Fixpoint iota_count (e : expr) : nat :=
  match e with
  | Ident n => if decide (n = "iota") then 1 else 0
  | BinaryExpr X _ Y => iota_count X + iota_count Y
  | UnaryExpr _ X | ParenExpr X => iota_count X
  | _ => 0
  end.

(** The value of an integer expression where [iota] is [i], if it and its parts fit
    64 bits and every name is a constant whose expression has no [iota]. *)
Fixpoint exact (objects : gmap string object) (fuel : nat) (i : Z) : expr → option Z :=
  fix go (e : expr) : option Z :=
    match e with
    | Ident n =>
        if decide (n = "iota") then Some i
        else match objects !! n with
        | Some (ValueSpecObj (e :: _)) =>
            match fuel with
            | S fuel => if decide (iota_count e = 0%nat) then exact objects fuel i e else None
            | O => None
            end
        | _ => None
        end
    | BasicLit INT v => match ParseInt0 v with (n, None) => Some n | _ => None end
    | BinaryExpr X op Y => x ← go X; y ← go Y; r ← exact_binary op x y; fits r
    | UnaryExpr op X => x ← go X; r ← exact_unary op x; fits r
    | ParenExpr X => go X
    | _ => None
    end.

(** ** Lemmas *)

Section eval_lemmas.
Context (float_overflow : float64 → Z) (objects : gmap string object).
#[local] Abbreviation eval := (eval_numeric_expr float_overflow objects).
#[local] Abbreviation exact := (exact objects).

Lemma exact_ident fuel i n :
  exact fuel i (Ident n) =
  if decide (n = "iota") then Some i
  else match objects !! n with
  | Some (ValueSpecObj (e :: _)) =>
      match fuel with S fuel => if decide (iota_count e = 0%nat) then exact fuel i e else None | O => None end
  | _ => None
  end.
Proof using Type. by destruct fuel. Qed.
Lemma exact_lit fuel i k v :
  exact fuel i (BasicLit k v) = match k with INT => match ParseInt0 v with (n, None) => Some n | _ => None end | _ => None end.
Proof using Type. by destruct fuel. Qed.
Lemma exact_bin fuel i X op Y :
  exact fuel i (BinaryExpr X op Y) = (x ← exact fuel i X; y ← exact fuel i Y; r ← exact_binary op x y; fits r).
Proof using Type. by destruct fuel. Qed.
Lemma exact_un fuel i op X : exact fuel i (UnaryExpr op X) = (x ← exact fuel i X; r ← exact_unary op x; fits r).
Proof using Type. by destruct fuel. Qed.
Lemma exact_paren fuel i X : exact fuel i (ParenExpr X) = exact fuel i X.
Proof using Type. by destruct fuel. Qed.

Lemma eval_ident fuel n s :
  eval fuel (Ident n) s =
  if decide (n = "iota") then let i := int64 (es_iota s + 1) in Ret (mkEvalState i (es_values s), Val i)
  else
    e ← declared objects n;
    match fuel with
    | O => Panic "stack overflow"
    | S fuel =>
        '(s, r) ← eval fuel e s;
        match r with Fail err => Ret (s, Fail err) | Val r => keep n r s end
    end.
Proof using Type. by destruct fuel. Qed.
Lemma eval_lit fuel k v s : eval fuel (BasicLit k v) s = Ret (s, eval_literal float_overflow k v).
Proof using Type. by destruct fuel. Qed.
Lemma eval_bin fuel X op Y s :
  eval fuel (BinaryExpr X op Y) s =
  ('(s, x) ← eval fuel X s;
   match x with
   | Fail err => Ret (s, Fail err)
   | Val x =>
       '(s, y) ← eval fuel Y s;
       match y with Fail err => Ret (s, Fail err) | Val y => r ← binary_op op x y; Ret (s, r) end
   end).
Proof using Type. by destruct fuel. Qed.
Lemma eval_un fuel op X s :
  eval fuel (UnaryExpr op X) s =
  ('(s, x) ← eval fuel X s; Ret (s, match x with Fail err => Fail err | Val x => unary_op op x end)).
Proof using Type. by destruct fuel. Qed.
Lemma eval_paren fuel X s : eval fuel (ParenExpr X) s = eval fuel X s.
Proof using Type. by destruct fuel. Qed.

(** An expression without [iota] has one value, whatever the fuel. *)
Lemma exact_unique fuel1 fuel2 i1 i2 e v1 v2 :
  iota_count e = 0%nat → exact fuel1 i1 e = Some v1 → exact fuel2 i2 e = Some v2 → v1 = v2.
Proof using Type.
  revert fuel2 i2 e v1 v2. induction (lt_wf fuel1) as [fuel1 _ IHf]. intros fuel2 i2 e.
  induction e as [n|k v|X IHX op Y IHY|op X IHX|X IHX| | | | | |]; intros v1 v2 Hc;
    rewrite ?exact_ident, ?exact_lit, ?exact_bin, ?exact_un, ?exact_paren; cbn [iota_count] in Hc;
    try (by destruct fuel1).
  - case_decide; [done|]. destruct (objects !! n) as [[[|e l]|]|]; try done.
    destruct fuel1 as [|fuel1], fuel2 as [|fuel2]; try done. case_decide as Hd; [|done].
    intros H1 H2. by eapply (IHf fuel1 ltac:(lia)).
  - intros H1 H2. congruence.
  - intros (x & Hx & (y & Hy & (r & Hr & Hf)%bind_Some)%bind_Some)%bind_Some
           (x' & Hx' & (y' & Hy' & (r' & Hr' & Hf')%bind_Some)%bind_Some)%bind_Some.
    assert (x = x') as <- by (eapply IHX; [lia|done..]). assert (y = y') as <- by (eapply IHY; [lia|done..]). congruence.
  - intros (x & Hx & (r & Hr & Hf)%bind_Some)%bind_Some (x' & Hx' & (r' & Hr' & Hf')%bind_Some)%bind_Some.
    assert (x = x') as <- by (eapply IHX; [lia|done..]). congruence.
  - by apply IHX.
Qed.

Lemma fits_Some r v : fits r = Some v → v = r ∧ in_int64 v.
Proof using Type. unfold fits. case_decide; [|done]. intros [= <-]. by split. Qed.

Lemma ParseInt0_range v n : ParseInt0 v = (n, None) → in_int64 n.
Proof using Type.
  unfold ParseInt0, in_int64. destruct v as [|c v]; [done|]. destruct (split_sign (String c v)) as [neg body].
  destruct (ParseUint0 body) as [un err] eqn:Hu.
  assert (0 ≤ un) as Hpos.
  { assert (∀ base s m u n' u' e, 0 ≤ base → 0 ≤ m → parse_digits base m u s = (n', u', e) → 0 ≤ n') as Hd.
    { intros base s. induction s as [|d s IH]; intros m u n' u' e Hb Hm; cbn [parse_digits]; [intros [= <- _ _]; done|].
      case_decide; [by apply IH|]. destruct (digit_of d) as [x|] eqn:Hx; [|intros [= <- _ _]; lia].
      case_decide; [intros [= <- _ _]; lia|]. case_decide; [intros [= <- _ _]; lia|]. apply IH; [done|].
      unfold digit_of in Hx. repeat case_decide; simplify_eq; nia. }
    unfold ParseUint0 in Hu. destruct body as [|b body]; [by injection Hu as <- _|].
    destruct (split_base (String b body)) as [base digits] eqn:Hs.
    assert (0 ≤ base) as Hbase.
    { unfold split_base in Hs. repeat case_match; simplify_eq; lia. }
    destruct (parse_digits base 0 false digits) as [[n' u'] e'] eqn:Hp. apply Hd in Hp; [|lia..].
    destruct e'; [by injection Hu as <- _|]. case_match; injection Hu as <- _; lia. }
  destruct err as [[]|]; try done;
    (destruct (negb neg && bool_decide (2 ^ 63 ≤ un)) eqn:H1; [done|]);
    (destruct (neg && bool_decide (2 ^ 63 < un)) eqn:H2; [done|]); intros [= <-].
  destruct neg; cbn in H1, H2; case_bool_decide; lia.
Qed.

Lemma exact_range fuel i e v : in_int64 i → exact fuel i e = Some v → in_int64 v.
Proof using Type.
  intros Hi. revert e v. induction (lt_wf fuel) as [fuel _ IHf]. intros e.
  induction e as [n|k v|X IHX op Y IHY|op X IHX|X IHX| | | | | |]; intros v1;
    rewrite ?exact_ident, ?exact_lit, ?exact_bin, ?exact_un, ?exact_paren; try (by destruct fuel).
  - case_decide; [by intros [= <-]|]. destruct (objects !! n) as [[[|e l]|]|]; try done.
    destruct fuel as [|fuel]; try done. case_decide as Hd; [|done]. apply IHf. lia.
  - destruct k; try done. destruct (ParseInt0 v) as [z []] eqn:Hp; intros [= <-]. by eapply ParseInt0_range.
  - by intros (x & _ & (y & _ & (r & _ & [_ Hr]%fits_Some)%bind_Some)%bind_Some)%bind_Some.
  - by intros (x & _ & (r & _ & [_ Hr]%fits_Some)%bind_Some)%bind_Some.
  - apply IHX.
Qed.

Lemma shiftr_min x y : in_int64 x → 0 ≤ y → Z.shiftr x (Z.min y 64) = Z.shiftr x y.
Proof using Type.
  intros Hx Hy. destruct (decide (y ≤ 64)) as [Hle|Hgt]; [by rewrite Z.min_l|]. rewrite Z.min_r by lia.
  unfold in_int64 in Hx. rewrite !Z.shiftr_div_pow2 by lia.
  assert (2 ^ 64 ≤ 2 ^ y) as Hpow by (apply Z.pow_le_mono_r; lia).
  destruct (decide (0 ≤ x)) as [H0|H0].
  - rewrite !Z.div_small by lia. done.
  - assert (∀ m, 2 ^ 64 ≤ m → x / m = -1) as Hm.
    { intros m Hm. symmetry. apply (Z.div_unique x m (-1) (x + m)); [left|]; lia. }
    rewrite !Hm by lia. done.
Qed.

Lemma shiftl_fits x y : 64 ≤ y → in_int64 (Z.shiftl x y) → x = 0.
Proof using Type.
  intros Hy. rewrite Z.shiftl_mul_pow2 by lia. unfold in_int64.
  assert (2 ^ 64 ≤ 2 ^ y) as Hpow by (apply Z.pow_le_mono_r; lia). intros H.
  destruct (decide (x = 0)) as [|Hx]; [done|]. nia.
Qed.

(** Where the exact operator fits, the operator of int64 gives it. *)
Lemma binary_op_exact op x y r :
  in_int64 x → in_int64 y → exact_binary op x y = Some r → in_int64 r → binary_op op x y = Ret (Val r).
Proof using Type.
  intros Hx Hy He Hr. destruct op; cbn in He |- *; simplify_eq; rewrite ?int64_id by done; try done.
  - case_decide; [done|]. simplify_eq. rewrite go_quot_nonzero by done. cbn. by rewrite int64_id.
  - case_decide; [done|]. by simplify_eq.
  - case_decide as Hp; [|done]. simplify_eq. rewrite decide_False by lia. case_decide as H64.
    + by rewrite (shiftl_fits x y H64 Hr), Z.shiftl_0_l.
    + by rewrite int64_id.
  - case_decide as Hp; [|done]. simplify_eq. rewrite decide_False by lia. by rewrite shiftr_min.
Qed.

Lemma unary_op_exact op x r : exact_unary op x = Some r → in_int64 r → unary_op op x = Val r.
Proof using Type.
  intros He Hr. destruct op; try done; cbn in He |- *; simplify_eq; try done.
  by rewrite int64_id.
Qed.

(** The kept values are those of their constants. *)
Definition consistent (values : gmap string Z) : Prop :=
  ∀ n c, values !! n = Some c → ∀ e l, objects !! n = Some (ValueSpecObj (e :: l)) → iota_count e = 0%nat →
    ∀ fuel i v, exact fuel i e = Some v → v = c.

(** What an evaluation adds: values of constants without [iota]. *)
Definition extends (values values' : gmap string Z) : Prop :=
  ∀ n, values' !! n = values !! n ∨
    values !! n = None ∧ ∃ e l, objects !! n = Some (ValueSpecObj (e :: l)) ∧ iota_count e = 0%nat.

Lemma values_extend_trans v1 v2 v3 : extends v1 v2 → extends v2 v3 → extends v1 v3.
Proof using Type. intros H1 H2 n. destruct (H1 n) as [E1|[E1 ?]], (H2 n) as [E2|[E2 ?]]; rewrite ?E1 in *; auto. Qed.

(** The evaluation of an expression with at most one [iota] is exact. *)
Lemma eval_exact fuel i e v s :
  exact fuel i e = Some v → (iota_count e ≤ 1)%nat → i = es_iota s + 1 → in_int64 i → consistent (es_values s) →
  ∃ s', eval fuel e s = Ret (s', Val v) ∧ es_iota s' = es_iota s + Z.of_nat (iota_count e) ∧
    consistent (es_values s') ∧ extends (es_values s) (es_values s').
Proof using Type.
  intros He Hc Hi Hr Hcons.
  assert (∀ fuel i e v s, exact fuel i e = Some v → (iota_count e ≤ 1)%nat → (iota_count e = 1%nat → i = es_iota s + 1) →
    in_int64 i → consistent (es_values s) →
    ∃ s', eval fuel e s = Ret (s', Val v) ∧ es_iota s' = es_iota s + Z.of_nat (iota_count e) ∧
      consistent (es_values s') ∧ extends (es_values s) (es_values s')) as Hgen; [|by apply (Hgen fuel i)].
  clear. intros fuel. induction (lt_wf fuel) as [fuel _ IHf]. intros i e.
  induction e as [n|k v|X IHX op Y IHY|op X IHX|X IHX| | | | | |]; intros v1 s He Hc Hi Hr Hcons;
    rewrite ?exact_ident, ?exact_lit, ?exact_bin, ?exact_un, ?exact_paren in He; try (by destruct fuel);
    rewrite ?eval_ident, ?eval_lit, ?eval_bin, ?eval_un, ?eval_paren; cbn [iota_count] in Hc, Hi |- *.
  - destruct (decide (n = "iota")) as [Hn|Hn].
    + injection He as <-. specialize (Hi eq_refl). rewrite <-Hi, int64_id by done. eexists. split; [done|]. cbn.
      split; [lia|]. split; [done|]. intros n'. by left.
    + unfold declared. destruct (objects !! n) as [[[|e l]|]|] eqn:Ho; try done. destruct fuel as [|fuel]; [done|].
      case_decide as H0; [|done]. cbn [mbind outcome_bind].
      destruct (IHf fuel ltac:(lia) i e v1 s He ltac:(lia) ltac:(lia) Hr Hcons) as (s1 & -> & Hs1 & Hc1 & He1).
      cbn [mbind outcome_bind]. unfold keep. destruct (es_values s1 !! n) as [c|] eqn:Hk.
      * assert (v1 = c) as <- by (by eapply Hc1). rewrite decide_True by done. exists s1. split_and!; [done|lia|done|done].
      * eexists. split; [done|]. cbn. split; [lia|]. split.
        -- intros n' c' Hn'. destruct (decide (n' = n)) as [->|Hne].
           ++ rewrite lookup_insert_eq in Hn'. injection Hn' as <-. intros e' l' Ho' H0' f' i' v' Hv'.
              rewrite Ho in Ho'. injection Ho' as <- <-. by eapply exact_unique.
           ++ rewrite lookup_insert_ne in Hn' by done. by eapply Hc1.
        -- eapply values_extend_trans; [exact He1|]. intros n'. destruct (decide (n' = n)) as [->|Hne].
           ++ right. split; [done|]. by exists e, l.
           ++ left. by rewrite lookup_insert_ne.
  - destruct k; try done. destruct (ParseInt0 v) as [z err] eqn:Hp. destruct err; [done|]. injection He as <-.
    exists s. cbn [eval_literal]. rewrite Hp. split_and!; [done|lia|done|by left].
  - apply bind_Some in He as (x & Hx & (y & Hy & (r & Hop & [-> Hfit]%fits_Some)%bind_Some)%bind_Some).
    destruct (IHX x s Hx ltac:(lia) ltac:(lia) Hr Hcons) as (s1 & -> & Hs1 & Hc1 & He1). cbn [mbind outcome_bind].
    destruct (IHY y s1 Hy ltac:(lia) ltac:(lia) Hr Hc1) as (s2 & -> & Hs2 & Hc2 & He2). cbn [mbind outcome_bind].
    rewrite (binary_op_exact op x y r); [| |  |done|done]; [|by eapply exact_range..]. cbn [mbind outcome_bind].
    exists s2. split_and!; [done|lia|done|by eapply values_extend_trans].
  - apply bind_Some in He as (x & Hx & (r & Hop & [-> Hfit]%fits_Some)%bind_Some).
    destruct (IHX x s Hx ltac:(lia) ltac:(lia) Hr Hcons) as (s1 & -> & Hs1 & Hc1 & He1). cbn [mbind outcome_bind].
    rewrite (unary_op_exact op x r) by done. exists s1. split_and!; [done|lia|done|done].
  - by apply IHX.
Qed.

(** *** Blocks that count with [iota] *)

(** A first value of a block that counts. *)
Definition counting (e : expr) : bool :=
  match e with
  | Ident n => bool_decide (n = "iota")
  | BinaryExpr _ _ _ | UnaryExpr _ _ => bool_decide (iota_count e = 1%nat)
  | _ => false
  end.

(** A name is not declared with an expression without [iota]. *)
Definition not_plain (n : string) : Prop :=
  ∀ e l, objects !! n = Some (ValueSpecObj (e :: l)) → iota_count e ≠ 0%nat.

Lemma counting_count e : counting e = true → iota_count e = 1%nat.
Proof using Type. destruct e; cbn; try done; intros H%bool_decide_eq_true; [by rewrite decide_True|done|done]. Qed.

Lemma consistent_insert values n v : consistent values → not_plain n → consistent (<[n := v]> values).
Proof using Type.
  intros Hc Hn m c Hm. destruct (decide (m = n)) as [->|Hne].
  - intros e l Ho H0. by destruct (Hn _ _ Ho).
  - rewrite lookup_insert_ne in Hm by done. by apply Hc.
Qed.

(** What one more name does to the values: it takes the next one. *)
Definition takes (n : string) (v : Z) (s s' : eval_state) : Prop :=
  es_iota s' = es_iota s + 1 ∧ es_values s' !! n = Some v ∧ consistent (es_values s') ∧
  ∀ m c, m ≠ n → es_values s !! m = Some c → es_values s' !! m = Some c.

Lemma block_expr_takes fuel n e failure v s :
  iota_count e = 1%nat → exact fuel (es_iota s + 1) e = Some v → in_int64 (es_iota s + 1) →
  consistent (es_values s) → not_plain n →
  ∃ s', block_expr float_overflow objects fuel n e failure s = Ret s' ∧ takes n v s s'.
Proof using Type.
  intros Hc He Hr Hcons Hn. destruct (eval_exact fuel _ e v s He ltac:(lia) eq_refl Hr Hcons) as (s1 & Hev & Hi & Hc1 & Hx).
  unfold block_expr. rewrite Hev. cbn. eexists. split; [done|]. unfold takes, set_value. cbn. rewrite lookup_insert_eq.
  split_and!; [lia|done|by apply consistent_insert|].
  intros m c Hm Hv. rewrite lookup_insert_ne by done. destruct (Hx m) as [->|[? _]]; congruence.
Qed.

Lemma next_iota_takes n s :
  in_int64 (es_iota s + 1) → consistent (es_values s) → not_plain n → takes n (es_iota s + 1) s (next_iota n s).
Proof using Type.
  intros Hr Hc Hn. unfold takes, next_iota. cbn. rewrite int64_id, lookup_insert_eq by done.
  split_and!; [done|done|by apply consistent_insert|]. intros m c Hm Hv. by rewrite lookup_insert_ne.
Qed.

(** The state of a block that counts, after a name. *)
Definition counts (e : expr) (b : block_state) : Prop :=
  (∃ n, e = Ident n ∧ bs_source b = FromIota) ∨ (bs_source b = FromExpression ∧ bs_previous_expression b = Some e).

Lemma check_group_ok b : default "" (bs_group b) = "" ∨ bs_group b = Some (bs_spec_type b) →
  ∃ b', check_group b = Ret b' ∧ bs_group b' = Some (bs_spec_type b') ∧ bs_eval b' = bs_eval b ∧
    ∀ e, counts e b → counts e b'.
Proof using Type.
  intros Hg. unfold check_group. case_decide as H0; [by eexists|]. destruct Hg as [|Hg]; [done|].
  rewrite decide_True by (by rewrite Hg). by exists b.
Qed.

(** The first name, and each of the others. *)
Lemma first_takes fuel n e t v values :
  counting e = true → exact fuel 0 e = Some v → consistent values → not_plain n →
  ∃ b, const_spec float_overflow objects fuel (block_start values) (mkValueSpec (Ident <$> t) [n] [e]) = Ret b ∧
    counts e b ∧ bs_group b = Some (bs_spec_type b) ∧ takes n v (mkEvalState (-1) values) (bs_eval b).
Proof using Type.
  intros Hk He Hcons Hn. pose proof (counting_count e Hk) as Hc.
  set (b0 t := mkBlockState t NoSource "" None (mkEvalState (-1) values) None).
  assert (∀ t, ∃ b, name_value float_overflow objects fuel n e (b0 t) = Ret b ∧ counts e b ∧ bs_group b = None ∧
            takes n v (mkEvalState (-1) values) (bs_eval b)) as Hname.
  { intros t'. assert (∀ failure, ∃ s', block_expr float_overflow objects fuel n e failure (mkEvalState (-1) values) = Ret s' ∧
                         takes n v (mkEvalState (-1) values) s') as Hblock by (intros; by apply block_expr_takes).
    destruct e as [m| | | | | | | | | |]; cbn [counting] in Hk; try done.
    - apply bool_decide_eq_true in Hk as ->. rewrite exact_ident, decide_True in He by done. injection He as <-.
      cbn [name_value]. rewrite decide_True by done. eexists. split; [done|]. split; [left; by eexists|]. split; [done|].
      by apply (next_iota_takes n (mkEvalState (-1) values)).
    - destruct (Hblock "cannot evaluate binary expression") as (s' & Hs' & Ht). cbn [name_value b0 bs_eval]. rewrite Hs'.
      eexists. split; [done|]. split; [by right|]. by split.
    - destruct (Hblock "cannot evaluate unary expression") as (s' & Hs' & Ht). cbn [name_value b0 bs_eval]. rewrite Hs'.
      eexists. split; [done|]. split; [by right|]. by split. }
  destruct (Hname (default "" t)) as (b & Hb & Hcb & Hg & Ht).
  destruct (check_group_ok b) as (b' & Hb' & Hg' & He' & Hc'); [left; by rewrite Hg|].
  exists b'. split; [|split; [by apply Hc'|split; [done|by rewrite He']]].
  unfold const_spec. cbn [vs_Type vs_Names vs_Values]. fold (b0 (default "" t)).
  destruct t as [t|]; cbn [fmap option_fmap option_map mbind outcome_bind spec_names default]; unfold block_start;
    cbn [bs_spec_type bs_source bs_previous_constant bs_previous_expression bs_eval bs_group]; unfold b0, id in Hb; cbn [default] in Hb;
    rewrite Hb; cbn [mbind outcome_bind]; by rewrite Hb'.
Qed.

Lemma repeated_takes fuel n e v b :
  counting e = true → counts e b → bs_group b = Some (bs_spec_type b) → exact fuel (es_iota (bs_eval b) + 1) e = Some v →
  in_int64 (es_iota (bs_eval b) + 1) → consistent (es_values (bs_eval b)) → not_plain n →
  ∃ b', const_spec float_overflow objects fuel b (mkValueSpec None [n] []) = Ret b' ∧
    counts e b' ∧ bs_group b' = Some (bs_spec_type b') ∧ takes n v (bs_eval b) (bs_eval b').
Proof using Type.
  intros Hk Hcb Hg He Hr Hcons Hn. pose proof (counting_count e Hk) as Hc.
  assert (∃ b1, name_repeated float_overflow objects fuel n b = Ret b1 ∧ counts e b1 ∧ bs_group b1 = bs_group b ∧
            bs_spec_type b1 = bs_spec_type b ∧ takes n v (bs_eval b) (bs_eval b1)) as (b1 & Hb1 & Hc1 & Hg1 & Ht1 & Htk).
  { unfold name_repeated. destruct Hcb as [(m & -> & Hs)|[Hs Hp]]; rewrite Hs.
    - cbn in Hk. apply bool_decide_eq_true in Hk as ->. rewrite exact_ident, decide_True in He by done. injection He as <-.
      eexists. split; [done|]. split; [left; by eexists|]. split_and!; [done|done|]. by apply next_iota_takes.
    - rewrite Hp. cbn [deref mbind outcome_bind].
      destruct (block_expr_takes fuel n e "cannot evaluate previous expression" v (bs_eval b)) as (s' & -> & Ht); try done.
      cbn [mbind outcome_bind]. eexists. split; [done|]. split; [by right|]. by split_and!. }
  destruct (check_group_ok b1) as (b2 & Hb2 & Hg2 & He2 & Hc2); [right; congruence|].
  exists b2. split; [|split; [by apply Hc2|split; [done|by rewrite He2]]].
  unfold const_spec. cbn [vs_Type vs_Names vs_Values mbind outcome_bind spec_names].
  destruct b as [t src pc pe ev g]. cbn in Hb1 |- *. rewrite Hb1. cbn [mbind outcome_bind]. by rewrite Hb2.
Qed.
End eval_lemmas.

(** ** Properties *)

(** A const block that counts as Go's do: a first name whose expression has one
    [iota], and names without values.  Each constant has the value of the expression
    where [iota] is its place in the block, as long as these fit 64 bits and the names
    the expression uses are constants without [iota]. *)
Theorem counting_block (float_overflow : float64 → Z) (objects : gmap string object) (fuel : nat) (e : expr)
    (t : option string) (n0 : string) (names : list string) (values : gmap string Z) :
  counting e = true → NoDup (n0 :: names) → Forall (not_plain objects) (n0 :: names) → consistent objects values →
  Z.of_nat (length names) < 2 ^ 63 →
  (∀ k, (k < length (n0 :: names))%nat → is_Some (exact objects fuel (Z.of_nat k) e)) →
  ∃ vals group, const_block float_overflow objects fuel values
      (mkValueSpec (Ident <$> t) [n0] [e] :: ((λ n, mkValueSpec None [n] []) <$> names)) = Ret (vals, Some group) ∧
    ∀ k n, (n0 :: names) !! k = Some n → vals !! n = exact objects fuel (Z.of_nat k) e.
Proof.
  intros Hk Hnd Hplain Hcons Hlen Hex.
  destruct (Hex 0%nat ltac:(simpl; lia)) as [v0 Hv0]. apply Forall_cons in Hplain as [Hp0 Hplain].
  destruct (first_takes float_overflow objects fuel n0 e t v0 values Hk Hv0 Hcons Hp0) as (b0 & Hb0 & Hc0 & Hg0 & Hi0 & Hn0 & Hcons0 & _).
  assert (∀ ns done_ b, done_ ++ ns = n0 :: names → counts e b → bs_group b = Some (bs_spec_type b) →
    es_iota (bs_eval b) = Z.of_nat (length done_) - 1 → consistent objects (es_values (bs_eval b)) →
    (∀ k n, done_ !! k = Some n → es_values (bs_eval b) !! n = exact objects fuel (Z.of_nat k) e) →
    ∃ b', foldM (const_spec float_overflow objects fuel) b ((λ n, mkValueSpec None [n] []) <$> ns) = Ret b' ∧
      bs_group b' = Some (bs_spec_type b') ∧
      ∀ k n, (n0 :: names) !! k = Some n → es_values (bs_eval b') !! n = exact objects fuel (Z.of_nat k) e)%list as Hloop.
  { intros ns. induction ns as [|n ns IH]; intros done_ b Hall Hc Hg Hi Hcb Hvals.
    - exists b. rewrite app_nil_r in Hall. subst done_. by split_and!.
    - assert ((n0 :: names) !! length done_ = Some n) as Hn.
      { rewrite <-Hall. by rewrite lookup_app_r, Nat.sub_diag by lia. }
      assert (length done_ < length (n0 :: names))%nat as Hlt by (by eapply lookup_lt_Some).
      destruct (Hex (length done_) Hlt) as [v Hv]. cbn [length] in Hlt.
      assert (not_plain objects n) as Hpn.
      { apply list_elem_of_lookup_2 in Hn. rewrite elem_of_cons in Hn. destruct Hn as [->|Hn]; [done|].
        rewrite Forall_forall in Hplain. by apply Hplain. }
      destruct (repeated_takes float_overflow objects fuel n e v b) as (b1 & Hb1 & Hc1 & Hg1 & Hi1 & Hn1 & Hcons1 & Hold);
        [done|done|done| | |done|done|].
      { rewrite Hi. by replace (Z.of_nat (length done_) - 1 + 1) with (Z.of_nat (length done_)) by lia. }
      { rewrite Hi. unfold in_int64. lia. }
      cbn [fmap list_fmap foldM]. rewrite Hb1. cbn [mbind outcome_bind].
      apply (IH (done_ ++ [n])%list); [by rewrite <-app_assoc|done|done|rewrite length_app; simpl; lia|done|].
      intros k m [Hkm|[Hge Hkm]]%lookup_app_Some.
      + rewrite <-(Hvals k m Hkm).
        assert (m ≠ n) as Hne.
        { intros ->. assert (k = length done_) as ->.
          { eapply NoDup_lookup; [exact Hnd| |exact Hn]. rewrite <-Hall. by apply lookup_app_l_Some. }
          apply lookup_lt_Some in Hkm. lia. }
        destruct (es_values (bs_eval b) !! m) as [c|] eqn:Hm; [by apply Hold|].
        specialize (Hvals k m Hkm). apply lookup_lt_Some in Hkm.
        destruct (Hex k) as [c Hck]; [cbn [length]; lia|]. congruence.
      + apply list_lookup_singleton_Some in Hkm as [Hk0 ->]. assert (k = length done_) as -> by lia. by rewrite Hn1. }
  destruct (Hloop names [n0] b0) as (b' & Hb' & Hg' & Hvals); [done|done|done|rewrite Hi0; done|done| |].
  { intros [|k] n; [|done]. intros [= <-]. by rewrite Hn0. }
  exists (es_values (bs_eval b')), (bs_spec_type b'). split; [|done].
  unfold const_block. cbn [foldM]. rewrite Hb0. cbn [mbind outcome_bind]. rewrite Hb'. cbn. by rewrite Hg'.
Qed.

(** ** Witnesses *)

Definition one_shl_iota : expr := BinaryExpr (BasicLit INT "1") SHL (BinaryExpr (Ident "iota") ADD (Ident "Base")).
Definition flag_objects : gmap string object :=
  {["A" := ValueSpecObj [one_shl_iota]; "B" := ValueSpecObj []; "C" := ValueSpecObj [];
    "Base" := ValueSpecObj [BinaryExpr (BasicLit INT "0x2") SUB (BasicLit INT "1")]]}.

Lemma counting_block_witness :
  counting one_shl_iota = true ∧
  ∃ vals group, const_block (λ _, 0) flag_objects 2 {["Base" := 1]}
      (mkValueSpec (Ident <$> Some "Flag") ["A"] [one_shl_iota] :: ((λ n, mkValueSpec None [n] []) <$> ["B"; "C"])) =
      Ret (vals, Some group) ∧ vals !! "C" = Some 8.
Proof.
  split; [reflexivity|].
  destruct (counting_block (λ _, 0) flag_objects 2 one_shl_iota (Some "Flag") "A" ["B"; "C"] {["Base" := 1]})
    as (vals & group & H & Hv).
  - reflexivity.
  - apply (bool_decide_unpack (NoDup ["A"; "B"; "C"])). vm_compute. exact I.
  - repeat constructor; intros e l; vm_compute; intros [= <- <-] || intros [=]; intros [=].
  - intros n c Hn e l Ho Hc fuel i v He. destruct (decide (n = "Base")) as [->|Hne].
    + rewrite lookup_singleton_eq in Hn. injection Hn as <-. vm_compute in Ho. injection Ho as <- <-.
      destruct fuel; vm_compute in He; by injection He as <-.
    + by rewrite lookup_singleton_ne in Hn.
  - vm_compute. reflexivity.
  - intros [|[|[|k]]] Hlt; [by vm_compute; eexists..|simpl in Hlt; lia].
  - exists vals, group. split; [exact H|]. rewrite (Hv 2%nat "C" eq_refl). vm_compute. reflexivity.
Defined.

(** Where the tool departs from Go: [iota] counts its own uses, not the places of a
    block; and a reference to the second name of a specification takes its first
    value. *)
Definition untyped (names : list string) (values : list expr) : ValueSpec := mkValueSpec None names values.
Definition block_values (objects : gmap string object) (specs : list ValueSpec) : outcome (list (string * Z)) :=
  (λ x, map_to_list x.1) <$> const_block (λ _, 0) objects 3 ∅ specs.

Lemma iota_counts_uses :
  block_values ∅ [untyped ["A"] [BasicLit INT "5"]; untyped ["B"] [Ident "iota"]] = Ret [("A", 5); ("B", 0)] ∧
  block_values ∅ [untyped ["A"; "B"] [Ident "iota"; Ident "iota"]] = Ret [("A", 0); ("B", 1)] ∧
  block_values ∅ [untyped ["A"] [BinaryExpr (Ident "iota") ADD (Ident "iota")]] = Ret [("A", 1)].
Proof. split_and!; vm_compute; reflexivity. Qed.

Lemma second_name_panics :
  let AB := [BasicLit INT "1"; BasicLit INT "2"] in
  is_panic (block_values {["A" := ValueSpecObj AB; "B" := ValueSpecObj AB]}
    [untyped ["A"; "B"] AB; untyped ["C"] [UnaryExpr SUB (Ident "B")]]) = true.
Proof. vm_compute. reflexivity. Qed.
