(* ===== verification/GotocjsonTypes.v ===== *)
(** gotocjson/gotocjson.go: the declarations of a Go file: its typedefs, the types of
    the fields of its structs, its enumerations, and the JSON tags of fields. *)

From S2P Require Import Prelude.
From S2P Require Import GoString.
From S2P Require Import GoFloat.
From S2P Require Import Regexp.
From S2P Require Import Gotocjson.

Local Open Scope string_scope.
Local Open Scope nat_scope.

(** ** Declarations *)

Record field := mkField { fd_Names : list string; fd_Type : expr; fd_Tag : option string }.

(** The type of a specification: an expression, or a struct. *)
Inductive type_node := TypeExpr (e : expr) | StructType (Incomplete : bool) (Fields : list field).

Record TypeSpec := mkTypeSpec { ts_Name : string; ts_Type : type_node }.

(** A declaration with its position, also as text. *)
Inductive declaration :=
| TypeDecl (TokPos : Z) (Specs : list TypeSpec)
| ConstDecl (TokPos : Z) (position : string) (Specs : list ValueSpec)
| OtherDecl.

Record file := mkFile { fl_Name : string; fl_Imports : list string; fl_Decls : list declaration }.

(** What [process_parse_nodes] returns; a node is its position. *)
Record typedefs := mkTypedefs {
  td_simple : gmap string string;
  td_enum : gmap string string;
  td_const_groups : gmap string string;
  td_struct : gmap string (list string);
  td_fields : gmap string (gmap string string);
  td_simple_nodes : gmap string Z;
  td_enum_nodes : gmap string Z;
  td_const_nodes : gmap string Z;
  td_struct_nodes : gmap string Z;
  td_values : gmap string Z;
}.

Definition no_typedefs : typedefs := mkTypedefs ∅ ∅ ∅ ∅ ∅ ∅ ∅ ∅ ∅ ∅.

(** ** Imports *)

(** The pattern of the packages of the repository, whose last part is a group. *)
Definition special_package_prefix : regexp :=
  literal "github.com/gwos/" (Seq (Star true Any) (Seq (Lit "/"%char)
    (Seq (Group "1" (at_least_one (λ c, negb (bool_decide (c = "/"%char))))) EndText))).

Definition include_header (package : string) : string :=
  "#include " +:+ String (ascii_of_nat 34) (package +:+ ".h" +:+ String (ascii_of_nat 34) "").

(** The headers of an import, whose quotes are dropped. *)
Definition import_headers (path : string) : list string :=
  let pkg := ReplaceAll path (String (ascii_of_nat 34) "") "" in
  ((if decide (pkg = "time") then [include_header "time"] else []) ++
   match FindStringSubmatch special_package_prefix pkg with
   | Some m => if decide (capture m "1" = "logzer") then [] else [include_header (capture m "1")]
   | None => []
   end)%list.

Definition other_headers (imports : list string) : string := Join (imports ≫= import_headers) (String (ascii_of_nat 10) "").

(** ** Fields *)

Definition aborting {A} : outcome A := Panic "aborting due to previous errors".

(** The name of an embedded field: a pointer, or a type. *)
Definition embedded_pointer (X : expr) : outcome string :=
  match X with
  | Ident n => Ret (n +:+ "_ptr_")
  | SelectorExpr _ (Some sel) => Ret (sel +:+ "_ptr_")
  | _ => aborting
  end.

Definition embedded_name (type : expr) : outcome string :=
  match type with
  | Ident n => Ret n
  | StarExpr X => embedded_pointer X
  | SelectorExpr _ (Some sel) => Ret (sel +:+ "_")
  | _ => aborting
  end.

(** The text of the type of a field; [None] for one that is skipped. *)
Definition star_field_type (X : expr) : outcome (option string) :=
  match X with
  | Ident n => Ret (Some ("*" +:+ n))
  | ArrayType None (Ident n) => Ret (Some ("*[]" +:+ n))
  | SelectorExpr (Ident x) (Some sel) => Ret (Some ("*" +:+ x +:+ "." +:+ sel))
  | _ => aborting
  end.

Definition array_field_type (Len : option expr) (Elt : expr) : outcome (option string) :=
  match Len, Elt with
  | None, Ident n => Ret (Some ("[]" +:+ n))
  | None, StarExpr (Ident n) => Ret (Some ("[]*" +:+ n))
  | _, _ => aborting
  end.

Definition map_field_type (Key Value : expr) : outcome (option string) :=
  match Key, Value with
  | Ident k, Ident v => Ret (Some ("map[" +:+ k +:+ "]" +:+ v))
  | Ident _, InterfaceType => Ret None
  | _, _ => aborting
  end.

Definition selector_field_type (X : expr) (Sel : option string) : outcome (option string) :=
  match X, Sel with
  | Ident x, Some sel => Ret (Some (x +:+ "." +:+ sel))
  | _, _ => aborting
  end.

Definition field_type_name (type : expr) : outcome (option string) :=
  match type with
  | Ident n => Ret (Some n)
  | StarExpr X => star_field_type X
  | ArrayType Len Elt => array_field_type Len Elt
  | MapType Key Value => map_field_type Key Value
  | SelectorExpr X Sel => selector_field_type X Sel
  | InterfaceType => Ret None
  | _ => aborting
  end.

Section fields.
(** Whether the letter beyond ASCII at the head of a string is in upper case. *)
Context (wide_upper : string → bool).

Definition exported (name : string) : bool :=
  match name with
  | "" => true
  | String c _ => if byte_in 0 127 c then byte_in 65 90 c else wide_upper name
  end.

(** The names of a field with their types: of the exported names whose type is not
    skipped. *)
Fixpoint field_types (type : expr) (names : list string) : outcome (list (string * string)) :=
  match names with
  | [] => Ret []
  | name :: names =>
      if exported name then
        t ← field_type_name type; rest ← field_types type names;
        Ret (match t with Some t => (name, t) :: rest | None => rest end)
      else field_types type names
  end.

Definition field_entries (f : field) : outcome (list (string * string)) :=
  names ← match fd_Names f with [] => (λ n, [n]) <$> embedded_name (fd_Type f) | l => Ret l end;
  field_types (fd_Type f) names.

Fixpoint struct_entries (fields : list field) : outcome (list (string * string)) :=
  match fields with
  | [] => Ret []
  | f :: fields => e ← field_entries f; rest ← struct_entries fields; Ret (e ++ rest)%list
  end.

(** ** Specifications *)

Section specs.
Context (package_name : string).

Definition add_simple (name type : string) (pos : Z) (d : typedefs) : typedefs :=
  mkTypedefs (<[name := type]> (td_simple d)) (td_enum d) (td_const_groups d) (td_struct d) (td_fields d)
    (<[name := pos]> (td_simple_nodes d)) (td_enum_nodes d) (td_const_nodes d) (td_struct_nodes d) (td_values d).

Definition add_struct (name : string) (entries : list (string * string)) (pos : Z) (d : typedefs) : typedefs :=
  mkTypedefs (td_simple d) (td_enum d) (td_const_groups d) (<[name := entries.*2]> (td_struct d))
    (<[name := foldl (λ m e, <[e.1 := e.2]> m) ∅ entries]> (td_fields d))
    (td_simple_nodes d) (td_enum_nodes d) (td_const_nodes d) (<[name := pos]> (td_struct_nodes d)) (td_values d).

(** A typedef of a list. *)
Definition array_typedef (Len : option expr) (Elt : expr) : outcome string :=
  match Len, Elt with
  | None, Ident t => Ret (package_name +:+ "_" +:+ t +:+ "_List")
  | None, StarExpr (Ident t) => Ret (package_name +:+ "_" +:+ t +:+ "_Ptr_List")
  | _, _ => aborting
  end.

(** A type specification. *)
Definition type_spec (pos : Z) (d : typedefs) (spec : TypeSpec) : outcome typedefs :=
  match ts_Type spec with
  | TypeExpr (Ident t) => Ret (add_simple (ts_Name spec) t pos d)
  | StructType Incomplete fields =>
      if (Incomplete : bool) then aborting
      else entries ← struct_entries fields; Ret (add_struct (ts_Name spec) entries pos d)
  | TypeExpr InterfaceType => Ret d
  | TypeExpr (ArrayType Len Elt) => t ← array_typedef Len Elt; Ret (add_simple (ts_Name spec) t pos d)
  | TypeExpr _ => aborting
  end.

Context (float_overflow : float64 → Z) (objects : gmap string object) (fuel : nat).

(** A declaration of the file. *)
Definition file_decl (d : typedefs) (decl : declaration) : outcome typedefs :=
  match decl with
  | TypeDecl pos specs => foldM (type_spec pos) d specs
  | ConstDecl pos position specs =>
      '(values, group) ← const_block float_overflow objects fuel (td_values d) specs;
      Ret (match group with
           | None =>
               mkTypedefs (td_simple d) (td_enum d) (td_const_groups d) (td_struct d) (td_fields d) (td_simple_nodes d)
                 (td_enum_nodes d) (td_const_nodes d) (td_struct_nodes d) values
           | Some t =>
               mkTypedefs (td_simple d) (td_enum d) (<[position := t]> (td_const_groups d)) (td_struct d) (td_fields d)
                 (td_simple_nodes d) (td_enum_nodes d) (<[position := pos]> (td_const_nodes d)) (td_struct_nodes d) values
           end)
  | OtherDecl => Ret d
  end.

Definition file_decls (decls : list declaration) : outcome typedefs := foldM file_decl no_typedefs decls.
End specs.
End fields.

(** ** Enumerations *)

(** The end of a chain of simple typedefs; without end it is [None]. *)
Fixpoint chain_end (fuel : nat) (simple : gmap string string) (t : string) : option string :=
  match fuel with
  | O => None
  | S fuel =>
      let next := default "" (simple !! t) in
      if decide (next = "") then Some t else chain_end fuel simple next
  end.

(** A typedef with constants becomes an enumeration; a chain without end is an
    endless loop. *)
Definition make_enum (d : typedefs) (constant_type : string) : outcome typedefs :=
  let first := default "" (td_simple d !! constant_type) in
  if decide (first = "") then Ret d
  else match chain_end (S (size (td_simple d))) (td_simple d) first with
  | None => Panic "endless loop"
  | Some terminal_simple_type =>
      Ret (mkTypedefs (delete constant_type (td_simple d)) (<[constant_type := terminal_simple_type]> (td_enum d))
             (td_const_groups d) (td_struct d) (td_fields d)
             (delete constant_type (td_simple_nodes d))
             (match td_simple_nodes d !! constant_type with
              | Some pos => <[constant_type := pos]> (td_enum_nodes d)
              | None => td_enum_nodes d
              end)
             (td_const_nodes d) (td_struct_nodes d) (td_values d))
  end.

Definition make_enums (order : list string) (d : typedefs) : outcome typedefs := foldM make_enum d order.

(** ** The types of fields, for the dependencies *)

(** Leading stars and brackets are dropped. *)
Fixpoint drop_punctuation (s : string) : string :=
  match s with
  | String c s' => if decide (c ∈ ["*"; "["; "]"]%char) then drop_punctuation s' else s
  | "" => ""
  end.

(** The key and the value of the type of a map. *)
Definition map_key_value_types : regexp :=
  literal "map[" (Seq (Group "1" (at_least_one (λ c, negb (bool_decide (c = "]"%char)))))
    (Seq (Lit "]"%char) (Group "2" (Seq (OneOf (in_class Any)) (Star true Any))))).

(** The leftmost match. *)
Fixpoint search (r : regexp) (s : string) : option captures :=
  match FindStringSubmatch r s with
  | Some m => Some m
  | None => match s with "" => None | String _ s' => search r s' end
  end.

(** The types a field depends on. *)
Definition type_parts (field_type : string) : outcome (list string) :=
  if HasPrefix field_type "map[" then
    match search map_key_value_types field_type with
    | None => Panic ("found incomprehensible map construction '" +:+ field_type +:+ "'")
    | Some m => Ret [capture m "1"; capture m "2"]
    end
  else Ret [drop_punctuation field_type].

Fixpoint all_parts (field_types : list string) : outcome (gset string) :=
  match field_types with
  | [] => Ret ∅
  | t :: ts => p ← type_parts t; rest ← all_parts ts; Ret (list_to_set p ∪ rest)
  end.

Section process.
Context `{MapOrder} (wide_upper : string → bool) (float_overflow : float64 → Z).

(** A set in the order of a map. *)
Definition set_order (X : gset string) : list string := (map_order (gset_to_gmap true X)).*1.

Fixpoint unique_field_types (structs : list (string * list string)) : outcome (list (string * list string)) :=
  match structs with
  | [] => Ret []
  | (name, types) :: structs =>
      parts ← all_parts types; rest ← unique_field_types structs; Ret ((name, set_order parts) :: rest)
  end.

(** [process_parse_nodes] *)
Definition process_parse_nodes (objects : gmap string object) (fuel : nat) (f : file)
  : outcome (typedefs * string) :=
  d ← file_decls wide_upper (fl_Name f) float_overflow objects fuel (fl_Decls f);
  d ← make_enums (map_order (td_const_groups d)).*2 d;
  structs ← unique_field_types (map_order (td_struct d));
  Ret (mkTypedefs (td_simple d) (td_enum d) (td_const_groups d) (list_to_map structs) (td_fields d) (td_simple_nodes d)
         (td_enum_nodes d) (td_const_nodes d) (td_struct_nodes d) (td_values d), other_headers (fl_Imports f)).
End process.

(** ** JSON tags *)

Record json_field_tag := mkJsonFieldTag {
  json_field_name : string;
  json_omitalways : bool;
  json_omitempty : bool;
  json_string : bool;
}.

Definition json_option (t : json_field_tag) (option : string) : json_field_tag :=
  if decide (option = "omitempty") then mkJsonFieldTag (json_field_name t) (json_omitalways t) true (json_string t)
  else if decide (option = "required") then t
  else if decide (option = "string") then mkJsonFieldTag (json_field_name t) (json_omitalways t) (json_omitempty t) true
  else t.

Section tags.
Context (wide_upper : string → bool).
(** [reflect.StructTag.Get]. *)
Context (tag_get : string → string → string).

Definition strict_json_field_tag (field_name struct_field_tag : string) : json_field_tag :=
  if negb (exported wide_upper field_name) then mkJsonFieldTag "" true false false
  else
    let json_tag := tag_get struct_field_tag "json" in
    if decide (json_tag = "") then mkJsonFieldTag "" false false false
    else if decide (json_tag = "-") then mkJsonFieldTag "" true false false
    else match Split json_tag "," with
    | [] => mkJsonFieldTag "" false false false
    | name :: options => foldl json_option (mkJsonFieldTag name false false false) options
    end.

Definition interpret_json_field_tag (field_name struct_field_tag : string) : json_field_tag :=
  let t := strict_json_field_tag field_name struct_field_tag in
  if decide (json_field_name t = "") then
    mkJsonFieldTag field_name (json_omitalways t) (json_omitempty t) (json_string t)
  else t.
End tags.

(** ** Lemmas *)

(** The bytes of a name: none of the punctuation of types, and no newline. *)
Definition name_byte_ok (c : ascii) : bool :=
  negb (bool_decide (c ∈ ["*"; "["; "]"]%char)) && negb (bool_decide (c = ascii_of_nat 10)).
Definition name_ok (n : string) : bool := negb (bool_decide (n = "")) && str_forallb name_byte_ok n.

Fixpoint names_ok (e : expr) : bool :=
  match e with
  | Ident n => name_ok n
  | StarExpr X => names_ok X
  | ArrayType _ X => names_ok X
  | MapType K V => names_ok K && names_ok V
  | SelectorExpr X sel => names_ok X && match sel with Some s => name_ok s | None => true end
  | _ => true
  end.

(** The types a type is made of. *)
Fixpoint base_types (e : expr) : list string :=
  match e with
  | Ident n => [n]
  | StarExpr X | ArrayType _ X => base_types X
  | MapType K V => base_types K ++ base_types V
  | SelectorExpr (Ident x) (Some sel) => [x +:+ "." +:+ sel]
  | _ => []
  end.

Lemma name_ok_head n :
  name_ok n = true → ∃ c s, n = String c s ∧ name_byte_ok c = true ∧ str_forallb name_byte_ok s = true.
Proof. intros [Hn Hs]%andb_true_iff. destruct n as [|c s]; [done|]. apply andb_true_iff in Hs as [Hc Hs]. by exists c, s. Qed.

Lemma name_byte_punct c : name_byte_ok c = true → (c ∉ ["*"; "["; "]"]%char) ∧ c ≠ ascii_of_nat 10.
Proof. intros [H1%negb_true_iff%bool_decide_eq_false H2%negb_true_iff%bool_decide_eq_false]%andb_true_iff. done. Qed.

Lemma drop_punctuation_ok c s : name_byte_ok c = true → drop_punctuation (String c s) = String c s.
Proof. intros [Hc _]%name_byte_punct. cbn. by rewrite decide_False. Qed.

(** A text of names and points is no map. *)
Lemma no_bracket_no_map s : no_byte "["%char s = true → HasPrefix s "map[" = false.
Proof.
  intros Hs. destruct (HasPrefix s "map[") eqn:Hp; [|done]. exfalso. unfold HasPrefix in Hp.
  do 4 (destruct s as [|? s]; [done|]; cbn [String.prefix] in Hp; destruct (Ascii.ascii_dec _ _) as [<-|]; [|done]).
  cbn in Hs. done.
Qed.

Lemma name_no_bracket n : str_forallb name_byte_ok n = true → no_byte "["%char n = true.
Proof.
  apply str_forallb_impl. intros c [Hc _]%name_byte_punct. apply negb_true_iff, bool_decide_false. intros <-. apply Hc. set_solver.
Qed.

Lemma rest_in_class_Any n : str_forallb name_byte_ok n = true → all_class Any n = true.
Proof.
  apply str_forallb_impl. intros c [_ Hc]%name_byte_punct. cbn. apply negb_true_iff, bool_decide_false. intros Heq. apply Hc.
  rewrite <-Heq. symmetry. apply ascii_nat_embedding.
Qed.

(** [(.+)] takes a whole name. *)
Lemma run_rest {X} v m (k : string → captures → option X) x :
  v ≠ "" → all_class Any v = true → k "" (<["2" := v]> m) = Some x →
  run (Group "2" (Seq (OneOf (in_class Any)) (Star true Any))) v m k = Some x.
Proof.
  intros Hv Hall Hk. cbn [run]. destruct v as [|c v]; [done|]. cbn in Hall. apply andb_true_iff in Hall as [Hc Hall].
  cbn [in_class]. cbn in Hc. rewrite Hc. set (s := String c v) in *.
  assert (Nat.max 1 (rune_size s) ≤ String.length s) as Hle.
  { pose proof (rune_size_length s). subst s. simpl String.length in *. lia. }
  rewrite <-(str_app_nil_r (str_drop _ s)). apply greedy_takes.
  - by right; right; left.
  - apply str_forallb_drop. subst s. cbn. by rewrite Hc.
  - done.
  - unfold between. simpl (String.length ""). rewrite Nat.sub_0_r.
    assert (str_take (String.length s) s = s) as ->; [|done]. rewrite <-(str_app_nil_r s) at 2. apply str_take_app.
Qed.

(** A map splits into its key and its value. *)
Lemma map_parts k v :
  name_ok k = true → str_forallb name_byte_ok v = true → v ≠ "" →
  type_parts ("map[" +:+ k +:+ "]" +:+ v) = Ret [k; v].
Proof.
  intros Hk Hv Hne. unfold type_parts. assert (HasPrefix ("map[" +:+ k +:+ "]" +:+ v) "map[" = true) as -> by (by destruct k).
  set (s := "map[" +:+ k +:+ "]" +:+ v).
  assert (FindStringSubmatch map_key_value_types s = Some (<["2" := v]> (<["1" := k]> ∅))) as Hfind.
  { set (r2 := Group "2" (Seq (OneOf (in_class Any)) (Star true Any))). set (K := λ (s' : string) (m' : captures),
      match s' with String d s2 => if decide ("]"%char = d) then run r2 s2 m' (λ _ m, Some m) else None | "" => None end).
    apply name_ok_head in Hk as (c & k' & -> & Hc & Hk').
    change (run (Group "1" (at_least_one (λ c, negb (bool_decide (c = "]"%char))))) ((String c k') +:+ String "]" v) ∅ K =
      Some (<["2" := v]> (<["1" := String c k']> ∅))).
    assert (∀ m : captures, K (String "]" v) m = Some (<["2" := v]> m)) as HK.
    { intros m. cbn [K]. rewrite decide_True by done. apply run_rest; [done|by apply rest_in_class_Any|done]. }
    assert (str_forallb name_byte_ok (String c k') = true) as Hname by (by apply andb_true_iff).
    assert (∀ d, name_byte_ok d = true → negb (bool_decide (d = "]"%char)) = true) as Hnb.
    { intros d [Hd _]%name_byte_punct. apply negb_true_iff, bool_decide_false. intros ->. apply Hd. set_solver. }
    assert (matches (Group "1" (at_least_one (λ c, negb (bool_decide (c = "]"%char))))) (String c k' +:+ String "]" v) ∅
              (String "]" v) (<["1" := String c k']> ∅)) as Hm.
    { assert (between (String c k' +:+ String "]" v) (String "]" v) = String c k') as Hb by apply between_app.
      rewrite <-Hb at 2. apply match_Group.
      set (d := Nat.max 1 (rune_size (String c k' +:+ String "]" v))).
      assert (cut (String c k') (String "]" v)) as Hcut.
      { right. left. eexists _, _. split; [reflexivity|]. by apply Nat.ltb_lt. }
      pose proof (rune_cut (String c k') (String "]" v) ltac:(done) Hcut) as Hle. fold d in Hle.
      assert (∀ c, ¬ ascii7 c → negb (bool_decide (c = "]"%char)) = true) as Hhigh.
      { intros c' Hc'. apply negb_true_iff, bool_decide_false. intros ->. apply Hc'. by apply Nat.ltb_lt. }
      eapply match_Seq; [exact (match_OneOf _ c (k' +:+ String "]" v) ∅ (Hnb c Hc))|].
      change (String c (k' +:+ String "]" v)) with (String c k' +:+ String "]" v). fold d. rewrite str_drop_cons_app by done.
      destruct (decide (String.length (String c k') = d)) as [He|He].
      - rewrite <-He, str_drop_all. constructor.
      - apply (repeat_matches _ (λ c, negb (bool_decide (c = "]"%char)))); [done|apply cut_drop; [lia|done]|].
        apply str_forallb_drop. cbn. rewrite (Hnb c Hc). cbn. eapply str_forallb_impl; [exact Hnb|exact Hk']. }
    destruct (run_complete _ _ _ _ _ K Hm) as [x Hx]; [rewrite HK; by eexists|].
    rewrite Hx. apply run_sound in Hx as (s' & m' & Hm' & Hx). 
    apply matches_Group in Hm' as (m1 & Hone & ->).
    apply matches_Seq in Hone as (s1 & m2 & H1 & H2).
    apply (OneOf_text _ "]"%char) in H1 as (a1 & Ha1 & Hn1 & ->); [|by apply Nat.ltb_lt|done].
    apply (some_of_text _ "]"%char) in H2 as (a2 & -> & Hn2 & ->); [|by apply Nat.ltb_lt|done].
    destruct s' as [|d s2]; [done|]. cbn [K] in Hx. case_decide as Hd; [subst d|done].
    rewrite <-str_app_assoc in Ha1. apply no_byte_split in Ha1 as [Ha <-].
    - rewrite <-Hx, Ha, between_app. apply run_rest; [done|by apply rest_in_class_Any|done].
    - eapply str_forallb_impl; [|exact Hname].
      intros e [He _]%name_byte_punct. apply negb_true_iff, bool_decide_false. intros <-. apply He. set_solver.
    - by rewrite no_byte_app, Hn1, Hn2. }
  assert (search map_key_value_types s = Some (<["2" := v]> (<["1" := k]> ∅))) as ->.
  { destruct s; cbn [search]; by rewrite Hfind. }
  unfold capture. rewrite lookup_insert_ne by done. by rewrite !lookup_insert_eq.
Qed.

Lemma plain_parts c s :
  name_byte_ok c = true → no_byte "["%char (String c s) = true → type_parts (String c s) = Ret [String c s].
Proof. intros Hc Hs. unfold type_parts. by rewrite no_bracket_no_map, drop_punctuation_ok. Qed.

Lemma name_parts n : name_ok n = true → type_parts n = Ret [n].
Proof.
  intros Hn. pose proof Hn as (c & s & -> & Hc & Hs)%name_ok_head. apply plain_parts; [done|].
  apply name_no_bracket. by apply andb_true_iff.
Qed.

Lemma selector_parts x sel : name_ok x = true → name_ok sel = true → type_parts (x +:+ "." +:+ sel) = Ret [x +:+ "." +:+ sel].
Proof.
  intros (c & s & -> & Hc & Hs)%name_ok_head [_ Hsel]%andb_true_iff. apply plain_parts; [done|].
  change (no_byte "[" (String c s +:+ "." +:+ sel) = true). rewrite !no_byte_app.
  rewrite (name_no_bracket (String c s)) by (by apply andb_true_iff). by rewrite (name_no_bracket sel).
Qed.

(** Stars and brackets before a type that is not a map make no difference. *)
Lemma punctuated_parts p c s :
  name_byte_ok c = true → no_byte "["%char (String c s) = true → p ∈ ["*"; "[]"; "*[]"; "[]*"] →
  type_parts (p +:+ String c s) = Ret [String c s].
Proof.
  intros Hc Hs Hp. rewrite <-(plain_parts c s Hc Hs). unfold type_parts. rewrite (no_bracket_no_map (String c s)) by done.
  rewrite !elem_of_cons, elem_of_nil in Hp. destruct Hp as [->|[->|[->|[->|[]]]]]; reflexivity.
Qed.

(** The text of the type of a field splits into the types it is made of. *)
Lemma field_type_parts e t :
  names_ok e = true → field_type_name e = Ret (Some t) → type_parts t = Ret (base_types e).
Proof.
  intros Hok Ht.
  assert (∀ p n, name_ok n = true → p ∈ ["*"; "[]"; "*[]"; "[]*"] → type_parts (p +:+ n) = Ret [n]) as Hp.
  { intros p n Hn. pose proof Hn as (c & s & -> & Hc & Hs)%name_ok_head. apply punctuated_parts; [done|].
    apply name_no_bracket. by apply andb_true_iff. }
  destruct e as [n| | | | |X|Len Elt|K V|X sel| |]; try done; cbn [field_type_name star_field_type array_field_type map_field_type selector_field_type names_ok base_types] in *.
  - injection Ht as <-. by apply name_parts.
  - destruct X as [n| | | | | |[Len|] Elt| |X sel| |]; try done.
    + injection Ht as <-. apply (Hp "*"); [done|set_solver].
    + destruct Elt; try done. injection Ht as <-. apply (Hp "*[]"); [done|set_solver].
    + destruct X; try done. destruct sel as [sel|]; [|done]. injection Ht as <-. cbn in Hok.
      apply andb_true_iff in Hok as [Hx Hsel].
      pose proof Hx as (c & s & -> & Hc & Hs)%name_ok_head. apply (punctuated_parts "*" c (s +:+ "." +:+ sel)); [done| |set_solver].
      change (no_byte "[" (String c s +:+ "." +:+ sel) = true). rewrite !no_byte_app.
      rewrite (name_no_bracket (String c s)) by (by apply andb_true_iff).
      apply andb_true_iff in Hsel as [_ Hsel]. by rewrite (name_no_bracket sel).
  - destruct Len; [done|]. destruct Elt as [n| | | | |X| | | | |]; try done.
    + injection Ht as <-. apply (Hp "[]"); [done|set_solver].
    + destruct X; try done. injection Ht as <-. apply (Hp "[]*"); [done|set_solver].
  - destruct K as [k| | | | | | | | | |]; try done. apply andb_true_iff in Hok as [Hk Hv].
    destruct V as [v| | | | | | | | | |]; try done. injection Ht as <-. cbn in Hv. apply andb_true_iff in Hv as [Hne Hv].
    cbn [base_types app]. apply map_parts; [done|done|]. by apply negb_true_iff, bool_decide_eq_false in Hne.
  - destruct X as [x| | | | | | | | | |]; try done. destruct sel as [sel|]; [|done]. injection Ht as <-.
    apply andb_true_iff in Hok as [Hx Hsel]. by apply selector_parts.
Qed.

(** *** Chains of typedefs *)

Definition next_type (m : gmap string string) (t : string) : string := default "" (m !! t).

Lemma chain_end_delete n m x t u :
  chain_end n m t = Some u → (∀ k, k < n → Nat.iter k (next_type m) t ≠ x) → chain_end n (delete x m) t = Some u.
Proof.
  revert t. induction n as [|n IH]; intros t Ht Hx; [done|]. cbn [chain_end] in *.
  rewrite lookup_delete_ne by (intros ->; by apply (Hx 0); [lia|]).
  case_decide; [done|]. apply IH; [done|]. intros k Hk. specialize (Hx (S k) ltac:(lia)). by rewrite Nat.iter_succ_r in Hx.
Qed.

Lemma chain_end_undelete n m x t u : chain_end n (delete x m) t = Some u → u ≠ x → chain_end n m t = Some u.
Proof.
  revert t. induction n as [|n IH]; intros t Ht Hu; [done|]. cbn [chain_end] in *.
  destruct (decide (t = x)) as [->|Hne].
  - rewrite lookup_delete_eq in Ht. cbn [default] in Ht. rewrite decide_True in Ht by done. congruence.
  - rewrite lookup_delete_ne in Ht by done. case_decide; [done|]. by apply IH.
Qed.

(** The steps of a chain. *)
Lemma chain_end_steps n m t u :
  chain_end n m t = Some u →
  ∃ k, k < n ∧ u = Nat.iter k (next_type m) t ∧ next_type m u = "" ∧ chain_end (S k) m t = Some u ∧
    ∀ j, j < k → next_type m (Nat.iter j (next_type m) t) ≠ "".
Proof.
  revert t. induction n as [|n IH]; intros t Ht; [done|]. cbn [chain_end] in Ht. case_decide as Hd.
  - injection Ht as <-. exists 0. cbn [chain_end Nat.iter]. rewrite decide_True by done. split_and!; [lia|done|done|done|lia].
  - destruct (IH _ Ht) as (k & Hk & Hu & Hn & He & Hj). exists (S k). rewrite Nat.iter_succ_r. split_and!; [lia|done|done| |].
    + cbn [chain_end]. rewrite decide_False by done. exact He.
    + intros [|j] Hlt; [done|]. rewrite Nat.iter_succ_r. apply Hj. lia.
Qed.

(** A chain that ends does so within the number of typedefs. *)
Lemma chain_enough n m t u : chain_end n m t = Some u → chain_end (S (size m)) m t = Some u.
Proof.
  revert m t u. induction (lt_wf n) as [n _ IH]. intros m t u Ht.
  destruct (chain_end_steps n m t u Ht) as (k & Hk & Hu & Hend & Hc & Hmid). cbn [chain_end] in Hc |- *.
  case_decide as Hd; [done|].
  assert (is_Some (m !! t)) as Hin by (destruct (m !! t); [by eexists|done]).
  assert (∀ j, 0 < j → j ≤ k → Nat.iter j (next_type m) t ≠ t) as Hnr.
  { intros j Hj Hjk Heq. apply (Hmid (k - j) ltac:(lia)). rewrite <-Hend, Hu. f_equal.
    rewrite <-Heq at 1. rewrite <-Nat.iter_add. f_equal. lia. }
  assert (0 < k) as Hpos.
  { destruct k; [|lia]. cbn in Hu. subst u. exfalso. by apply Hd. }
  assert (size m = S (size (delete t m))) as Hsize.
  { rewrite map_size_delete. destruct Hin as [y Hy]. rewrite Hy. assert (size m ≠ 0); [|lia].
    intros H0. apply map_size_empty_inv in H0. subst m. by rewrite lookup_empty in Hy. }
  rewrite Hsize. apply chain_end_undelete with t; [|rewrite Hu; apply Hnr; lia].
  apply (IH k Hk). apply chain_end_delete; [done|].
  intros j Hj. specialize (Hnr (S j) ltac:(lia) ltac:(lia)). by rewrite Nat.iter_succ_r in Hnr.
Qed.

(** ** Properties *)

(** The dependencies of a struct are the types its exported fields are made of: the
    text written for the type of each field splits again into the names the type
    has, and a struct depends on exactly these. *)
Theorem struct_dependencies (wide_upper : string → bool) (fields : list field) (entries : list (string * string)) :
  Forall (λ f, names_ok (fd_Type f) = true) fields → struct_entries wide_upper fields = Ret entries →
  ∃ X, all_parts entries.*2 = Ret X ∧
    ∀ t, t ∈ X ↔ ∃ f e, f ∈ fields ∧ field_entries wide_upper f = Ret e ∧ e ≠ [] ∧ t ∈ base_types (fd_Type f).
Proof.
  intros Hok. revert entries. induction Hok as [|f fields Hf _ IH]; intros entries He.
  { injection He as <-. exists ∅. split; [done|]. intros t. split; [set_solver|]. by intros (f & ? & ?%elem_of_nil & _). }
  cbn [struct_entries] in He. destruct (field_entries wide_upper f) as [e|] eqn:Hfe; [|done]. cbn [mbind outcome_bind] in He.
  destruct (struct_entries wide_upper fields) as [rest|]; [|done]. injection He as <-.
  destruct (IH rest eq_refl) as (X & HX & HXt).
  assert (Forall (λ x, type_parts x.2 = Ret (base_types (fd_Type f))) e) as Hall.
  { unfold field_entries in Hfe. destruct (match fd_Names f with [] => _ | _ => _ end) as [names|]; [|done].
    cbn [mbind outcome_bind] in Hfe. clear -Hfe Hf. revert e Hfe. induction names as [|n names IHn]; intros e.
    - by intros [= <-].
    - cbn [field_types]. destruct (exported wide_upper n); [|apply IHn].
      destruct (field_type_name (fd_Type f)) as [o|] eqn:Ht; [|done]. cbn [mbind outcome_bind].
      destruct (field_types wide_upper (fd_Type f) names) as [r|]; [|done]. cbn [mbind outcome_bind]. intros [= <-].
      specialize (IHn r eq_refl). destruct o as [t|]; [|done]. constructor; [|done]. by apply field_type_parts. }
  assert (∃ Y, all_parts (e ++ rest)%list.*2 = Ret Y ∧
            ∀ t, t ∈ Y ↔ (e ≠ [] ∧ t ∈ base_types (fd_Type f)) ∨ t ∈ X) as (Y & HY & HYt).
  { clear IH HXt Hfe. induction Hall as [|x e Hx _ IHe].
    - exists X. split; [done|]. intros t. naive_solver.
    - destruct IHe as (Y & HY & HYt). cbn [app]. rewrite fmap_cons. cbn [all_parts]. rewrite Hx. cbn [mbind outcome_bind].
      rewrite HY. cbn [mbind outcome_bind].
      eexists. split; [done|]. intros t. rewrite elem_of_union, elem_of_list_to_set, HYt. naive_solver. }
  exists Y. split; [done|]. intros t. rewrite HYt. split.
  - intros [[Hne Hin]|Hin].
    + exists f, e. split_and!; [by left|done..].
    + apply HXt in Hin as (f' & e' & ? & ?). exists f', e'. split; [by right|done].
  - intros (f' & e' & [->|Hin]%elem_of_cons & He' & Hne & Ht).
    + left. rewrite Hfe in He'. by injection He' as <-.
    + right. apply HXt. by exists f', e'.
Qed.

(** A typedef with constants whose chain ends becomes an enumeration of the end of its
    chain. *)
Lemma make_enum_ends d t n u :
  default "" (td_simple d !! t) ≠ "" → chain_end n (td_simple d) (default "" (td_simple d !! t)) = Some u →
  ∃ d', make_enum d t = Ret d' ∧ td_enum d' !! t = Some u ∧ td_simple d' !! t = None.
Proof.
  intros Hne Hc. unfold make_enum. rewrite decide_False by done. rewrite (chain_enough _ _ _ _ Hc).
  eexists. split; [done|]. cbn. by rewrite lookup_insert_eq, lookup_delete_eq.
Qed.

(** ** Witnesses *)

Definition ascii_only : string → bool := λ _, false.

Definition host_fields : list field :=
  [mkField ["Name"; "alias"] (Ident "string") None; mkField [] (StarExpr (SelectorExpr (Ident "time") (Some "Time"))) None;
   mkField ["Services"] (ArrayType None (StarExpr (Ident "Service"))) None;
   mkField ["Tags"] (MapType (Ident "TagKey") (Ident "string")) None;
   mkField ["Extensions"] InterfaceType None].

Lemma struct_dependencies_witness :
  struct_entries ascii_only host_fields =
    Ret [("Name", "string"); ("Time_ptr_", "*time.Time"); ("Services", "[]*Service"); ("Tags", "map[TagKey]string")] ∧
  ∃ X, all_parts ["string"; "*time.Time"; "[]*Service"; "map[TagKey]string"] = Ret X ∧
    ∀ t, t ∈ X ↔ ∃ f e, f ∈ host_fields ∧ field_entries ascii_only f = Ret e ∧ e ≠ [] ∧ t ∈ base_types (fd_Type f).
Proof.
  split; [vm_compute; reflexivity|].
  exact (struct_dependencies ascii_only host_fields
    [("Name", "string"); ("Time_ptr_", "*time.Time"); ("Services", "[]*Service"); ("Tags", "map[TagKey]string")]
    ltac:(by repeat constructor) eq_refl).
Defined.

(** The type of an enumeration over a typedef that is one itself depends on which of
    the two the map yields first. *)
Definition two_enums : typedefs :=
  mkTypedefs {["Color" := "string"; "Shade" := "Color"]} ∅ {["a.go:3:1" := "Color"; "a.go:9:1" := "Shade"]} ∅ ∅ ∅ ∅ ∅ ∅ ∅.

Lemma enum_depends_on_order :
  (λ d, td_enum d !! "Shade") <$> make_enums ["Color"; "Shade"] two_enums = Ret (Some "Color") ∧
  (λ d, td_enum d !! "Shade") <$> make_enums ["Shade"; "Color"] two_enums = Ret (Some "string").
Proof. split; vm_compute; reflexivity. Qed.
