(* ===== verification/GotocjsonOrder.v ===== *)
(** gotocjson/gotocjson.go, [topologically_sort_nodes]: the order in which the types
    and const groups of a file are declared in C.

    The recursion has fuel; [process_total] shows that the number of the types is
    enough.  [sort.Slice], which is not stable, is an interface. *)

From S2P Require Import Prelude.
From S2P Require Import GoString.
From S2P Require Import Regexp.
From S2P Require Import Gotocjson.
From S2P Require Import GotocjsonTypes.

Local Open Scope string_scope.
Local Open Scope nat_scope.

(** [sort.Slice] of names by the position of each. *)
Class SliceSort := { slice_sort : (string → Z) → list string → list string }.
Class SliceSortLaws `{SliceSort} : Prop := {
  slice_sort_perm key l : slice_sort key l ≡ₚ l;
  slice_sort_sorted key l : StronglySorted (λ a b, (key a ≤ key b)%Z) (slice_sort key l);
}.

Record type_dependency := mkTypeDependency {
  type_kind : string;
  type_pos : Z;
  depends_on : list string;
}.

Record declaration_kind := mkDeclarationKind { dk_name : string; dk_kind : string }.

Abbreviation dependencies := (gmap string type_dependency).

(** ** The dependencies *)

(** A typedef of a list of pointers depends on the type of the package it points to. *)
Definition package_object_Ptr_List (package_name : string) : regexp :=
  literal (package_name +:+ "_") (Seq (Group "1" (Seq (OneOf (in_class Any)) (Star true Any)))
    (literal "_Ptr_List" EndText)).

Definition simple_dependency (package_name typedef_type : string) : string :=
  match search (package_object_Ptr_List package_name) typedef_type with
  | Some m => capture m "1"
  | None => typedef_type
  end.

(** The entries of one of the maps; a name without a node panics. *)
Fixpoint add_entries {A} (kind : string) (types : A → list string) (nodes : gmap string Z) (entries : list (string * A))
    (d : dependencies) : outcome dependencies :=
  match entries with
  | [] => Ret d
  | (name, t) :: entries =>
      pos ← deref (nodes !! name);
      add_entries kind types nodes entries (<[name := mkTypeDependency kind pos (types t)]> d)
  end.

Section order.
Context `{MapOrder}.

Definition all_dependencies (package_name : string) (td : typedefs) : outcome dependencies :=
  d ← add_entries "simple" (λ t, [simple_dependency package_name t]) (td_simple_nodes td) (map_order (td_simple td)) ∅;
  d ← add_entries "enum" (λ t, [t]) (td_enum_nodes td) (map_order (td_enum td)) d;
  d ← add_entries "const" (λ t, [t]) (td_const_nodes td) (map_order (td_const_groups td)) d;
  add_entries "struct" (λ t, t) (td_struct_nodes td) (map_order (td_struct td)) d.

Context `{SliceSort}.

Definition pos_of (d : dependencies) (name : string) : Z := match d !! name with Some t => type_pos t | None => 0%Z end.

(** The known types among the dependencies of each, by their position.  The position
    of a const group is moved to that of its type only in a copy of the entry. *)
Definition own_dependencies (d : dependencies) (t : type_dependency) : type_dependency :=
  mkTypeDependency (type_kind t) (type_pos t) (slice_sort (pos_of d) (filter (λ n, is_Some (d !! n)) (depends_on t))).

Definition sorted_dependencies (d : dependencies) : dependencies := own_dependencies d <$> d.

Definition tentative_type_order (d : dependencies) : list string := slice_sort (pos_of d) (map_order d).*1.

(** ** The recursion *)

(** The names that have been seen, and those in their final order. *)
Record progress := mkProgress { pr_seen : gset string; pr_order : list string }.

Definition deps_of (d : dependencies) (name : string) : list string :=
  match d !! name with Some t => depends_on t | None => [] end.

(** [process_type_names]; [None] is out of fuel. *)
Fixpoint process_type_names (d : dependencies) (fuel : nat) : list string → progress → option progress :=
  fix go (type_names : list string) (p : progress) : option progress :=
    match type_names with
    | [] => Some p
    | name :: type_names =>
        if decide (name ∈ pr_seen p) then go type_names p
        else match fuel with
        | O => None
        | S fuel =>
            p ← process_type_names d fuel (deps_of d name) (mkProgress ({[name]} ∪ pr_seen p) (pr_order p));
            go type_names (mkProgress (pr_seen p) (pr_order p ++ [name])%list)
        end
    end.

Definition final_order (d : dependencies) : option (list string) :=
  pr_order <$> process_type_names d (size d) (tentative_type_order d) (mkProgress ∅ []).

Definition declaration_of (d : dependencies) (name : string) : declaration_kind :=
  mkDeclarationKind name (match d !! name with Some t => type_kind t | None => "" end).

(** [topologically_sort_nodes] *)
Definition topologically_sort_nodes (package_name : string) (td : typedefs) : outcome (option (list declaration_kind)) :=
  d ← all_dependencies package_name td;
  let d := sorted_dependencies d in
  Ret (fmap (M := option) (fmap (M := list) (declaration_of d)) (final_order d)).
End order.

(** ** Lemmas *)

Lemma StronglySorted_impl {A} (R S : relation A) l : (∀ a b, R a b → S a b) → StronglySorted R l → StronglySorted S l.
Proof. intros HRS. induction 1 as [|x l _ IH Hall]; constructor; [done|]. eapply Forall_impl; [exact Hall|]. intros. by apply HRS. Qed.

Lemma StronglySorted_lookup_lt {A} (R : relation A) l i j x y :
  StronglySorted R l → l !! i = Some x → l !! j = Some y → i < j → R x y.
Proof.
  intros Hs. revert i j. induction Hs as [|z l _ IH Hall]; intros [|i] [|j] Hi Hj Hij; try done; try lia.
  - injection Hi as <-. rewrite Forall_forall in Hall. apply Hall. by eapply list_elem_of_lookup_2.
  - apply (IH i j Hi Hj). lia.
Qed.

Section process.
Context (d : dependencies).
#[local] Abbreviation process := (process_type_names d).
#[local] Abbreviation deps := (deps_of d).

(** The dependencies are types of the map. *)
Definition closed : Prop := ∀ n m, m ∈ deps n → m ∈ dom d.

Lemma elem_of_deps_of n m : m ∈ deps n → ∃ t, d !! n = Some t ∧ m ∈ depends_on t.
Proof using Type. unfold deps_of. destruct (d !! n) as [t|]; [by exists t|]. by intros ?%elem_of_nil. Qed.

Lemma process_nil fuel p : process fuel [] p = Some p.
Proof using Type. by destruct fuel. Qed.

Lemma process_cons fuel n ns p :
  process fuel (n :: ns) p =
  if decide (n ∈ pr_seen p) then process fuel ns p
  else match fuel with
  | O => None
  | S f => q ← process f (deps n) (mkProgress ({[n]} ∪ pr_seen p) (pr_order p));
           process fuel ns (mkProgress (pr_seen q) (pr_order q ++ [n])%list)
  end.
Proof using Type. by destruct fuel. Qed.

(** What a call adds: every name, each once, and none that was seen. *)
Lemma process_adds fuel ns p q :
  process fuel ns p = Some q →
  ∃ new, pr_order q = (pr_order p ++ new)%list ∧ NoDup new ∧ (∀ x, x ∈ new → x ∉ pr_seen p) ∧
    (∀ x, x ∈ pr_seen q ↔ x ∈ pr_seen p ∨ x ∈ new) ∧ (∀ x, x ∈ ns → x ∈ pr_seen q).
Proof using Type.
  revert ns p q. induction (lt_wf fuel) as [fuel _ IHf]. intros ns. induction ns as [|n ns IH]; intros p q.
  - rewrite process_nil. intros [= <-]. exists []. rewrite app_nil_r. split_and!; [done|by constructor| | |];
      intros x; rewrite ?elem_of_nil; naive_solver.
  - rewrite process_cons. case_decide as Hn.
    + intros (new & H1 & H2 & H3 & H4 & H5)%IH. exists new. split_and!; [done|done|done|done|].
      intros x [->|Hx]%elem_of_cons; [|by apply H5]. apply H4. by left.
    + destruct fuel as [|f]; [done|]. intros (q1 & Hq1 & Hq)%bind_Some.
      destruct (IHf f ltac:(lia) _ _ _ Hq1) as (new1 & E1 & D1 & F1 & S1 & _). cbn [pr_seen pr_order] in *.
      destruct (IH _ _ Hq) as (new2 & E2 & D2 & F2 & S2 & N2). cbn [pr_seen pr_order] in *.
      exists (new1 ++ n :: new2)%list. split_and!.
      * rewrite E2, E1. by rewrite <-!app_assoc.
      * apply NoDup_app. split; [done|]. split.
        -- intros x Hx [->|Hx2]%elem_of_cons; [by apply (F1 n Hx), elem_of_union; left; apply elem_of_singleton|].
           apply (F2 x Hx2), S1. by right.
        -- apply NoDup_cons. split; [|done]. intros Hx. apply (F2 n Hx), S1. left. set_solver.
      * intros x [Hx|[->|Hx]%elem_of_cons]%elem_of_app; [| done|].
        -- intros Hin. apply (F1 x Hx). set_solver.
        -- intros Hin. apply (F2 x Hx), S1. left. set_solver.
      * intros x. rewrite S2, S1, elem_of_app, elem_of_cons, elem_of_union, elem_of_singleton. tauto.
      * intros x [->|Hx]%elem_of_cons; [|by apply N2]. apply S2. left. apply S1. left. set_solver.
Qed.

(** The number of the types that have not been seen is enough fuel. *)
Lemma process_total fuel ns p :
  closed → (∀ n, n ∈ ns → n ∈ dom d) → size (dom d ∖ pr_seen p) ≤ fuel → is_Some (process fuel ns p).
Proof using Type.
  intros Hcl. revert ns p. induction (lt_wf fuel) as [fuel _ IHf]. intros ns. induction ns as [|n ns IH]; intros p Hns Hsz.
  - rewrite process_nil. by eexists.
  - rewrite process_cons. case_decide as Hn; [apply IH; [|done]; intros; apply Hns; by right|].
    assert (n ∈ dom d) as Hd by (apply Hns; by left).
    assert (size (dom d ∖ pr_seen p) = S (size (dom d ∖ ({[n]} ∪ pr_seen p)))) as Hs.
    { assert (dom d ∖ pr_seen p = {[n]} ∪ (dom d ∖ ({[n]} ∪ pr_seen p))) as ->.
      { apply set_eq. intros x. destruct (decide (x = n)); set_solver. }
      rewrite size_union by set_solver. by rewrite size_singleton. }
    destruct fuel as [|f]; [lia|].
    destruct (IHf f ltac:(lia) (deps n) (mkProgress ({[n]} ∪ pr_seen p) (pr_order p))) as [q Hq];
      [intros m; apply Hcl|cbn; lia|].
    rewrite Hq. cbn [mbind option_bind]. apply IH; [intros; apply Hns; by right|]. cbn [pr_seen].
    destruct (process_adds _ _ _ _ Hq) as (new & _ & _ & _ & Hseen & _). cbn [pr_seen] in Hseen.
    etransitivity; [|exact Hsz]. apply subseteq_size. intros x. rewrite !elem_of_difference, Hseen. set_solver.
Qed.

(** A call adds types of the map only. *)
Lemma process_within fuel ns p q :
  closed → (∀ n, n ∈ ns → n ∈ dom d) → process fuel ns p = Some q → ∀ x, x ∈ pr_order q → x ∈ pr_order p ∨ x ∈ dom d.
Proof using Type.
  intros Hcl. revert ns p q. induction (lt_wf fuel) as [fuel _ IHf]. intros ns. induction ns as [|n ns IH]; intros p q Hns.
  - rewrite process_nil. intros [= <-]. by left.
  - rewrite process_cons. case_decide; [apply IH; intros; apply Hns; by right|].
    destruct fuel as [|f]; [done|]. intros (q1 & Hq1 & Hq)%bind_Some x Hx.
    apply (IH _ _ ltac:(intros; apply Hns; by right) Hq) in Hx as [Hx|Hx]; [|by right]. cbn [pr_order] in Hx.
    apply elem_of_app in Hx as [Hx|Hx%list_elem_of_singleton]; [|subst x; right; apply Hns; by left].
    apply (IHf f ltac:(lia) _ _ _ ltac:(intros y; apply Hcl) Hq1) in Hx. done.
Qed.

(** An order in which each type comes after its dependencies. *)
Definition ordered (l : list string) : Prop :=
  ∀ i n, l !! i = Some n → ∀ m, m ∈ deps n → ∃ j, j < i ∧ l !! j = Some m.

Lemma ordered_snoc l n : ordered l → (∀ m, m ∈ deps n → m ∈ l) → ordered (l ++ [n]).
Proof using Type.
  intros Hl Hn i x Hi m Hm. apply lookup_app_Some in Hi as [Hi|[Hge Hi]].
  - destruct (Hl i x Hi m Hm) as (j & Hj & Hjm). exists j. split; [done|]. by apply lookup_app_l_Some.
  - apply list_lookup_singleton_Some in Hi as [Hi <-].
    destruct (list_elem_of_lookup_1 _ _ (Hn m Hm)) as [j Hj]. exists j. pose proof (lookup_lt_Some _ _ _ Hj).
    split; [lia|]. by apply lookup_app_l_Some.
Qed.

(** Without cycles the order is kept: what has been begun and not finished ranks
    above the names of a call. *)
Lemma process_ordered (rank : string → nat) fuel ns p q :
  (∀ n m, m ∈ deps n → rank m < rank n) →
  (∀ g, g ∈ pr_seen p → g ∉ pr_order p → ∀ n, n ∈ ns → rank n < rank g) →
  (∀ x, x ∈ pr_order p → x ∈ pr_seen p) → ordered (pr_order p) →
  process fuel ns p = Some q → ordered (pr_order q).
Proof using Type.
  intros Hrank. revert ns p q. induction (lt_wf fuel) as [fuel _ IHf].
  intros ns. induction ns as [|n ns IH]; intros p q Hgrey Hsub Hord.
  - rewrite process_nil. by intros [= <-].
  - rewrite process_cons. case_decide as Hn; [apply IH; [|done|done]; intros; eapply Hgrey; [done..|by right]|].
    destruct fuel as [|f]; [done|]. intros (q1 & Hq1 & Hq)%bind_Some.
    destruct (process_adds _ _ _ _ Hq1) as (new & E1 & _ & F1 & S1 & N1). cbn [pr_seen pr_order] in *.
    assert (ordered (pr_order q1)) as Hord1.
    { refine (IHf f ltac:(lia) (deps n) _ _ _ _ _ Hq1); cbn [pr_seen pr_order]; [| |done].
      - intros g Hg Hng m Hm. apply elem_of_union in Hg as [->%elem_of_singleton|Hg]; [by apply Hrank|].
        specialize (Hrank n m Hm). specialize (Hgrey g Hg Hng n). rewrite elem_of_cons in Hgrey. specialize (Hgrey (or_introl eq_refl)). lia.
      - intros x Hx. apply elem_of_union. right. by apply Hsub. }
    assert (∀ m, m ∈ deps n → m ∈ pr_order q1) as Hdeps.
    { intros m Hm. rewrite E1, elem_of_app. specialize (N1 m Hm). apply S1 in N1 as [N1|N1]; [|by right].
      apply elem_of_union in N1 as [->%elem_of_singleton|N1].
      - specialize (Hrank n n Hm). lia.
      - left. destruct (decide (m ∈ pr_order p)) as [|Hno]; [done|]. exfalso.
        specialize (Hgrey m N1 Hno n). rewrite elem_of_cons in Hgrey. specialize (Hgrey (or_introl eq_refl)).
        specialize (Hrank n m Hm). lia. }
    refine (IH _ _ _ _ _ Hq); cbn [pr_seen pr_order].
    + intros g Hg Hng m Hm. apply S1 in Hg as [Hg|Hg]; rewrite E1, !elem_of_app, list_elem_of_singleton in Hng.
      * apply elem_of_union in Hg as [->%elem_of_singleton|Hg]; [tauto|]. apply (Hgrey g Hg); [tauto|by right].
      * tauto.
    + intros x. rewrite elem_of_app, list_elem_of_singleton, E1, elem_of_app. intros Hx. apply S1.
      destruct Hx as [[Hx|Hx]| ->]; [left; apply elem_of_union; right; by apply Hsub|by right|left; set_solver].
    + by apply ordered_snoc.
Qed.

(** Names in such an order already stay as they are. *)
Lemma process_keeps fuel ns p :
  NoDup (pr_order p ++ ns) → ordered (pr_order p ++ ns) → (∀ x, x ∈ pr_seen p ↔ x ∈ pr_order p) → 0 < fuel →
  process fuel ns p = Some (mkProgress (list_to_set ns ∪ pr_seen p) (pr_order p ++ ns)).
Proof using Type.
  intros Hnd Hord Hseen Hf. revert p Hnd Hord Hseen. induction ns as [|n ns IH]; intros p Hnd Hord Hseen.
  - rewrite process_nil, app_nil_r. destruct p as [s o]. cbn. do 2 f_equal. set_solver.
  - rewrite process_cons.
    assert (n ∉ pr_order p) as Hn.
    { apply NoDup_app in Hnd as (_ & Hd & _). intros Hin. apply (Hd n Hin). by left. }
    rewrite decide_False by (by rewrite Hseen). destruct fuel as [|f]; [lia|].
    assert (∀ m, m ∈ deps n → m ∈ pr_order p) as Hdeps.
    { intros m Hm. destruct (Hord (length (pr_order p)) n) with m as (j & Hj & Hjm); [|done|].
      - rewrite lookup_app_r, Nat.sub_diag by lia. done.
      - rewrite lookup_app_l in Hjm by done. by eapply list_elem_of_lookup_2. }
    assert (∀ ms s o, (∀ m, m ∈ ms → m ∈ s) → process f ms (mkProgress s o) = Some (mkProgress s o)) as Hskip.
    { intros ms s o. induction ms as [|m ms IHm]; intros Hms; [by rewrite process_nil|].
      rewrite process_cons, decide_True by (apply Hms; by left). apply IHm. intros; apply Hms; by right. }
    rewrite Hskip by (intros m Hm; apply elem_of_union; right; by apply Hseen, Hdeps). cbn [mbind option_bind pr_seen pr_order].
    rewrite IH; cbn [pr_seen pr_order].
    + do 2 f_equal; [set_solver|by rewrite <-app_assoc].
    + by rewrite <-app_assoc.
    + by rewrite <-app_assoc.
    + intros x. rewrite elem_of_union, elem_of_singleton, elem_of_app, list_elem_of_singleton, Hseen. tauto.
Qed.
End process.

(** ** Properties *)

Section properties.
Context `{MapOrder} `{SliceSortLaws}.

Lemma sorted_lookup d n : sorted_dependencies d !! n = own_dependencies d <$> d !! n.
Proof using Type. apply lookup_fmap. Qed.

Lemma sorted_dom d : dom (sorted_dependencies d) = dom d.
Proof using Type. apply dom_fmap_L. Qed.

Lemma pos_of_sorted d n : pos_of (sorted_dependencies d) n = pos_of d n.
Proof using Type. unfold pos_of. rewrite sorted_lookup. by destruct (d !! n). Qed.

Lemma deps_of_sorted d n m : m ∈ deps_of (sorted_dependencies d) n ↔ m ∈ deps_of d n ∧ m ∈ dom d.
Proof using All.
  unfold deps_of. rewrite sorted_lookup. destruct (d !! n) as [t|]; cbn [fmap option_fmap option_map]; [|set_solver].
  unfold own_dependencies. cbn [depends_on]. rewrite slice_sort_perm, list_elem_of_filter, elem_of_dom. tauto.
Qed.

Lemma tentative_elem d n : n ∈ tentative_type_order d ↔ n ∈ dom d.
Proof using All.
  unfold tentative_type_order. rewrite slice_sort_perm, elem_of_dom, list_elem_of_fmap. split.
  - intros ([k t] & -> & Hin%elem_of_map_order). by eexists.
  - intros [t Ht]. exists (n, t). split; [done|]. by apply elem_of_map_order.
Qed.

Lemma tentative_sorted d :
  StronglySorted (λ a b, (pos_of d a ≤ pos_of d b)%Z) (tentative_type_order (sorted_dependencies d)).
Proof using All.
  eapply StronglySorted_impl; [|apply slice_sort_sorted]. intros a b Hab. cbn beta in Hab. by rewrite !pos_of_sorted in Hab.
Qed.

(** When each type is after its dependencies in the source, the order by position is
    good. *)
Lemma tentative_ordered d :
  (∀ n m, m ∈ deps_of d n → m ∈ dom d → (pos_of d m < pos_of d n)%Z) →
  ordered (sorted_dependencies d) (tentative_type_order (sorted_dependencies d)).
Proof using All.
  intros Hpos i n Hi m [Hm Hd]%deps_of_sorted.
  assert (m ∈ tentative_type_order (sorted_dependencies d)) as Hin by (apply tentative_elem; by rewrite sorted_dom).
  apply list_elem_of_lookup_1 in Hin as [j Hj]. exists j. split; [|done].
  specialize (Hpos n m Hm Hd). destruct (decide (j < i)) as [|Hge]; [done|]. exfalso.
  destruct (decide (j = i)) as [->|Hne]; [assert (m = n) as -> by congruence; lia|].
  pose proof (tentative_sorted d) as Hs. eapply StronglySorted_lookup_lt in Hs; [|exact Hi|exact Hj|lia]. cbn in Hs. lia.
Qed.

(** The order of the declarations, by the positions they have. *)
Lemma final_order_facts (d : dependencies) :
  let d' := sorted_dependencies d in
  ∃ l, final_order d' = Some l ∧ NoDup l ∧ (∀ n, n ∈ l ↔ n ∈ dom d) ∧
    (∀ rank : string → nat, (∀ n m, m ∈ deps_of d n → m ∈ dom d → rank m < rank n) →
       ∀ i n, l !! i = Some n → ∀ m, m ∈ deps_of d n → m ∈ dom d → ∃ j, j < i ∧ l !! j = Some m) ∧
    ((∀ n m, m ∈ deps_of d n → m ∈ dom d → (pos_of d m < pos_of d n)%Z) →
       StronglySorted (λ a b, (pos_of d a ≤ pos_of d b)%Z) l).
Proof using All.
  intros d'.
  assert (closed d') as Hcl.
  { intros n m Hm. apply deps_of_sorted in Hm as [_ Hm]. unfold d'. by rewrite sorted_dom. }
  destruct (process_total d' (size d') (tentative_type_order d') (mkProgress ∅ []) Hcl) as [q Hq].
  { intros n. apply tentative_elem. }
  { cbn. rewrite difference_empty_L, size_dom. done. }
  destruct (process_adds _ _ _ _ _ Hq) as (new & E & Hnd & _ & Hseen & Hall). cbn [pr_order pr_seen app] in *.
  exists (pr_order q). split; [unfold final_order; by rewrite Hq|]. split; [by rewrite E|]. split.
  { intros n. rewrite E. split.
    - intros Hn. destruct (decide (n ∈ dom d)) as [|Hno]; [done|exfalso].
      destruct (process_within d' _ _ _ _ Hcl ltac:(intros m; apply tentative_elem) Hq n) as [Hx|Hx];
        [by rewrite E|by apply elem_of_nil in Hx|].
      unfold d' in Hx. by rewrite sorted_dom in Hx.
    - intros Hn. assert (n ∈ pr_seen q) as Hs by (apply Hall, tentative_elem; unfold d'; by rewrite sorted_dom).
      apply Hseen in Hs as [Hs|Hs]; [set_solver|done]. }
  split.
  - intros rank Hrank i n Hi m Hm Hmd.
    assert (ordered d' (pr_order q)) as Hord.
    { refine (process_ordered d' rank _ _ _ _ _ _ _ _ Hq); cbn [pr_seen pr_order].
      - intros x y Hy. apply deps_of_sorted in Hy as [Hy ?]. by apply Hrank.
      - set_solver.
      - by intros x ?%elem_of_nil.
      - intros j x Hj. by rewrite lookup_nil in Hj. }
    apply (Hord i n Hi). by apply deps_of_sorted.
  - intros Hpos%tentative_ordered. fold d' in Hpos.
    assert (pr_order q = tentative_type_order d') as ->; [|apply tentative_sorted]. rename Hpos into Hord.
    destruct (decide (size d' = 0)) as [Hz|Hpos].
    + rewrite Hz in Hq. destruct (tentative_type_order d') as [|n l] eqn:Ht.
      * rewrite process_nil in Hq. by injection Hq as <-.
      * rewrite process_cons in Hq. rewrite decide_False in Hq by set_solver. done.
    + rewrite (process_keeps d' (size d') (tentative_type_order d') (mkProgress ∅ [])) in Hq; cbn [pr_order pr_seen app].
      * by injection Hq as <-.
      * unfold tentative_type_order. rewrite slice_sort_perm. apply NoDup_map_order.
      * exact Hord.
      * intros x. set_solver.
      * lia.
Qed.

(** The type of a const group: the only one among the types of the file that it has. *)
Definition value_type (d : dependencies) (n : string) : option string :=
  match d !! n with
  | Some t =>
      if decide (type_kind t = "const") then
        match filter (λ m, is_Some (d !! m)) (depends_on t) with [m] => Some m | _ => None end
      else None
  | None => None
  end.

(** Every const group stands in the source where the function's comments want it: between
    the type and the group there are only other groups of the type. *)
Definition groups_follow_types (d : dependencies) : Prop :=
  ∀ n m, value_type d n = Some m → ∀ x, x ∈ dom d →
    (pos_of d m < pos_of d x < pos_of d n)%Z → value_type d x = Some m.

(** C39: The order of the declarations: the recursion ends; each type and const group comes
    exactly once; when no type depends on itself, be it through others, each comes
    after all it depends on; and when in the source each already does, and every const
    group follows its value type there with nothing but other groups of the type between,
    the order is that of the source.  (In a file where a group stands elsewhere the
    comments of the function want it moved behind its type; the code leaves it where it
    is, which [const_group_stays] shows.) *)
Theorem topological_order (d : dependencies) :
  let d' := sorted_dependencies d in
  ∃ l, final_order d' = Some l ∧ NoDup l ∧ (∀ n, n ∈ l ↔ n ∈ dom d) ∧
    (∀ rank : string → nat, (∀ n m, m ∈ deps_of d n → m ∈ dom d → rank m < rank n) →
       ∀ i n, l !! i = Some n → ∀ m, m ∈ deps_of d n → m ∈ dom d → ∃ j, j < i ∧ l !! j = Some m) ∧
    ((∀ n m, m ∈ deps_of d n → m ∈ dom d → (pos_of d m < pos_of d n)%Z) → groups_follow_types d →
       StronglySorted (λ a b, (pos_of d a ≤ pos_of d b)%Z) l ∧
       ∀ i j n m, value_type d n = Some m → l !! i = Some m → l !! j = Some n →
         ∀ k x, i < k < j → l !! k = Some x → pos_of d x ≠ pos_of d m → pos_of d x ≠ pos_of d n → value_type d x = Some m).
Proof using All.
  intros d'. destruct (final_order_facts d) as (l & F1 & F2 & F3 & F4 & F5). exists l. split_and!; [done..|].
  intros Hpos Hgroups. specialize (F5 Hpos). split; [done|]. intros i j n m Hv Hi Hj k x [Hik Hkj] Hk Hnm Hnn.
  apply (Hgroups n m Hv); [apply F3; by eapply list_elem_of_lookup_2|].
  pose proof (StronglySorted_lookup_lt _ _ _ _ _ _ F5 Hi Hk Hik) as Ha.
  pose proof (StronglySorted_lookup_lt _ _ _ _ _ _ F5 Hk Hj Hkj) as Hb. cbn beta in Ha, Hb. lia.
Qed.
End properties.

(** ** Witnesses *)

(** A stable sort. *)
Definition by_key (key : string → Z) (a b : string) : Prop := (key a ≤ key b)%Z.
#[local] Instance by_key_dec key a b : Decision (by_key key a b) := Z_le_dec (key a) (key b).

#[local] Instance merge_slice_sort : SliceSort := {| slice_sort key l := merge_sort (by_key key) l |}.

#[local] Instance merge_slice_sort_laws : SliceSortLaws.
Proof.
  split; intros key l.
  - apply merge_sort_Permutation.
  - assert (Transitive (by_key key)) by (intros a b c; unfold by_key; lia).
    assert (Total (by_key key)) by (intros a b; unfold by_key; lia).
    apply (StronglySorted_merge_sort (by_key key)).
Qed.

#[local] Existing Instance sorted_order.

(** Services are declared after the host that lists them. *)
Definition host_file : dependencies :=
  {["Host" := mkTypeDependency "struct" 1 ["string"; "Services"]; "Services" := mkTypeDependency "simple" 2 ["Service"];
    "Service" := mkTypeDependency "struct" 3 ["Status"; "string"]; "Status" := mkTypeDependency "enum" 4 ["string"];
    "a.go:9:1" := mkTypeDependency "const" 9 ["Status"]]}.

Definition host_rank (n : string) : nat :=
  if decide (n = "Host") then 4 else if decide (n = "Services") then 3
  else if decide (n = "Service" ∨ n = "a.go:9:1") then 2 else if decide (n = "Status") then 1 else 0.

(** A file in order: the constants of a type stand behind it. *)
Definition plain_file : dependencies :=
  {["Status" := mkTypeDependency "enum" 1 ["string"]; "a.go:2:1" := mkTypeDependency "const" 2 ["Status"];
    "Service" := mkTypeDependency "struct" 3 ["Status"]]}.

(** A property of the entries of a file that is a list. *)
Lemma every_entry (d : dependencies) (P : string → type_dependency → Prop) :
  Forall (λ nt, P nt.1 nt.2) (map_to_list d) → ∀ n t, d !! n = Some t → P n t.
Proof. intros Hall n t Hn%elem_of_map_to_list. rewrite Forall_forall in Hall. apply (Hall _ Hn). Qed.

Lemma plain_file_list :
  map_to_list plain_file = ltac:(let l := eval vm_compute in (map_to_list plain_file) in exact l).
Proof. vm_compute. reflexivity. Qed.

Lemma plain_file_in_order :
  (∀ n m, m ∈ deps_of plain_file n → m ∈ dom plain_file → (pos_of plain_file m < pos_of plain_file n)%Z) ∧
  groups_follow_types plain_file.
Proof.
  split.
  - intros n m (t & Hn & Hm)%elem_of_deps_of Hd.
    revert m Hm Hd.
    refine (every_entry plain_file (λ n t, ∀ m, m ∈ depends_on t → m ∈ dom plain_file →
      (pos_of plain_file m < pos_of plain_file n)%Z) _ n t Hn).
    rewrite plain_file_list. repeat constructor; cbn; intros m Hm Hd; repeat (apply elem_of_cons in Hm as [->|Hm]);
      try (by apply elem_of_nil in Hm); try (vm_compute; reflexivity);
      apply elem_of_dom in Hd as [x Hx]; vm_compute in Hx; discriminate.
  - intros n m Hv x Hx. apply elem_of_dom in Hx as [t Hx]. destruct (plain_file !! n) as [tn|] eqn:Hn.
    + revert m x t Hv Hx.
      refine (every_entry plain_file (λ n _, ∀ m x t, value_type plain_file n = Some m → plain_file !! x = Some t →
        (pos_of plain_file m < pos_of plain_file x < pos_of plain_file n)%Z → value_type plain_file x = Some m) _ n tn Hn).
      rewrite plain_file_list. repeat constructor; intros m x t Hv Hx; vm_compute in Hv; try discriminate;
        injection Hv as <-; revert x t Hx;
        refine (every_entry plain_file (λ x _, _) _); rewrite plain_file_list; repeat constructor; vm_compute; intros [? ?]; discriminate.
    + unfold value_type in Hv. by rewrite Hn in Hv.
Qed.

Lemma topological_order_witness :
  final_order (sorted_dependencies host_file) = Some ["Status"; "Service"; "Services"; "Host"; "a.go:9:1"] ∧
  ∃ l, final_order (sorted_dependencies host_file) = Some l ∧ NoDup l ∧
    (∀ i n, l !! i = Some n → ∀ m, m ∈ deps_of host_file n → m ∈ dom host_file → ∃ j, j < i ∧ l !! j = Some m) ∧
  ∃ l, final_order (sorted_dependencies plain_file) = Some l ∧ StronglySorted (λ a b, (pos_of plain_file a ≤ pos_of plain_file b)%Z) l.
Proof.
  split; [vm_compute; reflexivity|].
  assert (∃ l, final_order (sorted_dependencies plain_file) = Some l ∧
    StronglySorted (λ a b, (pos_of plain_file a ≤ pos_of plain_file b)%Z) l) as Hplain.
  { destruct (topological_order plain_file) as (l & F1 & _ & _ & _ & F5). exists l. split; [exact F1|].
    apply F5; apply plain_file_in_order. }
  destruct (topological_order host_file) as (l & F1 & F2 & _ & F3 & _). exists l. split; [exact F1|]. split; [exact F2|].
  split; [|exact Hplain]. apply (F3 host_rank).
  assert (Forall (λ nt, Forall (λ m, host_rank m < host_rank nt.1) (depends_on nt.2)) (map_to_list host_file)) as Hb.
  { let l := eval vm_compute in (map_to_list host_file) in assert (map_to_list host_file = l) as -> by (vm_compute; reflexivity).
    repeat constructor; cbn; lia. }
  intros n m (t & Hn & Hm)%elem_of_deps_of _.
  apply elem_of_map_to_list in Hn. rewrite Forall_forall in Hb. specialize (Hb _ Hn). rewrite Forall_forall in Hb. by apply Hb.
Defined.

(** The constants of a type do not follow it when another declaration is between
    them: the position of their group is moved in a copy only. *)
Lemma const_group_stays :
  let d := {["Status" := mkTypeDependency "enum" 1 ["string"]; "Other" := mkTypeDependency "struct" 2 [];
             "a.go:9:1" := mkTypeDependency "const" 9 ["Status"]]} in
  final_order (sorted_dependencies d) = Some ["Status"; "Other"; "a.go:9:1"].
Proof. vm_compute. reflexivity. Qed.
